(* ===== verification/_CoqProject ===== *)
-Q . S2P
Prelude.v
MachPort.v
Prng.v
OsRefcnt.v
MigHash.v
KmsgQueue.v
KmsgSpec.v
IpcTable.v
IpcHash.v
IpcHashSpec.v
IpcState.v
IpcSpace.v
EntryFacts.v
IpcEntry.v
EntrySpec.v
EntryProps.v
IpcPort.v
PortSpec.v
IpcChain.v
IpcMqueue.v
MqueueSpec.v
Samples.v
IpcRequest.v
RequestProps.v
IpcPortLife.v
DestroyProps.v
MqueueProps.v
IpcTransit.v
TransitGraph.v
TransitProps.v
ImportanceProps.v
IpcKobject.v
KobjectProps.v
IpcRight.v
RightDrop.v
RightCopy.v
IpcObject.v
IpcEventlink.v
SyncSema.v
MachPortCalls.v
MachPortInfo.v
RightSpec.v
RightUrefs.v
LookupProps.v
EventlinkSpec.v
EventlinkProps.v
SemaProps.v
GuardProps.v
RightMove.v
RightFresh.v
RightCorners.v
InfoProps.v
AllocProps.v
VoucherCache.v
VoucherManager.v
IpcVoucher.v
IpcVoucherCalls.v
VoucherSpec.v
VoucherProps.v
VoucherLayer.v
VoucherCallProps.v
VoucherSystem.v
VoucherMessage.v
