(* ===== verification/Prelude.v ===== *)
(** * Verification of the Mach IPC capability layer of XNU 8020.140.41

    XNU's tasks hold capabilities (send, send-once and receive rights, port
    sets, dead names) in an IPC space, a table of entries indexed by port
    names.  This development models that layer, the sources under
    [src/xnu-8020.140.41/osfmk/ipc/], [kern/ipc_kobject.c] and the two small
    libraries they rest on, and proves what its clients rely on.

    ** The program and its parts

    - A space ([ipc_space.c]) owns a table of entries ([ipc_entry.c]) threaded
      by a randomised free list; an entry's name is its index and a generation
      number.  A reverse hash kept inside the table ([ipc_hash.c]) leads from a
      port to the entry of its send right.
    - A port ([ipc_port.c]) counts its send, send-once and make-send rights,
      keeps references, a table of dead-name and send-possible requests, and
      sends notifications ([ipc_notify.c]).
    - The rights code ([ipc_right.c]) is where both meet: it moves rights between
      names and ports.  [ipc_object.c] is its front end for messages and calls,
      [mach_port.c] the kernel calls on top of it.
    - The message queue of a port ([ipc_mqueue.c], [ipc_kmsg.c]) holds the messages
      sent to it, blocks senders while it is full and receivers while it is empty,
      and hands messages to threads that wait on the port or on a port set it is in.
    - A receive right inside a message makes its port wait in the queue of another port;
      [ipc_importance.c] keeps these chains free of circles and their boosts in step.
    - A port of the kernel's own space stands for a kernel object
      ([kern/ipc_kobject.c]); messages to it are dispatched by their ids.  An event link
      ([ipc_eventlink.c]) is such an object: a pair of counters two threads signal and
      wait for each other through.
    - A voucher ([ipc_voucher.c]) is a set of attribute values that resource managers hand
      out; each attribute has a control that keeps a value once, however many vouchers
      refer to it, and gives it back to its manager when none does.  Recipes, sequences of
      commands in memory, make vouchers; equal vouchers are one.
    - [libkern/os/refcnt.c] counts references, [osfmk/prng/prng_random.c]
      gives the random bits of free lists and rollover points, [ipc_table.c]
      the sizes tables may have.

    ** Files

    - [Prelude]: outcomes, the state monad, total weakest preconditions, arrays,
      automation.  [MachPort]: names, rights and the bits of an entry
      ([mach/port.h], [ipc_entry.h]).  [Prng], [OsRefcnt], [IpcTable]: the files
      above, with [OsRefcnt.ref_history_exact] and
      [IpcTable.ipc_table_init_contract].
    - [IpcHash]: the reverse hash, its invariant [hash_wf] and the lemma of each
      operation; [IpcHashSpec]: any history of operations refines a finite
      map, and the displacement peg where it does not.
    - [IpcState]: the state [kst] (one space, ports and port sets by address,
      the port timestamp, the trace of events, the clock of interference) and its
      accessors.  [IpcSpace], [IpcEntry]: [ipc_space.c] and [ipc_entry.c];
      [EntryFacts], [EntrySpec], [EntryProps]: the invariant [space_wf] of a
      space with its free list, and claim, deallocation, allocation of a name and
      reuse of names.
    - [IpcPort], [IpcRequest], [IpcPortLife]: [ipc_port.c], [ipc_notify.c],
      [ipc_pset.c]; [PortSpec], [RequestProps]: the counts of a port and its
      request table as refinements.
    - [IpcRight], [RightDrop], [RightCopy]: [ipc_right.c] (lookups and requests;
      check, clean, terminate, destroy, dealloc, delta, destruct; copyin, copyout,
      rename).  [IpcObject]: [ipc_object.c].
    - [Samples]: small concrete spaces the theorems are tried on.
      [RightSpec], [RightUrefs], [LookupProps], [RightMove], [RightFresh],
      [RightCorners]: the theorems on rights.
    - [KmsgQueue]: the queues messages are threaded into ([ipc_kmsg.c]), at the
      level of their pointers; [KmsgSpec]: they refine lists with overrides.
    - [IpcMqueue]: [ipc_mqueue.c]; threads and what they wait for are part of the
      state, the queue of a port is the list [KmsgSpec] justifies.  [MqueueSpec]: the
      invariant that ties the count of a queue to its messages and to the slots senders
      hold, and what each critical section does to it.  [MqueueProps]: the transition
      system of senders and receivers around one port, its safety and its order.
    - [IpcChain], [IpcTransit]: destination chains of ports, importance deltas and the
      circularity check ([ipc_port.c], [ipc_importance.c]); [TransitGraph],
      [TransitProps], [ImportanceProps]: chains stay free of circles, boosts are
      conserved.
    - [MachPortCalls], [MachPortInfo]: the kernel calls of [mach_port.c].
      [GuardProps], [DestroyProps], [AllocProps], [InfoProps]: guards, the end of a port,
      allocation and destruction through the calls, listings.
    - [MigHash]: the dispatch table of kernel services ([ipc_kobject.c]) is a finite map.
      [IpcKobject]: ports of kernel objects ([ipc_kobject.c]); [KobjectProps]: their
      no-senders protocol.
    - [IpcEventlink]: event links ([ipc_eventlink.c]), on a state of their own around the
      kernel's; [EventlinkSpec]: the invariant of the threads that wait on one;
      [EventlinkProps]: the transition system of its sections.
    - [SyncSema]: semaphores ([osfmk/kern/sync_sema.c]), on a state with semaphores and the
      tasks that own them; [SemaProps]: the transition system of the sections of one
      semaphore, and the wait result it may return.
    - [VoucherCache]: the value cache of a voucher attribute ([ipc_voucher.c]), the sections
      under the lock of its control; [VoucherManager]: the interface of resource managers,
      their contract, and the manager of user data; [VoucherSpec]: the cache refines a
      finite map; [VoucherProps]: the transition system of threads, control and manager.
    - [IpcVoucher], [IpcVoucherCalls]: vouchers, the table of managers, recipes and the
      calls ([ipc_voucher.c]), on a state with vouchers and controls by address around the
      kernel's; [VoucherLayer]: the calls are sequences of steps of the protocol of
      [VoucherProps], for any managers with the contract [Managers]; [VoucherCallProps]: the
      invariant of all vouchers and what each command and call does to it;
      [VoucherSystem]: every state the calls reach.  [VoucherMessage]: the vouchers of
      messages, and user data under two keys.
    ** What the theorems show

    - Refinement: the reverse hash is a finite map, the rights of a port are
      exact counters with exactly the no-senders notifications they call for, the
      request table is a finite map under allocation, cancellation and growth, a guard
      is a lock with a key, a message queue is a list.
    - Message passing: for any number of senders and receivers in any order, with
      aborted waits, new limits and the death of the port, a thread is blocked only
      while it has to be, messages come out in the order they went in with consecutive
      sequence numbers, and every critical section returns.
    - Event links: no signal is lost, a wait that succeeds was signalled.  Semaphores: tokens
      are neither lost nor made, nobody sleeps while there is one.
    - Kernel objects: each reference an object gives to its port is given back by one
      no-senders notification; the dispatch table finds what was filed, and nothing else.
    - Vouchers: with any number of threads and any manager that keeps its contract, values
      are neither leaked nor given back while a voucher refers to them, and the table of
      values stays well formed; user data keeps the contract.  With vouchers on top of it: from
      the registration of the managers on, whatever recipes are run, a voucher's values are
      counted exactly, equal vouchers are one voucher, no recipe is read past its end.
    - Invariants: a created space is well formed, and claim, deallocation,
      allocation by name, copyin and copyout keep it so.
    - Safety: a name is not reissued for an entry before 15 other uses of it; a
      lock-free translation returns an object that is current and alive whatever
      other threads do; reference counters panic instead of wrapping; ports never
      wait for themselves in a circle.
    - Equivalence: the lock-free lookup and the locked one, the fast path
      of [ipc_object_insert_send_right] and copyin followed by copyout,
      [ipc_right_dealloc] and [ipc_right_delta] by -1.
    - Round trips: a right moved out of a space and back.
    - Corners where the code does not do what it means to: each is a theorem
      on the definition as the source has it.

    ** Modelling conventions

    An operation is a function of the state monad [M kst]; it returns, panics
    ([panic], a failed [assert], an index out of range, a dangling address) or runs
    out of fuel ([Diverges]).  [wp] is total: a theorem stated with it rules out
    panics and divergence.  [assert] is checked when [MACH_ASSERT] is set
    ([KernelConfig]; set in DEVELOPMENT and DEBUG kernels).  Integers are [Z] with
    [u32] where the C type wraps.  Loops without a structural argument take fuel:
    the length of the table for probe loops and scans of the free list, the number
    of rounds and rescans as explicit parameters where the number depends on
    other threads (table growth, memory for listings), one more than the number of ports
    for walks along a chain, of threads for the loops that look for a receiver, of
    messages for the loops that raise overrides, the size of the dispatch table for its
    probe loops; the theorems give the fuel that is
    enough.

    Locks are implicit: an operation runs atomically, except at the points where
    the source drops the lock that protects what it works on, or reads without
    one (table growth, lock-free lookup, send-possible notification, growth of
    request tables): there [Concurrency.other] is an arbitrary change of the
    state by other threads, constrained only by a theorem's hypotheses.

    A thread blocks by leaving a critical section with [th_waits_on] set: sending and
    receiving, and waiting on an event link or a semaphore, are split there,
    [MqueueProps.perform], [EventlinkProps.el_perform] and [SemaProps.sema_perform] run the
    pieces.  Wait queues are the sets of threads that wait on an object; which of them is woken is the choice of
    [Messages].

    Calls into code outside the model (MIG stubs that send a notification,
    turnstiles, importance of tasks, kernel objects, knotes, guard
    exceptions) are events of the trace; what the modelled code asks of such
    code is a field of [Externals], of [Messages] for the contents of messages, of
    [KernelMap] for the memory of listings.

    ** Not modelled

    Copying messages in and out ([ipc_kmsg.c], [mach_msg.c]), turnstiles and the
    importance of tasks, FLIPC, kqueue filters of port sets; of
    vouchers the manager of pthread priorities, activity ids and trace points;
    service port labels, labels of kernel objects and the server loop that runs their stubs; deferred freeing of tables and spaces; the lock functions.
    The transition system of [MqueueProps] leaves peeking receivers out ([MACH_PEEK_MSG],
    one thread per port by convention) and ports that join a set while a thread waits on
    it.  The calls on vouchers in [VoucherSystem] run one after the other (the sections of
    the value cache interleave in [VoucherProps]), take their recipes from the kernel, and
    each key has counts of its own in its manager; the kernel's user-data manager shares them between two
    keys, [VoucherMessage.shared_user_data_leaks] shows what comes of it.  The number of
    calls is bounded by the width of the reference counts ([VLIMIT]).  Everything outside the IPC layer and its semaphores (VM, BSD, I/O Kit,
    machine-dependent code) is left aside. *)

From stdpp Require Export base list list_numbers gmap strings.
From Stdlib Require Export ZArith Lia.

#[export] Set Default Goal Selector "!".
Open Scope Z_scope.

(** ** Build configuration

    [assert()] is compiled in only when [MACH_ASSERT] is set (DEVELOPMENT and
    DEBUG kernels).  Definitions that contain an [assert] take the
    configuration as a class argument, so a theorem holds for both builds
    unless it fixes the flag. *)
Class KernelConfig := { MACH_ASSERT : bool }.

Definition RELEASE : KernelConfig := {| MACH_ASSERT := false |}.
Definition DEVELOPMENT : KernelConfig := {| MACH_ASSERT := true |}.

(** ** Outcomes

    A piece of kernel code returns ([Done]), panics (a [panic()], a failed
    [assert], an access outside an array) or keeps looping past the bound of
    its model ([Diverges]). *)
Inductive outcome (A : Type) : Type :=
| Done (a : A)
| Panic (why : string)
| Diverges.
Arguments Done {A} a.
Arguments Panic {A} why.
Arguments Diverges {A}.

Definition obind {A B} (m : outcome A) (k : A -> outcome B) : outcome B :=
  match m with
  | Done a => k a
  | Panic why => Panic why
  | Diverges => Diverges
  end.

Declare Scope xnu_scope.
Delimit Scope xnu_scope with xnu.
Open Scope xnu_scope.

Notation "'let!' x ':=' m 'in' k" := (obind m (fun x => k))
  (at level 10, x pattern, m at level 100, k at level 200,
   format "'[v' 'let!'  x  ':='  m  'in' '/' k ']'") : xnu_scope.
Notation "m ';;!' k" := (obind m (fun _ => k))
  (at level 199, right associativity,
   format "'[v' m  ';;!' '/' k ']'") : xnu_scope.

(** [assert(b)]: checked only in MACH_ASSERT kernels. *)
Definition kassert `{KernelConfig} (b : bool) (what : string) : outcome unit :=
  if MACH_ASSERT && negb b then Panic what else Done tt.

Lemma kassert_true `{KernelConfig} b what : b = true -> kassert b what = Done tt.
Proof. intros ->. unfold kassert. by rewrite andb_false_r. Qed.

Lemma kassert_Done `{KernelConfig} b what r :
  kassert b what = Done r -> MACH_ASSERT = true -> b = true.
Proof. unfold kassert. destruct b, MACH_ASSERT; naive_solver. Qed.

(** ** State monad with outcomes *)
Definition M (S A : Type) : Type := S -> outcome (A * S).

Definition ret {S A} (a : A) : M S A := fun s => Done (a, s).
Definition bind {S A B} (m : M S A) (k : A -> M S B) : M S B :=
  fun s => match m s with
           | Done (a, s') => k a s'
           | Panic why => Panic why
           | Diverges => Diverges
           end.
Definition gets {S A} (f : S -> A) : M S A := fun s => Done (f s, s).
Definition modify {S} (f : S -> S) : M S unit := fun s => Done (tt, f s).
Definition panic {S A} (why : string) : M S A := fun _ => Panic why.
Definition lift {S A} (o : outcome A) : M S A :=
  fun s => match o with
           | Done a => Done (a, s)
           | Panic why => Panic why
           | Diverges => Diverges
           end.
Definition massert `{KernelConfig} {S} (b : bool) (what : string) : M S unit :=
  lift (kassert b what).
Definition when {S} (b : bool) (m : M S unit) : M S unit :=
  if b then m else ret tt.

Notation "'let*' x ':=' m 'in' k" := (bind m (fun x => k))
  (at level 10, x pattern, m at level 100, k at level 200,
   format "'[v' 'let*'  x  ':='  m  'in' '/' k ']'") : xnu_scope.
Notation "m ';;*' k" := (bind m (fun _ => k))
  (at level 199, right associativity,
   format "'[v' m  ';;*' '/' k ']'") : xnu_scope.

(** ** Weakest preconditions (total: no panic, no divergence) *)
Definition wp {S A} (m : M S A) (Q : A -> S -> Prop) (s : S) : Prop :=
  match m s with
  | Done (a, s') => Q a s'
  | _ => False
  end.

Section wp_rules.
Context {S A B : Type}.
Implicit Types (s : S).

Lemma wp_ret (a : A) Q s : Q a s -> wp (ret a) Q s.
Proof. done. Qed.

Lemma wp_bind (m : M S A) (k : A -> M S B) Q s :
  wp m (fun a => wp (k a) Q) s -> wp (bind m k) Q s.
Proof. unfold wp, bind. by destruct (m s) as [[??]| |]. Qed.

Lemma wp_gets (f : S -> A) Q s : Q (f s) s -> wp (gets f) Q s.
Proof. done. Qed.

Lemma wp_modify (f : S -> S) Q s : Q tt (f s) -> wp (modify f) Q s.
Proof. done. Qed.

Lemma wp_lift (o : outcome A) a Q s : o = Done a -> Q a s -> wp (lift o) Q s.
Proof. by intros ->. Qed.

Lemma wp_massert `{KernelConfig} b what Q s :
  b = true -> Q tt s -> wp (massert b what) Q s.
Proof. intros Hb HQ. unfold wp, massert. by rewrite kassert_true. Qed.

Lemma wp_when b (m : M S unit) Q s :
  (b = true -> wp m Q s) -> (b = false -> Q tt s) -> wp (when b m) Q s.
Proof. destruct b; naive_solver. Qed.

Lemma wp_mono (m : M S A) (Q Q' : A -> S -> Prop) s :
  wp m Q s -> (forall a s', Q a s' -> Q' a s') -> wp m Q' s.
Proof. unfold wp. destruct (m s) as [[??]| |]; naive_solver. Qed.

Lemma wp_inv (m : M S A) Q s :
  wp m Q s <-> exists a s', m s = Done (a, s') /\ Q a s'.
Proof.
  unfold wp. destruct (m s) as [[a s']| |].
  - split; [intros ?; by exists a, s'|intros (?&?&[= <- <-]&?); done].
  - split; [done|intros (?&?&?&?); done].
  - split; [done|intros (?&?&?&?); done].
Qed.

Lemma wp_elim (m : M S A) Q s : wp m Q s -> exists a s', m s = Done (a, s') /\ Q a s'.
Proof. apply wp_inv. Qed.
End wp_rules.

(** ** Generic facts on arrays indexed by [Z] *)
Section arrays.
Context {E : Type} `{Inhabited E}.
Implicit Types (t : list E).

(** [t[i]], where the source reads it; out of range is a fault. *)
Definition aget t (i : Z) : outcome E :=
  if i <? 0 then Panic "array index out of bounds"
  else match t !! Z.to_nat i with
       | Some e => Done e
       | None => Panic "array index out of bounds"
       end.

(** [t[i]] as a total function, for specifications. *)
Definition anth t (i : Z) : E := t !!! Z.to_nat i.

(** [t[i] = e]; the definitions read [t[i]] first, so the index is valid. *)
Definition aset t (i : Z) (e : E) : list E := <[Z.to_nat i := e]> t.

Definition alen t : Z := Z.of_nat (length t).

Lemma aget_in t i : 0 <= i < alen t -> aget t i = Done (anth t i).
Proof.
  unfold aget, anth, alen. intros ?. destruct (Z.ltb_spec i 0); [lia|].
  destruct (lookup_lt_is_Some_2 t (Z.to_nat i)) as [e He]; [lia|].
  rewrite He. f_equal. symmetry. by apply list_lookup_total_correct.
Qed.

Lemma alen_aset t i e : alen (aset t i e) = alen t.
Proof. unfold alen, aset. by rewrite length_insert. Qed.

Lemma anth_aset_eq t i e : 0 <= i < alen t -> anth (aset t i e) i = e.
Proof. unfold anth, aset, alen. intros ?. apply list_lookup_total_insert_eq. lia. Qed.

Lemma anth_aset_ne t i j e : 0 <= i -> 0 <= j -> i <> j -> anth (aset t i e) j = anth t j.
Proof. unfold anth, aset. intros ???. apply list_lookup_total_insert_ne. lia. Qed.

Lemma anth_aset t i j e :
  0 <= i < alen t -> 0 <= j ->
  anth (aset t i e) j = if i =? j then e else anth t j.
Proof.
  intros ??. destruct (Z.eqb_spec i j) as [->|].
  - by apply anth_aset_eq.
  - apply anth_aset_ne; lia.
Qed.

Lemma aset_id t i : 0 <= i < alen t -> aset t i (anth t i) = t.
Proof.
  unfold aset, anth, alen. intros ?. apply list_insert_id.
  apply list_lookup_lookup_total_lt. lia.
Qed.

Lemma array_ext t t' :
  alen t = alen t' -> (forall i, 0 <= i < alen t -> anth t i = anth t' i) -> t = t'.
Proof.
  unfold alen, anth. intros Hl Hi. apply list_eq. intros i.
  destruct (decide (i < length t)%nat) as [Hlt|].
  - rewrite !list_lookup_lookup_total_lt by lia. f_equal.
    specialize (Hi (Z.of_nat i)). rewrite Nat2Z.id in Hi. apply Hi. lia.
  - rewrite !lookup_ge_None_2 by lia. done.
Qed.

(** An array given by a function of the index. *)
Definition tabulate (n : Z) (f : Z -> E) : list E := f <$> seqZ 0 n.
Lemma alen_tabulate n f : 0 <= n -> alen (tabulate n f) = n.
Proof. unfold alen, tabulate. intros. rewrite length_fmap, length_seqZ. lia. Qed.
Lemma anth_tabulate n f i : 0 <= i < n -> anth (tabulate n f) i = f i.
Proof.
  unfold anth, tabulate. intros ?. apply list_lookup_total_correct.
  rewrite list_lookup_fmap, lookup_seqZ_lt by lia. simpl. f_equal. f_equal. lia.
Qed.

Lemma alen_replicate n (x : E) : 0 <= n -> alen (replicate (Z.to_nat n) x) = n.
Proof. unfold alen. intros. rewrite length_replicate. lia. Qed.
Lemma anth_replicate n (x : E) i : 0 <= i < n -> anth (replicate (Z.to_nat n) x) i = x.
Proof.
  unfold anth. intros. apply list_lookup_total_correct, lookup_replicate_2. lia.
Qed.

Lemma anth_elem_of t i : 0 <= i < alen t -> anth t i ∈ t.
Proof. unfold anth, alen. intros ?. apply list_elem_of_lookup_total_2. lia. Qed.

Lemma elem_of_anth t e : e ∈ t -> exists i, 0 <= i < alen t /\ anth t i = e.
Proof.
  intros [i [Hlt Hi]]%list_elem_of_lookup_total. exists (Z.of_nat i). unfold anth, alen.
  rewrite Nat2Z.id. split; [lia|done].
Qed.
End arrays.

(** Reading an array inside a computation. *)
Lemma wp_array {S E} `{Inhabited E} (t : list E) i Q (s : S) :
  0 <= i < alen t -> Q (anth t i) s -> wp (lift (aget t i)) Q s.
Proof. intros Hi HQ. apply (wp_lift _ (anth t i)); [by apply aget_in|done]. Qed.

(** Counting the elements that satisfy a predicate, after one update. *)
Lemma length_filter_insert {A} (P : A -> Prop) `{!forall x, Decision (P x)} (l : list A) i x y :
  l !! i = Some x ->
  (length (filter P (<[i := y]> l)) + (if decide (P x) then 1 else 0) =
   length (filter P l) + (if decide (P y) then 1 else 0))%nat.
Proof.
  revert i. induction l as [|z l IH]; intros [|i]; simpl; try done.
  - intros [= ->]. rewrite !filter_cons. repeat case_decide; simpl; lia.
  - intros Hi. specialize (IH _ Hi). rewrite !filter_cons.
    destruct (decide (P z)); simpl; lia.
Qed.

Lemma filter_fmap_comm {A B} (f : A -> B) (P : B -> Prop) `{!forall x, Decision (P x)} (l : list A) :
  filter P (f <$> l) = f <$> filter (fun x => P (f x)) l.
Proof.
  induction l as [|x l IH]; [done|]. rewrite fmap_cons, !filter_cons.
  case_decide; [rewrite fmap_cons; by f_equal|done].
Qed.

(** Selecting elements is selecting their positions. *)
Lemma filter_positions {A} `{Inhabited A} (P : A -> Prop)
    `{!forall x, Decision (P x)} (l : list A) :
  filter P l = (fun i => l !!! i) <$> filter (fun i => P (l !!! i)) (seq 0 (length l)).
Proof.
  rewrite <- (filter_fmap_comm (fun i => l !!! i) P (seq 0 (length l))).
  f_equal. apply list_eq. intros i.
  rewrite list_lookup_fmap. destruct (decide (i < length l)%nat).
  - rewrite lookup_seq_lt by lia. simpl. by rewrite list_lookup_lookup_total_lt.
  - rewrite lookup_seq_ge by lia. simpl. apply lookup_ge_None_2. lia.
Qed.

Lemma length_filter_positions {A} `{Inhabited A} (P : A -> Prop)
    `{!forall x, Decision (P x)} (l : list A) :
  length (filter P l) = length (filter (fun i => P (l !!! i)) (seq 0 (length l))).
Proof. by rewrite filter_positions, length_fmap. Qed.

Lemma last_cons_default {A} (l : list A) : forall x d, List.last (x :: l) d = List.last l x.
Proof.
  induction l as [|y l IH]; intros x d; [done|].
  change (List.last (y :: l) d = List.last (y :: l) x). by rewrite !IH.
Qed.

Lemma forallb_seqZ (f : Z -> bool) n :
  forallb f (seqZ 0 n) = true -> forall i, 0 <= i < n -> f i = true.
Proof.
  rewrite forallb_forall. intros Hall i Hi. apply Hall.
  apply list_elem_of_In, elem_of_seqZ. lia.
Qed.

(** ** Proof automation *)

(** Case analysis on every boolean comparison of integers in sight, turning
    each into its arithmetic meaning. *)
Ltac zcase :=
  repeat match goal with
  | |- context [?a =? ?b] => destruct (Z.eqb_spec a b)
  | |- context [?a <? ?b] => destruct (Z.ltb_spec a b)
  | |- context [?a <=? ?b] => destruct (Z.leb_spec a b)
  | H : context [?a =? ?b] |- _ => destruct (Z.eqb_spec a b)
  | H : context [?a <? ?b] |- _ => destruct (Z.ltb_spec a b)
  | H : context [?a <=? ?b] |- _ => destruct (Z.leb_spec a b)
  end.

Ltac zsolve := zcase; simpl in *; try lia; try congruence.

(** [lia] with quotients and remainders by constants. *)
Ltac dlia := Z.to_euclidean_division_equations; lia.

(** Lengths and reads of updated arrays, by rewriting. *)
Create Rewrite HintDb arrays.
#[export] Hint Rewrite @alen_aset @aset_id @anth_aset_eq @alen_tabulate @anth_tabulate
  @alen_replicate @anth_replicate using lia : arrays.
Ltac arrays := autorewrite with arrays.

(** Closing the leaves of a symbolic execution. *)
Create HintDb ipc.
#[export] Hint Resolve wp_ret wp_gets wp_modify wp_massert anth_elem_of aget_in : ipc.
