(* ===== verification/MachPort.v ===== *)
(** * Port names, rights and entry bits

    The vocabulary of the IPC code: return codes and dispositions
    ([mach/kern_return.h], [mach/message.h]), port names and rights
    ([mach/port.h]), the packed [ie_bits] word of a capability entry and its
    generation counter ([ipc/ipc_entry.h]).  Words are integers with the
    source's masks; [u32] is the wrap-around of [natural_t] arithmetic. *)

From S2P Require Import Prelude.

(** ** Return codes *)
Inductive kern_return_t :=
| KERN_SUCCESS
| KERN_NO_SPACE
| KERN_INVALID_ARGUMENT
| KERN_FAILURE
| KERN_RESOURCE_SHORTAGE
| KERN_NAME_EXISTS
| KERN_INVALID_NAME
| KERN_INVALID_TASK
| KERN_INVALID_RIGHT
| KERN_INVALID_VALUE
| KERN_INVALID_CAPABILITY
| KERN_RIGHT_EXISTS
| KERN_NOT_IN_SET
| KERN_ALREADY_IN_SET
| KERN_NOT_SUPPORTED
| KERN_DENIED
| KERN_MEMORY_ERROR
| KERN_ABORTED
| KERN_ALREADY_WAITING
| KERN_TERMINATED
| KERN_NOT_WAITING
| KERN_OPERATION_TIMED_OUT.

#[global] Instance kern_return_eq_dec : EqDecision kern_return_t.
Proof. solve_decision. Defined.

Definition u32 (x : Z) : Z := x mod 2 ^ 32.
Definition u64 (x : Z) : Z := x mod 2 ^ 64.

(** C truth value of [x & m]. *)
Definition has (x m : Z) : bool := negb (Z.land x m =? 0).

(** ** Port names *)
Definition MACH_PORT_NULL : Z := 0.
Definition MACH_PORT_DEAD : Z := 0xffffffff.
Definition MACH_PORT_SPECIAL_DEFAULT : Z := 1.
Definition MACH_PORT_VALID (name : Z) : bool :=
  negb (name =? MACH_PORT_NULL) && negb (name =? MACH_PORT_DEAD).

Definition MACH_PORT_INDEX (name : Z) : Z := Z.shiftr name 8.
Definition MACH_PORT_GEN (name : Z) : Z := u32 (Z.shiftl (Z.land name 0xff) 24).
Definition MACH_PORT_MAKE (index gen : Z) : Z :=
  Z.lor (u32 (Z.shiftl index 8)) (Z.shiftr gen 24).

(** ** Rights *)
Definition MACH_PORT_RIGHT_SEND : Z := 0.
Definition MACH_PORT_RIGHT_RECEIVE : Z := 1.
Definition MACH_PORT_RIGHT_SEND_ONCE : Z := 2.
Definition MACH_PORT_RIGHT_PORT_SET : Z := 3.
Definition MACH_PORT_RIGHT_DEAD_NAME : Z := 4.
Definition MACH_PORT_RIGHT_LABELH : Z := 5.
Definition MACH_PORT_RIGHT_NUMBER : Z := 6.

Definition MACH_PORT_TYPE (right : Z) : Z := u32 (Z.shiftl 1 (right + 16)).
Definition MACH_PORT_TYPE_NONE : Z := 0.
Definition MACH_PORT_TYPE_SEND : Z := 0x10000.
Definition MACH_PORT_TYPE_RECEIVE : Z := 0x20000.
Definition MACH_PORT_TYPE_SEND_ONCE : Z := 0x40000.
Definition MACH_PORT_TYPE_PORT_SET : Z := 0x80000.
Definition MACH_PORT_TYPE_DEAD_NAME : Z := 0x100000.
Definition MACH_PORT_TYPE_EX_RECEIVE : Z := 0x200000.
Definition MACH_PORT_TYPE_SEND_RECEIVE : Z := 0x30000.
Definition MACH_PORT_TYPE_SEND_RIGHTS : Z := 0x50000.
Definition MACH_PORT_TYPE_PORT_RIGHTS : Z := 0x70000.
Definition MACH_PORT_TYPE_PORT_OR_DEAD : Z := 0x170000.
Definition MACH_PORT_TYPE_ALL_RIGHTS : Z := 0x1f0000.
Definition MACH_PORT_TYPE_DNREQUEST : Z := 0x80000000.
Definition MACH_PORT_TYPE_SPREQUEST : Z := 0x40000000.
Definition MACH_PORT_TYPE_SPREQUEST_DELAYED : Z := 0x20000000.

Definition MACH_PORT_UREFS_MAX : Z := 0xffff.

(** [urefs] is unsigned and [delta] a signed [integer_t] that the sum converts
    to unsigned. *)
Definition MACH_PORT_UREFS_OVERFLOW (urefs delta : Z) : bool :=
  (0 <? delta) &&
  ((u32 (urefs + delta) <=? urefs) || (MACH_PORT_UREFS_MAX <=? u32 (urefs + delta))).
Definition MACH_PORT_UREFS_UNDERFLOW (urefs delta : Z) : bool :=
  (delta <? 0) && (urefs <? u32 (- delta)).

(** ** Message dispositions *)
Definition MACH_MSG_TYPE_PORT_NONE : Z := 0.
Definition MACH_MSG_TYPE_MOVE_RECEIVE : Z := 16.
Definition MACH_MSG_TYPE_MOVE_SEND : Z := 17.
Definition MACH_MSG_TYPE_MOVE_SEND_ONCE : Z := 18.
Definition MACH_MSG_TYPE_COPY_SEND : Z := 19.
Definition MACH_MSG_TYPE_MAKE_SEND : Z := 20.
Definition MACH_MSG_TYPE_MAKE_SEND_ONCE : Z := 21.
Definition MACH_MSG_TYPE_PORT_RECEIVE : Z := MACH_MSG_TYPE_MOVE_RECEIVE.
Definition MACH_MSG_TYPE_PORT_SEND : Z := MACH_MSG_TYPE_MOVE_SEND.
Definition MACH_MSG_TYPE_PORT_SEND_ONCE : Z := MACH_MSG_TYPE_MOVE_SEND_ONCE.
Definition MACH_MSG_TYPE_PORT_ANY_SEND (x : Z) : bool :=
  (MACH_MSG_TYPE_MOVE_SEND <=? x) && (x <=? MACH_MSG_TYPE_MAKE_SEND_ONCE).

(** ** Entry bits *)
Definition IE_REQ_NONE : Z := 0.
Definition IE_BITS_UREFS_MASK : Z := 0xffff.
Definition IE_BITS_UREFS (bits : Z) : Z := Z.land bits IE_BITS_UREFS_MASK.
Definition IE_BITS_TYPE_MASK : Z := 0x1f0000.
Definition IE_BITS_TYPE (bits : Z) : Z := Z.land bits IE_BITS_TYPE_MASK.
Definition IE_BITS_GEN_MASK : Z := 0xff000000.
Definition IE_BITS_GEN (bits : Z) : Z := Z.land bits IE_BITS_GEN_MASK.
Definition IE_BITS_GEN_ONE : Z := 0x04000000.
Definition IE_BITS_ROLL_POS : Z := 22.
Definition IE_BITS_ROLL_BITS : Z := 2.
Definition IE_BITS_ROLL_MASK : Z := Z.shiftl (Z.shiftl 1 IE_BITS_ROLL_BITS - 1) IE_BITS_ROLL_POS.
Definition IE_BITS_ROLL (bits : Z) : Z :=
  Z.lxor (u32 (Z.shiftl (Z.land bits IE_BITS_ROLL_MASK) 8)) IE_BITS_GEN_MASK.

(** Restart a generation counter with the given rollover point. *)
Definition ipc_entry_new_rollpoint (rollbits : Z) : Z :=
  let rollbits := Z.land (u32 (Z.shiftl rollbits IE_BITS_ROLL_POS)) IE_BITS_ROLL_MASK in
  let newgen := u32 (IE_BITS_GEN_MASK + IE_BITS_GEN_ONE) in
  Z.lor newgen rollbits.

(** The next generation, modulo the entry's rollover point. *)
Definition ipc_entry_new_gen (oldgen : Z) : Z :=
  let sum := Z.land (u32 (oldgen + IE_BITS_GEN_ONE)) IE_BITS_GEN_MASK in
  let roll := Z.land oldgen IE_BITS_ROLL_MASK in
  Z.lor (sum mod IE_BITS_ROLL oldgen) roll.

Definition ipc_entry_gen_rolled (oldgen newgen : Z) : bool :=
  Z.land newgen IE_BITS_GEN_MASK <? Z.land oldgen IE_BITS_GEN_MASK.

(** [ipc_entry_name_mask]: force the two low generation bits on. *)
Definition ipc_entry_name_mask (name : Z) : Z :=
  let null_name := MACH_PORT_MAKE 0 (u32 (IE_BITS_GEN_MASK + IE_BITS_GEN_ONE)) in
  Z.lor name null_name.

(** * Facts *)

(** ** Bit fields as quotients and remainders *)
Lemma land_field x k n :
  0 <= k -> 0 <= n -> Z.land x (Z.shiftl (Z.ones n) k) = (x / 2 ^ k mod 2 ^ n) * 2 ^ k.
Proof.
  intros. rewrite <- Z.shiftl_mul_pow2, <- Z.land_ones, <- Z.shiftr_div_pow2 by lia.
  apply Z.bits_inj'. intros i Hi.
  rewrite Z.shiftl_spec, !Z.land_spec, Z.shiftl_spec by lia.
  destruct (Z.lt_ge_cases (i - k) 0).
  - by rewrite !(Z.testbit_neg_r _ (i - k)), !andb_false_r by lia.
  - rewrite Z.shiftr_spec by lia. by replace (i - k + k) with i by lia.
Qed.

(** Clearing a field. *)
Lemma ldiff_field x k n :
  0 <= k -> 0 <= n ->
  Z.ldiff x (Z.shiftl (Z.ones n) k) = x - (x / 2 ^ k mod 2 ^ n) * 2 ^ k.
Proof.
  intros. rewrite <- land_field by done.
  rewrite (Z.sub_nocarry_ldiff x (Z.land x (Z.shiftl (Z.ones n) k))).
  - apply Z.bits_inj'. intros i Hi. rewrite !Z.ldiff_spec, Z.land_spec.
    by destruct (Z.testbit x i), (Z.testbit _ i).
  - apply Z.bits_inj'. intros i Hi. rewrite Z.ldiff_spec, Z.land_spec, Z.bits_0.
    by destruct (Z.testbit x i), (Z.testbit _ i).
Qed.

(** Setting bits that are clear. *)
Lemma lor_disjoint a b : Z.land a b = 0 -> Z.lor a b = a + b.
Proof. intros Hd. by rewrite <- Z.lxor_lor, Z.add_nocarry_lxor. Qed.

Lemma lor_low a b n : 0 <= n -> 0 <= b < 2 ^ n -> Z.lor (a * 2 ^ n) b = a * 2 ^ n + b.
Proof.
  intros Hn Hb. apply lor_disjoint. apply Z.bits_inj'. intros i Hi.
  rewrite Z.land_spec, Z.bits_0. destruct (Z.lt_ge_cases i n).
  - by rewrite Z.mul_pow2_bits_low.
  - destruct (decide (b = 0)) as [->|]; [by rewrite Z.bits_0, andb_false_r|].
    rewrite (Z.bits_above_log2 b i), andb_false_r; [done|lia|]. apply Z.log2_lt_pow2; [lia|].
    apply Z.lt_le_trans with (2 ^ n); [lia|]. apply Z.pow_le_mono_r; lia.
Qed.

(** The fields of [ie_bits], as arithmetic. *)
Lemma IE_BITS_UREFS_arith b : IE_BITS_UREFS b = b mod 2 ^ 16.
Proof. exact (Z.land_ones b 16 ltac:(lia)). Qed.
Lemma IE_BITS_TYPE_arith b : IE_BITS_TYPE b = (b / 2 ^ 16 mod 2 ^ 5) * 2 ^ 16.
Proof. exact (land_field b 16 5 ltac:(lia) ltac:(lia)). Qed.
Lemma IE_BITS_GEN_arith b : IE_BITS_GEN b = (b / 2 ^ 24 mod 2 ^ 8) * 2 ^ 24.
Proof. exact (land_field b 24 8 ltac:(lia) ltac:(lia)). Qed.

(** ** Names *)
Lemma MACH_PORT_INDEX_arith n : MACH_PORT_INDEX n = n / 2 ^ 8.
Proof. unfold MACH_PORT_INDEX. by rewrite Z.shiftr_div_pow2. Qed.

Lemma MACH_PORT_GEN_arith n : MACH_PORT_GEN n = (n mod 2 ^ 8) * 2 ^ 24.
Proof.
  unfold MACH_PORT_GEN, u32. change 0xff with (Z.ones 8).
  rewrite Z.land_ones, Z.shiftl_mul_pow2 by lia. apply Z.mod_small. dlia.
Qed.

Lemma MACH_PORT_MAKE_arith i g :
  0 <= i < 2 ^ 24 -> 0 <= g < 2 ^ 32 -> MACH_PORT_MAKE i g = i * 2 ^ 8 + g / 2 ^ 24.
Proof.
  intros Hi Hg. unfold MACH_PORT_MAKE, u32.
  rewrite Z.shiftl_mul_pow2, Z.shiftr_div_pow2, (Z.mod_small (i * 2 ^ 8)) by lia.
  apply lor_low; [lia|]. dlia.
Qed.

Lemma MACH_PORT_INDEX_MAKE i g :
  0 <= i < 2 ^ 24 -> 0 <= g < 2 ^ 32 -> MACH_PORT_INDEX (MACH_PORT_MAKE i g) = i.
Proof. intros. rewrite MACH_PORT_MAKE_arith, MACH_PORT_INDEX_arith by done. dlia. Qed.

Lemma MACH_PORT_GEN_MAKE i g :
  0 <= i < 2 ^ 24 -> 0 <= g < 2 ^ 32 -> MACH_PORT_GEN (MACH_PORT_MAKE i g) = IE_BITS_GEN g.
Proof.
  intros. rewrite MACH_PORT_MAKE_arith, MACH_PORT_GEN_arith, IE_BITS_GEN_arith by done. dlia.
Qed.

Lemma MACH_PORT_MAKE_GEN i b :
  0 <= i < 2 ^ 24 -> 0 <= b < 2 ^ 32 -> MACH_PORT_MAKE i (IE_BITS_GEN b) = MACH_PORT_MAKE i b.
Proof.
  intros. rewrite IE_BITS_GEN_arith, !MACH_PORT_MAKE_arith by dlia. dlia.
Qed.

Lemma MACH_PORT_MAKE_name n :
  0 <= n < 2 ^ 32 -> MACH_PORT_MAKE (MACH_PORT_INDEX n) (MACH_PORT_GEN n) = n.
Proof.
  intros. rewrite MACH_PORT_INDEX_arith, MACH_PORT_GEN_arith, MACH_PORT_MAKE_arith by dlia. dlia.
Qed.

(** ** Generations

    A free entry's bits hold a generation byte [4 g + 3] and a rollover
    selector [r]; the selector fixes the last generation before rollover. *)
Definition gen_bits (g r : Z) : Z := (4 * g + 3) * 2 ^ 24 + r * 2 ^ 22.
Definition last_gen (r : Z) : Z := 62 - 16 * r.

Lemma gen_step_checked :
  forallb (fun g => forallb (fun r =>
    let b := gen_bits g r in
    let n := ipc_entry_new_gen b in
    if g <? last_gen r
    then negb (ipc_entry_gen_rolled b n) && (n =? gen_bits (g + 1) r)
    else ipc_entry_gen_rolled b n) (seqZ 0 4)) (seqZ 0 64) = true.
Proof. vm_compute. done. Qed.

Lemma gen_step g r :
  0 <= g < 64 -> 0 <= r < 4 ->
  if g <? last_gen r
  then ipc_entry_gen_rolled (gen_bits g r) (ipc_entry_new_gen (gen_bits g r)) = false /\
       ipc_entry_new_gen (gen_bits g r) = gen_bits (g + 1) r
  else ipc_entry_gen_rolled (gen_bits g r) (ipc_entry_new_gen (gen_bits g r)) = true.
Proof.
  intros Hg Hr. pose proof (forallb_seqZ _ _ gen_step_checked g Hg) as H.
  apply forallb_seqZ with (i := r) in H; [|done].
  cbv zeta in H. destruct (g <? last_gen r); [|done].
  apply andb_true_iff in H as [Hn%negb_true_iff Hb%Z.eqb_eq]. done.
Qed.

Lemma rollpoint_bits roll : 0 <= roll < 4 -> ipc_entry_new_rollpoint roll = gen_bits 0 roll.
Proof.
  intros. assert (roll = 0 \/ roll = 1 \/ roll = 2 \/ roll = 3) as [->|[->|[->| ->]]] by lia;
    reflexivity.
Qed.
