(* ===== verification/Prng.v ===== *)
(** * The boolean generator of an IPC space ([osfmk/prng/prng_random.c])

    A space draws the order of its free list and the rollover points of its
    generations from a small shift-register generator with a pool of bits.
    The seed comes from the kernel's entropy source and is an argument. *)

From S2P Require Import Prelude MachPort.

(** [struct bool_gen]: four seeds and the carry. *)
Record bool_gen := mk_bool_gen { seed : list Z; bg_state : Z }.

(** [random_bool_init]: the seed is what [read_frandom] delivers. *)
Definition random_bool_init (frandom : list Z) : bool_gen := mk_bool_gen frandom 0.

(** One round of [random_bool_gen_entropy]: the new generator and the word. *)
Definition random_bool_gen_word (bg : bool_gen) : bool_gen * Z :=
  let s0 := anth (seed bg) 0 in
  let s1 := anth (seed bg) 1 in
  let s1 := Z.lxor s1 (u32 (Z.shiftl s1 5)) in
  let s1 := Z.lxor s1 (Z.shiftr s1 7) in
  let s1 := Z.lxor s1 (u32 (Z.shiftl s1 22)) in
  let t := u32 (anth (seed bg) 2 + anth (seed bg) 3 + bg_state bg) in
  let s2 := anth (seed bg) 3 in
  let state := if 2 ^ 31 <=? t then 1 else 0 in
  let s3 := Z.land t 2147483647 in
  let s0 := u32 (s0 + 1411392427) in
  (mk_bool_gen [s0; s1; s2; s3] state, u32 (s0 + s1 + s3)).

Fixpoint random_bool_gen_entropy (bg : bool_gen) (count : nat) : bool_gen * list Z :=
  match count with
  | O => (bg, [])
  | S count =>
    let '(bg, w) := random_bool_gen_word bg in
    let '(bg, ws) := random_bool_gen_entropy bg count in
    (bg, w :: ws)
  end.

(** [while (index < count && buffer[index] == 0) index++;] *)
Fixpoint skip_empty (fuel : nat) (buffer : list Z) (index : Z) : Z :=
  match fuel with
  | O => index
  | S fuel =>
    if (index <? alen buffer) && (anth buffer index =? 0)
    then skip_empty fuel buffer (index + 1) else index
  end.

Fixpoint random_bool_gen_loop (numbits : nat) (bg : bool_gen) (buffer : list Z) (index rbits : Z)
    : Z * bool_gen * list Z :=
  match numbits with
  | O => (rbits, bg, buffer)
  | S numbits =>
    let index := skip_empty (length buffer) buffer index in
    let '(bg, buffer, index) :=
      if index =? alen buffer
      then let '(bg, buffer) := random_bool_gen_entropy bg (length buffer) in (bg, buffer, 0)
      else (bg, buffer, index) in
    let w := anth buffer index in
    let bit := Z.land w 1 in
    let buffer := aset buffer index (Z.shiftr w 1) in
    random_bool_gen_loop numbits bg buffer index (Z.lor bit (u32 (Z.shiftl rbits 1)))
  end.

Definition random_bool_gen_bits (bg : bool_gen) (buffer : list Z) (numbits : nat)
    : Z * bool_gen * list Z :=
  random_bool_gen_loop numbits bg buffer 0 0.

(** * Facts *)
Lemma bit_lor_range bit r n :
  0 <= bit < 2 -> 0 <= r < 2 ^ n -> 0 <= n < 31 -> 0 <= Z.lor bit (u32 (Z.shiftl r 1)) < 2 ^ (n + 1).
Proof.
  intros Hb Hr Hn. rewrite Z.lor_comm. unfold u32. rewrite Z.shiftl_mul_pow2 by lia.
  assert (2 ^ (n + 1) = 2 * 2 ^ n) as Hp by (rewrite Z.pow_add_r by lia; lia).
  assert (2 ^ (n + 1) <= 2 ^ 32) by (apply Z.pow_le_mono_r; lia).
  rewrite Z.mod_small by lia. rewrite lor_low by lia. lia.
Qed.

Lemma random_bool_gen_loop_range numbits : forall bg buffer index rbits k,
  0 <= rbits < 2 ^ Z.of_nat k -> (numbits + k <= 31)%nat ->
  0 <= (random_bool_gen_loop numbits bg buffer index rbits).1.1 < 2 ^ Z.of_nat (numbits + k).
Proof.
  induction numbits as [|n IH]; intros bg buffer index rbits k Hr Hk; [done|].
  cbn [random_bool_gen_loop].
  destruct (if _ =? _ then _ else _) as [[bg' buffer'] index'].
  replace (S n + k)%nat with (n + S k)%nat by lia. apply IH; [|lia].
  rewrite Nat2Z.inj_succ, <- Z.add_1_r. apply bit_lor_range; [|done|lia].
  change (Z.land (anth buffer' index') 1) with (Z.land (anth buffer' index') (Z.ones 1)).
  rewrite Z.land_ones by lia. by apply Z.mod_pos_bound.
Qed.

(** A draw of [numbits] bits is a [numbits]-bit number. *)
Lemma random_bool_gen_bits_range bg buffer numbits :
  (numbits <= 31)%nat ->
  0 <= (random_bool_gen_bits bg buffer numbits).1.1 < 2 ^ Z.of_nat numbits.
Proof.
  intros. rewrite <- (Nat.add_0_r numbits) at 3.
  apply random_bool_gen_loop_range; simpl; lia.
Qed.
