(* ===== verification/OsRefcnt.v ===== *)
(** * Reference counts ([libkern/os/refcnt.c], [refcnt_internal.h])

    The saturating 32-bit reference counters of the kernel, in builds without
    [OS_REFCNT_DEBUG].  An operation is an atomic step on the counter word: it
    returns the new word, or panics.  The bitwise variants keep [b] flag bits
    below the count. *)

From S2P Require Import Prelude MachPort.

Definition OS_REFCNT_MAX_COUNT : Z := 0x0FFFFFFF.

Definition os_ref_check_underflow (count n : Z) : outcome unit :=
  if count <? n then Panic "os_refcnt: underflow" else Done tt.
Definition os_ref_check_overflow (count : Z) : outcome unit :=
  if OS_REFCNT_MAX_COUNT <=? count then Panic "os_refcnt: overflow" else Done tt.
Definition os_ref_check_retain (count n : Z) : outcome unit :=
  if count <? n then Panic "os_refcnt: attempted resurrection" else os_ref_check_overflow count.

(** ** Plain counters *)
Definition os_ref_init_count_internal (count : Z) : outcome Z :=
  os_ref_check_underflow count 1 ;;! Done count.

Definition os_ref_retain_floor_internal (rc f : Z) : outcome Z :=
  let old := rc in
  let rc := u32 (rc + 1) in
  os_ref_check_retain old f ;;! Done rc.
Definition os_ref_retain_internal (rc : Z) : outcome Z := os_ref_retain_floor_internal rc 1.

(** The new word and whether the reference was taken. *)
Definition os_ref_retain_floor_try_internal (rc f : Z) : outcome (Z * bool) :=
  if rc <? f then Done (rc, false)
  else let next := u32 (rc + 1) in os_ref_check_overflow rc ;;! Done (next, true).
Definition os_ref_retain_try_internal (rc : Z) : outcome (Z * bool) :=
  os_ref_retain_floor_try_internal rc 1.

(** [_os_ref_release_inline]: the word left and the value returned are the same. *)
Definition os_ref_release_n (rc n : Z) : outcome Z :=
  let val := rc in
  let rc := u32 (rc - n) in
  os_ref_check_underflow val n ;;! Done rc.
Definition os_ref_release_barrier_internal (rc : Z) : outcome Z := os_ref_release_n rc 1.
Definition os_ref_release_relaxed_internal (rc : Z) : outcome Z := os_ref_release_n rc 1.
Definition os_ref_release_live_raw (rc : Z) : outcome Z :=
  let! val := os_ref_release_barrier_internal rc in
  if val =? 0 then Panic "os_refcnt: unexpected release of final reference" else Done val.

(** Under a lock. *)
Definition os_ref_retain_floor_locked_internal (rc f : Z) : outcome Z :=
  os_ref_check_retain rc f ;;! Done (u32 (rc + 1)).
Definition os_ref_release_locked_internal (rc : Z) : outcome Z :=
  os_ref_check_underflow rc 1 ;;! Done (u32 (rc - 1)).

(** ** Counters above flag bits *)
Definition os_ref_init_count_mask `{KernelConfig} (b init_count init_bits : Z) : outcome Z :=
  kassert (init_bits <? Z.shiftl 1 b) "init_bits < (1U << b)" ;;!
  os_ref_check_underflow (u32 (Z.shiftl init_count b)) (Z.shiftl 1 b) ;;!
  Done (Z.lor (u32 (Z.shiftl init_count b)) init_bits).

Definition os_ref_retain_mask_internal (rc n : Z) : outcome Z :=
  let old := rc in
  let rc := u32 (rc + n) in
  os_ref_check_retain old n ;;! Done rc.
Definition os_ref_retain_mask (rc b : Z) : outcome Z := os_ref_retain_mask_internal rc (Z.shiftl 1 b).

Definition os_ref_release_barrier_mask_internal (rc n : Z) : outcome Z := os_ref_release_n rc n.
(** The new word and the count it holds. *)
Definition os_ref_release_mask (rc b : Z) : outcome (Z * Z) :=
  let! val := os_ref_release_barrier_mask_internal rc (Z.shiftl 1 b) in
  Done (val, Z.shiftr val b).

Definition os_ref_retain_try_mask_internal (rc n reject_mask : Z) : outcome (Z * Z) :=
  if (rc <? n) || has rc reject_mask then Done (rc, 0)
  else let next := u32 (rc + n) in os_ref_check_overflow rc ;;! Done (next, next).

Definition os_ref_get_bits_mask (rc b : Z) : Z := Z.land rc (Z.shiftl 1 b - 1).
Definition os_ref_get_count_mask (rc b : Z) : Z := Z.shiftr rc b.

(** * Histories of a counter *)
Inductive ref_op := Retain | Release.

(** The steps of a counter with [b] flag bits, in the order they take effect. *)
Definition ref_step (b rc : Z) (op : ref_op) : outcome Z :=
  match op with
  | Retain => os_ref_retain_mask rc b
  | Release => let! (rc, _) := os_ref_release_mask rc b in Done rc
  end.
Fixpoint ref_run (b rc : Z) (ops : list ref_op) : outcome Z :=
  match ops with
  | [] => Done rc
  | op :: ops => let! rc := ref_step b rc op in ref_run b rc ops
  end.

(** Number of references after a history, in unbounded arithmetic. *)
Fixpoint ref_balance (n : Z) (ops : list ref_op) : Z :=
  match ops with
  | [] => n
  | Retain :: ops => ref_balance (n + 1) ops
  | Release :: ops => ref_balance (n - 1) ops
  end.

(** The largest count a counter with [b] flag bits takes. *)
Definition ref_max (b : Z) : Z := OS_REFCNT_MAX_COUNT / 2 ^ b + 1.

Section counter.
Context (b flags : Z) (Hb : 0 <= b <= 16) (Hflags : 0 <= flags < 2 ^ b).

Lemma pow_b : 0 < 2 ^ b <= 2 ^ 16.
Proof using Hb.
  split; [apply Z.pow_pos_nonneg; lia|]. apply Z.pow_le_mono_r; lia.
Qed.

Lemma counter_range n : 0 <= n <= ref_max b -> 0 <= n * 2 ^ b + flags < 2 ^ 29.
Proof using Hb Hflags.
  intros Hn. pose proof pow_b. unfold ref_max, OS_REFCNT_MAX_COUNT in Hn.
  pose proof (Z.mul_div_le 0x0FFFFFFF (2 ^ b)). nia.
Qed.

Lemma retain_count n :
  0 <= n <= ref_max b ->
  os_ref_retain_mask (n * 2 ^ b + flags) b =
  if n =? 0 then Panic "os_refcnt: attempted resurrection"
  else if OS_REFCNT_MAX_COUNT <=? n * 2 ^ b + flags then Panic "os_refcnt: overflow"
  else Done ((n + 1) * 2 ^ b + flags).
Proof using Hb Hflags.
  intros Hn. pose proof pow_b. pose proof (counter_range n Hn).
  unfold os_ref_retain_mask, os_ref_retain_mask_internal, os_ref_check_retain, os_ref_check_overflow.
  rewrite Z.shiftl_1_l. destruct (Z.eqb_spec n 0) as [->|].
  - destruct (Z.ltb_spec (0 * 2 ^ b + flags) (2 ^ b)); [done|lia].
  - destruct (Z.ltb_spec (n * 2 ^ b + flags) (2 ^ b)); [nia|].
    destruct (Z.leb_spec OS_REFCNT_MAX_COUNT (n * 2 ^ b + flags)); [done|]. simpl. f_equal.
    unfold u32. rewrite Z.mod_small by lia. lia.
Qed.

Lemma release_count n :
  0 <= n <= ref_max b ->
  os_ref_release_mask (n * 2 ^ b + flags) b =
  if n =? 0 then Panic "os_refcnt: underflow" else Done ((n - 1) * 2 ^ b + flags, n - 1).
Proof using Hb Hflags.
  intros Hn. pose proof pow_b. pose proof (counter_range n Hn).
  unfold os_ref_release_mask, os_ref_release_barrier_mask_internal, os_ref_release_n, os_ref_check_underflow.
  rewrite Z.shiftl_1_l. destruct (Z.eqb_spec n 0) as [->|].
  - destruct (Z.ltb_spec (0 * 2 ^ b + flags) (2 ^ b)); [done|lia].
  - destruct (Z.ltb_spec (n * 2 ^ b + flags) (2 ^ b)); [nia|]. simpl.
    assert (u32 (n * 2 ^ b + flags - 2 ^ b) = (n - 1) * 2 ^ b + flags) as ->.
    { unfold u32. rewrite Z.mod_small by nia. lia. }
    rewrite Z.shiftr_div_pow2 by lia. do 2 f_equal.
    rewrite Z.div_add_l by lia. rewrite Z.div_small by lia. lia.
Qed.

Lemma retain_bound n :
  0 <= n <= ref_max b -> n * 2 ^ b + flags < OS_REFCNT_MAX_COUNT -> n + 1 <= ref_max b.
Proof using Hb Hflags.
  intros Hn Hlt. pose proof pow_b. unfold ref_max.
  apply Z.add_le_mono_r. apply Z.div_le_lower_bound; lia.
Qed.
End counter.

(** A reference counter counts: along any history of retains and
    releases that does not panic, the counter holds exactly the initial count
    plus the retains minus the releases, at most [ref_max b]; the flag bits
    below the count never change; and once it has reached zero no step
    succeeds any more, a retain panicking with a resurrection and a release with an underflow. *)
Theorem ref_history_exact b flags n ops rc' :
  0 <= b <= 16 -> 0 <= flags < 2 ^ b -> 0 < n <= ref_max b ->
  ref_run b (n * 2 ^ b + flags) ops = Done rc' ->
  rc' = ref_balance n ops * 2 ^ b + flags /\ 0 <= ref_balance n ops <= ref_max b /\
  (ref_balance n ops = 0 ->
   ref_step b rc' Retain = Panic "os_refcnt: attempted resurrection" /\
   ref_step b rc' Release = Panic "os_refcnt: underflow").
Proof.
  intros Hb Hf Hn. assert (0 <= n <= ref_max b) as Hn' by lia. clear Hn. revert n Hn'.
  induction ops as [|op ops IH]; intros n Hn; simpl.
  { intros [= <-]. split; [done|]. split; [done|]. intros ->.
    pose proof (retain_count b flags Hb Hf 0 Hn) as Hr. pose proof (release_count b flags Hb Hf 0 Hn) as Hl.
    simpl in Hr, Hl. rewrite Hr, Hl. done. }
  destruct op; simpl ref_step.
  - rewrite (retain_count b flags Hb Hf n Hn). destruct (n =? 0); [done|].
    destruct (Z.leb_spec OS_REFCNT_MAX_COUNT (n * 2 ^ b + flags)); [done|]. simpl.
    intros Hrun. apply IH; [|done].
    pose proof (retain_bound b flags Hb Hf n Hn). lia.
  - rewrite (release_count b flags Hb Hf n Hn). destruct (Z.eqb_spec n 0); [done|]. simpl.
    intros Hrun. apply IH; [lia|done].
Qed.

Lemma ref_history_exact_witness :
  ref_run 6 (2 * 2 ^ 6 + 5) [Retain; Release; Release; Release] = Done (0 * 2 ^ 6 + 5).
Proof.
  destruct (ref_history_exact 6 5 2 [Retain; Release; Release; Release] (0 * 2 ^ 6 + 5)) as [H _].
  - lia.
  - lia.
  - unfold ref_max, OS_REFCNT_MAX_COUNT. split; [lia|vm_compute; discriminate].
  - reflexivity.
  - rewrite H at 1. reflexivity.
Defined.
