(* ===== verification/MigHash.v ===== *)
(** * The dispatch table of kernel services ([osfmk/kern/ipc_kobject.c])

    [mig_init] files the routines of every MIG subsystem under their message ids, in an
    open-addressing hash table; [find_mig_hash_entry] looks a message up.  The
    theorem is that the table is a finite map from message ids to routines. *)

From S2P Require Import Prelude MachPort.

Definition MAX_MIG_ENTRIES : Z := 1031.
Definition MIG_HASH (x : Z) : Z := x.
Definition KOBJ_IDX_NOT_SET : Z := -1.
Definition MAX_TRAILER_SIZE : Z := 68.

(** On a 64-bit kernel. *)
Definition KALLOC_SAFE_ALLOC_SIZE : Z := 16 * 1024.

(** [mig_hash_t]; routines are addresses. *)
Record mig_hash_t := mk_mig_hash { num : Z; routine : Z; size : Z; kobjidx : Z }.
#[global] Instance mig_hash_inhabited : Inhabited mig_hash_t := populate (mk_mig_hash 0 0 0 0).
(** What the table uses of [struct routine_descriptor] and [struct mig_subsystem]. *)
Record routine_descriptor := mk_routine { stub_routine : Z; max_reply_msg : Z }.
#[global] Instance routine_inhabited : Inhabited routine_descriptor := populate (mk_routine 0 0).
Record mig_subsystem := mk_subsystem { start : Z; end_ : Z; maxsize : Z; routines : list routine_descriptor }.

Record mig_state := mk_mig_state { mig_buckets : list mig_hash_t; mig_table_max_displ : Z; mach_kobj_count : Z }.
(** Static storage is zero. *)
Definition mig_initial : mig_state := mk_mig_state (replicate (Z.to_nat MAX_MIG_ENTRIES) (mk_mig_hash 0 0 0 0)) 0 0.

Section operations.
Context `{KernelConfig}.

(** The bucket for a new entry, and the number of buckets looked at. *)
Fixpoint mig_probe (fuel : nat) (nentry pos howmany : Z) : M mig_state (Z * Z) :=
  match fuel with
  | O => fun _ => Diverges
  | S fuel =>
    let* buckets := gets mig_buckets in
    let* b := lift (aget buckets pos) in
    if num b =? 0 then ret (pos, howmany)
    else if num b =? nentry then panic "multiple entries with the same msgh_id"
    else if howmany =? MAX_MIG_ENTRIES then panic "the mig dispatch table is too small"
    else mig_probe fuel nentry (Z.rem (pos + 1) MAX_MIG_ENTRIES) (howmany + 1)
  end.
(** The body of the loop over the routines of a subsystem. *)
Definition mig_init_routine (e : mig_subsystem) (j : Z) : M mig_state unit :=
  let* r := lift (aget (routines e) j) in
  when (negb (stub_routine r =? 0))
    (let nentry := j + start e in
     let* (pos, howmany) := mig_probe (Z.to_nat MAX_MIG_ENTRIES) nentry (Z.rem (MIG_HASH nentry) MAX_MIG_ENTRIES) 1 in
     let size := if negb (max_reply_msg r =? 0) then max_reply_msg r else maxsize e in
     modify (fun s => mk_mig_state
       (aset (mig_buckets s) pos (mk_mig_hash nentry (stub_routine r) size KOBJ_IDX_NOT_SET))
       (Z.max howmany (mig_table_max_displ s)) (mach_kobj_count s + 1))).
Fixpoint mig_init_range (e : mig_subsystem) (js : list Z) : M mig_state unit :=
  match js with
  | [] => ret tt
  | j :: js => mig_init_routine e j ;;* mig_init_range e js
  end.
Definition mig_init_subsystem (e : mig_subsystem) : M mig_state unit :=
  let range := end_ e - start e in
  if (start e =? 0) || (range <? 0) then panic "the msgh_ids in mig_e[] aren't valid!"
  else if KALLOC_SAFE_ALLOC_SIZE - MAX_TRAILER_SIZE <? maxsize e then panic "mig subsystem replies are too large"
  else mig_init_range e (seqZ 0 range).
Fixpoint mig_init_all (mig_e : list mig_subsystem) : M mig_state unit :=
  match mig_e with
  | [] => ret tt
  | e :: mig_e => mig_init_subsystem e ;;* mig_init_all mig_e
  end.
Definition mig_init (mig_e : list mig_subsystem) : M mig_state unit :=
  mig_init_all mig_e ;;*
  modify (fun s => mk_mig_state (mig_buckets s) (mig_table_max_displ s) (mach_kobj_count s + 32)).

(** The bucket where the loop stops. *)
Fixpoint find_mig_loop (fuel : nat) (msgh_id i max_iter : Z) : M mig_state Z :=
  match fuel with
  | O => fun _ => Diverges
  | S fuel =>
    let* buckets := gets mig_buckets in
    let ptr := i mod MAX_MIG_ENTRIES in
    let i := u32 (i + 1) in
    let* b := lift (aget buckets ptr) in
    if negb (msgh_id =? num b) && negb (num b =? 0) then
      let max_iter := max_iter - 1 in
      if negb (max_iter =? 0) then find_mig_loop fuel msgh_id i max_iter else ret ptr
    else ret ptr
  end.
Definition find_mig_hash_entry (msgh_id : Z) : M mig_state (option Z) :=
  let* max_iter := gets mig_table_max_displ in
  let* ptr := find_mig_loop (S (Z.to_nat max_iter)) msgh_id (u32 (MIG_HASH msgh_id)) max_iter in
  let* buckets := gets mig_buckets in
  let* b := lift (aget buckets ptr) in
  ret (if (routine b =? 0) || negb (msgh_id =? num b) then None else Some ptr).

Definition ipc_kobject_set_kobjidx (msgh_id index : Z) : M mig_state kern_return_t :=
  let* ptr := find_mig_hash_entry msgh_id in
  match ptr with
  | None => ret KERN_INVALID_ARGUMENT
  | Some ptr =>
    let* count := gets mach_kobj_count in
    massert (index <? count) "index < mach_kobj_count" ;;*
    let* buckets := gets mig_buckets in
    let* b := lift (aget buckets ptr) in
    modify (fun s => mk_mig_state (aset (mig_buckets s) ptr (mk_mig_hash (num b) (routine b) (size b) index))
                       (mig_table_max_displ s) (mach_kobj_count s)) ;;*
    ret KERN_SUCCESS
  end.
(** What a message handler reads through the pointer it found. *)
Definition mig_entry (msgh_id : Z) : M mig_state (option mig_hash_t) :=
  let* ptr := find_mig_hash_entry msgh_id in
  match ptr with
  | None => ret None
  | Some ptr => let* buckets := gets mig_buckets in let* b := lift (aget buckets ptr) in ret (Some b)
  end.
End operations.

(** ** The contract: a finite map from message ids *)

(** The routines of a subsystem with their ids, in the order of the table. *)
Definition routine_entry (e : mig_subsystem) (j : Z) : option (Z * mig_hash_t) :=
  let r := anth (routines e) j in
  if stub_routine r =? 0 then None
  else Some (j + start e, mk_mig_hash (j + start e) (stub_routine r)
               (if negb (max_reply_msg r =? 0) then max_reply_msg r else maxsize e) KOBJ_IDX_NOT_SET).
Definition subsystem_routines (e : mig_subsystem) : list (Z * mig_hash_t) :=
  omap (routine_entry e) (seqZ 0 (end_ e - start e)).
Definition all_routines (mig_e : list mig_subsystem) : list (Z * mig_hash_t) := mig_e ≫= subsystem_routines.
Abbreviation mig_map := (gmap Z mig_hash_t).

Definition subsystem_ok (e : mig_subsystem) : Prop :=
  0 < start e <= end_ e /\ end_ e <= 2 ^ 31 /\ maxsize e <= KALLOC_SAFE_ALLOC_SIZE - MAX_TRAILER_SIZE /\
  alen (routines e) = end_ e - start e.

(** The table [s] represents the map [t]: each bucket in use holds an entry of the map; the
    entry of an id is in the bucket [d] places after its hash, [d] below the
    recorded displacement, behind buckets in use by others. *)
Record represents (s : mig_state) (t : mig_map) : Prop := {
  rp_len : alen (mig_buckets s) = MAX_MIG_ENTRIES;
  rp_used : forall i, 0 <= i < MAX_MIG_ENTRIES -> num (anth (mig_buckets s) i) <> 0 ->
    t !! num (anth (mig_buckets s) i) = Some (anth (mig_buckets s) i);
  rp_free : forall i, 0 <= i < MAX_MIG_ENTRIES -> num (anth (mig_buckets s) i) = 0 -> routine (anth (mig_buckets s) i) = 0;
  rp_entry : forall id b, t !! id = Some b -> num b = id /\ routine b <> 0 /\ 0 < id < 2 ^ 31 /\
    exists d, 0 <= d < mig_table_max_displ s /\ anth (mig_buckets s) ((id + d) mod MAX_MIG_ENTRIES) = b /\
      forall d', 0 <= d' < d -> num (anth (mig_buckets s) ((id + d') mod MAX_MIG_ENTRIES)) <> 0 /\
                                num (anth (mig_buckets s) ((id + d') mod MAX_MIG_ENTRIES)) <> id;
  rp_uniq : forall i j, 0 <= i < MAX_MIG_ENTRIES -> 0 <= j < MAX_MIG_ENTRIES -> num (anth (mig_buckets s) i) <> 0 ->
    num (anth (mig_buckets s) i) = num (anth (mig_buckets s) j) -> i = j;
  rp_count : length (filter (fun b => num b <> 0) (mig_buckets s)) = base.size t;
  rp_displ : 0 <= mig_table_max_displ s <= MAX_MIG_ENTRIES;
}.

Section refinement.
Context `{KernelConfig}.
Implicit Types (s : mig_state) (t : mig_map).

Lemma wp_bucket s i (Q : mig_hash_t -> mig_state -> Prop) :
  alen (mig_buckets s) = MAX_MIG_ENTRIES -> 0 <= i < MAX_MIG_ENTRIES -> Q (anth (mig_buckets s) i) s ->
  wp (let* buckets := gets mig_buckets in lift (aget buckets i)) Q s.
Proof. intros Hl Hi HQ. apply wp_bind, wp_gets, wp_array; [lia|done]. Qed.

Lemma filter_all {A} (P : A -> Prop) `{!forall x, Decision (P x)} (l : list A) :
  (forall x, x ∈ l -> P x) -> filter P l = l.
Proof using.
  induction l as [|x l IH]; intros Hall; [done|].
  rewrite filter_cons_True by (apply Hall; left). f_equal. apply IH. intros y ?. apply Hall. by right.
Qed.

Lemma filter_none {A} (P : A -> Prop) `{!forall x, Decision (P x)} (l : list A) :
  (forall x, x ∈ l -> ~ P x) -> filter P l = [].
Proof using.
  induction l as [|x l IH]; intros Hall; [done|].
  rewrite filter_cons_False by (apply Hall; left). apply IH. intros y ?. apply Hall. by right.
Qed.

(** The first place that satisfies a predicate. *)
Lemma least_or_none (f : Z -> bool) n : 0 <= n ->
  (exists d, 0 <= d < n /\ f d = true /\ forall d', 0 <= d' < d -> f d' = false) \/
  (forall d, 0 <= d < n -> f d = false).
Proof using.
  intros Hn. pattern n. apply natlike_ind; [right; lia| |done].
  clear n Hn. intros n Hn [(d&?&?&?)|Hall]; [left; exists d; split; [lia|done]|].
  destruct (f n) eqn:E.
  - left. exists n. split; [lia|]. split; [done|]. intros d' ?. apply Hall. lia.
  - right. intros d ?. destruct (decide (d = n)) as [->|]; [done|]. apply Hall. lia.
Qed.

(** A table with room has a free bucket within reach of every hash. *)
Lemma free_bucket s t id : represents s t -> Z.of_nat (base.size t) < MAX_MIG_ENTRIES ->
  exists d, 0 <= d < MAX_MIG_ENTRIES /\ num (anth (mig_buckets s) ((id + d) mod MAX_MIG_ENTRIES)) = 0 /\
    forall d', 0 <= d' < d -> num (anth (mig_buckets s) ((id + d') mod MAX_MIG_ENTRIES)) <> 0.
Proof using.
  intros Hr Hsz.
  destruct (least_or_none (fun d => num (anth (mig_buckets s) ((id + d) mod MAX_MIG_ENTRIES)) =? 0) MAX_MIG_ENTRIES)
    as [(d&Hd&E&Hall)|Hall]; [done| |].
  - exists d. split; [done|]. split; [by apply Z.eqb_eq|]. intros d' ?. by apply Z.eqb_neq, Hall.
  - exfalso. assert (filter (fun b => num b <> 0) (mig_buckets s) = mig_buckets s) as Hf.
    { apply filter_all. intros b (i&Hi&<-)%elem_of_anth E. rewrite (rp_len _ _ Hr) in Hi.
      specialize (Hall ((i - id) mod MAX_MIG_ENTRIES)). apply Z.eqb_neq in Hall; [|apply Z.mod_pos_bound; done].
      apply Hall. rewrite Zplus_mod_idemp_r. replace (id + (i - id)) with i by lia. by rewrite Z.mod_small. }
    pose proof (rp_count _ _ Hr) as Hc. rewrite Hf in Hc. pose proof (rp_len _ _ Hr) as Hl. unfold alen in Hl. lia.
Qed.

(** Probing for a new id ends at the first free bucket. *)
Lemma mig_probe_ok s t id d : represents s t -> t !! id = None -> 0 < id ->
  0 <= d < MAX_MIG_ENTRIES -> num (anth (mig_buckets s) ((id + d) mod MAX_MIG_ENTRIES)) = 0 ->
  (forall d', 0 <= d' < d -> num (anth (mig_buckets s) ((id + d') mod MAX_MIG_ENTRIES)) <> 0) ->
  forall fuel d0, 0 <= d0 <= d -> d - d0 < Z.of_nat fuel ->
  wp (mig_probe fuel id ((id + d0) mod MAX_MIG_ENTRIES) (d0 + 1))
    (fun r s' => r = ((id + d) mod MAX_MIG_ENTRIES, d + 1) /\ s' = s) s.
Proof using.
  intros Hr Hid Hpos Hd Hfree Hused. induction fuel as [|fuel IH]; intros d0 Hd0 Hf; [lia|].
  cbn [mig_probe]. assert (0 <= (id + d0) mod MAX_MIG_ENTRIES < MAX_MIG_ENTRIES) as Hi by (apply Z.mod_pos_bound; done).
  apply wp_bind, wp_gets, wp_bind, wp_array; [rewrite (rp_len _ _ Hr); done|].
  destruct (decide (d0 = d)) as [->|].
  - rewrite Hfree. simpl. by apply wp_ret.
  - assert (num (anth (mig_buckets s) ((id + d0) mod MAX_MIG_ENTRIES)) <> 0) as Hn by (apply Hused; lia).
    destruct (Z.eqb_spec (num (anth (mig_buckets s) ((id + d0) mod MAX_MIG_ENTRIES))) 0); [done|].
    destruct (Z.eqb_spec (num (anth (mig_buckets s) ((id + d0) mod MAX_MIG_ENTRIES))) id) as [E|].
    { pose proof (rp_used _ _ Hr _ Hi Hn) as Hu. rewrite E, Hid in Hu. done. }
    destruct (Z.eqb_spec (d0 + 1) MAX_MIG_ENTRIES); [lia|].
    rewrite Z.rem_mod_nonneg by (done || lia). rewrite Zplus_mod_idemp_l.
    replace (id + d0 + 1) with (id + (d0 + 1)) by lia. apply IH; lia.
Qed.

(** Filing one more routine. *)
Definition mig_insert (d : Z) (b : mig_hash_t) (s : mig_state) : mig_state :=
  mk_mig_state (aset (mig_buckets s) ((num b + d) mod MAX_MIG_ENTRIES) b)
    (Z.max (d + 1) (mig_table_max_displ s)) (mach_kobj_count s + 1).
Lemma mig_insert_represents s t d b : represents s t -> t !! num b = None -> 0 < num b < 2 ^ 31 -> routine b <> 0 ->
  0 <= d < MAX_MIG_ENTRIES -> num (anth (mig_buckets s) ((num b + d) mod MAX_MIG_ENTRIES)) = 0 ->
  (forall d', 0 <= d' < d -> num (anth (mig_buckets s) ((num b + d') mod MAX_MIG_ENTRIES)) <> 0) ->
  represents (mig_insert d b s) (<[num b := b]> t).
Proof using.
  intros Hr Hnew Hid Hrt Hd Hfree Hused. pose proof Hr as [Hl Hu Hf He Hq Hc Hm].
  set (pos := (num b + d) mod MAX_MIG_ENTRIES) in *.
  assert (0 <= pos < MAX_MIG_ENTRIES) as Hpos by (apply Z.mod_pos_bound; done).
  assert (forall i, 0 <= i < MAX_MIG_ENTRIES ->
    anth (mig_buckets (mig_insert d b s)) i = if pos =? i then b else anth (mig_buckets s) i) as Hget.
  { intros i Hi. apply anth_aset; lia. }
  assert (forall x, 0 <= x mod MAX_MIG_ENTRIES < MAX_MIG_ENTRIES) as Hmod by (intros; apply Z.mod_pos_bound; done).
  split.
  - simpl. by rewrite alen_aset.
  - intros i Hi. rewrite Hget by done. destruct (Z.eqb_spec pos i) as [<-|].
    + intros _. apply lookup_insert_eq.
    + intros Hn. rewrite lookup_insert_ne; [by apply Hu|]. intros E. specialize (Hu i Hi Hn). by rewrite <- E, Hnew in Hu.
  - intros i Hi. rewrite Hget by done. destruct (Z.eqb_spec pos i) as [<-|]; [lia|]. by apply Hf.
  - intros id b' [[<- <-]|[Hne Hb]]%lookup_insert_Some.
    + split; [done|]. split; [done|]. split; [done|]. exists d. split; [simpl; lia|]. rewrite Hget by apply Hmod.
      fold pos. rewrite Z.eqb_refl. split; [done|]. intros d' Hd'. rewrite Hget by apply Hmod.
      destruct (Z.eqb_spec pos ((num b + d') mod MAX_MIG_ENTRIES)) as [E|].
      * exfalso. specialize (Hused d' Hd'). rewrite <- E in Hused. done.
      * split; [by apply Hused|]. intros E. pose proof (Hu _ (Hmod (num b + d')) (Hused d' Hd')) as Hx. by rewrite E, Hnew in Hx.
    + destruct (He id b' Hb) as (E1&E2&E3&d1&Hd1&Hb1&Hall). split; [done|]. split; [done|]. split; [done|].
      exists d1. split; [simpl; lia|]. assert (forall d', 0 <= d' < d1 -> pos <> (id + d') mod MAX_MIG_ENTRIES) as Hp.
      { intros d' Hd' E. destruct (Hall d' Hd') as [Hx _]. rewrite <- E in Hx. done. }
      split.
      * rewrite Hget by apply Hmod. destruct (Z.eqb_spec pos ((id + d1) mod MAX_MIG_ENTRIES)) as [E|]; [|done].
        rewrite <- E in Hb1. rewrite <- Hb1 in E1. lia.
      * intros d' Hd'. rewrite Hget by apply Hmod.
        destruct (Z.eqb_spec pos ((id + d') mod MAX_MIG_ENTRIES)); [by exfalso; apply (Hp d')|by apply Hall].
  - assert (forall i, 0 <= i < MAX_MIG_ENTRIES -> num (anth (mig_buckets s) i) <> num b) as Hfresh.
    { intros i Hi E. pose proof (Hu i Hi ltac:(lia)) as Hx. by rewrite E, Hnew in Hx. }
    intros i j Hi Hj. rewrite !Hget by done.
    destruct (Z.eqb_spec pos i), (Z.eqb_spec pos j); try congruence; try (by apply Hq).
    + intros _ E. by destruct (Hfresh j Hj).
    + intros _ E. by destruct (Hfresh i Hi).
  - simpl. rewrite map_size_insert_None by done. unfold aset.
    assert (mig_buckets s !! Z.to_nat pos = Some (anth (mig_buckets s) pos)) as Hat.
    { unfold anth. apply list_lookup_lookup_total_lt. unfold alen in Hl. clearbody pos. lia. }
    pose proof (length_filter_insert (fun b => num b <> 0) (mig_buckets s) (Z.to_nat pos) (anth (mig_buckets s) pos) b Hat) as Hx.
    rewrite decide_False in Hx by (intros Hy; by apply Hy).
    rewrite decide_True in Hx by lia. rewrite Hc in Hx.
    fold pos. simpl in Hx. lia.
  - simpl. lia.
Qed.

(** ** Filling the table *)
Definition fileable t (l : list (Z * mig_hash_t)) : Prop :=
  NoDup l.*1 /\ (forall id, id ∈ l.*1 -> t !! id = None) /\
  Z.of_nat (base.size t) + Z.of_nat (length l) <= MAX_MIG_ENTRIES /\
  forall id b, (id, b) ∈ l -> num b = id /\ routine b <> 0 /\ 0 < id < 2 ^ 31.
(** The computation files the entries of a list. *)
Definition files (l : list (Z * mig_hash_t)) (m : M mig_state unit) : Prop :=
  forall s t, represents s t -> fileable t l ->
  wp m (fun _ s' => represents s' (list_to_map l ∪ t) /\
                    mach_kobj_count s' = mach_kobj_count s + Z.of_nat (length l)) s.

Lemma files_ret : files [] (ret tt).
Proof using. intros s t Hr _. apply wp_ret. split; [simpl; by rewrite (left_id_L ∅ (∪))|simpl; lia]. Qed.
Lemma files_seq l1 l2 m1 m2 : files l1 m1 -> files l2 m2 -> files (l1 ++ l2) (m1 ;;* m2).
Proof using.
  intros F1 F2 s t Hr (Hnd&Hnew&Hsz&Hall). rewrite fmap_app in Hnd. apply NoDup_app in Hnd as (Hnd1&Hdis&Hnd2).
  rewrite length_app in Hsz. rewrite fmap_app in Hnew.
  apply wp_bind. eapply wp_mono.
  { apply F1; [done|]. split; [done|]. split; [intros id ?; apply Hnew; set_solver|]. split; [lia|].
    intros id b ?. apply Hall. set_solver. }
  intros _ s1 [Hr1 Hc1]. eapply wp_mono.
  { apply (F2 s1 _ Hr1). split; [done|]. split; [|split].
    - intros id Hid. apply lookup_union_None. split; [|apply Hnew; set_solver].
      apply not_elem_of_list_to_map_1. intros ?. by apply (Hdis id).
    - rewrite map_size_disj_union.
      + rewrite map_size_list_to_map by done. lia.
      + apply map_disjoint_spec. intros id x y Hx Hy. apply elem_of_list_to_map_2, (list_elem_of_fmap_2 fst) in Hx.
        rewrite (Hnew id) in Hy; [done|]. set_solver.
    - intros id b ?. apply Hall. set_solver. }
  intros _ s2 [Hr2 Hc2]. split; [|rewrite length_app; lia].
  rewrite list_to_map_app, (map_union_comm (list_to_map l1)); [by rewrite <- (assoc_L (∪))|].
  apply map_disjoint_spec. intros id x y Hx Hy.
  apply elem_of_list_to_map_2, (list_elem_of_fmap_2 fst) in Hx. apply elem_of_list_to_map_2, (list_elem_of_fmap_2 fst) in Hy.
  by apply (Hdis id).
Qed.

Lemma wp_mig_probe_new s t id Q : represents s t -> Z.of_nat (base.size t) < MAX_MIG_ENTRIES -> t !! id = None -> 0 < id ->
  (forall d, 0 <= d < MAX_MIG_ENTRIES -> num (anth (mig_buckets s) ((id + d) mod MAX_MIG_ENTRIES)) = 0 ->
    (forall d', 0 <= d' < d -> num (anth (mig_buckets s) ((id + d') mod MAX_MIG_ENTRIES)) <> 0) ->
    Q ((id + d) mod MAX_MIG_ENTRIES, d + 1) s) ->
  wp (mig_probe (Z.to_nat MAX_MIG_ENTRIES) id (Z.rem (MIG_HASH id) MAX_MIG_ENTRIES) 1) Q s.
Proof using.
  intros Hr Hsz Hn Hid HQ. destruct (free_bucket s t id Hr Hsz) as (d&Hd&Hfree&Hused).
  unfold MIG_HASH. rewrite Z.rem_mod_nonneg by (done || lia). eapply wp_mono.
  - pose proof (mig_probe_ok s t id d Hr Hn Hid Hd Hfree Hused (Z.to_nat MAX_MIG_ENTRIES) 0) as Hp.
    rewrite Z.add_0_r in Hp. apply Hp; lia.
  - intros ? ? [-> ->]. by apply HQ.
Qed.

Lemma files_routine e j : subsystem_ok e -> 0 <= j < end_ e - start e ->
  files (omap (routine_entry e) [j]) (mig_init_routine e j).
Proof using.
  intros (Hst&He&_&Hlen) Hj s t Hr Hf. unfold mig_init_routine. apply wp_bind, wp_array; [lia|].
  cbn [omap list_omap] in *. unfold routine_entry in *.
  destruct (Z.eqb_spec (stub_routine (anth (routines e) j)) 0) as [|Hst0]; cbn [negb when] in *.
  - by apply files_ret.
  - destruct Hf as (_&Hnew&Hsz&Hall). set (b := mk_mig_hash (j + start e) _ _ _) in Hnew, Hall |- *.
    destruct (Hall (j + start e) b) as (_&Hrt&Hid); [by left|].
    assert (t !! num b = None) as Hn by (apply Hnew; by left).
    apply wp_bind, (wp_mig_probe_new s t); [done|simpl length in Hsz; lia|exact Hn|lia|].
    intros d Hd Hfree Hused. apply wp_modify. split; [|cbn [length]; simpl; lia].
    change (represents (mig_insert d b s) (<[num b := b]> ∅ ∪ t)). rewrite <- insert_union_l, (left_id_L ∅ (∪)).
    by apply mig_insert_represents.
Qed.
Lemma files_range e js : subsystem_ok e -> (forall j, j ∈ js -> 0 <= j < end_ e - start e) ->
  files (omap (routine_entry e) js) (mig_init_range e js).
Proof using.
  intros He. induction js as [|j js IH]; intros Hjs; [apply files_ret|].
  rewrite (omap_app _ [j] js). apply files_seq; [apply files_routine; [done|]; apply Hjs; by left|].
  apply IH. intros ? ?. apply Hjs. by right.
Qed.
Lemma files_all mig_e : Forall subsystem_ok mig_e -> files (all_routines mig_e) (mig_init_all mig_e).
Proof using.
  induction 1 as [|e mig_e He _ IH]; [apply files_ret|]. apply files_seq; [|done].
  pose proof He as (Hst&_&Hmax&_). unfold mig_init_subsystem.
  destruct (Z.eqb_spec (start e) 0); [lia|]. destruct (Z.ltb_spec (end_ e - start e) 0); [lia|].
  destruct (Z.ltb_spec (KALLOC_SAFE_ALLOC_SIZE - MAX_TRAILER_SIZE) (maxsize e)); [lia|].
  apply files_range; [done|]. intros j Hj%elem_of_seqZ. lia.
Qed.

(** ** Looking messages up *)
Lemma find_loop_hit s t id b d : represents s t -> t !! id = Some b ->
  0 <= d < mig_table_max_displ s -> anth (mig_buckets s) ((id + d) mod MAX_MIG_ENTRIES) = b ->
  (forall d', 0 <= d' < d -> num (anth (mig_buckets s) ((id + d') mod MAX_MIG_ENTRIES)) <> 0 /\
                             num (anth (mig_buckets s) ((id + d') mod MAX_MIG_ENTRIES)) <> id) ->
  forall fuel d0, 0 <= d0 <= d -> d - d0 < Z.of_nat fuel ->
  wp (find_mig_loop fuel id (id + d0) (mig_table_max_displ s - d0))
    (fun p s' => p = (id + d) mod MAX_MIG_ENTRIES /\ s' = s) s.
Proof using.
  intros Hr Hid Hd Hb Hall. destruct (rp_entry _ _ Hr _ _ Hid) as (Hnum&_&Hpos&_). pose proof (rp_displ _ _ Hr) as HD.
  induction fuel as [|fuel IH]; intros d0 Hd0 Hf; [lia|]. cbn [find_mig_loop].
  apply wp_bind, wp_gets, wp_bind, wp_array; [rewrite (rp_len _ _ Hr); apply Z.mod_pos_bound; done|].
  destruct (decide (d0 = d)) as [->|].
  - rewrite Hb, Hnum, Z.eqb_refl. by apply wp_ret.
  - destruct (Hall d0) as [H0 Hne]; [lia|].
    destruct (Z.eqb_spec id (num (anth (mig_buckets s) ((id + d0) mod MAX_MIG_ENTRIES)))); [congruence|].
    destruct (Z.eqb_spec (num (anth (mig_buckets s) ((id + d0) mod MAX_MIG_ENTRIES))) 0); [done|]. cbn [negb andb].
    destruct (Z.eqb_spec (mig_table_max_displ s - d0 - 1) 0); [lia|]. cbn [negb].
    unfold MAX_MIG_ENTRIES in HD. assert (u32 (id + d0 + 1) = id + (d0 + 1)) as -> by (unfold u32; rewrite Z.mod_small; lia).
    replace (mig_table_max_displ s - d0 - 1) with (mig_table_max_displ s - (d0 + 1)) by lia. apply IH; lia.
Qed.
(** Without an entry the loop still ends, at a bucket of the table. *)
Lemma find_loop_any s t id : represents s t -> forall fuel i max_iter,
  (1 <= max_iter <= Z.of_nat fuel \/ t = ∅ /\ (0 < fuel)%nat) ->
  wp (find_mig_loop fuel id i max_iter) (fun p s' => 0 <= p < MAX_MIG_ENTRIES /\ s' = s) s.
Proof using.
  intros Hr. induction fuel as [|fuel IH]; intros i max_iter Hm; [lia|]. cbn [find_mig_loop].
  assert (0 <= i mod MAX_MIG_ENTRIES < MAX_MIG_ENTRIES) as Hi by (apply Z.mod_pos_bound; done).
  apply wp_bind, wp_gets, wp_bind, wp_array; [by rewrite (rp_len _ _ Hr)|].
  destruct (Z.eqb_spec id (num (anth (mig_buckets s) (i mod MAX_MIG_ENTRIES)))); [by apply wp_ret|].
  destruct (Z.eqb_spec (num (anth (mig_buckets s) (i mod MAX_MIG_ENTRIES))) 0) as [|Hn]; [by apply wp_ret|]. cbn [negb andb].
  destruct (Z.eqb_spec (max_iter - 1) 0); [by apply wp_ret|]. cbn [negb]. apply IH.
  destruct Hm as [Hm|[-> _]]; [left; lia|]. by pose proof (rp_used _ _ Hr _ Hi Hn).
Qed.

Lemma wp_find s t id Q : represents s t -> - 2 ^ 31 <= id < 2 ^ 31 ->
  (forall b p, t !! id = Some b -> 0 <= p < MAX_MIG_ENTRIES -> anth (mig_buckets s) p = b -> Q (Some p) s) ->
  (t !! id = None -> Q None s) -> wp (find_mig_hash_entry id) Q s.
Proof using.
  intros Hr Hid HS HN. pose proof (rp_displ _ _ Hr) as HD. unfold find_mig_hash_entry, MIG_HASH.
  apply wp_bind, wp_gets, wp_bind. destruct (t !! id) as [b|] eqn:E.
  - destruct (rp_entry _ _ Hr _ _ E) as (Hnum&Hrt&Hpos&d&Hd&Hb&Hall).
    assert (u32 id = id + 0) as -> by (unfold u32; rewrite Z.mod_small; lia).
    pose proof (find_loop_hit s t id b d Hr E Hd Hb Hall (S (Z.to_nat (mig_table_max_displ s))) 0) as Hl.
    rewrite !Z.sub_0_r in Hl. eapply wp_mono; [apply Hl; lia|]. intros p s' [-> ->].
    assert (0 <= (id + d) mod MAX_MIG_ENTRIES < MAX_MIG_ENTRIES) as Hi by (apply Z.mod_pos_bound; done).
    apply wp_bind, wp_gets, wp_bind, wp_array; [by rewrite (rp_len _ _ Hr)|]. rewrite Hb, Hnum, Z.eqb_refl.
    destruct (Z.eqb_spec (routine b) 0); [done|]. apply wp_ret. by eapply HS.
  - eapply wp_mono; [eapply (find_loop_any s t id Hr)|].
    { destruct (decide (mig_table_max_displ s = 0)) as [E0|]; [right|left; lia]. split; [|lia].
      apply map_empty. intros x. destruct (t !! x) as [b|] eqn:Ex; [|done].
      destruct (rp_entry _ _ Hr _ _ Ex) as (_&_&_&d&?&_). lia. }
    intros p s' [Hp ->]. apply wp_bind, wp_gets, wp_bind, wp_array; [by rewrite (rp_len _ _ Hr)|].
    assert ((routine (anth (mig_buckets s) p) =? 0) || negb (id =? num (anth (mig_buckets s) p)) = true) as ->;
      [|by apply wp_ret, HN].
    destruct (Z.eqb_spec id (num (anth (mig_buckets s) p))) as [Eid|]; [|by rewrite orb_true_r].
    rewrite orb_false_r. apply Z.eqb_eq. destruct (decide (num (anth (mig_buckets s) p) = 0)) as [E0|E0].
    + by apply (rp_free _ _ Hr).
    + pose proof (rp_used _ _ Hr p Hp E0) as Hu. by rewrite <- Eid, E in Hu.
Qed.

(** Renumbering an entry in place. *)
Lemma reindex_represents s t p b index : represents s t -> 0 <= p < MAX_MIG_ENTRIES ->
  anth (mig_buckets s) p = b -> t !! num b = Some b ->
  let b' := mk_mig_hash (num b) (routine b) (size b) index in
  represents (mk_mig_state (aset (mig_buckets s) p b') (mig_table_max_displ s) (mach_kobj_count s)) (<[num b := b']> t).
Proof using.
  intros Hr Hp Hb Ht b'. pose proof Hr as [Hl Hu Hf He Hq Hc Hm].
  destruct (He _ _ Ht) as (_&Hrt&Hid&_).
  assert (forall i, 0 <= i < MAX_MIG_ENTRIES ->
    anth (aset (mig_buckets s) p b') i = if p =? i then b' else anth (mig_buckets s) i) as Hget.
  { intros i Hi. apply anth_aset; lia. }
  assert (forall i, 0 <= i < MAX_MIG_ENTRIES -> num (anth (aset (mig_buckets s) p b') i) = num (anth (mig_buckets s) i)) as Hnum.
  { intros i Hi. rewrite Hget by done. destruct (Z.eqb_spec p i) as [<-|]; [by rewrite Hb|done]. }
  assert (forall x, 0 <= x mod MAX_MIG_ENTRIES < MAX_MIG_ENTRIES) as Hmod by (intros; apply Z.mod_pos_bound; done).
  split; cbn [mig_buckets mig_table_max_displ].
  - by rewrite alen_aset.
  - intros i Hi. rewrite Hnum, Hget by done. destruct (Z.eqb_spec p i) as [<-|Hne].
    + intros _. rewrite Hb. apply lookup_insert_eq.
    + intros Hn. rewrite lookup_insert_ne; [by apply Hu|]. intros E. apply Hne, Hq; [done..|by rewrite Hb; lia|by rewrite Hb].
  - intros i Hi. rewrite Hnum, Hget by done. destruct (Z.eqb_spec p i) as [<-|]; [|by apply Hf]. rewrite Hb. lia.
  - intros id b1 Hb1. assert (exists b0, t !! id = Some b0 /\ num b1 = num b0 /\ routine b1 = routine b0 /\
      (b1 = b0 /\ id <> num b \/ b0 = b /\ b1 = b')) as (b0&Hb0&E1&E2&Hcase).
    { apply lookup_insert_Some in Hb1 as [[<- <-]|[? Hb1]]; [exists b|exists b1]; naive_solver. }
    destruct (He _ _ Hb0) as (F1&F2&F3&d&Hd&Hb2&Hall). rewrite E1, E2. split; [done|]. split; [done|]. split; [done|].
    exists d. split; [done|]. split; [|intros d' Hd'; rewrite Hnum by apply Hmod; by apply Hall].
    rewrite Hget by apply Hmod. destruct (Z.eqb_spec p ((id + d) mod MAX_MIG_ENTRIES)) as [E|Hne].
    + rewrite <- E, Hb in Hb2. destruct Hcase as [[? Hx]|[? ?]]; [|done]. by rewrite Hb2, F1 in Hx.
    + destruct Hcase as [[-> _]|[-> _]]; [done|]. destruct Hne. apply Hq; [done|apply Hmod|rewrite Hb; lia|by rewrite Hb, Hb2].
  - intros i j Hi Hj. rewrite !Hnum by done. by apply Hq.
  - rewrite map_size_insert_Some by done. rewrite <- Hc. unfold aset.
    assert (mig_buckets s !! Z.to_nat p = Some b) as Hat.
    { rewrite <- Hb. unfold anth. apply list_lookup_lookup_total_lt. unfold alen in Hl. lia. }
    pose proof (length_filter_insert (fun b => num b <> 0) (mig_buckets s) (Z.to_nat p) b b' Hat) as Hx.
    rewrite !decide_True in Hx by (simpl; lia). lia.
  - done.
Qed.
End refinement.

(** ** The table as a service *)
Inductive mig_op := Dispatch (msgh_id : Z) | SetIndex (msgh_id index : Z).
Inductive mig_answer := Entry (b : option mig_hash_t) | Status (kr : kern_return_t).
Definition mig_exec `{KernelConfig} (op : mig_op) : M mig_state mig_answer :=
  match op with
  | Dispatch id => let* b := mig_entry id in ret (Entry b)
  | SetIndex id index => let* kr := ipc_kobject_set_kobjidx id index in ret (Status kr)
  end.
Fixpoint mig_exec_all `{KernelConfig} (ops : list mig_op) : M mig_state (list mig_answer) :=
  match ops with
  | [] => ret []
  | op :: ops => let* x := mig_exec op in let* l := mig_exec_all ops in ret (x :: l)
  end.
Definition mig_map_step (t : mig_map) (op : mig_op) : mig_map * mig_answer :=
  match op with
  | Dispatch id => (t, Entry (t !! id))
  | SetIndex id index =>
    match t !! id with
    | None => (t, Status KERN_INVALID_ARGUMENT)
    | Some b => (<[id := mk_mig_hash (num b) (routine b) (size b) index]> t, Status KERN_SUCCESS)
    end
  end.
Fixpoint mig_map_run (t : mig_map) (ops : list mig_op) : list mig_answer :=
  match ops with
  | [] => []
  | op :: ops => let '(t, x) := mig_map_step t op in x :: mig_map_run t ops
  end.
(** Message ids are [int]s, and an index is below the count of routines. *)
Definition mig_op_ok (count : Z) (op : mig_op) : Prop :=
  match op with
  | Dispatch id => - 2 ^ 31 <= id < 2 ^ 31
  | SetIndex id index => - 2 ^ 31 <= id < 2 ^ 31 /\ index < count
  end.

Section service.
Context `{KernelConfig}.

Lemma mig_exec_ok s t op : represents s t -> mig_op_ok (mach_kobj_count s) op ->
  wp (mig_exec op) (fun x s' => represents s' (mig_map_step t op).1 /\ x = (mig_map_step t op).2 /\
    mach_kobj_count s' = mach_kobj_count s) s.
Proof using.
  intros Hr. destruct op as [id|id index]; cbn [mig_exec mig_op_ok mig_map_step].
  - intros Hid. apply wp_bind. unfold mig_entry. apply wp_bind, (wp_find s t); [done..| |].
    + intros b p Hb Hp Hat. apply wp_bind, wp_gets, wp_bind, wp_array; [by rewrite (rp_len _ _ Hr)|].
      apply wp_ret, wp_ret. by rewrite Hat, Hb.
    + intros Hn. apply wp_ret, wp_ret. by rewrite Hn.
  - intros [Hid Hix]. apply wp_bind. unfold ipc_kobject_set_kobjidx. apply wp_bind, (wp_find s t); [done..| |].
    + intros b p Hb Hp Hat. apply wp_bind, wp_gets, wp_bind, wp_massert; [by apply Z.ltb_lt|].
      apply wp_bind, wp_gets, wp_bind, wp_array; [by rewrite (rp_len _ _ Hr)|]. apply wp_bind, wp_modify, wp_ret, wp_ret.
      rewrite Hb, Hat. split; [|done]. cbn [fst]. destruct (rp_entry _ _ Hr _ _ Hb) as (<-&_). by apply reindex_represents.
    + intros Hn. apply wp_ret, wp_ret. by rewrite Hn.
Qed.
Lemma mig_exec_all_ok ops : forall s t, represents s t -> Forall (mig_op_ok (mach_kobj_count s)) ops ->
  wp (mig_exec_all ops) (fun l _ => l = mig_map_run t ops) s.
Proof using.
  induction ops as [|op ops IH]; intros s t Hr Hok; cbn [mig_exec_all]; [by apply wp_ret|].
  apply Forall_cons in Hok as [Ho Hok]. apply wp_bind. eapply wp_mono; [by apply mig_exec_ok|].
  intros x s' (Hr'&->&Hc). apply wp_bind. eapply wp_mono; [apply (IH s' _ Hr'); by rewrite Hc|].
  intros l s'' ->. apply wp_ret. cbn [mig_map_run]. by destruct (mig_map_step t op).
Qed.

Lemma all_routines_ok mig_e : Forall subsystem_ok mig_e -> forall id b, (id, b) ∈ all_routines mig_e ->
  num b = id /\ routine b <> 0 /\ 0 < id < 2 ^ 31.
Proof using.
  intros Hsub id b (e&Hin&He)%list_elem_of_bind. rewrite Forall_forall in Hsub. destruct (Hsub e He) as (Hst&Hend&_&_).
  unfold subsystem_routines in Hin. apply list_elem_of_omap in Hin as (j&Hj%elem_of_seqZ&E).
  unfold routine_entry in E. destruct (Z.eqb_spec (stub_routine (anth (routines e) j)) 0); [done|].
  injection E as <- <-. simpl. split; [done|]. split; [done|lia].
Qed.

Lemma empty_represents : represents mig_initial ∅.
Proof using.
  assert (forall i, 0 <= i < MAX_MIG_ENTRIES -> anth (mig_buckets mig_initial) i = mk_mig_hash 0 0 0 0) as Hz
    by (intros; by apply anth_replicate).
  split.
  - by apply alen_replicate.
  - intros i Hi. by rewrite Hz.
  - intros i Hi. by rewrite Hz.
  - intros id b. by rewrite lookup_empty.
  - intros i j Hi Hj. by rewrite Hz.
  - rewrite map_size_empty. apply length_zero_iff_nil, filter_none. intros b (i&Hi&<-)%elem_of_anth. 
    cbn [mig_buckets mig_initial] in Hi. rewrite alen_replicate in Hi by done. intros Hn. apply Hn. by rewrite Hz.
  - done.
Qed.
End service.

(** C11. The dispatch table is a finite map.  If the subsystems are well formed (positive
    message ids that are [int]s, one descriptor per id, replies that fit), their ids are
    distinct and there are at most [MAX_MIG_ENTRIES] routines, then [mig_init] fills the table
    without panic; and then any sequence of lookups, of any 32-bit message ids, and of index
    assignments terminates with the answers of a map that has exactly the
    subsystems' routines: an id without a routine, negative or zero ones included, finds nothing. *)
Theorem mig_dispatch_refines `{KernelConfig} (mig_e : list mig_subsystem) (ops : list mig_op) :
  Forall subsystem_ok mig_e -> NoDup (all_routines mig_e).*1 ->
  Z.of_nat (length (all_routines mig_e)) <= MAX_MIG_ENTRIES ->
  Forall (mig_op_ok (Z.of_nat (length (all_routines mig_e)) + 32)) ops ->
  exists s, (mig_init mig_e ;;* mig_exec_all ops) mig_initial
            = Done (mig_map_run (list_to_map (all_routines mig_e)) ops, s).
Proof.
  intros Hsub Hnd Hlen Hops.
  assert (wp (mig_init mig_e ;;* mig_exec_all ops)
    (fun l _ => l = mig_map_run (list_to_map (all_routines mig_e)) ops) mig_initial) as Hw.
  { apply wp_bind, wp_bind. eapply wp_mono; [apply (files_all mig_e Hsub mig_initial ∅ empty_represents)|].
    - split; [done|]. split; [intros; apply lookup_empty|]. split; [rewrite map_size_empty; lia|]. by apply all_routines_ok.
    - intros _ s [Hr Hc]. rewrite (right_id_L ∅ (∪)) in Hr. apply wp_modify.
      apply mig_exec_all_ok; [by destruct Hr|]. cbn [mach_kobj_count]. by rewrite Hc. }
  apply wp_elim in Hw as (l&s&E&->). by exists s.
Qed.

(** ** An instance: two subsystems, with a collision and a gap *)
Definition sample_subsystems : list mig_subsystem :=
  [mk_subsystem 1 3 256 [mk_routine 0x1000 64; mk_routine 0x1100 0];
   mk_subsystem 1032 1035 128 [mk_routine 0x2000 0; mk_routine 0 0; mk_routine 0x2200 32]].
Lemma mig_dispatch_refines_witness :
  exists s, (mig_init sample_subsystems ;;*
     @mig_exec_all DEVELOPMENT [Dispatch 1032; Dispatch 1033; SetIndex 1 7; Dispatch 1; Dispatch 0; SetIndex 5 1; Dispatch (-1)]) mig_initial
   = Done ([Entry (Some (mk_mig_hash 1032 0x2000 128 (-1))); Entry None; Status KERN_SUCCESS;
            Entry (Some (mk_mig_hash 1 0x1000 64 7)); Entry None; Status KERN_INVALID_ARGUMENT; Entry None], s).
Proof.
  destruct (@mig_dispatch_refines DEVELOPMENT sample_subsystems
    [Dispatch 1032; Dispatch 1033; SetIndex 1 7; Dispatch 1; Dispatch 0; SetIndex 5 1; Dispatch (-1)]) as [s Hs].
  - repeat constructor; cbn; unfold KALLOC_SAFE_ALLOC_SIZE, MAX_TRAILER_SIZE; lia.
  - apply (bool_decide_unpack _). reflexivity.
  - apply (bool_decide_unpack _). reflexivity.
  - repeat constructor; cbn; lia.
  - exists s. exact Hs.
Defined.
