(* ===== verification/KmsgQueue.v ===== *)
(** * Queues of kernel messages ([osfmk/ipc/ipc_kmsg.c])

    A queue is a circular doubly linked list threaded through the messages,
    entered at its head.  Messages live at addresses of a heap; following a
    pointer to an address without a message is a fault.  Inserting a message with
    a quality-of-service override raises the overrides in front of it, so that
    the head carries the largest one. *)

From S2P Require Import Prelude.

(** The fields of [struct ipc_kmsg] the queues use. *)
Record ipc_kmsg_node := mk_node { ikm_next : Z; ikm_prev : Z; ikm_qos_override : Z }.
Definition set_ikm_next (v : Z) (n : ipc_kmsg_node) : ipc_kmsg_node := mk_node v (ikm_prev n) (ikm_qos_override n).
Definition set_ikm_prev (v : Z) (n : ipc_kmsg_node) : ipc_kmsg_node := mk_node (ikm_next n) v (ikm_qos_override n).
Definition set_ikm_qos_override (v : Z) (n : ipc_kmsg_node) : ipc_kmsg_node := mk_node (ikm_next n) (ikm_prev n) v.

Definition IKM_NULL : Z := 0.
Abbreviation kheap := (gmap Z ipc_kmsg_node).

Section operations.
Context `{KernelConfig}.

Definition get_kmsg (kmsg : Z) : M kheap ipc_kmsg_node :=
  fun h => match h !! kmsg with Some n => Done (n, h) | None => Panic "dangling kmsg" end.
Definition mod_kmsg (kmsg : Z) (f : ipc_kmsg_node -> ipc_kmsg_node) : M kheap unit :=
  let* n := get_kmsg kmsg in modify (fun h => <[kmsg := f n]> h).

(** A queue is its [ikmq_base]; the operations return the new one. *)
Definition ipc_kmsg_queue_first (queue : Z) : Z := queue.
Definition ipc_kmsg_queue_empty (queue : Z) : bool := queue =? IKM_NULL.

Definition ipc_kmsg_enqueue (queue kmsg : Z) : M kheap Z :=
  let first := queue in
  if first =? IKM_NULL then
    mod_kmsg kmsg (set_ikm_next kmsg) ;;*
    mod_kmsg kmsg (set_ikm_prev kmsg) ;;*
    ret kmsg
  else
    let* n := get_kmsg first in
    let last := ikm_prev n in
    mod_kmsg kmsg (set_ikm_next first) ;;*
    mod_kmsg kmsg (set_ikm_prev last) ;;*
    mod_kmsg first (set_ikm_prev kmsg) ;;*
    mod_kmsg last (set_ikm_next kmsg) ;;*
    ret queue.

(** [while (prev != kmsg && qos_ovr > prev->ikm_qos_override)]. *)
Fixpoint enqueue_qos_loop (fuel : nat) (kmsg qos_ovr prev : Z) : M kheap Z :=
  match fuel with
  | O => fun _ => Diverges
  | S fuel =>
    if prev =? kmsg then ret prev
    else
      let* n := get_kmsg prev in
      if ikm_qos_override n <? qos_ovr then
        mod_kmsg prev (set_ikm_qos_override qos_ovr) ;;*
        enqueue_qos_loop fuel kmsg qos_ovr (ikm_prev n)
      else ret prev
  end.

(** Returns the queue and whether its head was adjusted. *)
Definition ipc_kmsg_enqueue_qos (queue kmsg : Z) : M kheap (Z * bool) :=
  let first := queue in
  if first =? IKM_NULL then
    mod_kmsg kmsg (set_ikm_next kmsg) ;;*
    mod_kmsg kmsg (set_ikm_prev kmsg) ;;*
    ret (kmsg, true)
  else
    let* n := get_kmsg first in
    let prev := ikm_prev n in
    mod_kmsg kmsg (set_ikm_next first) ;;*
    mod_kmsg kmsg (set_ikm_prev prev) ;;*
    mod_kmsg first (set_ikm_prev kmsg) ;;*
    mod_kmsg prev (set_ikm_next kmsg) ;;*
    let* k := get_kmsg kmsg in
    let* messages := gets size in
    let* prev := enqueue_qos_loop (S messages) kmsg (ikm_qos_override k) prev in
    ret (queue, prev =? kmsg).

Fixpoint override_qos_loop (fuel : nat) (first qos_ovr cur : Z) : M kheap bool :=
  match fuel with
  | O => fun _ => Diverges
  | S fuel =>
    let* n := get_kmsg cur in
    if ikm_qos_override n <? qos_ovr then
      mod_kmsg cur (set_ikm_qos_override qos_ovr) ;;*
      if cur =? first then ret true else override_qos_loop fuel first qos_ovr (ikm_prev n)
    else ret false
  end.
Definition ipc_kmsg_override_qos (queue kmsg qos_ovr : Z) : M kheap bool :=
  let* messages := gets size in override_qos_loop (S messages) queue qos_ovr kmsg.

Definition ipc_kmsg_rmqueue (queue kmsg : Z) : M kheap Z :=
  massert (negb (queue =? IKM_NULL)) "queue->ikmq_base != IKM_NULL" ;;*
  let* n := get_kmsg kmsg in
  let next := ikm_next n in
  let prev := ikm_prev n in
  if next =? kmsg then
    massert (prev =? kmsg) "prev == kmsg" ;;*
    massert (queue =? kmsg) "queue->ikmq_base == kmsg" ;;*
    ret IKM_NULL
  else
    let* nn := get_kmsg next in
    let* pn := get_kmsg prev in
    if negb (ikm_prev nn =? kmsg) || negb (ikm_next pn =? kmsg)
    then panic "ipc_kmsg_rmqueue: inconsistent prev/next pointers"
    else
      let queue := if queue =? kmsg then next else queue in
      mod_kmsg next (set_ikm_prev prev) ;;*
      mod_kmsg prev (set_ikm_next next) ;;*
      ret queue.

(** The message taken, [IKM_NULL] if there is none, and the queue. *)
Definition ipc_kmsg_dequeue (queue : Z) : M kheap (Z * Z) :=
  let first := ipc_kmsg_queue_first queue in
  if negb (first =? IKM_NULL) then
    let* queue := ipc_kmsg_rmqueue queue first in ret (first, queue)
  else ret (first, queue).

Definition ipc_kmsg_queue_next (queue kmsg : Z) : M kheap Z :=
  massert (negb (queue =? IKM_NULL)) "queue->ikmq_base != IKM_NULL" ;;*
  let* n := get_kmsg kmsg in
  ret (if queue =? ikm_next n then IKM_NULL else ikm_next n).

(** [d_queue] is the queue of messages the current thread has to destroy. *)
Definition ipc_kmsg_delayed_destroy (d_queue kmsg : Z) : M kheap (Z * bool) :=
  let first := ipc_kmsg_queue_empty d_queue in
  let* d_queue := ipc_kmsg_enqueue d_queue kmsg in
  ret (d_queue, first).

(** Returns the emptied queue, the thread's queue and whether the caller has to
    reap it. *)
Definition ipc_kmsg_delayed_destroy_queue (queue d_queue : Z) : M kheap (Z * Z * bool) :=
  let first := queue in
  if first =? IKM_NULL then ret (queue, d_queue, false)
  else
    let d_first := d_queue in
    if d_first =? IKM_NULL then ret (IKM_NULL, first, true)
    else
      let* n := get_kmsg first in
      let last := ikm_prev n in
      let* dn := get_kmsg d_first in
      let d_last := ikm_prev dn in
      mod_kmsg d_last (set_ikm_next first) ;;*
      mod_kmsg first (set_ikm_prev d_last) ;;*
      mod_kmsg d_first (set_ikm_prev last) ;;*
      mod_kmsg last (set_ikm_next d_first) ;;*
      ret (IKM_NULL, d_queue, false).
End operations.
