(* ===== verification/KmsgSpec.v ===== *)
(** * Message queues refine sequences

    The representation of a queue by a circular list, the lemma of each
    operation, and the refinement of any history of operations by a sequence of
    messages whose overrides never increase towards the tail. *)

From S2P Require Import Prelude KmsgQueue.

(** ** Circular lists

    An element of the sequence is the address of a message and its override. *)
Definition kmsgs : Type := list (Z * Z).

Definition first_of (d : Z) (l : kmsgs) : Z := match l with [] => d | (x, _) :: _ => x end.
Fixpoint last_of (d : Z) (l : kmsgs) : Z := match l with [] => d | (x, _) :: l => last_of x l end.

(** The links of a stretch of the list between [pp] and [qn]. *)
Fixpoint seg (h : kheap) (pp : Z) (l : kmsgs) (qn : Z) : Prop :=
  match l with
  | [] => True
  | (x, q) :: l => h !! x = Some (mk_node (first_of qn l) pp q) /\ seg h x l qn
  end.
Definition ring (h : kheap) (l : kmsgs) : Prop := seg h (last_of IKM_NULL l) l (first_of IKM_NULL l).

(** [queue] is entered at the head of the circular list [l]. *)
Record kmsgq (h : kheap) (queue : Z) (l : kmsgs) : Prop := {
  kq_base : queue = first_of IKM_NULL l;
  kq_ring : ring h l;
  kq_nodup : NoDup l.*1;
  kq_null : IKM_NULL ∉ l.*1;
}.

Lemma first_of_app d l1 l2 : first_of d (l1 ++ l2) = first_of (first_of d l2) l1.
Proof. by destruct l1 as [|[]]. Qed.
Lemma last_of_app d l1 l2 : last_of d (l1 ++ l2) = last_of (last_of d l1) l2.
Proof. revert d. induction l1 as [|[x q] l1 IH]; intros d; [done|apply IH]. Qed.
Lemma first_of_ne d d' l : l <> [] -> first_of d l = first_of d' l.
Proof. by destruct l as [|[]]. Qed.
Lemma last_of_ne d d' l : l <> [] -> last_of d l = last_of d' l.
Proof. by destruct l as [|[]]. Qed.
Lemma first_of_in d l : l <> [] -> first_of d l ∈ l.*1.
Proof. destruct l as [|[x q] l]; [done|]. intros _. left. Qed.
Lemma last_of_snoc d l x q : last_of d (l ++ [(x, q)]) = x.
Proof. by rewrite last_of_app. Qed.
Lemma last_of_in d l : l <> [] -> last_of d l ∈ l.*1.
Proof.
  destruct l as [|[x q] l _] using rev_ind; [done|]. intros _. rewrite last_of_snoc, fmap_app.
  apply elem_of_app. right. left.
Qed.

Lemma seg_app h pp l1 l2 qn :
  seg h pp (l1 ++ l2) qn <-> seg h pp l1 (first_of qn l2) /\ seg h (last_of pp l1) l2 qn.
Proof.
  revert pp. induction l1 as [|[x q] l1 IH]; intros pp; simpl; [naive_solver|].
  rewrite IH, first_of_app. naive_solver.
Qed.

(** Messages outside the list do not matter. *)
Definition frame (l : kmsgs) (h h' : kheap) : Prop := forall x, x ∉ l.*1 -> h' !! x = h !! x.
Lemma seg_ext h h' pp l qn : (forall x, x ∈ l.*1 -> h' !! x = h !! x) -> seg h pp l qn -> seg h' pp l qn.
Proof.
  revert pp. induction l as [|[x q] l IH]; intros pp Hh; [done|]. intros [Hx Hl]. split.
  - rewrite Hh; [done|left].
  - apply IH; [|done]. intros y Hy. apply Hh. by right.
Qed.
Lemma seg_frame h h' pp l1 l2 qn :
  frame l2 h h' -> (forall x, x ∈ l1.*1 -> x ∉ l2.*1) -> seg h pp l1 qn -> seg h' pp l1 qn.
Proof. intros Hf Hd. apply seg_ext. intros x Hx. apply Hf, Hd, Hx. Qed.

Lemma ring_rotate h l1 l2 : ring h (l1 ++ l2) <-> ring h (l2 ++ l1).
Proof.
  assert (forall l1 l2, ring h (l1 ++ l2) -> ring h (l2 ++ l1)) as Hr; [|split; apply Hr].
  clear l1 l2. intros l1 l2. destruct (decide (l1 = [])) as [->|H1]; [by rewrite app_nil_r|].
  destruct (decide (l2 = [])) as [->|H2]; [by rewrite app_nil_r|]. unfold ring.
  rewrite !seg_app, !first_of_app, !last_of_app.
  rewrite !(first_of_ne (first_of _ _) IKM_NULL l1), !(first_of_ne (first_of _ _) IKM_NULL l2),
    !(last_of_ne (last_of _ _) IKM_NULL l1), !(last_of_ne (last_of _ _) IKM_NULL l2) by done. naive_solver.
Qed.

(** Reading and writing the ends of a stretch. *)
Lemma wp_get_kmsg h x n (Q : ipc_kmsg_node -> kheap -> Prop) : h !! x = Some n -> Q n h -> wp (get_kmsg x) Q h.
Proof. unfold wp, get_kmsg. by intros ->. Qed.
Lemma wp_mod_kmsg h x n f (Q : unit -> kheap -> Prop) : h !! x = Some n -> Q tt (<[x := f n]> h) -> wp (mod_kmsg x f) Q h.
Proof. intros Hx HQ. apply wp_bind, (wp_get_kmsg _ _ n); [done|]. by apply wp_modify. Qed.

Lemma seg_first h pp l qn d : l <> [] -> seg h pp l qn -> exists n, h !! first_of d l = Some n /\ ikm_prev n = pp.
Proof. destruct l as [|[x q] l]; [done|]. intros _ [Hx _]. by eexists. Qed.
Lemma seg_last h pp l qn d : l <> [] -> seg h pp l qn -> exists n, h !! last_of d l = Some n /\ ikm_next n = qn.
Proof.
  destruct l as [|[x q] l _] using rev_ind; [done|]. intros _ [_ [Hx _]]%seg_app. rewrite last_of_snoc. by eexists.
Qed.
Lemma seg_lookup h pp l qn x : seg h pp l qn -> x ∈ l.*1 -> is_Some (h !! x).
Proof.
  revert pp. induction l as [|[y q] l IH]; intros pp; [by intros _ ?%not_elem_of_nil|]. intros [Hy Hl] [->|Hx]%elem_of_cons.
  - simpl. by rewrite Hy.
  - by eapply IH.
Qed.

Lemma wp_set_prev h pp l qn d pp' (Q : unit -> kheap -> Prop) :
  l <> [] -> NoDup l.*1 -> seg h pp l qn ->
  (forall h', seg h' pp' l qn -> frame l h h' -> Q tt h') -> wp (mod_kmsg (first_of d l) (set_ikm_prev pp')) Q h.
Proof.
  destruct l as [|[x q] l]; [done|]. rewrite fmap_cons, NoDup_cons. intros _ [Hx Hnd] [Hn Hl] HQ. cbn [first_of].
  apply (wp_mod_kmsg _ _ _ _ _ Hn), HQ.
  - split; [by rewrite lookup_insert_eq|]. eapply seg_ext, Hl. intros y Hy. apply lookup_insert_ne. set_solver.
  - intros y Hy. apply lookup_insert_ne. set_solver.
Qed.
Lemma wp_set_next h pp l qn d qn' (Q : unit -> kheap -> Prop) :
  l <> [] -> NoDup l.*1 -> seg h pp l qn ->
  (forall h', seg h' pp l qn' -> frame l h h' -> Q tt h') -> wp (mod_kmsg (last_of d l) (set_ikm_next qn')) Q h.
Proof.
  destruct l as [|[x q] l _] using rev_ind; [done|]. intros _ Hnd [Hl [Hn _]]%seg_app HQ. rewrite last_of_snoc.
  rewrite fmap_app in Hnd. apply NoDup_app in Hnd as (_&Hx&_).
  apply (wp_mod_kmsg _ _ _ _ _ Hn), HQ.
  - apply seg_app. split; [|by split; [rewrite lookup_insert_eq|]].
    eapply seg_ext, Hl. intros y Hy. apply lookup_insert_ne. intros ->. apply (Hx y Hy). left.
  - intros y Hy. apply lookup_insert_ne. rewrite fmap_app in Hy. set_solver.
Qed.

(** ** Overrides *)

(** No message is overridden by one behind it. *)
Fixpoint descending (l : kmsgs) : Prop :=
  match l with [] => True | (_, p) :: l => Forall (fun e => e.2 <= p) l /\ descending l end.
Definition raise (q : Z) (l : kmsgs) : kmsgs := (fun e => (e.1, Z.max e.2 q)) <$> l.
(** The head is overridden by [q], or there is none. *)
Definition head_below (q : Z) (l : kmsgs) : bool := match l with [] => true | (_, p) :: _ => p <? q end.

Lemma descending_app l1 l2 :
  descending (l1 ++ l2) <-> descending l1 /\ descending l2 /\ Forall (fun e => Forall (fun e' => e'.2 <= e.2) l2) l1.
Proof.
  induction l1 as [|[x p] l1 IH]; simpl; [naive_solver|]. rewrite IH, Forall_app, Forall_cons. naive_solver.
Qed.
Lemma raise_app q l1 l2 : raise q (l1 ++ l2) = raise q l1 ++ raise q l2.
Proof. apply fmap_app. Qed.
Lemma raise_addresses q l : (raise q l).*1 = l.*1.
Proof. unfold raise. by rewrite <- list_fmap_compose. Qed.
Lemma raise_above q l : Forall (fun e => q <= e.2) l -> raise q l = l.
Proof.
  intros Hl. induction Hl as [|[x p] l Hp _ IH]; [done|]. unfold raise in *. cbn. rewrite IH. simpl in Hp.
  by rewrite Z.max_l.
Qed.
Lemma descending_raise q l : descending l -> descending (raise q l).
Proof.
  induction l as [|[x p] l IH]; [done|]. intros [Hp Hl]. split; [|by apply IH].
  unfold raise. apply Forall_fmap. eapply Forall_impl; [exact Hp|]. intros e He. simpl in *. lia.
Qed.
Lemma descending_snoc q l x : descending l -> descending (raise q l ++ [(x, q)]).
Proof.
  intros Hl. apply descending_app. split; [by apply descending_raise|]. split; [done|].
  unfold raise. apply Forall_fmap, Forall_forall. intros e _. apply Forall_singleton. simpl. lia.
Qed.
Lemma first_of_raise d q l : first_of d (raise q l) = first_of d l.
Proof. by destruct l as [|[]]. Qed.
Lemma last_of_raise d q l : last_of d (raise q l) = last_of d l.
Proof. revert d. induction l as [|[x p] l IH]; intros d; [done|apply IH]. Qed.

(** ** Insertion at the tail *)
Section lemmas.
Context `{KernelConfig}.

Lemma link_tail {B} h queue l x n0 (n : Z -> M kheap B) Q :
  kmsgq h queue l -> l <> [] -> x ∉ l.*1 -> x <> IKM_NULL -> h !! x = Some n0 ->
  (forall h', kmsgq h' queue (l ++ [(x, ikm_qos_override n0)]) -> frame (l ++ [(x, ikm_qos_override n0)]) h h' ->
     wp (n (last_of IKM_NULL l)) Q h') ->
  wp (let* m := get_kmsg queue in
      mod_kmsg x (set_ikm_next queue) ;;* mod_kmsg x (set_ikm_prev (ikm_prev m)) ;;*
      mod_kmsg queue (set_ikm_prev x) ;;* mod_kmsg (ikm_prev m) (set_ikm_next x) ;;* n (ikm_prev m)) Q h.
Proof.
  intros [-> Hr Hnd H0] Hne Hx Hx0 Hn HQ. set (q := ikm_qos_override n0) in *. unfold ring in Hr.
  destruct (seg_first _ _ _ _ IKM_NULL Hne Hr) as (m&Hm&Hmp). apply wp_bind, (wp_get_kmsg _ _ m); [done|]. rewrite Hmp.
  apply wp_bind, (wp_mod_kmsg _ _ n0); [done|]. apply wp_bind.
  eapply wp_mod_kmsg; [apply lookup_insert_eq|]. rewrite insert_insert_eq.
  set (node := set_ikm_prev _ _). set (h1 := <[x := node]> h).
  assert (seg h1 (last_of IKM_NULL l) l (first_of IKM_NULL l)) as Hr1
    by (eapply seg_ext, Hr; intros y Hy; apply lookup_insert_ne; set_solver).
  apply wp_bind, (wp_set_prev _ _ l _ _ _ _ Hne Hnd Hr1). intros h2 Hr2 Hf2.
  apply wp_bind, (wp_set_next _ _ l _ _ _ _ Hne Hnd Hr2). intros h3 Hr3 Hf3.
  assert (h3 !! x = Some node) as Hx3 by (rewrite Hf3, Hf2 by done; apply lookup_insert_eq).
  apply HQ.
  - split.
    + rewrite first_of_app. by apply first_of_ne.
    + unfold ring. rewrite last_of_snoc, first_of_app, (first_of_ne _ IKM_NULL) by done. apply seg_app.
      split; [exact Hr3|]. split; [|done]. rewrite (last_of_ne _ IKM_NULL) by done. exact Hx3.
    + rewrite fmap_app. apply NoDup_app. split; [done|]. split; [set_solver|apply NoDup_singleton].
    + rewrite fmap_app. set_solver.
  - intros y Hy. rewrite fmap_app in Hy. rewrite Hf3, Hf2 by set_solver. apply lookup_insert_ne. set_solver.
Qed.

Lemma link_first h x n0 {B} (n : M kheap B) Q :
  x <> IKM_NULL -> h !! x = Some n0 ->
  (forall h', kmsgq h' x [(x, ikm_qos_override n0)] -> frame [(x, ikm_qos_override n0)] h h' -> wp n Q h') ->
  wp (mod_kmsg x (set_ikm_next x) ;;* mod_kmsg x (set_ikm_prev x) ;;* n) Q h.
Proof.
  intros Hx0 Hn HQ. apply wp_bind, (wp_mod_kmsg _ _ n0); [done|]. apply wp_bind.
  eapply wp_mod_kmsg; [apply lookup_insert_eq|]. rewrite insert_insert_eq. apply HQ.
  - split; [done| |apply NoDup_singleton|set_solver]. split; [apply lookup_insert_eq|done].
  - intros y Hy. apply lookup_insert_ne. set_solver.
Qed.

Lemma kmsgq_empty h queue l : kmsgq h queue l -> (queue =? IKM_NULL) = bool_decide (l = []).
Proof.
  intros [-> _ _ H0]. destruct l as [|[x q] l]; [done|]. rewrite bool_decide_false by done. apply Z.eqb_neq.
  cbn [first_of]. intros ->. apply H0. left.
Qed.

Lemma enqueue_ok h queue l x n0 :
  kmsgq h queue l -> x ∉ l.*1 -> x <> IKM_NULL -> h !! x = Some n0 ->
  wp (ipc_kmsg_enqueue queue x) (fun queue' h' =>
    kmsgq h' queue' (l ++ [(x, ikm_qos_override n0)]) /\ frame (l ++ [(x, ikm_qos_override n0)]) h h') h.
Proof.
  intros Hq Hx Hx0 Hn. unfold ipc_kmsg_enqueue. rewrite (kmsgq_empty _ _ _ Hq). case_bool_decide as He.
  - subst l. by apply (link_first _ _ n0).
  - by apply (link_tail h queue l x n0 (fun _ => ret queue)).
Qed.

(** ** Raising overrides *)
Lemma seg_at h pp l1 z p l2 qn :
  seg h pp (l1 ++ (z, p) :: l2) qn -> h !! z = Some (mk_node (first_of qn l2) (last_of pp l1) p).
Proof. by intros [_ [Hz _]]%seg_app. Qed.
Lemma nodup_mid (l1 l2 : kmsgs) z p :
  NoDup (l1 ++ (z, p) :: l2).*1 -> (z ∉ l1.*1) /\ (z ∉ l2.*1) /\ NoDup (l1 ++ l2).*1.
Proof.
  rewrite fmap_app, fmap_cons, NoDup_app, NoDup_cons. intros (H1&H2&H3&H4). rewrite fmap_app, NoDup_app. set_solver.
Qed.
Lemma wp_set_qos h pp l1 z p l2 qn q (Q : unit -> kheap -> Prop) :
  NoDup (l1 ++ (z, p) :: l2).*1 -> seg h pp (l1 ++ (z, p) :: l2) qn ->
  (forall h', seg h' pp (l1 ++ (z, q) :: l2) qn -> frame [(z, p)] h h' -> Q tt h') ->
  wp (mod_kmsg z (set_ikm_qos_override q)) Q h.
Proof.
  intros (H1&H2&_)%nodup_mid Hs HQ. eapply wp_mod_kmsg; [by eapply seg_at|]. apply seg_app in Hs as [Hl1 [Hz Hl2]]. apply HQ.
  - apply seg_app. split; [|split; [apply lookup_insert_eq|]].
    + eapply seg_ext, Hl1. intros y Hy. apply lookup_insert_ne. set_solver.
    + eapply seg_ext, Hl2. intros y Hy. apply lookup_insert_ne. set_solver.
  - intros y Hy. apply lookup_insert_ne. set_solver.
Qed.

(** A message not below [q] stops the walk towards the head. *)
Lemma descending_stop q l z p :
  descending (l ++ [(z, p)]) -> q <= p -> raise q (l ++ [(z, p)]) = l ++ [(z, p)] /\ head_below q (l ++ [(z, p)]) = false.
Proof.
  intros (_&_&Hl)%descending_app Hp. assert (Forall (fun e => q <= e.2) (l ++ [(z, p)])) as Hq.
  { apply Forall_app. split; [|by apply Forall_singleton]. eapply Forall_impl; [exact Hl|].
    intros e [He _]%Forall_cons. simpl in *. lia. }
  split; [by apply raise_above|]. destruct l as [|[y r] l]; apply Forall_cons in Hq as [Hq _]; by apply Z.ltb_ge.
Qed.
Lemma raise_snoc q l z p r : p < q -> raise q (l ++ [(z, p)]) ++ r = raise q l ++ (z, q) :: r.
Proof. intros Hp. rewrite raise_app, <- app_assoc. unfold raise at 2. cbn. by rewrite Z.max_r by lia. Qed.
Lemma head_below_snoc q l z p : p < q -> head_below q (l ++ [(z, p)]) = head_below q l.
Proof. intros Hp. destruct l as [|[]]; [by apply Z.ltb_lt|done]. Qed.
Lemma frame_snoc l z p h h1 h2 : frame [(z, p)] h h1 -> frame l h1 h2 -> frame (l ++ [(z, p)]) h h2.
Proof. intros H1 H2 y Hy. rewrite fmap_app in Hy. rewrite H2, H1 by set_solver. done. Qed.

Lemma qos_loop_ok x q l : forall fuel r h qn,
  (length l < fuel)%nat -> descending l -> x ∉ l.*1 -> NoDup (l ++ r).*1 -> seg h x (l ++ r) qn ->
  wp (enqueue_qos_loop fuel x q (last_of x l)) (fun res h' =>
    seg h' x (raise q l ++ r) qn /\ frame l h h' /\ (res =? x) = head_below q l) h.
Proof.
  induction l as [|[z p] l IH] using rev_ind; intros fuel r h qn Hf Hd Hx Hnd Hs.
  - destruct fuel; simpl in Hf; [lia|]. cbn [enqueue_qos_loop last_of]. rewrite Z.eqb_refl. apply wp_ret.
    split; [done|]. split; [done|]. apply Z.eqb_refl.
  - rewrite length_app in Hf. destruct fuel as [|fuel]; [simpl in Hf; lia|]. cbn [enqueue_qos_loop].
    rewrite fmap_app in Hx. rewrite last_of_snoc. destruct (Z.eqb_spec z x) as [->|Hzx]; [set_solver|].
    rewrite <- app_assoc in Hs, Hnd. simpl app in Hs, Hnd. eapply wp_bind, wp_get_kmsg; [by eapply seg_at|]. cbn [ikm_qos_override ikm_prev].
    destruct (Z.ltb_spec p q) as [Hp|Hp].
    + apply wp_bind, (wp_set_qos _ _ _ _ _ _ _ _ _ Hnd Hs). intros h1 Hs1 Hf1.
      eapply wp_mono; [apply (IH fuel ((z, q) :: r)); try done|].
      * simpl in Hf. lia.
      * by apply descending_app in Hd as [? _].
      * set_solver.
      * by rewrite fmap_app, fmap_cons in Hnd |- *.
      * intros res h2 (Hs2&Hf2&Hres). rewrite raise_snoc, head_below_snoc by done.
        split; [done|]. split; [by eapply frame_snoc|done].
    + destruct (descending_stop q l z p Hd Hp) as [-> ->]. apply wp_ret. rewrite <- app_assoc.
      split; [done|]. split; [done|]. by apply Z.eqb_neq.
Qed.

Lemma override_loop_ok q l : forall fuel r h pp qn,
  l <> [] -> (length l <= fuel)%nat -> descending l -> NoDup (l ++ r).*1 -> seg h pp (l ++ r) qn ->
  wp (override_qos_loop fuel (first_of IKM_NULL l) q (last_of IKM_NULL l)) (fun b h' =>
    seg h' pp (raise q l ++ r) qn /\ frame l h h' /\ b = head_below q l) h.
Proof.
  induction l as [|[z p] l IH] using rev_ind; intros fuel r h pp qn Hne Hf Hd Hnd Hs; [done|].
  rewrite length_app in Hf. destruct fuel as [|fuel]; [simpl in Hf; lia|]. cbn [override_qos_loop].
  rewrite last_of_snoc, first_of_app. rewrite <- app_assoc in Hs, Hnd. simpl app in Hs, Hnd.
  eapply wp_bind, wp_get_kmsg; [by eapply seg_at|]. cbn [ikm_qos_override ikm_prev].
  destruct (Z.ltb_spec p q) as [Hp|Hp].
  - apply wp_bind, (wp_set_qos _ _ _ _ _ _ _ _ _ Hnd Hs). intros h1 Hs1 Hf1.
    rewrite raise_snoc, head_below_snoc by done. destruct (decide (l = [])) as [->|Hl].
    + cbn [first_of]. rewrite Z.eqb_refl. by apply wp_ret.
    + rewrite (first_of_ne _ IKM_NULL), (last_of_ne _ IKM_NULL) by done.
      destruct (Z.eqb_spec z (first_of IKM_NULL l)) as [Hz|_].
      { exfalso. apply nodup_mid in Hnd as [Hz' _]. apply Hz'. rewrite Hz. by apply first_of_in. }
      eapply wp_mono; [apply (IH fuel ((z, q) :: r)); try done|].
      * simpl in Hf. lia.
      * by apply descending_app in Hd as [? _].
      * by rewrite fmap_app, fmap_cons in Hnd |- *.
      * intros b h2 (Hs2&Hf2&->). split; [done|]. split; [by eapply frame_snoc|done].
  - destruct (descending_stop q l z p Hd Hp) as [-> ->]. apply wp_ret. by rewrite <- app_assoc.
Qed.

(** ** The operations *)
Lemma seg_size h pp l qn : NoDup l.*1 -> seg h pp l qn -> (length l <= size h)%nat.
Proof.
  intros Hnd Hs. rewrite <- (length_fmap fst l), <- (size_list_to_set (C := gset Z) l.*1) by done.
  rewrite <- size_dom. apply subseteq_size. intros x Hx%elem_of_list_to_set. apply elem_of_dom. by eapply seg_lookup.
Qed.

Lemma enqueue_qos_ok h queue l x n0 :
  kmsgq h queue l -> descending l -> x ∉ l.*1 -> x <> IKM_NULL -> h !! x = Some n0 ->
  let q := ikm_qos_override n0 in
  wp (ipc_kmsg_enqueue_qos queue x) (fun res h' =>
    kmsgq h' res.1 (raise q l ++ [(x, q)]) /\ frame (l ++ [(x, q)]) h h' /\ res.2 = head_below q l) h.
Proof.
  intros Hq Hd Hx Hx0 Hn. cbv zeta. set (q := ikm_qos_override n0). unfold ipc_kmsg_enqueue_qos.
  rewrite (kmsgq_empty _ _ _ Hq). case_bool_decide as He.
  - subst l. apply (link_first _ _ n0); [done..|]. intros h' Hq' Hf. by apply wp_ret.
  - apply (link_tail h queue l x n0 (fun prev => let* k := get_kmsg x in let* messages := gets size in
      let* prev := enqueue_qos_loop (S messages) x (ikm_qos_override k) prev in ret (queue, prev =? x))); [done..|].
    intros h1 [Hb Hr Hnd H0] Hf1. fold q in Hb, Hr, Hnd, H0, Hf1. pose proof Hr as Hs. unfold ring in Hs.
    rewrite last_of_snoc in Hs. eapply wp_bind, wp_get_kmsg; [by eapply seg_at|]. apply wp_bind, wp_gets. cbn [ikm_qos_override].
    pose proof (seg_size _ _ _ _ Hnd Hs) as Hsz. rewrite length_app in Hsz. simpl in Hsz.
    rewrite (last_of_ne _ x) by done. apply wp_bind. eapply wp_mono; [by apply (qos_loop_ok x q l _ [(x, q)]); [lia|..]|].
    intros prev h2 (Hs2&Hf2&Hres). apply wp_ret. split; [|split; [|done]].
    + split.
      * rewrite Hb, !first_of_app, first_of_raise. done.
      * unfold ring. rewrite last_of_snoc, first_of_app, first_of_raise. by rewrite first_of_app in Hs2.
      * by rewrite fmap_app, raise_addresses, <- fmap_app.
      * by rewrite fmap_app, raise_addresses, <- fmap_app.
    + intros y Hy. rewrite Hf2, Hf1; [done|done|]. rewrite fmap_app in Hy. set_solver.
Qed.

Lemma override_qos_ok h queue l1 x p l2 q :
  kmsgq h queue (l1 ++ (x, p) :: l2) -> descending (l1 ++ (x, p) :: l2) ->
  wp (ipc_kmsg_override_qos queue x q) (fun b h' =>
    kmsgq h' queue (raise q (l1 ++ [(x, p)]) ++ l2) /\ frame (l1 ++ (x, p) :: l2) h h' /\
    b = head_below q (l1 ++ [(x, p)])) h.
Proof.
  replace (l1 ++ (x, p) :: l2) with ((l1 ++ [(x, p)]) ++ l2) by (by rewrite <- app_assoc).
  set (l := l1 ++ [(x, p)]). intros [-> Hr Hnd H0] (Hd&_&_)%descending_app. assert (l <> []) as Hne by (by destruct l1).
  unfold ipc_kmsg_override_qos. apply wp_bind, wp_gets. pose proof (seg_size _ _ _ _ Hnd Hr) as Hsz. rewrite length_app in Hsz.
  replace x with (last_of IKM_NULL l) by apply last_of_snoc. rewrite first_of_app, (first_of_ne _ IKM_NULL) by done.
  eapply wp_mono; [by apply (override_loop_ok q l _ l2 h); [|lia|..]|].
  intros b h' (Hs'&Hf&->). split; [|split; [|done]].
  - split.
    + rewrite first_of_app, first_of_raise. by apply first_of_ne.
    + unfold ring. rewrite last_of_app, last_of_raise, first_of_app, first_of_raise. by rewrite last_of_app, first_of_app in Hs'.
    + by rewrite fmap_app, raise_addresses, <- fmap_app.
    + by rewrite fmap_app, raise_addresses, <- fmap_app.
  - intros y Hy. apply Hf. intros Hin. apply Hy. rewrite fmap_app. apply elem_of_app. by left.
Qed.

Lemma rmqueue_ok h queue l1 x p l2 :
  kmsgq h queue (l1 ++ (x, p) :: l2) ->
  wp (ipc_kmsg_rmqueue queue x) (fun queue' h' => kmsgq h' queue' (l1 ++ l2) /\ frame (l1 ++ l2) h h') h.
Proof.
  intros Hq. unfold ipc_kmsg_rmqueue. apply wp_bind, wp_massert.
  { rewrite (kmsgq_empty _ _ _ Hq), bool_decide_false; [done|]. by destruct l1. }
  destruct Hq as [-> Hr Hnd H0]. apply ring_rotate in Hr. simpl in Hr. set (m := l2 ++ l1) in *.
  destruct (nodup_mid _ _ _ _ Hnd) as (Hx1&Hx2&Hnd'). assert (x ∉ m.*1) as Hxm by (unfold m; rewrite fmap_app; set_solver).
  assert (NoDup m.*1) as Hndm by (unfold m; rewrite fmap_app in *; by rewrite Permutation_app_comm).
  destruct Hr as [Hx Hs]. eapply wp_bind, wp_get_kmsg; [exact Hx|]. cbn [ikm_next ikm_prev first_of last_of] in *.
  destruct (decide (m = [])) as [Hm|Hm].
  - assert (l1 = [] /\ l2 = []) as [-> ->] by (unfold m in Hm; destruct l2; [by destruct l1|done]).
    simpl. rewrite !Z.eqb_refl. do 2 (apply wp_bind, wp_massert; [done|]).
    apply wp_ret. split; [|done]. split; [done..|apply not_elem_of_nil].
  - destruct (Z.eqb_spec (first_of x m) x) as [Hfx|_].
    { exfalso. apply Hxm. rewrite <- Hfx. by apply first_of_in. }
    destruct (seg_first _ _ _ _ x Hm Hs) as (nn&Hnn&Hnp), (seg_last _ _ _ _ x Hm Hs) as (pn&Hpn&Hpq).
    apply wp_bind, (wp_get_kmsg _ _ nn); [done|]. apply wp_bind, (wp_get_kmsg _ _ pn); [done|].
    rewrite Hnp, Hpq, !Z.eqb_refl. cbn [negb orb].
    apply wp_bind, (wp_set_prev _ _ m _ _ _ _ Hm Hndm Hs). intros h1 Hs1 Hf1.
    apply wp_bind, (wp_set_next _ _ m _ _ _ _ Hm Hndm Hs1). intros h2 Hs2 Hf2. apply wp_ret. split.
    + split.
      * destruct (decide (l1 = [])) as [->|Hl1].
        -- simpl. rewrite Z.eqb_refl. unfold m in *. rewrite app_nil_r in *. by apply first_of_ne.
        -- rewrite !first_of_app, (first_of_ne _ x), (first_of_ne (first_of _ l2) x) by done.
           destruct (Z.eqb_spec (first_of x l1) x) as [Hfx|]; [|done]. exfalso. apply Hx1. rewrite <- Hfx. by apply first_of_in.
      * apply ring_rotate. fold m. unfold ring. by rewrite (last_of_ne _ x), (first_of_ne _ x).
      * done.
      * rewrite fmap_app in *. set_solver.
    + intros y Hy. assert (y ∉ m.*1) by (unfold m; rewrite fmap_app in *; set_solver). by rewrite Hf2, Hf1.
Qed.

Lemma delayed_destroy_queue_ok h queue l d_queue dl :
  kmsgq h queue l -> kmsgq h d_queue dl -> l.*1 ## dl.*1 ->
  wp (ipc_kmsg_delayed_destroy_queue queue d_queue) (fun res h' => let '(queue', d_queue', reap) := res in
    kmsgq h' queue' [] /\ kmsgq h' d_queue' (dl ++ l) /\ frame (dl ++ l) h h' /\
    reap = bool_decide (l <> [] /\ dl = [])) h.
Proof.
  intros Hq Hdq Hdisj. assert (forall h, kmsgq h IKM_NULL []) as Hnil by (split; [done..|apply NoDup_nil_2|apply not_elem_of_nil]).
  unfold ipc_kmsg_delayed_destroy_queue. rewrite (kmsgq_empty _ _ _ Hq). case_bool_decide as Hl.
  { subst l. apply wp_ret. rewrite app_nil_r. split; [done|]. split; [done|]. split; [done|].
    rewrite bool_decide_false; naive_solver. }
  rewrite (kmsgq_empty _ _ _ Hdq). case_bool_decide as Hdl.
  { subst dl. apply wp_ret. split; [done|]. split; [done|]. split; [done|]. by rewrite bool_decide_true. }
  destruct Hq as [-> Hr Hnd H0], Hdq as [-> Hdr Hdnd Hd0]. unfold ring in Hr, Hdr.
  destruct (seg_first _ _ _ _ IKM_NULL Hl Hr) as (n&Hn&Hnp), (seg_first _ _ _ _ IKM_NULL Hdl Hdr) as (dn&Hdn&Hdp).
  apply wp_bind, (wp_get_kmsg _ _ n); [done|]. apply wp_bind, (wp_get_kmsg _ _ dn); [done|]. rewrite Hnp, Hdp.
  assert (forall x, x ∈ l.*1 -> x ∉ dl.*1) as Hd1 by set_solver. assert (forall x, x ∈ dl.*1 -> x ∉ l.*1) as Hd2 by set_solver.
  apply wp_bind, (wp_set_next _ _ dl _ _ _ _ Hdl Hdnd Hdr). intros h1 Hdr1 Hf1.
  apply wp_bind, (wp_set_prev _ _ l _ _ _ _ Hl Hnd (seg_frame _ _ _ _ _ _ Hf1 Hd1 Hr)). intros h2 Hr2 Hf2.
  apply wp_bind, (wp_set_prev _ _ dl _ _ _ _ Hdl Hdnd (seg_frame _ _ _ _ _ _ Hf2 Hd2 Hdr1)). intros h3 Hdr3 Hf3.
  apply wp_bind, (wp_set_next _ _ l _ _ _ _ Hl Hnd (seg_frame _ _ _ _ _ _ Hf3 Hd1 Hr2)). intros h4 Hr4 Hf4. apply wp_ret.
  split; [done|]. split; [split|split].
  - rewrite first_of_app. by apply first_of_ne.
  - unfold ring. rewrite last_of_app, first_of_app, (last_of_ne _ IKM_NULL l), (first_of_ne _ IKM_NULL dl) by done.
    apply seg_app. rewrite (first_of_ne _ IKM_NULL l), (last_of_ne _ IKM_NULL dl) by done.
    split; [|done]. exact (seg_frame _ _ _ _ _ _ Hf4 Hd2 Hdr3).
  - rewrite fmap_app, NoDup_app. done.
  - rewrite fmap_app. set_solver.
  - intros y Hy. rewrite fmap_app in Hy. rewrite Hf4, Hf3, Hf2, Hf1 by set_solver. done.
  - rewrite bool_decide_false; naive_solver.
Qed.
End lemmas.

(** ** Histories

    The operations on the queue of a port, and what they do to the sequence. *)
Inductive kmsg_op :=
| EnqueueQos (kmsg qos : Z)
| OverrideQos (kmsg qos : Z)
| Remove (kmsg : Z)
| Dequeue
| Next (kmsg : Z).

Fixpoint raise_upto (q x : Z) (l : kmsgs) : kmsgs :=
  match l with [] => [] | (y, p) :: l => (y, Z.max p q) :: if y =? x then l else raise_upto q x l end.
Fixpoint next_of (x : Z) (l : kmsgs) : Z :=
  match l with [] => IKM_NULL | (y, _) :: l => if y =? x then first_of IKM_NULL l else next_of x l end.
Fixpoint remove (x : Z) (l : kmsgs) : kmsgs :=
  match l with [] => [] | (y, p) :: l => if y =? x then l else (y, p) :: remove x l end.

(** The sequence after an operation and the result of the operation. *)
Definition kmsg_step (l : kmsgs) (op : kmsg_op) : kmsgs * Z :=
  match op with
  | EnqueueQos x q => (raise q l ++ [(x, q)], Z.b2z (head_below q l))
  | OverrideQos x q => (raise_upto q x l, Z.b2z (head_below q l))
  | Remove x => (remove x l, x)
  | Dequeue => (tail l, first_of IKM_NULL l)
  | Next x => (l, next_of x l)
  end.
Fixpoint kmsg_steps (l : kmsgs) (ops : list kmsg_op) : kmsgs * list Z :=
  match ops with
  | [] => (l, [])
  | op :: ops => let '(l, r) := kmsg_step l op in let '(l, rs) := kmsg_steps l ops in (l, r :: rs)
  end.

(** A message is enqueued once; the other operations name a queued message. *)
Definition kmsg_legal (l : kmsgs) (op : kmsg_op) : bool :=
  match op with
  | EnqueueQos x _ => bool_decide (x ∉ l.*1) && negb (x =? IKM_NULL)
  | OverrideQos x _ | Remove x | Next x => bool_decide (x ∈ l.*1)
  | Dequeue => true
  end.
Fixpoint kmsgs_legal (l : kmsgs) (ops : list kmsg_op) : bool :=
  match ops with [] => true | op :: ops => kmsg_legal l op && kmsgs_legal (kmsg_step l op).1 ops end.
Definition op_kmsg (op : kmsg_op) : option Z := match op with EnqueueQos x _ => Some x | _ => None end.

Section history.
Context `{KernelConfig}.

Definition kmsg_exec (queue : Z) (op : kmsg_op) : M kheap (Z * Z) :=
  match op with
  | EnqueueQos x q =>
    mod_kmsg x (set_ikm_qos_override q) ;;*
    let* (queue, head) := ipc_kmsg_enqueue_qos queue x in ret (queue, Z.b2z head)
  | OverrideQos x q => let* head := ipc_kmsg_override_qos queue x q in ret (queue, Z.b2z head)
  | Remove x => let* queue := ipc_kmsg_rmqueue queue x in ret (queue, x)
  | Dequeue => let* (kmsg, queue) := ipc_kmsg_dequeue queue in ret (queue, kmsg)
  | Next x => let* next := ipc_kmsg_queue_next queue x in ret (queue, next)
  end.
Fixpoint kmsg_run (queue : Z) (ops : list kmsg_op) : M kheap (Z * list Z) :=
  match ops with
  | [] => ret (queue, [])
  | op :: ops =>
    let* (queue, r) := kmsg_exec queue op in
    let* (queue, rs) := kmsg_run queue ops in
    ret (queue, r :: rs)
  end.

(** The sequence around a queued message. *)
Lemma queued_split x (l : kmsgs) : x ∈ l.*1 -> exists l1 p l2, l = l1 ++ (x, p) :: l2.
Proof. intros ([x' p]&->&(l1&l2&->)%list_elem_of_split)%list_elem_of_fmap. by exists l1, p, l2. Qed.
Lemma raise_upto_split q x p l1 l2 :
  x ∉ l1.*1 -> raise_upto q x (l1 ++ (x, p) :: l2) = raise q (l1 ++ [(x, p)]) ++ l2.
Proof.
  induction l1 as [|[y r] l1 IH]; intros Hx; simpl; [by rewrite Z.eqb_refl|]. rewrite fmap_cons in Hx.
  destruct (Z.eqb_spec y x) as [->|]; [set_solver|]. rewrite IH by set_solver. done.
Qed.
Lemma next_of_split x p l1 l2 : x ∉ l1.*1 -> next_of x (l1 ++ (x, p) :: l2) = first_of IKM_NULL l2.
Proof.
  induction l1 as [|[y r] l1 IH]; intros Hx; simpl; [by rewrite Z.eqb_refl|]. rewrite fmap_cons in Hx.
  destruct (Z.eqb_spec y x) as [->|]; [set_solver|]. apply IH. set_solver.
Qed.
Lemma remove_split x p l1 l2 : x ∉ l1.*1 -> remove x (l1 ++ (x, p) :: l2) = l1 ++ l2.
Proof.
  induction l1 as [|[y r] l1 IH]; intros Hx; simpl; [by rewrite Z.eqb_refl|]. rewrite fmap_cons in Hx.
  destruct (Z.eqb_spec y x) as [->|]; [set_solver|]. rewrite IH by set_solver. done.
Qed.
Lemma descending_split l1 e l2 : descending (l1 ++ e :: l2) -> descending (l1 ++ l2).
Proof.
  destruct e as [x p]. rewrite !descending_app. intros (H1&[_ H2]&H3). split; [done|]. split; [done|].
  eapply Forall_impl; [exact H3|]. intros e He. apply Forall_cons in He as [_ He]. exact He.
Qed.
Lemma descending_upto q l1 x p l2 :
  descending (l1 ++ (x, p) :: l2) -> descending (raise q (l1 ++ [(x, p)]) ++ l2).
Proof.
  replace (l1 ++ (x, p) :: l2) with ((l1 ++ [(x, p)]) ++ l2) by (by rewrite <- app_assoc).
  intros (H1&H2&H3)%descending_app. apply descending_app. split; [by apply descending_raise|]. split; [done|].
  unfold raise. apply Forall_fmap. eapply Forall_impl; [exact H3|]. intros e He. simpl.
  eapply Forall_impl; [exact He|]. intros e'. simpl. lia.
Qed.
Lemma head_below_split q l1 e l2 : head_below q (l1 ++ e :: l2) = head_below q (l1 ++ [e]).
Proof. by destruct l1 as [|[]]; [destruct e|]. Qed.

(** The state of a queue between operations. *)
Record kmsg_state (h : kheap) (queue : Z) (l : kmsgs) : Prop := {
  km_queue : kmsgq h queue l;
  km_descending : descending l;
}.

Lemma next_ok h queue l1 x p l2 :
  kmsgq h queue (l1 ++ (x, p) :: l2) ->
  wp (ipc_kmsg_queue_next queue x) (fun next h' => next = first_of IKM_NULL l2 /\ h' = h) h.
Proof.
  intros Hq. unfold ipc_kmsg_queue_next. apply wp_bind, wp_massert.
  { rewrite (kmsgq_empty _ _ _ Hq), bool_decide_false; [done|]. by destruct l1. }
  destruct Hq as [Hb Hr Hnd H0]. eapply wp_bind, wp_get_kmsg; [by eapply seg_at|]. apply wp_ret. cbn [ikm_next].
  split; [|done]. destruct l2 as [|[y r] l2].
  - cbn [first_of]. by rewrite Hb, Z.eqb_refl.
  - cbn [first_of]. destruct (Z.eqb_spec queue y) as [Hy|]; [|done]. exfalso. rewrite Hb in Hy.
    rewrite fmap_app in Hnd. apply NoDup_app in Hnd as (_&Hnd1&Hnd2). rewrite !fmap_cons, !NoDup_cons in Hnd2.
    destruct l1 as [|[z s] l1]; simpl in Hy; subst; [set_solver|]. apply (Hnd1 y); set_solver.
Qed.

Lemma kmsg_exec_ok h queue l op :
  kmsg_state h queue l -> kmsg_legal l op = true -> (forall x, op_kmsg op = Some x -> is_Some (h !! x)) ->
  wp (kmsg_exec queue op) (fun res h' => let '(l', r) := kmsg_step l op in
    kmsg_state h' res.1 l' /\ res.2 = r /\ forall x, is_Some (h !! x) -> is_Some (h' !! x)) h.
Proof.
  assert (forall h' queue' l', kmsgq h' queue' l' -> (forall x, x ∉ l'.*1 -> h' !! x = h !! x) ->
    forall x, is_Some (h !! x) -> is_Some (h' !! x)) as Hdom.
  { intros h' queue' l' [_ Hr _ _] Hf x Hx. destruct (decide (x ∈ l'.*1)); [by eapply seg_lookup|by rewrite Hf]. }
  intros [Hq Hd] Hleg Hal. destruct op as [x q|x q|x| |x]; simpl in Hleg |- *.
  - apply andb_true_iff in Hleg as [Hx%bool_decide_eq_true Hx0%negb_true_iff%Z.eqb_neq].
    destruct (Hal x eq_refl) as [n0 Hn0]. apply wp_bind, (wp_mod_kmsg _ _ n0); [done|]. set (h1 := <[x := _]> h).
    assert (kmsgq h1 queue l) as Hq1.
    { destruct Hq as [Hb Hr Hnd H0]. split; [done| |done..]. eapply seg_ext, Hr. intros y Hy. apply lookup_insert_ne. set_solver. }
    apply wp_bind. eapply wp_mono; [apply (enqueue_qos_ok h1 queue l x (set_ikm_qos_override q n0)); try done; apply lookup_insert_eq|].
    cbn [ikm_qos_override set_ikm_qos_override]. intros [queue' b] h' (Hq'&Hf&Hb). apply wp_ret. simpl in *. subst b.
    split; [split; [done|by apply descending_snoc]|]. split; [done|]. eapply (Hdom _ _ _ Hq').
    intros y Hy. rewrite fmap_app, raise_addresses, <- fmap_app in Hy. rewrite Hf by done. apply lookup_insert_ne.
    rewrite fmap_app in Hy. set_solver.
  - apply bool_decide_eq_true, queued_split in Hleg as (l1&p&l2&->). apply wp_bind.
    eapply wp_mono; [by apply (override_qos_ok h queue l1 x p l2 q)|]. intros b h' (Hq'&Hf&->). apply wp_ret. simpl.
    destruct Hq as [_ _ Hnd _]. apply nodup_mid in Hnd as (Hx&_). rewrite raise_upto_split, (head_below_split q l1 (x, p) l2) by done.
    split; [split; [done|by apply descending_upto]|]. split; [done|]. eapply (Hdom _ _ _ Hq').
    intros y Hy. apply Hf. rewrite fmap_app, raise_addresses, <- fmap_app, <- app_assoc in Hy. done.
  - apply bool_decide_eq_true, queued_split in Hleg as (l1&p&l2&->). apply wp_bind.
    eapply wp_mono; [by apply (rmqueue_ok h queue l1 x p l2)|]. intros queue' h' [Hq' Hf]. apply wp_ret. simpl.
    destruct Hq as [_ _ Hnd _]. apply nodup_mid in Hnd as (Hx&_). rewrite remove_split by done.
    split; [split; [done|by eapply descending_split]|]. split; [done|]. by eapply Hdom.
  - unfold ipc_kmsg_dequeue, ipc_kmsg_queue_first. rewrite (kmsgq_empty _ _ _ Hq). case_bool_decide as Hl; cbn [negb].
    { subst l. apply wp_bind, wp_ret, wp_ret. simpl. pose proof Hq as [Hb _ _ _]. by rewrite Hb in *. }
    destruct l as [|[x p] l]; [done|]. pose proof Hq as [Hb _ _ _]. simpl in Hb. subst queue.
    apply wp_bind, wp_bind. eapply wp_mono; [by apply (rmqueue_ok h x [] x p l)|]. intros queue' h' [Hq' Hf].
    apply wp_ret, wp_ret. simpl. split; [split; [done|apply Hd]|]. split; [done|]. by eapply Hdom.
  - apply bool_decide_eq_true, queued_split in Hleg as (l1&p&l2&->). apply wp_bind.
    eapply wp_mono; [by apply (next_ok h queue l1 x p l2)|]. intros next h' [-> ->]. apply wp_ret. simpl.
    pose proof Hq as [_ _ Hnd _]. apply nodup_mid in Hnd as (Hx&_). rewrite next_of_split by done. done.
Qed.

End history.

(** ** The theorem at work *)
#[local] Existing Instance DEVELOPMENT.

(** Three messages, none of them queued. *)
Definition three_kmsgs : kheap := {[ 0x10 := mk_node 0 0 0; 0x20 := mk_node 0 0 0; 0x30 := mk_node 0 0 0 ]}.

