(* ===== verification/IpcTable.v ===== *)
(** * Table sizes ([osfmk/ipc/ipc_table.c])

    The sizes through which an entry table and a port's request table may
    grow.  [ipc_table_fill] and [ipc_table_init] are translated; the contract
    written in [ipc_table.h] is the class [TableSizes], which the code that
    grows tables relies on and which the filled arrays satisfy for every
    configuration in [config/MASTER] and page size of [vm_param.h]. *)

From S2P Require Import Prelude MachPort.

(** Build parameters. *)
Class TableConfig := {
  PAGE_MAX_SIZE : Z;
  IPC_TABLE_ENTRIES_SIZE : Z;
}.
Definition IPC_TABLE_REQUESTS_SIZE : Z := 64.
Definition sizeof_ipc_entry : Z := 24.
Definition sizeof_ipc_port_request : Z := 16.
Definition IPC_ENTRY_INDEX_MAX : Z := 2 ^ 32 - 1.

Section fill.
Context (PAGE num minsize elemsize : Z).

(** First use powers of two, up to the page size. *)
Fixpoint fill_powers (fuel : nat) (index size : Z) (its : list Z) : outcome (Z * Z * list Z) :=
  match fuel with
  | O => Diverges
  | S fuel =>
    if (index <? num) && (size <? PAGE) then
      if minsize <=? size
      then let! _ := aget its index in
           fill_powers fuel (index + 1) (u64 (Z.shiftl size 1)) (aset its index (u32 (size / elemsize)))
      else fill_powers fuel index (u64 (Z.shiftl size 1)) its
    else Done (index, size, its)
  end.

(** [for (period = 0; period < 15 && index < num; period++, size += incrsize)]. *)
Fixpoint fill_period (period : nat) (incrsize index size : Z) (its : list Z)
    : outcome (Z * Z * list Z) :=
  match period with
  | O => Done (index, size, its)
  | S period =>
    if index <? num then
      if minsize <=? size
      then let! _ := aget its index in
           fill_period period incrsize (index + 1) (u64 (size + incrsize))
             (aset its index (u32 (size / elemsize)))
      else fill_period period incrsize index (u64 (size + incrsize)) its
    else Done (index, size, its)
  end.

(** Then increments of a page, then two pages, etc. *)
Fixpoint fill_pages (fuel : nat) (incrsize index size : Z) (its : list Z) : outcome (list Z) :=
  match fuel with
  | O => Diverges
  | S fuel =>
    if index <? num then
      let! (index, size, its) := fill_period 15 incrsize index size its in
      let incrsize := if incrsize <? Z.shiftl PAGE 3 then u64 (Z.shiftl incrsize 1) else incrsize in
      fill_pages fuel incrsize index size its
    else Done its
  end.
End fill.

Definition ipc_table_fill (PAGE : Z) (its : list Z) (num min elemsize : Z) : outcome (list Z) :=
  let minsize := u64 (min * elemsize) in
  let! (index, size, its) := fill_powers PAGE num minsize elemsize 65 0 1 its in
  fill_pages PAGE num minsize elemsize (Z.to_nat num + 64) PAGE index size its.

Definition ipc_table_init `{KernelConfig} `{TableConfig} : outcome (list Z * list Z) :=
  let entries := replicate (Z.to_nat IPC_TABLE_ENTRIES_SIZE) 0 in
  let requests := replicate (Z.to_nat IPC_TABLE_REQUESTS_SIZE) 0 in
  let! entries :=
    ipc_table_fill PAGE_MAX_SIZE entries (IPC_TABLE_ENTRIES_SIZE - 1) 16 sizeof_ipc_entry in
  let! last := aget entries (IPC_TABLE_ENTRIES_SIZE - 2) in
  let entries := aset entries (IPC_TABLE_ENTRIES_SIZE - 1) last in
  kassert (anth entries (IPC_TABLE_ENTRIES_SIZE - 1) <=? IPC_ENTRY_INDEX_MAX)
    "its_size <= IPC_ENTRY_INDEX_MAX" ;;!
  let! requests :=
    ipc_table_fill PAGE_MAX_SIZE requests (IPC_TABLE_REQUESTS_SIZE - 1) 2 sizeof_ipc_port_request in
  Done (entries, aset requests (IPC_TABLE_REQUESTS_SIZE - 1) 0).

Definition ipc_table_max_entries `{TableConfig} (ipc_table_entries : list Z) : Z :=
  anth ipc_table_entries (IPC_TABLE_ENTRIES_SIZE - 1).
Definition ipc_table_max_requests (ipc_table_requests : list Z) : Z :=
  anth ipc_table_requests (IPC_TABLE_REQUESTS_SIZE - 2).

(** ** The contract of the tables ([ipc_table.h]) *)

Definition strictly_increasing_upto (l : list Z) (n : Z) : bool :=
  forallb (fun i => anth l i <? anth l (i + 1)) (seqZ 0 (n - 1)).

(** What growing code is promised about the array of entry-table sizes. *)
Class TableSizes := {
  ipc_table_entries : list Z;
  (** number of elements, counting the repeated last one *)
  its_count : Z;
  its_count_len : alen ipc_table_entries = its_count;
  its_count_min : 3 <= its_count;
  its_increasing i : 0 <= i -> i + 1 < its_count - 1 ->
    anth ipc_table_entries i < anth ipc_table_entries (i + 1);
  its_last_two : anth ipc_table_entries (its_count - 1) = anth ipc_table_entries (its_count - 2);
  its_first : 16 <= anth ipc_table_entries 0;
  its_max : anth ipc_table_entries (its_count - 1) <= MACH_PORT_INDEX MACH_PORT_DEAD;
}.

Lemma its_increasing_range `{TableSizes} i j :
  0 <= i -> i <= j -> j < its_count - 1 -> anth ipc_table_entries i <= anth ipc_table_entries j.
Proof.
  intros Hi Hij. revert j Hij. apply (Zlt_lower_bound_ind (fun j => j < its_count - 1 ->
    anth ipc_table_entries i <= anth ipc_table_entries j)). intros j IH Hij Hj.
  destruct (decide (i = j)) as [->|]; [done|].
  assert (anth ipc_table_entries (j - 1) < anth ipc_table_entries (j - 1 + 1)) as Hinc
    by (apply its_increasing; lia).
  replace (j - 1 + 1) with j in Hinc by lia. specialize (IH (j - 1) ltac:(lia) ltac:(lia)). lia.
Qed.

(** Every size is at least 16 and leaves [MACH_PORT_DEAD]'s index unused. *)
Lemma its_range `{TableSizes} i :
  0 <= i < its_count ->
  16 <= anth ipc_table_entries i <= MACH_PORT_INDEX MACH_PORT_DEAD.
Proof.
  intros Hi. pose proof its_first. pose proof its_max. pose proof its_last_two.
  pose proof its_count_min.
  assert (forall j, 0 <= j < its_count - 1 ->
    16 <= anth ipc_table_entries j <= MACH_PORT_INDEX MACH_PORT_DEAD) as Hj.
  { intros j Hj.
    assert (anth ipc_table_entries 0 <= anth ipc_table_entries j)
      by (apply its_increasing_range; lia).
    assert (anth ipc_table_entries j <= anth ipc_table_entries (its_count - 2))
      by (apply its_increasing_range; lia). lia. }
  destruct (decide (i = its_count - 1)) as [->|]; [|apply Hj; lia].
  rewrite its_last_two. apply Hj. lia.
Qed.

(** The contract as a decision, for filled arrays. *)
Definition entries_contract (steps : Z) (entries : list Z) : bool :=
  (alen entries =? steps) && (3 <=? steps) &&
  strictly_increasing_upto entries (steps - 1) &&
  (anth entries (steps - 1) =? anth entries (steps - 2)) &&
  (16 <=? anth entries 0) &&
  (anth entries (steps - 1) <=? MACH_PORT_INDEX MACH_PORT_DEAD).

Lemma strictly_increasing_upto_spec l n :
  strictly_increasing_upto l n = true ->
  forall i, 0 <= i -> i + 1 < n -> anth l i < anth l (i + 1).
Proof.
  unfold strictly_increasing_upto. intros Hall i ??.
  apply Z.ltb_lt. apply (forallb_seqZ _ _ Hall). lia.
Qed.

(** Arrays that pass the decision provide the class. *)
Section sizes_of.
Context (steps : Z) (entries : list Z) (Hc : entries_contract steps entries = true).

Lemma entries_contract_prop :
  alen entries = steps /\ 3 <= steps /\
  (forall i, 0 <= i -> i + 1 < steps - 1 -> anth entries i < anth entries (i + 1)) /\
  anth entries (steps - 1) = anth entries (steps - 2) /\ 16 <= anth entries 0 /\
  anth entries (steps - 1) <= MACH_PORT_INDEX MACH_PORT_DEAD.
Proof using Hc.
  pose proof Hc as H. unfold entries_contract in H. rewrite !andb_true_iff in H.
  destruct H as [[[[[Hl Hm] Hi] Hlast] Hf] Hmax].
  apply Z.eqb_eq in Hl, Hlast. apply Z.leb_le in Hm, Hf, Hmax.
  pose proof (strictly_increasing_upto_spec _ _ Hi). done.
Qed.

Definition sizes_of : TableSizes :=
  let P := entries_contract_prop in
  {| ipc_table_entries := entries; its_count := steps;
     its_count_len := proj1 P;
     its_count_min := proj1 (proj2 P);
     its_increasing := proj1 (proj2 (proj2 P));
     its_last_two := proj1 (proj2 (proj2 (proj2 P)));
     its_first := proj1 (proj2 (proj2 (proj2 (proj2 P))));
     its_max := proj2 (proj2 (proj2 (proj2 (proj2 P)))) |}.
End sizes_of.

Lemma entries_contract_sizes steps entries :
  entries_contract steps entries = true -> exists ts : TableSizes,
    @ipc_table_entries ts = entries /\ @its_count ts = steps.
Proof.
  intros Hc. by exists (sizes_of steps entries Hc).
Qed.

(** The contract of a request table: sizes strictly increase, the last is 0. *)
Definition requests_contract (requests : list Z) : bool :=
  (alen requests =? IPC_TABLE_REQUESTS_SIZE) &&
  strictly_increasing_upto requests (IPC_TABLE_REQUESTS_SIZE - 1) &&
  (2 <=? anth requests 0) &&
  (anth requests (IPC_TABLE_REQUESTS_SIZE - 1) =? 0).

(** The configurations of [config/MASTER] with the page sizes of the
    supported architectures. *)
Definition table_configs : list TableConfig :=
  [ {| PAGE_MAX_SIZE := 4096; IPC_TABLE_ENTRIES_SIZE := 64 |};
    {| PAGE_MAX_SIZE := 4096; IPC_TABLE_ENTRIES_SIZE := 256 |};
    {| PAGE_MAX_SIZE := 16384; IPC_TABLE_ENTRIES_SIZE := 64 |};
    {| PAGE_MAX_SIZE := 16384; IPC_TABLE_ENTRIES_SIZE := 256 |} ].

Lemma table_configs_ok :
  forallb (fun C => match @ipc_table_init DEVELOPMENT C with
    | Done (entries, requests) =>
        entries_contract (@IPC_TABLE_ENTRIES_SIZE C) entries && requests_contract requests
    | _ => false
    end) table_configs = true.
Proof. vm_compute. done. Qed.

(** A development kernel's initialisation that passes its assertion is also
    what a release kernel computes. *)
Lemma ipc_table_init_release `{TableConfig} r :
  @ipc_table_init DEVELOPMENT _ = Done r -> forall K : KernelConfig, ipc_table_init = Done r.
Proof.
  intros Hd [[]]; [exact Hd|]. revert Hd. unfold ipc_table_init, kassert, MACH_ASSERT.
  destruct (ipc_table_fill _ _ _ _ _) as [e| |]; cbn [obind]; [|discriminate..].
  destruct (aget _ _) as [l| |]; cbn [obind]; [|discriminate..].
  destruct (_ <=? _); cbn [negb andb obind DEVELOPMENT]; [intros Hd; exact Hd|discriminate].
Qed.

(** The size tables honour the contract of [ipc_table.h] in every
    shipped configuration: [ipc_table_init] terminates without panicking, the
    entry sizes strictly increase up to the repeated last one, start at 16 or more
    and never exceed [MACH_PORT_INDEX(MACH_PORT_DEAD)] (so no name made from a
    table index is [MACH_PORT_DEAD]); the request sizes strictly increase
    and end with a zero. *)
Theorem ipc_table_init_contract (K : KernelConfig) (C : TableConfig) :
  C ∈ table_configs ->
  exists entries requests, ipc_table_init = Done (entries, requests) /\
    (exists ts : TableSizes, @ipc_table_entries ts = entries /\
       @its_count ts = IPC_TABLE_ENTRIES_SIZE) /\
    ipc_table_max_entries entries <= MACH_PORT_INDEX MACH_PORT_DEAD /\
    (forall i, 0 <= i -> i + 1 < IPC_TABLE_REQUESTS_SIZE - 1 ->
       anth requests i < anth requests (i + 1)) /\
    anth requests (IPC_TABLE_REQUESTS_SIZE - 1) = 0.
Proof.
  intros HC. pose proof table_configs_ok as Hall. rewrite forallb_forall in Hall.
  specialize (Hall C (proj1 (list_elem_of_In _ _) HC)).
  destruct (@ipc_table_init DEVELOPMENT C) as [[entries requests]| |] eqn:Hi; [|done|done].
  apply andb_true_iff in Hall as [He Hr].
  exists entries, requests. split; [by apply ipc_table_init_release|].
  split; [by apply entries_contract_sizes|].
  unfold entries_contract in He. unfold requests_contract in Hr.
  rewrite !andb_true_iff in He, Hr. destruct He as [_ Hmax], Hr as [[[_ Hinc] _] Hz].
  split; [by apply Z.leb_le|]. split; [by apply strictly_increasing_upto_spec|by apply Z.eqb_eq].
Qed.

Lemma ipc_table_init_contract_witness :
  exists entries requests,
    @ipc_table_init RELEASE {| PAGE_MAX_SIZE := 4096; IPC_TABLE_ENTRIES_SIZE := 256 |}
      = Done (entries, requests).
Proof.
  destruct (ipc_table_init_contract RELEASE {| PAGE_MAX_SIZE := 4096; IPC_TABLE_ENTRIES_SIZE := 256 |})
    as (e&r&H&_).
  - unfold table_configs. apply list_elem_of_further, list_elem_of_here.
  - exists e, r. exact H.
Defined.

(** The sizes of a 4K-page kernel with 64 steps, as a [TableSizes]. *)
Definition small_4k : TableConfig := {| PAGE_MAX_SIZE := 4096; IPC_TABLE_ENTRIES_SIZE := 64 |}.
Definition small_4k_entries : list Z :=
  match @ipc_table_init RELEASE small_4k with Done (e, _) => e | _ => [] end.
Lemma small_4k_contract : entries_contract 64 small_4k_entries = true.
Proof. vm_compute. done. Qed.
Definition SMALL_4K : TableSizes := sizes_of 64 small_4k_entries small_4k_contract.
Lemma SMALL_4K_first : anth (@ipc_table_entries SMALL_4K) 0 = 21.
Proof. vm_compute. done. Qed.
