(* ===== verification/IpcHash.v ===== *)
(** * The reverse hash table of an IPC space ([osfmk/ipc/ipc_hash.c])

    Each space's entry table carries an open-addressing hash table in its
    [ie_index]/[ie_dist] fields, converting (space, object) to a name.  It is
    a Robin Hood table: an element stores its displacement from its home slot,
    pegged at [IPC_ENTRY_DIST_MAX].  This file models the struct and the
    three table routines, states the invariant, and proves that the routines
    implement a finite map from objects to entry indexes as long as no
    displacement can exceed the peg. *)

From S2P Require Import Prelude MachPort.

(** ** Entries ([struct ipc_entry], [ipc_entry.h])

    The unions are one field each: [ie_bits] is also [ie_size] (of entry 0),
    [ie_request] is also [ie_next]. *)
Record ipc_entry := mk_ipc_entry {
  ie_object : Z;
  ie_bits : Z;
  ie_dist : Z;
  ie_index : Z;
  ie_request : Z;
}.
Abbreviation ie_size := ie_bits.
Abbreviation ie_next := ie_request.

#[global] Instance ipc_entry_inhabited : Inhabited ipc_entry :=
  populate (mk_ipc_entry 0 0 0 0 0).
#[global] Instance ipc_entry_eq_dec : EqDecision ipc_entry.
Proof. solve_decision. Defined.

Definition IO_NULL : Z := 0.
Definition IO_DEAD : Z := 2 ^ 64 - 1.

Definition set_ie_object (o : Z) (e : ipc_entry) : ipc_entry :=
  mk_ipc_entry o (ie_bits e) (ie_dist e) (ie_index e) (ie_request e).
Definition set_ie_bits (b : Z) (e : ipc_entry) : ipc_entry :=
  mk_ipc_entry (ie_object e) b (ie_dist e) (ie_index e) (ie_request e).
Definition set_ie_request (r : Z) (e : ipc_entry) : ipc_entry :=
  mk_ipc_entry (ie_object e) (ie_bits e) (ie_dist e) (ie_index e) r.
Abbreviation set_ie_next := set_ie_request.
Definition set_slot (index dist : Z) (e : ipc_entry) : ipc_entry :=
  mk_ipc_entry (ie_object e) (ie_bits e) dist index (ie_request e).

Definition IPC_ENTRY_DIST_BITS : Z := 12.
Definition IPC_ENTRY_DIST_MAX : Z := Z.shiftl 1 IPC_ENTRY_DIST_BITS - 1.

Lemma DIST_MAX_val : IPC_ENTRY_DIST_MAX = 4095.
Proof. done. Qed.

(** ** Hashing ([os/hash.h]) *)
Definition bswap32 (x : Z) : Z :=
  Z.lor (Z.lor (Z.shiftl (Z.land x 0xff) 24) (Z.shiftl (Z.land x 0xff00) 8))
        (Z.lor (Z.land (Z.shiftr x 8) 0xff00) (Z.land (Z.shiftr x 24) 0xff)).

Definition os_hash_kernel_pointer (pointer : Z) : Z :=
  let key := Z.shiftr pointer 4 in
  let key := u64 (key * 0x5052acdb) in
  Z.lxor (u32 key) (bswap32 (u32 key)).

Definition IH_TABLE_HASH (obj size : Z) : Z := os_hash_kernel_pointer obj mod size.

(** [if (++h == size) h = 0;] *)
Definition next_slot (size h : Z) : Z := if h + 1 =? size then 0 else h + 1.
(** [if (hdist < IPC_ENTRY_DIST_MAX) ++hdist;] *)
Definition peg_incr (hdist : Z) : Z :=
  if hdist <? IPC_ENTRY_DIST_MAX then hdist + 1 else hdist.

Section operations.
Context `{KernelConfig}.

(** The probe loop of [ipc_hash_table_lookup]; the state of the loop
    (slot, pegged distance) repeats after
    [IPC_ENTRY_DIST_MAX + size] rounds, so that much fuel decides it. *)
Fixpoint ipc_hash_lookup_loop (fuel : nat) (table : list ipc_entry)
    (obj size hindex hdist : Z) : outcome (option (Z * Z)) :=
  match fuel with
  | O => Diverges
  | S fuel =>
    let! slot := aget table hindex in
    let index := ie_index slot in
    if index =? 0 then Done None
    else if ie_dist slot <? hdist then Done None
    else
      let again := ipc_hash_lookup_loop fuel table obj size
                     (next_slot size hindex) (peg_incr hdist) in
      if hdist =? ie_dist slot then
        kassert (index <? size) "index < size" ;;!
        let! entry := aget table index in
        if ie_object entry =? obj
        then Done (Some (MACH_PORT_MAKE index (IE_BITS_GEN (ie_bits entry)), index))
        else again
      else
        (if MACH_ASSERT then
           let! entry := aget table index in
           kassert (negb (ie_object entry =? obj)) "entry->ie_object != obj"
         else Done tt) ;;!
        again
  end.

(** Returns the name and the index of the entry found. *)
Definition ipc_hash_table_lookup (table : list ipc_entry) (obj : Z)
    : outcome (option (Z * Z)) :=
  let! head := aget table 0 in
  let size := ie_size head in
  if obj =? IO_NULL then Done None
  else ipc_hash_lookup_loop (Z.to_nat (IPC_ENTRY_DIST_MAX + size + 1)) table obj size
         (IH_TABLE_HASH obj size) 0.

(** The loop only stops at an empty slot, and steals (swaps) never create
    one: [size] rounds decide it. *)
Fixpoint ipc_hash_insert_loop (fuel : nat) (table : list ipc_entry)
    (size hindex hdist index : Z) : outcome (list ipc_entry) :=
  match fuel with
  | O => Diverges
  | S fuel =>
    let! slot := aget table hindex in
    if ie_index slot =? 0
    then Done (aset table hindex (set_slot index hdist slot))
    else if ie_dist slot <? hdist
    then ipc_hash_insert_loop fuel (aset table hindex (set_slot index hdist slot))
           size (next_slot size hindex) (peg_incr (ie_dist slot)) (ie_index slot)
    else ipc_hash_insert_loop fuel table
           size (next_slot size hindex) (peg_incr hdist) index
  end.

(** [assert(entry->ie_object == obj)] for [entry == &table[index]]. *)
Definition assert_entry_object (table : list ipc_entry) (obj index : Z) : outcome unit :=
  if MACH_ASSERT then
    let! entry := aget table index in
    kassert (ie_object entry =? obj) "entry->ie_object == obj"
  else Done tt.

Definition ipc_hash_table_insert (table : list ipc_entry) (obj index : Z)
    : outcome (list ipc_entry) :=
  let! head := aget table 0 in
  let size := ie_size head in
  kassert (negb (index =? 0)) "index != 0" ;;!
  kassert (negb (obj =? IO_NULL)) "obj != IO_NULL" ;;!
  assert_entry_object table obj index ;;!
  ipc_hash_insert_loop (Z.to_nat size) table size (IH_TABLE_HASH obj size) 0 index.

(** First loop of the deletion: find the slot that holds [index]. *)
Fixpoint ipc_hash_delete_find (fuel : nat) (table : list ipc_entry)
    (size hindex index : Z) : outcome Z :=
  match fuel with
  | O => Diverges
  | S fuel =>
    let! slot := aget table hindex in
    if ie_index slot =? index then Done hindex
    else ipc_hash_delete_find fuel table size (next_slot size hindex) index
  end.

(** The distance an element gets when it moves back to [hindex]; a pegged one
    is computed again from the hash. *)
Definition ipc_hash_shift_dist (table : list ipc_entry) (size hindex index dist : Z) : outcome Z :=
  if dist =? IPC_ENTRY_DIST_MAX then
    let! entry := aget table index in
    let desired := IH_TABLE_HASH (ie_object entry) size in
    let dist := if desired <=? hindex then hindex - desired
                else hindex + size - desired in
    Done (if IPC_ENTRY_DIST_MAX <? dist then IPC_ENTRY_DIST_MAX else dist)
  else Done (dist - 1).

(** Second loop: shift the rest of the clump back over the hole. *)
Fixpoint ipc_hash_delete_shift (fuel : nat) (table : list ipc_entry)
    (size hindex : Z) : outcome (list ipc_entry) :=
  match fuel with
  | O => Diverges
  | S fuel =>
    let dindex := next_slot size hindex in
    let! dslot := aget table dindex in
    let! hole := aget table hindex in
    let index := ie_index dslot in
    let dist := ie_dist dslot in
    if (index =? 0) || (dist =? 0)
    then Done (aset table hindex (set_slot 0 0 hole))
    else
      let! dist := ipc_hash_shift_dist table size hindex index dist in
      ipc_hash_delete_shift fuel (aset table hindex (set_slot index dist hole)) size dindex
  end.

Definition ipc_hash_table_delete (table : list ipc_entry) (obj index : Z)
    : outcome (list ipc_entry) :=
  let! head := aget table 0 in
  let size := ie_size head in
  kassert (negb (index =? MACH_PORT_NULL)) "index != MACH_PORT_NULL" ;;!
  kassert (negb (obj =? IO_NULL)) "obj != IO_NULL" ;;!
  assert_entry_object table obj index ;;!
  let! hindex := ipc_hash_delete_find (Z.to_nat size) table size (IH_TABLE_HASH obj size) index in
  ipc_hash_delete_shift (Z.to_nat size) table size hindex.
End operations.

(** * Invariant *)

(** Displacement of slot [h] from slot [home], going forward with wrap. *)
Definition displacement (size home h : Z) : Z :=
  if home <=? h then h - home else h + size - home.
Definition prev_slot (size h : Z) : Z := if h =? 0 then size - 1 else h - 1.

Definition slot_index (t : list ipc_entry) (h : Z) : Z := ie_index (anth t h).
Definition slot_dist (t : list ipc_entry) (h : Z) : Z := ie_dist (anth t h).
Definition object_at (t : list ipc_entry) (i : Z) : Z := ie_object (anth t i).
Lemma fold_slot_index t h : ie_index (anth t h) = slot_index t h.
Proof. done. Qed.
Lemma fold_object_at t i : ie_object (anth t i) = object_at t i.
Proof. done. Qed.
Definition home_of (t : list ipc_entry) (i : Z) : Z := IH_TABLE_HASH (object_at t i) (alen t).

(** Slot-local part: a used slot designates an entry with an object and
    records its exact displacement, and a displaced element follows a used
    slot at most one closer to its own home. *)
Record slots_ok (t : list ipc_entry) : Prop := {
  so_slot h : 0 <= h < alen t -> slot_index t h <> 0 ->
    0 < slot_index t h < alen t /\ object_at t (slot_index t h) <> IO_NULL /\
    slot_dist t h = displacement (alen t) (home_of t (slot_index t h)) h /\
    slot_dist t h <= IPC_ENTRY_DIST_MAX;
  so_prev h : 0 <= h < alen t -> slot_index t h <> 0 -> 0 < slot_dist t h ->
    slot_index t (prev_slot (alen t) h) <> 0 /\
    slot_dist t h <= slot_dist t (prev_slot (alen t) h) + 1;
}.

(** No object is hashed twice. *)
Definition slots_inj (t : list ipc_entry) : Prop := forall h h',
  0 <= h < alen t -> 0 <= h' < alen t -> slot_index t h <> 0 -> slot_index t h' <> 0 ->
  object_at t (slot_index t h) = object_at t (slot_index t h') -> h = h'.

(** The whole invariant. *)
Record hash_wf (t : list ipc_entry) : Prop := {
  hw_size : ie_size (anth t 0) = alen t;
  hw_len : 2 <= alen t;
  hw_slots : slots_ok t;
  hw_inj : slots_inj t;
}.

(** Entry [i] is in the reverse table. *)
Definition hashed (t : list ipc_entry) (i : Z) : Prop :=
  i <> 0 /\ exists h, 0 <= h < alen t /\ slot_index t h = i.

(** Number of used slots. *)
Definition hash_count (t : list ipc_entry) : nat :=
  length (filter (fun e => ie_index e <> 0) t).

(** The abstraction: the finite map from objects to entry indexes. *)
Definition hash_map (t : list ipc_entry) : gmap Z Z :=
  list_to_map ((fun e => (object_at t (ie_index e), ie_index e)) <$>
               filter (fun e => ie_index e <> 0) t).

(** Everything but the hash fields of an entry. *)
Definition entry_core (e : ipc_entry) : Z * Z * Z := (ie_object e, ie_bits e, ie_request e).
Definition same_cores (t t' : list ipc_entry) : Prop := entry_core <$> t = entry_core <$> t'.

(** * Arithmetic of slots *)
Section slot_arith.
Context (size : Z) (Hsize : 2 <= size).

Lemma next_slot_range h : 0 <= h < size -> 0 <= next_slot size h < size.
Proof using Hsize. unfold next_slot. zsolve. Qed.
Lemma prev_slot_range h : 0 <= h < size -> 0 <= prev_slot size h < size.
Proof using Hsize. unfold prev_slot. zsolve. Qed.
Lemma prev_next_slot h : 0 <= h < size -> prev_slot size (next_slot size h) = h.
Proof using Hsize. unfold prev_slot, next_slot. zsolve. Qed.
Lemma next_slot_ne h : 0 <= h < size -> next_slot size h <> h.
Proof using Hsize. unfold next_slot. zsolve. Qed.
Lemma prev_slot_ne h : 0 <= h < size -> prev_slot size h <> h.
Proof using Hsize. unfold prev_slot. zsolve. Qed.
Lemma prev_slot_eq h h' :
  0 <= h < size -> 0 <= h' < size -> prev_slot size h' = h -> h' = next_slot size h.
Proof using Hsize. unfold prev_slot, next_slot. zsolve. Qed.

Lemma displacement_range home h :
  0 <= home < size -> 0 <= h < size -> 0 <= displacement size home h < size.
Proof using Hsize. unfold displacement. zsolve. Qed.
Lemma displacement_home home : displacement size home home = 0.
Proof using Hsize. unfold displacement. zsolve. Qed.
Lemma displacement_0 home h :
  0 <= home < size -> 0 <= h < size -> displacement size home h = 0 -> h = home.
Proof using Hsize. unfold displacement. zsolve. Qed.
Lemma displacement_inj home h h' :
  0 <= home < size -> 0 <= h < size -> 0 <= h' < size ->
  displacement size home h = displacement size home h' -> h = h'.
Proof using Hsize. unfold displacement. zsolve. Qed.
Lemma displacement_next home h :
  0 <= home < size -> 0 <= h < size -> next_slot size h <> home ->
  displacement size home (next_slot size h) = displacement size home h + 1.
Proof using Hsize. unfold displacement, next_slot. zsolve. Qed.
Lemma displacement_next_pos home h :
  0 <= home < size -> 0 <= h < size -> 0 < displacement size home (next_slot size h) ->
  displacement size home (next_slot size h) = displacement size home h + 1.
Proof using Hsize. unfold displacement, next_slot. zsolve. Qed.
(** Moving one slot forward comes one closer to a target not yet reached. *)
Lemma displacement_advance h e :
  0 <= h < size -> 0 <= e < size -> h <> e ->
  displacement size (next_slot size h) e = displacement size h e - 1.
Proof using Hsize. unfold displacement, next_slot. zsolve. Qed.

(** [k] slots before [h]. *)
Definition back (h k : Z) : Z := if k <=? h then h - k else h - k + size.
Lemma back_range h k : 0 <= h < size -> 0 <= k < size -> 0 <= back h k < size.
Proof using Hsize. unfold back. zsolve. Qed.
Lemma back_succ h k :
  0 <= h < size -> 0 <= k -> k + 1 < size -> back h (k + 1) = prev_slot size (back h k).
Proof using Hsize. unfold back, prev_slot. zsolve. Qed.
Lemma back_inj h k k' :
  0 <= h < size -> 0 <= k < size -> 0 <= k' < size -> back h k = back h k' -> k = k'.
Proof using Hsize. unfold back. zsolve. Qed.
Lemma back_prev h k :
  0 <= h < size -> 0 <= k -> k + 1 < size -> back (prev_slot size h) k = back h (k + 1).
Proof using Hsize. unfold back, prev_slot. zsolve. Qed.
Lemma back_displacement home h d :
  0 <= home < size -> 0 <= h < size -> 0 <= d <= displacement size home h ->
  displacement size home (back h d) = displacement size home h - d.
Proof using Hsize. unfold back, displacement. zsolve. Qed.
End slot_arith.

Lemma IH_TABLE_HASH_range obj size : 0 < size -> 0 <= IH_TABLE_HASH obj size < size.
Proof. intros. unfold IH_TABLE_HASH. by apply Z.mod_pos_bound. Qed.

(** * Updating one slot *)
Definition put_slot (t : list ipc_entry) (h i d : Z) : list ipc_entry :=
  aset t h (set_slot i d (anth t h)).

Section put_slot.
Context (t : list ipc_entry) (h i d : Z) (Hh : 0 <= h < alen t).

Lemma alen_put_slot : alen (put_slot t h i d) = alen t.
Proof using. apply alen_aset. Qed.
Lemma slot_index_put h' :
  0 <= h' -> slot_index (put_slot t h i d) h' = if h =? h' then i else slot_index t h'.
Proof using Hh. intros. unfold slot_index, put_slot. rewrite anth_aset by done. by zcase. Qed.
Lemma slot_dist_put h' :
  0 <= h' -> slot_dist (put_slot t h i d) h' = if h =? h' then d else slot_dist t h'.
Proof using Hh. intros. unfold slot_dist, put_slot. rewrite anth_aset by done. by zcase. Qed.
Lemma anth_put_core j : 0 <= j -> entry_core (anth (put_slot t h i d) j) = entry_core (anth t j).
Proof using Hh.
  intros. unfold put_slot. rewrite anth_aset by done. zcase; [subst; done|done].
Qed.
Lemma object_at_put j : 0 <= j -> object_at (put_slot t h i d) j = object_at t j.
Proof using Hh. intros Hj. pose proof (anth_put_core j Hj) as [= ?]. done. Qed.
Lemma home_of_put j : 0 <= j -> home_of (put_slot t h i d) j = home_of t j.
Proof using Hh. intros. unfold home_of. rewrite object_at_put by done. by rewrite alen_put_slot. Qed.
Lemma same_cores_put : same_cores t (put_slot t h i d).
Proof using Hh.
  unfold same_cores, put_slot, aset. rewrite list_fmap_insert. symmetry.
  apply list_insert_id. rewrite list_lookup_fmap, list_lookup_lookup_total_lt; [done|].
  unfold alen in *. lia.
Qed.
Lemma hash_count_put :
  (hash_count (put_slot t h i d) + (if (slot_index t h =? 0)%Z then 0 else 1) =
   hash_count t + (if (i =? 0)%Z then 0 else 1))%nat.
Proof using Hh.
  unfold hash_count, put_slot, aset, slot_index, anth. unfold alen in *.
  assert (t !! Z.to_nat h = Some (t !!! Z.to_nat h)) as Hl
    by (apply list_lookup_lookup_total_lt; lia).
  pose proof (length_filter_insert (fun e => ie_index e <> 0) _ _ _
                (set_slot i d (t !!! Z.to_nat h)) Hl) as Hf.
  simpl in Hf. repeat case_decide; zcase; lia.
Qed.
End put_slot.

#[global] Instance same_cores_equiv : Equivalence same_cores.
Proof.
  split; [by intros t|by intros t t' ?; symmetry|].
  intros t1 t2 t3 H12 H23. unfold same_cores in *. by rewrite H12.
Qed.

Lemma same_cores_alen t t' : same_cores t t' -> alen t = alen t'.
Proof. unfold same_cores, alen. intros Hc%(f_equal length). rewrite !length_fmap in Hc. lia. Qed.

Lemma same_cores_anth t t' j :
  same_cores t t' -> 0 <= j < alen t -> entry_core (anth t j) = entry_core (anth t' j).
Proof.
  intros Hc Hj. pose proof (same_cores_alen _ _ Hc). unfold anth, alen in *.
  unfold same_cores in Hc. apply (f_equal (fun l => l !! Z.to_nat j)) in Hc.
  rewrite !list_lookup_fmap, !list_lookup_lookup_total_lt in Hc by lia.
  by apply (inj Some) in Hc.
Qed.

Lemma same_cores_object t t' j :
  same_cores t t' -> 0 <= j < alen t -> object_at t j = object_at t' j.
Proof. intros Hc Hj. pose proof (same_cores_anth _ _ _ Hc Hj) as [= ???]. done. Qed.

(** * Clumps: displaced elements sit behind used slots *)
Section clump.
Context (t : list ipc_entry) (Hlen : 2 <= alen t) (Hok : slots_ok t).

Lemma slot_dist_range h :
  0 <= h < alen t -> slot_index t h <> 0 -> 0 <= slot_dist t h < alen t.
Proof using Hlen Hok.
  intros Hh Hu. destruct (so_slot _ Hok h Hh Hu) as (?&?&->&?).
  apply displacement_range; [done|apply IH_TABLE_HASH_range; lia|done].
Qed.

Lemma clump_back h k :
  0 <= h < alen t -> slot_index t h <> 0 -> 0 <= k <= slot_dist t h ->
  slot_index t (back (alen t) h k) <> 0 /\
  slot_dist t h - k <= slot_dist t (back (alen t) h k).
Proof using Hlen Hok.
  intros Hh Hu Hk. pose proof (slot_dist_range h Hh Hu) as Hd.
  destruct Hk as [Hk0 Hk]. revert Hk. pattern k. apply natlike_ind; [..|done]; clear k Hk0.
  - intros _. unfold back. replace (0 <=? h) with true by lia.
    rewrite Z.sub_0_r. split; [done|lia].
  - intros k Hk IH Hks. destruct IH as [IHu IHd]; [lia|].
    pose proof (back_range (alen t) Hlen h k Hh ltac:(lia)) as Hb.
    rewrite <- Z.add_1_r, back_succ by lia.
    destruct (so_prev _ Hok _ Hb IHu) as [??]; [lia|]. split; [done|lia].
Qed.

(** A run of used slots is no longer than the number of used slots. *)
Lemma run_le_count h d :
  0 <= h < alen t -> 0 <= d < alen t ->
  (forall k, 0 <= k <= d -> slot_index t (back (alen t) h k) <> 0) ->
  d + 1 <= Z.of_nat (hash_count t).
Proof using Hlen.
  intros Hh Hd Hrun.
  set (run := (fun k => Z.to_nat (back (alen t) h k)) <$> seqZ 0 (d + 1)).
  set (used := filter (fun i => ie_index (t !!! i) <> 0) (seq 0 (length t))).
  assert (hash_count t = length used) as ->
    by exact (length_filter_positions (fun e => ie_index e <> 0) t).
  assert (length run = Z.to_nat (d + 1)) as Hl.
  { unfold run. by rewrite length_fmap, length_seqZ. }
  enough (length run <= length used)%nat by lia.
  apply submseteq_length, NoDup_submseteq.
  - unfold run. apply NoDup_fmap_2_strong; [|apply NoDup_seqZ].
    intros k k' Hk Hk' Heq. apply elem_of_seqZ in Hk, Hk'.
    pose proof (back_range (alen t) Hlen h k Hh ltac:(lia)).
    pose proof (back_range (alen t) Hlen h k' Hh ltac:(lia)).
    eapply (back_inj (alen t) Hlen h); lia.
  - intros x (k&->&Hk%elem_of_seqZ)%list_elem_of_fmap.
    pose proof (back_range (alen t) Hlen h k Hh ltac:(lia)) as Hb.
    apply list_elem_of_filter. split; [by apply Hrun; lia|].
    apply elem_of_seq. revert Hb. generalize (back (alen t) h k). unfold alen. lia.
Qed.
End clump.

(** Entry 0 is never hashed, so the table always has a free slot. *)
Lemma hash_wf_free_slot t : hash_wf t -> exists e, 0 <= e < alen t /\ slot_index t e = 0.
Proof.
  intros [Hsz Hlen Hok Hinj].
  destruct (decide (Exists (fun h => slot_index t h = 0) (seqZ 0 (alen t)))) as [He|Hne].
  - apply Exists_exists in He as (e&?%elem_of_seqZ&?). exists e. split; [lia|done].
  - exfalso. apply not_Exists_Forall in Hne; [|apply _]. rewrite Forall_forall in Hne.
    assert (length (slot_index t <$> seqZ 0 (alen t)) <= length (seqZ 1 (alen t - 1)))%nat as Hl.
    { apply submseteq_length, NoDup_submseteq.
      - apply NoDup_fmap_2_strong; [|apply NoDup_seqZ].
        intros h h' Hh Hh' Heq. pose proof (Hne _ Hh) as H1. pose proof (Hne _ Hh') as H2.
        apply elem_of_seqZ in Hh, Hh'. apply Hinj; [lia|lia|done|done|by rewrite Heq].
      - intros x (h&->&Hh)%list_elem_of_fmap. pose proof (Hne _ Hh) as Hu.
        apply elem_of_seqZ in Hh. apply elem_of_seqZ.
        destruct (so_slot _ Hok h) as (?&_); [lia|done|lia]. }
    rewrite length_fmap, !length_seqZ in Hl. lia.
Qed.

(** * Writing one slot keeps the slot invariant *)
Section write_slot.
Context (t : list ipc_entry) (Hlen : 2 <= alen t) (Hok : slots_ok t).
Context (h : Z) (Hh : 0 <= h < alen t).

(** Store element [c] at displacement [d]. *)
Lemma slots_ok_put c d :
  0 < c < alen t -> object_at t c <> IO_NULL ->
  d = displacement (alen t) (home_of t c) h -> d <= IPC_ENTRY_DIST_MAX ->
  (0 < d -> slot_index t (prev_slot (alen t) h) <> 0 /\
            d <= slot_dist t (prev_slot (alen t) h) + 1) ->
  (slot_index t (next_slot (alen t) h) <> 0 ->
   slot_dist t (next_slot (alen t) h) <= d + 1) ->
  slots_ok (put_slot t h c d).
Proof using Hlen Hok Hh.
  intros Hc Ho Hd Hmax Hprev Hnext. split; intros h'; rewrite alen_put_slot; intros Hh'.
  - rewrite !slot_index_put, slot_dist_put by lia. destruct (Z.eqb_spec h h') as [<-|].
    + intros _. rewrite object_at_put, home_of_put by lia. repeat split; solve [done | lia].
    + intros Hu. destruct (so_slot _ Hok h' Hh' Hu) as (?&?&?&?).
      rewrite object_at_put, home_of_put by lia. done.
  - pose proof (prev_slot_range _ Hlen _ Hh'). pose proof (prev_slot_ne _ Hlen _ Hh').
    rewrite !slot_index_put, !slot_dist_put by lia. destruct (Z.eqb_spec h h') as [<-|].
    + intros _ Hpos. destruct (Z.eqb_spec h (prev_slot (alen t) h)); [congruence|].
      by apply Hprev.
    + intros Hu Hpos. destruct (so_prev _ Hok h' Hh' Hu Hpos) as [Hpu Hpd].
      destruct (Z.eqb_spec h (prev_slot (alen t) h')) as [Heq|]; [|done].
      symmetry in Heq. apply (prev_slot_eq _ Hlen) in Heq as ->; [|done..].
      split; [lia|]. auto.
Qed.

(** Empty the slot, when nothing leans on it. *)
Lemma slots_ok_clear :
  (slot_index t (next_slot (alen t) h) <> 0 -> slot_dist t (next_slot (alen t) h) = 0) ->
  slots_ok (put_slot t h 0 0).
Proof using Hlen Hok Hh.
  intros Hnext. split; intros h'; rewrite alen_put_slot; intros Hh'.
  - rewrite !slot_index_put, slot_dist_put by lia. destruct (Z.eqb_spec h h'); [done|].
    intros Hu. destruct (so_slot _ Hok h' Hh' Hu) as (?&?&?&?).
    rewrite object_at_put, home_of_put by lia. done.
  - pose proof (prev_slot_range _ Hlen _ Hh').
    rewrite !slot_index_put, !slot_dist_put by lia. destruct (Z.eqb_spec h h'); [done|].
    intros Hu Hpos. destruct (so_prev _ Hok h' Hh' Hu Hpos) as [Hpu Hpd].
    destruct (Z.eqb_spec h (prev_slot (alen t) h')) as [Heq|]; [|done].
    symmetry in Heq. apply (prev_slot_eq _ Hlen) in Heq as ->; [|done..].
    specialize (Hnext Hu). lia.
Qed.

(** Displacements near a used slot are below the number of used slots. *)
Lemma slot_dist_lt_count :
  slot_index t h <> 0 -> slot_dist t h + 1 <= Z.of_nat (hash_count t).
Proof using Hlen Hok Hh.
  intros Hu. pose proof (slot_dist_range t Hlen Hok h Hh Hu).
  apply (run_le_count t Hlen h); [done..|].
  intros k Hk. by destruct (clump_back t Hlen Hok h k Hh Hu Hk).
Qed.

(** A full lap back from a used slot meets every slot, so no displacement
    reaches past a free one. *)
Lemma slot_dist_free e :
  slot_index t h <> 0 -> 0 <= e < alen t -> slot_index t e = 0 ->
  slot_dist t h < displacement (alen t) e h.
Proof using Hlen Hok Hh.
  intros Hu He Hfree. destruct (Z.lt_ge_cases (slot_dist t h) (displacement (alen t) e h)); [done|].
  pose proof (displacement_range _ Hlen e h He Hh).
  destruct (clump_back t Hlen Hok h (displacement (alen t) e h) Hh Hu) as [Hx _]; [lia|].
  exfalso. apply Hx. rewrite <- Hfree. f_equal. unfold back, displacement. zsolve.
Qed.
End write_slot.

Lemma put_slot_aget t h i d slot :
  0 <= h < alen t -> slot = anth t h -> aset t h (set_slot i d slot) = put_slot t h i d.
Proof. by intros _ ->. Qed.

Lemma hashed_put t h c d i :
  0 <= h < alen t -> c <> 0 ->
  hashed (put_slot t h c d) i <->
  i = c \/ (i <> 0 /\ exists s, 0 <= s < alen t /\ s <> h /\ slot_index t s = i).
Proof.
  intros Hh Hc. unfold hashed. rewrite alen_put_slot. split.
  - intros (Hi&s&Hs&Heq). rewrite slot_index_put in Heq by lia.
    destruct (Z.eqb_spec h s); [by left|right]. eauto 6.
  - intros [->|(Hi&s&Hs&Hne&Heq)].
    + split; [done|]. exists h. rewrite slot_index_put, Z.eqb_refl by lia. done.
    + split; [done|]. exists s. rewrite slot_index_put by lia.
      by destruct (Z.eqb_spec h s).
Qed.

(** * Insertion *)

(** The contract of an insertion. *)
Record inserted (t : list ipc_entry) (c : Z) (t' : list ipc_entry) : Prop := {
  ins_cores : same_cores t t';
  ins_ok : slots_ok t';
  ins_inj : slots_inj t';
  ins_count : hash_count t' = S (hash_count t);
  ins_hashed i : hashed t' i <-> hashed t i \/ i = c;
}.

(** The element carried by the insertion loop: entry [c] at slot [h]. *)
Record carrying (t : list ipc_entry) (h d c : Z) : Prop := {
  ca_index : 0 < c < alen t;
  ca_object : object_at t c <> IO_NULL;
  ca_fresh s : 0 <= s < alen t -> slot_index t s <> 0 ->
    object_at t (slot_index t s) <> object_at t c;
  ca_dist : d = displacement (alen t) (home_of t c) h;
  ca_prev : 0 < d -> slot_index t (prev_slot (alen t) h) <> 0 /\
                     d <= slot_dist t (prev_slot (alen t) h) + 1;
}.

Lemma home_of_range t c : 2 <= alen t -> 0 <= home_of t c < alen t.
Proof. intros. apply IH_TABLE_HASH_range. lia. Qed.

Section insert_steps.
Context (t : list ipc_entry) (Hlen : 2 <= alen t) (Hok : slots_ok t) (Hinj : slots_inj t).
Context (Hcount : Z.of_nat (hash_count t) <= IPC_ENTRY_DIST_MAX).
Context (h d c : Z) (Hh : 0 <= h < alen t) (Hca : carrying t h d c).

Lemma carrying_dist_max : d <= IPC_ENTRY_DIST_MAX.
Proof using Hlen Hok Hcount Hh Hca.
  destruct (Z.lt_ge_cases 0 d) as [Hd|]; [|rewrite DIST_MAX_val; lia].
  destruct (ca_prev _ _ _ _ Hca Hd) as [Hu Hle].
  pose proof (slot_dist_lt_count t Hlen Hok _ (prev_slot_range _ Hlen h Hh) Hu). lia.
Qed.

(** The loop stores the carried element in a free or a richer slot. *)
Lemma carrying_put_ok :
  (slot_index t h = 0 \/ slot_dist t h < d) -> slots_ok (put_slot t h c d).
Proof using Hlen Hok Hcount Hh Hca.
  intros Hcase. pose proof carrying_dist_max. destruct Hca as [Hc Ho Hf Hd Hp].
  apply slots_ok_put; try done. intros Hu.
  pose proof (next_slot_range _ Hlen _ Hh) as Hn.
  destruct (Z.lt_ge_cases 0 (slot_dist t (next_slot (alen t) h))) as [Hpos|].
  - destruct (so_prev _ Hok _ Hn Hu Hpos) as [Hpu Hpd]. rewrite prev_next_slot in * by done.
    destruct Hcase; [done|lia].
  - pose proof (displacement_range _ Hlen _ _ (home_of_range t c Hlen) Hh). lia.
Qed.

Lemma carrying_put_inj : slots_inj (put_slot t h c d).
Proof using Hok Hlen Hinj Hh Hca.
  destruct Hca as [Hc Ho Hf Hd Hp].
  intros s s'. rewrite alen_put_slot. intros Hs Hs'. rewrite !slot_index_put by lia.
  destruct (Z.eqb_spec h s) as [<-|], (Z.eqb_spec h s') as [<-|]; [done|..]; intros Hu Hu'.
  - destruct (so_slot _ Hok s' Hs' Hu'). rewrite !object_at_put by lia.
    intros Heq. by destruct (Hf s' Hs' Hu').
  - destruct (so_slot _ Hok s Hs Hu). rewrite !object_at_put by lia.
    intros Heq. by destruct (Hf s Hs Hu).
  - destruct (so_slot _ Hok s Hs Hu), (so_slot _ Hok s' Hs' Hu').
    rewrite !object_at_put by lia. by apply Hinj.
Qed.
End insert_steps.

Section insert_loop.
Context (t : list ipc_entry) (Hlen : 2 <= alen t) (Hok : slots_ok t) (Hinj : slots_inj t).
Context (Hcount : Z.of_nat (hash_count t) <= IPC_ENTRY_DIST_MAX).
Context (h d c : Z) (Hh : 0 <= h < alen t) (Hca : carrying t h d c).
Context (e : Z) (He : 0 <= e < alen t) (Hfree : slot_index t e = 0).

(** Walking on: the slot's element is at least as displaced. *)
Lemma carrying_next :
  slot_index t h <> 0 -> d <= slot_dist t h ->
  carrying t (next_slot (alen t) h) (peg_incr d) c.
Proof using Hlen Hok Hcount Hh Hca He Hfree.
  intros Hu Hd. pose proof (slot_dist_lt_count t Hlen Hok h Hh Hu).
  pose proof (slot_dist_free t Hlen Hok h Hh e Hu He Hfree).
  pose proof (displacement_range _ Hlen _ _ He Hh).
  destruct Hca as [Hc Ho Hf Hd' Hp].
  assert (peg_incr d = d + 1) as -> by (unfold peg_incr; zsolve).
  split; try done.
  - rewrite displacement_next; [lia|done|by apply home_of_range|done|].
    intros Heq. rewrite <- Heq in Hd'. clear Hp Hf. revert Hd'.
    unfold displacement, next_slot in *. zsolve.
  - intros _. rewrite prev_next_slot by done. split; [done|lia].
Qed.

(** Stealing: the evicted element is carried on. *)
Lemma carrying_steal :
  slot_index t h <> 0 -> slot_dist t h < d ->
  carrying (put_slot t h c d) (next_slot (alen t) h) (peg_incr (slot_dist t h)) (slot_index t h).
Proof using Hlen Hok Hinj Hcount Hh Hca He Hfree.
  intros Hu Hlt. pose proof (carrying_dist_max t Hlen Hok Hcount h d c Hh Hca).
  pose proof (slot_dist_free t Hlen Hok h Hh e Hu He Hfree).
  pose proof (displacement_range _ Hlen _ _ He Hh).
  destruct (so_slot _ Hok h Hh Hu) as (Hi&Hio&Hid&Him).
  destruct Hca as [Hc Ho Hf Hd' Hp].
  assert (peg_incr (slot_dist t h) = slot_dist t h + 1) as -> by (unfold peg_incr; zsolve).
  split; rewrite ?alen_put_slot, ?object_at_put, ?home_of_put by lia; try done.
  - intros s Hs. rewrite slot_index_put by lia. destruct (Z.eqb_spec h s) as [<-|Hne].
    + intros _. rewrite object_at_put by lia. intros Heq. by apply (Hf h).
    + intros Hus. destruct (so_slot _ Hok s Hs Hus). rewrite object_at_put by lia.
      intros Heq. apply Hne. by apply Hinj.
  - rewrite displacement_next; [lia|done|by apply home_of_range|done|].
    intros Heq. rewrite <- Heq in Hid. clear Hp Hf Hd'. revert Hid.
    unfold displacement, next_slot in *. zsolve.
  - intros _. rewrite prev_next_slot, slot_index_put, slot_dist_put, Z.eqb_refl by lia. lia.
Qed.
End insert_loop.

(** One round that walks on. *)
Lemma insert_walk t fuel h d c :
  0 <= h < alen t -> slot_index t h <> 0 -> d <= slot_dist t h ->
  ipc_hash_insert_loop (S fuel) t (alen t) h d c =
  ipc_hash_insert_loop fuel t (alen t) (next_slot (alen t) h) (peg_incr d) c.
Proof.
  intros Hh Hu Hd. cbn [ipc_hash_insert_loop]. rewrite aget_in by done. cbn [obind].
  change (ie_index (anth t h)) with (slot_index t h).
  change (ie_dist (anth t h)) with (slot_dist t h).
  destruct (Z.eqb_spec (slot_index t h) 0); [done|].
  destruct (Z.ltb_spec (slot_dist t h) d); [lia|done].
Qed.

(** The round that finds a free slot. *)
Lemma insert_land t fuel h d c :
  0 <= h < alen t -> slot_index t h = 0 ->
  ipc_hash_insert_loop (S fuel) t (alen t) h d c = Done (put_slot t h c d).
Proof.
  intros Hh Hu. cbn [ipc_hash_insert_loop]. rewrite aget_in by done. cbn [obind].
  change (ie_index (anth t h)) with (slot_index t h). by rewrite Hu.
Qed.

Lemma insert_loop_ok fuel : forall t h d c e,
  2 <= alen t -> slots_ok t -> slots_inj t ->
  Z.of_nat (hash_count t) <= IPC_ENTRY_DIST_MAX ->
  0 <= h < alen t -> carrying t h d c ->
  0 <= e < alen t -> slot_index t e = 0 -> displacement (alen t) h e < Z.of_nat fuel ->
  exists t', ipc_hash_insert_loop fuel t (alen t) h d c = Done t' /\ inserted t c t'.
Proof.
  induction fuel as [|fuel IH]; intros t h d c e Hlen Hok Hinj Hcnt Hh Hca He Hfree Hfuel.
  { pose proof (displacement_range _ Hlen _ _ Hh He). lia. }
  cbn [ipc_hash_insert_loop]. rewrite aget_in by done. cbn [obind].
  change (ie_index (anth t h)) with (slot_index t h).
  change (ie_dist (anth t h)) with (slot_dist t h).
  rewrite put_slot_aget by done.
  pose proof (hash_count_put t h c d Hh) as Hcp.
  pose proof (ca_index _ _ _ _ Hca) as Hc.
  destruct (Z.eqb_spec c 0); [lia|].
  destruct (Z.eqb_spec (slot_index t h) 0) as [H0|Hu].
  { eexists. split; [done|]. split.
    - by apply same_cores_put.
    - apply carrying_put_ok; auto.
    - apply carrying_put_inj; auto.
    - lia.
    - intros i. rewrite hashed_put by lia. unfold hashed. split.
      + intros [->|(?&s&?&?&?)]; [by right|left]. eauto.
      + intros [(?&s&?&<-)| ->]; [right|by left]. split; [done|].
        exists s. split; [done|split; [congruence|done]]. }
  assert (h <> e) as Hhe by congruence.
  pose proof (next_slot_range _ Hlen _ Hh) as Hn.
  pose proof (displacement_advance _ Hlen h e Hh He Hhe) as Hadv.
  destruct (Z.ltb_spec (slot_dist t h) d) as [Hlt|Hge].
  - pose proof (IH (put_slot t h c d) (next_slot (alen t) h) (peg_incr (slot_dist t h))
                  (slot_index t h) e) as IHt.
    rewrite alen_put_slot in IHt.
    destruct IHt as (t'&Ht'&[Hcr Hok' Hinj' Hc' Hhd]); try done.
    + apply carrying_put_ok; auto.
    + by apply carrying_put_inj.
    + lia.
    + by apply (carrying_steal t Hlen Hok Hinj Hcnt h d c Hh Hca e).
    + rewrite slot_index_put by lia. by destruct (Z.eqb_spec h e).
    + lia.
    + exists t'. split; [done|]. split; try done.
      * by rewrite (same_cores_put t h c d Hh).
      * lia.
      * intros i. rewrite Hhd, hashed_put by lia. unfold hashed. split.
        -- intros [[->|(?&s&?&?&?)]| ->]; [by right|left; by eauto..].
        -- intros [(?&s&?&<-)| ->]; [|by left; left].
           destruct (decide (s = h)) as [->|]; [by right|left; right]. eauto.
  - destruct (IH t (next_slot (alen t) h) (peg_incr d) c e) as (t'&Ht'&Hins); try done.
    + by apply (carrying_next t Hlen Hok Hcnt h d c Hh Hca e).
    + lia.
    + eauto.
Qed.

(** * Deletion *)

Record deleted (t : list ipc_entry) (i : Z) (t' : list ipc_entry) : Prop := {
  del_cores : same_cores t t';
  del_ok : slots_ok t';
  del_inj : slots_inj t';
  del_count : S (hash_count t') = hash_count t;
  del_hashed j : hashed t' j <-> hashed t j /\ j <> i;
}.

(** Injectivity of all slots but the stale one. *)
Definition slots_inj_but (h0 : Z) (t : list ipc_entry) : Prop := forall h h',
  0 <= h < alen t -> 0 <= h' < alen t -> h <> h0 -> h' <> h0 ->
  slot_index t h <> 0 -> slot_index t h' <> 0 ->
  object_at t (slot_index t h) = object_at t (slot_index t h') -> h = h'.

Lemma delete_find_ok t s i fuel : forall h,
  2 <= alen t -> 0 <= s < alen t -> slot_index t s = i ->
  (forall s', 0 <= s' < alen t -> slot_index t s' = i -> s' = s) ->
  0 <= h < alen t -> displacement (alen t) h s < Z.of_nat fuel ->
  ipc_hash_delete_find fuel t (alen t) h i = Done s.
Proof.
  induction fuel as [|fuel IH]; intros h Hlen Hs Hsi Huniq Hh Hf.
  { pose proof (displacement_range _ Hlen _ _ Hh Hs). lia. }
  cbn [ipc_hash_delete_find]. rewrite aget_in by done. cbn [obind].
  change (ie_index (anth t h)) with (slot_index t h).
  destruct (Z.eqb_spec (slot_index t h) i) as [Heq|Hne].
  { f_equal. by apply Huniq. }
  assert (h <> s) by congruence.
  apply IH; try done; [by apply next_slot_range|].
  rewrite displacement_advance by done. lia.
Qed.

(** Elements other than the stale slot's. *)
Definition live_but (h : Z) (t : list ipc_entry) (j : Z) : Prop :=
  j <> 0 /\ exists s, 0 <= s < alen t /\ s <> h /\ slot_index t s = j.

(** Distance stored when an element moves back one slot. *)
Lemma delete_redist t (Hlen : 2 <= alen t) (Hok : slots_ok t) h :
  0 <= h < alen t ->
  let n := next_slot (alen t) h in
  slot_index t n <> 0 -> 0 < slot_dist t n ->
  displacement (alen t) (home_of t (slot_index t n)) h = slot_dist t n - 1.
Proof.
  intros Hh n Hu Hpos. pose proof (next_slot_range _ Hlen _ Hh) as Hn.
  destruct (so_slot _ Hok n Hn Hu) as (Hi&Ho&Hd&Hm).
  pose proof (home_of_range t (slot_index t n) Hlen) as Hhome.
  pose proof (displacement_next_pos _ Hlen _ h Hhome Hh) as Hnx. fold n in Hnx.
  rewrite <- Hd in Hnx. specialize (Hnx Hpos). lia.
Qed.

Section delete_steps.
Context (t : list ipc_entry) (Hlen : 2 <= alen t) (Hok : slots_ok t).
Context (h : Z) (Hh : 0 <= h < alen t) (Hu : slot_index t h <> 0) (Hinj : slots_inj_but h t).
Local Abbreviation n := (next_slot (alen t) h).

(** The last step: the stale slot is emptied. *)
Lemma clear_inj : slots_inj (put_slot t h 0 0).
Proof using Hlen Hok Hh Hinj.
  intros s s'. rewrite alen_put_slot. intros Hs Hs'. rewrite !slot_index_put by lia.
  destruct (Z.eqb_spec h s), (Z.eqb_spec h s'); try done. intros Hus Hus'.
  destruct (so_slot _ Hok s Hs Hus), (so_slot _ Hok s' Hs' Hus').
  rewrite !object_at_put by lia. by apply Hinj.
Qed.

Lemma clear_count : S (hash_count (put_slot t h 0 0)) = hash_count t.
Proof using Hh Hu.
  pose proof (hash_count_put t h 0 0 Hh) as Hc. simpl in Hc.
  destruct (Z.eqb_spec (slot_index t h) 0); [done|]. lia.
Qed.

Lemma clear_hashed j : hashed (put_slot t h 0 0) j <-> live_but h t j.
Proof using Hh.
  unfold hashed, live_but. rewrite alen_put_slot. split.
  - intros (Hj&s&Hs&Heq). rewrite slot_index_put in Heq by lia.
    destruct (Z.eqb_spec h s); [congruence|]. eauto 6.
  - intros (Hj&s&Hs&Hne&Heq). split; [done|]. exists s. rewrite slot_index_put by lia.
    by destruct (Z.eqb_spec h s).
Qed.

Context (Hnu : slot_index t n <> 0) (Hnd : 0 < slot_dist t n).
Local Abbreviation t1 := (put_slot t h (slot_index t n) (slot_dist t n - 1)).

Lemma shift_dist_ok :
  ipc_hash_shift_dist t (alen t) h (slot_index t n) (slot_dist t n) = Done (slot_dist t n - 1).
Proof using Hlen Hok Hh Hnu Hnd.
  unfold ipc_hash_shift_dist. destruct (Z.eqb_spec (slot_dist t n) IPC_ENTRY_DIST_MAX); [|done].
  destruct (so_slot _ Hok n (next_slot_range _ Hlen _ Hh) Hnu) as (Hi&Ho&Hd&Hm).
  rewrite aget_in by lia. cbn [obind].
  change (IH_TABLE_HASH (ie_object (anth t (slot_index t n))) (alen t))
    with (home_of t (slot_index t n)).
  pose proof (delete_redist t Hlen Hok h Hh Hnu Hnd) as Hre. unfold displacement in Hre.
  rewrite Hre. destruct (Z.ltb_spec IPC_ENTRY_DIST_MAX (slot_dist t n - 1)); [lia|done].
Qed.

(** A move: the next element goes to the stale slot, its own becomes stale. *)
Lemma move_ok : slots_ok t1.
Proof using Hlen Hok Hh Hu Hnu Hnd.
  pose proof (next_slot_range _ Hlen _ Hh) as Hn.
  destruct (so_slot _ Hok n Hn Hnu) as (Hi&Ho&Hd&Hm).
  destruct (so_prev _ Hok n Hn Hnu Hnd) as (_&Hp). rewrite prev_next_slot in Hp by done.
  apply slots_ok_put; try done.
  - symmetry. by apply delete_redist.
  - lia.
  - intros Hpos. destruct (so_prev _ Hok h Hh Hu) as [??]; [lia|]. split; [done|lia].
  - intros _. lia.
Qed.

Lemma move_inj : slots_inj_but n t1.
Proof using Hlen Hok Hh Hnu Hinj.
  pose proof (next_slot_range _ Hlen _ Hh) as Hn.
  pose proof (next_slot_ne _ Hlen _ Hh) as Hnh.
  destruct (so_slot _ Hok n Hn Hnu) as (Hi&_).
  intros s s'. rewrite alen_put_slot. intros Hs Hs' Hsn Hsn'. rewrite !slot_index_put by lia.
  destruct (Z.eqb_spec h s) as [<-|], (Z.eqb_spec h s') as [<-|]; [done|..]; intros Hus Hus'.
  - destruct (so_slot _ Hok s' Hs' Hus'). rewrite !object_at_put by lia.
    intros Heq. destruct Hsn'. symmetry. by apply Hinj.
  - destruct (so_slot _ Hok s Hs Hus). rewrite !object_at_put by lia.
    intros Heq. destruct Hsn. by apply Hinj.
  - destruct (so_slot _ Hok s Hs Hus), (so_slot _ Hok s' Hs' Hus').
    rewrite !object_at_put by lia. by apply Hinj.
Qed.

Lemma move_live j : live_but n t1 j <-> live_but h t j.
Proof using Hlen Hh Hnu.
  pose proof (next_slot_range _ Hlen _ Hh) as Hn.
  pose proof (next_slot_ne _ Hlen _ Hh) as Hnh.
  unfold live_but. rewrite alen_put_slot. split; intros (Hj&s&Hs&Hne&Heq); (split; [done|]).
  - rewrite slot_index_put in Heq by lia. destruct (Z.eqb_spec h s) as [<-|].
    + exists n. done.
    + exists s. auto.
  - destruct (decide (s = n)) as [->|].
    + exists h. rewrite slot_index_put, Z.eqb_refl by lia. auto.
    + exists s. rewrite slot_index_put by lia. by destruct (Z.eqb_spec h s).
Qed.

Lemma move_count : hash_count t1 = hash_count t.
Proof using Hh Hu Hnu.
  pose proof (hash_count_put t h (slot_index t n) (slot_dist t n - 1) Hh) as Hc.
  rewrite (proj2 (Z.eqb_neq _ _) Hu), (proj2 (Z.eqb_neq _ _) Hnu) in Hc. lia.
Qed.
End delete_steps.

Lemma delete_shift_ok fuel : forall t h e,
  2 <= alen t -> slots_ok t -> slots_inj_but h t ->
  0 <= h < alen t -> slot_index t h <> 0 ->
  0 <= e < alen t -> slot_index t e = 0 -> displacement (alen t) h e < Z.of_nat fuel ->
  exists t', ipc_hash_delete_shift fuel t (alen t) h = Done t' /\
    same_cores t t' /\ slots_ok t' /\ slots_inj t' /\
    S (hash_count t') = hash_count t /\ forall j, hashed t' j <-> live_but h t j.
Proof.
  induction fuel as [|fuel IH]; intros t h e Hlen Hok Hinj Hh Hu He Hfree Hfuel.
  { pose proof (displacement_range _ Hlen _ _ Hh He). lia. }
  pose proof (next_slot_range _ Hlen _ Hh) as Hn.
  pose proof (next_slot_ne _ Hlen _ Hh) as Hne.
  cbn [ipc_hash_delete_shift]. rewrite !aget_in by done. cbn [obind].
  set (n := next_slot (alen t) h) in *.
  change (ie_index (anth t n)) with (slot_index t n).
  change (ie_dist (anth t n)) with (slot_dist t n).
  rewrite !put_slot_aget by done.
  destruct ((slot_index t n =? 0) || (slot_dist t n =? 0)) eqn:Hend.
  { assert (slot_index t n <> 0 -> slot_dist t n = 0) by (revert Hend; zsolve).
    eexists. split; [done|]. split; [by apply same_cores_put|].
    split; [by apply slots_ok_clear|]. split; [by apply clear_inj|].
    split; [by apply clear_count|]. intros j. by apply clear_hashed. }
  assert (slot_index t n <> 0 /\ slot_dist t n <> 0) as [Hnu Hnd] by (revert Hend; zsolve).
  pose proof (slot_dist_range t Hlen Hok n Hn Hnu) as Hr.
  unfold n. rewrite shift_dist_ok by (fold n; solve [done | lia]). fold n. cbn [obind].
  rewrite put_slot_aget by done.
  pose proof (IH (put_slot t h (slot_index t n) (slot_dist t n - 1)) n e) as IHt.
  rewrite alen_put_slot in IHt.
  assert (h <> e) as Hhe by congruence.
  destruct IHt as (t'&Ht'&Hcr&Hok'&Hinj'&Hc'&Hhd); try done.
  - apply move_ok; fold n; try done; lia.
  - by apply move_inj.
  - by rewrite slot_index_put by lia; destruct (Z.eqb_spec h n).
  - by rewrite slot_index_put by lia; destruct (Z.eqb_spec h e).
  - unfold n. rewrite displacement_advance by done. lia.
  - exists t'. split; [done|]. split; [by rewrite <- Hcr; apply same_cores_put|].
    split; [done|]. split; [done|]. split.
    + rewrite Hc'. by apply move_count.
    + intros j. rewrite Hhd. by apply move_live.
Qed.

(** * Lookup *)
(** One probe that does not find the object goes on to the next slot. *)
Lemma lookup_miss `{KernelConfig} t obj fuel h hdist :
  0 <= h < alen t -> 0 < slot_index t h < alen t -> hdist <= slot_dist t h ->
  object_at t (slot_index t h) <> obj ->
  ipc_hash_lookup_loop (S fuel) t obj (alen t) h hdist =
  ipc_hash_lookup_loop fuel t obj (alen t) (next_slot (alen t) h) (peg_incr hdist).
Proof.
  intros Hh Hi Hd Ho.
  cbn [ipc_hash_lookup_loop]. rewrite aget_in by done. cbn [obind].
  change (ie_index (anth t h)) with (slot_index t h).
  change (ie_dist (anth t h)) with (slot_dist t h).
  destruct (Z.eqb_spec (slot_index t h) 0); [lia|].
  destruct (Z.ltb_spec (slot_dist t h) hdist); [lia|].
  rewrite (kassert_true (slot_index t h <? alen t)) by lia.
  rewrite aget_in by lia. cbn [obind].
  change (ie_object (anth t (slot_index t h))) with (object_at t (slot_index t h)).
  destruct (Z.eqb_spec (object_at t (slot_index t h)) obj); [done|].
  rewrite kassert_true by done. by destruct (hdist =? slot_dist t h), MACH_ASSERT.
Qed.

(** The probe that finds it. *)
Lemma lookup_hit `{KernelConfig} t obj fuel h :
  0 <= h < alen t -> 0 < slot_index t h < alen t -> object_at t (slot_index t h) = obj ->
  ipc_hash_lookup_loop (S fuel) t obj (alen t) h (slot_dist t h) =
  Done (Some (MACH_PORT_MAKE (slot_index t h) (IE_BITS_GEN (ie_bits (anth t (slot_index t h)))),
              slot_index t h)).
Proof.
  intros Hh Hi Ho. cbn [ipc_hash_lookup_loop]. rewrite aget_in by done. cbn [obind].
  change (ie_index (anth t h)) with (slot_index t h).
  change (ie_dist (anth t h)) with (slot_dist t h).
  destruct (Z.eqb_spec (slot_index t h) 0); [lia|].
  rewrite Z.ltb_irrefl, Z.eqb_refl, kassert_true by lia. rewrite aget_in by lia. cbn [obind].
  change (ie_object (anth t (slot_index t h))) with (object_at t (slot_index t h)).
  by rewrite Ho, Z.eqb_refl.
Qed.

(** The probe that gives up. *)
Lemma lookup_stop `{KernelConfig} t obj fuel h hdist :
  0 <= h < alen t -> slot_index t h = 0 \/ slot_dist t h < hdist ->
  ipc_hash_lookup_loop (S fuel) t obj (alen t) h hdist = Done None.
Proof.
  intros Hh Hstop. cbn [ipc_hash_lookup_loop]. rewrite aget_in by done. cbn [obind].
  change (ie_index (anth t h)) with (slot_index t h).
  change (ie_dist (anth t h)) with (slot_dist t h).
  destruct (Z.eqb_spec (slot_index t h) 0); [done|].
  destruct (Z.ltb_spec (slot_dist t h) hdist); [done|]. by destruct Hstop; [|lia].
Qed.

Section lookup_loop.
Context `{KernelConfig} (t : list ipc_entry) (Hlen : 2 <= alen t) (Hok : slots_ok t).
Context (obj : Z).

Lemma lookup_absent fuel e : forall h hdist,
  (forall s, 0 <= s < alen t -> slot_index t s <> 0 -> object_at t (slot_index t s) <> obj) ->
  0 <= h < alen t -> 0 <= e < alen t -> slot_index t e = 0 ->
  displacement (alen t) h e < Z.of_nat fuel ->
  ipc_hash_lookup_loop fuel t obj (alen t) h hdist = Done None.
Proof using Hlen Hok.
  induction fuel as [|fuel IH]; intros h hdist Habs Hh He Hfree Hfuel.
  { pose proof (displacement_range _ Hlen _ _ Hh He). lia. }
  destruct (decide (slot_index t h <> 0 /\ hdist <= slot_dist t h)) as [[Hu Hd]|Hstop].
  - destruct (so_slot _ Hok h Hh Hu) as (Hi&_).
    rewrite lookup_miss by auto. assert (h <> e) by congruence.
    apply IH; try done; [by apply next_slot_range|].
    rewrite displacement_advance by done. lia.
  - apply lookup_stop; [done|]. destruct (decide (slot_index t h = 0)); [by left|right; lia].
Qed.

(** From the object's home, every slot up to its own holds an element at
    least as displaced: the early exit is not taken. *)
Lemma lookup_present fuel s : forall h,
  slots_inj t -> 0 <= s < alen t -> slot_index t s <> 0 ->
  object_at t (slot_index t s) = obj ->
  let home := IH_TABLE_HASH obj (alen t) in
  0 <= h < alen t -> displacement (alen t) home h + displacement (alen t) h s = slot_dist t s ->
  displacement (alen t) h s < Z.of_nat fuel ->
  ipc_hash_lookup_loop fuel t obj (alen t) h (displacement (alen t) home h) =
  Done (Some (MACH_PORT_MAKE (slot_index t s) (IE_BITS_GEN (ie_bits (anth t (slot_index t s)))),
              slot_index t s)).
Proof using Hlen Hok.
  induction fuel as [|fuel IH]; intros h Hinj Hs Hu Ho home Hh Hsum Hfuel.
  { pose proof (displacement_range _ Hlen _ _ Hh Hs). lia. }
  destruct (so_slot _ Hok s Hs Hu) as (Hi&_&Hd&Hm).
  assert (home_of t (slot_index t s) = home) as Hhome by (unfold home_of; by rewrite Ho).
  rewrite Hhome in Hd.
  assert (0 <= home < alen t) as Hhr by (apply IH_TABLE_HASH_range; lia).
  pose proof (displacement_range _ Hlen _ _ Hhr Hh). pose proof (displacement_range _ Hlen _ _ Hh Hs).
  destruct (decide (h = s)) as [->|Hne].
  - rewrite <- Hd. by apply lookup_hit.
  - assert (back (alen t) s (displacement (alen t) h s) = h) as Hback
      by (unfold back, displacement in *; zsolve).
    destruct (clump_back t Hlen Hok s (displacement (alen t) h s) Hs Hu) as [Hhu Hhd]; [lia|].
    rewrite Hback in Hhu, Hhd.
    assert (displacement (alen t) h s <> 0) by (intros ?%displacement_0; congruence).
    destruct (so_slot _ Hok h Hh Hhu) as (Hhi&_).
    rewrite lookup_miss; [|done|done|lia|].
    + assert (displacement (alen t) home (next_slot (alen t) h) =
              peg_incr (displacement (alen t) home h)) as Hpeg.
      { unfold peg_incr. destruct (Z.ltb_spec (displacement (alen t) home h) IPC_ENTRY_DIST_MAX);
          [|lia]. apply displacement_next; [done..|]. intros Heq.
        unfold displacement, next_slot in *. zsolve. }
      rewrite <- Hpeg. apply IH; try done; [by apply next_slot_range|..].
      * fold home. rewrite Hpeg, displacement_advance by done. unfold peg_incr. zsolve.
      * rewrite displacement_advance by done. lia.
    + intros Heq. apply Hne, Hinj; [done..|congruence].
Qed.
End lookup_loop.

(** * The finite map *)
Lemma hash_map_lookup t o i :
  hash_wf t -> hash_map t !! o = Some i <-> hashed t i /\ object_at t i = o.
Proof.
  intros [Hsz Hlen Hok Hinj]. unfold hash_map.
  set (l := (fun e => (object_at t (ie_index e), ie_index e)) <$>
            filter (fun e => ie_index e <> 0) t).
  assert (forall o' i', (o', i') ∈ l <-> hashed t i' /\ object_at t i' = o') as Hl.
  { intros o' i'. unfold l, hashed. rewrite list_elem_of_fmap. split.
    - intros (e&[= -> ->]&[Hne Hin]%list_elem_of_filter). split; [|done]. split; [done|].
      destruct (elem_of_anth t e Hin) as (h&?&<-). by exists h.
    - intros ((?&h&Hh&<-)&<-). exists (anth t h). split; [done|].
      apply list_elem_of_filter. split; [done|]. by apply anth_elem_of. }
  split.
  - intros Hm%elem_of_list_to_map_2. by apply Hl.
  - intros Hi. apply elem_of_list_to_map_1'; [|by apply Hl].
    intros i' [(?&h'&?&<-) Ho']%Hl. destruct Hi as [(?&h&?&<-) Ho].
    f_equal. apply Hinj; try done. congruence.
Qed.

Lemma hash_map_None t o :
  hash_wf t -> hash_map t !! o = None <->
  (forall s, 0 <= s < alen t -> slot_index t s <> 0 -> object_at t (slot_index t s) <> o).
Proof.
  intros Hwf. split.
  - intros Hn s Hs Hu <-. assert (hash_map t !! object_at t (slot_index t s) = Some (slot_index t s))
      as Hsome by (apply hash_map_lookup; [done|]; split; [split; [done|by exists s]|done]).
    congruence.
  - intros Habs. destruct (hash_map t !! o) as [i|] eqn:Hi; [|done].
    apply hash_map_lookup in Hi as [(?&s&?&<-) ?]; [|done]. by destruct (Habs s).
Qed.

(** Keeping entry bodies keeps the recorded size. *)
Lemma same_cores_size t t' : same_cores t t' -> 2 <= alen t ->
  ie_size (anth t' 0) = ie_size (anth t 0).
Proof. intros Hc Hl. pose proof (same_cores_anth _ _ 0 Hc ltac:(lia)) as [= ???]. done. Qed.

Lemma hash_map_ext t' (m : gmap Z Z) :
  hash_wf t' ->
  (forall o i, m !! o = Some i <-> hashed t' i /\ object_at t' i = o) -> hash_map t' = m.
Proof.
  intros Hwf' Hm. apply map_eq. intros o. apply option_eq. intros i.
  rewrite Hm. by apply hash_map_lookup.
Qed.

Lemma hash_map_size t : hash_wf t -> size (hash_map t) = hash_count t.
Proof.
  intros [Hsz Hlen Hok Hinj]. unfold hash_map, hash_count.
  rewrite map_size_list_to_map; [by rewrite length_fmap|].
  rewrite filter_positions, <- !list_fmap_compose.
  apply NoDup_fmap_2_strong; [|apply NoDup_filter, NoDup_seq].
  intros a b [Ha Hia]%list_elem_of_filter [Hb Hib]%list_elem_of_filter Heq.
  apply elem_of_seq in Hia, Hib. apply Nat2Z.inj, Hinj; unfold slot_index, anth, alen;
    rewrite ?Nat2Z.id; try done; lia.
Qed.

(** * The three operations refine the map operations *)
Section refinement.
Context `{KernelConfig} (t : list ipc_entry) (Hwf : hash_wf t).

Lemma ipc_hash_table_lookup_ok obj :
  ipc_hash_table_lookup t obj =
  Done ((fun i => (MACH_PORT_MAKE i (IE_BITS_GEN (ie_bits (anth t i))), i)) <$> hash_map t !! obj).
Proof using Hwf.
  destruct (hash_wf_free_slot _ Hwf) as (e&He&Hfree).
  pose proof Hwf as [Hsz Hlen Hok Hinj].
  unfold ipc_hash_table_lookup. rewrite aget_in by lia. cbn [obind]. rewrite Hsz.
  assert (0 <= IH_TABLE_HASH obj (alen t) < alen t) as Hhr by (apply IH_TABLE_HASH_range; lia).
  pose proof DIST_MAX_val.
  destruct (hash_map t !! obj) as [i|] eqn:Hi; simpl.
  - apply hash_map_lookup in Hi as [(Hi0&s&Hs&Hsi) Hio]; [|done].
    destruct (so_slot _ Hok s Hs) as (Hir&Hon&Hd&Hm); [congruence|].
    destruct (Z.eqb_spec obj IO_NULL); [congruence|].
    rewrite <- (displacement_home (alen t) Hlen (IH_TABLE_HASH obj (alen t))), <- Hsi.
    assert (home_of t (slot_index t s) = IH_TABLE_HASH obj (alen t)) as Hho
      by (unfold home_of; congruence).
    rewrite Hho in Hd. pose proof (displacement_range _ Hlen _ _ Hhr Hs).
    apply lookup_present; try congruence; try done.
    + rewrite displacement_home, Hd by done. lia.
    + lia.
  - destruct (Z.eqb_spec obj IO_NULL); [done|].
    apply (lookup_absent t Hlen Hok obj _ e); try done; [by apply hash_map_None|].
    pose proof (displacement_range _ Hlen _ _ Hhr He). lia.
Qed.

Lemma ipc_hash_table_insert_ok obj index :
  0 < index < alen t -> obj <> IO_NULL -> object_at t index = obj ->
  hash_map t !! obj = None -> Z.of_nat (hash_count t) <= IPC_ENTRY_DIST_MAX ->
  exists t', ipc_hash_table_insert t obj index = Done t' /\ hash_wf t' /\ same_cores t t' /\
    hash_map t' = <[obj := index]> (hash_map t).
Proof using Hwf.
  intros Hi Ho Hio Hnone Hcnt. destruct (hash_wf_free_slot _ Hwf) as (e&He&Hfree).
  pose proof Hwf as [Hsz Hlen Hok Hinj].
  assert (0 <= IH_TABLE_HASH obj (alen t) < alen t) as Hhr by (apply IH_TABLE_HASH_range; lia).
  destruct (insert_loop_ok (Z.to_nat (alen t)) t (IH_TABLE_HASH obj (alen t)) 0 index e)
    as (t'&Ht'&[Hcr Hok' Hinj' Hc' Hhd]); try done.
  { split; [done|congruence|rewrite Hio; by apply hash_map_None| |done].
    unfold home_of. by rewrite Hio, displacement_home. }
  { pose proof (displacement_range _ Hlen _ _ Hhr He). lia. }
  assert (hash_wf t') as Hwf'.
  { pose proof (same_cores_alen _ _ Hcr). split; try done; [|lia].
    rewrite (same_cores_size _ _ Hcr) by done. congruence. }
  exists t'. split; [|split; [done|split; [done|]]].
  - unfold ipc_hash_table_insert, assert_entry_object. rewrite !aget_in by lia. cbn [obind].
    rewrite Hsz, !kassert_true; cbn [obind].
    + by destruct MACH_ASSERT.
    + change (ie_object (anth t index)) with (object_at t index). lia.
    + zsolve.
    + zsolve.
  - apply hash_map_ext; [done|]. intros o i. rewrite Hhd, lookup_insert_Some, hash_map_lookup by done.
    pose proof (same_cores_object _ _ index Hcr ltac:(lia)).
    assert (hashed t i -> object_at t i = object_at t' i) as Hobj.
    { intros (Hi0&s&Hs&Hsi). destruct (so_slot _ Hok s Hs) as (?&_); [congruence|].
      apply same_cores_object; [done|lia]. }
    split.
    + intros [[<- <-]|(Hne&Hh&<-)]; [split; [by right|congruence]|].
      split; [by left|]. symmetry. auto.
    + intros [[Hh| ->] <-]; [|left; split; congruence]. right. rewrite <- Hobj by done.
      split; [|done]. intros Heq.
      assert (hash_map t !! obj = Some i) by (apply hash_map_lookup; auto). congruence.
Qed.

Lemma ipc_hash_table_delete_ok obj index :
  hash_map t !! obj = Some index ->
  exists t', ipc_hash_table_delete t obj index = Done t' /\ hash_wf t' /\ same_cores t t' /\
    hash_map t' = delete obj (hash_map t).
Proof using Hwf.
  intros Hm. pose proof Hm as [(Hi0&s&Hs&Hsi) Hio]%hash_map_lookup; [|done].
  destruct (hash_wf_free_slot _ Hwf) as (e&He&Hfree).
  pose proof Hwf as [Hsz Hlen Hok Hinj].
  assert (slot_index t s <> 0) as Hu by congruence.
  destruct (so_slot _ Hok s Hs Hu) as (Hir&Hon&_). rewrite Hsi in *.
  assert (0 <= IH_TABLE_HASH obj (alen t) < alen t) as Hhr by (apply IH_TABLE_HASH_range; lia).
  pose proof (displacement_range _ Hlen _ _ Hhr Hs). pose proof (displacement_range _ Hlen _ _ Hs He).
  destruct (delete_shift_ok (Z.to_nat (alen t)) t s e)
    as (t'&Ht'&Hcr&Hok'&Hinj'&Hc'&Hhd); try done; [by intros ?? ?? _ _; apply Hinj|congruence|lia|].
  assert (hash_wf t') as Hwf'.
  { pose proof (same_cores_alen _ _ Hcr). split; try done; [|lia].
    rewrite (same_cores_size _ _ Hcr) by done. congruence. }
  assert (forall s', 0 <= s' < alen t -> slot_index t s' = index -> s' = s) as Huniq.
  { intros s' Hs' Heq. apply Hinj; congruence. }
  exists t'. split; [|split; [done|split; [done|]]].
  - unfold ipc_hash_table_delete, assert_entry_object. rewrite !aget_in by lia. cbn [obind].
    rewrite Hsz, !kassert_true; cbn [obind].
    + rewrite (delete_find_ok t s) by (done || lia). by destruct MACH_ASSERT.
    + change (ie_object (anth t index)) with (object_at t index). lia.
    + zsolve.
    + unfold MACH_PORT_NULL. zsolve.
  - apply hash_map_ext; [done|]. intros o i.
    rewrite Hhd, lookup_delete_Some, hash_map_lookup by done. unfold live_but, hashed.
    assert (forall s', 0 <= s' < alen t -> slot_index t s' <> 0 ->
      object_at t' (slot_index t s') = object_at t (slot_index t s')) as Hobj.
    { intros s' Hs' Hu'. destruct (so_slot _ Hok s' Hs' Hu') as (?&_).
      symmetry. apply same_cores_object; [done|lia]. }
    split.
    + intros (Hne&(?&s'&?&<-)&<-). split; [|by apply Hobj]. split; [done|]. exists s'.
      split; [done|]. split; [|done]. intros ->. congruence.
    + intros [(?&s'&?&Hns&<-) <-]. rewrite Hobj by done.
      split; [|by eauto]. intros Heq. apply Hns, Hinj; congruence.
Qed.
End refinement.

(** A table whose hash fields are all clear represents the empty map. *)
Lemma hash_wf_clear t :
  2 <= alen t -> ie_size (anth t 0) = alen t ->
  (forall h, 0 <= h < alen t -> slot_index t h = 0) -> hash_wf t /\ hash_map t = ∅.
Proof.
  intros Hlen Hsz H0.
  assert (hash_wf t) as Hwf.
  { split; [done|done|split|].
    - intros h Hh Hu. by rewrite H0 in Hu.
    - intros h Hh Hu. by rewrite H0 in Hu.
    - intros h h' Hh _ Hu. by rewrite H0 in Hu. }
  split; [done|]. apply hash_map_ext; [done|]. intros o i. rewrite lookup_empty.
  split; [done|]. intros [(?&h&?&Hhi) _]. rewrite H0 in Hhi; congruence.
Qed.

Lemma hash_wf_empty t :
  2 <= alen t -> ie_size (anth t 0) = alen t ->
  Forall (fun e => ie_index e = 0) t -> hash_wf t /\ hash_map t = ∅.
Proof.
  intros Hlen Hsz Hall. apply hash_wf_clear; [done|done|]. intros h Hh.
  rewrite Forall_forall in Hall. by apply Hall, anth_elem_of.
Qed.

Lemma hashed_range t i : hash_wf t -> hashed t i -> 0 < i < alen t.
Proof. intros Hwf (H0&h&Hh&<-). by apply (so_slot t (hw_slots t Hwf) h). Qed.

(** * Tables with the same hash

    Writing the other fields of an entry leaves the reverse table alone as
    long as a hashed entry keeps its object. *)
Record hash_agree (t t' : list ipc_entry) : Prop := {
  ha_len : alen t' = alen t;
  ha_size : ie_size (anth t' 0) = ie_size (anth t 0);
  ha_index h : 0 <= h < alen t -> slot_index t' h = slot_index t h;
  ha_dist h : 0 <= h < alen t -> slot_dist t' h = slot_dist t h;
  ha_object i : hashed t i -> object_at t' i = object_at t i;
}.

Section hash_agree.
Context (t t' : list ipc_entry) (Hwf : hash_wf t) (Ha : hash_agree t t').

Lemma hash_agree_hashed i : hashed t' i <-> hashed t i.
Proof using Ha.
  destruct Ha as [Hl _ Hi _ _]. unfold hashed. rewrite Hl.
  split; intros (H0&h&Hh&Hx); (split; [done|]); exists h; (split; [done|]).
  - by rewrite <- Hi.
  - by rewrite Hi.
Qed.

Lemma hash_agree_wf : hash_wf t'.
Proof using Hwf Ha.
  destruct Ha as [Hl Hs Hi Hd Ho], Hwf as [Hsz Hlen Hok Hinj].
  assert (forall h, 0 <= h < alen t -> slot_index t h <> 0 ->
    object_at t' (slot_index t h) = object_at t (slot_index t h)) as Hob.
  { intros h Hh Hu. apply Ho. split; [done|by exists h]. }
  split; [congruence|congruence|split|]; rewrite ?Hl.
  - intros h Hh. rewrite Hi, Hd by done. intros Hu. unfold home_of. rewrite Hl, Hob by done.
    by apply so_slot.
  - intros h Hh. rewrite Hi, Hd by done. intros Hu Hpos.
    pose proof (prev_slot_range _ Hlen _ Hh). rewrite Hi, Hd by done. by apply so_prev.
  - intros h h'. rewrite Hl. intros Hh Hh'. rewrite !Hi by done. intros Hu Hu'.
    rewrite !Hob by done. by apply Hinj.
Qed.

Lemma hash_agree_map : hash_map t' = hash_map t.
Proof using Hwf Ha.
  apply hash_map_ext; [apply hash_agree_wf|]. intros o i.
  rewrite hash_map_lookup, hash_agree_hashed by done.
  split; intros [Hh <-]; (split; [done|]); [|symmetry]; by apply ha_object.
Qed.

Lemma hash_agree_count : hash_count t' = hash_count t.
Proof using Hwf Ha.
  rewrite <- !hash_map_size by (apply hash_agree_wf || done). by rewrite hash_agree_map.
Qed.
End hash_agree.

(** Writing entry [i] without touching its slot fields. *)
Lemma hash_agree_aset t i e :
  hash_wf t -> 0 <= i < alen t -> ie_dist e = slot_dist t i -> ie_index e = slot_index t i ->
  (i = 0 -> ie_bits e = ie_bits (anth t 0)) ->
  (hashed t i -> ie_object e = object_at t i) ->
  hash_agree t (aset t i e).
Proof.
  intros Hwf Hi Hd Hx Hb Ho. split.
  - apply alen_aset.
  - rewrite anth_aset by lia. destruct (Z.eqb_spec i 0); [auto|done].
  - intros h Hh. unfold slot_index in *. rewrite anth_aset by lia. by destruct (Z.eqb_spec i h) as [<-|].
  - intros h Hh. unfold slot_dist in *. rewrite anth_aset by lia. by destruct (Z.eqb_spec i h) as [<-|].
  - intros j Hj. pose proof (hashed_range t j Hwf Hj).
    unfold object_at. rewrite anth_aset by lia. destruct (Z.eqb_spec i j) as [<-|]; [by apply Ho|done].
Qed.
