(* ===== verification/IpcHashSpec.v ===== *)
(** * What the reverse hash table promises

    A sequence of insertions, deletions and lookups on the table embedded in
    an entry array behaves like the same sequence on a finite map, as long as
    no more than [IPC_ENTRY_DIST_MAX + 1] entries are hashed at once; past that
    bound the pegged distances make a lookup miss an element. *)

From S2P Require Import Prelude MachPort IpcHash.

(** ** Sequences of table operations *)
Inductive hash_op :=
| HInsert (obj index : Z)
| HDelete (obj index : Z)
| HLookup (obj : Z).

Section run.
Context `{KernelConfig}.

Definition hash_step (t : list ipc_entry) (op : hash_op) : outcome (option Z * list ipc_entry) :=
  match op with
  | HInsert obj index => let! t' := ipc_hash_table_insert t obj index in Done (None, t')
  | HDelete obj index => let! t' := ipc_hash_table_delete t obj index in Done (None, t')
  | HLookup obj => let! r := ipc_hash_table_lookup t obj in Done (snd <$> r, t)
  end.

Fixpoint hash_run (t : list ipc_entry) (ops : list hash_op)
    : outcome (list (option Z) * list ipc_entry) :=
  match ops with
  | [] => Done ([], t)
  | op :: ops =>
    let! (r, t1) := hash_step t op in
    let! (rs, t2) := hash_run t1 ops in
    Done (r :: rs, t2)
  end.
End run.

(** ** The abstract machine: a map from objects to entry indexes

    [ob i] is the object of entry [i] and [n] the table size; an operation is
    refused ([None]) where the callers' contract does not hold. *)
Definition spec_step (ob : Z -> Z) (n : Z) (m : gmap Z Z) (op : hash_op)
    : option (option Z * gmap Z Z) :=
  match op with
  | HInsert obj index =>
      if decide (0 < index < n /\ obj <> IO_NULL /\ ob index = obj /\ m !! obj = None /\
                 Z.of_nat (size m) <= IPC_ENTRY_DIST_MAX)
      then Some (None, <[obj := index]> m) else None
  | HDelete obj index =>
      if decide (m !! obj = Some index) then Some (None, delete obj m) else None
  | HLookup obj => Some (m !! obj, m)
  end.

Fixpoint spec_run (ob : Z -> Z) (n : Z) (m : gmap Z Z) (ops : list hash_op)
    : option (list (option Z) * gmap Z Z) :=
  match ops with
  | [] => Some ([], m)
  | op :: ops =>
    '(r, m1) ← spec_step ob n m op;
    '(rs, m2) ← spec_run ob n m1 ops;
    Some (r :: rs, m2)
  end.

Lemma spec_step_ext ob ob' n m op :
  (forall i, 0 < i < n -> ob i = ob' i) -> spec_step ob n m op = spec_step ob' n m op.
Proof.
  intros Hob. destruct op; simpl; try done.
  apply decide_ext. split; intros (?&?&?&?); (split; [done|split; [done|split; [|done]]]);
    [rewrite <- Hob|rewrite Hob]; done.
Qed.

Lemma spec_run_ext ob ob' n ops : forall m,
  (forall i, 0 < i < n -> ob i = ob' i) -> spec_run ob n m ops = spec_run ob' n m ops.
Proof.
  induction ops as [|op ops IH]; intros m Hob; simpl; [done|].
  rewrite (spec_step_ext ob ob') by done.
  destruct (spec_step ob' n m op) as [[r m1]|]; simpl; [by rewrite IH|done].
Qed.

Lemma hash_step_refines `{KernelConfig} t op r m' :
  hash_wf t -> spec_step (object_at t) (alen t) (hash_map t) op = Some (r, m') ->
  exists t', hash_step t op = Done (r, t') /\ hash_wf t' /\ same_cores t t' /\ hash_map t' = m'.
Proof.
  intros Hwf. destruct op as [obj i|obj i|obj]; simpl.
  - case_decide as Hp; [|done]. destruct Hp as (?&?&?&?&?). intros [= <- <-].
    rewrite hash_map_size in * by done.
    destruct (ipc_hash_table_insert_ok t Hwf obj i) as (t'&->&?&?&?); try done. by exists t'.
  - case_decide; [|done]. intros [= <- <-].
    destruct (ipc_hash_table_delete_ok t Hwf obj i) as (t'&->&?&?&?); [done|]. by exists t'.
  - intros [= <- <-]. rewrite ipc_hash_table_lookup_ok by done. exists t. simpl.
    split; [|done]. by destruct (hash_map t !! obj).
Qed.

Definition witness_table : list ipc_entry :=
  [mk_ipc_entry 0 5 0 0 0; mk_ipc_entry 0x1000 0x10001 0 0 0; mk_ipc_entry 0x2000 0x10001 0 0 0;
   mk_ipc_entry 0 0 0 0 0; mk_ipc_entry 0 0 0 0 0].

(** C1. The reverse hash table implements a finite map: any sequence of
    [ipc_hash_table_insert], [ipc_hash_table_delete] and
    [ipc_hash_table_lookup] calls that the abstract map accepts runs to
    completion on the entry array, in development and release kernels, with the same
    lookup results; the final array is well formed, represents the final
    map, and no field of an entry but the two hash fields has changed. *)
Theorem hash_run_refines `{KernelConfig} ops t rs m' :
  hash_wf t ->
  spec_run (object_at t) (alen t) (hash_map t) ops = Some (rs, m') ->
  exists t', hash_run t ops = Done (rs, t') /\ hash_wf t' /\ same_cores t t' /\ hash_map t' = m'.
Proof.
  revert t rs m'. induction ops as [|op ops IH]; intros t rs m' Hwf; simpl.
  { intros [= <- <-]. by exists t. }
  destruct (spec_step _ _ _ _) as [[r m1]|] eqn:Hstep; simpl; [|done].
  destruct (hash_step_refines t op r m1 Hwf Hstep) as (t1&->&Hwf1&Hc1&<-). simpl.
  destruct (spec_run _ _ _ ops) as [[rs2 m2]|] eqn:Hrun; simpl; [|done]. intros [= <- <-].
  pose proof (same_cores_alen _ _ Hc1) as Hl.
  rewrite (spec_run_ext _ (object_at t1)), Hl in Hrun
    by (intros; apply same_cores_object; [done|lia]).
  destruct (IH t1 rs2 m2 Hwf1 Hrun) as (t2&->&?&?&?). exists t2. simpl.
  split; [done|]. split; [done|]. split; [by etransitivity|done].
Qed.

Lemma hash_run_refines_witness :
  let t := witness_table in
  let ops := [HInsert 0x1000 1; HInsert 0x2000 2; HLookup 0x1000; HDelete 0x1000 1;
              HLookup 0x1000; HLookup 0x2000] in
  exists t', @hash_run DEVELOPMENT t ops = Done ([None; None; Some 1; None; None; Some 2], t') /\
    hash_wf t'.
Proof.
  cbv zeta.
  destruct (@hash_run_refines DEVELOPMENT
    [HInsert 0x1000 1; HInsert 0x2000 2; HLookup 0x1000; HDelete 0x1000 1;
     HLookup 0x1000; HLookup 0x2000]
    witness_table [None; None; Some 1; None; None; Some 2] {[0x2000 := 2]})
    as (t'&Hr&Hwf&_).
  - apply hash_wf_empty; [done|done|by repeat constructor].
  - vm_compute. reflexivity.
  - exists t'. split; [exact Hr|exact Hwf].
Defined.

(** ** Past the bound *)
Section past_the_peg.
Definition peg_size : Z := 4266.
Definition peg_home0 (k : Z) : Z := 0xffff00000001df70 + k * 2 ^ 36.
Definition peg_z : Z := 0xffff00000000b2f0.
Definition peg_y : Z := 0xfffe00000001df70.
(** 4096 entries whose objects all hash to slot 0, in slots 0 to 4095;
    entries 4097 ([peg_z], home slot 1) and 4098 ([peg_y], home slot 0) not
    hashed yet. *)
Definition peg_table : list ipc_entry :=
  tabulate peg_size (fun h => mk_ipc_entry
    (if h =? 0 then 0 else if h <=? 4096 then peg_home0 (h - 1)
     else if h =? 4097 then peg_z else if h =? 4098 then peg_y else 0)
    (if h =? 0 then peg_size else 0x10001)
    (if h <? 4096 then h else 0)
    (if h <? 4096 then h + 1 else 0)
    0).

(** Addresses 64 GB apart collide: only bits 4 to 35 reach the hash. *)
Lemma os_hash_high_bits p k :
  os_hash_kernel_pointer (p + k * 2 ^ 36) = os_hash_kernel_pointer p.
Proof.
  unfold os_hash_kernel_pointer.
  assert (forall x, u32 (u64 (Z.shiftr (p + x * 2 ^ 36) 4 * 0x5052acdb)) =
                    u32 (Z.shiftr p 4 * 0x5052acdb)) as Hu.
  { intros x. unfold u32, u64. rewrite Z.shiftr_div_pow2, Z.shiftr_div_pow2 by lia.
    replace (p + x * 2 ^ 36) with (p + (x * 2 ^ 32) * 2 ^ 4) by lia.
    rewrite Z.div_add, Z.mod_mod_divide by (done || by exists (2 ^ 32)).
    replace ((p / 2 ^ 4 + x * 2 ^ 32) * 0x5052acdb)
      with (p / 2 ^ 4 * 0x5052acdb + (x * 0x5052acdb) * 2 ^ 32) by lia.
    by rewrite Z.mod_add by lia. }
  rewrite (Hu k). pose proof (Hu 0) as H0. rewrite Z.mul_0_l, Z.add_0_r in H0. by rewrite H0.
Qed.

Lemma peg_home k : IH_TABLE_HASH (peg_home0 k) peg_size = 0.
Proof. unfold IH_TABLE_HASH, peg_home0. by rewrite os_hash_high_bits. Qed.

Lemma peg_alen : alen peg_table = peg_size.
Proof. by apply alen_tabulate. Qed.

Lemma peg_slot h : 0 <= h < peg_size -> slot_index peg_table h <> 0 ->
  h < 4096 /\ slot_index peg_table h = h + 1 /\ slot_dist peg_table h = h /\
  object_at peg_table (h + 1) = peg_home0 h.
Proof.
  intros Hh. unfold slot_index, slot_dist, object_at, peg_table, peg_size in *.
  rewrite anth_tabulate by done. simpl. destruct (Z.ltb_spec h 4096); [|done]. intros _.
  rewrite anth_tabulate by lia. simpl.
  destruct (Z.eqb_spec (h + 1) 0); [lia|]. destruct (Z.leb_spec (h + 1) 4096); [|lia].
  replace (h + 1 - 1) with h by lia. done.
Qed.

Lemma peg_table_wf : hash_wf peg_table.
Proof.
  split; rewrite ?peg_alen; [done|done|split; rewrite peg_alen|].
  - intros h Hh Hu. destruct (peg_slot h Hh Hu) as (Hlt&Hi&Hd&Ho). unfold home_of.
    rewrite peg_alen, Hi, Hd, Ho, peg_home, DIST_MAX_val by lia.
    unfold displacement, peg_home0, IO_NULL, peg_size. zsolve.
  - intros h Hh Hu Hpos. destruct (peg_slot h Hh Hu) as (Hlt&Hi&Hd&Ho).
    unfold prev_slot, peg_size in *. destruct (Z.eqb_spec h 0); [lia|].
    assert (slot_index peg_table (h - 1) <> 0) as Hu'.
    { unfold slot_index, peg_table. rewrite anth_tabulate by (unfold peg_size; lia). simpl. zsolve. }
    destruct (peg_slot (h - 1)) as (_&Hi'&Hd'&_); [unfold peg_size; lia|done|]. lia.
  - intros h h'. rewrite peg_alen. intros Hh Hh' Hu Hu'.
    destruct (peg_slot h Hh Hu) as (Hlt&Hi&Hd&Ho), (peg_slot h' Hh' Hu') as (Hlt'&Hi'&Hd'&Ho').
    rewrite Hi, Hi', Ho, Ho'. unfold peg_home0. lia.
Qed.

(** What stays true of the table while slots past 4094 change. *)
Record peg_prefix (t : list ipc_entry) : Prop := {
  pp_cores : same_cores peg_table t;
  pp_slot j : 0 <= j < 4095 -> slot_index t j = j + 1 /\ slot_dist t j = j;
}.

Lemma peg_prefix_alen t : peg_prefix t -> alen t = peg_size.
Proof. intros [Hc _]. by rewrite <- (same_cores_alen _ _ Hc), peg_alen. Qed.

Lemma peg_prefix_table : peg_prefix peg_table.
Proof.
  split; [done|]. intros j Hj. unfold slot_index, slot_dist, peg_table.
  rewrite !anth_tabulate by (unfold peg_size; lia). simpl. zsolve.
Qed.

Lemma peg_prefix_put t h i d : 4095 <= h < peg_size -> peg_prefix t -> peg_prefix (put_slot t h i d).
Proof.
  intros Hh Hp. pose proof (peg_prefix_alen t Hp). destruct Hp as [Hc Hs]. split.
  - rewrite Hc. apply same_cores_put. lia.
  - intros j Hj. rewrite slot_index_put, slot_dist_put by lia.
    destruct (Z.eqb_spec h j); [lia|]. by apply Hs.
Qed.

(** The object of an entry of the table. *)
Lemma peg_object t i : peg_prefix t -> 0 <= i < peg_size ->
  object_at t i = if i =? 0 then 0 else if i <=? 4096 then peg_home0 (i - 1)
                  else if i =? 4097 then peg_z else if i =? 4098 then peg_y else 0.
Proof.
  intros Hp Hi. destruct Hp as [Hc _]. rewrite <- (same_cores_object _ _ i Hc) by (by rewrite peg_alen).
  unfold object_at, peg_table. by rewrite anth_tabulate.
Qed.

Lemma peg_skip_step h d : 0 <= h < 4265 -> d < IPC_ENTRY_DIST_MAX ->
  next_slot peg_size h = h + 1 /\ peg_incr d = d + 1.
Proof. intros. unfold next_slot, peg_incr, peg_size. zsolve. Qed.

(** Walking over the prefix. *)
Lemma peg_insert_skip t c fuel k : forall h d, peg_prefix t ->
  0 <= d -> d <= h -> h + Z.of_nat k <= 4095 ->
  ipc_hash_insert_loop (k + fuel) t peg_size h d c =
  ipc_hash_insert_loop fuel t peg_size (h + Z.of_nat k) (d + Z.of_nat k) c.
Proof.
  induction k as [|k IH]; intros h d Hp Hd Hdh Hk; [by rewrite !Z.add_0_r|].
  pose proof (peg_prefix_alen t Hp) as Hl. destruct (pp_slot t Hp h) as [Hi Hdi]; [lia|].
  destruct (peg_skip_step h d) as [Hn Hpi]; [lia|rewrite DIST_MAX_val; lia|].
  simpl Nat.add. rewrite <- Hl at 1. rewrite insert_walk by (unfold peg_size in *; lia).
  rewrite Hl, Hn, Hpi, IH by (done || lia). f_equal; lia.
Qed.

Lemma peg_lookup_skip `{KernelConfig} t fuel k : forall h, peg_prefix t ->
  0 <= h -> h + Z.of_nat k <= 4095 ->
  ipc_hash_lookup_loop (k + fuel) t peg_y peg_size h h =
  ipc_hash_lookup_loop fuel t peg_y peg_size (h + Z.of_nat k) (h + Z.of_nat k).
Proof.
  induction k as [|k IH]; intros h Hp Hh Hk; [by rewrite !Z.add_0_r|].
  pose proof (peg_prefix_alen t Hp) as Hl. destruct (pp_slot t Hp h) as [Hi Hdi]; [lia|].
  destruct (peg_skip_step h h) as [Hn Hpi]; [lia|rewrite DIST_MAX_val; lia|].
  simpl Nat.add. rewrite <- Hl at 1. rewrite lookup_miss.
  - rewrite Hl, Hn, Hpi, IH by (done || lia). f_equal; lia.
  - unfold peg_size in *. lia.
  - unfold peg_size in *. lia.
  - lia.
  - rewrite Hi, peg_object by (done || unfold peg_size; lia). unfold peg_y, peg_home0. zsolve.
Qed.

Lemma peg_find_skip t fuel k : forall h, peg_prefix t -> 0 <= h -> h + Z.of_nat k <= 4095 ->
  ipc_hash_delete_find (k + fuel) t peg_size h 4096 =
  ipc_hash_delete_find fuel t peg_size (h + Z.of_nat k) 4096.
Proof.
  induction k as [|k IH]; intros h Hp Hh Hk; [by rewrite !Z.add_0_r|].
  pose proof (peg_prefix_alen t Hp) as Hl. destruct (pp_slot t Hp h) as [Hi Hdi]; [lia|].
  destruct (peg_skip_step h 0) as [Hn _]; [lia|done|].
  simpl Nat.add. cbn [ipc_hash_delete_find]. rewrite aget_in by (unfold peg_size in *; lia). cbn [obind].
  change (ie_index (anth t h)) with (slot_index t h). rewrite Hi.
  destruct (Z.eqb_spec (h + 1) 4096); [lia|]. rewrite Hn, IH by (done || lia). f_equal. lia.
Qed.

(** The operations up to their loops. *)
Section enter.
Context `{KernelConfig} (t : list ipc_entry) (Hp : peg_prefix t).

Lemma peg_head : 0 < alen t /\ ie_size (anth t 0) = peg_size.
Proof using Hp.
  pose proof (peg_prefix_alen t Hp) as Hl. destruct Hp as [Hc _]. split; [by rewrite Hl|].
  by rewrite (same_cores_size _ _ Hc) by (by rewrite peg_alen).
Qed.

Lemma peg_insert_enter obj i :
  0 < i < peg_size -> object_at t i = obj -> obj <> IO_NULL ->
  ipc_hash_table_insert t obj i =
  ipc_hash_insert_loop (Z.to_nat peg_size) t peg_size (IH_TABLE_HASH obj peg_size) 0 i.
Proof using Hp.
  intros Hi Ho Hn. destruct peg_head as [Hl Hs]. pose proof (peg_prefix_alen t Hp).
  unfold ipc_hash_table_insert, assert_entry_object. rewrite !aget_in by lia. cbn [obind].
  change (ie_object (anth t i)) with (object_at t i). rewrite Hs, !kassert_true by zsolve.
  by destruct MACH_ASSERT.
Qed.

Lemma peg_delete_enter obj i :
  0 < i < peg_size -> object_at t i = obj -> obj <> IO_NULL ->
  ipc_hash_table_delete t obj i =
  let! hindex := ipc_hash_delete_find (Z.to_nat peg_size) t peg_size (IH_TABLE_HASH obj peg_size) i in
  ipc_hash_delete_shift (Z.to_nat peg_size) t peg_size hindex.
Proof using Hp.
  intros Hi Ho Hn. destruct peg_head as [Hl Hs]. pose proof (peg_prefix_alen t Hp).
  unfold ipc_hash_table_delete, assert_entry_object, MACH_PORT_NULL.
  rewrite !aget_in by lia. cbn [obind].
  change (ie_object (anth t i)) with (object_at t i). rewrite Hs, !kassert_true by zsolve.
  by destruct MACH_ASSERT.
Qed.

Lemma peg_lookup_enter :
  ipc_hash_table_lookup t peg_y =
  ipc_hash_lookup_loop (Z.to_nat 4095 + S (S (S (Z.to_nat 4264)))) t peg_y peg_size 0 0.
Proof using Hp.
  destruct peg_head as [Hl Hs]. unfold ipc_hash_table_lookup. rewrite aget_in by lia. cbn [obind].
  rewrite Hs. change (peg_y =? IO_NULL) with false. cbv iota.
  replace (IH_TABLE_HASH peg_y peg_size) with 0 by done.
  replace (Z.to_nat (IPC_ENTRY_DIST_MAX + peg_size + 1))
    with (Z.to_nat 4095 + S (S (S (Z.to_nat 4264))))%nat by (rewrite DIST_MAX_val; unfold peg_size; lia).
  done.
Qed.
End enter.

Definition peg_t1 : list ipc_entry := put_slot peg_table 4096 4097 4095.
Definition peg_t2 : list ipc_entry := put_slot peg_t1 4097 4098 4095.
Definition peg_t3 : list ipc_entry :=
  put_slot (put_slot (put_slot peg_t2 4095 4097 4094) 4096 4098 4095) 4097 0 0.

Lemma peg_prefix_t1 : peg_prefix peg_t1.
Proof. apply peg_prefix_put; [done|apply peg_prefix_table]. Qed.
Lemma peg_prefix_t2 : peg_prefix peg_t2.
Proof. apply peg_prefix_put; [done|apply peg_prefix_t1]. Qed.
Lemma peg_prefix_t3 : peg_prefix peg_t3.
Proof. do 3 (apply peg_prefix_put; [done|]). apply peg_prefix_t2. Qed.

(** Slots of the tables. *)
Lemma peg_table_index h : 0 <= h < peg_size ->
  slot_index peg_table h = if h <? 4096 then h + 1 else 0.
Proof. intros. unfold slot_index, peg_table. by rewrite anth_tabulate. Qed.
Lemma peg_table_dist h : 0 <= h < peg_size ->
  slot_dist peg_table h = if h <? 4096 then h else 0.
Proof. intros. unfold slot_dist, peg_table. by rewrite anth_tabulate. Qed.

Ltac peg_slots :=
  unfold peg_t3, peg_t2, peg_t1;
  repeat (rewrite ?slot_index_put, ?slot_dist_put by
    (rewrite ?alen_put_slot, ?peg_alen; unfold peg_size; lia));
  rewrite ?peg_table_index, ?peg_table_dist by (unfold peg_size; lia);
  simpl; lia.

#[local] Opaque peg_table alen slot_index slot_dist object_at.

Ltac peg_rng := unfold peg_size; lia.
Ltac peg_obj := unfold peg_z, peg_y, peg_home0, IO_NULL; simpl; lia.

Lemma peg_step1 `{KernelConfig} : ipc_hash_table_insert peg_table peg_z 4097 = Done peg_t1.
Proof.
  pose proof peg_prefix_table as Hp. rewrite peg_insert_enter; [|done..].
  replace (Z.to_nat peg_size) with (Z.to_nat 4094 + S (S (Z.to_nat 170)))%nat
    by (unfold peg_size; lia).
  replace (IH_TABLE_HASH peg_z peg_size) with 1 by done.
  rewrite peg_insert_skip; [|exact Hp|lia..]. rewrite Z2Nat.id by lia.
  rewrite <- peg_alen. rewrite insert_walk; [|done|peg_slots..]. rewrite peg_alen.
  change (next_slot peg_size (1 + 4094)) with 4096. change (peg_incr (0 + 4094)) with 4095.
  rewrite <- peg_alen. by rewrite insert_land by (done || peg_slots).
Qed.

Lemma peg_step2 `{KernelConfig} : ipc_hash_table_insert peg_t1 peg_y 4098 = Done peg_t2.
Proof.
  pose proof peg_prefix_t1 as Hp. pose proof (peg_prefix_alen _ Hp) as Hl.
  rewrite peg_insert_enter; [|exact Hp|peg_rng|rewrite (peg_object _ _ Hp) by peg_rng; reflexivity|peg_obj].
  replace (Z.to_nat peg_size) with (Z.to_nat 4095 + S (S (S (Z.to_nat 168))))%nat
    by (unfold peg_size; lia).
  replace (IH_TABLE_HASH peg_y peg_size) with 0 by reflexivity.
  rewrite peg_insert_skip; [|exact Hp|lia..]. rewrite Z2Nat.id by lia.
  rewrite <- Hl at 1. rewrite insert_walk; [|rewrite Hl; peg_rng|peg_slots..]. rewrite Hl.
  change (next_slot peg_size (0 + 4095)) with 4096. change (peg_incr (0 + 4095)) with 4095.
  rewrite <- Hl at 1. rewrite insert_walk; [|rewrite Hl; peg_rng|peg_slots..]. rewrite Hl.
  change (next_slot peg_size 4096) with 4097. change (peg_incr 4095) with 4095.
  rewrite <- Hl at 1. rewrite insert_land; [reflexivity|rewrite Hl; peg_rng|peg_slots].
Qed.

Lemma peg_found `{KernelConfig} :
  exists n, ipc_hash_table_lookup peg_t2 peg_y = Done (Some (n, 4098)).
Proof.
  pose proof peg_prefix_t2 as Hp. pose proof (peg_prefix_alen _ Hp) as Hl.
  assert (slot_index peg_t2 4095 = 4096) as H0 by peg_slots.
  assert (slot_index peg_t2 4096 = 4097) as H1 by peg_slots.
  assert (slot_index peg_t2 4097 = 4098) as H2 by peg_slots.
  assert (4095 = slot_dist peg_t2 4097) as Hd by peg_slots.
  eexists. rewrite peg_lookup_enter by exact Hp. rewrite peg_lookup_skip; [|exact Hp|lia..].
  rewrite Z2Nat.id by lia. change (0 + 4095) with 4095.
  rewrite <- Hl at 1. rewrite lookup_miss;
    [|rewrite Hl; peg_rng|rewrite Hl, H0; peg_rng|peg_slots|rewrite H0, (peg_object _ _ Hp) by peg_rng; peg_obj].
  rewrite Hl. change (next_slot peg_size 4095) with 4096. change (peg_incr 4095) with 4095.
  rewrite <- Hl at 1. rewrite lookup_miss;
    [|rewrite Hl; peg_rng|rewrite Hl, H1; peg_rng|peg_slots|rewrite H1, (peg_object _ _ Hp) by peg_rng; peg_obj].
  rewrite Hl. change (next_slot peg_size 4096) with 4097. change (peg_incr 4095) with 4095.
  rewrite <- Hl at 1. rewrite Hd.
  rewrite lookup_hit; [|rewrite Hl; peg_rng|rewrite Hl, H2; peg_rng|rewrite H2, (peg_object _ _ Hp) by peg_rng; peg_obj].
  rewrite H2. reflexivity.
Qed.

(** One shift of the deletion. *)
Lemma peg_shift t fuel h i d d' :
  alen t = peg_size -> 0 <= h < 4200 -> 0 < i < peg_size ->
  slot_index t (h + 1) = i -> slot_dist t (h + 1) = d ->
  d <> 0 -> ipc_hash_shift_dist t peg_size h i d = Done d' ->
  ipc_hash_delete_shift (S fuel) t peg_size h =
  ipc_hash_delete_shift fuel (put_slot t h i d') peg_size (h + 1).
Proof.
  intros Hl Hh Hi Hsi Hsd Hd Hd'. cbn [ipc_hash_delete_shift].
  assert (next_slot peg_size h = h + 1) as -> by (unfold next_slot, peg_size; zsolve).
  rewrite !aget_in by (rewrite Hl; unfold peg_size; lia). cbn [obind].
  change (ie_index (anth t (h + 1))) with (slot_index t (h + 1)).
  change (ie_dist (anth t (h + 1))) with (slot_dist t (h + 1)). rewrite Hsi, Hsd.
  destruct (Z.eqb_spec i 0); [lia|]. destruct (Z.eqb_spec d 0); [lia|]. simpl orb. cbv iota.
  by rewrite Hd'.
Qed.

Lemma peg_step3 `{KernelConfig} :
  ipc_hash_table_delete peg_t2 (peg_home0 4095) 4096 = Done peg_t3.
Proof.
  pose proof peg_prefix_t2 as Hp. pose proof (peg_prefix_alen _ Hp) as Hl.
  rewrite peg_delete_enter; [|exact Hp|peg_rng|rewrite (peg_object _ _ Hp) by peg_rng; reflexivity|peg_obj].
  replace (IH_TABLE_HASH (peg_home0 4095) peg_size) with 0 by reflexivity.
  replace (Z.to_nat peg_size) with (Z.to_nat 4095 + S (Z.to_nat 170))%nat at 1
    by (unfold peg_size; lia).
  rewrite peg_find_skip; [|exact Hp|lia..]. rewrite Z2Nat.id by lia. change (0 + 4095) with 4095.
  cbn [ipc_hash_delete_find]. rewrite aget_in by (rewrite Hl; peg_rng). cbn [obind].
  rewrite fold_slot_index.
  replace (slot_index peg_t2 4095) with 4096 by peg_slots. simpl Z.eqb. cbv iota. cbn [obind].
  replace (Z.to_nat peg_size) with (S (S (S (Z.to_nat 4263)))) by (unfold peg_size; lia).
  rewrite (peg_shift _ _ 4095 4097 4095 4094); [|exact Hl|lia|peg_rng|peg_slots|peg_slots|lia|].
  - set (ta := put_slot peg_t2 4095 4097 4094).
    assert (peg_prefix ta) as Hpa by (apply peg_prefix_put; [peg_rng|assumption]).
    rewrite (peg_shift _ _ (4095 + 1) 4098 4095 4095);
      [|exact (peg_prefix_alen _ Hpa)|lia|peg_rng|unfold ta; peg_slots|unfold ta; peg_slots|lia|].
    + set (tb := put_slot ta (4095 + 1) 4098 4095).
      assert (peg_prefix tb) as Hpb by (apply peg_prefix_put; [peg_rng|assumption]).
      pose proof (peg_prefix_alen _ Hpb) as Hlb.
      cbn [ipc_hash_delete_shift]. change (next_slot peg_size (4095 + 1 + 1)) with 4098.
      rewrite !aget_in by (rewrite Hlb; peg_rng). cbn [obind].
      rewrite fold_slot_index.
      replace (slot_index tb 4098) with 0 by (unfold tb, ta; peg_slots). reflexivity.
    + unfold ipc_hash_shift_dist. rewrite aget_in by (rewrite (peg_prefix_alen _ Hpa); peg_rng).
      cbn [obind]. rewrite fold_object_at.
      rewrite (peg_object _ _ Hpa) by peg_rng. reflexivity.
  - unfold ipc_hash_shift_dist. rewrite aget_in by (rewrite Hl; peg_rng).
    cbn [obind]. rewrite fold_object_at.
    rewrite (peg_object _ _ Hp) by peg_rng. reflexivity.
Qed.

Lemma peg_missed `{KernelConfig} : ipc_hash_table_lookup peg_t3 peg_y = Done None.
Proof.
  pose proof peg_prefix_t3 as Hp. pose proof (peg_prefix_alen _ Hp) as Hl.
  rewrite peg_lookup_enter by exact Hp. rewrite peg_lookup_skip; [|exact Hp|lia..].
  rewrite Z2Nat.id by lia. change (0 + 4095) with 4095.
  rewrite <- Hl at 1. apply lookup_stop; [rewrite Hl; peg_rng|]. right. peg_slots.
Qed.

Definition peg_ops : list hash_op :=
  [HInsert peg_z 4097; HInsert peg_y 4098; HLookup peg_y; HDelete (peg_home0 4095) 4096;
   HLookup peg_y].

(** C38. Past the bound of C1 the table loses an element: from a well-formed
    table of 4096 entries with the same home slot, hashing two more objects
    and unhashing one of the first 4096 leaves the second new object in its
    slot, but [ipc_hash_table_lookup] of it finds nothing, because
    the deletion gives an element whose distance was pegged its exact distance
    back while the probe compares against the pegged one. *)
Theorem hash_pegged_lookup_misses `{KernelConfig} :
  hash_wf peg_table /\
  exists t', hash_run peg_table peg_ops = Done ([None; None; Some 4098; None; None], t') /\
  slot_index t' 4096 = 4098 /\ object_at t' 4098 = peg_y.
Proof.
  split; [exact peg_table_wf|]. exists peg_t3. split.
  - cbn [hash_run hash_step peg_ops]. rewrite peg_step1. cbn [obind]. rewrite peg_step2.
    cbn [obind]. destruct peg_found as [n ->]. cbn [obind]. rewrite peg_step3. cbn [obind].
    by rewrite peg_missed.
  - split; [peg_slots|]. rewrite (peg_object _ _ peg_prefix_t3) by peg_rng. reflexivity.
Qed.
End past_the_peg.
