(* ===== verification/IpcState.v ===== *)
(** * The state of the capability layer

    The data the IPC code works on: an entry table (one space at a time, the
    operand of an operation), the ports and port sets that entries refer to,
    the port timestamp, and the trace of calls into code outside this
    development (generated notification stubs, guard exceptions, kernel
    objects, knotes).  Addresses are integers; fields that a C union overlays
    are one field. *)

From S2P Require Import Prelude MachPort KmsgQueue KmsgSpec IpcHash Prng.

(** ** Spaces ([struct ipc_space]) *)

(** [is_table] is [None] where the hazard pointer is NULL (a dead space);
    [is_grower] is 0 for [THREAD_NULL]; [is_table_next] is an index of
    [ipc_table_entries]; [is_self] is the space's own address. *)
Record ipc_space := mk_ipc_space {
  is_self : Z;
  is_bits : Z;
  is_table_hashed : Z;
  is_table_free : Z;
  is_table : option (list ipc_entry);
  is_table_next : Z;
  is_grower : Z;
  is_label : Z;
  is_low_mod : Z;
  is_high_mod : Z;
  is_bool_gen : bool_gen;
  is_entropy : list Z;
  is_node_id : Z;
  is_table_size_soft_limit : Z;
  is_table_size_hard_limit : Z;
}.

Definition set_is_self (v : Z) (x : ipc_space) : ipc_space :=
  mk_ipc_space v (is_bits x) (is_table_hashed x) (is_table_free x) (is_table x) (is_table_next x)
    (is_grower x) (is_label x) (is_low_mod x) (is_high_mod x) (is_bool_gen x) (is_entropy x)
    (is_node_id x) (is_table_size_soft_limit x) (is_table_size_hard_limit x).
Definition set_is_bits (v : Z) (x : ipc_space) : ipc_space :=
  mk_ipc_space (is_self x) v (is_table_hashed x) (is_table_free x) (is_table x) (is_table_next x)
    (is_grower x) (is_label x) (is_low_mod x) (is_high_mod x) (is_bool_gen x) (is_entropy x)
    (is_node_id x) (is_table_size_soft_limit x) (is_table_size_hard_limit x).
Definition set_is_table_hashed (v : Z) (x : ipc_space) : ipc_space :=
  mk_ipc_space (is_self x) (is_bits x) v (is_table_free x) (is_table x) (is_table_next x)
    (is_grower x) (is_label x) (is_low_mod x) (is_high_mod x) (is_bool_gen x) (is_entropy x)
    (is_node_id x) (is_table_size_soft_limit x) (is_table_size_hard_limit x).
Definition set_is_table_free (v : Z) (x : ipc_space) : ipc_space :=
  mk_ipc_space (is_self x) (is_bits x) (is_table_hashed x) v (is_table x) (is_table_next x)
    (is_grower x) (is_label x) (is_low_mod x) (is_high_mod x) (is_bool_gen x) (is_entropy x)
    (is_node_id x) (is_table_size_soft_limit x) (is_table_size_hard_limit x).
Definition set_is_table (v : option (list ipc_entry)) (x : ipc_space) : ipc_space :=
  mk_ipc_space (is_self x) (is_bits x) (is_table_hashed x) (is_table_free x) v (is_table_next x)
    (is_grower x) (is_label x) (is_low_mod x) (is_high_mod x) (is_bool_gen x) (is_entropy x)
    (is_node_id x) (is_table_size_soft_limit x) (is_table_size_hard_limit x).
Definition set_is_table_next (v : Z) (x : ipc_space) : ipc_space :=
  mk_ipc_space (is_self x) (is_bits x) (is_table_hashed x) (is_table_free x) (is_table x) v
    (is_grower x) (is_label x) (is_low_mod x) (is_high_mod x) (is_bool_gen x) (is_entropy x)
    (is_node_id x) (is_table_size_soft_limit x) (is_table_size_hard_limit x).
Definition set_is_grower (v : Z) (x : ipc_space) : ipc_space :=
  mk_ipc_space (is_self x) (is_bits x) (is_table_hashed x) (is_table_free x) (is_table x)
    (is_table_next x) v (is_label x) (is_low_mod x) (is_high_mod x) (is_bool_gen x) (is_entropy x)
    (is_node_id x) (is_table_size_soft_limit x) (is_table_size_hard_limit x).
Definition set_is_label (v : Z) (x : ipc_space) : ipc_space :=
  mk_ipc_space (is_self x) (is_bits x) (is_table_hashed x) (is_table_free x) (is_table x)
    (is_table_next x) (is_grower x) v (is_low_mod x) (is_high_mod x) (is_bool_gen x)
    (is_entropy x) (is_node_id x) (is_table_size_soft_limit x) (is_table_size_hard_limit x).
Definition set_is_low_mod (v : Z) (x : ipc_space) : ipc_space :=
  mk_ipc_space (is_self x) (is_bits x) (is_table_hashed x) (is_table_free x) (is_table x)
    (is_table_next x) (is_grower x) (is_label x) v (is_high_mod x) (is_bool_gen x) (is_entropy x)
    (is_node_id x) (is_table_size_soft_limit x) (is_table_size_hard_limit x).
Definition set_is_high_mod (v : Z) (x : ipc_space) : ipc_space :=
  mk_ipc_space (is_self x) (is_bits x) (is_table_hashed x) (is_table_free x) (is_table x)
    (is_table_next x) (is_grower x) (is_label x) (is_low_mod x) v (is_bool_gen x) (is_entropy x)
    (is_node_id x) (is_table_size_soft_limit x) (is_table_size_hard_limit x).
Definition set_is_bool_gen (v : bool_gen) (x : ipc_space) : ipc_space :=
  mk_ipc_space (is_self x) (is_bits x) (is_table_hashed x) (is_table_free x) (is_table x)
    (is_table_next x) (is_grower x) (is_label x) (is_low_mod x) (is_high_mod x) v (is_entropy x)
    (is_node_id x) (is_table_size_soft_limit x) (is_table_size_hard_limit x).
Definition set_is_entropy (v : list Z) (x : ipc_space) : ipc_space :=
  mk_ipc_space (is_self x) (is_bits x) (is_table_hashed x) (is_table_free x) (is_table x)
    (is_table_next x) (is_grower x) (is_label x) (is_low_mod x) (is_high_mod x) (is_bool_gen x) v
    (is_node_id x) (is_table_size_soft_limit x) (is_table_size_hard_limit x).
Definition set_is_node_id (v : Z) (x : ipc_space) : ipc_space :=
  mk_ipc_space (is_self x) (is_bits x) (is_table_hashed x) (is_table_free x) (is_table x)
    (is_table_next x) (is_grower x) (is_label x) (is_low_mod x) (is_high_mod x) (is_bool_gen x)
    (is_entropy x) v (is_table_size_soft_limit x) (is_table_size_hard_limit x).
Definition set_is_table_size_soft_limit (v : Z) (x : ipc_space) : ipc_space :=
  mk_ipc_space (is_self x) (is_bits x) (is_table_hashed x) (is_table_free x) (is_table x)
    (is_table_next x) (is_grower x) (is_label x) (is_low_mod x) (is_high_mod x) (is_bool_gen x)
    (is_entropy x) (is_node_id x) v (is_table_size_hard_limit x).
Definition set_is_table_size_hard_limit (v : Z) (x : ipc_space) : ipc_space :=
  mk_ipc_space (is_self x) (is_bits x) (is_table_hashed x) (is_table_free x) (is_table x)
    (is_table_next x) (is_grower x) (is_label x) (is_low_mod x) (is_high_mod x) (is_bool_gen x)
    (is_entropy x) (is_node_id x) (is_table_size_soft_limit x) v.

(** ** Ports ([struct ipc_port]) *)

(** [struct ipc_port_request]: [notify] is [ipr_soright]/[ipr_next], [rname] is
    [ipr_name]/[ipr_size]. *)
Record ipc_port_request := mk_ipr { ipr_soright : Z; ipr_name : Z }.
Abbreviation ipr_next := ipr_soright.
Abbreviation ipr_size := ipr_name.
#[global] Instance ipr_inhabited : Inhabited ipc_port_request := populate (mk_ipr 0 0).

(** [ip_psets] lists the port sets the port's wait queue is linked to;
    [ip_receiver] is also [ip_destination] and [ip_timestamp]; [ip_kobject] is
    also [ip_imp_task]; [ip_pdrequest] is the port-destroyed request, which the
    code keeps in the watchport element [ip_twe] while there is one;
    [ip_requests] is the request table with its address; element 0 is the
    table's header, whose [ipr_size] is an index of [ipc_table_requests];
    [imq_messages] is the queue as a sequence of messages with their overrides, which is
    what the circular list of [KmsgQueue] represents; [ip_waitq_valid] is whether the wait
    queue has not been invalidated. *)
Record ipc_port := mk_ipc_port {
  io_bits : Z;
  io_references : Z;
  ip_sprequests : bool;
  ip_spimportant : bool;
  ip_impdonation : bool;
  ip_tempowner : bool;
  ip_guarded : bool;
  ip_strict_guard : bool;
  ip_specialreply : bool;
  ip_sync_link_state : Z;
  ip_sync_bootstrap_checkin : bool;
  ip_immovable_receive : bool;
  ip_no_grant : bool;
  ip_immovable_send : bool;
  ip_tg_block_tracking : bool;
  ip_pinned : bool;
  ip_service_port : bool;
  ip_has_watchport : bool;
  ip_psets : list Z;
  ip_receiver_name : Z;
  imq_seqno : Z;
  imq_msgcount : Z;
  imq_qlimit : Z;
  imq_context : Z;
  ip_receiver : Z;
  ip_kobject : Z;
  ip_twe : Z;
  ip_pdrequest : Z;
  ip_nsrequest : Z;
  ip_requests : option (Z * list ipc_port_request);
  ip_context : Z;
  ip_impcount : Z;
  ip_mscount : Z;
  ip_srights : Z;
  ip_sorights : Z;
  ip_splabel : Z;
  imq_messages : kmsgs;
  ip_fullwaiters : bool;
  ip_waitq_valid : bool;
}.

Definition set_io_bits (v : Z) (x : ipc_port) : ipc_port :=
  mk_ipc_port v (io_references x) (ip_sprequests x) (ip_spimportant x) (ip_impdonation x)
    (ip_tempowner x) (ip_guarded x) (ip_strict_guard x) (ip_specialreply x) (ip_sync_link_state x)
    (ip_sync_bootstrap_checkin x) (ip_immovable_receive x) (ip_no_grant x) (ip_immovable_send x)
    (ip_tg_block_tracking x) (ip_pinned x) (ip_service_port x) (ip_has_watchport x) (ip_psets x)
    (ip_receiver_name x) (imq_seqno x) (imq_msgcount x) (imq_qlimit x) (imq_context x)
    (ip_receiver x) (ip_kobject x) (ip_twe x) (ip_pdrequest x) (ip_nsrequest x) (ip_requests x)
    (ip_context x) (ip_impcount x) (ip_mscount x) (ip_srights x) (ip_sorights x) (ip_splabel x)
    (imq_messages x) (ip_fullwaiters x) (ip_waitq_valid x).
Definition set_io_references (v : Z) (x : ipc_port) : ipc_port :=
  mk_ipc_port (io_bits x) v (ip_sprequests x) (ip_spimportant x) (ip_impdonation x)
    (ip_tempowner x) (ip_guarded x) (ip_strict_guard x) (ip_specialreply x) (ip_sync_link_state x)
    (ip_sync_bootstrap_checkin x) (ip_immovable_receive x) (ip_no_grant x) (ip_immovable_send x)
    (ip_tg_block_tracking x) (ip_pinned x) (ip_service_port x) (ip_has_watchport x) (ip_psets x)
    (ip_receiver_name x) (imq_seqno x) (imq_msgcount x) (imq_qlimit x) (imq_context x)
    (ip_receiver x) (ip_kobject x) (ip_twe x) (ip_pdrequest x) (ip_nsrequest x) (ip_requests x)
    (ip_context x) (ip_impcount x) (ip_mscount x) (ip_srights x) (ip_sorights x) (ip_splabel x)
    (imq_messages x) (ip_fullwaiters x) (ip_waitq_valid x).
Definition set_ip_sprequests (v : bool) (x : ipc_port) : ipc_port :=
  mk_ipc_port (io_bits x) (io_references x) v (ip_spimportant x) (ip_impdonation x)
    (ip_tempowner x) (ip_guarded x) (ip_strict_guard x) (ip_specialreply x) (ip_sync_link_state x)
    (ip_sync_bootstrap_checkin x) (ip_immovable_receive x) (ip_no_grant x) (ip_immovable_send x)
    (ip_tg_block_tracking x) (ip_pinned x) (ip_service_port x) (ip_has_watchport x) (ip_psets x)
    (ip_receiver_name x) (imq_seqno x) (imq_msgcount x) (imq_qlimit x) (imq_context x)
    (ip_receiver x) (ip_kobject x) (ip_twe x) (ip_pdrequest x) (ip_nsrequest x) (ip_requests x)
    (ip_context x) (ip_impcount x) (ip_mscount x) (ip_srights x) (ip_sorights x) (ip_splabel x)
    (imq_messages x) (ip_fullwaiters x) (ip_waitq_valid x).
Definition set_ip_spimportant (v : bool) (x : ipc_port) : ipc_port :=
  mk_ipc_port (io_bits x) (io_references x) (ip_sprequests x) v (ip_impdonation x)
    (ip_tempowner x) (ip_guarded x) (ip_strict_guard x) (ip_specialreply x) (ip_sync_link_state x)
    (ip_sync_bootstrap_checkin x) (ip_immovable_receive x) (ip_no_grant x) (ip_immovable_send x)
    (ip_tg_block_tracking x) (ip_pinned x) (ip_service_port x) (ip_has_watchport x) (ip_psets x)
    (ip_receiver_name x) (imq_seqno x) (imq_msgcount x) (imq_qlimit x) (imq_context x)
    (ip_receiver x) (ip_kobject x) (ip_twe x) (ip_pdrequest x) (ip_nsrequest x) (ip_requests x)
    (ip_context x) (ip_impcount x) (ip_mscount x) (ip_srights x) (ip_sorights x) (ip_splabel x)
    (imq_messages x) (ip_fullwaiters x) (ip_waitq_valid x).
Definition set_ip_impdonation (v : bool) (x : ipc_port) : ipc_port :=
  mk_ipc_port (io_bits x) (io_references x) (ip_sprequests x) (ip_spimportant x) v
    (ip_tempowner x) (ip_guarded x) (ip_strict_guard x) (ip_specialreply x) (ip_sync_link_state x)
    (ip_sync_bootstrap_checkin x) (ip_immovable_receive x) (ip_no_grant x) (ip_immovable_send x)
    (ip_tg_block_tracking x) (ip_pinned x) (ip_service_port x) (ip_has_watchport x) (ip_psets x)
    (ip_receiver_name x) (imq_seqno x) (imq_msgcount x) (imq_qlimit x) (imq_context x)
    (ip_receiver x) (ip_kobject x) (ip_twe x) (ip_pdrequest x) (ip_nsrequest x) (ip_requests x)
    (ip_context x) (ip_impcount x) (ip_mscount x) (ip_srights x) (ip_sorights x) (ip_splabel x)
    (imq_messages x) (ip_fullwaiters x) (ip_waitq_valid x).
Definition set_ip_tempowner (v : bool) (x : ipc_port) : ipc_port :=
  mk_ipc_port (io_bits x) (io_references x) (ip_sprequests x) (ip_spimportant x)
    (ip_impdonation x) v (ip_guarded x) (ip_strict_guard x) (ip_specialreply x)
    (ip_sync_link_state x) (ip_sync_bootstrap_checkin x) (ip_immovable_receive x) (ip_no_grant x)
    (ip_immovable_send x) (ip_tg_block_tracking x) (ip_pinned x) (ip_service_port x)
    (ip_has_watchport x) (ip_psets x) (ip_receiver_name x) (imq_seqno x) (imq_msgcount x)
    (imq_qlimit x) (imq_context x) (ip_receiver x) (ip_kobject x) (ip_twe x) (ip_pdrequest x)
    (ip_nsrequest x) (ip_requests x) (ip_context x) (ip_impcount x) (ip_mscount x) (ip_srights x)
    (ip_sorights x) (ip_splabel x) (imq_messages x) (ip_fullwaiters x) (ip_waitq_valid x).
Definition set_ip_guarded (v : bool) (x : ipc_port) : ipc_port :=
  mk_ipc_port (io_bits x) (io_references x) (ip_sprequests x) (ip_spimportant x)
    (ip_impdonation x) (ip_tempowner x) v (ip_strict_guard x) (ip_specialreply x)
    (ip_sync_link_state x) (ip_sync_bootstrap_checkin x) (ip_immovable_receive x) (ip_no_grant x)
    (ip_immovable_send x) (ip_tg_block_tracking x) (ip_pinned x) (ip_service_port x)
    (ip_has_watchport x) (ip_psets x) (ip_receiver_name x) (imq_seqno x) (imq_msgcount x)
    (imq_qlimit x) (imq_context x) (ip_receiver x) (ip_kobject x) (ip_twe x) (ip_pdrequest x)
    (ip_nsrequest x) (ip_requests x) (ip_context x) (ip_impcount x) (ip_mscount x) (ip_srights x)
    (ip_sorights x) (ip_splabel x) (imq_messages x) (ip_fullwaiters x) (ip_waitq_valid x).
Definition set_ip_strict_guard (v : bool) (x : ipc_port) : ipc_port :=
  mk_ipc_port (io_bits x) (io_references x) (ip_sprequests x) (ip_spimportant x)
    (ip_impdonation x) (ip_tempowner x) (ip_guarded x) v (ip_specialreply x)
    (ip_sync_link_state x) (ip_sync_bootstrap_checkin x) (ip_immovable_receive x) (ip_no_grant x)
    (ip_immovable_send x) (ip_tg_block_tracking x) (ip_pinned x) (ip_service_port x)
    (ip_has_watchport x) (ip_psets x) (ip_receiver_name x) (imq_seqno x) (imq_msgcount x)
    (imq_qlimit x) (imq_context x) (ip_receiver x) (ip_kobject x) (ip_twe x) (ip_pdrequest x)
    (ip_nsrequest x) (ip_requests x) (ip_context x) (ip_impcount x) (ip_mscount x) (ip_srights x)
    (ip_sorights x) (ip_splabel x) (imq_messages x) (ip_fullwaiters x) (ip_waitq_valid x).
Definition set_ip_specialreply (v : bool) (x : ipc_port) : ipc_port :=
  mk_ipc_port (io_bits x) (io_references x) (ip_sprequests x) (ip_spimportant x)
    (ip_impdonation x) (ip_tempowner x) (ip_guarded x) (ip_strict_guard x) v
    (ip_sync_link_state x) (ip_sync_bootstrap_checkin x) (ip_immovable_receive x) (ip_no_grant x)
    (ip_immovable_send x) (ip_tg_block_tracking x) (ip_pinned x) (ip_service_port x)
    (ip_has_watchport x) (ip_psets x) (ip_receiver_name x) (imq_seqno x) (imq_msgcount x)
    (imq_qlimit x) (imq_context x) (ip_receiver x) (ip_kobject x) (ip_twe x) (ip_pdrequest x)
    (ip_nsrequest x) (ip_requests x) (ip_context x) (ip_impcount x) (ip_mscount x) (ip_srights x)
    (ip_sorights x) (ip_splabel x) (imq_messages x) (ip_fullwaiters x) (ip_waitq_valid x).
Definition set_ip_sync_link_state (v : Z) (x : ipc_port) : ipc_port :=
  mk_ipc_port (io_bits x) (io_references x) (ip_sprequests x) (ip_spimportant x)
    (ip_impdonation x) (ip_tempowner x) (ip_guarded x) (ip_strict_guard x) (ip_specialreply x) v
    (ip_sync_bootstrap_checkin x) (ip_immovable_receive x) (ip_no_grant x) (ip_immovable_send x)
    (ip_tg_block_tracking x) (ip_pinned x) (ip_service_port x) (ip_has_watchport x) (ip_psets x)
    (ip_receiver_name x) (imq_seqno x) (imq_msgcount x) (imq_qlimit x) (imq_context x)
    (ip_receiver x) (ip_kobject x) (ip_twe x) (ip_pdrequest x) (ip_nsrequest x) (ip_requests x)
    (ip_context x) (ip_impcount x) (ip_mscount x) (ip_srights x) (ip_sorights x) (ip_splabel x)
    (imq_messages x) (ip_fullwaiters x) (ip_waitq_valid x).
Definition set_ip_sync_bootstrap_checkin (v : bool) (x : ipc_port) : ipc_port :=
  mk_ipc_port (io_bits x) (io_references x) (ip_sprequests x) (ip_spimportant x)
    (ip_impdonation x) (ip_tempowner x) (ip_guarded x) (ip_strict_guard x) (ip_specialreply x)
    (ip_sync_link_state x) v (ip_immovable_receive x) (ip_no_grant x) (ip_immovable_send x)
    (ip_tg_block_tracking x) (ip_pinned x) (ip_service_port x) (ip_has_watchport x) (ip_psets x)
    (ip_receiver_name x) (imq_seqno x) (imq_msgcount x) (imq_qlimit x) (imq_context x)
    (ip_receiver x) (ip_kobject x) (ip_twe x) (ip_pdrequest x) (ip_nsrequest x) (ip_requests x)
    (ip_context x) (ip_impcount x) (ip_mscount x) (ip_srights x) (ip_sorights x) (ip_splabel x)
    (imq_messages x) (ip_fullwaiters x) (ip_waitq_valid x).
Definition set_ip_immovable_receive (v : bool) (x : ipc_port) : ipc_port :=
  mk_ipc_port (io_bits x) (io_references x) (ip_sprequests x) (ip_spimportant x)
    (ip_impdonation x) (ip_tempowner x) (ip_guarded x) (ip_strict_guard x) (ip_specialreply x)
    (ip_sync_link_state x) (ip_sync_bootstrap_checkin x) v (ip_no_grant x) (ip_immovable_send x)
    (ip_tg_block_tracking x) (ip_pinned x) (ip_service_port x) (ip_has_watchport x) (ip_psets x)
    (ip_receiver_name x) (imq_seqno x) (imq_msgcount x) (imq_qlimit x) (imq_context x)
    (ip_receiver x) (ip_kobject x) (ip_twe x) (ip_pdrequest x) (ip_nsrequest x) (ip_requests x)
    (ip_context x) (ip_impcount x) (ip_mscount x) (ip_srights x) (ip_sorights x) (ip_splabel x)
    (imq_messages x) (ip_fullwaiters x) (ip_waitq_valid x).
Definition set_ip_no_grant (v : bool) (x : ipc_port) : ipc_port :=
  mk_ipc_port (io_bits x) (io_references x) (ip_sprequests x) (ip_spimportant x)
    (ip_impdonation x) (ip_tempowner x) (ip_guarded x) (ip_strict_guard x) (ip_specialreply x)
    (ip_sync_link_state x) (ip_sync_bootstrap_checkin x) (ip_immovable_receive x) v
    (ip_immovable_send x) (ip_tg_block_tracking x) (ip_pinned x) (ip_service_port x)
    (ip_has_watchport x) (ip_psets x) (ip_receiver_name x) (imq_seqno x) (imq_msgcount x)
    (imq_qlimit x) (imq_context x) (ip_receiver x) (ip_kobject x) (ip_twe x) (ip_pdrequest x)
    (ip_nsrequest x) (ip_requests x) (ip_context x) (ip_impcount x) (ip_mscount x) (ip_srights x)
    (ip_sorights x) (ip_splabel x) (imq_messages x) (ip_fullwaiters x) (ip_waitq_valid x).
Definition set_ip_immovable_send (v : bool) (x : ipc_port) : ipc_port :=
  mk_ipc_port (io_bits x) (io_references x) (ip_sprequests x) (ip_spimportant x)
    (ip_impdonation x) (ip_tempowner x) (ip_guarded x) (ip_strict_guard x) (ip_specialreply x)
    (ip_sync_link_state x) (ip_sync_bootstrap_checkin x) (ip_immovable_receive x) (ip_no_grant x)
    v (ip_tg_block_tracking x) (ip_pinned x) (ip_service_port x) (ip_has_watchport x) (ip_psets x)
    (ip_receiver_name x) (imq_seqno x) (imq_msgcount x) (imq_qlimit x) (imq_context x)
    (ip_receiver x) (ip_kobject x) (ip_twe x) (ip_pdrequest x) (ip_nsrequest x) (ip_requests x)
    (ip_context x) (ip_impcount x) (ip_mscount x) (ip_srights x) (ip_sorights x) (ip_splabel x)
    (imq_messages x) (ip_fullwaiters x) (ip_waitq_valid x).
Definition set_ip_tg_block_tracking (v : bool) (x : ipc_port) : ipc_port :=
  mk_ipc_port (io_bits x) (io_references x) (ip_sprequests x) (ip_spimportant x)
    (ip_impdonation x) (ip_tempowner x) (ip_guarded x) (ip_strict_guard x) (ip_specialreply x)
    (ip_sync_link_state x) (ip_sync_bootstrap_checkin x) (ip_immovable_receive x) (ip_no_grant x)
    (ip_immovable_send x) v (ip_pinned x) (ip_service_port x) (ip_has_watchport x) (ip_psets x)
    (ip_receiver_name x) (imq_seqno x) (imq_msgcount x) (imq_qlimit x) (imq_context x)
    (ip_receiver x) (ip_kobject x) (ip_twe x) (ip_pdrequest x) (ip_nsrequest x) (ip_requests x)
    (ip_context x) (ip_impcount x) (ip_mscount x) (ip_srights x) (ip_sorights x) (ip_splabel x)
    (imq_messages x) (ip_fullwaiters x) (ip_waitq_valid x).
Definition set_ip_pinned (v : bool) (x : ipc_port) : ipc_port :=
  mk_ipc_port (io_bits x) (io_references x) (ip_sprequests x) (ip_spimportant x)
    (ip_impdonation x) (ip_tempowner x) (ip_guarded x) (ip_strict_guard x) (ip_specialreply x)
    (ip_sync_link_state x) (ip_sync_bootstrap_checkin x) (ip_immovable_receive x) (ip_no_grant x)
    (ip_immovable_send x) (ip_tg_block_tracking x) v (ip_service_port x) (ip_has_watchport x)
    (ip_psets x) (ip_receiver_name x) (imq_seqno x) (imq_msgcount x) (imq_qlimit x)
    (imq_context x) (ip_receiver x) (ip_kobject x) (ip_twe x) (ip_pdrequest x) (ip_nsrequest x)
    (ip_requests x) (ip_context x) (ip_impcount x) (ip_mscount x) (ip_srights x) (ip_sorights x)
    (ip_splabel x) (imq_messages x) (ip_fullwaiters x) (ip_waitq_valid x).
Definition set_ip_service_port (v : bool) (x : ipc_port) : ipc_port :=
  mk_ipc_port (io_bits x) (io_references x) (ip_sprequests x) (ip_spimportant x)
    (ip_impdonation x) (ip_tempowner x) (ip_guarded x) (ip_strict_guard x) (ip_specialreply x)
    (ip_sync_link_state x) (ip_sync_bootstrap_checkin x) (ip_immovable_receive x) (ip_no_grant x)
    (ip_immovable_send x) (ip_tg_block_tracking x) (ip_pinned x) v (ip_has_watchport x)
    (ip_psets x) (ip_receiver_name x) (imq_seqno x) (imq_msgcount x) (imq_qlimit x)
    (imq_context x) (ip_receiver x) (ip_kobject x) (ip_twe x) (ip_pdrequest x) (ip_nsrequest x)
    (ip_requests x) (ip_context x) (ip_impcount x) (ip_mscount x) (ip_srights x) (ip_sorights x)
    (ip_splabel x) (imq_messages x) (ip_fullwaiters x) (ip_waitq_valid x).
Definition set_ip_has_watchport (v : bool) (x : ipc_port) : ipc_port :=
  mk_ipc_port (io_bits x) (io_references x) (ip_sprequests x) (ip_spimportant x)
    (ip_impdonation x) (ip_tempowner x) (ip_guarded x) (ip_strict_guard x) (ip_specialreply x)
    (ip_sync_link_state x) (ip_sync_bootstrap_checkin x) (ip_immovable_receive x) (ip_no_grant x)
    (ip_immovable_send x) (ip_tg_block_tracking x) (ip_pinned x) (ip_service_port x) v
    (ip_psets x) (ip_receiver_name x) (imq_seqno x) (imq_msgcount x) (imq_qlimit x)
    (imq_context x) (ip_receiver x) (ip_kobject x) (ip_twe x) (ip_pdrequest x) (ip_nsrequest x)
    (ip_requests x) (ip_context x) (ip_impcount x) (ip_mscount x) (ip_srights x) (ip_sorights x)
    (ip_splabel x) (imq_messages x) (ip_fullwaiters x) (ip_waitq_valid x).
Definition set_ip_psets (v : list Z) (x : ipc_port) : ipc_port :=
  mk_ipc_port (io_bits x) (io_references x) (ip_sprequests x) (ip_spimportant x)
    (ip_impdonation x) (ip_tempowner x) (ip_guarded x) (ip_strict_guard x) (ip_specialreply x)
    (ip_sync_link_state x) (ip_sync_bootstrap_checkin x) (ip_immovable_receive x) (ip_no_grant x)
    (ip_immovable_send x) (ip_tg_block_tracking x) (ip_pinned x) (ip_service_port x)
    (ip_has_watchport x) v (ip_receiver_name x) (imq_seqno x) (imq_msgcount x) (imq_qlimit x)
    (imq_context x) (ip_receiver x) (ip_kobject x) (ip_twe x) (ip_pdrequest x) (ip_nsrequest x)
    (ip_requests x) (ip_context x) (ip_impcount x) (ip_mscount x) (ip_srights x) (ip_sorights x)
    (ip_splabel x) (imq_messages x) (ip_fullwaiters x) (ip_waitq_valid x).
Definition set_ip_receiver_name (v : Z) (x : ipc_port) : ipc_port :=
  mk_ipc_port (io_bits x) (io_references x) (ip_sprequests x) (ip_spimportant x)
    (ip_impdonation x) (ip_tempowner x) (ip_guarded x) (ip_strict_guard x) (ip_specialreply x)
    (ip_sync_link_state x) (ip_sync_bootstrap_checkin x) (ip_immovable_receive x) (ip_no_grant x)
    (ip_immovable_send x) (ip_tg_block_tracking x) (ip_pinned x) (ip_service_port x)
    (ip_has_watchport x) (ip_psets x) v (imq_seqno x) (imq_msgcount x) (imq_qlimit x)
    (imq_context x) (ip_receiver x) (ip_kobject x) (ip_twe x) (ip_pdrequest x) (ip_nsrequest x)
    (ip_requests x) (ip_context x) (ip_impcount x) (ip_mscount x) (ip_srights x) (ip_sorights x)
    (ip_splabel x) (imq_messages x) (ip_fullwaiters x) (ip_waitq_valid x).
Definition set_imq_seqno (v : Z) (x : ipc_port) : ipc_port :=
  mk_ipc_port (io_bits x) (io_references x) (ip_sprequests x) (ip_spimportant x)
    (ip_impdonation x) (ip_tempowner x) (ip_guarded x) (ip_strict_guard x) (ip_specialreply x)
    (ip_sync_link_state x) (ip_sync_bootstrap_checkin x) (ip_immovable_receive x) (ip_no_grant x)
    (ip_immovable_send x) (ip_tg_block_tracking x) (ip_pinned x) (ip_service_port x)
    (ip_has_watchport x) (ip_psets x) (ip_receiver_name x) v (imq_msgcount x) (imq_qlimit x)
    (imq_context x) (ip_receiver x) (ip_kobject x) (ip_twe x) (ip_pdrequest x) (ip_nsrequest x)
    (ip_requests x) (ip_context x) (ip_impcount x) (ip_mscount x) (ip_srights x) (ip_sorights x)
    (ip_splabel x) (imq_messages x) (ip_fullwaiters x) (ip_waitq_valid x).
Definition set_imq_msgcount (v : Z) (x : ipc_port) : ipc_port :=
  mk_ipc_port (io_bits x) (io_references x) (ip_sprequests x) (ip_spimportant x)
    (ip_impdonation x) (ip_tempowner x) (ip_guarded x) (ip_strict_guard x) (ip_specialreply x)
    (ip_sync_link_state x) (ip_sync_bootstrap_checkin x) (ip_immovable_receive x) (ip_no_grant x)
    (ip_immovable_send x) (ip_tg_block_tracking x) (ip_pinned x) (ip_service_port x)
    (ip_has_watchport x) (ip_psets x) (ip_receiver_name x) (imq_seqno x) v (imq_qlimit x)
    (imq_context x) (ip_receiver x) (ip_kobject x) (ip_twe x) (ip_pdrequest x) (ip_nsrequest x)
    (ip_requests x) (ip_context x) (ip_impcount x) (ip_mscount x) (ip_srights x) (ip_sorights x)
    (ip_splabel x) (imq_messages x) (ip_fullwaiters x) (ip_waitq_valid x).
Definition set_imq_qlimit (v : Z) (x : ipc_port) : ipc_port :=
  mk_ipc_port (io_bits x) (io_references x) (ip_sprequests x) (ip_spimportant x)
    (ip_impdonation x) (ip_tempowner x) (ip_guarded x) (ip_strict_guard x) (ip_specialreply x)
    (ip_sync_link_state x) (ip_sync_bootstrap_checkin x) (ip_immovable_receive x) (ip_no_grant x)
    (ip_immovable_send x) (ip_tg_block_tracking x) (ip_pinned x) (ip_service_port x)
    (ip_has_watchport x) (ip_psets x) (ip_receiver_name x) (imq_seqno x) (imq_msgcount x) v
    (imq_context x) (ip_receiver x) (ip_kobject x) (ip_twe x) (ip_pdrequest x) (ip_nsrequest x)
    (ip_requests x) (ip_context x) (ip_impcount x) (ip_mscount x) (ip_srights x) (ip_sorights x)
    (ip_splabel x) (imq_messages x) (ip_fullwaiters x) (ip_waitq_valid x).
Definition set_imq_context (v : Z) (x : ipc_port) : ipc_port :=
  mk_ipc_port (io_bits x) (io_references x) (ip_sprequests x) (ip_spimportant x)
    (ip_impdonation x) (ip_tempowner x) (ip_guarded x) (ip_strict_guard x) (ip_specialreply x)
    (ip_sync_link_state x) (ip_sync_bootstrap_checkin x) (ip_immovable_receive x) (ip_no_grant x)
    (ip_immovable_send x) (ip_tg_block_tracking x) (ip_pinned x) (ip_service_port x)
    (ip_has_watchport x) (ip_psets x) (ip_receiver_name x) (imq_seqno x) (imq_msgcount x)
    (imq_qlimit x) v (ip_receiver x) (ip_kobject x) (ip_twe x) (ip_pdrequest x) (ip_nsrequest x)
    (ip_requests x) (ip_context x) (ip_impcount x) (ip_mscount x) (ip_srights x) (ip_sorights x)
    (ip_splabel x) (imq_messages x) (ip_fullwaiters x) (ip_waitq_valid x).
Definition set_ip_receiver (v : Z) (x : ipc_port) : ipc_port :=
  mk_ipc_port (io_bits x) (io_references x) (ip_sprequests x) (ip_spimportant x)
    (ip_impdonation x) (ip_tempowner x) (ip_guarded x) (ip_strict_guard x) (ip_specialreply x)
    (ip_sync_link_state x) (ip_sync_bootstrap_checkin x) (ip_immovable_receive x) (ip_no_grant x)
    (ip_immovable_send x) (ip_tg_block_tracking x) (ip_pinned x) (ip_service_port x)
    (ip_has_watchport x) (ip_psets x) (ip_receiver_name x) (imq_seqno x) (imq_msgcount x)
    (imq_qlimit x) (imq_context x) v (ip_kobject x) (ip_twe x) (ip_pdrequest x) (ip_nsrequest x)
    (ip_requests x) (ip_context x) (ip_impcount x) (ip_mscount x) (ip_srights x) (ip_sorights x)
    (ip_splabel x) (imq_messages x) (ip_fullwaiters x) (ip_waitq_valid x).
Definition set_ip_kobject (v : Z) (x : ipc_port) : ipc_port :=
  mk_ipc_port (io_bits x) (io_references x) (ip_sprequests x) (ip_spimportant x)
    (ip_impdonation x) (ip_tempowner x) (ip_guarded x) (ip_strict_guard x) (ip_specialreply x)
    (ip_sync_link_state x) (ip_sync_bootstrap_checkin x) (ip_immovable_receive x) (ip_no_grant x)
    (ip_immovable_send x) (ip_tg_block_tracking x) (ip_pinned x) (ip_service_port x)
    (ip_has_watchport x) (ip_psets x) (ip_receiver_name x) (imq_seqno x) (imq_msgcount x)
    (imq_qlimit x) (imq_context x) (ip_receiver x) v (ip_twe x) (ip_pdrequest x) (ip_nsrequest x)
    (ip_requests x) (ip_context x) (ip_impcount x) (ip_mscount x) (ip_srights x) (ip_sorights x)
    (ip_splabel x) (imq_messages x) (ip_fullwaiters x) (ip_waitq_valid x).
Definition set_ip_twe (v : Z) (x : ipc_port) : ipc_port :=
  mk_ipc_port (io_bits x) (io_references x) (ip_sprequests x) (ip_spimportant x)
    (ip_impdonation x) (ip_tempowner x) (ip_guarded x) (ip_strict_guard x) (ip_specialreply x)
    (ip_sync_link_state x) (ip_sync_bootstrap_checkin x) (ip_immovable_receive x) (ip_no_grant x)
    (ip_immovable_send x) (ip_tg_block_tracking x) (ip_pinned x) (ip_service_port x)
    (ip_has_watchport x) (ip_psets x) (ip_receiver_name x) (imq_seqno x) (imq_msgcount x)
    (imq_qlimit x) (imq_context x) (ip_receiver x) (ip_kobject x) v (ip_pdrequest x)
    (ip_nsrequest x) (ip_requests x) (ip_context x) (ip_impcount x) (ip_mscount x) (ip_srights x)
    (ip_sorights x) (ip_splabel x) (imq_messages x) (ip_fullwaiters x) (ip_waitq_valid x).
Definition set_ip_pdrequest (v : Z) (x : ipc_port) : ipc_port :=
  mk_ipc_port (io_bits x) (io_references x) (ip_sprequests x) (ip_spimportant x)
    (ip_impdonation x) (ip_tempowner x) (ip_guarded x) (ip_strict_guard x) (ip_specialreply x)
    (ip_sync_link_state x) (ip_sync_bootstrap_checkin x) (ip_immovable_receive x) (ip_no_grant x)
    (ip_immovable_send x) (ip_tg_block_tracking x) (ip_pinned x) (ip_service_port x)
    (ip_has_watchport x) (ip_psets x) (ip_receiver_name x) (imq_seqno x) (imq_msgcount x)
    (imq_qlimit x) (imq_context x) (ip_receiver x) (ip_kobject x) (ip_twe x) v (ip_nsrequest x)
    (ip_requests x) (ip_context x) (ip_impcount x) (ip_mscount x) (ip_srights x) (ip_sorights x)
    (ip_splabel x) (imq_messages x) (ip_fullwaiters x) (ip_waitq_valid x).
Definition set_ip_nsrequest (v : Z) (x : ipc_port) : ipc_port :=
  mk_ipc_port (io_bits x) (io_references x) (ip_sprequests x) (ip_spimportant x)
    (ip_impdonation x) (ip_tempowner x) (ip_guarded x) (ip_strict_guard x) (ip_specialreply x)
    (ip_sync_link_state x) (ip_sync_bootstrap_checkin x) (ip_immovable_receive x) (ip_no_grant x)
    (ip_immovable_send x) (ip_tg_block_tracking x) (ip_pinned x) (ip_service_port x)
    (ip_has_watchport x) (ip_psets x) (ip_receiver_name x) (imq_seqno x) (imq_msgcount x)
    (imq_qlimit x) (imq_context x) (ip_receiver x) (ip_kobject x) (ip_twe x) (ip_pdrequest x) v
    (ip_requests x) (ip_context x) (ip_impcount x) (ip_mscount x) (ip_srights x) (ip_sorights x)
    (ip_splabel x) (imq_messages x) (ip_fullwaiters x) (ip_waitq_valid x).
Definition set_ip_requests (v : option (Z * list ipc_port_request)) (x : ipc_port) : ipc_port :=
  mk_ipc_port (io_bits x) (io_references x) (ip_sprequests x) (ip_spimportant x)
    (ip_impdonation x) (ip_tempowner x) (ip_guarded x) (ip_strict_guard x) (ip_specialreply x)
    (ip_sync_link_state x) (ip_sync_bootstrap_checkin x) (ip_immovable_receive x) (ip_no_grant x)
    (ip_immovable_send x) (ip_tg_block_tracking x) (ip_pinned x) (ip_service_port x)
    (ip_has_watchport x) (ip_psets x) (ip_receiver_name x) (imq_seqno x) (imq_msgcount x)
    (imq_qlimit x) (imq_context x) (ip_receiver x) (ip_kobject x) (ip_twe x) (ip_pdrequest x)
    (ip_nsrequest x) v (ip_context x) (ip_impcount x) (ip_mscount x) (ip_srights x)
    (ip_sorights x) (ip_splabel x) (imq_messages x) (ip_fullwaiters x) (ip_waitq_valid x).
Definition set_ip_context (v : Z) (x : ipc_port) : ipc_port :=
  mk_ipc_port (io_bits x) (io_references x) (ip_sprequests x) (ip_spimportant x)
    (ip_impdonation x) (ip_tempowner x) (ip_guarded x) (ip_strict_guard x) (ip_specialreply x)
    (ip_sync_link_state x) (ip_sync_bootstrap_checkin x) (ip_immovable_receive x) (ip_no_grant x)
    (ip_immovable_send x) (ip_tg_block_tracking x) (ip_pinned x) (ip_service_port x)
    (ip_has_watchport x) (ip_psets x) (ip_receiver_name x) (imq_seqno x) (imq_msgcount x)
    (imq_qlimit x) (imq_context x) (ip_receiver x) (ip_kobject x) (ip_twe x) (ip_pdrequest x)
    (ip_nsrequest x) (ip_requests x) v (ip_impcount x) (ip_mscount x) (ip_srights x)
    (ip_sorights x) (ip_splabel x) (imq_messages x) (ip_fullwaiters x) (ip_waitq_valid x).
Definition set_ip_impcount (v : Z) (x : ipc_port) : ipc_port :=
  mk_ipc_port (io_bits x) (io_references x) (ip_sprequests x) (ip_spimportant x)
    (ip_impdonation x) (ip_tempowner x) (ip_guarded x) (ip_strict_guard x) (ip_specialreply x)
    (ip_sync_link_state x) (ip_sync_bootstrap_checkin x) (ip_immovable_receive x) (ip_no_grant x)
    (ip_immovable_send x) (ip_tg_block_tracking x) (ip_pinned x) (ip_service_port x)
    (ip_has_watchport x) (ip_psets x) (ip_receiver_name x) (imq_seqno x) (imq_msgcount x)
    (imq_qlimit x) (imq_context x) (ip_receiver x) (ip_kobject x) (ip_twe x) (ip_pdrequest x)
    (ip_nsrequest x) (ip_requests x) (ip_context x) v (ip_mscount x) (ip_srights x)
    (ip_sorights x) (ip_splabel x) (imq_messages x) (ip_fullwaiters x) (ip_waitq_valid x).
Definition set_ip_mscount (v : Z) (x : ipc_port) : ipc_port :=
  mk_ipc_port (io_bits x) (io_references x) (ip_sprequests x) (ip_spimportant x)
    (ip_impdonation x) (ip_tempowner x) (ip_guarded x) (ip_strict_guard x) (ip_specialreply x)
    (ip_sync_link_state x) (ip_sync_bootstrap_checkin x) (ip_immovable_receive x) (ip_no_grant x)
    (ip_immovable_send x) (ip_tg_block_tracking x) (ip_pinned x) (ip_service_port x)
    (ip_has_watchport x) (ip_psets x) (ip_receiver_name x) (imq_seqno x) (imq_msgcount x)
    (imq_qlimit x) (imq_context x) (ip_receiver x) (ip_kobject x) (ip_twe x) (ip_pdrequest x)
    (ip_nsrequest x) (ip_requests x) (ip_context x) (ip_impcount x) v (ip_srights x)
    (ip_sorights x) (ip_splabel x) (imq_messages x) (ip_fullwaiters x) (ip_waitq_valid x).
Definition set_ip_srights (v : Z) (x : ipc_port) : ipc_port :=
  mk_ipc_port (io_bits x) (io_references x) (ip_sprequests x) (ip_spimportant x)
    (ip_impdonation x) (ip_tempowner x) (ip_guarded x) (ip_strict_guard x) (ip_specialreply x)
    (ip_sync_link_state x) (ip_sync_bootstrap_checkin x) (ip_immovable_receive x) (ip_no_grant x)
    (ip_immovable_send x) (ip_tg_block_tracking x) (ip_pinned x) (ip_service_port x)
    (ip_has_watchport x) (ip_psets x) (ip_receiver_name x) (imq_seqno x) (imq_msgcount x)
    (imq_qlimit x) (imq_context x) (ip_receiver x) (ip_kobject x) (ip_twe x) (ip_pdrequest x)
    (ip_nsrequest x) (ip_requests x) (ip_context x) (ip_impcount x) (ip_mscount x) v
    (ip_sorights x) (ip_splabel x) (imq_messages x) (ip_fullwaiters x) (ip_waitq_valid x).
Definition set_ip_sorights (v : Z) (x : ipc_port) : ipc_port :=
  mk_ipc_port (io_bits x) (io_references x) (ip_sprequests x) (ip_spimportant x)
    (ip_impdonation x) (ip_tempowner x) (ip_guarded x) (ip_strict_guard x) (ip_specialreply x)
    (ip_sync_link_state x) (ip_sync_bootstrap_checkin x) (ip_immovable_receive x) (ip_no_grant x)
    (ip_immovable_send x) (ip_tg_block_tracking x) (ip_pinned x) (ip_service_port x)
    (ip_has_watchport x) (ip_psets x) (ip_receiver_name x) (imq_seqno x) (imq_msgcount x)
    (imq_qlimit x) (imq_context x) (ip_receiver x) (ip_kobject x) (ip_twe x) (ip_pdrequest x)
    (ip_nsrequest x) (ip_requests x) (ip_context x) (ip_impcount x) (ip_mscount x) (ip_srights x)
    v (ip_splabel x) (imq_messages x) (ip_fullwaiters x) (ip_waitq_valid x).
Definition set_ip_splabel (v : Z) (x : ipc_port) : ipc_port :=
  mk_ipc_port (io_bits x) (io_references x) (ip_sprequests x) (ip_spimportant x)
    (ip_impdonation x) (ip_tempowner x) (ip_guarded x) (ip_strict_guard x) (ip_specialreply x)
    (ip_sync_link_state x) (ip_sync_bootstrap_checkin x) (ip_immovable_receive x) (ip_no_grant x)
    (ip_immovable_send x) (ip_tg_block_tracking x) (ip_pinned x) (ip_service_port x)
    (ip_has_watchport x) (ip_psets x) (ip_receiver_name x) (imq_seqno x) (imq_msgcount x)
    (imq_qlimit x) (imq_context x) (ip_receiver x) (ip_kobject x) (ip_twe x) (ip_pdrequest x)
    (ip_nsrequest x) (ip_requests x) (ip_context x) (ip_impcount x) (ip_mscount x) (ip_srights x)
    (ip_sorights x) v (imq_messages x) (ip_fullwaiters x) (ip_waitq_valid x).
Definition set_imq_messages (v : kmsgs) (x : ipc_port) : ipc_port :=
  mk_ipc_port (io_bits x) (io_references x) (ip_sprequests x) (ip_spimportant x)
    (ip_impdonation x) (ip_tempowner x) (ip_guarded x) (ip_strict_guard x) (ip_specialreply x)
    (ip_sync_link_state x) (ip_sync_bootstrap_checkin x) (ip_immovable_receive x) (ip_no_grant x)
    (ip_immovable_send x) (ip_tg_block_tracking x) (ip_pinned x) (ip_service_port x)
    (ip_has_watchport x) (ip_psets x) (ip_receiver_name x) (imq_seqno x) (imq_msgcount x)
    (imq_qlimit x) (imq_context x) (ip_receiver x) (ip_kobject x) (ip_twe x) (ip_pdrequest x)
    (ip_nsrequest x) (ip_requests x) (ip_context x) (ip_impcount x) (ip_mscount x) (ip_srights x)
    (ip_sorights x) (ip_splabel x) v (ip_fullwaiters x) (ip_waitq_valid x).
Definition set_ip_fullwaiters (v : bool) (x : ipc_port) : ipc_port :=
  mk_ipc_port (io_bits x) (io_references x) (ip_sprequests x) (ip_spimportant x)
    (ip_impdonation x) (ip_tempowner x) (ip_guarded x) (ip_strict_guard x) (ip_specialreply x)
    (ip_sync_link_state x) (ip_sync_bootstrap_checkin x) (ip_immovable_receive x) (ip_no_grant x)
    (ip_immovable_send x) (ip_tg_block_tracking x) (ip_pinned x) (ip_service_port x)
    (ip_has_watchport x) (ip_psets x) (ip_receiver_name x) (imq_seqno x) (imq_msgcount x)
    (imq_qlimit x) (imq_context x) (ip_receiver x) (ip_kobject x) (ip_twe x) (ip_pdrequest x)
    (ip_nsrequest x) (ip_requests x) (ip_context x) (ip_impcount x) (ip_mscount x) (ip_srights x)
    (ip_sorights x) (ip_splabel x) (imq_messages x) v (ip_waitq_valid x).
Definition set_ip_waitq_valid (v : bool) (x : ipc_port) : ipc_port :=
  mk_ipc_port (io_bits x) (io_references x) (ip_sprequests x) (ip_spimportant x)
    (ip_impdonation x) (ip_tempowner x) (ip_guarded x) (ip_strict_guard x) (ip_specialreply x)
    (ip_sync_link_state x) (ip_sync_bootstrap_checkin x) (ip_immovable_receive x) (ip_no_grant x)
    (ip_immovable_send x) (ip_tg_block_tracking x) (ip_pinned x) (ip_service_port x)
    (ip_has_watchport x) (ip_psets x) (ip_receiver_name x) (imq_seqno x) (imq_msgcount x)
    (imq_qlimit x) (imq_context x) (ip_receiver x) (ip_kobject x) (ip_twe x) (ip_pdrequest x)
    (ip_nsrequest x) (ip_requests x) (ip_context x) (ip_impcount x) (ip_mscount x) (ip_srights x)
    (ip_sorights x) (ip_splabel x) (imq_messages x) (ip_fullwaiters x) v.
Abbreviation ip_destination := ip_receiver.
Abbreviation ip_timestamp := ip_receiver.
Abbreviation set_ip_destination := set_ip_receiver.
Abbreviation set_ip_timestamp := set_ip_receiver.

(** ** Port sets ([struct ipc_pset]) *)
Record ipc_pset := mk_ipc_pset { ips_io_bits : Z; ips_references : Z }.

(** ** Calls out of the modelled code *)
Inductive event := Call (function : string) (arguments : list Z).

(** ** Threads

    What message passing keeps of a thread ([struct thread]): the state of its
    receive ([ith_*]), the wait queue it is on and what it waits for, how its last
    wait ended, and the port whose send turnstile it holds. *)
Inductive wait_event := IPC_MQUEUE_RECEIVE | IPC_MQUEUE_FULL | EVENTLINK | SEMAPHORE_EVENT.
Inductive wait_result_t :=
| THREAD_WAITING | THREAD_AWAKENED | THREAD_TIMED_OUT | THREAD_INTERRUPTED | THREAD_RESTART | THREAD_NOT_WAITING.
#[global] Instance wait_event_eq_dec : EqDecision wait_event.
Proof. solve_decision. Defined.
#[global] Instance wait_result_eq_dec : EqDecision wait_result_t.
Proof. solve_decision. Defined.

Record thread := mk_thread {
  ith_state : Z;
  ith_option : Z;
  ith_rsize : Z;
  ith_msize : Z;
  ith_kmsg : Z;
  ith_seqno : Z;
  ith_receiver_name : Z;
  ith_peekq : Z;
  th_waits_on : option (Z * wait_event);
  th_wait_result : wait_result_t;
  th_turnstile : option Z;
}.

Definition set_ith_state (v : Z) (x : thread) : thread :=
  mk_thread v (ith_option x) (ith_rsize x) (ith_msize x) (ith_kmsg x) (ith_seqno x)
    (ith_receiver_name x) (ith_peekq x) (th_waits_on x) (th_wait_result x) (th_turnstile x).
Definition set_ith_option (v : Z) (x : thread) : thread :=
  mk_thread (ith_state x) v (ith_rsize x) (ith_msize x) (ith_kmsg x) (ith_seqno x)
    (ith_receiver_name x) (ith_peekq x) (th_waits_on x) (th_wait_result x) (th_turnstile x).
Definition set_ith_rsize (v : Z) (x : thread) : thread :=
  mk_thread (ith_state x) (ith_option x) v (ith_msize x) (ith_kmsg x) (ith_seqno x)
    (ith_receiver_name x) (ith_peekq x) (th_waits_on x) (th_wait_result x) (th_turnstile x).
Definition set_ith_msize (v : Z) (x : thread) : thread :=
  mk_thread (ith_state x) (ith_option x) (ith_rsize x) v (ith_kmsg x) (ith_seqno x)
    (ith_receiver_name x) (ith_peekq x) (th_waits_on x) (th_wait_result x) (th_turnstile x).
Definition set_ith_kmsg (v : Z) (x : thread) : thread :=
  mk_thread (ith_state x) (ith_option x) (ith_rsize x) (ith_msize x) v (ith_seqno x)
    (ith_receiver_name x) (ith_peekq x) (th_waits_on x) (th_wait_result x) (th_turnstile x).
Definition set_ith_seqno (v : Z) (x : thread) : thread :=
  mk_thread (ith_state x) (ith_option x) (ith_rsize x) (ith_msize x) (ith_kmsg x) v
    (ith_receiver_name x) (ith_peekq x) (th_waits_on x) (th_wait_result x) (th_turnstile x).
Definition set_ith_receiver_name (v : Z) (x : thread) : thread :=
  mk_thread (ith_state x) (ith_option x) (ith_rsize x) (ith_msize x) (ith_kmsg x) (ith_seqno x) v
    (ith_peekq x) (th_waits_on x) (th_wait_result x) (th_turnstile x).
Definition set_ith_peekq (v : Z) (x : thread) : thread :=
  mk_thread (ith_state x) (ith_option x) (ith_rsize x) (ith_msize x) (ith_kmsg x) (ith_seqno x)
    (ith_receiver_name x) v (th_waits_on x) (th_wait_result x) (th_turnstile x).
Definition set_th_waits_on (v : option (Z * wait_event)) (x : thread) : thread :=
  mk_thread (ith_state x) (ith_option x) (ith_rsize x) (ith_msize x) (ith_kmsg x) (ith_seqno x)
    (ith_receiver_name x) (ith_peekq x) v (th_wait_result x) (th_turnstile x).
Definition set_th_wait_result (v : wait_result_t) (x : thread) : thread :=
  mk_thread (ith_state x) (ith_option x) (ith_rsize x) (ith_msize x) (ith_kmsg x) (ith_seqno x)
    (ith_receiver_name x) (ith_peekq x) (th_waits_on x) v (th_turnstile x).
Definition set_th_turnstile (v : option Z) (x : thread) : thread :=
  mk_thread (ith_state x) (ith_option x) (ith_rsize x) (ith_msize x) (ith_kmsg x) (ith_seqno x)
    (ith_receiver_name x) (ith_peekq x) (th_waits_on x) (th_wait_result x) v.

(** ** The whole state

    [ks_reap] holds the messages the current thread has to destroy
    ([current_thread()->ith_messages]). *)
Record kst := mk_kst {
  ks_space : ipc_space;
  ks_ports : gmap Z ipc_port;
  ks_psets : gmap Z ipc_pset;
  ks_timestamp : Z;
  ks_trace : list event;
  ks_clock : nat;
  ks_threads : gmap Z thread;
  ks_reap : kmsgs;
}.

Definition set_ks_space (v : ipc_space) (x : kst) : kst :=
  mk_kst v (ks_ports x) (ks_psets x) (ks_timestamp x) (ks_trace x) (ks_clock x) (ks_threads x)
    (ks_reap x).
Definition set_ks_ports (v : gmap Z ipc_port) (x : kst) : kst :=
  mk_kst (ks_space x) v (ks_psets x) (ks_timestamp x) (ks_trace x) (ks_clock x) (ks_threads x)
    (ks_reap x).
Definition set_ks_psets (v : gmap Z ipc_pset) (x : kst) : kst :=
  mk_kst (ks_space x) (ks_ports x) v (ks_timestamp x) (ks_trace x) (ks_clock x) (ks_threads x)
    (ks_reap x).
Definition set_ks_timestamp (v : Z) (x : kst) : kst :=
  mk_kst (ks_space x) (ks_ports x) (ks_psets x) v (ks_trace x) (ks_clock x) (ks_threads x)
    (ks_reap x).
Definition set_ks_trace (v : list event) (x : kst) : kst :=
  mk_kst (ks_space x) (ks_ports x) (ks_psets x) (ks_timestamp x) v (ks_clock x) (ks_threads x)
    (ks_reap x).
Definition set_ks_clock (v : nat) (x : kst) : kst :=
  mk_kst (ks_space x) (ks_ports x) (ks_psets x) (ks_timestamp x) (ks_trace x) v (ks_threads x)
    (ks_reap x).
Definition set_ks_threads (v : gmap Z thread) (x : kst) : kst :=
  mk_kst (ks_space x) (ks_ports x) (ks_psets x) (ks_timestamp x) (ks_trace x) (ks_clock x) v
    (ks_reap x).
Definition set_ks_reap (v : kmsgs) (x : kst) : kst :=
  mk_kst (ks_space x) (ks_ports x) (ks_psets x) (ks_timestamp x) (ks_trace x) (ks_clock x)
    (ks_threads x) v.

Definition emit (function : string) (arguments : list Z) : M kst unit :=
  modify (fun k => set_ks_trace (ks_trace k ++ [Call function arguments]) k).

Definition get_space {A} (f : ipc_space -> A) : M kst A := gets (fun k => f (ks_space k)).
Definition mod_space (f : ipc_space -> ipc_space) : M kst unit :=
  modify (fun k => set_ks_space (f (ks_space k)) k).

(** [is_active_table]: the space must be active. *)
Definition is_active_table : M kst (list ipc_entry) :=
  let* t := get_space is_table in
  match t with
  | Some t => ret t
  | None => panic "is_active_table: space is dead"
  end.
Definition put_table (t : list ipc_entry) : M kst unit := mod_space (set_is_table (Some t)).

(** Reading and writing the entry at an index, as the code does through an
    [ipc_entry_t]. *)
Definition get_entry (index : Z) : M kst ipc_entry :=
  let* t := is_active_table in lift (aget t index).
Definition put_entry (index : Z) (e : ipc_entry) : M kst unit :=
  let* t := is_active_table in
  lift (aget t index) ;;*
  put_table (aset t index e).

(** ** Other threads

    Where the code drops a lock that protects the state, or reads it unlocked,
    other threads may run: [other n] is what they do at the [n]-th such point.
    [current_thread] is the address of the thread that runs the code. *)
Class Concurrency := { other : nat -> kst -> kst; current_thread : Z }.
Definition THREAD_NULL : Z := 0.

(** No other thread touches the state. *)
Definition quiet : Concurrency := {| other _ k := k; current_thread := 1 |}.

Definition interfere `{Concurrency} : M kst unit :=
  modify (fun k => set_ks_clock (S (ks_clock k)) (other (ks_clock k) k)).

(** ** Answers of code outside the model

    What the modelled functions ask of the importance subsystem, the memory
    allocator and the labels of service ports. *)
Class Externals := {
  (** [ipc_space_kernel], the special space of kernel objects. *)
  ipc_space_kernel : Z;
  (** [task_is_importance_donor(current_task())] *)
  current_task_is_importance_donor : bool;
  (** [self->ith_assertions == 0] *)
  no_thread_assertions : bool;
  (** [current_task()->task_imp_base] *)
  current_task_imp_base : Z;
  ipc_importance_task_is_any_receiver_type : Z -> bool;
  ipc_service_port_label_is_special_pdrequest : Z -> bool;
  ipc_service_port_label_is_pd_notification : Z -> bool;
  (** the name and guard a service port label records *)
  ipc_service_port_label_get_attr : Z -> Z * Z;
  (** [space->is_task->task_imp_base], [None] for [TASK_NULL] *)
  space_task_imp_base : option Z;
  (** the same for the space at an address *)
  receiver_task_imp_base : Z -> option Z;
  (** whether [port_send_turnstile(port)] is set for another reason than a
      blocked sender *)
  port_send_turnstile : Z -> bool;
  (** [task_is_immovable] and [task_is_pinned] of the space's task *)
  space_task_is_immovable : bool;
  space_task_is_pinned : bool;
  (** [current_task()->bsd_info == initproc] *)
  current_task_is_initproc : bool;
  (** [current_thread()->ith_knote] and [ith_msg_addr] *)
  ith_knote : Z;
  ith_msg_addr : Z;
  (** [ipc_kobject_label_check] on a labelled port: whether the copyout is
      allowed, the substituted port and the new flags *)
  ipc_kobject_label_check : Z -> Z -> Z -> M kst (bool * Z * Z);
  (** where [it_requests_alloc] finds memory; [IPR_NULL] when there is none *)
  it_requests_alloc : kst -> Z;
  (** whether knotes are attached to a port or port set *)
  klist_first : Z -> bool;
  (** [is_active] of another space than the one of the state *)
  space_active : Z -> bool;
}.
