(* ===== verification/IpcSpace.v ===== *)
(** * IPC spaces ([osfmk/ipc/ipc_space.c], [ipc_space.h])

    Creation, labels, resource limits, and the pseudo-random free list of an
    entry table.  The main fact is that [ipc_space_rand_freelist] threads every
    entry of the range on the free list exactly once, whatever the random
    bits. *)

From S2P Require Import Prelude MachPort Prng IpcTable IpcHash IpcState.

Definition IS_FLAGS_BITS : Z := 6.
Definition IS_ABOVE_SOFT_LIMIT_NOTIFY : Z := 0x01.
Definition IS_ABOVE_HARD_LIMIT_NOTIFY : Z := 0x02.
Definition IS_SOFT_LIMIT_NOTIFIED : Z := 0x04.
Definition IS_HARD_LIMIT_NOTIFIED : Z := 0x08.
Definition IS_AT_MAX_LIMIT_NOTIFY : Z := 0x10.
Definition IS_AT_MAX_LIMIT_NOTIFIED : Z := 0x20.
Definition IPC_LABEL_SPECIAL : Z := 0x0003.
Definition HOST_LOCAL_NODE : Z := -1.
Definition NUM_SEQ_ENTRIES : Z := 8.
Definition IE_BITS_ROLL_BITS_nat : nat := 2.

Definition is_bits_set (bit : Z) : M kst unit :=
  mod_space (fun s => set_is_bits (Z.lor (is_bits s) bit) s).
Definition is_bits_test (bit : Z) : M kst bool := get_space (fun s => has (is_bits s) bit).

(** ** Drawing random bits from the space's pool *)
Definition ipc_space_random_bits (numbits : nat) (s : ipc_space) : Z * ipc_space :=
  let '(r, bg, pool) := random_bool_gen_bits (is_bool_gen s) (is_entropy s) numbits in
  (r, set_is_entropy pool (set_is_bool_gen bg s)).

Definition ipc_space_get_rollpoint : M kst Z :=
  fun k => let '(r, s) := ipc_space_random_bits IE_BITS_ROLL_BITS_nat (ks_space k) in
           Done (r, set_ks_space s k).

(** ** The free list *)
Fixpoint rand_freelist_loop (fuel : nat) (at_start : bool) (total curr bottom top : Z)
    (table : list ipc_entry) (s : ipc_space) : outcome (Z * list ipc_entry * ipc_space) :=
  match fuel with
  | O => Diverges
  | S fuel =>
    if bottom <=? top then
      let! entry := aget table curr in
      let '(which, s) :=
        if at_start && (total <? NUM_SEQ_ENTRIES) then (0, s) else ipc_space_random_bits 1 s in
      let total := if at_start then total + 1 else total in
      let '(next, bottom, top) :=
        if negb (which =? 0) then (top, bottom, top - 1) else (bottom, bottom + 1, top) in
      let table := aset table curr (set_ie_next next (set_ie_bits IE_BITS_GEN_MASK entry)) in
      rand_freelist_loop fuel at_start total next bottom top table s
    else Done (curr, table, s)
  end.

Definition ipc_space_rand_freelist (s : ipc_space) (table : list ipc_entry) (bottom size : Z)
    : outcome (list ipc_entry * ipc_space) :=
  let at_start := bottom =? 0 in
  let! (curr, table, s) :=
    rand_freelist_loop (Z.to_nat (size - bottom)) at_start 0 bottom (bottom + 1) (size - 1) table s in
  let! last := aget table curr in
  let table := aset table curr (set_ie_bits IE_BITS_GEN_MASK last) in
  let! head := aget table 0 in
  Done (aset table 0 (set_ie_bits size head), s).

(** ** Creation *)
Definition zero_entry : ipc_entry := mk_ipc_entry IO_NULL 0 0 0 0.

(** [it_entries_alloc]: zeroed memory or, when [memory] is false, NULL. *)
Definition it_entries_alloc (memory : bool) (size : Z) : option (list ipc_entry) :=
  if memory then Some (replicate (Z.to_nat size) zero_entry) else None.

(** A space allocated with [Z_ZERO]. *)
Definition ipc_space_alloc (self : Z) : ipc_space :=
  mk_ipc_space self 0 0 0 None 0 0 0 0 0 (mk_bool_gen [0; 0; 0; 0] 0) [0] 0 0 0.

(** [initial] indexes [ipc_table_entries]; [self] is the address of the new
    space, [frandom] the seed, [memory] whether the table can be allocated. *)
Definition ipc_space_create `{TableSizes} (memory : bool) (self : Z) (frandom : list Z)
    (initial label : Z) : outcome (kern_return_t * option ipc_space) :=
  match it_entries_alloc memory (anth ipc_table_entries initial) with
  | None => Done (KERN_RESOURCE_SHORTAGE, None)
  | Some table =>
    let space := ipc_space_alloc self in
    let new_size := anth ipc_table_entries initial in
    let space := set_is_bool_gen (random_bool_init frandom) space in
    let! (table, space) := ipc_space_rand_freelist space table 0 new_size in
    let space := set_is_bits (Z.shiftl 2 IS_FLAGS_BITS) space in
    let space := set_is_table_free (new_size - 1) space in
    let space := set_is_table_next (initial + 1) space in
    let space := set_is_label label space in
    let space := set_is_low_mod new_size space in
    let space := set_is_node_id HOST_LOCAL_NODE space in
    let space := set_is_table (Some table) space in
    Done (KERN_SUCCESS, Some space)
  end.

Definition ipc_space_create_special (self : Z) : kern_return_t * ipc_space :=
  let space := ipc_space_alloc self in
  let space := set_is_bits (Z.shiftl 1 IS_FLAGS_BITS) space in
  let space := set_is_label IPC_LABEL_SPECIAL space in
  let space := set_is_node_id HOST_LOCAL_NODE space in
  (KERN_SUCCESS, space).

(** ** Labels *)
Definition is_active : M kst bool := get_space (fun s => bool_decide (is_Some (is_table s))).

Definition ipc_space_label (label : Z) : M kst kern_return_t :=
  let* active := is_active in
  if negb active then ret KERN_SUCCESS
  else
    let* old := get_space is_label in
    if negb (Z.land old label =? old) then ret KERN_INVALID_VALUE
    else mod_space (set_is_label label) ;;* ret KERN_SUCCESS.

Definition ipc_space_add_label (label : Z) : M kst kern_return_t :=
  let* active := is_active in
  if negb active then ret KERN_SUCCESS
  else mod_space (fun s => set_is_label (Z.lor (is_label s) label) s) ;;* ret KERN_SUCCESS.

(** ** Resource limits *)
Definition ipc_space_set_table_size_limits (soft_limit hard_limit : Z) : M kst kern_return_t :=
  let* self := get_space is_self in
  if self =? 0 then ret KERN_INVALID_TASK else
  let* active := is_active in
  if negb active then ret KERN_INVALID_TASK
  else
    let soft_limit :=
      if negb (hard_limit =? 0) && (hard_limit <=? soft_limit) then 0 else soft_limit in
    mod_space (set_is_table_size_soft_limit soft_limit) ;;*
    mod_space (set_is_table_size_hard_limit hard_limit) ;;*
    ret KERN_SUCCESS.

Definition ipc_space_check_limit_exceeded : M kst unit :=
  let* table := is_active_table in
  let* head := lift (aget table 0) in
  let size := ie_size head in
  let* s := get_space id in
  let used := u32 (size - is_table_free s) in
  if negb (has (is_bits s) IS_ABOVE_SOFT_LIMIT_NOTIFY) &&
     negb (is_table_size_soft_limit s =? 0) && (is_table_size_soft_limit s <? used)
  then is_bits_set IS_ABOVE_SOFT_LIMIT_NOTIFY ;;* emit "act_set_astproc_resource" []
  else if negb (has (is_bits s) IS_ABOVE_HARD_LIMIT_NOTIFY) &&
     negb (is_table_size_hard_limit s =? 0) && (is_table_size_hard_limit s <? used)
  then is_bits_set IS_ABOVE_HARD_LIMIT_NOTIFY ;;* emit "act_set_astproc_resource" []
  else ret tt.

(** Returns the code and the three out parameters ([current_size],
    [soft_limit], [hard_limit]), [None] where the code leaves them alone. *)
Definition ipc_space_get_table_size_and_limits
    : M kst (kern_return_t * option Z * option (Z * Z)) :=
  let* self := get_space is_self in
  if self =? 0 then ret (KERN_INVALID_TASK, None, None) else
  let* active := is_active in
  if negb active then ret (KERN_INVALID_TASK, None, None)
  else
    let* table := is_active_table in
    let* head := lift (aget table 0) in
    let* s := get_space id in
    let current_size := u32 (ie_size head - is_table_free s) in
    if has (is_bits s) IS_AT_MAX_LIMIT_NOTIFY then
      if has (is_bits s) IS_AT_MAX_LIMIT_NOTIFIED
      then ret (KERN_FAILURE, Some current_size, None)
      else is_bits_set IS_AT_MAX_LIMIT_NOTIFIED ;;*
           ret (KERN_SUCCESS, Some current_size, Some (0, 0))
    else
      let soft_limit := is_table_size_soft_limit s in
      let hard_limit := is_table_size_hard_limit s in
      if (soft_limit =? 0) && (hard_limit =? 0)
      then ret (KERN_INVALID_VALUE, Some current_size, Some (soft_limit, hard_limit))
      else if has (is_bits s) IS_HARD_LIMIT_NOTIFIED
      then ret (KERN_FAILURE, Some current_size, Some (soft_limit, hard_limit))
      else if (0 <? hard_limit) && (hard_limit <=? current_size)
      then is_bits_set IS_HARD_LIMIT_NOTIFIED ;;*
           ret (KERN_SUCCESS, Some current_size, Some (0, hard_limit))
      else if has (is_bits s) IS_SOFT_LIMIT_NOTIFIED
      then ret (KERN_FAILURE, Some current_size, Some (soft_limit, hard_limit))
      else if (0 <? soft_limit) && (soft_limit <=? current_size)
      then is_bits_set IS_SOFT_LIMIT_NOTIFIED ;;*
           ret (KERN_SUCCESS, Some current_size, Some (soft_limit, 0))
      else ret (KERN_SUCCESS, Some current_size, Some (soft_limit, hard_limit)).

Definition ipc_space_set_at_max_limit : M kst unit :=
  let* notified := is_bits_test IS_AT_MAX_LIMIT_NOTIFY in
  if negb notified
  then is_bits_set IS_AT_MAX_LIMIT_NOTIFY ;;* emit "act_set_astproc_resource" []
  else ret tt.

(** * The free list, abstractly *)

(** [ie_next] links [from] to the indexes of [l] in order, then to 0. *)
Fixpoint fl_chain (t : list ipc_entry) (from : Z) (l : list Z) : Prop :=
  match l with
  | [] => ie_next (anth t from) = 0
  | i :: l => ie_next (anth t from) = i /\ fl_chain t i l
  end.

Lemma fl_chain_agree t t' l : forall from,
  (forall i, i = from \/ i ∈ l -> ie_next (anth t' i) = ie_next (anth t i)) ->
  fl_chain t from l -> fl_chain t' from l.
Proof.
  induction l as [|i l IH]; intros from Heq; simpl.
  - rewrite Heq by (by left). done.
  - rewrite Heq by (by left). intros [? Hc]. split; [done|].
    apply IH; [|done]. intros j [->|Hj]; apply Heq; right; set_solver.
Qed.

(** The chain is determined by the table. *)
Lemma fl_chain_det t l : forall l' from,
  0 ∉ l -> 0 ∉ l' -> fl_chain t from l -> fl_chain t from l' -> l = l'.
Proof.
  induction l as [|i l IH]; intros [|j l'] from H0 H0'; simpl; try done.
  - intros -> [<- _]. set_solver.
  - intros [-> _] ->. set_solver.
  - intros [<- H1] [<- H2]. f_equal. apply (IH l' (ie_next (anth t from))); set_solver.
Qed.

(** * The random free list *)

(** What the loop leaves: the range [bottom..top] threaded behind [curr]. *)
Record threaded (t : list ipc_entry) (curr bottom top : Z) (curr' : Z) (t' : list ipc_entry)
    (l : list Z) : Prop := {
  th_perm : l ≡ₚ seqZ bottom (top - bottom + 1);
  th_len : alen t' = alen t;
  th_chain : fl_chain t' curr l;
  th_last : curr' = List.last l curr;
  th_bits i : i ∈ curr :: l -> i <> curr' -> ie_bits (anth t' i) = IE_BITS_GEN_MASK;
  th_rest i : 0 <= i -> ie_object (anth t' i) = ie_object (anth t i) /\
    ie_dist (anth t' i) = ie_dist (anth t i) /\ ie_index (anth t' i) = ie_index (anth t i);
  th_other i : 0 <= i -> i ∉ curr :: l -> anth t' i = anth t i;
}.

Lemma range_take_top bottom top :
  bottom <= top -> top :: seqZ bottom (top - 1 - bottom + 1) ≡ₚ seqZ bottom (top - bottom + 1).
Proof.
  intros. replace (top - bottom + 1) with ((top - 1 - bottom + 1) + 1) by lia.
  rewrite (seqZ_app _ (top - 1 - bottom + 1) 1) by lia.
  replace (bottom + (top - 1 - bottom + 1)) with top by lia.
  change (seqZ top 1) with [top]. by rewrite <- Permutation_cons_append.
Qed.

Lemma range_take_bottom bottom top :
  bottom <= top -> bottom :: seqZ (bottom + 1) (top - (bottom + 1) + 1) = seqZ bottom (top - bottom + 1).
Proof.
  intros. rewrite (seqZ_cons bottom (top - bottom + 1)) by lia. unfold Z.succ. do 2 f_equal. lia.
Qed.

Section thread_step.
Context (t : list ipc_entry) (curr next bottom top bottom' top' : Z).
Context (Hcurr : 0 <= curr < alen t) (Hb : 0 < bottom) (Htop : top < alen t).
Context (Hout : ~ (bottom <= curr <= top)) (Hnext : bottom <= next <= top).
Context (Hrange : next :: seqZ bottom' (top' - bottom' + 1) ≡ₚ seqZ bottom (top - bottom + 1)).
Let t1 := aset t curr (set_ie_next next (set_ie_bits IE_BITS_GEN_MASK (anth t curr))).

Lemma threaded_step curr' t' l :
  threaded t1 next bottom' top' curr' t' l -> threaded t curr bottom top curr' t' (next :: l).
Proof using Hcurr Hb Htop Hout Hnext Hrange.
  intros [Hp Hlen Hch Hlast Hbits Hrest Hother].
  assert (curr ∉ next :: l) as Hci.
  { rewrite Hp, Hrange. intros ?%elem_of_seqZ. lia. }
  assert (anth t' curr = set_ie_next next (set_ie_bits IE_BITS_GEN_MASK (anth t curr))) as Hcur.
  { rewrite Hother by (done || lia). unfold t1. by rewrite anth_aset_eq. }
  split.
  - by rewrite Hp, Hrange.
  - unfold t1 in Hlen. by rewrite alen_aset in Hlen.
  - simpl. rewrite Hcur. done.
  - by rewrite Hlast, last_cons_default.
  - intros i [->|Hi]%elem_of_cons Hne; [by rewrite Hcur|by apply Hbits].
  - intros i Hi. destruct (Hrest i Hi) as (->&->&->). unfold t1.
    rewrite anth_aset by done. destruct (Z.eqb_spec curr i) as [<-|]; done.
  - intros i Hi Hni. rewrite Hother; [|done|set_solver].
    unfold t1. rewrite anth_aset_ne; [done|lia|done|set_solver].
Qed.
End thread_step.

(** Only the generator and its pool changed. *)
Definition only_rng (s s' : ipc_space) : Prop :=
  s' = set_is_entropy (is_entropy s') (set_is_bool_gen (is_bool_gen s') s).

#[global] Instance only_rng_preorder : PreOrder only_rng.
Proof.
  split; [by intros []|]. intros [] [] []. unfold only_rng. simpl.
  intros [= -> -> -> -> -> -> -> -> -> -> -> -> ->] H2. simpl in H2. done.
Qed.

Lemma random_bits_only_rng n s : only_rng s (ipc_space_random_bits n s).2.
Proof.
  unfold ipc_space_random_bits. destruct (random_bool_gen_bits _ _ _) as [[r bg] pool].
  by destruct s.
Qed.

Lemma rand_freelist_loop_ok fuel : forall at_start total curr bottom top t s,
  0 <= curr < alen t -> 0 < bottom -> top < alen t -> ~ (bottom <= curr <= top) ->
  bottom <= top + 1 -> top + 1 - bottom < Z.of_nat fuel ->
  (forall i, i = curr \/ bottom <= i <= top -> ie_next (anth t i) = 0) ->
  exists curr' t' s' l,
    rand_freelist_loop fuel at_start total curr bottom top t s = Done (curr', t', s') /\
    threaded t curr bottom top curr' t' l /\ only_rng s s'.
Proof.
  induction fuel as [|fuel IH]; intros at_start total curr bottom top t s Hc Hb Ht Hout Hbt Hf Hz; [lia|].
  cbn [rand_freelist_loop]. destruct (Z.leb_spec bottom top) as [Hle|Hgt].
  2: { exists curr, t, s, []. split; [done|]. split; [|done]. split; try done.
       - rewrite seqZ_nil by lia. done.
       - apply Hz. by left.
       - intros i ->%list_elem_of_singleton. done. }
  rewrite aget_in by done. cbn [obind].
  assert (only_rng s (if at_start && (total <? NUM_SEQ_ENTRIES) then (0, s)
                      else ipc_space_random_bits 1 s).2) as Hrng.
  { destruct (at_start && _); [done|apply random_bits_only_rng]. }
  destruct (if at_start && _ then _ else _) as [which s1]. simpl in Hrng.
  set (total' := if at_start then total + 1 else total).
  assert (forall next bottom' top', bottom <= next <= top ->
    next :: seqZ bottom' (top' - bottom' + 1) ≡ₚ seqZ bottom (top - bottom + 1) ->
    (bottom' = bottom /\ top' = top - 1 /\ next = top \/
     bottom' = bottom + 1 /\ top' = top /\ next = bottom) ->
    exists curr' t' s' l,
      rand_freelist_loop fuel at_start total' next bottom' top'
        (aset t curr (set_ie_next next (set_ie_bits IE_BITS_GEN_MASK (anth t curr)))) s1
        = Done (curr', t', s') /\ threaded t curr bottom top curr' t' l /\ only_rng s s') as Hgo.
  { intros next bottom' top' Hn Hr Hcase.
    destruct (IH at_start total' next bottom' top'
      (aset t curr (set_ie_next next (set_ie_bits IE_BITS_GEN_MASK (anth t curr)))) s1)
      as (curr'&t'&s'&l&Hrun&Hth&Hs'); rewrite ?alen_aset; try lia.
    - intros i Hi. rewrite anth_aset_ne by lia. apply Hz. lia.
    - exists curr', t', s', (next :: l). split; [done|].
      split; [by eapply threaded_step|by transitivity s1]. }
  destruct (negb (which =? 0)).
  - apply Hgo; [lia|by apply range_take_top|lia].
  - apply Hgo; [lia|by rewrite range_take_bottom by lia|lia].
Qed.

(** The outcome of [ipc_space_rand_freelist] on the entries from [bottom] on
    of a zeroed table. *)
Record randomized (t : list ipc_entry) (bottom size : Z) (t' : list ipc_entry) (l : list Z) : Prop := {
  ra_perm : l ≡ₚ seqZ (bottom + 1) (size - 1 - bottom);
  ra_len : alen t' = alen t;
  ra_chain : fl_chain t' bottom l;
  ra_size : ie_size (anth t' 0) = size;
  ra_bits i : bottom <= i < size -> i <> 0 -> ie_bits (anth t' i) = IE_BITS_GEN_MASK;
  ra_rest i : 0 <= i -> ie_object (anth t' i) = ie_object (anth t i) /\
    ie_dist (anth t' i) = ie_dist (anth t i) /\ ie_index (anth t' i) = ie_index (anth t i);
  ra_other i : 0 < i < bottom -> anth t' i = anth t i;
  ra_head : 0 < bottom -> ie_next (anth t' 0) = ie_next (anth t 0);
}.

Lemma ipc_space_rand_freelist_ok s t bottom size :
  0 <= bottom < size -> alen t = size ->
  (forall i, bottom <= i < size -> ie_next (anth t i) = 0) ->
  exists t' s' l, ipc_space_rand_freelist s t bottom size = Done (t', s') /\
    randomized t bottom size t' l /\ only_rng s s'.
Proof.
  intros Hb Hlen Hz. unfold ipc_space_rand_freelist.
  destruct (rand_freelist_loop_ok (Z.to_nat (size - bottom)) (bottom =? 0) 0 bottom (bottom + 1)
    (size - 1) t s) as (curr'&t1&s'&l&->&[Hp Hl Hch Hlast Hbits Hrest Hother]&Hs'); try lia.
  { intros i Hi. apply Hz. lia. }
  cbn [obind]. replace (size - 1 - (bottom + 1) + 1) with (size - 1 - bottom) in Hp by lia.
  assert (forall i, i ∈ bottom :: l <-> bottom <= i < size) as Hin.
  { intros i. rewrite elem_of_cons, Hp, elem_of_seqZ. lia. }
  assert (curr' ∈ bottom :: l) as Hcin.
  { rewrite Hlast. destruct l as [|x l] using rev_ind; [set_solver|].
    rewrite List.last_last. set_solver. }
  pose proof (proj1 (Hin _) Hcin) as Hcr.
  rewrite aget_in by lia. cbn [obind]. rewrite aget_in by (rewrite alen_aset; lia). cbn [obind].
  set (t2 := aset t1 curr' (set_ie_bits IE_BITS_GEN_MASK (anth t1 curr'))).
  assert (alen t2 = size) as Hl2 by (unfold t2; rewrite alen_aset; lia).
  assert (forall i, 0 <= i -> anth t2 i =
    if curr' =? i then set_ie_bits IE_BITS_GEN_MASK (anth t1 i) else anth t1 i) as Ht2.
  { intros i Hi. unfold t2. rewrite anth_aset by lia. by destruct (Z.eqb_spec curr' i) as [->|]. }
  set (t3 := aset t2 0 (set_ie_bits size (anth t2 0))).
  assert (forall i, 0 <= i -> anth t3 i =
    if 0 =? i then set_ie_bits size (anth t2 i) else anth t2 i) as Ht3.
  { intros i Hi. unfold t3. rewrite anth_aset by lia. by destruct (Z.eqb_spec 0 i) as [<-|]. }
  exists t3, s', l. split; [done|]. split; [|done]. split.
  - done.
  - unfold t3. rewrite alen_aset. lia.
  - apply fl_chain_agree with t1; [|done]. intros i Hi.
    assert (0 <= i) by (assert (bottom <= i < size) by (apply Hin; set_solver); lia).
    rewrite Ht3, Ht2 by lia. by destruct (0 =? i), (curr' =? i).
  - rewrite Ht3 by lia. done.
  - intros i Hi H0. rewrite Ht3, Ht2 by lia. destruct (Z.eqb_spec 0 i); [lia|].
    destruct (Z.eqb_spec curr' i); [done|]. apply Hbits; [by apply Hin|done].
  - intros i Hi. destruct (Hrest i Hi) as (<-&<-&<-). rewrite Ht3, Ht2 by lia.
    by destruct (0 =? i), (curr' =? i).
  - intros i Hi. rewrite Ht3, Ht2 by lia. destruct (Z.eqb_spec 0 i), (Z.eqb_spec curr' i); try lia.
    apply Hother; [lia|]. rewrite Hin. lia.
  - intros H0. rewrite Ht3, Ht2 by lia. rewrite Hother by (rewrite ?Hin; lia).
    destruct (Z.eqb_spec curr' 0); [lia|]. done.
Qed.

(** * The invariant of an active space *)

(** Of the entry table, with the free list it encodes.  While an operation
    works on an entry, that entry (the last argument) is exempt from the
    conditions that tie its type to the free list and to the hash. *)
Record table_wf (t : list ipc_entry) (fl : list Z) (cl : option Z) : Prop := {
  tw_hash : hash_wf t;
  tw_max : alen t <= MACH_PORT_INDEX MACH_PORT_DEAD;
  tw_head : object_at t 0 = IO_NULL;
  tw_chain : fl_chain t 0 fl;
  tw_nodup : NoDup fl;
  tw_free i : i ∈ fl <-> 0 < i < alen t /\ cl <> Some i /\
    IE_BITS_TYPE (ie_bits (anth t i)) = MACH_PORT_TYPE_NONE;
  tw_free_entry i : i ∈ fl -> object_at t i = IO_NULL /\
    exists g r, 0 <= g < 64 /\ 0 <= r < 4 /\ ie_bits (anth t i) = gen_bits g r;
  tw_bits i : 0 < i < alen t -> 0 <= ie_bits (anth t i) < 2 ^ 32 /\
    exists g, 0 <= g < 64 /\ IE_BITS_GEN (ie_bits (anth t i)) = (4 * g + 3) * 2 ^ 24;
  tw_hashed i : 0 < i < alen t -> cl <> Some i ->
    (hashed t i <-> IE_BITS_TYPE (ie_bits (anth t i)) = MACH_PORT_TYPE_SEND);
}.

(** Of the space around it. *)
Record space_wf (s : ipc_space) (t : list ipc_entry) (fl : list Z) (cl : option Z) : Prop := {
  sw_table : is_table s = Some t;
  sw_wf : table_wf t fl cl;
  sw_hashed : is_table_hashed s = Z.of_nat (hash_count t);
  sw_free : is_table_free s = Z.of_nat (length fl);
  sw_low_mod : 0 <= is_low_mod s <= alen t;
  sw_high_mod : 0 <= is_high_mod s < alen t;
}.

(** The free list is a function of the table. *)
Lemma table_wf_fl t fl fl' cl cl' : table_wf t fl cl -> table_wf t fl' cl' -> fl = fl'.
Proof.
  intros H1 H2. apply (fl_chain_det t fl fl' 0); [..|by apply (tw_chain _ _ _ H1)|by apply (tw_chain _ _ _ H2)].
  - intros Hi. apply (tw_free _ _ _ H1) in Hi as [? _]. lia.
  - intros Hi. apply (tw_free _ _ _ H2) in Hi as [? _]. lia.
Qed.

Lemma gen_bits_type g r : 0 <= g < 64 -> 0 <= r < 4 -> IE_BITS_TYPE (gen_bits g r) = 0.
Proof. intros. rewrite IE_BITS_TYPE_arith. unfold gen_bits. dlia. Qed.

(** A table of free entries only. *)
Lemma table_wf_fresh t fl n :
  16 <= n -> n <= MACH_PORT_INDEX MACH_PORT_DEAD -> alen t = n ->
  randomized (replicate (Z.to_nat n) zero_entry) 0 n t fl ->
  table_wf t fl None /\ hash_count t = 0%nat.
Proof.
  intros Hn Hmax Hl [Hp _ Hch Hsz Hb Hr _ _].
  assert (forall i, 0 <= i < n -> object_at t i = IO_NULL /\ slot_index t i = 0) as Hz'.
  { intros i Hi. destruct (Hr i) as (Ho&_&Hx); [lia|]. unfold object_at, slot_index.
    by rewrite Ho, Hx, anth_replicate. }
  destruct (hash_wf_clear t) as [Hwf Hhm]; [lia|congruence|intros h Hh; apply Hz'; lia|].
  assert (forall i, i ∈ fl <-> 0 < i < n) as Hin.
  { intros i. rewrite Hp, elem_of_seqZ. lia. }
  split; [|by rewrite <- hash_map_size, Hhm, map_size_empty].
  split; rewrite ?Hl; try done.
  - apply Hz'. lia.
  - rewrite Hp. apply NoDup_seqZ.
  - intros i. rewrite Hin. split; [|by intros [? _]].
    intros Hi. split; [done|]. split; [done|]. by rewrite Hb by lia.
  - intros i Hi%Hin. split; [apply Hz'; lia|]. exists 63, 0. rewrite Hb by lia. done.
  - intros i Hi. rewrite Hb by lia. split; [done|]. by exists 63.
  - intros i Hi _. rewrite Hb by lia. split; [|done]. intros (H0&h&Hh&<-).
    by rewrite (proj2 (Hz' h ltac:(lia))) in H0.
Qed.

Lemma ipc_space_create_ok `{TableSizes} (memory : bool) self frandom initial label :
  0 <= initial < its_count ->
  if memory then
    exists s t fl, ipc_space_create memory self frandom initial label = Done (KERN_SUCCESS, Some s) /\
      space_wf s t fl None /\ alen t = anth ipc_table_entries initial /\
      fl ≡ₚ seqZ 1 (anth ipc_table_entries initial - 1) /\ hash_map t = ∅ /\
      is_table_next s = initial + 1 /\ is_label s = label
  else ipc_space_create memory self frandom initial label = Done (KERN_RESOURCE_SHORTAGE, None).
Proof.
  intros Hi. destruct memory; [|done]. unfold ipc_space_create, it_entries_alloc.
  set (n := anth ipc_table_entries initial).
  destruct (its_range initial Hi) as [Hlo Hhi]. fold n in Hlo, Hhi.
  set (s0 := set_is_bool_gen _ _).
  assert (alen (replicate (Z.to_nat n) zero_entry) = n) as Hl by (apply alen_replicate; lia).
  destruct (ipc_space_rand_freelist_ok s0 (replicate (Z.to_nat n) zero_entry) 0 n)
    as (t&s'&fl&->&Hr&Hs); [lia|done|..].
  { intros i ?. by rewrite anth_replicate. }
  cbn [obind]. assert (alen t = n) as Ht by (destruct Hr; lia).
  destruct (table_wf_fresh t fl n Hlo Hhi Ht Hr) as [Hwf Hc].
  eexists _, t, fl. split; [reflexivity|]. rewrite Hs. destruct Hr as [Hp _ _ _ _ _ _ _].
  split; [|split; [done|split; [|split; [|done]]]].
  - split; simpl; [done|done|by rewrite Hc|rewrite Hp, length_seqZ; lia|fold n; lia|lia].
  - by replace (n - 1) with (n - 1 - 0) by lia.
  - apply map_size_empty_inv. by rewrite hash_map_size, Hc by apply Hwf.
Qed.

(** A concrete state, for examples: a fresh space of 21 entries. *)
Definition demo_space : ipc_space :=
  match @ipc_space_create SMALL_4K true 0x7000 [1; 2; 3; 4] 0 0 with
  | Done (_, Some s) => s
  | _ => ipc_space_alloc 0
  end.
Lemma demo_space_wf : exists t i fl, space_wf demo_space t (i :: fl) None /\ alen t = 21.
Proof.
  destruct (@ipc_space_create_ok SMALL_4K true 0x7000 [1; 2; 3; 4] 0 0) as (s&t&fl&Hr&Hwf&Hl&Hp&_).
  { simpl. lia. }
  rewrite SMALL_4K_first in Hl, Hp. unfold demo_space. rewrite Hr. clear Hr.
  destruct fl as [|i fl]; [|by exists t, i, fl].
  apply Permutation_length in Hp. discriminate Hp.
Qed.
#[global] Opaque demo_space.

Definition demo_state : kst := mk_kst demo_space ∅ ∅ 0 [] 0 ∅ [].
Lemma demo_state_wf : exists t i fl, space_wf (ks_space demo_state) t (i :: fl) None /\ alen t = 21.
Proof. exact demo_space_wf. Qed.
#[global] Opaque demo_state.

(** C17. A new space is well formed whatever the random seed:
    [ipc_space_create] fails only when the table cannot be allocated, and
    otherwise returns a space of the requested size in which the free list
    visits every entry but the first exactly once, nothing is hashed, the
    counters agree with the table, and [is_table_next] is the next larger
    size. *)
Theorem ipc_space_create_wf `{TableSizes} (memory : bool) self frandom initial label :
  0 <= initial < its_count ->
  if memory then
    exists s t fl, ipc_space_create memory self frandom initial label = Done (KERN_SUCCESS, Some s) /\
      space_wf s t fl None /\ alen t = anth ipc_table_entries initial /\
      fl ≡ₚ seqZ 1 (anth ipc_table_entries initial - 1) /\ hash_map t = ∅ /\
      is_table_next s = initial + 1 /\ is_label s = label
  else ipc_space_create memory self frandom initial label = Done (KERN_RESOURCE_SHORTAGE, None).
Proof. apply ipc_space_create_ok. Qed.

Lemma ipc_space_create_wf_witness :
  exists s t fl,
    @ipc_space_create SMALL_4K true 0x7000 [1; 2; 3; 4] 0 0 = Done (KERN_SUCCESS, Some s) /\
    space_wf s t fl None /\ alen t = 21.
Proof.
  destruct (@ipc_space_create_wf SMALL_4K true 0x7000 [1; 2; 3; 4] 0 0) as (s&t&fl&Hr&Hwf&Hl&_).
  - simpl. lia.
  - exists s, t, fl. split; [exact Hr|]. split; [exact Hwf|]. rewrite Hl. exact SMALL_4K_first.
Defined.
