(* ===== verification/EntryFacts.v ===== *)
(** * Well-formed tables under the entry operations

    How the pure effects of the entry operations (writing an entry that is
    being worked on, hashing it, taking it from or returning it to the free
    list) act on the invariant of [IpcSpace]; the theorems on the operations
    are in [EntrySpec]. *)

From S2P Require Import Prelude MachPort IpcTable IpcHash IpcState IpcSpace.

Abbreviation bits_at t i := (ie_bits (anth t i)) (only parsing).
Definition type_at (t : list ipc_entry) (i : Z) : Z := IE_BITS_TYPE (ie_bits (anth t i)).

(** What every entry's bits satisfy. *)
Definition bits_ok (b : Z) : Prop :=
  0 <= b < 2 ^ 32 /\ exists g, 0 <= g < 64 /\ IE_BITS_GEN b = (4 * g + 3) * 2 ^ 24.

Lemma gen_bits_ok g r : 0 <= g < 64 -> 0 <= r < 4 -> bits_ok (gen_bits g r).
Proof.
  intros Hg Hr. split; [unfold gen_bits; lia|]. exists g. split; [done|].
  rewrite IE_BITS_GEN_arith. unfold gen_bits. dlia.
Qed.

Section open_close.
Context (t : list ipc_entry) (fl : list Z) (i : Z).

(** Start and stop working on an entry in use. *)
Lemma table_wf_open :
  table_wf t fl None -> type_at t i <> MACH_PORT_TYPE_NONE -> table_wf t fl (Some i).
Proof.
  intros [Hh Hm Hd Hc Hn Hf He Hb Hs] Hty. split; try done.
  - intros j. rewrite Hf. split; [|naive_solver].
    intros (?&_&Hj). split; [done|]. split; [|done]. intros [= ->]. done.
  - intros j Hj _. by apply Hs.
Qed.

Lemma table_wf_close :
  table_wf t fl (Some i) -> type_at t i <> MACH_PORT_TYPE_NONE ->
  (hashed t i <-> type_at t i = MACH_PORT_TYPE_SEND) -> table_wf t fl None.
Proof.
  intros [Hh Hm Hd Hc Hn Hf He Hb Hs] Hty Hhash. split; try done.
  - intros j. rewrite Hf. split; [naive_solver|].
    intros (?&_&Hj). split; [done|]. split; [|done]. intros [= ->]. done.
  - intros j Hj _. destruct (decide (i = j)) as [<-|]; [done|]. apply Hs; [done|congruence].
Qed.

Lemma table_wf_notfree : table_wf t fl (Some i) -> i ∉ fl.
Proof. intros Hwf (?&?&?)%(tw_free _ _ _ Hwf). done. Qed.
End open_close.

(** Writing the entry being worked on. *)
Section put_entry.
Context (t : list ipc_entry) (fl : list Z) (i : Z) (e : ipc_entry).
Context (Hwf : table_wf t fl (Some i)) (Hi : 0 < i < alen t).
Context (Hdist : ie_dist e = ie_dist (anth t i)) (Hindex : ie_index e = ie_index (anth t i)).
Context (Hbits : bits_ok (ie_bits e)).
Context (Hobj : hashed t i -> ie_object e = object_at t i).

Lemma put_entry_agree : hash_agree t (aset t i e).
Proof using Hwf Hi Hdist Hindex Hobj.
  apply hash_agree_aset; try done; [apply Hwf|lia|lia].
Qed.

Lemma anth_put_ne j : 0 <= j -> j <> i -> anth (aset t i e) j = anth t j.
Proof using Hi. intros. apply anth_aset_ne; lia. Qed.

Lemma table_wf_put : table_wf (aset t i e) fl (Some i).
Proof using Hwf Hi Hdist Hindex Hbits Hobj.
  pose proof put_entry_agree as Ha. pose proof (table_wf_notfree _ _ _ Hwf) as Hnf.
  destruct Hwf as [Hh Hm Hd Hc Hn Hf He Hb Hs].
  assert (forall j, j ∈ fl -> 0 <= j /\ j <> i) as Hfl.
  { intros j Hj. split; [|congruence]. apply Hf in Hj. lia. }
  split; rewrite ?alen_aset; try done.
  - by apply (hash_agree_wf t).
  - unfold object_at. by rewrite anth_put_ne by lia.
  - apply fl_chain_agree with t; [|done]. intros j Hj.
    rewrite anth_put_ne; [done|..]; (destruct Hj as [->|Hj]; [lia|by apply Hfl]).
  - intros j. rewrite Hf. split; intros (?&?&?); (split; [done|split; [done|]]);
      rewrite anth_put_ne in *; solve [lia|congruence|done].
  - intros j Hj. unfold object_at. destruct (Hfl j Hj). rewrite anth_put_ne by done. by apply He.
  - intros j Hj. rewrite anth_aset by lia. destruct (Z.eqb_spec i j); [done|by apply Hb].
  - intros j Hj Hne. rewrite hash_agree_hashed by done.
    rewrite anth_put_ne by (lia || congruence). by apply Hs.
Qed.
End put_entry.

(** Hashing and unhashing the entry being worked on. *)
Lemma same_cores_fields t t' j :
  same_cores t t' -> 0 <= j < alen t ->
  ie_object (anth t' j) = ie_object (anth t j) /\ ie_bits (anth t' j) = ie_bits (anth t j) /\
  ie_request (anth t' j) = ie_request (anth t j).
Proof. intros Hc Hj. pose proof (same_cores_anth _ _ _ Hc Hj) as [= ???]. done. Qed.

Lemma table_wf_rehash t t' fl i :
  table_wf t fl (Some i) -> hash_wf t' -> same_cores t t' ->
  (forall j, j <> i -> hashed t' j <-> hashed t j) -> table_wf t' fl (Some i).
Proof.
  intros [Hh Hm Hd Hc Hn Hf He Hb Hs] Hwf' Hcr Hhd.
  pose proof (same_cores_alen _ _ Hcr) as Hl.
  assert (forall j, j ∈ fl -> 0 <= j < alen t) as Hfl by (intros j Hj; apply Hf in Hj; lia).
  pose proof (hw_len _ Hh).
  split; rewrite <- ?Hl; try done.
  - unfold object_at. by rewrite (proj1 (same_cores_fields _ _ 0 Hcr ltac:(lia))).
  - apply fl_chain_agree with t; [|done]. intros j Hj.
    assert (0 <= j < alen t) by (destruct Hj as [->|Hj]; [lia|by apply Hfl]).
    by apply same_cores_fields.
  - intros j. rewrite Hf. split; intros (Hj&?&Hty); (split; [done|split; [done|]]);
      destruct (same_cores_fields _ _ j Hcr ltac:(lia)) as (_&Hbj&_); congruence.
  - intros j Hj. destruct (same_cores_fields _ _ j Hcr (Hfl j Hj)) as (Hoj&Hbj&_).
    unfold object_at. rewrite Hoj, Hbj. by apply He.
  - intros j Hj. destruct (same_cores_fields _ _ j Hcr ltac:(lia)) as (_&->&_). by apply Hb.
  - intros j Hj Hne. destruct (same_cores_fields _ _ j Hcr ltac:(lia)) as (_&->&_).
    rewrite Hhd by congruence. by apply Hs.
Qed.

(** The chain after taking its first element. *)
Lemma fl_chain_pop t i fl head :
  0 < i < alen t -> (forall j, j ∈ i :: fl -> 0 < j) -> fl_chain t 0 (i :: fl) ->
  ie_next head = ie_next (anth t i) -> fl_chain (aset t 0 head) 0 fl.
Proof.
  intros Hi H0 [_ Hc] Hn.
  assert (ie_next (anth (aset t 0 head) 0) = ie_next (anth t i)) as Hhd
    by (rewrite anth_aset_eq by lia; done).
  destruct fl as [|j fl]; simpl in *.
  - congruence.
  - destruct Hc as [Hj Hc]. split; [congruence|].
    apply fl_chain_agree with t; [|done]. intros x Hx.
    assert (0 < x) by (apply H0; set_solver). rewrite anth_aset_ne; [done|lia..].
Qed.

(** The free list is no longer than the table. *)
Lemma fl_length t fl cl : table_wf t fl cl -> Z.of_nat (length fl) < alen t.
Proof.
  intros Hwf. pose proof (hw_len _ (tw_hash _ _ _ Hwf)).
  assert (length fl <= length (seqZ 1 (alen t - 1)))%nat as Hl.
  { apply submseteq_length, NoDup_submseteq; [apply Hwf|].
    intros i Hi%(tw_free _ _ _ Hwf). apply elem_of_seqZ. lia. }
  rewrite length_seqZ in Hl. lia.
Qed.

Lemma hash_agree_trans t1 t2 t3 : hash_agree t1 t2 -> hash_agree t2 t3 -> hash_agree t1 t3.
Proof.
  intros H12 H23. pose proof (ha_len _ _ H12). split.
  - by rewrite (ha_len _ _ H23).
  - by rewrite (ha_size _ _ H23), (ha_size _ _ H12).
  - intros h Hh. rewrite (ha_index _ _ H23), (ha_index _ _ H12); [done|lia|lia].
  - intros h Hh. rewrite (ha_dist _ _ H23), (ha_dist _ _ H12); [done|lia|lia].
  - intros i Hi. rewrite (ha_object _ _ H23), (ha_object _ _ H12); [done|done|].
    by rewrite (hash_agree_hashed t1 t2).
Qed.

(** Writing only the [ie_next] of the head. *)
Lemma hash_agree_head t n : hash_wf t -> hash_agree t (aset t 0 (set_ie_next n (anth t 0))).
Proof.
  intros Hwf. pose proof (hw_len _ Hwf). apply hash_agree_aset; try done. lia.
Qed.

Section free_list_moves.
Context (t : list ipc_entry) (fl : list Z) (i : Z).

(** Taking the first free entry: it becomes the entry being worked on. *)
Lemma table_wf_pop :
  table_wf t (i :: fl) None ->
  table_wf (aset t 0 (set_ie_next (ie_next (anth t i)) (anth t 0))) fl (Some i).
Proof.
  intros [Hh Hm Hd Hc Hn Hf He Hb Hs].
  set (t' := aset t 0 (set_ie_next (ie_next (anth t i)) (anth t 0))).
  assert (hash_agree t t') as Ha by (by apply hash_agree_head).
  assert (forall j, 0 < j -> anth t' j = anth t j) as Hne by (intros; apply anth_aset_ne; lia).
  pose proof (hw_len _ Hh). apply NoDup_cons in Hn as [Hni Hn].
  assert (forall j, j ∈ i :: fl -> 0 < j) as Hpos by (intros j Hj; apply Hf in Hj; lia).
  assert (0 < i < alen t) as Hi by (apply Hf; set_solver).
  split; unfold t'; rewrite ?alen_aset; fold t'; try done.
  - by apply (hash_agree_wf t).
  - unfold object_at, t'. rewrite anth_aset_eq by lia. done.
  - by apply fl_chain_pop with i.
  - intros j. assert (j ∈ fl <-> j ∈ i :: fl /\ j <> i) as -> by set_solver.
    rewrite Hf. split.
    + intros [(?&_&?) ?]. rewrite Hne by lia. split; [done|]. split; [congruence|done].
    + intros (?&?&Hty). rewrite Hne in Hty by lia. split; [done|congruence].
  - intros j Hj. unfold object_at. rewrite Hne by (apply Hpos; set_solver). apply He. set_solver.
  - intros j Hj. rewrite Hne by lia. by apply Hb.
  - intros j Hj Hji. rewrite hash_agree_hashed, Hne by (done || lia). by apply Hs.
Qed.

(** Returning the entry being worked on, once it is not hashed. *)
Lemma table_wf_push e :
  table_wf t fl (Some i) -> 0 < i < alen t -> ~ hashed t i ->
  ie_dist e = ie_dist (anth t i) -> ie_index e = ie_index (anth t i) ->
  ie_object e = IO_NULL -> ie_next e = ie_next (anth t 0) ->
  (exists g r, 0 <= g < 64 /\ 0 <= r < 4 /\ ie_bits e = gen_bits g r) ->
  let t1 := aset t i e in
  table_wf (aset t1 0 (set_ie_next i (anth t1 0))) (i :: fl) None.
Proof.
  intros Hwf Hi Hnh Hdx Hix Hob Hnx (g&r&Hg&Hr&Hbe) t1.
  assert (table_wf t1 fl (Some i)) as Hwf1.
  { apply table_wf_put; try done. rewrite Hbe. by apply gen_bits_ok. }
  assert (~ hashed t1 i) as Hnh1.
  { unfold t1. rewrite hash_agree_hashed; [done|]. by apply put_entry_agree with (fl := fl). }
  pose proof (table_wf_notfree _ _ _ Hwf) as Hnf.
  assert (anth t1 i = e) as He1 by (apply anth_aset_eq; lia).
  assert (ie_next (anth t1 0) = ie_next (anth t 0)) as Hh1 by (unfold t1; by rewrite anth_aset_ne by lia).
  assert (alen t1 = alen t) as Hl1 by apply alen_aset.
  clearbody t1. destruct Hwf1 as [Hh Hm Hd Hc Hn Hf He Hb Hs].
  set (t' := aset t1 0 (set_ie_next i (anth t1 0))).
  assert (hash_agree t1 t') as Ha by (by apply hash_agree_head).
  assert (forall j, 0 < j -> anth t' j = anth t1 j) as Hne by (intros; apply anth_aset_ne; lia).
  assert (forall j, j ∈ fl -> 0 < j) as Hpos by (intros j Hj; apply Hf in Hj; lia).
  split; unfold t'; rewrite ?alen_aset; fold t'; try done.
  - by apply (hash_agree_wf t1).
  - unfold object_at, t'. rewrite anth_aset_eq by lia. done.
  - split; [unfold t'; by rewrite anth_aset_eq by lia|].
    assert (ie_next (anth t' i) = ie_next (anth t1 0)) as Hi' by (rewrite Hne, He1 by lia; congruence).
    destruct fl as [|j fl']; simpl in *; [congruence|]. destruct Hc as [Hj Hc].
    split; [congruence|]. apply fl_chain_agree with t1; [|done].
    intros x Hx. rewrite Hne; [done|]. apply Hpos. set_solver.
  - apply NoDup_cons. done.
  - intros j. rewrite elem_of_cons, Hf. split.
    + intros [->|(?&?&?)].
      * split; [lia|]. split; [done|]. rewrite Hne, He1, Hbe by lia. by apply gen_bits_type.
      * rewrite Hne by lia. done.
    + intros (?&_&Hty). rewrite Hne in Hty by lia. destruct (decide (j = i)) as [->|]; [by left|right].
      split; [done|]. split; [congruence|done].
  - intros j [->|Hj]%elem_of_cons.
    + unfold object_at. rewrite Hne, He1 by lia. split; [done|by exists g, r].
    + unfold object_at. rewrite Hne by auto. by apply He.
  - intros j Hj. rewrite Hne by lia. by apply Hb.
  - intros j Hj _. rewrite hash_agree_hashed, Hne by (done || lia).
    destruct (decide (j = i)) as [->|]; [|apply Hs; [done|congruence]].
    rewrite He1, Hbe, gen_bits_type by done. done.
Qed.
End free_list_moves.

(** The bits an entry keeps on the free list. *)
Lemma dealloc_bits b :
  bits_ok b -> exists g r, 0 <= g < 64 /\ 0 <= r < 4 /\
    Z.land b (Z.lor IE_BITS_GEN_MASK IE_BITS_ROLL_MASK) = gen_bits g r /\
    IE_BITS_GEN b = (4 * g + 3) * 2 ^ 24.
Proof.
  intros (Hb&g&Hg&Hgen). exists g, ((b / 2 ^ 22) mod 4). split; [done|]. split; [dlia|].
  split; [|done]. change (Z.lor _ _) with (Z.shiftl (Z.ones 10) 22). rewrite land_field by lia.
  rewrite IE_BITS_GEN_arith in Hgen. unfold gen_bits. dlia.
Qed.

(** ** Ripping an entry out of the middle of the free list *)
Lemma last_elem (l : list Z) d : List.last l d = d \/ List.last l d ∈ l.
Proof.
  induction l as [|x l _] using rev_ind; [by left|]. right. rewrite List.last_last. set_solver.
Qed.

Lemma fl_chain_unlink t i l1 l2 e from :
  (forall j, j ∈ from :: l1 ++ i :: l2 -> 0 <= j < alen t) ->
  NoDup (from :: l1 ++ i :: l2) -> fl_chain t from (l1 ++ i :: l2) ->
  ie_next e = ie_next (anth t i) ->
  fl_chain (aset t (List.last l1 from) e) from (l1 ++ l2).
Proof.
  revert from. induction l1 as [|y l1 IH]; intros from Hr Hnd Hc He.
  - simpl in *. destruct Hc as [Hi Hc].
    assert (forall j, j ∈ i :: l2 -> anth (aset t from e) j = anth t j) as Hne.
    { intros j Hj. apply anth_aset_ne; [apply Hr; set_solver|apply Hr; set_solver|].
      apply NoDup_cons in Hnd as [Hnd _]. set_solver. }
    assert (ie_next (anth (aset t from e) from) = ie_next (anth t i)) as Hf.
    { by rewrite anth_aset_eq by (apply Hr; set_solver). }
    destruct l2 as [|z l2]; simpl in *; [congruence|]. destruct Hc as [Hz Hc].
    split; [congruence|]. apply fl_chain_agree with t; [|done].
    intros j Hj. rewrite Hne; [done|set_solver].
  - rewrite last_cons_default. simpl in *. destruct Hc as [Hy Hc].
    apply NoDup_cons in Hnd as [Hfrom Hnd].
    assert (List.last l1 y ∈ y :: l1) as Hl
      by (apply elem_of_cons; apply last_elem).
    split.
    + rewrite anth_aset_ne; [done|apply Hr; set_solver|apply Hr; set_solver|].
      intros Heq. apply Hfrom. rewrite <- Heq. set_solver.
    + apply IH; [set_solver|done|done|done].
Qed.

Lemma table_wf_unlink t l1 l2 i :
  table_wf t (l1 ++ i :: l2) None ->
  let p := List.last l1 0 in
  table_wf (aset t p (set_ie_next (ie_next (anth t i)) (anth t p))) (l1 ++ l2) (Some i).
Proof.
  intros Hwf p. pose proof Hwf as [Hh Hm Hd Hc Hn Hf He Hb Hs]. pose proof (hw_len _ Hh) as Hlen.
  set (t' := aset t p (set_ie_next (ie_next (anth t i)) (anth t p))).
  assert (forall j, j ∈ 0 :: l1 ++ i :: l2 -> 0 <= j < alen t) as Hr.
  { intros j [->|Hj]%elem_of_cons; [lia|]. apply Hf in Hj. lia. }
  assert (p ∈ 0 :: l1) as Hp by (apply elem_of_cons; apply last_elem).
  assert (0 <= p < alen t) as Hpr by (apply Hr; set_solver).
  assert (0 ∉ l1 ++ i :: l2) as H0 by (intros H0%Hf; lia).
  assert (hash_agree t t') as Ha.
  { apply hash_agree_aset; try done. by intros ->. }
  assert (forall j, 0 <= j -> ie_bits (anth t' j) = ie_bits (anth t j) /\
    object_at t' j = object_at t j) as Hsame.
  { intros j Hj. unfold object_at, t'. rewrite anth_aset by lia. by destruct (Z.eqb_spec p j) as [<-|]. }
  assert (forall j, j ∈ l1 ++ l2 <-> j ∈ l1 ++ i :: l2 /\ j <> i) as Hel.
  { intros j. apply NoDup_app in Hn as (_&Hd1&[Hi2 _]%NoDup_cons). specialize (Hd1 i). set_solver. }
  split; unfold t'; rewrite ?alen_aset; fold t'; try done.
  - by apply (hash_agree_wf t).
  - by rewrite (proj2 (Hsame 0 ltac:(lia))).
  - apply fl_chain_unlink with i; [done|by apply NoDup_cons|done|done].
  - apply NoDup_app in Hn as (?&Hd1&[? ?]%NoDup_cons). apply NoDup_app. set_solver.
  - intros j. rewrite Hel, Hf. split.
    + intros ((?&_&?)&?). rewrite (proj1 (Hsame j ltac:(lia))). split; [done|]. split; [congruence|done].
    + intros (?&?&Hty). rewrite (proj1 (Hsame j ltac:(lia))) in Hty. split; [done|congruence].
  - intros j Hj. assert (j ∈ l1 ++ i :: l2) as Hj' by (by apply Hel).
    assert (0 <= j) by (apply Hr; set_solver). destruct (Hsame j) as [-> ->]; [done|]. by apply He.
  - intros j Hj. rewrite (proj1 (Hsame j ltac:(lia))). by apply Hb.
  - intros j Hj Hji. rewrite hash_agree_hashed, (proj1 (Hsame j ltac:(lia))) by done. by apply Hs.
Qed.
