(* ===== verification/IpcEntry.v ===== *)
(** * Capability entries ([osfmk/ipc/ipc_entry.c], [ipc_hash.c])

    Lookup, reservation, allocation, deallocation and table growth of the
    entries of a space, with the space-level wrappers of the reverse hash.
    An [ipc_entry_t] into the table is its index. *)

From S2P Require Import Prelude MachPort Prng IpcTable IpcHash IpcState IpcSpace.

Definition ITS_SIZE_NONE : Z := 0xffffffff.

Section operations.
Context `{KernelConfig} `{TableSizes} `{Concurrency}.

(** ** Reverse hash of the space *)
Definition ipc_hash_lookup (obj : Z) : M kst (option (Z * Z)) :=
  let* t := is_active_table in lift (ipc_hash_table_lookup t obj).

Definition ipc_hash_insert (obj name : Z) : M kst unit :=
  let index := MACH_PORT_INDEX name in
  mod_space (fun s => set_is_table_hashed (u32 (is_table_hashed s + 1)) s) ;;*
  let* t := is_active_table in
  let* t := lift (ipc_hash_table_insert t obj index) in
  put_table t.

Definition ipc_hash_delete (obj name : Z) : M kst unit :=
  let index := MACH_PORT_INDEX name in
  mod_space (fun s => set_is_table_hashed (u32 (is_table_hashed s - 1)) s) ;;*
  let* t := is_active_table in
  let* t := lift (ipc_hash_table_delete t obj index) in
  put_table t.

(** ** Lookup *)
Definition ipc_entry_lookup (name : Z) : M kst (option Z) :=
  let* table := is_active_table in
  let index := MACH_PORT_INDEX name in
  let* head := lift (aget table 0) in
  if (0 <? index) && (index <? ie_size head) then
    let* entry := lift (aget table index) in
    if negb (IE_BITS_GEN (ie_bits entry) =? MACH_PORT_GEN name) ||
       (IE_BITS_TYPE (ie_bits entry) =? MACH_PORT_TYPE_NONE)
    then ret None
    else massert (negb (IE_BITS_TYPE (ie_bits entry) =? 0)) "IE_BITS_TYPE(entry->ie_bits)" ;;*
         ret (Some index)
  else ret None.

(** ** Marking an entry modified *)
Definition ipc_entry_modified (name : Z) : M kst unit :=
  let index := MACH_PORT_INDEX name in
  let* table := is_active_table in
  let* head := lift (aget table 0) in
  let size := ie_size head in
  massert (index <? size) "index < size" ;;*
  let* s := get_space id in
  massert (is_low_mod s <=? size) "space->is_low_mod <= size" ;;*
  massert (is_high_mod s <? size) "space->is_high_mod < size" ;;*
  when (index <? is_low_mod s) (mod_space (set_is_low_mod index)) ;;*
  when (is_high_mod s <? index) (mod_space (set_is_high_mod index)).

(** ** Reserving free entries *)

(** The walk of the free list; [true] when [needed] entries are there. *)
Fixpoint hold_loop (needed : nat) (table : list ipc_entry) (size next_free : Z) : outcome bool :=
  match needed with
  | O => Done true
  | S needed =>
    let! entry := aget table next_free in
    let next_free := ie_next entry in
    if next_free =? 0 then Done false
    else
      kassert (next_free <? size) "next_free < table->ie_size" ;;!
      (if MACH_ASSERT then
         let! e := aget table next_free in
         kassert (ie_object e =? IO_NULL) "table[next_free].ie_object == IO_NULL"
       else Done tt) ;;!
      hold_loop needed table size next_free
  end.

Definition ipc_entries_hold (entries_needed : Z) : M kst kern_return_t :=
  let* table := is_active_table in
  let* head := lift (aget table 0) in
  let* hashed := get_space is_table_hashed in
  if u32 (ie_size head * 7) / 8 <? u32 (hashed + entries_needed) then ret KERN_NO_SPACE
  else
    let* held := lift (hold_loop (Z.to_nat entries_needed) table (ie_size head) 0) in
    if negb held then ret KERN_NO_SPACE
    else ipc_space_check_limit_exceeded ;;* ret KERN_SUCCESS.

(** ** Taking the first free entry; returns its name and index. *)
Definition ipc_entry_claim (object : Z) : M kst (kern_return_t * Z * Z) :=
  let* table := is_active_table in
  let* head := lift (aget table 0) in
  let first_free := ie_next head in
  massert (negb (first_free =? 0)) "first_free != 0" ;;*
  let* entry := lift (aget table first_free) in
  put_entry 0 (set_ie_next (ie_next entry) head) ;;*
  mod_space (fun s => set_is_table_free (u32 (is_table_free s - 1)) s) ;;*
  massert (ie_next entry <? ie_size head) "table->ie_next < table->ie_size" ;;*
  massert (ie_object entry =? IO_NULL) "entry->ie_object == IO_NULL" ;;*
  let gen := ipc_entry_new_gen (ie_bits entry) in
  let* gen :=
    if ipc_entry_gen_rolled (ie_bits entry) gen then
      let* roll := ipc_space_get_rollpoint in ret (ipc_entry_new_rollpoint roll)
    else ret gen in
  let* entry := get_entry first_free in
  put_entry first_free (set_ie_object object (set_ie_request IE_REQ_NONE (set_ie_bits gen entry))) ;;*
  let new_name := MACH_PORT_MAKE first_free gen in
  massert (MACH_PORT_VALID new_name) "MACH_PORT_VALID(new_name)" ;;*
  ret (KERN_SUCCESS, new_name, first_free).

(** ** Releasing an entry *)
Definition ipc_entry_dealloc (object name index : Z) : M kst unit :=
  let* entry := get_entry index in
  massert (ie_object entry =? object) "entry->ie_object == object" ;;*
  massert (ie_request entry =? IE_REQ_NONE) "entry->ie_request == IE_REQ_NONE" ;;*
  if negb (ie_request entry =? IE_REQ_NONE) then panic "ipc_entry_dealloc()"
  else
    let* table := is_active_table in
    let* head := lift (aget table 0) in
    massert ((0 <? MACH_PORT_INDEX name) && (MACH_PORT_INDEX name <? ie_size head))
      "index > 0 && index < size" ;;*
    massert (index =? MACH_PORT_INDEX name) "entry == &table[index]" ;;*
    massert (IE_BITS_GEN (ie_bits entry) =? MACH_PORT_GEN name)
      "IE_BITS_GEN(entry->ie_bits) == MACH_PORT_GEN(name)" ;;*
    let bits := Z.land (ie_bits entry) (Z.lor IE_BITS_GEN_MASK IE_BITS_ROLL_MASK) in
    put_entry index
      (set_ie_object IO_NULL (set_ie_next (ie_next head) (set_ie_bits bits entry))) ;;*
    let* head := get_entry 0 in
    put_entry 0 (set_ie_next (MACH_PORT_INDEX name) head) ;;*
    mod_space (fun s => set_is_table_free (u32 (is_table_free s + 1)) s) ;;*
    ipc_entry_modified name.

(** ** Growing the table *)
Definition is_growing : M kst bool := get_space (fun s => negb (is_grower s =? THREAD_NULL)).

Definition ipc_space_start_growing : M kst unit :=
  let* growing := is_growing in
  massert (negb growing) "!is_growing(is)" ;;*
  mod_space (set_is_grower current_thread).

Definition ipc_space_done_growing_and_unlock : M kst unit :=
  let* grower := get_space is_grower in
  massert (grower =? current_thread) "space->is_grower == current_thread()" ;;*
  mod_space (set_is_grower THREAD_NULL) ;;*
  interfere.

(** [while ((psize != size) && (target_size > size)) ...]: the first size that
    reaches the target. *)
Fixpoint grow_search (fuel : nat) (target_size psize its size : Z) : outcome (Z * Z * Z) :=
  match fuel with
  | O => Diverges
  | S fuel =>
    if negb (psize =? size) && (size <? target_size) then
      let! nsize := aget ipc_table_entries (its + 1) in
      grow_search fuel target_size size (its + 1) nsize
    else Done (psize, its, size)
  end.

(** The old table as other threads see it; it outlives the space's pointer. *)
Definition read_otable (last : list ipc_entry) : M kst (list ipc_entry) :=
  interfere ;;*
  let* t := get_space is_table in
  ret (default last t).

(** Bring entry [i] of the new table in line with a snapshot. *)
Definition grow_copy_entry (table : list ipc_entry) (i osnap_object osnap_bits osnap_request : Z)
    : outcome (list ipc_entry) :=
  let! entry := aget table i in
  if negb (ie_object entry =? osnap_object) ||
     negb (IE_BITS_TYPE (ie_bits entry) =? IE_BITS_TYPE osnap_bits) then
    let! table :=
      if negb (ie_object entry =? IO_NULL) &&
         (IE_BITS_TYPE (ie_bits entry) =? MACH_PORT_TYPE_SEND)
      then ipc_hash_table_delete table (ie_object entry) i
      else Done table in
    let! entry := aget table i in
    let table := aset table i
      (set_ie_request osnap_request (set_ie_bits osnap_bits (set_ie_object osnap_object entry))) in
    if negb (osnap_object =? IO_NULL) && (IE_BITS_TYPE osnap_bits =? MACH_PORT_TYPE_SEND)
    then ipc_hash_table_insert table osnap_object i
    else Done table
  else Done (aset table i (set_ie_request osnap_request (set_ie_bits osnap_bits entry))).

(** [for (i = low_mod; i <= hi_mod; i++)]: the three fields of a snapshot are
    separate unlocked reads. *)
Fixpoint grow_scan (count : nat) (i : Z) (table otable : list ipc_entry)
    : M kst (list ipc_entry * list ipc_entry) :=
  match count with
  | O => ret (table, otable)
  | S count =>
    let* otable := read_otable otable in
    let* o1 := lift (aget otable i) in
    let* otable := read_otable otable in
    let* o2 := lift (aget otable i) in
    let* otable := read_otable otable in
    let* o3 := lift (aget otable i) in
    let* table := lift (grow_copy_entry table i (ie_object o1) (ie_bits o2) (ie_request o3)) in
    grow_scan count (i + 1) table otable
  end.

(** The end of the free list of the new table. *)
Fixpoint grow_free_end (fuel : nat) (table : list ipc_entry) (osize free_index : Z) : outcome Z :=
  match fuel with
  | O => Done free_index
  | S fuel =>
    let! entry := aget table free_index in
    if negb (ie_object entry =? IO_NULL) then Done free_index
    else
      let i := ie_next entry in
      if (i =? 0) || (osize <=? i) then Done free_index
      else grow_free_end fuel table osize i
  end.

(** From [rescan:] on; one more round each time the space was modified while
    it was unlocked. *)
Fixpoint grow_pass (fuel : nat) (its nits osize size target_size : Z)
    (table otable : list ipc_entry) (low_mod hi_mod : Z) : M kst kern_return_t :=
  match fuel with
  | O => fun _ => Diverges
  | S fuel =>
    massert (0 <? low_mod) "low_mod > 0" ;;*
    let* (table, otable) := grow_scan (Z.to_nat (hi_mod - low_mod + 1)) low_mod table otable in
    let* otable := read_otable otable in
    let* ohead := lift (aget otable 0) in
    let* head := lift (aget table 0) in
    let table := aset table 0 (set_ie_next (ie_next ohead) head) in
    let* free_index := lift (grow_free_end (Z.to_nat osize) table osize 0) in
    interfere ;;* (* is_write_lock *)
    let* active := is_active in
    if negb active then
      ipc_space_done_growing_and_unlock ;;* ret KERN_SUCCESS
    else
      let* s := get_space id in
      if is_low_mod s <? osize then
        massert (0 <? is_high_mod s) "space->is_high_mod > 0" ;;*
        mod_space (set_is_low_mod osize) ;;*
        mod_space (set_is_high_mod 0) ;;*
        grow_pass fuel its nits osize size target_size table otable (is_low_mod s) (is_high_mod s)
      else
        let* last := lift (aget table free_index) in
        massert ((ie_next last =? 0) && (ie_object last =? IO_NULL))
          "table[free_index].ie_next == 0 && table[free_index].ie_object == IO_NULL" ;;*
        let table := aset table free_index (set_ie_next osize last) in
        let* cur := get_entry 0 in
        massert (ie_size cur =? osize) "otable->ie_size == osize" ;;*
        massert ((is_table_next s =? its) || negb (target_size =? ITS_SIZE_NONE))
          "space->is_table_next == its" ;;*
        mod_space (set_is_table_next nits) ;;*
        mod_space (fun s => set_is_table_free (u32 (is_table_free s + (size - osize))) s) ;;*
        put_table table ;;*
        ipc_space_done_growing_and_unlock ;;*
        ret KERN_SUCCESS
  end.

(** [no_space:] *)
Definition grow_no_space : M kst kern_return_t :=
  ipc_space_set_at_max_limit ;;* ret KERN_NO_SPACE.

(** The part that allocates and fills the new table. *)
Definition grow_allocate (rescans : nat) (memory : bool) (its osize size target_size : Z)
    (otable : list ipc_entry) : M kst kern_return_t :=
  let nits := its + 1 in
  let* nsize := lift (aget ipc_table_entries nits) in
  massert ((osize <? size) && (size <=? nsize)) "(osize < size) && (size <= nsize)" ;;*
  ipc_space_start_growing ;;*
  mod_space (set_is_low_mod osize) ;;*
  mod_space (set_is_high_mod 0) ;;*
  match it_entries_alloc memory size with
  | None =>
    interfere ;;*
    ipc_space_done_growing_and_unlock ;;* ret KERN_RESOURCE_SHORTAGE
  | Some table =>
    interfere ;;*
    let* s := get_space id in
    let* (table, s) := lift (ipc_space_rand_freelist s table osize size) in
    mod_space (fun s0 => set_is_entropy (is_entropy s) (set_is_bool_gen (is_bool_gen s) s0)) ;;*
    grow_pass rescans its nits osize size target_size table otable 1 (osize - 1)
  end.

(** [rescans] bounds the number of passes over the old table. *)
Definition ipc_entry_grow_table (rescans : nat) (memory : bool) (target_size : Z)
    : M kst kern_return_t :=
  let* growing := is_growing in
  if growing then interfere ;;* ret KERN_SUCCESS (* is_write_sleep *)
  else
    let* otable := is_active_table in
    let* its := get_space is_table_next in
    let* size := lift (aget ipc_table_entries its) in
    let* osize := lift (aget ipc_table_entries (its - 1)) in
    if negb (target_size =? ITS_SIZE_NONE) then
      if target_size <=? osize then ret KERN_SUCCESS
      else
        let* (psize, its, size) :=
          lift (grow_search (S (Z.to_nat its_count)) target_size osize its size) in
        if psize =? size then grow_no_space
        else if osize =? size then grow_no_space
        else grow_allocate rescans memory its osize size target_size otable
    else if osize =? size then grow_no_space
    else grow_allocate rescans memory its osize size target_size otable.

(** ** Allocation *)

(** The [for (;;)] loops go round once per table growth; [rounds] bounds
    them, [rescans] the passes of each growth. *)
Fixpoint ipc_entry_alloc (rounds rescans : nat) (memory : bool) (object : Z)
    : M kst (kern_return_t * option (Z * Z)) :=
  match rounds with
  | O => fun _ => Diverges
  | S rounds =>
    let* active := is_active in
    if negb active then ret (KERN_INVALID_TASK, None)
    else
      let* kr := ipc_entries_hold 1 in
      if bool_decide (kr = KERN_SUCCESS) then
        let* (kr, name, index) := ipc_entry_claim object in
        ret (kr, Some (name, index))
      else
        let* kr := ipc_entry_grow_table rescans memory ITS_SIZE_NONE in
        if bool_decide (kr = KERN_SUCCESS)
        then ipc_entry_alloc rounds rescans memory object
        else ret (kr, None)
  end.

(** [for (free_index = 0; (next_index = table[free_index].ie_next) != index; ...)]:
    the predecessor of [index] on the free list. *)
Fixpoint free_predecessor (fuel : nat) (table : list ipc_entry) (index free_index : Z) : outcome Z :=
  match fuel with
  | O => Diverges
  | S fuel =>
    let! entry := aget table free_index in
    if ie_next entry =? index then Done free_index
    else free_predecessor fuel table index (ie_next entry)
  end.

(** Case 4 of [ipc_entry_alloc_name]: rip a free entry out of the free list. *)
Definition alloc_name_free (index gen : Z) : M kst unit :=
  let* table := is_active_table in
  let* free_index := lift (free_predecessor (length table) table index 0) in
  let* prev := lift (aget table free_index) in
  let* entry := lift (aget table index) in
  put_entry free_index (set_ie_next (ie_next entry) prev) ;;*
  mod_space (fun s => set_is_table_free (u32 (is_table_free s - 1)) s) ;;*
  let* prev := get_entry free_index in
  ipc_entry_modified (MACH_PORT_MAKE free_index (IE_BITS_GEN (ie_bits prev))) ;;*
  let* entry := get_entry index in
  put_entry index (set_ie_request IE_REQ_NONE (set_ie_bits gen entry)) ;;*
  massert (ie_object entry =? IO_NULL) "entry->ie_object == IO_NULL".

Fixpoint alloc_name_loop (rounds rescans : nat) (memory : bool) (index gen : Z)
    : M kst (kern_return_t * option Z) :=
  match rounds with
  | O => fun _ => Diverges
  | S rounds =>
    let* active := is_active in
    if negb active then ret (KERN_INVALID_TASK, None)
    else
      let* table := is_active_table in
      let* head := lift (aget table 0) in
      if index <? ie_size head then
        let* entry := lift (aget table index) in
        if index =? 0 then ret (KERN_FAILURE, None)
        else if negb (IE_BITS_TYPE (ie_bits entry) =? 0) then
          if IE_BITS_GEN (ie_bits entry) =? gen then ret (KERN_SUCCESS, Some index)
          else ret (KERN_FAILURE, None)
        else alloc_name_free index gen ;;* ret (KERN_SUCCESS, Some index)
      else
        let* kr := ipc_entry_grow_table rescans memory (index + 1) in
        if bool_decide (kr = KERN_SUCCESS)
        then alloc_name_loop rounds rescans memory index gen
        else ret (kr, None)
  end.

Definition ipc_entry_alloc_name (rounds rescans : nat) (memory : bool) (name : Z)
    : M kst (kern_return_t * option Z) :=
  let index := MACH_PORT_INDEX name in
  let gen := MACH_PORT_GEN name in
  if anth ipc_table_entries (its_count - 1) <? index then ret (KERN_NO_SPACE, None)
  else if negb (name =? ipc_entry_name_mask name) then ret (KERN_INVALID_VALUE, None)
  else
    massert (MACH_PORT_VALID name) "MACH_PORT_VALID(name)" ;;*
    alloc_name_loop rounds rescans memory index gen.
End operations.
