(* ===== verification/EntrySpec.v ===== *)
(** * The entry operations keep a space well formed

    Rules for the entry operations of [IpcEntry] on a well-formed space: what
    each returns on each branch and what it leaves.  Names do not outlive their
    entry, generations recur only after 15 allocations, and the
    free list is a permutation of the free entries throughout. *)

From S2P Require Import Prelude MachPort Prng IpcTable IpcHash IpcState IpcSpace EntryFacts IpcEntry.

(** ** Executing operations on the space *)
Definition upd_space (f : ipc_space -> ipc_space) (k : kst) : kst := set_ks_space (f (ks_space k)) k.

Section rules.
Context (k : kst) (t : list ipc_entry) (Ht : is_table (ks_space k) = Some t).

Lemma wp_is_active_table Q : Q t k -> wp is_active_table Q k.
Proof using Ht. intros HQ. unfold wp, is_active_table, bind, get_space, gets. by rewrite Ht. Qed.

Lemma wp_is_active Q : Q true k -> wp is_active Q k.
Proof using Ht.
  intros HQ. unfold wp, is_active, get_space, gets. rewrite Ht. by rewrite bool_decide_true.
Qed.

Lemma wp_put_table t' Q :
  Q tt (upd_space (set_is_table (Some t')) k) -> wp (put_table t') Q k.
Proof using. done. Qed.

Lemma wp_get_entry i Q : 0 <= i < alen t -> Q (anth t i) k -> wp (get_entry i) Q k.
Proof using Ht.
  intros Hi HQ. apply wp_bind, wp_is_active_table, (wp_lift _ (anth t i)); [|done].
  by apply aget_in.
Qed.

Lemma wp_put_entry i e Q :
  0 <= i < alen t -> Q tt (upd_space (set_is_table (Some (aset t i e))) k) ->
  wp (put_entry i e) Q k.
Proof using Ht.
  intros Hi HQ. apply wp_bind, wp_is_active_table, wp_bind, (wp_lift _ (anth t i)); [|done].
  by apply aget_in.
Qed.

Lemma wp_aget i Q : 0 <= i < alen t -> Q (anth t i) k -> wp (lift (aget t i)) Q k.
Proof using. intros Hi HQ. apply (wp_lift _ (anth t i)); [by apply aget_in|done]. Qed.
End rules.

Lemma wp_mod_space f Q k : Q tt (upd_space f k) -> wp (mod_space f) Q k.
Proof. done. Qed.
Lemma wp_get_space {A} (f : ipc_space -> A) Q k : Q (f (ks_space k)) k -> wp (get_space f) Q k.
Proof. done. Qed.
Lemma wp_emit f args Q k :
  Q tt (set_ks_trace (ks_trace k ++ [Call f args]) k) -> wp (emit f args) Q k.
Proof. done. Qed.

(** Nothing but the space changed. *)
Definition only_space (k k' : kst) : Prop :=
  ks_ports k' = ks_ports k /\ ks_psets k' = ks_psets k /\ ks_timestamp k' = ks_timestamp k /\
  ks_trace k' = ks_trace k /\ ks_clock k' = ks_clock k.
#[global] Instance only_space_preorder : PreOrder only_space.
Proof. split; [done|]. intros k1 k2 k3 (?&?&?&?&?) (?&?&?&?&?). unfold only_space. intuition congruence. Qed.
Lemma only_space_upd f k : only_space k (upd_space f k).
Proof. done. Qed.

(** ** Lookup *)

(** The entry a name denotes. *)
Definition name_entry (t : list ipc_entry) (name : Z) : option Z :=
  let i := MACH_PORT_INDEX name in
  if (0 <? i) && (i <? alen t) && (IE_BITS_GEN (ie_bits (anth t i)) =? MACH_PORT_GEN name) &&
     negb (type_at t i =? MACH_PORT_TYPE_NONE)
  then Some i else None.

Lemma name_entry_Some t name i :
  name_entry t name = Some i <->
  i = MACH_PORT_INDEX name /\ 0 < i < alen t /\
  IE_BITS_GEN (ie_bits (anth t i)) = MACH_PORT_GEN name /\ type_at t i <> MACH_PORT_TYPE_NONE.
Proof.
  unfold name_entry. set (j := MACH_PORT_INDEX name).
  destruct (Z.ltb_spec 0 j), (Z.ltb_spec j (alen t)),
    (Z.eqb_spec (IE_BITS_GEN (ie_bits (anth t j))) (MACH_PORT_GEN name)),
    (Z.eqb_spec (type_at t j) MACH_PORT_TYPE_NONE); simpl; split; naive_solver lia.
Qed.

(** The name of an entry on the free list denotes nothing. *)
Lemma freed_name t i fl name :
  table_wf t (i :: fl) None -> MACH_PORT_INDEX name = i -> name_entry t name = None.
Proof.
  intros Hwf Hix. destruct (name_entry t name) as [j|] eqn:Hj; [|done].
  apply name_entry_Some in Hj as (->&_&_&Hty). rewrite Hix in Hty. destruct Hty.
  apply (tw_free _ _ _ Hwf i). set_solver.
Qed.

Section entry_rules.
Context `{KernelConfig} `{TableSizes} `{Concurrency}.

Lemma ipc_entry_lookup_ok k t fl cl name Q :
  space_wf (ks_space k) t fl cl -> Q (name_entry t name) k -> wp (ipc_entry_lookup name) Q k.
Proof.
  intros [Ht [Hh _ _ _ _ _ _ _ _] _ _ _ _] HQ. pose proof (hw_len _ Hh). pose proof (hw_size _ Hh) as Hs.
  apply wp_bind, (wp_is_active_table _ t); [done|]. apply wp_bind, wp_aget; [lia|].
  rewrite Hs. unfold name_entry, type_at in HQ.
  destruct ((0 <? MACH_PORT_INDEX name) && (MACH_PORT_INDEX name <? alen t)) eqn:Hi; [|done].
  apply andb_true_iff in Hi as [Hi1%Z.ltb_lt Hi2%Z.ltb_lt].
  apply wp_bind, wp_aget; [lia|]. simpl in HQ.
  destruct (IE_BITS_GEN _ =? _); simpl in *; [|done].
  destruct (IE_BITS_TYPE (ie_bits (anth t (MACH_PORT_INDEX name))) =? MACH_PORT_TYPE_NONE) eqn:Hty;
    simpl in *; [done|].
  apply wp_bind, wp_massert; [|done]. unfold MACH_PORT_TYPE_NONE in Hty. by rewrite Hty.
Qed.

(** ** Claiming the first free entry *)

(** The generation after [(g, r)]: the next one, or the first with a new
    rollover point. *)
Definition gen_next (g r g' r' : Z) : Prop :=
  if g <? last_gen r then g' = g + 1 /\ r' = r else g' = 0.

Lemma gen_next_range g r g' r' : 0 <= g < 64 -> 0 <= r -> gen_next g r g' r' -> 0 <= g' < 64.
Proof. unfold gen_next, last_gen. zsolve. Qed.

Lemma gen_name_valid i g r :
  0 < i -> i < MACH_PORT_INDEX MACH_PORT_DEAD -> 0 <= g < 64 -> 0 <= r < 4 ->
  MACH_PORT_VALID (MACH_PORT_MAKE i (gen_bits g r)) = true /\
  ipc_entry_name_mask (MACH_PORT_MAKE i (gen_bits g r)) = MACH_PORT_MAKE i (gen_bits g r).
Proof.
  intros Hi Hd Hg Hr. change (MACH_PORT_INDEX MACH_PORT_DEAD) with (2 ^ 24 - 1) in Hd.
  assert (MACH_PORT_MAKE i (gen_bits g r) = i * 2 ^ 8 + (4 * g + 3)) as ->.
  { rewrite MACH_PORT_MAKE_arith by (unfold gen_bits; lia). unfold gen_bits. dlia. }
  split.
  - unfold MACH_PORT_VALID, MACH_PORT_NULL, MACH_PORT_DEAD. zsolve.
  - unfold ipc_entry_name_mask. change (MACH_PORT_MAKE 0 _) with 3.
    replace (i * 2 ^ 8 + (4 * g + 3)) with ((i * 2 ^ 6 + g) * 2 ^ 2 + 3) by lia.
    rewrite <- (lor_low _ 3 2), <- Z.lor_assoc by lia. done.
Qed.

Record claimed (k : kst) (t : list ipc_entry) (fl : list Z) (i object : Z) (name : Z) (k' : kst) : Prop := {
  cm_space : exists t', space_wf (ks_space k') t' fl (Some i) /\ hash_agree t t' /\ ~ hashed t' i /\
    (forall j, 0 < j -> j <> i -> anth t' j = anth t j) /\
    (exists g r g' r', 0 <= g' < 64 /\ 0 <= r' < 4 /\
      (0 <= g < 64 /\ 0 <= r < 4 /\ ie_bits (anth t i) = gen_bits g r) /\ gen_next g r g' r' /\ name = MACH_PORT_MAKE i (gen_bits g' r') /\
      anth t' i = mk_ipc_entry object (gen_bits g' r') (ie_dist (anth t i)) (ie_index (anth t i)) IE_REQ_NONE);
  cm_range : 0 < i < alen t;
  cm_frame : only_space k k';
  cm_task : is_self (ks_space k') = is_self (ks_space k);
}.

(** The generation drawn for an allocation. *)
Lemma claim_gen_ok k g r Q :
  0 <= g < 64 -> 0 <= r < 4 ->
  (forall g' r' s', gen_next g r g' r' -> 0 <= r' < 4 -> only_rng (ks_space k) s' ->
     Q (gen_bits g' r') (upd_space (fun _ => s') k)) ->
  wp (if ipc_entry_gen_rolled (gen_bits g r) (ipc_entry_new_gen (gen_bits g r))
      then let* roll := ipc_space_get_rollpoint in ret (ipc_entry_new_rollpoint roll)
      else ret (ipc_entry_new_gen (gen_bits g r))) Q k.
Proof.
  intros Hg Hr HQ. pose proof (gen_step g r Hg Hr) as Hs. unfold gen_next in HQ.
  destruct (g <? last_gen r).
  - destruct Hs as [-> ->]. apply wp_ret.
    specialize (HQ (g + 1) r (ks_space k)). unfold upd_space in HQ. destruct k; simpl in *. by apply HQ.
  - rewrite Hs. unfold wp, bind, ipc_space_get_rollpoint, ipc_space_random_bits, ret.
    pose proof (random_bool_gen_bits_range (is_bool_gen (ks_space k)) (is_entropy (ks_space k))
                  IE_BITS_ROLL_BITS_nat ltac:(unfold IE_BITS_ROLL_BITS_nat; lia)) as Hrb.
    pose proof (random_bits_only_rng IE_BITS_ROLL_BITS_nat (ks_space k)) as Hrng.
    unfold ipc_space_random_bits in Hrng.
    destruct (random_bool_gen_bits _ _ _) as [[roll bg] pool]. simpl in Hrb, Hrng.
    change (2 ^ Z.of_nat IE_BITS_ROLL_BITS_nat) with 4 in Hrb.
    rewrite rollpoint_bits by done. by apply HQ.
Qed.

Lemma fl_next_small t fl cl : table_wf t fl cl -> forall j, j = 0 \/ j ∈ fl ->
  0 <= ie_next (anth t j) < alen t.
Proof.
  intros Hwf. pose proof (hw_len _ (tw_hash _ _ _ Hwf)).
  assert (forall l from, fl_chain t from l -> (forall j, j ∈ l -> 0 < j < alen t) ->
    forall j, j = from \/ j ∈ l -> 0 <= ie_next (anth t j) < alen t) as Hgen.
  { induction l as [|x l IH]; simpl; intros from Hc Hr j Hj.
    - destruct Hj as [->|Hj]; [lia|set_solver].
    - destruct Hc as [Hx Hc]. destruct Hj as [->|Hj].
      + specialize (Hr x ltac:(set_solver)). lia.
      + apply (IH x Hc); [set_solver|set_solver]. }
  intros j Hj. apply (Hgen fl 0); [apply Hwf| |done].
  intros x Hx. by apply (tw_free _ _ _ Hwf) in Hx as [? _].
Qed.

Lemma ipc_entry_claim_ok k t i fl object :
  space_wf (ks_space k) t (i :: fl) None ->
  wp (ipc_entry_claim object) (fun r k' => exists name,
    r = (KERN_SUCCESS, name, i) /\ claimed k t fl i object name k' /\
    ipc_entry_name_mask name = name /\ MACH_PORT_VALID name = true) k.
Proof.
  intros [Ht Hwf Hhc Hfc Hlo Hhi]. pose proof (hw_len _ (tw_hash _ _ _ Hwf)) as Hlen.
  pose proof (hw_size _ (tw_hash _ _ _ Hwf)) as Hsz.
  assert (i ∈ i :: fl) as Hin by set_solver.
  pose proof (proj1 (tw_free _ _ _ Hwf i) Hin) as (Hi&_&Hty).
  destruct (tw_free_entry _ _ _ Hwf i Hin) as [Hob (g&r&Hg&Hr&Hb)].
  pose proof (fl_next_small t _ _ Hwf i ltac:(by right)) as Hnx.
  pose proof (tw_chain _ _ _ Hwf) as [Hhd _]. unfold object_at in Hob.
  set (t1 := aset t 0 (set_ie_next (ie_next (anth t i)) (anth t 0))).
  assert (table_wf t1 fl (Some i)) as Hwf1 by (by apply table_wf_pop).
  assert (hash_agree t t1) as Ha1 by (apply hash_agree_head, Hwf).
  assert (alen t1 = alen t) as Hl1 by apply alen_aset.
  assert (anth t1 i = anth t i) as H1i by (apply anth_aset_ne; lia).
  assert (~ hashed t i) as Hnh.
  { rewrite (tw_hashed _ _ _ Hwf i) by done. by rewrite Hty. }
  unfold ipc_entry_claim.
  apply wp_bind, (wp_is_active_table _ t); [done|]. apply wp_bind, wp_aget; [lia|]. rewrite Hhd, Hsz.
  apply wp_bind, wp_massert; [zsolve|]. apply wp_bind, wp_aget; [lia|].
  apply wp_bind, (wp_put_entry _ t); [done|lia|]. fold t1. apply wp_bind, wp_mod_space.
  apply wp_bind, wp_massert; [zsolve|]. apply wp_bind, wp_massert; [zsolve|].
  rewrite Hb. apply wp_bind, claim_gen_ok; [done..|].
  intros g' r' s' Hgn Hr' Hrng. pose proof (gen_next_range g r g' r' Hg ltac:(lia) Hgn) as Hg'.
  assert (is_table s' = Some t1) as Hs't by (by rewrite Hrng).
  apply wp_bind, (wp_get_entry _ t1); [done|lia|].
  apply wp_bind, (wp_put_entry _ t1); [done|lia|]. rewrite H1i.
  set (e := set_ie_object object (set_ie_request IE_REQ_NONE (set_ie_bits (gen_bits g' r') (anth t i)))).
  destruct (gen_name_valid i g' r') as [Hv Hm]; [lia|pose proof (tw_max _ _ _ Hwf); lia|done|done|].
  apply wp_bind, wp_massert; [done|]. apply wp_ret.
  assert (~ hashed t1 i) as Hnh1 by (by rewrite (hash_agree_hashed t t1)).
  assert (hash_agree t1 (aset t1 i e)) as Ha2.
  { apply put_entry_agree with (fl := fl); try done; [lia|by rewrite H1i|by rewrite H1i]. }
  eexists. split; [reflexivity|]. split; [|done]. split; [|lia|done|by rewrite Hrng].
  exists (aset t1 i e). split; [|split; [|split; [|split]]].
  - assert (table_wf (aset t1 i e) fl (Some i)) as Hwf2.
    { apply table_wf_put; try done; [lia|by rewrite H1i|by rewrite H1i|by apply gen_bits_ok]. }
    split; simpl; rewrite ?alen_aset, ?Hl1; try done; rewrite Hrng; simpl; try done.
    + rewrite (hash_agree_count t1), (hash_agree_count t); [done|apply Hwf|done|apply Hwf1|done].
    + rewrite Hfc. simpl length. unfold u32. rewrite Z.mod_small; [lia|].
      assert (Z.of_nat (length fl) < 2 ^ 32) as Hfl; [|lia].
      pose proof (tw_max _ _ _ Hwf) as Hmax. change (MACH_PORT_INDEX MACH_PORT_DEAD) with (2 ^ 24 - 1) in Hmax.
      pose proof (fl_length _ _ _ Hwf). simpl in *. lia.
  - by apply hash_agree_trans with t1.
  - by rewrite (hash_agree_hashed t1).
  - intros j Hj Hne. rewrite anth_aset_ne by lia. unfold t1. by rewrite anth_aset_ne by lia.
  - exists g, r, g', r'. split; [done|]. split; [done|]. split; [done|]. split; [done|].
    split; [done|]. by rewrite anth_aset_eq by lia.
Qed.

(** ** Marking *)
Lemma ipc_entry_modified_ok k t fl cl name Q :
  space_wf (ks_space k) t fl cl -> 0 <= MACH_PORT_INDEX name < alen t ->
  (forall lo hi, 0 <= lo <= is_low_mod (ks_space k) -> lo <= MACH_PORT_INDEX name ->
     is_high_mod (ks_space k) <= hi < alen t -> MACH_PORT_INDEX name <= hi ->
     Q tt (upd_space (fun s => set_is_high_mod hi (set_is_low_mod lo s)) k)) ->
  wp (ipc_entry_modified name) Q k.
Proof.
  intros [Ht Hwf Hhc Hfc Hlo Hhi] Hi HQ. pose proof (hw_len _ (tw_hash _ _ _ Hwf)) as Hlen.
  pose proof (hw_size _ (tw_hash _ _ _ Hwf)) as Hsz. unfold ipc_entry_modified.
  apply wp_bind, (wp_is_active_table _ t); [done|]. apply wp_bind, wp_aget; [lia|]. rewrite Hsz.
  apply wp_bind, wp_massert; [zsolve|]. apply wp_bind, wp_get_space. unfold id.
  apply wp_bind, wp_massert; [zsolve|]. apply wp_bind, wp_massert; [zsolve|].
  unfold wp, bind, when, mod_space, modify, ret.
  set (n := MACH_PORT_INDEX name) in *. destruct k as [s ports psets ts tr ck], s. simpl in *.
  destruct (Z.ltb_spec n is_low_mod), (Z.ltb_spec is_high_mod n); simpl.
  - apply (HQ n n); lia.
  - apply (HQ n is_high_mod); lia.
  - apply (HQ is_low_mod n); lia.
  - apply (HQ is_low_mod is_high_mod); lia.
Qed.

Lemma space_wf_mods s t fl cl lo hi :
  space_wf s t fl cl -> 0 <= lo <= alen t -> 0 <= hi < alen t ->
  space_wf (set_is_high_mod hi (set_is_low_mod lo s)) t fl cl.
Proof. intros [Ht Hwf Hhc Hfc Hlo Hhi] ??. by split. Qed.

(** ** Releasing the entry being worked on *)
Record released (k : kst) (t : list ipc_entry) (fl : list Z) (i : Z) (k' : kst) : Prop := {
  re_space : exists t', space_wf (ks_space k') t' (i :: fl) None /\ hash_agree t t' /\
    (forall j, 0 < j -> j <> i -> anth t' j = anth t j) /\
    IE_BITS_GEN (ie_bits (anth t' i)) = IE_BITS_GEN (ie_bits (anth t i));
  re_frame : only_space k k';
  re_self : is_self (ks_space k') = is_self (ks_space k);
}.

Lemma gen_bits_gen g r : 0 <= g < 64 -> 0 <= r < 4 -> IE_BITS_GEN (gen_bits g r) = (4 * g + 3) * 2 ^ 24.
Proof. intros. rewrite IE_BITS_GEN_arith. unfold gen_bits. dlia. Qed.

Lemma ipc_entry_dealloc_ok k t fl i name :
  space_wf (ks_space k) t fl (Some i) -> 0 < i < alen t -> ~ hashed t i ->
  ie_request (anth t i) = IE_REQ_NONE -> MACH_PORT_INDEX name = i ->
  IE_BITS_GEN (ie_bits (anth t i)) = MACH_PORT_GEN name ->
  wp (ipc_entry_dealloc (object_at t i) name i) (fun _ k' => released k t fl i k') k.
Proof.
  intros Hsw Hi Hnh Hreq Hni Hgen. pose proof Hsw as [Ht Hwf Hhc Hfc Hlo Hhi].
  pose proof (hw_len _ (tw_hash _ _ _ Hwf)) as Hlen.
  pose proof (hw_size _ (tw_hash _ _ _ Hwf)) as Hsz.
  destruct (dealloc_bits _ (tw_bits _ _ _ Hwf i Hi)) as (g&r&Hg&Hr&Hland&Hgb).
  unfold ipc_entry_dealloc. apply wp_bind, (wp_get_entry _ t); [done|lia|].
  apply wp_bind, wp_massert; [unfold object_at; lia|]. apply wp_bind, wp_massert; [lia|].
  rewrite Hreq. simpl negb. cbv iota.
  apply wp_bind, (wp_is_active_table _ t); [done|]. apply wp_bind, wp_aget; [lia|].
  rewrite Hni, Hsz. apply wp_bind, wp_massert; [lia|]. apply wp_bind, wp_massert; [lia|].
  apply wp_bind, wp_massert; [lia|]. rewrite Hland.
  set (e := set_ie_object IO_NULL (set_ie_next (ie_next (anth t 0)) (set_ie_bits (gen_bits g r) (anth t i)))).
  set (t1 := aset t i e). assert (alen t1 = alen t) as Hl1 by apply alen_aset.
  apply wp_bind, (wp_put_entry _ t); [done|lia|]. fold t1.
  apply wp_bind, (wp_get_entry _ t1); [done|lia|]. apply wp_bind, (wp_put_entry _ t1); [done|lia|].
  set (t2 := aset t1 0 (set_ie_next i (anth t1 0))). apply wp_bind, wp_mod_space.
  assert (table_wf t2 (i :: fl) None) as Hwf2 by (apply table_wf_push; eauto 6).
  assert (hash_agree t t1) as Ha1 by (by apply put_entry_agree with (fl := fl)).
  assert (hash_agree t t2) as Ha2.
  { apply hash_agree_trans with t1; [done|]. by apply hash_agree_head, (hash_agree_wf t); [apply Hwf|]. }
  assert (alen t2 = alen t) as Hl2 by (by apply ha_len).
  pose proof (fl_length _ _ _ Hwf2) as Hfl. simpl length in Hfl.
  pose proof (tw_max _ _ _ Hwf) as Hmax. change (MACH_PORT_INDEX MACH_PORT_DEAD) with (2 ^ 24 - 1) in Hmax.
  match goal with |- wp _ _ ?k2 =>
    assert (space_wf (ks_space k2) t2 (i :: fl) None) as Hsw2 end.
  { split; simpl; rewrite ?Hl2; try done.
    - rewrite Hhc. f_equal. symmetry. apply hash_agree_count; [apply Hwf|done].
    - rewrite Hfc. unfold u32. rewrite Z.mod_small; lia. }
  eapply (ipc_entry_modified_ok _ t2 _ _); [exact Hsw2|lia|]. intros lo hi ????. simpl in *.
  split; [|done|done]. exists t2. split; [|split; [done|split]].
  - apply space_wf_mods; [done|lia|lia].
  - intros j Hj Hne. unfold t2, t1. by rewrite !anth_aset_ne by lia.
  - unfold t2, t1. rewrite anth_aset_ne, anth_aset_eq by (rewrite ?alen_aset; lia). simpl.
    by rewrite gen_bits_gen.
Qed.

(** ** Reserving *)
Lemma hold_loop_ok t n : forall l from,
  fl_chain t from l -> 0 <= from < alen t ->
  (forall j, j ∈ l -> 0 < j < alen t /\ object_at t j = IO_NULL) ->
  hold_loop n t (alen t) from = Done (n <=? length l)%nat.
Proof.
  induction n as [|n IH]; intros l from Hc Hfrom Hl; [done|].
  cbn [hold_loop]. rewrite aget_in by done. cbn [obind].
  destruct l as [|x l]; simpl in Hc; [by rewrite Hc|]. destruct Hc as [-> Hc].
  destruct (Hl x) as [Hx Hxo]; [set_solver|].
  destruct (Z.eqb_spec x 0); [lia|]. rewrite kassert_true by lia. cbn [obind].
  rewrite aget_in by lia. cbn [obind]. rewrite kassert_true by (unfold object_at in Hxo; lia).
  rewrite (IH l x) by (done || lia || set_solver). by destruct MACH_ASSERT.
Qed.

(** Only the limit flags of the space and the trace may have changed. *)
Definition limits_noted (k k' : kst) : Prop :=
  k' = k \/ exists bit, k' = set_ks_trace (ks_trace k ++ [Call "act_set_astproc_resource" []])
                          (upd_space (fun s => set_is_bits (Z.lor (is_bits s) bit) s) k).

Lemma check_limit_ok k t fl cl Q :
  space_wf (ks_space k) t fl cl -> (forall k', limits_noted k k' -> Q tt k') ->
  wp ipc_space_check_limit_exceeded Q k.
Proof.
  intros [Ht Hwf _ _ _ _] HQ. pose proof (hw_len _ (tw_hash _ _ _ Hwf)).
  unfold ipc_space_check_limit_exceeded.
  apply wp_bind, (wp_is_active_table _ t); [done|]. apply wp_bind, wp_aget; [lia|].
  apply wp_bind, wp_get_space. unfold id.
  destruct (_ && _ && _); [|destruct (_ && _ && _)].
  - apply wp_bind. apply wp_mod_space, wp_emit, HQ. right. by exists IS_ABOVE_SOFT_LIMIT_NOTIFY.
  - apply wp_bind. apply wp_mod_space, wp_emit, HQ. right. by exists IS_ABOVE_HARD_LIMIT_NOTIFY.
  - apply wp_ret, HQ. by left.
Qed.

Lemma limits_noted_wf k k' t fl cl :
  limits_noted k k' -> space_wf (ks_space k) t fl cl -> space_wf (ks_space k') t fl cl.
Proof. intros [->|[bit ->]] [????? ?]; [by split|by split]. Qed.

(** Whether [n] entries can be reserved. *)
Definition can_hold (t : list ipc_entry) (fl : list Z) (n : Z) : bool :=
  (Z.of_nat (hash_count t) + n <=? alen t * 7 / 8) && (n <=? Z.of_nat (length fl)).

Lemma hash_count_le t : hash_wf t -> Z.of_nat (hash_count t) <= alen t.
Proof. intros _. unfold hash_count, alen. pose proof (length_filter (fun e => ie_index e <> 0) t). lia. Qed.

Lemma ipc_entries_hold_ok k t fl cl n Q :
  space_wf (ks_space k) t fl cl -> 0 <= n < 2 ^ 31 ->
  (can_hold t fl n = true -> forall k', limits_noted k k' -> Q KERN_SUCCESS k') ->
  (can_hold t fl n = false -> Q KERN_NO_SPACE k) ->
  wp (ipc_entries_hold n) Q k.
Proof.
  intros Hsw Hn HT HF. pose proof Hsw as [Ht Hwf Hhc Hfc Hlo Hhi].
  pose proof (hw_len _ (tw_hash _ _ _ Hwf)). pose proof (hw_size _ (tw_hash _ _ _ Hwf)) as Hsz.
  pose proof (hash_count_le t (tw_hash _ _ _ Hwf)) as Hcl.
  pose proof (tw_max _ _ _ Hwf) as Hmax. change (MACH_PORT_INDEX MACH_PORT_DEAD) with (2 ^ 24 - 1) in Hmax.
  unfold ipc_entries_hold. apply wp_bind, (wp_is_active_table _ t); [done|].
  apply wp_bind, wp_aget; [lia|]. apply wp_bind, wp_get_space. rewrite Hhc, Hsz.
  unfold u32. rewrite !Z.mod_small by lia. unfold can_hold in *.
  destruct (Z.ltb_spec (alen t * 7 / 8) (Z.of_nat (hash_count t) + n)) as [Hlt|Hge].
  { apply wp_ret, HF. destruct (Z.leb_spec (Z.of_nat (hash_count t) + n) (alen t * 7 / 8)); [lia|done]. }
  rewrite (proj2 (Z.leb_le _ _) Hge) in *. simpl in HT, HF.
  apply wp_bind, (wp_lift _ (Z.to_nat n <=? length fl)%nat).
  - apply hold_loop_ok; [apply Hwf|lia|]. intros j Hj. split.
    + by apply (tw_free _ _ _ Hwf) in Hj as [? _].
    + by apply (tw_free_entry _ _ _ Hwf).
  - destruct (Nat.leb_spec (Z.to_nat n) (length fl)) as [Hle|Hgt]; simpl.
    + apply wp_bind, (check_limit_ok _ t fl cl); [done|]. intros k' Hk'. apply wp_ret, HT; [lia|done].
    + apply wp_ret, HF. lia.
Qed.

(** ** Allocating by name *)
Lemma free_predecessor_ok t i l1 l2 : forall from fuel,
  fl_chain t from (l1 ++ i :: l2) -> i ∉ l1 -> (length l1 < fuel)%nat ->
  (forall j, j ∈ from :: l1 -> 0 <= j < alen t) ->
  free_predecessor fuel t i from = Done (List.last l1 from).
Proof.
  induction l1 as [|y l1 IH]; intros from [|fuel] Hc Hi Hf Hr; simpl in Hf; try lia;
    cbn [free_predecessor]; rewrite aget_in by (apply Hr; set_solver); cbn [obind].
  - destruct Hc as [-> _]. by rewrite Z.eqb_refl.
  - destruct Hc as [-> Hc]. destruct (Z.eqb_spec y i) as [->|]; [set_solver|].
    rewrite last_cons_default. apply IH; [done|set_solver|lia|set_solver].
Qed.

Record ripped (k : kst) (t : list ipc_entry) (l1 l2 : list Z) (i gen : Z) (k' : kst) : Prop := {
  rp_space : exists t', space_wf (ks_space k') t' (l1 ++ l2) (Some i) /\ hash_agree t t' /\
    ~ hashed t' i /\
    (forall j, 0 < j -> j <> i -> ie_bits (anth t' j) = ie_bits (anth t j) /\
       object_at t' j = object_at t j) /\
    anth t' i = mk_ipc_entry IO_NULL gen (ie_dist (anth t i)) (ie_index (anth t i)) IE_REQ_NONE;
  rp_low_mod : is_low_mod (ks_space k') <= List.last l1 0;
  rp_frame : only_space k k';
  rp_self : is_self (ks_space k') = is_self (ks_space k);
}.

Lemma alloc_name_free_ok k t l1 i l2 gen :
  space_wf (ks_space k) t (l1 ++ i :: l2) None -> bits_ok gen ->
  wp (alloc_name_free i gen) (fun _ k' => ripped k t l1 l2 i gen k') k.
Proof.
  intros [Ht Hwf Hhc Hfc Hlo Hhi] Hgen. pose proof (hw_len _ (tw_hash _ _ _ Hwf)) as Hlen.
  pose proof (tw_nodup _ _ _ Hwf) as Hnd.
  assert (forall j, j ∈ l1 ++ i :: l2 -> 0 < j < alen t) as Hr
    by (intros j Hj; by apply (tw_free _ _ _ Hwf) in Hj as [? _]).
  assert (i ∈ l1 ++ i :: l2) as Hin by set_solver.
  pose proof (Hr i Hin) as Hi. pose proof (tw_free_entry _ _ _ Hwf i Hin) as [Hob _].
  assert (i ∉ l1) as Hni by (apply NoDup_app in Hnd as (_&Hd&_); intros Hx; apply (Hd i Hx); set_solver).
  set (p := List.last l1 0).
  assert (p ∈ 0 :: l1) as Hp by (apply elem_of_cons, last_elem).
  assert (0 <= p < alen t) as Hpr by (apply elem_of_cons in Hp as [->|Hp]; [lia|]; enough (0 < p < alen t) by lia; apply Hr; set_solver).
  assert (p <> i) as Hpi by (apply elem_of_cons in Hp as [->|Hp]; [lia|congruence]).
  set (t1 := aset t p (set_ie_next (ie_next (anth t i)) (anth t p))).
  assert (table_wf t1 (l1 ++ l2) (Some i)) as Hwf1 by (by apply table_wf_unlink).
  assert (hash_agree t t1) as Ha1.
  { apply hash_agree_aset; try done; [apply Hwf|by intros ->]. }
  assert (alen t1 = alen t) as Hl1 by apply alen_aset.
  assert (anth t1 i = anth t i) as H1i by (apply anth_aset_ne; lia).
  assert (~ hashed t1 i) as Hnh1.
  { rewrite (hash_agree_hashed t), (tw_hashed _ _ _ Hwf i) by done.
    apply (tw_free _ _ _ Hwf) in Hin as (_&_&->). done. }
  assert (Z.of_nat (length (l1 ++ l2)) = is_table_free (ks_space k) - 1) as Hfl.
  { rewrite Hfc, !length_app. simpl. lia. }
  pose proof (fl_length _ _ _ Hwf1) as Hfl1. rewrite Hl1 in Hfl1.
  pose proof (tw_max _ _ _ Hwf) as Hmax. change (MACH_PORT_INDEX MACH_PORT_DEAD) with (2 ^ 24 - 1) in Hmax.
  unfold alloc_name_free. apply wp_bind, (wp_is_active_table _ t); [done|].
  apply wp_bind, (wp_lift _ p).
  { apply free_predecessor_ok with l2; [apply Hwf|done| |].
    - pose proof (fl_length _ _ _ Hwf) as Hx. rewrite length_app in Hx. unfold alen in Hx. simpl in Hx. lia.
    - intros j [->|Hj]%elem_of_cons; [lia|]. enough (0 < j < alen t) by lia. apply Hr. set_solver. }
  apply wp_bind, wp_aget; [lia|]. apply wp_bind, wp_aget; [lia|].
  apply wp_bind, (wp_put_entry _ t); [done|lia|]. fold t1. apply wp_bind, wp_mod_space.
  apply wp_bind, (wp_get_entry _ t1); [done|lia|].
  match goal with |- wp _ _ ?k1 => assert (space_wf (ks_space k1) t1 (l1 ++ l2) (Some i)) as Hsw1 end.
  { split; simpl; rewrite ?Hl1; try done.
    - rewrite Hhc. f_equal. symmetry. apply hash_agree_count; [apply Hwf|done].
    - unfold u32. rewrite Z.mod_small; lia. }
  set (name := MACH_PORT_MAKE p (IE_BITS_GEN (ie_bits (anth t1 p)))).
  assert (MACH_PORT_INDEX name = p) as Hnp.
  { apply MACH_PORT_INDEX_MAKE; [lia|]. rewrite IE_BITS_GEN_arith. dlia. }
  apply wp_bind. eapply (ipc_entry_modified_ok _ t1 (l1 ++ l2) (Some i)); [exact Hsw1|lia|].
  rewrite Hnp, Hl1. intros lo hi Hlo1 Hlo2 Hhi1 Hhi2.
  apply wp_bind, (wp_get_entry _ t1); [done|lia|]. apply wp_bind, (wp_put_entry _ t1); [done|lia|].
  rewrite H1i. apply wp_massert; [unfold object_at in Hob; lia|].
  set (e := set_ie_request IE_REQ_NONE (set_ie_bits gen (anth t i))).
  assert (table_wf (aset t1 i e) (l1 ++ l2) (Some i)) as Hwf2.
  { apply table_wf_put; try done; [lia|by rewrite H1i|by rewrite H1i]. }
  assert (hash_agree t1 (aset t1 i e)) as Ha2.
  { apply put_entry_agree with (fl := l1 ++ l2); try done; [lia|by rewrite H1i|by rewrite H1i]. }
  simpl in Hlo1, Hhi1. split; [|simpl; lia|done|done].
  exists (aset t1 i e). split; [|split; [by apply hash_agree_trans with t1|split; [|split]]].
  - split; simpl; rewrite ?alen_aset, ?Hl1; try done; try lia.
    + rewrite Hhc. f_equal. symmetry. apply hash_agree_count; [apply Hwf|].
      by apply hash_agree_trans with t1.
    + unfold u32. rewrite Z.mod_small; lia.
  - by rewrite (hash_agree_hashed t1).
  - intros j Hj Hne. unfold object_at. rewrite anth_aset_ne by lia. unfold t1.
    rewrite anth_aset by lia. by destruct (Z.eqb_spec p j) as [->|].
  - rewrite anth_aset_eq by lia. unfold e, object_at in *. unfold set_ie_request, set_ie_bits. simpl.
    by rewrite Hob.
Qed.
End entry_rules.
