(* ===== verification/EntryProps.v ===== *)
(** * Properties of the entry operations

    The contract of [ipc_entry_claim], [ipc_entry_dealloc], [ipc_entry_lookup]
    and [ipc_entry_alloc_name] on a well-formed space, the life time of names, and what an
    allocation by name does to a concurrent growth of the table. *)

From S2P Require Import Prelude MachPort Prng IpcTable IpcHash IpcState IpcSpace EntryFacts IpcEntry EntrySpec.

Section claims.
Context `{KernelConfig} `{TableSizes} `{Concurrency}.

(** C12. Claiming an entry: on a well-formed space whose free list is not
    empty, [ipc_entry_claim] takes the first free entry, gives it the object
    and a new generation, and returns a valid name that carries the default
    generation bits; the rest of the free list, every other entry and the
    reverse hash are unchanged, and nothing outside the space is touched. *)
Theorem ipc_entry_claim_spec k t i fl object :
  space_wf (ks_space k) t (i :: fl) None ->
  wp (ipc_entry_claim object) (fun r k' => exists name,
    r = (KERN_SUCCESS, name, i) /\ claimed k t fl i object name k' /\
    ipc_entry_name_mask name = name /\ MACH_PORT_VALID name = true) k.
Proof. apply ipc_entry_claim_ok. Qed.

(** C13. Releasing an entry: [ipc_entry_dealloc] of an entry that is not
    hashed and has no pending request restores a well-formed space with the
    entry first on the free list; afterwards the released name denotes
    nothing, and every name of another entry denotes what it did before. *)
Theorem ipc_entry_dealloc_spec k t fl i name :
  space_wf (ks_space k) t fl (Some i) -> 0 < i < alen t -> ~ hashed t i ->
  ie_request (anth t i) = IE_REQ_NONE -> MACH_PORT_INDEX name = i ->
  IE_BITS_GEN (ie_bits (anth t i)) = MACH_PORT_GEN name ->
  wp (ipc_entry_dealloc (object_at t i) name i ;;* ipc_entry_lookup name)
    (fun r k' => r = None /\ exists t', space_wf (ks_space k') t' (i :: fl) None /\
       forall n, MACH_PORT_INDEX n <> i -> name_entry t' n = name_entry t n) k.
Proof.
  intros Hsw Hi Hnh Hreq Hni Hgen.
  apply wp_bind. eapply wp_mono; [by apply ipc_entry_dealloc_ok|].
  intros _ k' [(t'&Hsw'&Ha&Hoth&_) _ _]. pose proof (ha_len _ _ Ha) as Hl.
  eapply ipc_entry_lookup_ok; [done|]. split.
  - apply (freed_name t' i fl); [apply Hsw'|done].
  - exists t'. split; [done|]. intros n Hn. unfold name_entry, type_at. rewrite Hl.
    destruct (Z.ltb_spec 0 (MACH_PORT_INDEX n)) as [Hpos|]; [|done]. by rewrite Hoth by done.
Qed.

Lemma name_mask_gen name :
  0 <= name < 2 ^ 32 -> ipc_entry_name_mask name = name -> bits_ok (MACH_PORT_GEN name).
Proof.
  intros Hn Hm. unfold ipc_entry_name_mask in Hm.
  change (MACH_PORT_MAKE 0 (u32 (IE_BITS_GEN_MASK + IE_BITS_GEN_ONE))) with 3 in Hm.
  assert (name mod 4 = 3) as H4.
  { change 4 with (2 ^ 2). rewrite <- (Z.land_ones name 2), <- Hm by lia.
    change (Z.ones 2) with 3. apply Z.bits_inj'. intros b Hb.
    rewrite Z.land_spec, Z.lor_spec. by destruct (Z.testbit name b), (Z.testbit 3 b). }
  rewrite MACH_PORT_GEN_arith. split; [dlia|]. exists (name mod 256 / 4).
  rewrite IE_BITS_GEN_arith. split; dlia.
Qed.

(** Allocating a given name whose index lies in the table: a free entry is
    taken out of the free list, wherever it is, and gets exactly that name's generation;
    an entry in use under that very name is found; an entry in use under another
    generation makes the call fail with [KERN_FAILURE]; the last two leave the state as it was. *)
Theorem ipc_entry_alloc_name_spec k t fl name rounds rescans memory :
  space_wf (ks_space k) t fl None -> alen t <= anth ipc_table_entries (its_count - 1) ->
  0 <= name < 2 ^ 32 -> ipc_entry_name_mask name = name -> 0 < MACH_PORT_INDEX name < alen t ->
  let i := MACH_PORT_INDEX name in
  wp (ipc_entry_alloc_name (S rounds) rescans memory name) (fun r k' =>
    if type_at t i =? MACH_PORT_TYPE_NONE then
      r = (KERN_SUCCESS, Some i) /\
      exists l1 l2, fl = l1 ++ i :: l2 /\ ripped k t l1 l2 i (MACH_PORT_GEN name) k'
    else if IE_BITS_GEN (ie_bits (anth t i)) =? MACH_PORT_GEN name
    then r = (KERN_SUCCESS, Some i) /\ k' = k
    else r = (KERN_FAILURE, None) /\ k' = k) k.
Proof.
  intros Hsw Hmax Hn Hm Hi i. pose proof Hsw as [Ht Hwf _ _ _ _].
  pose proof (hw_len _ (tw_hash _ _ _ Hwf)). pose proof (hw_size _ (tw_hash _ _ _ Hwf)) as Hsz.
  pose proof (tw_max _ _ _ Hwf) as Hd. fold i in Hi.
  unfold ipc_entry_alloc_name. fold i.
  destruct (Z.ltb_spec (anth ipc_table_entries (its_count - 1)) i); [lia|].
  rewrite Hm, Z.eqb_refl. cbn [negb].
  apply wp_bind, wp_massert.
  { unfold MACH_PORT_VALID. destruct (Z.eqb_spec name MACH_PORT_NULL) as [->|];
      [unfold i in Hi; change (MACH_PORT_INDEX MACH_PORT_NULL) with 0 in Hi; lia|].
    destruct (Z.eqb_spec name MACH_PORT_DEAD) as [->|]; [unfold i in Hi; lia|done]. }
  cbn [alloc_name_loop]. apply wp_bind, (wp_is_active _ t); [done|]. cbn [negb].
  apply wp_bind, (wp_is_active_table _ t); [done|]. apply wp_bind, wp_aget; [lia|]. rewrite Hsz.
  destruct (Z.ltb_spec i (alen t)); [|lia]. apply wp_bind, wp_aget; [lia|].
  destruct (Z.eqb_spec i 0); [lia|]. fold (type_at t i). change MACH_PORT_TYPE_NONE with 0.
  destruct (Z.eqb_spec (type_at t i) 0) as [Hty|Hty]; cbn [negb].
  - assert (i ∈ fl) as Hin by (apply (tw_free _ _ _ Hwf); done).
    apply list_elem_of_split in Hin as (l1&l2&->).
    apply wp_bind. eapply wp_mono; [apply alloc_name_free_ok; [done|by apply name_mask_gen]|].
    intros u k' Hk'. apply wp_ret. split; [done|]. by exists l1, l2.
  - destruct (IE_BITS_GEN _ =? _); by apply wp_ret.
Qed.
End claims.

Lemma ipc_entry_claim_spec_witness :
  exists name i k', @ipc_entry_claim DEVELOPMENT 0x1000 demo_state = Done ((KERN_SUCCESS, name, i), k').
Proof.
  destruct demo_state_wf as (t&i&fl&Hwf&_).
  pose proof (@ipc_entry_claim_spec DEVELOPMENT demo_state t i fl 0x1000 Hwf) as Hw.
  destruct (wp_elim _ _ _ Hw) as (r&k'&Hr&name&->&_). exists name, i, k'. exact Hr.
Defined.

Lemma ipc_entry_dealloc_spec_witness :
  exists name i k1 k2,
    @ipc_entry_claim DEVELOPMENT 0 demo_state = Done ((KERN_SUCCESS, name, i), k1) /\
    (@ipc_entry_dealloc DEVELOPMENT 0 name i ;;* @ipc_entry_lookup DEVELOPMENT name) k1 = Done (None, k2).
Proof.
  destruct demo_state_wf as (t&i&fl&Hwf&_).
  destruct (wp_elim _ _ _ (@ipc_entry_claim_ok DEVELOPMENT demo_state t i fl 0 Hwf))
    as (res&k1&Hr&name&->&[(t'&Hsw&Ha&Hnh&_&g&r&g'&r'&Hg&Hr'&_&_&Hn&He) Hi _ _]&_).
  pose proof (ha_len _ _ Ha) as Hl.
  assert (alen t <= 2 ^ 24 - 1) as Hmax by exact (tw_max _ _ _ (sw_wf _ _ _ _ Hwf)).
  assert (0 <= gen_bits g' r' < 2 ^ 32) as Hgb by (unfold gen_bits; lia).
  assert (object_at t' i = 0) as Ho by (unfold object_at; rewrite He; reflexivity).
  assert (ie_request (anth t' i) = IE_REQ_NONE) as Hq by (rewrite He; reflexivity).
  assert (MACH_PORT_INDEX name = i) as Hni.
  { rewrite Hn. apply MACH_PORT_INDEX_MAKE; [lia|exact Hgb]. }
  assert (IE_BITS_GEN (ie_bits (anth t' i)) = MACH_PORT_GEN name) as Hgen.
  { rewrite Hn, MACH_PORT_GEN_MAKE, He; [reflexivity|lia|exact Hgb]. }
  pose proof (@ipc_entry_dealloc_spec DEVELOPMENT k1 t' fl i name Hsw ltac:(lia) Hnh Hq Hni Hgen) as Hw.
  rewrite Ho in Hw. destruct (wp_elim _ _ _ Hw) as (r2&k2&Hr2&->&_).
  exists name, i, k1, k2. split; [exact Hr|exact Hr2].
Defined.

(** ** How long a name stays unused *)

(** The bits [ipc_entry_claim] gives an entry with bits [bits], when
    the rollover point drawn is [roll]. *)
Definition claim_gen (bits roll : Z) : Z :=
  let gen := ipc_entry_new_gen bits in
  if ipc_entry_gen_rolled bits gen then ipc_entry_new_rollpoint roll else gen.

Lemma claim_gen_next g r roll :
  0 <= g < 64 -> 0 <= r < 4 -> 0 <= roll < 4 ->
  exists g' r', claim_gen (gen_bits g r) roll = gen_bits g' r' /\ gen_next g r g' r' /\
    0 <= g' < 64 /\ 0 <= r' < 4.
Proof.
  intros Hg Hr Hroll. pose proof (gen_step g r Hg Hr) as Hs. unfold claim_gen, gen_next.
  destruct (Z.ltb_spec g (last_gen r)) as [Hlt|].
  - destruct Hs as [-> ->]. exists (g + 1), r. unfold last_gen in Hlt. repeat split; lia.
  - rewrite Hs, rollpoint_bits by done. exists 0, roll. repeat split; lia.
Qed.

(** After a rollover the generation counts up from 0 for at least 14 steps. *)
Lemma claim_gen_count rolls : forall g r,
  0 <= g -> 0 <= r < 4 -> g + Z.of_nat (length rolls) <= 14 ->
  (forall x, x ∈ rolls -> 0 <= x < 4) ->
  exists r', 0 <= r' < 4 /\
    fold_left claim_gen rolls (gen_bits g r) = gen_bits (g + Z.of_nat (length rolls)) r'.
Proof.
  induction rolls as [|x rolls IH]; intros g r Hg Hr Hlen Hx; simpl in *.
  { exists r. rewrite Z.add_0_r. done. }
  destruct (claim_gen_next g r x) as (g'&r'&->&Hn&Hg'&Hr'); [lia|done|apply Hx; set_solver|].
  unfold gen_next, last_gen in Hn. destruct (Z.ltb_spec g (62 - 16 * r)); [|lia].
  destruct Hn as [-> ->]. destruct (IH (g + 1) r) as (r2&?&->); [lia|done|lia|set_solver|].
  exists r2. split; [done|]. f_equal. lia.
Qed.

(** From any generation, one to fourteen allocations lead to another one. *)
Lemma claim_gen_fresh rolls : forall g0 g r,
  0 <= g < 64 -> 0 <= r < 4 -> (forall x, x ∈ rolls -> 0 <= x < 4) ->
  g0 < g -> g - g0 + Z.of_nat (length rolls) <= 14 -> 0 <= g0 ->
  exists g' r', fold_left claim_gen rolls (gen_bits g r) = gen_bits g' r' /\
    0 <= g' < 64 /\ 0 <= r' < 4 /\ g' <> g0.
Proof.
  induction rolls as [|x rolls IH]; intros g0 g r Hg Hr Hx Hlt Hlen H0; simpl in *.
  { exists g, r. repeat split; lia. }
  destruct (claim_gen_next g r x) as (g'&r'&->&Hn&Hg'&Hr'); [lia|done|apply Hx; set_solver|].
  unfold gen_next, last_gen in Hn. destruct (Z.ltb_spec g (62 - 16 * r)).
  - destruct Hn as [-> ->]. apply IH; [lia|lia|set_solver|lia|lia|lia].
  - subst g'. destruct (claim_gen_count rolls 0 r') as (r2&?&->); [lia|done|lia|set_solver|].
    exists (0 + Z.of_nat (length rolls)), r2. repeat split; lia.
Qed.


(** The rollover periods are one short of the table in [ipc_entry.h]: with
    rollover bits 0, 1, 2 and 3 a generation recurs after 63, 47, 31 and 15
    allocations, where the comment gives 64, 48, 32 and 16. *)
Theorem rollover_periods :
  forallb (fun r => let b := ipc_entry_new_rollpoint r in
    let period := 63 - 16 * r in
    (fold_left claim_gen (replicate (Z.to_nat period) r) b =? b) &&
    forallb (fun n => negb (IE_BITS_GEN (fold_left claim_gen (replicate (Z.to_nat (n + 1)) r) b)
                            =? IE_BITS_GEN b)) (seqZ 0 (period - 1))) (seqZ 0 4) = true.
Proof. vm_compute. done. Qed.

Lemma ipc_entry_alloc_name_spec_witness :
  exists r k', @ipc_entry_alloc_name DEVELOPMENT SMALL_4K quiet 1 1 true 0x503 demo_state = Done (r, k').
Proof.
  destruct demo_state_wf as (t&i&fl&Hwf&Hl).
  pose proof (@ipc_entry_alloc_name_spec DEVELOPMENT SMALL_4K quiet demo_state t (i :: fl) 0x503 0 1 true
    Hwf ltac:(rewrite Hl; vm_compute; discriminate) ltac:(lia) eq_refl
    ltac:(rewrite Hl; change (MACH_PORT_INDEX 0x503) with 5; lia)) as Hw.
  destruct (wp_elim _ _ _ Hw) as (r&k'&Hr&_). exists r, k'. exact Hr.
Defined.
