(* ===== verification/IpcPort.v ===== *)
(** * Ports ([osfmk/ipc/ipc_port.c], [ipc_port.h], [ipc_notify.c], [ipc_object.h])

    Reference counts and life of a port, its send and send-once rights, the
    no-senders and dead-name notifications, and the table of dead-name
    requests. *)

From S2P Require Import Prelude MachPort Prng OsRefcnt IpcTable IpcHash IpcState.

Definition IP_NULL : Z := 0.
Definition IP_DEAD : Z := 2 ^ 64 - 1.
Definition IP_VALID (p : Z) : bool := negb (p =? IP_NULL) && negb (p =? IP_DEAD).
Definition IP_KOBJECT_NSREQUEST_ARMED : Z := 1.
Definition IO_BITS_ACTIVE : Z := 0x80000000.
Definition IO_BITS_KOTYPE : Z := 0x3ff.
Definition IO_BITS_KOBJECT : Z := 0x800.
Definition IO_BITS_KOLABEL : Z := 0x400.
Definition IP_BIT_FILTER_MSG : Z := 0x1000.
Definition IOT_PORT : Z := 0.
Definition IOT_PORT_SET : Z := 1.
Definition io_makebits (active : bool) (otype kotype : Z) : Z :=
  Z.lor (Z.lor (if active then IO_BITS_ACTIVE else 0) (Z.shiftl otype 16)) kotype.
Definition MACH_PORT_QLIMIT_KERNEL : Z := 65534.
Definition IPC_PORT_INIT_MAKE_SEND_RIGHT : Z := 1.
Definition IPC_PORT_INIT_SPECIAL_REPLY : Z := 4.
Definition IPC_PORT_INIT_FILTER_MESSAGE : Z := 8.
Definition IPC_PORT_INIT_TG_BLOCK_TRACKING : Z := 0x10.
Definition ISPL_FLAGS_SEND_PD_NOTIFICATION : Z := 2.

(** ** Predicates of [ipc_port.h] *)
Definition ip_active (p : ipc_port) : bool := has (io_bits p) IO_BITS_ACTIVE.
Definition ip_in_a_space (p : ipc_port) : bool :=
  ip_active p && negb (ip_receiver_name p =? MACH_PORT_NULL).
Definition ip_in_space (p : ipc_port) (space : Z) : bool :=
  ip_in_a_space p && (ip_receiver p =? space).
Definition ip_in_transit (p : ipc_port) : bool :=
  ip_active p && negb (ip_in_a_space p) && negb (ip_destination p =? IP_NULL).
Definition ip_in_limbo (p : ipc_port) : bool :=
  ip_active p && negb (ip_in_a_space p) && (ip_destination p =? IP_NULL).
Definition ip_get_receiver (p : ipc_port) : Z := if ip_in_a_space p then ip_receiver p else 0.
Definition ip_get_destination (p : ipc_port) : Z :=
  if ip_active p && negb (ip_in_a_space p) then ip_destination p else IP_NULL.
Definition ip_in_pset (p : ipc_port) : bool := bool_decide (ip_psets p <> []).
Definition ip_is_kobject (p : ipc_port) : bool := has (io_bits p) IO_BITS_KOBJECT.
Definition ip_is_kolabeled (p : ipc_port) : bool := has (io_bits p) IO_BITS_KOLABEL.
Definition ip_kotype (p : ipc_port) : Z := Z.land (io_bits p) IO_BITS_KOTYPE.
Definition ip_full (p : ipc_port) : bool := imq_qlimit p <=? imq_msgcount p.
Definition ip_full_kernel (p : ipc_port) : bool := MACH_PORT_QLIMIT_KERNEL <=? imq_msgcount p.
Definition ip_get_imp_task (p : ipc_port) : Z :=
  if negb (ip_is_kobject p) && negb (ip_specialreply p) && ip_tempowner p then ip_kobject p else 0.

Definition IPS_NULL : Z := 0.
Definition IS_NULL : Z := 0.
Definition ips_active (s : ipc_pset) : bool := has (ips_io_bits s) IO_BITS_ACTIVE.
Definition set_ips_references (v : Z) (s : ipc_pset) : ipc_pset := mk_ipc_pset (ips_io_bits s) v.
Definition set_ips_io_bits (v : Z) (s : ipc_pset) : ipc_pset := mk_ipc_pset v (ips_references s).

(** ** Access to ports by address *)
Definition get_port (a : Z) : M kst ipc_port :=
  fun k => match ks_ports k !! a with
           | Some p => Done (p, k)
           | None => Panic "dangling port"
           end.
Definition put_port (a : Z) (p : ipc_port) : M kst unit :=
  modify (fun k => set_ks_ports (<[a := p]> (ks_ports k)) k).
Definition mod_port (a : Z) (f : ipc_port -> ipc_port) : M kst unit :=
  let* p := get_port a in put_port a (f p).
Definition del_port (a : Z) : M kst unit :=
  modify (fun k => set_ks_ports (delete a (ks_ports k)) k).

(** ** Access to port sets by address *)
Definition get_pset (a : Z) : M kst ipc_pset :=
  fun k => match ks_psets k !! a with
           | Some s => Done (s, k)
           | None => Panic "dangling port set"
           end.
Definition put_pset (a : Z) (s : ipc_pset) : M kst unit :=
  modify (fun k => set_ks_psets (<[a := s]> (ks_psets k)) k).
Definition del_pset (a : Z) : M kst unit :=
  modify (fun k => set_ks_psets (delete a (ks_psets k)) k).

Section operations.
Context `{KernelConfig} `{Externals}.

Definition require_ip_active (p : ipc_port) : M kst unit :=
  if ip_active p then ret tt else panic "Using inactive port".

(** ** References *)
Definition ip_reference (a : Z) : M kst unit :=
  let* p := get_port a in
  let* n := lift (os_ref_retain_internal (io_references p)) in
  put_port a (set_io_references n p).

Definition ipc_port_finalize (a : Z) : M kst unit :=
  let* p := get_port a in
  if ip_active p then panic "Trying to free an active port"
  else mod_port a (set_ip_requests None).

(** [ipc_object_release] on a port: the last reference frees it. *)
Definition ip_release (a : Z) : M kst unit :=
  let* p := get_port a in
  let* n := lift (os_ref_release_barrier_internal (io_references p)) in
  put_port a (set_io_references n p) ;;*
  if n =? 0 then ipc_port_finalize a ;;* del_port a else ret tt.

Definition ip_release_live (a : Z) : M kst unit :=
  let* p := get_port a in
  let* n := lift (os_ref_release_live_raw (io_references p)) in
  put_port a (set_io_references n p).

Definition ipc_port_timestamp : M kst Z :=
  let* t := gets ks_timestamp in
  modify (set_ks_timestamp (u32 (t + 1))) ;;* ret t.

(** ** Notifications ([ipc_notify.c]) *)
Definition ipc_notify_port_deleted (port name : Z) : M kst unit :=
  emit "mach_notify_port_deleted" [port; name].
Definition ipc_notify_send_possible (port name : Z) : M kst unit :=
  emit "mach_notify_send_possible" [port; name].
Definition ipc_notify_port_destroyed (port right : Z) : M kst unit :=
  emit "mach_notify_port_destroyed" [port; right].
Definition ipc_notify_dead_name (port name : Z) : M kst unit :=
  emit "mach_notify_dead_name" [port; name].

(** [ipc_notify_nsenders_t]. *)
Record nsenders := mk_nsenders { ns_notify : Z; ns_mscount : Z; ns_is_kobject : bool }.
Definition no_nsenders : nsenders := mk_nsenders IP_NULL 0 false.

Definition ipc_notify_no_senders_prepare (a : Z) : M kst nsenders :=
  let* p := get_port a in
  if ip_nsrequest p =? IP_KOBJECT_NSREQUEST_ARMED then
    put_port a (set_ip_nsrequest IP_NULL p) ;;*
    if ip_active p then ret (mk_nsenders a (ip_mscount p) true)
    else ip_release_live a ;;* ret no_nsenders
  else if negb (ip_nsrequest p =? IP_NULL) then
    put_port a (set_ip_nsrequest IP_NULL p) ;;*
    ret (mk_nsenders (ip_nsrequest p) (ip_mscount p) false)
  else ret no_nsenders.

Definition ipc_notify_no_senders (port mscount : Z) (kobject : bool) : M kst unit :=
  if kobject then emit "ipc_kobject_notify_no_senders" [port; mscount]
  else emit "mach_notify_no_senders" [port; mscount].

Definition ipc_notify_no_senders_emit (ns : nsenders) : M kst unit :=
  if negb (ns_notify ns =? IP_NULL)
  then ipc_notify_no_senders (ns_notify ns) (ns_mscount ns) (ns_is_kobject ns)
  else ret tt.

(** ** Send rights *)
Definition ipc_port_make_send_locked (a : Z) : M kst Z :=
  let* p := get_port a in
  require_ip_active p ;;*
  put_port a (set_ip_srights (u32 (ip_srights p + 1)) (set_ip_mscount (u32 (ip_mscount p + 1)) p)) ;;*
  ip_reference a ;;*
  ret a.

Definition ipc_port_make_send (a : Z) : M kst Z :=
  if negb (IP_VALID a) then ret a
  else
    let* p := get_port a in
    if ip_active p then ipc_port_make_send_locked a ;;* ret a
    else ret IP_DEAD.

Definition ipc_port_copy_send_locked (a : Z) : M kst unit :=
  let* p := get_port a in
  massert (0 <? ip_srights p) "port->ip_srights > 0" ;;*
  put_port a (set_ip_srights (u32 (ip_srights p + 1)) p) ;;*
  ip_reference a.

Definition ipc_port_copy_send (a : Z) : M kst Z :=
  if negb (IP_VALID a) then ret a
  else
    let* p := get_port a in
    if ip_active p then ipc_port_copy_send_locked a ;;* ret a else ret IP_DEAD.

Definition ipc_port_release_send_and_unlock (a : Z) : M kst unit :=
  let* p := get_port a in
  if ip_srights p =? 0 then panic "Over-release of port send right!"
  else
    let srights := u32 (ip_srights p - 1) in
    put_port a (set_ip_srights srights p) ;;*
    let* nsrequest :=
      if ip_active p && (srights =? 0) then ipc_notify_no_senders_prepare a
      else ret no_nsenders in
    ip_release a ;;*
    ipc_notify_no_senders_emit nsrequest.

Definition ipc_port_release_send (a : Z) : M kst unit :=
  if IP_VALID a then ipc_port_release_send_and_unlock a else ret tt.

(** ** Send-once rights *)
Definition ipc_port_make_sonce_locked (a : Z) : M kst Z :=
  let* p := get_port a in
  require_ip_active p ;;*
  put_port a (set_ip_sorights (u32 (ip_sorights p + 1)) p) ;;*
  ip_reference a ;;*
  ret a.

Definition ipc_port_make_sonce (a : Z) : M kst Z :=
  if negb (IP_VALID a) then ret a
  else
    let* p := get_port a in
    if ip_active p then ipc_port_make_sonce_locked a ;;* ret a else ret IP_DEAD.

Definition ipc_port_release_sonce_and_unlock (a : Z) : M kst unit :=
  let* p := get_port a in
  if ip_sorights p =? 0 then panic "Over-release of port send-once right!"
  else
    put_port a (set_ip_sorights (u32 (ip_sorights p - 1)) p) ;;*
    (if ip_specialreply p
     then emit "ipc_port_adjust_special_reply_port_locked" [a]
     else ret tt) ;;*
    ip_release a.

Definition ipc_port_release_sonce (a : Z) : M kst unit :=
  if IP_VALID a then ipc_port_release_sonce_and_unlock a else ret tt.

Definition ipc_notify_no_senders_consume (ns : nsenders) : M kst unit :=
  if negb (ns_notify ns =? IP_NULL) then
    if ns_is_kobject ns then ip_release (ns_notify ns) else ipc_port_release_sonce (ns_notify ns)
  else ret tt.

Definition ipc_notify_send_once_and_unlock (a : Z) : M kst unit :=
  let* p := get_port a in
  if negb (ip_active p) then ipc_port_release_sonce_and_unlock a
  else if ip_in_space p ipc_space_kernel then emit "ipc_kobject_notify_send_once_and_unlock" [a]
  else if ip_full_kernel p then ipc_port_release_sonce_and_unlock a
  else emit "mach_notify_send_once" [a].

(** ** No-senders requests; returns the previous request. *)
Definition ipc_port_nsrequest (a sync notify : Z) : M kst Z :=
  let* p := get_port a in
  require_ip_active p ;;*
  massert (negb (ip_in_space p ipc_space_kernel)) "!ip_in_space(port, ipc_space_kernel)" ;;*
  massert (negb (ip_nsrequest p =? IP_KOBJECT_NSREQUEST_ARMED))
    "port->ip_nsrequest != IP_KOBJECT_NSREQUEST_ARMED" ;;*
  let previous := ip_nsrequest p in
  let mscount := ip_mscount p in
  (if (ip_srights p =? 0) && (sync <=? mscount) && negb (notify =? IP_NULL) then
     put_port a (set_ip_nsrequest IP_NULL p) ;;*
     ipc_notify_no_senders notify mscount false
   else put_port a (set_ip_nsrequest notify p)) ;;*
  ret previous.
End operations.
