(* ===== verification/PortSpec.v ===== *)
(** * Executing operations on ports

    Weakest-precondition rules for the port primitives of [IpcPort], and the
    life of the rights on one port: send and send-once rights are counted
    exactly, the no-senders notification fires when, and only when, the last
    send right of an active port goes away. *)

From S2P Require Import Prelude MachPort Prng OsRefcnt IpcTable IpcHash IpcState IpcSpace EntryFacts IpcEntry EntrySpec IpcPort.

(** The state with one port replaced. *)
Definition with_port (a : Z) (p : ipc_port) (k : kst) : kst :=
  set_ks_ports (<[a := p]> (ks_ports k)) k.

Lemma with_port_lookup a p k : ks_ports (with_port a p k) !! a = Some p.
Proof. apply lookup_insert_eq. Qed.
Lemma with_port_twice a p p' k : with_port a p' (with_port a p k) = with_port a p' k.
Proof. unfold with_port, set_ks_ports. simpl. by rewrite insert_insert_eq. Qed.

Section rules.
Context (k : kst) (a : Z) (p : ipc_port) (Hp : ks_ports k !! a = Some p).

Lemma wp_get_port Q : Q p k -> wp (get_port a) Q k.
Proof using Hp. intros HQ. unfold wp, get_port. by rewrite Hp. Qed.
Lemma wp_put_port p' Q : Q tt (with_port a p' k) -> wp (put_port a p') Q k.
Proof using. done. Qed.
Lemma wp_mod_port f Q : Q tt (with_port a (f p) k) -> wp (mod_port a f) Q k.
Proof using Hp. intros HQ. by apply wp_bind, wp_get_port. Qed.
Lemma with_port_id : with_port a p k = k.
Proof using Hp. unfold with_port. rewrite insert_id by done. by destruct k. Qed.

Lemma wp_require_ip_active Q : ip_active p = true -> Q tt k -> wp (require_ip_active p) Q k.
Proof using. intros Ha HQ. unfold require_ip_active. by rewrite Ha. Qed.

(** Taking a reference. *)
Lemma wp_ip_reference Q :
  1 <= io_references p < OS_REFCNT_MAX_COUNT ->
  Q tt (with_port a (set_io_references (io_references p + 1) p) k) -> wp (ip_reference a) Q k.
Proof using Hp.
  intros Hr HQ. apply wp_bind, wp_get_port, wp_bind, (wp_lift _ (io_references p + 1)); [|done].
  unfold os_ref_retain_internal, os_ref_retain_floor_internal, os_ref_check_retain,
    os_ref_check_overflow, u32. unfold OS_REFCNT_MAX_COUNT in *.
  destruct (Z.ltb_spec (io_references p) 1); [lia|].
  destruct (Z.leb_spec 0x0FFFFFFF (io_references p)); [lia|]. cbn [obind].
  f_equal. apply Z.mod_small. lia.
Qed.

Lemma os_ref_release_ok n : 1 <= n <= OS_REFCNT_MAX_COUNT ->
  os_ref_release_barrier_internal n = Done (n - 1).
Proof using.
  intros Hr. unfold os_ref_release_barrier_internal, os_ref_release_n, os_ref_check_underflow, u32.
  unfold OS_REFCNT_MAX_COUNT in *. destruct (Z.ltb_spec n 1); [lia|]. cbn [obind].
  f_equal. apply Z.mod_small. lia.
Qed.

(** Dropping one that is not the last. *)
Lemma wp_ip_release Q :
  1 < io_references p <= OS_REFCNT_MAX_COUNT ->
  Q tt (with_port a (set_io_references (io_references p - 1) p) k) -> wp (ip_release a) Q k.
Proof using Hp.
  intros Hr HQ. apply wp_bind, wp_get_port, wp_bind, (wp_lift _ (io_references p - 1)).
  { apply os_ref_release_ok. lia. }
  apply wp_bind, wp_put_port. destruct (Z.eqb_spec (io_references p - 1) 0); [lia|]. done.
Qed.

Lemma wp_ip_release_live Q :
  1 < io_references p <= OS_REFCNT_MAX_COUNT ->
  Q tt (with_port a (set_io_references (io_references p - 1) p) k) -> wp (ip_release_live a) Q k.
Proof using Hp.
  intros Hr HQ. apply wp_bind, wp_get_port, wp_bind, (wp_lift _ (io_references p - 1)); [|done].
  unfold os_ref_release_live_raw. rewrite os_ref_release_ok by lia. cbn [obind].
  destruct (Z.eqb_spec (io_references p - 1) 0); [lia|]. done.
Qed.

(** Dropping the last one of a dead port frees it. *)
Lemma wp_ip_release_last Q :
  io_references p = 1 -> ip_active p = false ->
  Q tt (set_ks_ports (delete a (ks_ports k)) k) -> wp (ip_release a) Q k.
Proof using Hp.
  intros Hr Ha HQ. apply wp_bind, wp_get_port, wp_bind, (wp_lift _ 0).
  { rewrite os_ref_release_ok; [by rewrite Hr|]. rewrite Hr. unfold OS_REFCNT_MAX_COUNT. lia. }
  apply wp_bind, wp_put_port. cbn [Z.eqb].
  apply wp_bind. unfold ipc_port_finalize.
  apply wp_bind. unfold wp, get_port. rewrite with_port_lookup.
  assert (ip_active (set_io_references 0 p) = false) as -> by exact Ha.
  unfold mod_port, bind, get_port. rewrite with_port_lookup.
  unfold put_port, modify, del_port, modify. cbn. rewrite !delete_insert_eq. exact HQ.
Qed.
End rules.

(** One step of symbolic execution, directed by the program. *)
Ltac wp_step :=
  lazymatch goal with
  | |- wp (bind _ _) _ _ => apply wp_bind
  | |- wp (ret _) _ _ => apply wp_ret
  | |- wp (get_port _) _ _ =>
      eapply wp_get_port; [first [eassumption | apply with_port_lookup]|]
  | |- wp (put_port _ _) _ _ => apply wp_put_port
  | |- wp (require_ip_active _) _ _ => apply wp_require_ip_active; [assumption|]
  | |- wp (gets _) _ _ => apply wp_gets
  | |- wp (emit _ _) _ _ => apply wp_emit
  end.
Ltac port_goal := repeat (wp_step; cbv beta).

(** ** Histories of rights on one port *)
Inductive right_op :=
| MakeSend | CopySend | ReleaseSend | MakeSonce | ReleaseSonce
| NoSendersRequest (sync notify : Z).

(** What a port promises to its clients: how many naked send and send-once
    rights exist, how many send rights were ever made from the receive right,
    and the armed no-senders request. *)
Record rights := mk_rights { r_send : Z; r_sonce : Z; r_made : Z; r_armed : option Z }.

(** [None]: the client releases or copies a right it does not have. *)
Definition rights_step (s : rights) (op : right_op) : option (rights * list event) :=
  let '(mk_rights send sonce made armed) := s in
  match op with
  | MakeSend => Some (mk_rights (send + 1) sonce (made + 1) armed, [])
  | CopySend => if 0 <? send then Some (mk_rights (send + 1) sonce made armed, []) else None
  | ReleaseSend =>
    if negb (0 <? send) then None
    else if 1 <? send then Some (mk_rights (send - 1) sonce made armed, [])
    else Some (mk_rights 0 sonce made None,
               match armed with
               | Some notify => [Call "mach_notify_no_senders" [notify; made]]
               | None => []
               end)
  | MakeSonce => Some (mk_rights send (sonce + 1) made armed, [])
  | ReleaseSonce => if 0 <? sonce then Some (mk_rights send (sonce - 1) made armed, []) else None
  | NoSendersRequest sync notify =>
    if (notify =? IP_NULL) || (notify =? IP_KOBJECT_NSREQUEST_ARMED) then None
    else if (send =? 0) && (sync <=? made)
    then Some (mk_rights send sonce made None, [Call "mach_notify_no_senders" [notify; made]])
    else Some (mk_rights send sonce made (Some notify), [])
  end.
Fixpoint rights_run (s : rights) (ops : list right_op) : option (rights * list event) :=
  match ops with
  | [] => Some (s, [])
  | op :: ops =>
    '(s, evs) ← rights_step s op; '(s, evs') ← rights_run s ops; Some (s, evs ++ evs')
  end.

Section histories.
Context `{KernelConfig} `{Externals} (a base : Z) (Ha : IP_VALID a = true).

(** The code behind each operation. *)
Definition right_exec (op : right_op) : M kst unit :=
  match op with
  | MakeSend => ipc_port_make_send a ;;* ret tt
  | CopySend => ipc_port_copy_send a ;;* ret tt
  | ReleaseSend => ipc_port_release_send a
  | MakeSonce => ipc_port_make_sonce a ;;* ret tt
  | ReleaseSonce => ipc_port_release_sonce a
  | NoSendersRequest sync notify => ipc_port_nsrequest a sync notify ;;* ret tt
  end.
Fixpoint right_exec_all (ops : list right_op) : M kst unit :=
  match ops with
  | [] => ret tt
  | op :: ops => right_exec op ;;* right_exec_all ops
  end.

(** The port [p] holds the rights [s] on top of [base] other references. *)
Record holds_rights (p : ipc_port) (s : rights) : Prop := {
  hr_active : ip_active p = true;
  hr_plain : ip_specialreply p = false;
  hr_user : ip_in_space p ipc_space_kernel = false;
  hr_send : ip_srights p = r_send s;
  hr_sonce : ip_sorights p = r_sonce s;
  hr_made : ip_mscount p = r_made s;
  hr_armed : ip_nsrequest p = default IP_NULL (r_armed s);
  hr_notify : forall n, r_armed s = Some n -> n <> IP_NULL /\ n <> IP_KOBJECT_NSREQUEST_ARMED;
  hr_refs : io_references p = base + r_send s + r_sonce s;
  hr_base : 1 <= base;
  hr_pos : 0 <= r_send s /\ 0 <= r_sonce s /\ 0 <= r_made s;
}.

(** Room for one more right. *)
Definition rights_room (n : Z) (s : rights) : Prop :=
  base + r_send s + r_sonce s + n <= OS_REFCNT_MAX_COUNT /\ r_made s + n < 2 ^ 32.

Lemma u32_small x : 0 <= x < 2 ^ 32 -> u32 x = x.
Proof. apply Z.mod_small. Qed.

Lemma make_send_ok k p s : ks_ports k !! a = Some p -> holds_rights p s -> rights_room 1 s ->
  wp (right_exec MakeSend) (fun _ k' => exists p', k' = with_port a p' k /\
    holds_rights p' (mk_rights (r_send s + 1) (r_sonce s) (r_made s + 1) (r_armed s))) k.
Proof using Ha.
  intros Hp Hh [Hr Hm]. pose proof Hh as [Hact ?????????(?&?&?)]. unfold OS_REFCNT_MAX_COUNT in Hr.
  unfold right_exec, ipc_port_make_send. rewrite Ha. cbn [negb].
  port_goal. rewrite Hact. unfold ipc_port_make_send_locked. port_goal.
  eapply wp_ip_reference; [apply with_port_lookup|simpl; unfold OS_REFCNT_MAX_COUNT; lia|].
  rewrite with_port_twice. port_goal. eexists. split; [done|]. simpl.
  rewrite !u32_small by lia. split; simpl; try done; lia.
Qed.

Lemma copy_send_ok k p s : ks_ports k !! a = Some p -> holds_rights p s -> rights_room 1 s ->
  0 < r_send s ->
  wp (right_exec CopySend) (fun _ k' => exists p', k' = with_port a p' k /\
    holds_rights p' (mk_rights (r_send s + 1) (r_sonce s) (r_made s) (r_armed s))) k.
Proof using Ha.
  intros Hp Hh [Hr Hm] Hs. pose proof Hh as [Hact ?????????(?&?&?)]. unfold OS_REFCNT_MAX_COUNT in Hr.
  unfold right_exec, ipc_port_copy_send. rewrite Ha. cbn [negb].
  port_goal. rewrite Hact. unfold ipc_port_copy_send_locked. port_goal.
  apply wp_massert; [apply Z.ltb_lt; lia|]. port_goal.
  eapply wp_ip_reference; [apply with_port_lookup|simpl; unfold OS_REFCNT_MAX_COUNT; lia|].
  rewrite with_port_twice. port_goal. eexists. split; [done|]. simpl.
  rewrite !u32_small by lia. split; simpl; try done; lia.
Qed.

Lemma make_sonce_ok k p s : ks_ports k !! a = Some p -> holds_rights p s -> rights_room 1 s ->
  wp (right_exec MakeSonce) (fun _ k' => exists p', k' = with_port a p' k /\
    holds_rights p' (mk_rights (r_send s) (r_sonce s + 1) (r_made s) (r_armed s))) k.
Proof using Ha.
  intros Hp Hh [Hr Hm]. pose proof Hh as [Hact ?????????(?&?&?)]. unfold OS_REFCNT_MAX_COUNT in Hr.
  unfold right_exec, ipc_port_make_sonce. rewrite Ha. cbn [negb].
  port_goal. rewrite Hact. unfold ipc_port_make_sonce_locked. port_goal.
  eapply wp_ip_reference; [apply with_port_lookup|simpl; unfold OS_REFCNT_MAX_COUNT; lia|].
  rewrite with_port_twice. port_goal. eexists. split; [done|]. simpl.
  rewrite !u32_small by lia. split; simpl; try done; lia.
Qed.

Lemma release_sonce_ok k p s : ks_ports k !! a = Some p -> holds_rights p s -> rights_room 0 s ->
  0 < r_sonce s ->
  wp (right_exec ReleaseSonce) (fun _ k' => exists p', k' = with_port a p' k /\
    holds_rights p' (mk_rights (r_send s) (r_sonce s - 1) (r_made s) (r_armed s))) k.
Proof using Ha.
  intros Hp Hh [Hr Hm] Hs. pose proof Hh as [Hact Hspec ????????(?&?&?)]. unfold OS_REFCNT_MAX_COUNT in Hr.
  unfold right_exec, ipc_port_release_sonce. rewrite Ha. unfold ipc_port_release_sonce_and_unlock.
  port_goal. destruct (Z.eqb_spec (ip_sorights p) 0); [lia|]. port_goal. rewrite Hspec. port_goal.
  eapply wp_ip_release; [apply with_port_lookup|simpl; unfold OS_REFCNT_MAX_COUNT; lia|].
  rewrite with_port_twice. eexists. split; [done|]. simpl.
  rewrite !u32_small by lia. split; simpl; try done; lia.
Qed.

Lemma release_send_ok k p s s' evs : ks_ports k !! a = Some p -> holds_rights p s ->
  rights_room 0 s -> rights_step s ReleaseSend = Some (s', evs) ->
  wp (right_exec ReleaseSend) (fun _ k' => exists p',
    k' = set_ks_trace (ks_trace k ++ evs) (with_port a p' k) /\ holds_rights p' s') k.
Proof using Ha.
  destruct s as [send sonce made armed].
  intros Hp Hh [Hr Hm] Hstep. pose proof Hh as [Hact ? ? ? ? ? ? Hnot ? ? (?&?&?)].
  unfold OS_REFCNT_MAX_COUNT in Hr. simpl in *.
  unfold ipc_port_release_send. rewrite Ha. unfold ipc_port_release_send_and_unlock.
  port_goal. destruct (Z.ltb_spec 0 send); [|done]. simpl in Hstep.
  destruct (Z.eqb_spec (ip_srights p) 0); [lia|]. port_goal.
  rewrite Hact. simpl. rewrite u32_small by lia.
  destruct (Z.ltb_spec 1 send); injection Hstep as <- <-.
  - destruct (Z.eqb_spec (ip_srights p - 1) 0); [lia|]. port_goal.
    eapply wp_ip_release; [apply with_port_lookup|simpl; unfold OS_REFCNT_MAX_COUNT; lia|].
    rewrite with_port_twice. unfold ipc_notify_no_senders_emit. simpl. apply wp_ret.
    eexists. rewrite app_nil_r. split; [by destruct k|]. split; simpl; try done; lia.
  - destruct (Z.eqb_spec (ip_srights p - 1) 0); [|lia].
    unfold ipc_notify_no_senders_prepare. port_goal. simpl.
    destruct armed as [nt|]; simpl in *.
    + destruct (Hnot nt eq_refl).
      destruct (Z.eqb_spec (ip_nsrequest p) IP_KOBJECT_NSREQUEST_ARMED); [congruence|].
      destruct (Z.eqb_spec (ip_nsrequest p) IP_NULL); [congruence|]. simpl. port_goal.
      eapply wp_ip_release; [apply with_port_lookup|simpl; unfold OS_REFCNT_MAX_COUNT; lia|].
      rewrite !with_port_twice. unfold ipc_notify_no_senders_emit. simpl.
      destruct (Z.eqb_spec (ip_nsrequest p) IP_NULL); [congruence|]. simpl.
      eexists. split; [unfold with_port, set_ks_trace, set_ks_ports; simpl; by rewrite hr_armed0, hr_made0|].
      split; simpl; try done; lia.
    + assert ((ip_nsrequest p =? IP_KOBJECT_NSREQUEST_ARMED) = false) as ->
        by (rewrite hr_armed0; reflexivity).
      assert ((ip_nsrequest p =? IP_NULL) = true) as -> by (rewrite hr_armed0; reflexivity).
      simpl. port_goal.
      eapply wp_ip_release; [apply with_port_lookup|simpl; unfold OS_REFCNT_MAX_COUNT; lia|].
      rewrite !with_port_twice. unfold ipc_notify_no_senders_emit. simpl. apply wp_ret.
      eexists. rewrite app_nil_r. split; [by destruct k|]. split; simpl; try done; lia.
Qed.

Lemma nsrequest_ok k p s s' evs sync notify : ks_ports k !! a = Some p -> holds_rights p s ->
  rights_step s (NoSendersRequest sync notify) = Some (s', evs) ->
  wp (right_exec (NoSendersRequest sync notify)) (fun _ k' => exists p',
    k' = set_ks_trace (ks_trace k ++ evs) (with_port a p' k) /\ holds_rights p' s') k.
Proof using Ha.
  destruct s as [send sonce made armed].
  intros Hp Hh Hstep. pose proof Hh as [Hact ? Hk ? ? ? ? Hnot ? ? (?&?&?)]. simpl in *.
  unfold ipc_port_nsrequest. port_goal. apply wp_massert; [by rewrite Hk|]. port_goal.
  apply wp_massert.
  { destruct armed as [nt|]; simpl in *; rewrite hr_armed0; [|done].
    destruct (Hnot nt eq_refl). by destruct (Z.eqb_spec nt IP_KOBJECT_NSREQUEST_ARMED). }
  destruct (Z.eqb_spec notify IP_NULL); [done|].
  destruct (Z.eqb_spec notify IP_KOBJECT_NSREQUEST_ARMED); [done|]. simpl in Hstep.
  rewrite hr_send0, hr_made0. rewrite andb_true_r.
  destruct ((send =? 0) && (sync <=? made)); injection Hstep as <- <-.
  - unfold ipc_notify_no_senders. port_goal. eexists. split; [done|]. split; simpl; try done; lia.
  - port_goal. eexists. rewrite app_nil_r. split; [by destruct k|].
    split; simpl; try done; try lia. intros m [= <-]. done.
Qed.

Lemma right_exec_ok k p s s' evs op : ks_ports k !! a = Some p -> holds_rights p s ->
  rights_room 1 s -> rights_step s op = Some (s', evs) ->
  wp (right_exec op) (fun _ k' => exists p',
    k' = set_ks_trace (ks_trace k ++ evs) (with_port a p' k) /\ holds_rights p' s') k.
Proof using Ha.
  intros Hp Hh Hr Hstep.
  assert (rights_room 0 s) as Hr0 by (unfold rights_room in *; lia).
  assert (forall p', with_port a p' k = set_ks_trace (ks_trace k ++ []) (with_port a p' k)) as Htr.
  { intros p'. rewrite app_nil_r. by destruct k. }
  destruct s as [send sonce made armed]. simpl in *. destruct op; simpl in Hstep.
  - injection Hstep as <- <-. eapply wp_mono; [by eapply make_send_ok|].
    intros _ ? (p'&->&?). exists p'. split; [apply Htr|done].
  - destruct (Z.ltb_spec 0 send); [|done]. injection Hstep as <- <-.
    eapply wp_mono; [by eapply copy_send_ok|]. intros _ ? (p'&->&?). exists p'. split; [apply Htr|done].
  - by eapply release_send_ok.
  - injection Hstep as <- <-. eapply wp_mono; [by eapply make_sonce_ok|].
    intros _ ? (p'&->&?). exists p'. split; [apply Htr|done].
  - destruct (Z.ltb_spec 0 sonce); [|done]. injection Hstep as <- <-.
    eapply wp_mono; [by eapply release_sonce_ok|]. intros _ ? (p'&->&?). exists p'. split; [apply Htr|done].
  - by eapply nsrequest_ok.
Qed.

Lemma rights_step_growth s op s' evs n : rights_step s op = Some (s', evs) ->
  rights_room (n + 1) s -> rights_room n s'.
Proof using.
  destruct s as [send sonce made armed]. unfold rights_room. simpl.
  destruct op; simpl; zcase; intros [= <- <-] ?; simpl in *; try lia.
  all: repeat case_match; simplify_eq; simpl; lia.
Qed.
End histories.

(** C15. Rights on a port refine their abstract counts: for any history of
    making, copying and releasing naked send and send-once rights and of
    no-senders requests, in which clients only give up rights they hold,
    the code neither panics nor frees the port, the port's [ip_srights],
    [ip_sorights], [ip_mscount], armed request and reference count are
    exactly the abstract ones, and the notifications sent are exactly one
    no-senders message, with the make-send count, each time an armed request meets
    the loss of the last send right or is registered after it. *)
Theorem port_rights_refine `{KernelConfig} `{Externals} (a base : Z) (ops : list right_op)
    (k : kst) (p : ipc_port) (s s' : rights) (evs : list event) :
  IP_VALID a = true ->
  ks_ports k !! a = Some p ->
  holds_rights base p s ->
  rights_room base (Z.of_nat (length ops)) s ->
  rights_run s ops = Some (s', evs) ->
  exists p', right_exec_all a ops k = Done (tt, set_ks_trace (ks_trace k ++ evs) (with_port a p' k)) /\
    holds_rights base p' s'.
Proof.
  intros Ha. revert k p s s' evs.
  induction ops as [|op ops IH]; intros k p s s' evs Hp Hh Hr Hrun.
  - injection Hrun as <- <-. exists p. split; [|done].
    rewrite app_nil_r, with_port_id by done. by destruct k.
  - cbn [rights_run] in Hrun. destruct (rights_step s op) as [[s1 evs1]|] eqn:Hs; [|done].
    cbn in Hrun. destruct (rights_run s1 ops) as [[s2 evs2]|] eqn:Hs2; [|done].
    injection Hrun as <- <-.
    assert (rights_room base (Z.of_nat (length ops) + 1) s) as Hr'
      by (replace (Z.of_nat (length ops) + 1) with (Z.of_nat (length (op :: ops))) by (simpl; lia); done).
    assert (rights_room base 1 s) as Hr1 by (unfold rights_room in *; lia).
    pose proof (right_exec_ok a base Ha k p s s1 evs1 op Hp Hh Hr1 Hs) as Hw.
    destruct (wp_elim _ _ _ Hw) as ([]&k1&Hk1&p1&->&Hh1).
    destruct (IH (set_ks_trace (ks_trace k ++ evs1) (with_port a p1 k)) p1 s1 s2 evs2)
      as (p2&Hdone&Hh2); [apply with_port_lookup|done|by eapply rights_step_growth|done|].
    exists p2. split; [|done]. cbn [right_exec_all]. unfold bind. rewrite Hk1, Hdone.
    f_equal. f_equal. unfold set_ks_trace, with_port, set_ks_ports. simpl.
    rewrite insert_insert_eq, app_assoc. done.
Qed.

(** ** A concrete environment and port, for instances of the theorems *)

(** A kernel without importance inheritance in play and with memory at
    0x7000. *)
Definition plain_externals : Externals := {|
  ipc_space_kernel := 0x100;
  current_task_is_importance_donor := false;
  no_thread_assertions := true;
  current_task_imp_base := 0;
  ipc_importance_task_is_any_receiver_type _ := false;
  ipc_service_port_label_is_special_pdrequest _ := false;
  ipc_service_port_label_is_pd_notification _ := false;
  ipc_service_port_label_get_attr _ := (0, 0);
  space_task_imp_base := None;
  receiver_task_imp_base _ := None;
  port_send_turnstile _ := false;
  space_task_is_immovable := false;
  space_task_is_pinned := false;
  current_task_is_initproc := false;
  ith_knote := 0;
  ith_msg_addr := 0;
  ipc_kobject_label_check _ _ flags := ret (true, 0, flags);
  it_requests_alloc _ := 0x7000;
  klist_first _ := false;
  space_active _ := true |}.

(** A newly made port of the user space at 0x200, named 0x103. *)
Definition fresh_port : ipc_port :=
  mk_ipc_port (io_makebits true IOT_PORT 0) 1 false false false false false false false 0 false
    false false false false false false false [] 0x103 0 0 5 0 0x200 0 0 0 0 None 0 0 0 0 0 0 [] false true.

Definition space_at (addr : Z) : ipc_space :=
  mk_ipc_space addr 0 0 0 None 0 0 0 0 0 (mk_bool_gen [0; 0; 0; 0] 0) [] 0 0 0.
(** A state with one port, at 0x5000. *)
Definition one_port (p : ipc_port) : kst :=
  mk_kst (space_at 0x200) {[ 0x5000 := p ]} ∅ 0 [] 0 ∅ [].

Lemma port_rights_refine_witness :
  exists p', @right_exec_all DEVELOPMENT plain_externals 0x5000
    [MakeSend; CopySend; NoSendersRequest 0 0x6000; ReleaseSend; MakeSonce; ReleaseSend]
    (one_port fresh_port)
  = Done (tt, set_ks_trace [Call "mach_notify_no_senders" [0x6000; 1]]
                (with_port 0x5000 p' (one_port fresh_port))) /\
    ip_srights p' = 0 /\ ip_sorights p' = 1 /\ io_references p' = 2.
Proof.
  destruct (@port_rights_refine DEVELOPMENT plain_externals 0x5000 1
    [MakeSend; CopySend; NoSendersRequest 0 0x6000; ReleaseSend; MakeSonce; ReleaseSend]
    (one_port fresh_port) fresh_port (mk_rights 0 0 0 None) (mk_rights 0 1 1 None)
    [Call "mach_notify_no_senders" [0x6000; 1]]) as (p'&Hrun&Hh).
  - reflexivity.
  - reflexivity.
  - split; try reflexivity; simpl; try lia. intros n [=].
  - split; vm_compute; [intros [=]|reflexivity].
  - reflexivity.
  - exists p'. split; [exact Hrun|]. destruct Hh. simpl in *. lia.
Defined.
