(* ===== verification/IpcChain.v ===== *)
(** * Chains of ports in transit ([osfmk/ipc/ipc_port.c])

    A receive right queued in a message makes its port point to the port the
    message was sent to.  The importance a port carries is counted at every port
    down such a chain; the walks of the chain are here. *)

From S2P Require Import Prelude MachPort Prng OsRefcnt IpcTable IpcHash IpcState IpcPort.

Definition IIT_NULL : Z := 0.
Definition IPID_OPTION_NORMAL : Z := 0.
Definition IPID_OPTION_SENDPOSSIBLE : Z := 1.

Section operations.
Context `{KernelConfig} `{Externals} `{Concurrency}.

(** The walks take as fuel the number of ports: a chain without a cycle is no
    longer. *)
Definition chain_fuel : M kst nat := gets (fun k => S (size (ks_ports k))).

(** Returns the base and whether a reference was taken on it. *)
Fixpoint destination_chain_walk (fuel : nat) (port : Z) : M kst (Z * bool) :=
  match fuel with
  | O => fun _ => Diverges
  | S fuel =>
    let* p := get_port port in
    if negb (ip_active p) then ip_reference port ;;* ret (port, true)
    else if negb (ip_in_transit p) then ret (port, false)
    else destination_chain_walk fuel (ip_get_destination p)
  end.

Definition ipc_port_destination_chain_lock (port : Z) : M kst (Z * bool) :=
  let* fuel := chain_fuel in destination_chain_walk fuel port.

(** The messages printed on an over-release are left out; the assertion among
    them is not. *)
Definition ipc_port_impcount_delta (port delta base : Z) : M kst Z :=
  let* p := get_port port in
  if negb (ip_active p) then ret 0
  else if 0 <=? delta then
    put_port port (set_ip_impcount (u32 (ip_impcount p + delta)) p) ;;* ret delta
  else if - delta <=? ip_impcount p then
    put_port port (set_ip_impcount (u32 (ip_impcount p + delta)) p) ;;* ret delta
  else
    when (MACH_ASSERT && negb (ip_in_a_space p) && negb (base =? IP_NULL))
      (let* b := get_port base in massert (ip_in_a_space b) "ip_in_a_space(base)") ;;*
    put_port port (set_ip_impcount 0 p) ;;*
    ret (- ip_impcount p).

(** Unlocking down to the base, adjusting the count at each level. *)
Fixpoint importance_chain (fuel : nat) (port base delta : Z) : M kst Z :=
  match fuel with
  | O => fun _ => Diverges
  | S fuel =>
    let* delta := ipc_port_impcount_delta port delta base in
    if port =? base then ret delta
    else
      let* p := get_port port in
      massert (negb (ip_tempowner p)) "port->ip_tempowner == 0" ;;*
      massert (ip_in_transit p) "ip_in_transit(port)" ;;*
      importance_chain fuel (ip_get_destination p) base delta
  end.

(** The task to boost according to the base. *)
Definition base_imp_task (b : ipc_port) : Z :=
  if ip_active b then
    if ip_tempowner b then ip_get_imp_task b
    else if ip_in_a_space b then
      match receiver_task_imp_base (ip_get_receiver b) with
      | Some t => if ipc_importance_task_is_any_receiver_type t then t else IIT_NULL
      | None => IIT_NULL
      end
    else IIT_NULL
  else IIT_NULL.

(** Returns whether the lock was dropped, the delta applied and the task. *)
Definition ipc_port_importance_delta_internal (port options delta : Z) : M kst (bool * Z * Z) :=
  if delta =? 0 then ret (false, 0, IIT_NULL)
  else
    massert ((options =? IPID_OPTION_NORMAL) || (options =? IPID_OPTION_SENDPOSSIBLE))
      "options == IPID_OPTION_NORMAL || options == IPID_OPTION_SENDPOSSIBLE" ;;*
    let* p := get_port port in
    let* (dropped, base, took_base_ref) :=
      if ip_in_transit p then
        interfere ;;* (* ip_mq_unlock *)
        let* (base, took_base_ref) := ipc_port_destination_chain_lock port in
        ret (true, base, took_base_ref)
      else ret (false, port, false) in
    let* delta :=
      if has options IPID_OPTION_SENDPOSSIBLE then
        massert (delta =? 1) "*deltap == 1" ;;*
        let* p := get_port port in
        if ip_sprequests p && negb (ip_spimportant p) then
          put_port port (set_ip_spimportant true p) ;;* ret delta
        else ret 0
      else ret delta in
    let* fuel := chain_fuel in
    let* delta := importance_chain fuel port base delta in
    let* b := get_port base in
    let imp_task := base_imp_task b in
    when (negb (imp_task =? IIT_NULL)) (emit "ipc_importance_task_reference" [imp_task]) ;;*
    when (dropped && took_base_ref) (ip_release base) ;;* (* ip_release_safe *)
    ret (dropped, delta, imp_task).

(** Returns whether the lock was dropped. *)
Definition ipc_port_importance_delta (port options delta : Z) : M kst bool :=
  let* (dropped, delta, imp_task) := ipc_port_importance_delta_internal port options delta in
  if (imp_task =? IIT_NULL) || (delta =? 0) then ret dropped
  else
    massert (ipc_importance_task_is_any_receiver_type imp_task)
      "ipc_importance_task_is_any_receiver_type(imp_task)" ;;*
    (if 0 <? delta
     then emit "ipc_importance_task_hold_internal_assertion" [imp_task; delta]
     else emit "ipc_importance_task_drop_internal_assertion" [imp_task; - delta]) ;;*
    emit "ipc_importance_task_release" [imp_task] ;;*
    ret true.
End operations.
