(* ===== verification/IpcMqueue.v ===== *)
(** * Message queues ([osfmk/ipc/ipc_mqueue.c])

    Sending to and receiving from the queue of a port: the slots that bound it,
    the senders that block on a full queue and the receivers that block on an
    empty one, hand-over to a waiting receiver, port sets, peeking, change and
    destruction of a queue.

    The wait queues of [osfmk/kern/waitq.c] are the sets of threads that wait on an
    object for an event; which of them is woken, and which port a set reports first, is
    the choice of [Messages].  A port is preposted to its sets exactly while it has
    messages.  What a message holds beyond its address and override is an argument
    too.  [ipc_mqueue_send_locked] and [ipc_mqueue_receive] are split where the
    thread blocks. *)

From S2P Require Import Prelude MachPort KmsgQueue KmsgSpec Prng OsRefcnt IpcTable IpcHash IpcState IpcSpace IpcPort.

Definition u16 (x : Z) : Z := x mod 2 ^ 16.

Definition MACH_PORT_QLIMIT_DEFAULT : Z := 5.
Definition MACH_PORT_QLIMIT_MAX : Z := 1024.
Definition PORT_SYNC_LINK_ANY : Z := 0.
Definition PORT_SYNC_LINK_WORKLOOP_KNOTE : Z := 2.
Definition PORT_SYNC_LINK_WORKLOOP_STASH : Z := 3.
Definition PORT_SYNC_LINK_RCV_THREAD : Z := 5.

(** Options and results of [mach_msg]. *)
Definition MACH_SEND_TIMEOUT : Z := 0x10.
Definition MACH_SEND_ALWAYS : Z := 0x10000.
Definition MACH_RCV_LARGE : Z := 0x4.
Definition MACH_RCV_TIMEOUT : Z := 0x100.
Definition MACH_PEEK_MSG : Z := 0x80000000.
Definition MACH_MSG_SUCCESS : Z := 0.
Definition MACH_SEND_INVALID_DEST : Z := 0x10000003.
Definition MACH_SEND_TIMED_OUT : Z := 0x10000004.
Definition MACH_SEND_INTERRUPTED : Z := 0x10000007.
Definition MACH_SEND_NO_BUFFER : Z := 0x1000000d.
Definition MACH_RCV_IN_PROGRESS : Z := 0x10004001.
Definition MACH_RCV_INVALID_NAME : Z := 0x10004002.
Definition MACH_RCV_TIMED_OUT : Z := 0x10004003.
Definition MACH_RCV_TOO_LARGE : Z := 0x10004004.
Definition MACH_RCV_INTERRUPTED : Z := 0x10004005.
Definition MACH_RCV_PORT_CHANGED : Z := 0x10004006.
Definition MACH_RCV_SCATTER_SMALL : Z := 0x1000400e.
Definition MACH_PEEK_IN_PROGRESS : Z := 0x10008001.
Definition MACH_PEEK_READY : Z := 0x10008002.

Definition MACH_RCV_TRAILER_NULL : Z := 0.
Definition MACH_RCV_TRAILER_SEQNO : Z := 1.
Definition MACH_RCV_TRAILER_SENDER : Z := 2.
Definition MACH_RCV_TRAILER_AUDIT : Z := 3.
Definition MACH_RCV_TRAILER_CTX : Z := 4.
Definition MACH_RCV_TRAILER_AV : Z := 7.
Definition GET_RCV_ELEMENTS (y : Z) : Z := Z.land (Z.shiftr y 24) 0xf.
(** With the sizes of the trailer structures, packed to four bytes (arm64). *)
Definition REQUESTED_TRAILER_SIZE (is64 : bool) (y : Z) : Z :=
  if GET_RCV_ELEMENTS y =? MACH_RCV_TRAILER_NULL then 8
  else if GET_RCV_ELEMENTS y =? MACH_RCV_TRAILER_SEQNO then 12
  else if GET_RCV_ELEMENTS y =? MACH_RCV_TRAILER_SENDER then 20
  else if GET_RCV_ELEMENTS y =? MACH_RCV_TRAILER_AUDIT then 52
  else if GET_RCV_ELEMENTS y =? MACH_RCV_TRAILER_CTX then if is64 then 60 else 56
  else if GET_RCV_ELEMENTS y =? MACH_RCV_TRAILER_AV then if is64 then 68 else 64
  else 68.

(** What the queues ask of messages and of the wait queues. *)
Class Messages := {
  (** [ipc_kmsg_copyout_size(kmsg, thread->map)] *)
  ipc_kmsg_copyout_size : Z -> Z -> Z;
  thread_is_64bit_addr : Z -> bool;
  (** [MACH_MSGH_BITS_REMOTE(kmsg->ikm_header->msgh_bits)] *)
  msgh_remote_type : Z -> Z;
  (** [kmsg->ikm_header->msgh_size], [msgh_id] *)
  msgh_size : Z -> Z;
  msgh_id : Z -> Z;
  (** which of the waiting threads a wakeup picks *)
  waitq_pick : kst -> gset Z -> Z;
  waitq_pick_in k X : X <> ∅ -> waitq_pick k X ∈ X;
  (** which of the preposted ports a set reports *)
  prepost_pick : kst -> gset Z -> Z;
  prepost_pick_in k X : X <> ∅ -> prepost_pick k X ∈ X;
  (** whether a thread is being aborted, so that it does not block *)
  thread_abort_pending : kst -> Z -> bool;
}.

(** ** Threads and wait queues *)
Definition get_thread (t : Z) : M kst thread :=
  fun k => match ks_threads k !! t with
           | Some th => Done (th, k)
           | None => Panic "dangling thread"
           end.
Definition mod_thread (t : Z) (f : thread -> thread) : M kst unit :=
  let* th := get_thread t in modify (fun k => set_ks_threads (<[t := f th]> (ks_threads k)) k).

(** The threads that wait on the object at [a] for the event. *)
Definition waits (a : Z) (ev : wait_event) (th : thread) : Prop := th_waits_on th = Some (a, ev).
#[global] Instance waits_dec a ev th : Decision (waits a ev th).
Proof. unfold waits. apply _. Defined.
Definition waiters (a : Z) (ev : wait_event) (k : kst) : gset Z :=
  dom (filter (fun x => waits a ev x.2) (ks_threads k)).

(** [thread_go]: the thread leaves its wait queue. *)
Definition woken (result : wait_result_t) (th : thread) : thread :=
  set_th_waits_on None (set_th_wait_result result th).

Section queues.
Context `{KernelConfig} `{Externals}.

Definition waitq_wakeup64_all (a : Z) (ev : wait_event) (result : wait_result_t) : M kst unit :=
  modify (fun k => set_ks_threads
    ((fun th => if decide (waits a ev th) then woken result th else th) <$> ks_threads k) k).

(** [keep] is the set the port stays in, if any. *)
Definition waitq_unlink_all_locked (a : Z) (keep : option Z) : M kst unit :=
  mod_port a (fun p => set_ip_psets (filter (fun s => keep = Some s) (ip_psets p)) p).
(** [waitq_set_unlink_all_locked], for one port. *)
Definition leave_pset (a : Z) (p : ipc_port) : ipc_port :=
  set_ip_psets (filter (fun s => s <> a) (ip_psets p)) p.

(** A turnstile is attached to the port while a sender is blocked on it. *)
Definition has_send_turnstile (a : Z) (k : kst) : bool :=
  port_send_turnstile a || bool_decide (map_Exists (fun _ th => th_turnstile th = Some a) (ks_threads k)).

(** ** Initialisation *)
Definition ipc_mqueue_init (p : ipc_port) : ipc_port :=
  set_imq_qlimit MACH_PORT_QLIMIT_DEFAULT (set_imq_messages [] p).

Definition ipc_port_has_klist (p : ipc_port) : bool :=
  negb (ip_specialreply p) && (ip_sync_link_state p =? PORT_SYNC_LINK_ANY).

(** The inheritor itself is kept by the turnstile code. *)
Definition ipc_port_adjust_sync_link_state_locked (a sync_link_state inheritor : Z) : M kst unit :=
  let* p := get_port a in
  when (ip_sync_link_state p =? PORT_SYNC_LINK_RCV_THREAD) (emit "thread_deallocate_safe" [a]) ;;*
  when (ip_sync_link_state p =? PORT_SYNC_LINK_WORKLOOP_STASH) (emit "turnstile_deallocate_safe" [a]) ;;*
  when (sync_link_state =? PORT_SYNC_LINK_WORKLOOP_STASH) (emit "turnstile_reference" [inheritor]) ;;*
  when (sync_link_state =? PORT_SYNC_LINK_RCV_THREAD) (emit "thread_reference" [inheritor]) ;;*
  put_port a (set_ip_sync_link_state
    (if (sync_link_state =? PORT_SYNC_LINK_WORKLOOP_KNOTE) || (sync_link_state =? PORT_SYNC_LINK_WORKLOOP_STASH) ||
        (sync_link_state =? PORT_SYNC_LINK_RCV_THREAD) then sync_link_state else PORT_SYNC_LINK_ANY) p).

(** ** The receive right is gone *)
Definition ipc_mqueue_changed (space a : Z) : M kst unit :=
  let* port := gets (fun k => ks_ports k !! a) in
  let klist := match port with Some p => ipc_port_has_klist p | None => true end in
  when (klist && klist_first a)
    (massert (negb (space =? IS_NULL)) "space" ;;* emit "knote_vanish" [a; space]) ;;*
  when (bool_decide (is_Some port)) (ipc_port_adjust_sync_link_state_locked a PORT_SYNC_LINK_ANY 0) ;;*
  waitq_wakeup64_all a IPC_MQUEUE_RECEIVE THREAD_RESTART.

(** The queue dies: every blocked sender runs, the messages go to the current
    thread for destruction, all reserved slots are void; returns whether the
    caller has to reap. *)
Definition ipc_mqueue_destroy_locked (a : Z) : M kst bool :=
  let* p := get_port a in
  let* turnstile := gets (has_send_turnstile a) in
  when turnstile (waitq_wakeup64_all a IPC_MQUEUE_FULL THREAD_RESTART) ;;*
  let* d_queue := gets ks_reap in
  let reap := bool_decide (imq_messages p <> [] /\ d_queue = []) in
  modify (fun k => set_ks_reap (d_queue ++ imq_messages p) k) ;;*
  put_port a (set_ip_psets [] (set_ip_waitq_valid false (set_imq_msgcount 0
    (set_imq_messages [] (set_ip_fullwaiters false p))))) ;;*
  ret reap.

(** ** Overrides *)

(** The knotes of a port whose receiver listens to them. *)
Definition queue_knote (a : Z) : M kst unit :=
  let* p := get_port a in
  let* s := get_space id in
  let active := if ip_get_receiver p =? is_self s then bool_decide (is_Some (is_table s))
                else space_active (ip_get_receiver p) in
  when (ip_in_a_space p && active && ipc_port_has_klist p) (emit "KNOTE" [a]).

Definition ipc_mqueue_override_send_locked (a qos_ovr : Z) : M kst unit :=
  let* p := get_port a in
  massert (ip_waitq_valid p) "waitq_is_valid(&port->ip_waitq)" ;;*
  when (ip_full p)
    (match imq_messages p with
     | [] => ret tt
     | (first, _) :: _ =>
       put_port a (set_imq_messages (raise_upto qos_ovr first (imq_messages p)) p) ;;*
       when (head_below qos_ovr (imq_messages p)) (queue_knote a)
     end).
End queues.

Section messages.
Context `{KernelConfig} `{Externals} `{Messages} `{Concurrency}.

(** Wakes one of the threads that wait; whether there was one. *)
Definition waitq_wakeup64_one (a : Z) (ev : wait_event) (result : wait_result_t) : M kst bool :=
  let* X := gets (waiters a ev) in
  if decide (X = ∅) then ret false
  else let* t := gets (fun k => waitq_pick k X) in mod_thread t (woken result) ;;* ret true.

(** A thread of the object's own queue, or else of the sets [psets] it is linked to. *)
Definition waitq_wakeup64_identify_locked (a : Z) (psets : list Z) (ev : wait_event) (result : wait_result_t)
    : M kst (option Z) :=
  let* X := gets (waiters a ev) in
  let* Y := gets (fun k => union_list ((fun s => waiters s ev k) <$> psets)) in
  let X := if decide (X = ∅) then Y else X in
  if decide (X = ∅) then ret None
  else let* t := gets (fun k => waitq_pick k X) in mod_thread t (woken result) ;;* ret (Some t).

(** ** Slots *)
Definition ipc_mqueue_release_msgcount (a : Z) : M kst unit :=
  let* p := get_port a in
  massert ((1 <? imq_msgcount p) || bool_decide (imq_messages p = []))
    "port_mq->imq_msgcount > 1 || ipc_kmsg_queue_empty(&port_mq->imq_messages)" ;;*
  let p := set_imq_msgcount (u16 (imq_msgcount p - 1)) p in
  put_port a p ;;*
  let* turnstile := gets (has_send_turnstile a) in
  when (negb (ip_full p) && ip_fullwaiters p && turnstile)
    (let* found := waitq_wakeup64_one a IPC_MQUEUE_FULL THREAD_AWAKENED in
     put_port a (if found then set_imq_msgcount (u16 (imq_msgcount p + 1)) p else set_ip_fullwaiters false p)) ;;*
  when (bool_decide (imq_messages p = [])) (emit "waitq_clear_prepost_locked" [a]).

(** Waking the senders a larger limit makes room for; each gets a slot. *)
Fixpoint qlimit_wakeup (wakeup : nat) (a : Z) : M kst unit :=
  match wakeup with
  | O => ret tt
  | S wakeup =>
    let* turnstile := gets (has_send_turnstile a) in
    let* found := if turnstile then waitq_wakeup64_one a IPC_MQUEUE_FULL THREAD_AWAKENED else ret false in
    if found then
      mod_port a (fun p => set_imq_msgcount (u16 (imq_msgcount p + 1)) p) ;;*
      qlimit_wakeup wakeup a
    else mod_port a (set_ip_fullwaiters false)
  end.
Definition ipc_mqueue_set_qlimit_locked (a qlimit : Z) : M kst unit :=
  massert (qlimit <=? MACH_PORT_QLIMIT_MAX) "qlimit <= MACH_PORT_QLIMIT_MAX" ;;*
  let* p := get_port a in
  when (imq_qlimit p <? qlimit) (qlimit_wakeup (Z.to_nat (qlimit - imq_qlimit p)) a) ;;*
  mod_port a (set_imq_qlimit (u16 qlimit)).

Definition ipc_mqueue_set_seqno_locked (a seqno : Z) : M kst unit :=
  mod_port a (set_imq_seqno seqno).

(** ** Handing messages over *)
Definition ipc_mqueue_peek_on_thread_locked (a option t : Z) : M kst unit :=
  massert (has option MACH_PEEK_MSG) "option & MACH_PEEK_MSG" ;;*
  let* p := get_port a in
  massert (negb (bool_decide (imq_messages p = []))) "ipc_kmsg_queue_first(&port_mq->imq_messages) != IKM_NULL" ;;*
  ip_reference a ;;*
  mod_thread t (fun th => set_ith_state MACH_PEEK_READY (set_ith_peekq a th)).

(** Whether the message does not fit into the receiver's buffer. *)
Definition too_large (kmsg t option rsize : Z) : bool :=
  rsize <? u32 (ipc_kmsg_copyout_size kmsg t + REQUESTED_TRAILER_SIZE (thread_is_64bit_addr t) option).

Definition ipc_mqueue_select_on_thread_locked (a option max_size t : Z) : M kst unit :=
  let* p := get_port a in
  let kmsg := first_of IKM_NULL (imq_messages p) in
  massert (negb (kmsg =? IKM_NULL)) "kmsg != IKM_NULL" ;;*
  let large := too_large kmsg t option max_size in
  let mr := if large then MACH_RCV_TOO_LARGE else MACH_MSG_SUCCESS in
  if large && has option MACH_RCV_LARGE then
    mod_thread t (fun th => set_ith_state mr (set_ith_seqno 0 (set_ith_msize (ipc_kmsg_copyout_size kmsg t)
      (set_ith_kmsg IKM_NULL (set_ith_receiver_name (ip_receiver_name p) th)))))
  else
    put_port a (set_imq_messages (remove kmsg (imq_messages p)) p) ;;*
    ipc_mqueue_release_msgcount a ;;*
    let* p := get_port a in
    put_port a (set_imq_seqno (u32 (imq_seqno p + 1)) p) ;;*
    mod_thread t (fun th => set_ith_state mr (set_ith_kmsg kmsg (set_ith_seqno (imq_seqno p) th))).

(** [kmsg] with its override; returns whether the message has to be destroyed. *)
Definition post_enqueue (a : Z) (kmsg : Z * Z) : M kst bool :=
  let* p := get_port a in
  if imq_msgcount p =? 0 then ret true
  else
    put_port a (set_imq_messages (raise kmsg.2 (imq_messages p) ++ [kmsg]) p) ;;*
    when (head_below kmsg.2 (imq_messages p)) (queue_knote a) ;;*
    ret false.

(** One thread leaves the wait queues per round. *)
Fixpoint post_loop (fuel : nat) (a : Z) (kmsg : Z * Z) : M kst bool :=
  match fuel with
  | O => fun _ => Diverges
  | S fuel =>
    let* p := get_port a in
    let* receiver := waitq_wakeup64_identify_locked a (ip_psets p) IPC_MQUEUE_RECEIVE THREAD_AWAKENED in
    match receiver with
    | None => post_enqueue a kmsg
    | Some t =>
      let* th := get_thread t in
      if (ith_state th =? MACH_PEEK_IN_PROGRESS) && (0 <? imq_msgcount p) then
        put_port a (set_imq_messages (raise kmsg.2 (imq_messages p) ++ [kmsg]) p) ;;*
        ipc_mqueue_peek_on_thread_locked a (ith_option th) t ;;*
        ret false
      else if negb (ith_state th =? MACH_RCV_IN_PROGRESS) then post_loop fuel a kmsg
      else
        let large := too_large kmsg.1 t (ith_option th) (ith_rsize th) in
        when large (mod_thread t (set_ith_msize (ipc_kmsg_copyout_size kmsg.1 t))) ;;*
        mod_thread t (set_ith_state (if large then MACH_RCV_TOO_LARGE else MACH_MSG_SUCCESS)) ;;*
        if negb large || negb (has (ith_option th) MACH_RCV_LARGE) then
          mod_thread t (fun th => set_ith_seqno (imq_seqno p) (set_ith_kmsg kmsg.1 th)) ;;*
          put_port a (set_imq_seqno (u32 (imq_seqno p + 1)) p) ;;*
          ipc_mqueue_release_msgcount a ;;*
          ret false
        else
          mod_thread t (fun th => set_ith_seqno 0 (set_ith_kmsg IKM_NULL
            (set_ith_receiver_name (ip_receiver_name p) th))) ;;*
          post_loop fuel a kmsg
    end
  end.

Definition ipc_mqueue_post (a : Z) (kmsg : Z * Z) : M kst unit :=
  let* p := get_port a in
  let* threads := gets (fun k => size (ks_threads k)) in
  let* destroy_msg :=
    if negb (ip_waitq_valid p) then ret true else post_loop (S threads) a kmsg in
  when destroy_msg (emit "ipc_kmsg_destroy" [kmsg.1]).

(** ** Sending *)
Inductive send_outcome := Reserved | Refused (mr : Z) | Blocked.

(** Up to [thread_block]: a slot of the queue is reserved, or the thread waits
    for one. *)
Definition send_reserve (t a : Z) (kmsg : Z * Z) (option send_timeout : Z) : M kst send_outcome :=
  let* p := get_port a in
  if negb (ip_full p) || (negb (ip_full_kernel p) &&
       (has option MACH_SEND_ALWAYS || (msgh_remote_type kmsg.1 =? MACH_MSG_TYPE_PORT_SEND_ONCE))) then
    let p := set_imq_msgcount (u16 (imq_msgcount p + 1)) p in
    put_port a p ;;*
    massert (0 <? imq_msgcount p) "mqueue->imq_msgcount > 0" ;;*
    ret Reserved
  else if has option MACH_SEND_TIMEOUT && (send_timeout =? 0) then ret (Refused MACH_SEND_TIMED_OUT)
  else if ip_full_kernel p then ret (Refused MACH_SEND_NO_BUFFER)
  else
    put_port a (set_ip_fullwaiters true p) ;;*
    emit "ipc_port_send_update_inheritor" [a; t] ;;*
    let* aborted := gets (fun k => thread_abort_pending k t) in
    mod_thread t (fun th => set_th_turnstile (Some a)
      (if aborted then woken THREAD_INTERRUPTED th
       else set_th_waits_on (Some (a, IPC_MQUEUE_FULL)) (set_th_wait_result THREAD_WAITING th))) ;;*
    ret Blocked.

(** After [thread_block]. *)
Definition send_resume (t option : Z) : M kst send_outcome :=
  let* th := get_thread t in
  mod_thread t (set_th_turnstile None) ;;*
  match th_wait_result th with
  | THREAD_AWAKENED => ret Reserved
  | THREAD_TIMED_OUT =>
    massert (has option MACH_SEND_TIMEOUT) "option & MACH_SEND_TIMEOUT" ;;* ret (Refused MACH_SEND_TIMED_OUT)
  | THREAD_INTERRUPTED => ret (Refused MACH_SEND_INTERRUPTED)
  | THREAD_RESTART => ret (Refused MACH_SEND_INVALID_DEST)
  | _ => panic "ipc_mqueue_send"
  end.

(** [t] is the current thread; while it blocks, other threads run. *)
Definition ipc_mqueue_send_locked (t a : Z) (kmsg : Z * Z) (option send_timeout : Z) : M kst Z :=
  let* reserved := send_reserve t a kmsg option send_timeout in
  interfere ;;* (* ip_mq_unlock, thread_block *)
  let* reserved := match reserved with Blocked => send_resume t option | _ => ret reserved end in
  match reserved with
  | Refused mr => ret mr
  | _ => ipc_mqueue_post a kmsg ;;* ret MACH_MSG_SUCCESS
  end.

(** ** Receiving *)

(** The port a receive on the object takes its message from, if there is one:
    for a set, one of the ports preposted to it. *)
Definition preposted (s : Z) (k : kst) : gset Z :=
  dom (filter (fun x : Z * ipc_port => s ∈ ip_psets x.2 /\ imq_messages x.2 <> []) (ks_ports k)).
Definition message_port (object : Z) : M kst (option Z) :=
  fun k => match ks_psets k !! object, ks_ports k !! object with
  | Some _, _ =>
    Done (if decide (preposted object k = ∅) then None else Some (prepost_pick k (preposted object k)), k)
  | None, Some p => Done (if decide (imq_messages p = []) then None else Some object, k)
  | None, None => Panic "Unknown waitq type"
  end.
Definition waitq_valid (object : Z) : M kst bool :=
  fun k => match ks_psets k !! object, ks_ports k !! object with
  | Some s, _ => Done (ips_active s, k)
  | None, Some p => Done (ip_waitq_valid p, k)
  | None, None => Panic "Unknown waitq type"
  end.

Definition ipc_mqueue_receive_on_thread_and_unlock (object option max_size rcv_timeout t : Z)
    : M kst wait_result_t :=
  let* port := message_port object in
  match port with
  | Some a =>
    (if has option MACH_PEEK_MSG then ipc_mqueue_peek_on_thread_locked a option t
     else ipc_mqueue_select_on_thread_locked a option max_size t) ;;*
    ret THREAD_NOT_WAITING
  | None =>
    let* valid := waitq_valid object in
    if negb valid then ret THREAD_RESTART
    else if has option MACH_RCV_TIMEOUT && (rcv_timeout =? 0) then
      mod_thread t (set_ith_state MACH_RCV_TIMED_OUT) ;;* ret THREAD_NOT_WAITING
    else
      let* aborted := gets (fun k => thread_abort_pending k t) in
      mod_thread t (fun th =>
        let th := set_ith_msize 0 (set_ith_rsize max_size (set_ith_option option th)) in
        let th := set_ith_state (if has option MACH_PEEK_MSG then MACH_PEEK_IN_PROGRESS else MACH_RCV_IN_PROGRESS) th in
        if aborted then woken THREAD_INTERRUPTED th
        else set_th_waits_on (Some (object, IPC_MQUEUE_RECEIVE)) (set_th_wait_result THREAD_WAITING th)) ;;*
      ret (if aborted then THREAD_INTERRUPTED else THREAD_WAITING)
  end.

Definition ipc_mqueue_receive_results (t : Z) (saved_wait_result : wait_result_t) : M kst unit :=
  match saved_wait_result with
  | THREAD_TIMED_OUT => mod_thread t (set_ith_state MACH_RCV_TIMED_OUT)
  | THREAD_INTERRUPTED => mod_thread t (set_ith_state MACH_RCV_INTERRUPTED)
  | THREAD_RESTART => mod_thread t (set_ith_state MACH_RCV_PORT_CHANGED)
  | THREAD_AWAKENED =>
    let* th := get_thread t in
    if bool_decide (ith_state th ∈ [MACH_RCV_SCATTER_SMALL; MACH_RCV_TOO_LARGE; MACH_MSG_SUCCESS; MACH_PEEK_READY])
    then ret tt
    else panic "ipc_mqueue_receive_results: strange ith_state"
  | _ => panic "ipc_mqueue_receive_results: strange wait_result"
  end.

Definition ipc_mqueue_receive (object option max_size rcv_timeout t : Z) : M kst unit :=
  let* wresult := ipc_mqueue_receive_on_thread_and_unlock object option max_size rcv_timeout t in
  match wresult with
  | THREAD_NOT_WAITING => ret tt
  | THREAD_WAITING =>
    interfere ;;* (* thread_block *)
    let* th := get_thread t in
    ipc_mqueue_receive_results t (th_wait_result th)
  | _ => ipc_mqueue_receive_results t wresult
  end.

(** ** Looking without taking: the message a sequence number stands for *)
Definition ipc_mqueue_peek_locked (a seqno : Z) : M kst (option (Z * Z)) :=
  let* p := get_port a in
  let found (seqno msgoff : Z) :=
    match imq_messages p !! Z.to_nat msgoff with
    | Some (kmsg, _) => Some (seqno, kmsg)
    | None => None
    end in
  ret (if seqno =? 0 then found (imq_seqno p) 0
       else if (imq_seqno p <=? seqno) && (seqno <? u32 (imq_seqno p + imq_msgcount p))
            then found seqno (seqno - imq_seqno p)
            else None).

(** ** Joining a set *)

(** Messages of the port go to threads that wait on the set. *)
Fixpoint add_loop (fuel : nat) (a pset : Z) : M kst unit :=
  match fuel with
  | O => fun _ => Diverges
  | S fuel =>
    let* p := get_port a in
    match imq_messages p with
    | [] => ret tt
    | (kmsg, _) :: _ =>
      let* receiver := waitq_wakeup64_identify_locked pset [] IPC_MQUEUE_RECEIVE THREAD_AWAKENED in
      match receiver with
      | None => emit "waitq_link_prepost_locked" [a; pset]
      | Some t =>
        let* th := get_thread t in
        if negb (ith_state th =? MACH_RCV_IN_PROGRESS) then
          when (ith_state th =? MACH_PEEK_IN_PROGRESS)
            (ipc_mqueue_peek_on_thread_locked a (ith_option th) t) ;;*
          add_loop fuel a pset
        else
          let large := too_large kmsg t (ith_option th) (ith_rsize th) in
          when large (mod_thread t (set_ith_msize (ipc_kmsg_copyout_size kmsg t))) ;;*
          mod_thread t (set_ith_state (if large then MACH_RCV_TOO_LARGE else MACH_MSG_SUCCESS)) ;;*
          if large && has (ith_option th) MACH_RCV_LARGE then
            mod_thread t (fun th => set_ith_seqno 0 (set_ith_kmsg IKM_NULL
              (set_ith_receiver_name (ip_receiver_name p) th))) ;;*
            add_loop fuel a pset
          else
            put_port a (set_imq_messages (remove kmsg (imq_messages p)) p) ;;*
            ipc_mqueue_release_msgcount a ;;*
            let* p := get_port a in
            mod_thread t (fun th => set_ith_seqno (imq_seqno p) (set_ith_kmsg kmsg th)) ;;*
            put_port a (set_imq_seqno (u32 (imq_seqno p + 1)) p) ;;*
            add_loop fuel a pset
      end
    end
  end.
Definition ipc_mqueue_add_locked (a pset : Z) : M kst kern_return_t :=
  let* p := get_port a in
  if bool_decide (pset ∈ ip_psets p) then ret KERN_ALREADY_IN_SET
  else
    let* s := get_pset pset in
    when (ips_active s) (put_port a (set_ip_psets (ip_psets p ++ [pset]) p)) ;;*
    let* threads := gets (fun k => size (ks_threads k)) in
    add_loop (S threads) a pset ;;*
    ret KERN_SUCCESS.
End messages.
