(* ===== verification/MqueueSpec.v ===== *)
(** * The critical sections of a message queue

    The queue of one port with the threads that send to it and receive from it: the
    invariant that ties the count of the queue to its messages and to the slots its
    senders hold, and what each critical section of [ipc_mqueue.c] does to it. *)

From S2P Require Import Prelude MachPort KmsgQueue KmsgSpec Prng OsRefcnt IpcTable IpcHash IpcState IpcSpace EntryFacts IpcEntry EntrySpec IpcPort PortSpec IpcMqueue.

(** ** Senders

    A thread inside [ipc_mqueue_send_locked]: blocked until there is room, or
    on its way to [ipc_mqueue_post] with a slot of its own. *)
Inductive sender := Sleeping (kmsg : Z * Z) (option : Z) | Posting (kmsg : Z * Z).
Definition sender_kmsg (s : sender) : Z := match s with Sleeping m _ | Posting m => m.1 end.
Abbreviation senders := (gmap Z sender).
Abbreviation threads := (gmap Z thread).

(** A slot of the queue belongs to the sender. *)
Definition reserves (T : threads) (t : Z) (s : sender) : bool :=
  match s with
  | Posting _ => true
  | Sleeping _ _ =>
    match T !! t with
    | Some th => bool_decide (th_waits_on th = None /\ th_wait_result th = THREAD_AWAKENED)
    | None => false
    end
  end.
Definition reservers (T : threads) (pc : senders) : senders := filter (fun x => reserves T x.1 x.2 = true) pc.

(** The wait results [send_resume] expects. *)
Definition resumable (option : Z) (r : wait_result_t) : Prop :=
  r = THREAD_AWAKENED \/ r = THREAD_INTERRUPTED \/ r = THREAD_RESTART \/
  r = THREAD_TIMED_OUT /\ has option MACH_SEND_TIMEOUT = true.

Section queue.
Context `{KernelConfig} `{Externals} `{Messages}.
Context (a : Z).

(** [d] slots of the count belong to nobody. *)
Record mq_core (d : nat) (p : ipc_port) (T : threads) (pc : senders) : Prop := {
  mo_count : imq_msgcount p = Z.of_nat (length (imq_messages p) + size (reservers T pc) + d);
  mo_small : imq_msgcount p < 2 ^ 16;
  mo_limit : 0 <= imq_qlimit p <= MACH_PORT_QLIMIT_MAX;
  (** a blocked sender: the queue is full and knows of it *)
  mo_full t th : T !! t = Some th -> waits a IPC_MQUEUE_FULL th ->
    (exists m o, pc !! t = Some (Sleeping m o)) /\ ip_fullwaiters p = true /\ ip_full p = true;
  mo_sleep t m o : pc !! t = Some (Sleeping m o) -> exists th, T !! t = Some th /\ th_turnstile th = Some a /\
    (waits a IPC_MQUEUE_FULL th \/ th_waits_on th = None /\ resumable o (th_wait_result th));
  (** a blocked receiver: the queue is empty *)
  mo_recv t th x : T !! t = Some th -> waits x IPC_MQUEUE_RECEIVE th -> x = a \/ x ∈ ip_psets p ->
    ith_state th = MACH_RCV_IN_PROGRESS /\ imq_messages p = [];
  (** the messages are distinct *)
  mo_nodup : NoDup (imq_messages p).*1;
  mo_null : IKM_NULL ∉ (imq_messages p).*1;
  mo_kmsg t s : pc !! t = Some s -> sender_kmsg s <> IKM_NULL /\ (sender_kmsg s ∉ (imq_messages p).*1) /\
    forall t' s', pc !! t' = Some s' -> sender_kmsg s' = sender_kmsg s -> t' = t;
}.

(** The parts of the state the sections work on; other parts they leave alone,
    the trace apart. *)
Record mq_at (k : kst) (p : ipc_port) (T : threads) (R : kmsgs) : Prop := {
  ma_port : ks_ports k !! a = Some p;
  ma_threads : ks_threads k = T;
  ma_reap : ks_reap k = R;
}.

(** ** Rules *)
Section rules.
Context (k : kst) (p : ipc_port) (T : threads) (R : kmsgs) (Hat : mq_at k p T R).

Lemma at_get_port Q : Q p k -> wp (get_port a) Q k.
Proof using Hat. intros HQ. apply (wp_get_port _ _ p); [apply Hat|done]. Qed.
Lemma at_put_port p' Q : (forall k', mq_at k' p' T R -> Q tt k') -> wp (put_port a p') Q k.
Proof using Hat. intros HQ. apply wp_put_port, HQ. split; [apply with_port_lookup|apply Hat..]. Qed.
Lemma at_mod_port f Q : (forall k', mq_at k' (f p) T R -> Q tt k') -> wp (mod_port a f) Q k.
Proof using Hat. intros HQ. by apply wp_bind, at_get_port, at_put_port. Qed.
Lemma at_get_thread t th Q : T !! t = Some th -> Q th k -> wp (get_thread t) Q k.
Proof using Hat. destruct Hat as [_ <- _]. unfold wp, get_thread. by intros ->. Qed.
Lemma at_mod_thread t th f Q :
  T !! t = Some th -> (forall k', mq_at k' p (<[t := f th]> T) R -> Q tt k') -> wp (mod_thread t f) Q k.
Proof using Hat.
  intros Ht HQ. apply wp_bind, (at_get_thread _ th); [done|]. apply wp_modify, HQ. destruct Hat as [? <- ?]. by split.
Qed.
Lemma at_emit f args Q : (forall k', mq_at k' p T R -> Q tt k') -> wp (emit f args) Q k.
Proof using Hat. intros HQ. apply wp_emit, HQ. by destruct Hat. Qed.
Lemma at_queue_knote Q : (forall k', mq_at k' p T R -> Q tt k') -> wp (queue_knote a) Q k.
Proof using Hat.
  intros HQ. apply wp_bind, at_get_port, wp_bind, wp_get_space, wp_when; intros _; [by apply at_emit|by apply HQ].
Qed.
End rules.

Lemma elem_of_waiters x ev k t : t ∈ waiters x ev k <-> exists th, ks_threads k !! t = Some th /\ waits x ev th.
Proof.
  unfold waiters. rewrite elem_of_dom. unfold is_Some. setoid_rewrite map_lookup_filter_Some. simpl. naive_solver.
Qed.

Lemma reservers_lookup T pc t s : reservers T pc !! t = Some s <-> pc !! t = Some s /\ reserves T t s = true.
Proof. unfold reservers. by rewrite map_lookup_filter_Some. Qed.
Lemma reservers_ext T T' pc :
  (forall t s, pc !! t = Some s -> reserves T' t s = reserves T t s) -> reservers T' pc = reservers T pc.
Proof.
  intros He. apply map_eq. intros t. apply option_eq. intros s. rewrite !reservers_lookup.
  split; intros [Hs Hr]; (split; [done|]); by rewrite <- (He t s Hs) || rewrite (He t s Hs).
Qed.

(** A thread that is not in the middle of a send may change freely. *)
Lemma reservers_other T pc t th : (forall m o, pc !! t <> Some (Sleeping m o)) -> reservers (<[t := th]> T) pc = reservers T pc.
Proof.
  intros Ht. apply reservers_ext. intros t' [m o|m] Hs; [|done]. unfold reserves.
  rewrite lookup_insert_ne; [done|]. intros <-. by eapply Ht.
Qed.
(** A blocked sender that gets a slot. *)
Lemma reservers_wake T pc t th m o :
  pc !! t = Some (Sleeping m o) -> T !! t = Some th -> th_waits_on th <> None ->
  reservers (<[t := woken THREAD_AWAKENED th]> T) pc = <[t := Sleeping m o]> (reservers T pc) /\ reservers T pc !! t = None.
Proof.
  intros Hs Ht Hw. split.
  - apply map_eq. intros t'. destruct (decide (t = t')) as [<-|Hne].
    + rewrite lookup_insert_eq. apply reservers_lookup. split; [done|]. unfold reserves. rewrite lookup_insert_eq.
      by apply bool_decide_eq_true.
    + rewrite lookup_insert_ne by done. apply option_eq. intros s. rewrite !reservers_lookup.
      destruct s as [m' o'|m']; simpl; [|done]. by rewrite lookup_insert_ne.
  - destruct (reservers T pc !! t) as [s|] eqn:He; [|done]. apply reservers_lookup in He as [Hs' Hr].
    rewrite Hs in Hs'. injection Hs' as <-. simpl in Hr. rewrite Ht in Hr. by apply bool_decide_eq_true in Hr as [? _].
Qed.


Lemma has_turnstile k t th : ks_threads k !! t = Some th -> th_turnstile th = Some a -> has_send_turnstile a k = true.
Proof. intros Ht Hs. apply orb_true_iff. right. apply bool_decide_eq_true. by exists t, th. Qed.

Lemma at_wakeup_one k p T R ev r Q :
  mq_at k p T R ->
  ((forall t th, T !! t = Some th -> ~ waits a ev th) -> Q false k) ->
  (forall t th k', T !! t = Some th -> waits a ev th -> mq_at k' p (<[t := woken r th]> T) R -> Q true k') ->
  wp (waitq_wakeup64_one a ev r) Q k.
Proof.
  intros Hat Hn Hs. apply wp_bind, wp_gets. destruct (decide (waiters a ev k = ∅)) as [He|He].
  - apply wp_ret, Hn. intros t th Ht Hw. apply (not_elem_of_empty (C := gset Z) t). rewrite <- He.
    apply elem_of_waiters. exists th. by rewrite (ma_threads _ _ _ _ Hat).
  - pose proof (waitq_pick_in k _ He) as Hp. apply wp_bind, wp_gets.
    apply elem_of_waiters in Hp as (th&Ht&Hw). rewrite (ma_threads _ _ _ _ Hat) in Ht.
    apply wp_bind, (at_mod_thread _ _ _ _ Hat _ th); [done|]. intros k' Hk'. by eapply wp_ret, Hs.
Qed.

(** ** What leaves the invariant alone *)

(** A thread that is not in the middle of a send stops waiting. *)
Lemma core_idle d p T pc t th :
  mq_core d p T pc -> (forall m o, pc !! t <> Some (Sleeping m o)) -> th_waits_on th = None ->
  mq_core d p (<[t := th]> T) pc.
Proof.
  intros [] Ht Hw. split; try done.
  - by rewrite reservers_other.
  - intros t' th' Ht' Hw'. apply lookup_insert_Some in Ht' as [[-> ->]|[Hne Ht']]; [congruence|eauto].
  - intros t' m o Hs. rewrite lookup_insert_ne by (intros <-; by eapply Ht). eauto.
  - intros t' th' x Ht' Hw'. apply lookup_insert_Some in Ht' as [[-> ->]|[Hne Ht']]; [congruence|eauto].
Qed.
(** It starts to wait for a message. *)
Lemma core_receiver d p T pc t th x :
  mq_core d p T pc -> (forall m o, pc !! t <> Some (Sleeping m o)) -> waits x IPC_MQUEUE_RECEIVE th ->
  ith_state th = MACH_RCV_IN_PROGRESS -> imq_messages p = [] -> mq_core d p (<[t := th]> T) pc.
Proof.
  intros [] Ht Hw Hst He. split; try done.
  - by rewrite reservers_other.
  - intros t' th' Ht' Hw'. apply lookup_insert_Some in Ht' as [[-> ->]|[Hne Ht']]; [congruence|eauto].
  - intros t' m o Hs. rewrite lookup_insert_ne by (intros <-; by eapply Ht). eauto.
  - intros t' th' y Ht' Hw'. apply lookup_insert_Some in Ht' as [[-> ->]|[Hne Ht']]; [done|eauto].
Qed.
(** A blocked sender gets the slot that belongs to nobody. *)
Lemma core_wake d p T pc t th :
  mq_core (S d) p T pc -> T !! t = Some th -> waits a IPC_MQUEUE_FULL th ->
  mq_core d p (<[t := woken THREAD_AWAKENED th]> T) pc.
Proof.
  intros [] Ht Hw. destruct (mo_full0 _ _ Ht Hw) as ((m&o&Hs)&_).
  destruct (reservers_wake T pc t th m o) as [Hr Hn]; [done..|by rewrite Hw|]. split; try done.
  - rewrite Hr, map_size_insert_None by done. rewrite mo_count0. lia.
  - intros t' th' Ht' Hw'. apply lookup_insert_Some in Ht' as [[-> <-]|[Hne Ht']]; [done|eauto].
  - intros t' m' o' Hs'. destruct (decide (t = t')) as [<-|Hne].
    + rewrite lookup_insert_eq. eexists. split; [done|]. destruct (mo_sleep0 _ _ _ Hs') as (th'&Ht'&Hu&_).
      simplify_eq. split; [done|]. right. split; [done|]. by left.
    + rewrite lookup_insert_ne by done. eauto.
  - intros t' th' x Ht' Hw'. apply lookup_insert_Some in Ht' as [[-> <-]|[Hne Ht']]; [done|eauto].
Qed.

(** What the release of a slot does not touch. *)
Record same_queue (p p' : ipc_port) : Prop := {
  sq_messages : imq_messages p' = imq_messages p;
  sq_seqno : imq_seqno p' = imq_seqno p;
  sq_qlimit : imq_qlimit p' = imq_qlimit p;
  sq_psets : ip_psets p' = ip_psets p;
  sq_valid : ip_waitq_valid p' = ip_waitq_valid p;
}.
#[global] Instance same_queue_refl : Reflexive same_queue.
Proof. by split. Qed.
(** A section leaves the threads alone that do not wait. *)
Definition calm (T T' : threads) : Prop := forall t th,
  T !! t = Some th -> th_waits_on th = None -> T' !! t = Some th.
(** A section wakes senders only. *)
Definition stirred (T T' : threads) : Prop := forall t th,
  T !! t = Some th -> ~ waits a IPC_MQUEUE_FULL th -> T' !! t = Some th.
#[global] Instance stirred_refl : Reflexive stirred.
Proof. by intros T t th. Qed.
Lemma stirred_calm T T' : stirred T T' -> calm T T'.
Proof. intros Hs t th Ht Hw. apply Hs; [done|]. unfold waits. by rewrite Hw. Qed.

Lemma core_port d d' p p' T pc :
  mq_core d p T pc -> same_queue p p' ->
  imq_msgcount p' = imq_msgcount p + Z.of_nat d' - Z.of_nat d -> imq_msgcount p' < 2 ^ 16 ->
  (forall t th, T !! t = Some th -> waits a IPC_MQUEUE_FULL th -> ip_fullwaiters p' = true /\ ip_full p' = true) ->
  mq_core d' p' T pc.
Proof.
  intros [] [] Hc Hsm Hf. split; try congruence.
  - rewrite Hc, sq_messages0, mo_count0. lia.
  - intros t th Ht Hw. split; [by eapply mo_full0|]. eauto.
  - done.
  - intros t th x. rewrite sq_messages0, sq_psets0. eauto.
  - intros t s. rewrite sq_messages0. eauto.
Qed.

(** ** Releasing a slot *)
Lemma u16_small x : 0 <= x < 2 ^ 16 -> u16 x = x.
Proof. apply Z.mod_small. Qed.

Lemma release_slot_ok k p T R pc :
  mq_at k p T R -> mq_core 1 p T pc ->
  wp (ipc_mqueue_release_msgcount a) (fun _ k' => exists p' T',
    mq_at k' p' T' R /\ mq_core 0 p' T' pc /\ same_queue p p' /\ stirred T T') k.
Proof.
  intros Hat Hc. apply wp_bind, (at_get_port _ _ _ _ Hat), wp_bind, wp_massert.
  { pose proof (mo_count _ _ _ _ Hc). destruct (imq_messages p); simpl in *; [by rewrite orb_true_r|].
    apply orb_true_iff. left. apply Z.ltb_lt. lia. }
  pose proof (mo_count _ _ _ _ Hc) as Hn. pose proof (mo_small _ _ _ _ Hc) as Hsm.
  rewrite u16_small by lia. apply wp_bind, (at_put_port _ _ _ _ Hat). clear k Hat. intros k Hat.
  set (p1 := set_imq_msgcount (imq_msgcount p - 1) p) in *.
  apply wp_bind, wp_gets, wp_bind.
  assert (forall k, (exists p' T', mq_at k p' T' R /\ mq_core 0 p' T' pc /\ same_queue p p' /\ stirred T T') ->
    wp (when (bool_decide (imq_messages p1 = [])) (emit "waitq_clear_prepost_locked" [a])) (fun _ k' => exists p' T',
      mq_at k' p' T' R /\ mq_core 0 p' T' pc /\ same_queue p p' /\ stirred T T') k) as Hend.
  { intros k' (p'&T'&Hk'&Hr). apply wp_when; intros _; [|eauto]. apply (at_emit _ _ _ _ Hk'). eauto. }
  destruct (ip_full p1) eqn:Hf; [|destruct (ip_fullwaiters p1) eqn:Hfw; [destruct (has_send_turnstile a k) eqn:Hts|]]; simpl.
  - apply wp_ret, Hend. exists p1, T. split_and!; [done| |by split|done].
    apply (core_port 1 0 p); [done|by split|unfold p1; simpl; lia..|]. intros t th Ht Hw. by destruct (mo_full _ _ _ _ Hc _ _ Ht Hw) as (_&?&_).
  - apply wp_bind, (at_wakeup_one _ _ _ _ _ _ _ Hat).
    + intros Hno. apply (at_put_port _ _ _ _ Hat). intros k' Hk'. apply Hend.
      eexists _, T. split_and!; [done| |by split|done].
      apply (core_port 1 0 p); [done|by split|unfold p1; simpl; lia..|]. intros t th Ht Hw. by destruct (Hno _ _ Ht).
    + intros t th k' Ht Hw Hk'. apply (at_put_port _ _ _ _ Hk'). intros k2 Hk2. apply Hend.
      eexists _, _. split_and!; [done| |by split|].
      * apply (core_port 0 0 p); [by apply core_wake|by split|unfold p1; simpl; rewrite ?u16_small by lia; lia..|].
        intros t' th' Ht' Hw'. apply lookup_insert_Some in Ht' as [[-> <-]|[Hne Ht']]; [done|].
        destruct (mo_full _ _ _ _ Hc _ _ Ht' Hw') as (_&?&?). split; [done|].
        unfold ip_full in *. simpl. rewrite u16_small by lia. by replace (imq_msgcount p - 1 + 1) with (imq_msgcount p) by lia.
      * intros t' th' Ht' Hw'. rewrite lookup_insert_ne; [done|]. intros <-. congruence.
  - apply wp_ret, Hend. exists p1, T. split_and!; [done| |by split|done].
    apply (core_port 1 0 p); [done|by split|unfold p1; simpl; lia..|]. intros t th Ht Hw.
    destruct (mo_full _ _ _ _ Hc _ _ Ht Hw) as ((m&o&Hs)&_). destruct (mo_sleep _ _ _ _ Hc _ _ _ Hs) as (th'&Ht'&Hu&_).
    rewrite (has_turnstile k t th') in Hts; [done| |done]. by rewrite (ma_threads _ _ _ _ Hat).
  - apply wp_ret, Hend. exists p1, T. split_and!; [done| |by split|done].
    apply (core_port 1 0 p); [done|by split|unfold p1; simpl; lia..|]. intros t th Ht Hw.
    destruct (mo_full _ _ _ _ Hc _ _ Ht Hw) as (_&Hfw'&_). simpl in Hfw. congruence.
Qed.

(** ** Posting *)
Definition receives (p : ipc_port) (th : thread) : Prop :=
  exists x, waits x IPC_MQUEUE_RECEIVE th /\ (x = a \/ x ∈ ip_psets p).

Lemma at_identify k p T R r Q :
  mq_at k p T R ->
  ((forall t th, T !! t = Some th -> ~ receives p th) -> Q None k) ->
  (forall t th k', T !! t = Some th -> receives p th -> mq_at k' p (<[t := woken r th]> T) R -> Q (Some t) k') ->
  wp (waitq_wakeup64_identify_locked a (ip_psets p) IPC_MQUEUE_RECEIVE r) Q k.
Proof.
  intros Hat Hn Hs. apply wp_bind, wp_gets, wp_bind, wp_gets.
  set (X := waiters a IPC_MQUEUE_RECEIVE k). set (Y := union_list _).
  assert (forall t, t ∈ X ∪ Y <-> exists th, T !! t = Some th /\ receives p th) as HXY.
  { intros t. unfold X, Y. rewrite elem_of_union, elem_of_union_list. setoid_rewrite list_elem_of_fmap.
    setoid_rewrite elem_of_waiters. destruct Hat as [_ <- _]. unfold receives. split.
    - intros [(th&?&?)|(Z0&(x&->&Hx)&Ht)]; [eauto 6|]. apply elem_of_waiters in Ht as (th&?&?). eauto 6.
    - intros (th&Ht&x&Hw&[->|Hx]); [eauto|]. right. eexists. split; [by exists x|]. apply elem_of_waiters. eauto. }
  set (Z1 := if decide (X = ∅) then Y else X).
  assert (Z1 ⊆ X ∪ Y /\ (Z1 = ∅ -> X ∪ Y = ∅)) as [Hsub He] by (unfold Z1; destruct (decide (X = ∅)); set_solver).
  clearbody Z1 Y. cbv zeta. destruct (decide (Z1 = ∅)) as [Hz|Hz].
  - apply wp_ret, Hn. intros t th Ht Hr. apply (not_elem_of_empty (C := gset Z) t). rewrite <- (He Hz). apply HXY. eauto.
  - apply waitq_pick_in with (k := k) in Hz as Hp. apply Hsub, HXY in Hp as (th&Ht&Hr).
    apply wp_bind, wp_gets, wp_bind, (at_mod_thread _ _ _ _ Hat _ th); [done|].
    intros k' Hk'. eapply wp_ret, Hs; [exact Ht|done|done].
Qed.

(** The message joins the queue. *)
Definition fresh (x : Z) (p : ipc_port) (pc : senders) : Prop :=
  x <> IKM_NULL /\ (x ∉ (imq_messages p).*1) /\ forall t s, pc !! t = Some s -> sender_kmsg s <> x.
Lemma core_enqueue p T pc m :
  mq_core 1 p T pc -> fresh m.1 p pc -> (forall t th, T !! t = Some th -> ~ receives p th) ->
  mq_core 0 (set_imq_messages (raise m.2 (imq_messages p) ++ [m]) p) T pc.
Proof.
  intros [] (Hz&Hq&Hpc) Hno. split; simpl; try done.
  - rewrite length_app. unfold raise. rewrite length_fmap, mo_count0. simpl. lia.
  - intros t th x Ht Hw Hx. destruct (Hno t th Ht). by exists x.
  - rewrite fmap_app, raise_addresses. apply NoDup_app. split; [done|]. split; [|apply NoDup_singleton].
    intros x Hx. simpl. rewrite list_elem_of_singleton. by intros ->.
  - rewrite fmap_app, raise_addresses, elem_of_app. simpl. rewrite list_elem_of_singleton. intros [?|?]; [done|congruence].
  - intros t s Hs. destruct (mo_kmsg0 t s Hs) as (H1'&H2'&H3'). split_and!; [done| |done].
    rewrite fmap_app, raise_addresses, elem_of_app. simpl. rewrite list_elem_of_singleton. intros [?|?]; [done|].
    by apply (Hpc t s).
Qed.
Lemma post_enqueue_ok k p T R pc m :
  mq_at k p T R -> mq_core 1 p T pc -> fresh m.1 p pc -> (forall t th, T !! t = Some th -> ~ receives p th) ->
  wp (post_enqueue a m) (fun destroy k' => destroy = false /\ exists p',
    mq_at k' p' T R /\ mq_core 0 p' T pc /\ p' = set_imq_messages (raise m.2 (imq_messages p) ++ [m]) p) k.
Proof.
  intros Hat Hc Hfr Hno. apply wp_bind, (at_get_port _ _ _ _ Hat).
  rewrite (proj2 (Z.eqb_neq (imq_msgcount p) 0)) by (rewrite (mo_count _ _ _ _ Hc); lia).
  apply wp_bind, (at_put_port _ _ _ _ Hat). intros k' Hk'. apply wp_bind.
  eapply (wp_mono _ (fun _ k' => mq_at k' _ T R)).
  - apply wp_when; intros _; [|exact Hk']. by apply (at_queue_knote _ _ _ _ Hk').
  - intros _ k2 Hk2. apply wp_ret. split; [done|]. eexists. split; [exact Hk2|]. split; [by apply core_enqueue|done].
Qed.

(** What a thread that received has in its hands: the sequence number and the
    message. *)
Definition got (th : thread) : option (Z * Z) :=
  if decide ((ith_state th = MACH_MSG_SUCCESS \/ ith_state th = MACH_RCV_TOO_LARGE) /\ ith_kmsg th <> IKM_NULL)
  then Some (ith_seqno th, ith_kmsg th) else None.
Definition receiving (th : thread) : bool :=
  match th_waits_on th with Some (_, IPC_MQUEUE_RECEIVE) => true | _ => false end.
(** What the thread got while it waited. *)
Definition gain (T T' : threads) (t : Z) : option (Z * Z) :=
  match T !! t, T' !! t with
  | Some th, Some th' => if receiving th && negb (receiving th') then got th' else None
  | _, _ => None
  end.
Definition handed (T T' : threads) : list (Z * Z) := omap (gain T T') (elements (dom T)).

Lemma gain_same T T' t th : T !! t = Some th -> T' !! t = Some th -> gain T T' t = None.
Proof. unfold gain. intros -> ->. by destruct (receiving th). Qed.
Lemma gain_idle T T' t th : T !! t = Some th -> receiving th = false -> gain T T' t = None.
Proof. unfold gain. intros -> ->. by destruct (T' !! t). Qed.
Lemma gain_stirred T T' t : stirred T T' -> gain T T' t = None.
Proof.
  intros Hs. destruct (T !! t) as [th|] eqn:Ht; [|unfold gain; by rewrite Ht].
  destruct (decide (waits a IPC_MQUEUE_FULL th)) as [Hw|Hw].
  - eapply gain_idle; [done|]. unfold receiving. by rewrite Hw.
  - eapply gain_same; [done|by apply Hs].
Qed.
Lemma handed_none T T' : (forall t, gain T T' t = None) -> handed T T' = [].
Proof. intros Hg. unfold handed. induction (elements (dom T)) as [|t l IH]; simpl; [done|]. by rewrite Hg. Qed.
Lemma handed_one T T' t x :
  gain T T' t = Some x -> (forall t', t' <> t -> gain T T' t' = None) -> handed T T' = [x].
Proof.
  intros Hx Hg. unfold handed. assert (t ∈ elements (dom T)) as Hin.
  { apply elem_of_elements, elem_of_dom. unfold gain in Hx. by destruct (T !! t). }
  apply list_elem_of_split in Hin as (l1&l2&E). pose proof (NoDup_elements (dom T)) as Hnd. rewrite E in Hnd |- *.
  assert (forall l, t ∉ l -> omap (gain T T') l = []) as Hnil.
  { induction l as [|y l IH]; intros Hl; [done|]. apply not_elem_of_cons in Hl as [Hy Hl]. simpl.
    rewrite Hg by done. by apply IH. }
  apply NoDup_app in Hnd as (_&Hd&Hnd). apply NoDup_cons in Hnd as [Hn2 _].
  rewrite omap_app, (Hnil l1), app_nil_l by (intros Hl; apply (Hd t Hl); left). simpl. by rewrite Hx, Hnil.
Qed.

Lemma core_seqno d p T pc n : mq_core d p T pc -> mq_core d (set_imq_seqno n p) T pc.
Proof. intros []. by split. Qed.
Lemma receiver_not_sender d p T pc t th x :
  mq_core d p T pc -> T !! t = Some th -> waits x IPC_MQUEUE_RECEIVE th -> forall m o, pc !! t <> Some (Sleeping m o).
Proof.
  intros Hc Ht Hw m o Hs. destruct (mo_sleep _ _ _ _ Hc _ _ _ Hs) as (th'&Ht'&_&Hw'). unfold waits in *.
  simplify_eq. destruct Hw' as [?|[? _]]; congruence.
Qed.

(** The threads that wait. *)
Definition blocked (T : threads) : nat := size (filter (fun x => th_waits_on x.2 <> None) T).
Lemma blocked_le T : (blocked T <= size T)%nat.
Proof. unfold blocked. apply map_subseteq_size, map_filter_subseteq. Qed.
Lemma blocked_less T t th th' :
  T !! t = Some th -> th_waits_on th <> None -> th_waits_on th' = None -> (blocked (<[t := th']> T) < blocked T)%nat.
Proof.
  intros Ht Hw Hw'. unfold blocked. rewrite map_filter_insert_False by (simpl; by rewrite Hw'; intros []).
  rewrite map_filter_delete, map_size_delete_Some; [|eexists; by apply map_lookup_filter_Some].
  assert (size (filter (fun x : Z * thread => th_waits_on x.2 <> None) T) <> 0%nat); [|lia].
  apply map_size_ne_0_lookup_2 with (i := t). eexists. by apply map_lookup_filter_Some.
Qed.

(** What [ipc_mqueue_post] makes of a message: it joins the queue, or it goes to a
    thread that waits, and then the queue is empty. *)
Record posted (m : Z * Z) (p p' : ipc_port) (T T' : threads) : Prop := {
  po_psets : ip_psets p' = ip_psets p;
  po_valid : ip_waitq_valid p' = ip_waitq_valid p;
  po_calm : calm T T';
  po_done : imq_messages p' = raise m.2 (imq_messages p) ++ [m] /\ imq_seqno p' = imq_seqno p /\
      (forall t, gain T T' t = None) \/
    imq_messages p = [] /\ imq_messages p' = [] /\ imq_seqno p' = u32 (imq_seqno p + 1) /\
      exists t, gain T T' t = Some (imq_seqno p, m.1) /\ forall t', t' <> t -> gain T T' t' = None;
}.

(** The loop went round once for a thread whose buffer is too small. *)
Lemma posted_round m p p' T T' t th th1 :
  T !! t = Some th -> receiving th = true -> th_waits_on th1 = None -> got th1 = None ->
  posted m p p' (<[t := th1]> T) T' -> posted m p p' T T'.
Proof.
  intros Ht Hr Hw Hg [Hps Hv Hcalm Hd].
  assert (T' !! t = Some th1) as Ht' by (apply Hcalm; [apply lookup_insert_eq|done]).
  assert (forall t', gain T T' t' = gain (<[t := th1]> T) T' t') as Hgain.
  { intros t'. destruct (decide (t = t')) as [<-|Hne].
    - rewrite (gain_idle (<[t := th1]> T) _ _ th1); [|apply lookup_insert_eq|unfold receiving; by rewrite Hw].
      unfold gain. rewrite Ht, Ht', Hg. by destruct (_ && _).
    - unfold gain. by rewrite lookup_insert_ne. }
  split; [done..| |].
  - intros t' th' Ht2 Hw2. apply Hcalm; [|done]. rewrite lookup_insert_ne; [done|]. intros <-.
    rewrite Ht in Ht2. injection Ht2 as ->. unfold receiving in Hr. by rewrite Hw2 in Hr.
  - setoid_rewrite Hgain. done.
Qed.

Lemma got_some th : (ith_state th = MACH_MSG_SUCCESS \/ ith_state th = MACH_RCV_TOO_LARGE) -> ith_kmsg th <> IKM_NULL ->
  got th = Some (ith_seqno th, ith_kmsg th).
Proof. intros Hs Hk. unfold got. by rewrite decide_True. Qed.
Lemma got_none th : ith_kmsg th = IKM_NULL -> got th = None.
Proof. intros Hk. unfold got. rewrite decide_False; [done|]. by intros [_ ?]. Qed.

(** A receiver takes the message. *)
Lemma post_handed_ok k p T R pc m t th th1 :
  mq_at k p (<[t := th1]> T) R -> mq_core 1 p T pc -> T !! t = Some th -> receives p th ->
  th_waits_on th1 = None -> got (set_ith_seqno (imq_seqno p) (set_ith_kmsg m.1 th1)) = Some (imq_seqno p, m.1) ->
  wp (mod_thread t (fun th => set_ith_seqno (imq_seqno p) (set_ith_kmsg m.1 th)) ;;*
      put_port a (set_imq_seqno (u32 (imq_seqno p + 1)) p) ;;*
      ipc_mqueue_release_msgcount a ;;* ret false) (fun destroy k' => destroy = false /\ exists p' T',
    mq_at k' p' T' R /\ mq_core 0 p' T' pc /\ posted m p p' T T') k.
Proof.
  intros Hat Hc Ht (x&Hw&Hx) Hi Hg. destruct (mo_recv _ _ _ _ Hc t th x) as [_ He]; [done..|].
  apply wp_bind, (at_mod_thread _ _ _ _ Hat _ th1); [apply lookup_insert_eq|]. rewrite insert_insert_eq.
  set (th2 := set_ith_seqno _ _). intros k1 Hk1. apply wp_bind, (at_put_port _ _ _ _ Hk1). intros k2 Hk2.
  apply wp_bind. eapply wp_mono.
  { apply (release_slot_ok _ _ _ _ pc Hk2). apply core_seqno, core_idle; [done|by eapply receiver_not_sender|done]. }
  intros [] k3 (p'&T'&Hk3&Hc'&Hsame&Hst). apply wp_ret. split; [done|]. exists p', T'. split; [done|]. split; [done|].
  assert (T' !! t = Some th2) as Ht2.
  { apply stirred_calm in Hst. apply Hst; [apply lookup_insert_eq|done]. }
  split; [by destruct Hsame..| |].
  - intros t' th' Ht' Hw'. apply (stirred_calm _ _ Hst); [|done]. rewrite lookup_insert_ne; [done|].
    intros <-. unfold waits in Hw. congruence.
  - right. split; [done|]. destruct Hsame as [-> -> _ _ _]. split; [done|]. split; [done|]. exists t. split.
    + unfold gain. rewrite Ht, Ht2. unfold receiving. unfold waits in Hw. rewrite Hw. simpl. by rewrite Hi.
    + intros t' Hne. rewrite <- (gain_stirred (<[t := th2]> T) T' t') by done. unfold gain. by rewrite lookup_insert_ne.
Qed.

Lemma posted_queued m p T : posted m p (set_imq_messages (raise m.2 (imq_messages p) ++ [m]) p) T T.
Proof.
  split; [done..| |].
  - by intros t th.
  - left. split_and!; [done..|]. intros t. by apply gain_stirred.
Qed.

Lemma post_loop_ok R pc m fuel : forall k p T,
  mq_at k p T R -> mq_core 1 p T pc -> fresh m.1 p pc -> (blocked T < fuel)%nat ->
  wp (post_loop fuel a m) (fun destroy k' => destroy = false /\ exists p' T',
    mq_at k' p' T' R /\ mq_core 0 p' T' pc /\ posted m p p' T T') k.
Proof.
  induction fuel as [|fuel IH]; intros k p T Hat Hc Hfr Hfuel; [lia|]. simpl.
  apply wp_bind, (at_get_port _ _ _ _ Hat), wp_bind, (at_identify _ _ _ _ _ _ Hat).
  { intros Hno. eapply wp_mono; [by apply (post_enqueue_ok _ _ _ _ pc m Hat)|].
    intros b k' [-> (p'&Hk'&Hc'&->)]. split; [done|]. eexists _, T. split; [done|]. split; [done|]. apply posted_queued. }
  intros t th k' Ht Hr Hk'. pose proof Hr as (x&Hw&Hx). destruct (mo_recv _ _ _ _ Hc t th x) as [Hst He]; [done..|].
  apply wp_bind, (at_get_thread _ _ _ _ Hk' _ (woken THREAD_AWAKENED th)); [apply lookup_insert_eq|].
  cbn [ith_state ith_option ith_rsize woken set_th_waits_on set_th_wait_result]. rewrite Hst. cbn [Z.eqb negb andb].
  rewrite (proj2 (Z.eqb_neq MACH_RCV_IN_PROGRESS MACH_PEEK_IN_PROGRESS)), Z.eqb_refl by done. cbn [negb andb].
  set (large := too_large _ _ _ _). apply wp_bind.
  eapply (wp_mono _ (fun _ k1 => exists th1, mq_at k1 p (<[t := th1]> T) R /\ th_waits_on th1 = None)).
  { destruct large; simpl; [|eexists; split; [exact Hk'|done]].
    apply (at_mod_thread _ _ _ _ Hk' _ (woken THREAD_AWAKENED th)); [apply lookup_insert_eq|].
    rewrite insert_insert_eq. eauto. }
  intros [] k1 (th1&Hk1&Hi1). apply wp_bind, (at_mod_thread _ _ _ _ Hk1 _ th1); [apply lookup_insert_eq|].
  rewrite insert_insert_eq. clear k Hat k' Hk' k1 Hk1. set (th2 := set_ith_state _ th1). intros k2 Hk2.
  destruct (negb large || negb (has (ith_option th) MACH_RCV_LARGE)).
  - apply (post_handed_ok _ _ _ _ _ _ _ th th2); try done. rewrite got_some; [done| |apply Hfr].
    simpl. destruct large; auto.
  - apply wp_bind, (at_mod_thread _ _ _ _ Hk2 _ th2); [apply lookup_insert_eq|]. rewrite insert_insert_eq.
    set (th3 := set_ith_seqno 0 _). intros k3 Hk3. eapply wp_mono.
    + apply IH; [exact Hk3| |done|].
      * apply core_idle; [done|by eapply receiver_not_sender|done].
      * pose proof (blocked_less T t th th3 Ht). unfold waits in Hw. rewrite Hw in *.
        assert (blocked (<[t := th3]> T) < blocked T)%nat by auto. lia.
    + intros b k4 [-> (p'&T'&Hk4&Hc'&Hp)]. split; [done|]. exists p', T'. split; [done|]. split; [done|].
      apply (posted_round _ _ _ _ _ t th th3); [done| |done|by apply got_none|done].
      unfold receiving. unfold waits in Hw. by rewrite Hw.
Qed.

Lemma post_ok k p T R pc m :
  mq_at k p T R -> mq_core 1 p T pc -> fresh m.1 p pc -> ip_waitq_valid p = true ->
  wp (ipc_mqueue_post a m) (fun _ k' => exists p' T',
    mq_at k' p' T' R /\ mq_core 0 p' T' pc /\ posted m p p' T T') k.
Proof.
  intros Hat Hc Hfr Hv. apply wp_bind, (at_get_port _ _ _ _ Hat), wp_bind, wp_gets, wp_bind. rewrite Hv. cbn [negb].
  eapply wp_mono; [apply (post_loop_ok R pc m _ _ p T Hat Hc Hfr)|].
  - rewrite (ma_threads _ _ _ _ Hat). pose proof (blocked_le T). lia.
  - intros b k' [-> Hk']. by apply wp_ret.
Qed.

(** ** Receiving *)
Lemma core_dequeue p T pc m l :
  mq_core 0 p T pc -> imq_messages p = m :: l -> mq_core 1 (set_imq_messages l p) T pc.
Proof.
  intros [] Hm. rewrite Hm in *. apply NoDup_cons in mo_nodup0 as [_ Hnd].
  apply not_elem_of_cons in mo_null0 as [_ Hnull]. split; simpl; try done.
  - rewrite mo_count0. simpl. lia.
  - intros t th x Ht Hw Hx. by destruct (mo_recv0 _ _ _ Ht Hw Hx).
  - intros t s Hs. destruct (mo_kmsg0 _ _ Hs) as (?&Hq&?). split_and!; [done| |done].
    intros Hin. apply Hq. by right.
Qed.
Lemma remove_head m l : remove m.1 (m :: l) = l.
Proof. destruct m. simpl. by rewrite Z.eqb_refl. Qed.

(** The outcome of a receive that did not peek: the head of the queue went to the
    thread, or nothing did. *)
Record received (t : Z) (p p' : ipc_port) (T' : threads) (w : wait_result_t) : Prop := {
  re_psets : ip_psets p' = ip_psets p;
  re_valid : ip_waitq_valid p' = ip_waitq_valid p;
  re_done : exists th', T' !! t = Some th' /\
    ((exists m l, w = THREAD_NOT_WAITING /\ imq_messages p = m :: l /\ imq_messages p' = l /\
        imq_seqno p' = u32 (imq_seqno p + 1) /\ got th' = Some (imq_seqno p, m.1)) \/
     imq_messages p' = imq_messages p /\ imq_seqno p' = imq_seqno p /\ (w = THREAD_NOT_WAITING -> got th' = None));
}.

Section receive.
Context (k : kst) (p : ipc_port) (T : threads) (R : kmsgs) (pc : senders) (t : Z) (th : thread).
Context (Hat : mq_at k p T R) (Hc : mq_core 0 p T pc) (Ht : T !! t = Some th) (Hrun : th_waits_on th = None)
  (Hns : forall m o, pc !! t <> Some (Sleeping m o)).

Definition receive_post (w : wait_result_t) (k' : kst) : Prop :=
  exists p' T', mq_at k' p' T' R /\ mq_core 0 p' T' pc /\ received t p p' T' w.

Lemma select_ok option max_size :
  imq_messages p <> [] ->
  wp (ipc_mqueue_select_on_thread_locked a option max_size t) (fun _ => receive_post THREAD_NOT_WAITING) k.
Proof using All.
  intros Hne. apply wp_bind, (at_get_port _ _ _ _ Hat). destruct (imq_messages p) as [|m l] eqn:Hm; [done|]. clear Hne.
  replace (first_of IKM_NULL (m :: l)) with (m.1) by by destruct m.
  assert (m.1 <> IKM_NULL) as Hnull.
  { pose proof (mo_null _ _ _ _ Hc) as Hn. rewrite Hm in Hn. apply not_elem_of_cons in Hn as [? _]. congruence. }
  apply wp_bind, wp_massert; [by rewrite (proj2 (Z.eqb_neq _ _) Hnull)|].
  cbv zeta. destruct (too_large m.1 t option max_size && has option MACH_RCV_LARGE).
  - apply (at_mod_thread _ _ _ _ Hat _ th); [done|]. intros k' Hk'. eexists _, _. split; [done|].
    split; [by apply core_idle|]. split; [done..|]. eexists. split; [apply lookup_insert_eq|]. right.
    split_and!; [done..|]. intros _. by apply got_none.
  - rewrite remove_head. apply wp_bind, (at_put_port _ _ _ _ Hat). intros k1 Hk1.
    apply wp_bind. eapply wp_mono; [apply (release_slot_ok _ _ _ _ pc Hk1); by eapply core_dequeue|].
    intros [] k2 (p2&T2&Hk2&Hc2&[]&Hst). assert (T2 !! t = Some th) as Ht2 by by apply (stirred_calm _ _ Hst).
    apply wp_bind, (at_get_port _ _ _ _ Hk2), wp_bind, (at_put_port _ _ _ _ Hk2). intros k3 Hk3.
    apply (at_mod_thread _ _ _ _ Hk3 _ th); [done|]. intros k4 Hk4. eexists _, _. split; [done|].
    split; [apply core_idle; [by apply core_seqno|done..]|]. simpl in *.
    split; [done..|]. eexists. split; [apply lookup_insert_eq|]. left. exists m, l. split_and!; [done..| |].
    + simpl. by rewrite sq_seqno0.
    + rewrite got_some; simpl; [by rewrite sq_seqno0| |done].
      destruct (too_large m.1 t option max_size); auto.
Qed.

(** The object received from: the port, or a set it is in. *)
Definition source (x : Z) : Prop :=
  x = a /\ ks_psets k !! a = None \/ x ∈ ip_psets p /\ is_Some (ks_psets k !! x).
Lemma message_port_queue x r :
  source x -> message_port x k = Done (r, k) -> (r = None \/ r = Some a) ->
  match r with Some _ => imq_messages p <> [] | None => imq_messages p = [] end.
Proof using Hat.
  intros [[-> Hn]|[Hx [s Hs]]] Hr Hra; unfold message_port in Hr.
  - rewrite Hn, (ma_port _ _ _ _ Hat) in Hr. destruct (decide (imq_messages p = [])); by simplify_eq.
  - rewrite Hs in Hr. destruct (decide (preposted x k = ∅)) as [He|He].
    + simplify_eq. destruct (decide (imq_messages p = [])) as [|Hm]; [done|].
      destruct (not_elem_of_empty (C := gset Z) a). rewrite <- He. apply elem_of_dom. exists p.
      apply map_lookup_filter_Some. split; [apply Hat|done].
    + pose proof (prepost_pick_in k _ He) as Hp. destruct Hra as [->| ->]; [done|]. injection Hr as Hr.
      rewrite Hr in Hp. unfold preposted in Hp. apply elem_of_dom in Hp as [q Hq]. apply map_lookup_filter_Some in Hq as (Hq&_&Hm).
      rewrite (ma_port _ _ _ _ Hat) in Hq. injection Hq as <-. done.
Qed.
Lemma source_valid x : source x -> exists v, waitq_valid x k = Done (v, k).
Proof using Hat.
  unfold waitq_valid. intros [[-> ->]|[_ [s ->]]]; [|by eexists]. rewrite (ma_port _ _ _ _ Hat). by eexists.
Qed.

Lemma receive_ok x option max_size rcv_timeout r :
  has option MACH_PEEK_MSG = false -> source x ->
  message_port x k = Done (r, k) -> (r = None \/ r = Some a) ->
  wp (ipc_mqueue_receive_on_thread_and_unlock x option max_size rcv_timeout t) receive_post k.
Proof using All.
  intros Hpeek Hx Hr Hra. pose proof (message_port_queue x r Hx Hr Hra) as Hm.
  apply wp_bind. unfold wp at 1. rewrite Hr. destruct r as [b|].
  - destruct Hra as [|[= ->]]; [done|]. apply wp_bind. rewrite Hpeek. by apply select_ok.
  - destruct (source_valid x Hx) as [v Hv]. apply wp_bind. unfold wp at 1. rewrite Hv.
    destruct v; simpl.
    2:{ apply wp_ret. exists p, T. split; [done|]. split; [done|]. split; [done..|]. exists th. split; [done|]. by right. }
    destruct (has option MACH_RCV_TIMEOUT && (rcv_timeout =? 0)).
    + apply wp_bind, (at_mod_thread _ _ _ _ Hat _ th); [done|]. intros k' Hk'. apply wp_ret. exists p. eexists. split; [done|].
      split; [by apply core_idle|]. split; [done..|]. eexists. split; [apply lookup_insert_eq|]. right. split_and!; [done..|].
      intros _. unfold got. rewrite decide_False; [done|]. simpl. by intros [[?|?] _].
    + apply wp_bind, wp_gets, wp_bind, (at_mod_thread _ _ _ _ Hat _ th); [done|]. rewrite Hpeek. intros k' Hk'.
      apply wp_ret. exists p. eexists. split; [done|]. destruct (thread_abort_pending k t); simpl.
      * split; [by apply core_idle|]. split; [done..|]. eexists. split; [apply lookup_insert_eq|]. by right.
      * split; [by eapply core_receiver|]. split; [done..|]. eexists. split; [apply lookup_insert_eq|]. by right.
Qed.
End receive.

(** ** Sending *)

(** A slot for a sender that starts to post. *)
Lemma reservers_posting T pc t m :
  reservers T pc !! t = None -> size (reservers T (<[t := Posting m]> pc)) = S (size (reservers T pc)).
Proof.
  intros Hn. replace (reservers T (<[t := Posting m]> pc)) with (<[t := Posting m]> (reservers T pc)).
  - by apply map_size_insert_None.
  - symmetry. unfold reservers. by apply map_filter_insert_True.
Qed.
Lemma reservers_none T pc t : pc !! t = None -> reservers T pc !! t = None.
Proof. intros Hn. destruct (reservers T pc !! t) eqn:E; [|done]. apply reservers_lookup in E as [? _]. congruence. Qed.
(** A sender that holds no slot. *)
Lemma reservers_sleeping T pc t m o :
  pc !! t = None -> reserves T t (Sleeping m o) = false -> reservers T (<[t := Sleeping m o]> pc) = reservers T pc.
Proof.
  intros Hn Hr. unfold reservers. rewrite map_filter_insert_False; [by rewrite delete_id|]. simpl in *. by rewrite Hr.
Qed.

(** The senders after an attempt. *)
Definition sent (t : Z) (m : Z * Z) (option : Z) (o : send_outcome) (pc : senders) : senders :=
  match o with
  | Reserved => <[t := Posting m]> pc
  | Blocked => <[t := Sleeping m option]> pc
  | Refused _ => delete t pc
  end.
Lemma kmsgs_sent p pc t s :
  (forall t s, pc !! t = Some s -> sender_kmsg s <> IKM_NULL /\ (sender_kmsg s ∉ (imq_messages p).*1) /\
    forall t' s', pc !! t' = Some s' -> sender_kmsg s' = sender_kmsg s -> t' = t) ->
  fresh (sender_kmsg s) p (delete t pc) ->
  forall t1 s1, <[t := s]> pc !! t1 = Some s1 -> sender_kmsg s1 <> IKM_NULL /\ (sender_kmsg s1 ∉ (imq_messages p).*1) /\
    forall t' s', <[t := s]> pc !! t' = Some s' -> sender_kmsg s' = sender_kmsg s1 -> t' = t1.
Proof.
  intros Hk (Hz&Hq&Hpc) t1 s1 Hs. apply lookup_insert_Some in Hs as [[-> ->]|[Hne Hs]].
  - split_and!; [done..|]. intros t' s' Hs' He. apply lookup_insert_Some in Hs' as [[-> ->]|[Hne Hs']]; [done|].
    by destruct (Hpc t' s'); [rewrite lookup_delete_ne|].
  - destruct (Hk _ _ Hs) as (?&?&Hu). split_and!; [done..|]. intros t' s' Hs' He.
    apply lookup_insert_Some in Hs' as [[-> ->]|[Hne' Hs']]; [|eauto].
    destruct (Hpc t1 s1); [by rewrite lookup_delete_ne|done].
Qed.

Lemma core_posting p T pc t m n :
  mq_core 0 p T pc -> pc !! t = None -> fresh m.1 p pc -> n = imq_msgcount p + 1 -> n < 2 ^ 16 ->
  mq_core 0 (set_imq_msgcount n p) T (<[t := Posting m]> pc).
Proof.
  intros [] Hn Hfr -> Hsm. split; simpl; try done.
  - rewrite reservers_posting by by apply reservers_none. rewrite mo_count0. lia.
  - intros t' th Ht Hw. destruct (mo_full0 _ _ Ht Hw) as ((m'&o&Hs)&Hf&Hfull). split_and!; [|done|].
    + exists m', o. rewrite lookup_insert_ne; [done|]. intros <-. congruence.
    + unfold ip_full in *. simpl. apply Z.leb_le in Hfull. apply Z.leb_le. lia.
  - intros t' m' o Hs. apply lookup_insert_Some in Hs as [[-> ?]|[Hne Hs]]; [done|eauto].
  - apply kmsgs_sent; [done|]. by rewrite delete_id.
Qed.
Lemma core_sleeping p T pc t th m o :
  mq_core 0 p T pc -> pc !! t = None -> fresh m.1 p pc -> ip_full p = true -> th_turnstile th = Some a ->
  (waits a IPC_MQUEUE_FULL th \/ th_waits_on th = None /\ th_wait_result th = THREAD_INTERRUPTED) ->
  mq_core 0 (set_ip_fullwaiters true p) (<[t := th]> T) (<[t := Sleeping m o]> pc).
Proof.
  intros [] Hn Hfr Hfull Hts Hw.
  assert (forall x, waits x IPC_MQUEUE_RECEIVE th -> False) as Hnr.
  { intros x Hx. unfold waits in *. destruct Hw as [?|[? _]]; congruence. }
  split; simpl; try done.
  - rewrite reservers_sleeping; [|done|].
    + rewrite reservers_other; [done|]. intros m' o'. congruence.
    + simpl. rewrite lookup_insert_eq. apply bool_decide_eq_false. intros [Hw1 Hw2]. unfold waits in Hw.
      destruct Hw as [?|[_ ?]]; congruence.
  - intros t' th' Ht' Hw'. split; [|done]. apply lookup_insert_Some in Ht' as [[-> <-]|[Hne Ht']].
    + exists m, o. apply lookup_insert_eq.
    + destruct (mo_full0 _ _ Ht' Hw') as ((m'&o'&?)&_). exists m', o'. by rewrite lookup_insert_ne.
  - intros t' m' o' Hs. apply lookup_insert_Some in Hs as [[-> ?]|[Hne Hs]].
    + exists th. rewrite lookup_insert_eq. split_and!; [done..|]. destruct Hw as [?|[? ->]]; [by left|right].
      split; [done|]. by right; left.
    + rewrite lookup_insert_ne by done. eauto.
  - intros t' th' x Ht' Hw' Hx. apply lookup_insert_Some in Ht' as [[-> <-]|[Hne Ht']]; [by destruct (Hnr x)|eauto].
  - apply kmsgs_sent; [done|]. by rewrite delete_id.
Qed.

Lemma send_reserve_ok k p T R pc t th m option send_timeout :
  mq_at k p T R -> mq_core 0 p T pc -> T !! t = Some th -> th_waits_on th = None -> pc !! t = None ->
  fresh m.1 p pc ->
  wp (send_reserve t a m option send_timeout) (fun o k' => exists p' T',
    mq_at k' p' T' R /\ mq_core 0 p' T' (sent t m option o pc) /\ same_queue p p') k.
Proof.
  intros Hat Hc Ht Hrun Hn Hfr. apply wp_bind, (at_get_port _ _ _ _ Hat).
  pose proof (mo_count _ _ _ _ Hc) as Hcount. pose proof (mo_limit _ _ _ _ Hc) as Hl.
  destruct (negb (ip_full p) || _) eqn:Hroom.
  - assert (imq_msgcount p + 1 < 2 ^ 16) as Hsm.
    { unfold ip_full, ip_full_kernel, MACH_PORT_QLIMIT_MAX, MACH_PORT_QLIMIT_KERNEL in *.
      apply orb_true_iff in Hroom as [Hf|Hf]; [|apply andb_true_iff in Hf as [Hf _]];
        apply negb_true_iff, Z.leb_gt in Hf; lia. }
    rewrite u16_small by lia. apply wp_bind, (at_put_port _ _ _ _ Hat). intros k' Hk'.
    apply wp_bind, wp_massert; [simpl; apply Z.ltb_lt; lia|]. apply wp_ret. eexists _, T. split; [done|]. split; [|by split].
    by apply core_posting.
  - apply orb_false_iff in Hroom as [Hfull%negb_false_iff _].
    assert (forall mr, exists p' T', mq_at k p' T' R /\ mq_core 0 p' T' (sent t m option (Refused mr) pc) /\ same_queue p p')
      as Hrefuse by (intros mr; exists p, T; simpl; by rewrite delete_id).
    destruct (has option MACH_SEND_TIMEOUT && _); [by apply wp_ret|]. destruct (ip_full_kernel p); [by apply wp_ret|].
    apply wp_bind, (at_put_port _ _ _ _ Hat). intros k1 Hk1. apply wp_bind, (at_emit _ _ _ _ Hk1). intros k2 Hk2.
    apply wp_bind, wp_gets, wp_bind, (at_mod_thread _ _ _ _ Hk2 _ th); [done|]. intros k3 Hk3. apply wp_ret.
    eexists _, _. split; [done|]. split; [|by split]. apply core_sleeping; [done..|]. destruct (thread_abort_pending _ _); [by right|by left].
Qed.

(** ** A queue that is gone *)
Record mq_dead (p : ipc_port) (T : threads) (pc : senders) : Prop := {
  md_count : imq_msgcount p = 0;
  md_messages : imq_messages p = [];
  md_psets : ip_psets p = [];
  md_full t th : T !! t = Some th -> ~ waits a IPC_MQUEUE_FULL th;
  md_sleep t m o : pc !! t = Some (Sleeping m o) -> exists th, T !! t = Some th /\ th_turnstile th = Some a /\
    th_waits_on th = None /\ resumable o (th_wait_result th);
}.
Definition mq_inv (p : ipc_port) (T : threads) (pc : senders) : Prop :=
  if ip_waitq_valid p then mq_core 0 p T pc else mq_dead p T pc.

(** A sender runs again. *)
Definition resumed (th : thread) : send_outcome :=
  match th_wait_result th with
  | THREAD_AWAKENED => Reserved
  | THREAD_TIMED_OUT => Refused MACH_SEND_TIMED_OUT
  | THREAD_INTERRUPTED => Refused MACH_SEND_INTERRUPTED
  | _ => Refused MACH_SEND_INVALID_DEST
  end.
Lemma send_resume_run k p T R t th o :
  mq_at k p T R -> T !! t = Some th -> resumable o (th_wait_result th) ->
  wp (send_resume t o) (fun out k' => out = resumed th /\ mq_at k' p (<[t := set_th_turnstile None th]> T) R) k.
Proof.
  intros Hat Ht Hr. apply wp_bind, (at_get_thread _ _ _ _ Hat _ th); [done|].
  apply wp_bind, (at_mod_thread _ _ _ _ Hat _ th); [done|]. intros k' Hk'. unfold resumed.
  destruct Hr as [Hr|[Hr|[Hr|[Hr Hop]]]]; rewrite Hr; try by apply wp_ret. by apply wp_bind, wp_massert, wp_ret.
Qed.

Lemma reservers_delete T pc t : reservers T (delete t pc) = delete t (reservers T pc).
Proof. unfold reservers. apply map_filter_delete. Qed.
Lemma reservers_insert_delete T pc t s : reservers T (<[t := s]> (delete t pc)) = reservers T (<[t := s]> pc).
Proof. by rewrite insert_delete_eq. Qed.

(** Nothing is known of a sender that left. *)
Lemma core_leave d p T pc t s :
  mq_core d p T pc -> pc !! t = Some s -> (forall th, T !! t = Some th -> ~ waits a IPC_MQUEUE_FULL th) ->
  mq_core (if reserves T t s then S d else d) p T (delete t pc) /\ fresh (sender_kmsg s) p (delete t pc).
Proof.
  intros [] Hs Hnw. split; [split|].
  - rewrite mo_count0, reservers_delete. destruct (reserves T t s) eqn:Hr.
    + assert (is_Some (reservers T pc !! t)) as Hi by (exists s; by apply reservers_lookup).
      rewrite map_size_delete_Some by done.
      assert (size (reservers T pc) <> 0%nat) by by apply map_size_ne_0_lookup_2 with (i := t). lia.
    + rewrite delete_id; [done|]. destruct (reservers T pc !! t) eqn:He; [|done].
      apply reservers_lookup in He as [? ?]. congruence.
  - done.
  - done.
  - intros t' th Ht Hw. destruct (mo_full0 _ _ Ht Hw) as ((m&o&Hs')&?). split; [|done]. exists m, o.
    rewrite lookup_delete_ne; [done|]. intros <-. by destruct (Hnw th).
  - intros t' m o Hs'. apply lookup_delete_Some in Hs' as [_ ?]. eauto.
  - done.
  - done.
  - done.
  - intros t' s' Hs'. apply lookup_delete_Some in Hs' as [_ Hs']. destruct (mo_kmsg0 _ _ Hs') as (?&?&Hu).
    split_and!; [done..|]. intros t2 s2 Hs2. apply lookup_delete_Some in Hs2 as [_ ?]. eauto.
  - destruct (mo_kmsg0 _ _ Hs) as (?&?&Hu). split_and!; [done..|]. intros t' s' Hs' He.
    apply lookup_delete_Some in Hs' as [Hne ?]. apply Hne. symmetry. eauto.
Qed.

Lemma core_resume p T pc t th m o :
  mq_core 0 p T pc -> pc !! t = Some (Sleeping m o) -> T !! t = Some th -> th_waits_on th = None ->
  mq_core 0 p (<[t := set_th_turnstile None th]> T) (sent t m o (resumed th) pc).
Proof.
  intros Hc Hs Ht Hrun.
  destruct (core_leave 0 p T pc t (Sleeping m o)) as [Hl Hfr]; [done..| |].
  { intros th' Ht'. rewrite Ht in Ht'. injection Ht' as <-. unfold waits. by rewrite Hrun. }
  assert (forall d, mq_core d p T (delete t pc) -> mq_core d p (<[t := set_th_turnstile None th]> T) (delete t pc)) as Hidle.
  { intros d Hd. apply core_idle; [done| |done]. intros m' o'. by rewrite lookup_delete_eq. }
  simpl in Hl. rewrite Ht in Hl. unfold resumed.
  destruct (th_wait_result th) eqn:Hr; simpl;
    try (rewrite bool_decide_eq_false_2 in Hl by (intros [_ ?]; congruence); by apply Hidle).
  rewrite bool_decide_eq_true_2 in Hl by done. apply Hidle in Hl.
  rewrite <- (insert_delete_eq pc). destruct Hl. split; try done.
  - rewrite reservers_posting, mo_count0; [lia|]. apply reservers_none, lookup_delete_eq.
  - intros t' th' Ht' Hw'. destruct (mo_full0 _ _ Ht' Hw') as ((m'&o'&Hs')&?). split; [|done].
    exists m', o'. rewrite lookup_insert_ne; [done|]. intros <-. by rewrite lookup_delete_eq in Hs'.
  - intros t' m' o' Hs'. apply lookup_insert_Some in Hs' as [[-> ?]|[Hne Hs']]; [done|eauto].
  - apply kmsgs_sent; [done|]. by rewrite delete_id by apply lookup_delete_eq.
Qed.
Lemma dead_resume p T pc t th m o :
  mq_dead p T pc -> pc !! t = Some (Sleeping m o) -> T !! t = Some th -> th_waits_on th = None ->
  mq_dead p (<[t := set_th_turnstile None th]> T) (sent t m o (resumed th) pc).
Proof.
  intros [] Hs Ht Hrun.
  assert (forall t' m' o', sent t m o (resumed th) pc !! t' = Some (Sleeping m' o') ->
    t' <> t /\ pc !! t' = Some (Sleeping m' o')) as Hsent.
  { intros t' m' o'. unfold resumed. destruct (th_wait_result th); simpl;
      rewrite ?lookup_insert_Some, ?lookup_delete_Some; naive_solver. }
  split; [done..| |].
  - intros t' th' Ht'. apply lookup_insert_Some in Ht' as [[-> <-]|[Hne Ht']]; [|eauto]. unfold waits. simpl. by rewrite Hrun.
  - intros t' m' o' Hs'. apply Hsent in Hs' as [Hne Hs']. rewrite lookup_insert_ne by done. eauto.
Qed.

(** ** A wait that ends early *)
Lemma core_abort d p T pc t th r :
  mq_core d p T pc -> T !! t = Some th -> th_waits_on th <> None -> r <> THREAD_AWAKENED ->
  (forall m o, pc !! t = Some (Sleeping m o) -> resumable o r) -> mq_core d p (<[t := woken r th]> T) pc.
Proof.
  intros [] Ht Hw Hr Ho. split; try done.
  - rewrite mo_count0. do 2 f_equal. rewrite (reservers_ext T (<[t := woken r th]> T)); [done|].
    intros t' [m o|m] Hs; [|done]. simpl. destruct (decide (t = t')) as [<-|Hne]; [|by rewrite lookup_insert_ne].
    rewrite lookup_insert_eq, Ht, !bool_decide_eq_false_2; [done|by intros [? _]|by intros [_ ?]].
  - intros t' th' Ht' Hw'. apply lookup_insert_Some in Ht' as [[-> <-]|[Hne Ht']]; [done|eauto].
  - intros t' m o Hs. destruct (decide (t = t')) as [<-|Hne]; [|rewrite lookup_insert_ne by done; eauto].
    rewrite lookup_insert_eq. eexists. split; [done|]. destruct (mo_sleep0 _ _ _ Hs) as (th'&Ht'&Hu&_). simplify_eq.
    split; [done|]. right. split; [done|]. by eapply Ho.
  - intros t' th' x Ht' Hw' Hx. apply lookup_insert_Some in Ht' as [[-> <-]|[Hne Ht']]; [done|eauto].
Qed.
Lemma dead_abort p T pc t th r :
  mq_dead p T pc -> T !! t = Some th -> th_waits_on th <> None -> mq_dead p (<[t := woken r th]> T) pc.
Proof.
  intros [] Ht Hw. split; try done.
  - intros t' th' Ht'. apply lookup_insert_Some in Ht' as [[-> <-]|[Hne Ht']]; [done|eauto].
  - intros t' m o Hs. destruct (md_sleep0 _ _ _ Hs) as (th'&Ht'&?&?&?). exists th'.
    rewrite lookup_insert_ne; [done|]. intros <-. congruence.
Qed.

(** ** A new limit *)

(** The senders that are blocked. *)
Definition full_waiters (T : threads) : nat := size (filter (fun x => waits a IPC_MQUEUE_FULL x.2) T).
Lemma full_waiters_none T : full_waiters T = 0%nat <-> forall t th, T !! t = Some th -> ~ waits a IPC_MQUEUE_FULL th.
Proof.
  unfold full_waiters. rewrite map_size_empty_iff, map_empty. setoid_rewrite map_lookup_filter_None. split.
  - intros Hf t th Ht Hw. destruct (Hf t) as [Hn|Hn]; [congruence|]. by apply (Hn th).
  - intros Hf t. destruct (T !! t) as [th|] eqn:Ht; [right|by left]. intros th' [= <-]. by apply (Hf t).
Qed.
Lemma full_waiters_wake T t th r :
  T !! t = Some th -> waits a IPC_MQUEUE_FULL th -> full_waiters T = S (full_waiters (<[t := woken r th]> T)).
Proof.
  intros Ht Hw. unfold full_waiters. rewrite map_filter_insert_False by done.
  rewrite map_filter_delete, map_size_delete_Some; [|eexists; by apply map_lookup_filter_Some].
  assert (size (filter (fun x : Z * thread => waits a IPC_MQUEUE_FULL x.2) T) <> 0%nat); [|lia].
  apply map_size_ne_0_lookup_2 with (i := t). eexists. by apply map_lookup_filter_Some.
Qed.
Lemma full_cases d p T pc : mq_core d p T pc ->
  (forall t th, T !! t = Some th -> ~ waits a IPC_MQUEUE_FULL th) \/ imq_qlimit p <= imq_msgcount p.
Proof.
  intros Hc. destruct (decide (map_Exists (fun _ th => waits a IPC_MQUEUE_FULL th) T)) as [(t&th&Ht&Hw)|Hno].
  - right. by destruct (mo_full _ _ _ _ Hc _ _ Ht Hw) as (_&_&Hf%Z.leb_le).
  - left. intros t th Ht Hw. apply Hno. by exists t, th.
Qed.
(** Each round wakes a blocked sender, as long as there is one. *)
Lemma qlimit_wakeup_ok R pc n : forall k p T,
  mq_at k p T R -> mq_core 0 p T pc -> imq_msgcount p + Z.of_nat n < 2 ^ 16 ->
  wp (qlimit_wakeup n a) (fun _ k' => exists p' T', mq_at k' p' T' R /\ mq_core 0 p' T' pc /\ same_queue p p' /\
    full_waiters T' = (full_waiters T - n)%nat /\
    imq_msgcount p' = imq_msgcount p + Z.of_nat (min (full_waiters T) n)) k.
Proof.
  induction n as [|n IH]; intros k p T Hat Hc Hn; simpl.
  { apply wp_ret. exists p, T. split_and!; [done..|lia|lia]. }
  assert (full_waiters T = 0%nat -> wp (mod_port a (set_ip_fullwaiters false)) (fun _ k' => exists p' T',
      mq_at k' p' T' R /\ mq_core 0 p' T' pc /\ same_queue p p' /\ full_waiters T' = (full_waiters T - S n)%nat /\
      imq_msgcount p' = imq_msgcount p + Z.of_nat (min (full_waiters T) (S n))) k) as Hno.
  { intros Hno. apply (at_mod_port _ _ _ _ Hat). intros k' Hk'. eexists _, T. split; [done|].
    split; [|split; [by split|split; [lia|simpl; lia]]].
    apply (core_port 0 0 p); [done|by split|simpl; pose proof (mo_small _ _ _ _ Hc); lia..|].
    intros t th Ht Hw. by destruct (proj1 (full_waiters_none T) Hno t th). }
  apply wp_bind, wp_gets, wp_bind. destruct (has_send_turnstile a k) eqn:Hts.
  - apply (at_wakeup_one _ _ _ _ _ _ _ Hat); [intros ?; by apply Hno, full_waiters_none|]. intros t th k1 Ht Hw Hk1.
    apply wp_bind, (at_mod_port _ _ _ _ Hk1). intros k2 Hk2. pose proof (mo_count _ _ _ _ Hc) as Hcount.
    rewrite u16_small in Hk2 by lia. eapply wp_mono; [apply (IH _ _ _ Hk2)|].
    + apply core_wake; [|done..]. apply (core_port 0 1 p); [done|by split|simpl; lia..|]. intros t' th' Ht' Hw'.
      destruct (mo_full _ _ _ _ Hc _ _ Ht' Hw') as (_&?&Hf). split; [done|]. unfold ip_full in *.
      apply Z.leb_le in Hf. apply Z.leb_le. simpl. lia.
    + simpl. lia.
    + intros [] k3 (p'&T'&?&?&[]&Hw'&Hend). exists p', T'. rewrite (full_waiters_wake T t th THREAD_AWAKENED) by done.
      split_and!; [done..|by split|lia|]. simpl in Hend. lia.
  - apply wp_ret, Hno, full_waiters_none. intros t th Ht Hw. destruct (mo_full _ _ _ _ Hc _ _ Ht Hw) as ((m&o&Hs)&_).
    destruct (mo_sleep _ _ _ _ Hc _ _ _ Hs) as (th'&Ht'&Hu&_).
    rewrite (has_turnstile k t th') in Hts; [done| |done]. by rewrite (ma_threads _ _ _ _ Hat).
Qed.

Lemma core_qlimit p T pc q :
  mq_core 0 p T pc -> 0 <= q <= MACH_PORT_QLIMIT_MAX ->
  ((forall t th, T !! t = Some th -> ~ waits a IPC_MQUEUE_FULL th) \/ q <= imq_msgcount p) ->
  mq_core 0 (set_imq_qlimit q p) T pc.
Proof.
  intros [] Hq Hw. split; try done. intros t th Ht Hf. destruct (mo_full0 _ _ Ht Hf) as (?&?&?). split_and!; [done..|].
  destruct Hw as [Hno|Hc]; [by destruct (Hno t th)|]. unfold ip_full. simpl. by apply Z.leb_le.
Qed.
Lemma set_qlimit_ok k p T R pc q :
  mq_at k p T R -> mq_core 0 p T pc -> 0 <= q <= MACH_PORT_QLIMIT_MAX -> imq_msgcount p + (q - imq_qlimit p) < 2 ^ 16 ->
  wp (ipc_mqueue_set_qlimit_locked a q) (fun _ k' => exists p' T', mq_at k' p' T' R /\ mq_core 0 p' T' pc /\
    imq_qlimit p' = q /\ imq_messages p' = imq_messages p /\ imq_seqno p' = imq_seqno p /\
    ip_psets p' = ip_psets p /\ ip_waitq_valid p' = ip_waitq_valid p /\
    full_waiters T' = (full_waiters T - Z.to_nat (q - imq_qlimit p))%nat /\
    imq_msgcount p' = imq_msgcount p + Z.of_nat (min (full_waiters T) (Z.to_nat (q - imq_qlimit p)))) k.
Proof.
  intros Hat Hc Hq Hroom. unfold ipc_mqueue_set_qlimit_locked. set (n := Z.to_nat (q - imq_qlimit p)).
  apply wp_bind, wp_massert; [apply Z.leb_le; lia|]. apply wp_bind, (at_get_port _ _ _ _ Hat).
  unfold u16. rewrite Z.mod_small by (unfold MACH_PORT_QLIMIT_MAX in Hq; lia). apply wp_bind.
  eapply (wp_mono _ (fun _ k' => exists p' T', mq_at k' p' T' R /\ mq_core 0 p' T' pc /\ same_queue p p' /\
    full_waiters T' = (full_waiters T - n)%nat /\
    imq_msgcount p' = imq_msgcount p + Z.of_nat (min (full_waiters T) n))).
  - apply wp_when; intros Hlt.
    + apply Z.ltb_lt in Hlt. apply (qlimit_wakeup_ok R pc _ _ p T Hat Hc). lia.
    + apply Z.ltb_ge in Hlt. assert (n = 0%nat) as -> by lia. exists p, T. split_and!; [done..|lia|lia].
  - intros [] k' (p'&T'&Hk'&Hc'&[]&Hw&Hn). apply (at_mod_port _ _ _ _ Hk'). intros k2 Hk2.
    eexists _, T'. split; [done|]. split; [|by split_and!]. apply core_qlimit; [done..|].
    destruct (decide (full_waiters T' = 0%nat)) as [H0'|H0']; [left; by apply full_waiters_none|right].
    destruct (full_cases _ _ _ _ Hc) as [?%full_waiters_none|?]; lia.
Qed.
End queue.
