(* ===== verification/Samples.v ===== *)
(** * Small concrete spaces

    A space of four entries whose first entry, named 0x103, holds a right on
    the port at 0x5000; the theorems on rights are tried on it. *)

From S2P Require Import Prelude MachPort Prng IpcTable IpcHash IpcState IpcSpace EntryFacts EntrySpec IpcPort PortSpec.

(** Entry 1 has the given type and user references; a send right is in the
    reverse hash, in slot 1. *)
Definition sample_table (object type urefs : Z) : list ipc_entry :=
  let slot := if type =? MACH_PORT_TYPE_SEND then 1 else 0 in
  [mk_ipc_entry 0 4 0 0 2;
   mk_ipc_entry object (gen_bits 0 0 + type + urefs) 0 slot 0;
   mk_ipc_entry 0 (gen_bits 0 0) 0 0 3;
   mk_ipc_entry 0 (gen_bits 0 0) 0 0 0].
Definition sample_space (object type urefs : Z) : ipc_space :=
  mk_ipc_space 0x200 0 (if type =? MACH_PORT_TYPE_SEND then 1 else 0) 2
    (Some (sample_table object type urefs)) 1 0 0 4 0 (mk_bool_gen [1; 2; 3; 4] 0) [] 0 0 0.
Definition sample_state (object type urefs : Z) (p : ipc_port) : kst :=
  mk_kst (sample_space object type urefs) {[ 0x5000 := p ]} ∅ 0 [] 0 ∅ [].

Lemma four_cases (P : Z -> Prop) : P 0 -> P 1 -> P 2 -> P 3 -> forall i, 0 <= i < 4 -> P i.
Proof. intros ???? i Hi. assert (i = 0 \/ i = 1 \/ i = 2 \/ i = 3) as [->|[->|[->| ->]]] by lia; done. Qed.
Lemma three_cases (P : Z -> Prop) : P 1 -> P 2 -> P 3 -> forall i, 0 < i < 4 -> P i.
Proof. intros ??? i Hi. assert (i = 1 \/ i = 2 \/ i = 3) as [->|[->| ->]] by lia; done. Qed.

Definition sample_types : list Z :=
  [MACH_PORT_TYPE_SEND; MACH_PORT_TYPE_RECEIVE; MACH_PORT_TYPE_SEND_RECEIVE;
   MACH_PORT_TYPE_SEND_ONCE; MACH_PORT_TYPE_PORT_SET; MACH_PORT_TYPE_DEAD_NAME].

Section sample_wf.
Context (object type urefs : Z) (Hu : 0 <= urefs < 2 ^ 16).
Context (Hty : type ∈ sample_types) (Ho : type = MACH_PORT_TYPE_SEND -> object = 0x5000).
Let t := sample_table object type urefs.

Lemma sample_type : IE_BITS_TYPE (gen_bits 0 0 + type + urefs) = type /\ type <> MACH_PORT_TYPE_NONE /\ 0 <= type < 2 ^ 21.
Proof using Hu Hty.
  clear -Hu Hty. rewrite IE_BITS_TYPE_arith. unfold gen_bits.
  repeat (apply elem_of_cons in Hty as [->|Hty]); [..|by apply not_elem_of_nil in Hty];
    (split; [|split; [discriminate|split; [discriminate|reflexivity]]]);
    unfold MACH_PORT_TYPE_SEND, MACH_PORT_TYPE_RECEIVE, MACH_PORT_TYPE_SEND_RECEIVE,
      MACH_PORT_TYPE_SEND_ONCE, MACH_PORT_TYPE_PORT_SET, MACH_PORT_TYPE_DEAD_NAME; dlia.
Qed.

Lemma sample_slots : (forall h, 0 <= h < 4 -> slot_index t h <> 0 -> h = 1 /\ type = MACH_PORT_TYPE_SEND).
Proof using.
  apply (four_cases (fun h => slot_index t h <> 0 -> h = 1 /\ type = MACH_PORT_TYPE_SEND)); intros Hn;
    try (destruct Hn; reflexivity).
  unfold slot_index, t, sample_table in Hn. destruct (Z.eqb_spec type MACH_PORT_TYPE_SEND); [done|].
  destruct Hn. reflexivity.
Qed.

Lemma sample_hash_wf : hash_wf t.
Proof using Ho.
  assert (alen t = 4) as Hl by reflexivity.
  split; rewrite ?Hl; [reflexivity|lia|split|].
  - intros h Hh Hn. rewrite Hl in *. destruct (sample_slots h Hh Hn) as [-> Hs].
    unfold t. rewrite (Ho Hs), Hs. vm_compute. repeat split; discriminate.
  - intros h Hh Hn. rewrite Hl in *. destruct (sample_slots h Hh Hn) as [-> Hs].
    unfold t. rewrite (Ho Hs), Hs. vm_compute. discriminate.
  - intros h h' Hh Hh' Hn Hn' _. rewrite Hl in *.
    by destruct (sample_slots h Hh Hn) as [-> _], (sample_slots h' Hh' Hn') as [-> _].
Qed.

Lemma sample_hashed i : hashed t i <-> i = 1 /\ type = MACH_PORT_TYPE_SEND.
Proof using.
  unfold hashed. change (alen t) with 4. split.
  - intros (Hn&h&Hh&<-). destruct (sample_slots h Hh Hn) as [-> Hs]. split; [|done].
    unfold t, slot_index, sample_table. by rewrite Hs.
  - intros [-> Hs]. split; [done|]. exists 1. split; [lia|]. unfold t, slot_index, sample_table. by rewrite Hs.
Qed.

Lemma sample_wf : space_wf (sample_space object type urefs) t [2; 3] None.
Proof using Hu Hty Ho.
  assert (alen t = 4) as Hl by reflexivity. destruct sample_type as (Ht&Hnone&Hr).
  assert (ie_bits (anth t 1) = gen_bits 0 0 + type + urefs) as Hb1 by reflexivity.
  split; rewrite ?Hl; try reflexivity.
  - split; rewrite ?Hl; try reflexivity.
    + exact sample_hash_wf.
    + vm_compute. discriminate.
    + vm_compute. repeat split.
    + apply NoDup_cons. split; [|apply NoDup_singleton]. by intros ?%list_elem_of_singleton.
    + intros i. split.
      * intros [->| ->%list_elem_of_singleton]%elem_of_cons; repeat split; try lia; discriminate.
      * intros (Hi&_&Hi0). revert Hi0. pattern i. apply three_cases; [| | |done].
        -- rewrite Hb1, Ht. done.
        -- intros _. apply list_elem_of_here.
        -- intros _. apply list_elem_of_further, list_elem_of_here.
    + intros i [->| ->%list_elem_of_singleton]%elem_of_cons; (split; [reflexivity|]); exists 0, 0; done.
    + intros i Hi. pattern i. apply three_cases; [| | |done].
      * rewrite Hb1. split; [unfold gen_bits; lia|]. exists 0. split; [lia|].
        rewrite IE_BITS_GEN_arith. unfold gen_bits. dlia.
      * split; [vm_compute; split; [discriminate|reflexivity]|]. exists 0. split; [lia|reflexivity].
      * split; [vm_compute; split; [discriminate|reflexivity]|]. exists 0. split; [lia|reflexivity].
    + intros i Hi _. rewrite sample_hashed. pattern i. apply three_cases; [| | |done].
      * rewrite Hb1, Ht. naive_solver.
      * split; [intros [Hx _]; discriminate Hx|intros Hx; discriminate Hx].
      * split; [intros [Hx _]; discriminate Hx|intros Hx; discriminate Hx].
  - unfold hash_count, sample_space, t, sample_table. simpl is_table_hashed.
    by destruct (type =? MACH_PORT_TYPE_SEND).
  - simpl. lia.
  - simpl. lia.
Qed.
End sample_wf.

(** A port received by another space, with one send right. *)
Definition sent_port : ipc_port :=
  set_ip_srights 1 (set_io_references 2 (set_ip_receiver 0x300 fresh_port)).
