(* ===== verification/IpcRequest.v ===== *)
(** * Dead-name and send-possible requests ([osfmk/ipc/ipc_port.c])

    The request table of a port: allocation, growth, arming, cancellation
    and delivery of requests, and the refinement of the table by a
    finite map from request indices to requests. *)

From S2P Require Import Prelude MachPort Prng OsRefcnt IpcTable IpcHash IpcState IpcSpace IpcEntry IpcPort IpcChain IpcMqueue.

Definition IPR_SOR_SPARM_MASK : Z := 1.
Definition IPR_SOR_SPREQ_MASK : Z := 2.
Definition IPR_SOR_SPBIT_MASK : Z := 3.
Definition IPR_SOR_SPARMED (sor : Z) : bool := has sor IPR_SOR_SPARM_MASK.
Definition IPR_SOR_SPREQ (sor : Z) : bool := has sor IPR_SOR_SPREQ_MASK.
Definition IPR_SOR_PORT (sor : Z) : Z := Z.ldiff sor IPR_SOR_SPBIT_MASK.
Definition IPR_SOR_MAKE (p m : Z) : Z := Z.lor p m.
Definition IPR_NULL : Z := 0.
Definition MACH_SEND_OVERRIDE : Z := 0x20.
Definition MACH_SEND_IMPORTANCE : Z := 0x80000.
Definition MACH_SEND_NOIMPORTANCE : Z := 0x40000.

(** The filled [ipc_table_requests], with the contract [ipc_table_init] gives
    it. *)
Class RequestSizes := {
  ipc_table_requests : list Z;
  ipc_table_requests_ok : requests_contract ipc_table_requests = true;
}.

(** A table seen through its pointer: NULL faults. *)
Definition requests_of (p : ipc_port) : M kst (Z * list ipc_port_request) :=
  match ip_requests p with
  | Some r => ret r
  | None => panic "port->ip_requests is NULL"
  end.
Definition has_requests (p : ipc_port) : bool := bool_decide (is_Some (ip_requests p)).

Section operations.
Context `{KernelConfig} `{Externals} `{RequestSizes} `{Concurrency}.

(** ** Allocation; returns the index and whether importance must be boosted. *)
Definition ipc_port_request_alloc (a name soright : Z) (send_possible immediate : bool)
    : M kst (kern_return_t * Z * bool) :=
  let* p := get_port a in
  require_ip_active p ;;*
  massert (negb (name =? MACH_PORT_NULL)) "name != MACH_PORT_NULL" ;;*
  massert (negb (soright =? IP_NULL)) "soright != IP_NULL" ;;*
  match ip_requests p with
  | None => ret (KERN_NO_SPACE, 0, false)
  | Some (addr, table) =>
    let* head := lift (aget table 0) in
    let index := ipr_next head in
    if index =? 0 then ret (KERN_NO_SPACE, 0, false)
    else
      let* ipr := lift (aget table index) in
      massert (ipr_name ipr =? MACH_PORT_NULL) "ipr->ipr_name == MACH_PORT_NULL" ;;*
      let table := aset table 0 (mk_ipr (ipr_next ipr) (ipr_size head)) in
      let arm := send_possible && immediate && negb (ip_sprequests p) in
      let important := arm && ip_impdonation p && negb (ip_spimportant p) &&
                       current_task_is_importance_donor in
      let mask := if send_possible
                  then Z.lor IPR_SOR_SPREQ_MASK (if immediate then IPR_SOR_SPARM_MASK else 0)
                  else 0 in
      let p := if arm then set_ip_sprequests true p else p in
      put_port a (set_ip_requests
        (Some (addr, aset table index (mk_ipr (IPR_SOR_MAKE soright mask) name))) p) ;;*
      ret (KERN_SUCCESS, index, important)
  end.

(** ** Growth *)

(** [while ((its->its_size) && (its->its_size < target_size)) its++]. *)
Fixpoint request_grow_search (fuel : nat) (target_size its : Z) : outcome Z :=
  match fuel with
  | O => Diverges
  | S fuel =>
    let! size := aget ipc_table_requests its in
    if negb (size =? 0) && (size <? target_size)
    then request_grow_search fuel target_size (its + 1) else Done its
  end.

(** [for (i = osize; i < nsize; i++)]: the new elements go on the free list. *)
Fixpoint request_fill (count : nat) (i free : Z) (ntable : list ipc_port_request)
    : Z * list ipc_port_request :=
  match count with
  | O => (free, ntable)
  | S count => request_fill count (i + 1) i (aset ntable i (mk_ipr free MACH_PORT_NULL))
  end.

(** The copy of the old elements and the header of the new table. *)
Definition request_copy (its nsize osize free : Z) (otable : list ipc_port_request)
    : list ipc_port_request :=
  let ntable := replicate (Z.to_nat nsize) (mk_ipr 0 0) in
  let ntable := take 1 ntable ++ take (Z.to_nat (osize - 1)) (drop 1 otable)
                ++ drop (Z.to_nat osize) ntable in
  let '(free, ntable) := request_fill (Z.to_nat (nsize - osize)) osize free ntable in
  aset ntable 0 (mk_ipr free its).

(** After the lock was dropped for the allocation of [nsize] elements at
    [naddr]; [otable] is the address of the table seen before. *)
Definition request_install (a its nsize naddr : Z) (otable : option Z) : M kst kern_return_t :=
  let* p := get_port a in
  let same_table := bool_decide (fst <$> ip_requests p = otable) in
  let* old :=
    if ip_active p && same_table then
      match ip_requests p with
      | Some (_, table) =>
        let* head := lift (aget table 0) in
        if ipr_size head + 1 =? its then
          let* osize := lift (aget ipc_table_requests (ipr_size head)) in
          ret (Some (osize, ipr_next head, table))
        else ret None
      | None => ret (Some (1, 0, []))
      end
    else ret None in
  (match old with
   | Some (osize, free, table) =>
     massert (osize <? nsize) "nsize > osize" ;;*
     put_port a (set_ip_requests (Some (naddr, request_copy its nsize osize free table)) p)
   | None => ret tt
   end) ;;*
  ip_release a ;;*
  ret KERN_SUCCESS.

Definition ipc_port_request_grow (a target_size : Z) : M kst kern_return_t :=
  let* p := get_port a in
  require_ip_active p ;;*
  let* oits :=
    match ip_requests p with
    | None => ret (-1)
    | Some (_, table) => let* head := lift (aget table 0) in ret (ipr_size head)
    end in
  let its := oits + 1 in
  let* enough :=
    if negb (target_size =? ITS_SIZE_NONE) && has_requests p
    then let* size := lift (aget ipc_table_requests oits) in ret (target_size <=? size)
    else ret false in
  if enough then ret KERN_SUCCESS
  else
    let* its :=
      if negb (target_size =? ITS_SIZE_NONE)
      then lift (request_grow_search (S (length ipc_table_requests)) target_size its)
      else ret its in
    let* nsize := lift (aget ipc_table_requests its) in
    if negb (target_size =? ITS_SIZE_NONE) && (nsize =? 0) then ret KERN_NO_SPACE
    else
      ip_reference a ;;*
      interfere ;;* (* ip_mq_unlock *)
      let* naddr := gets it_requests_alloc in
      if (nsize =? 0) || (naddr =? IPR_NULL) then ip_release a ;;* ret KERN_RESOURCE_SHORTAGE
      else request_install a its nsize naddr (fst <$> ip_requests p).

(** ** Arming a delayed send-possible request; [qos_ovr] is the override
    derived from the priority. *)
Definition ipc_port_request_sparm (a name index option qos_ovr : Z) : M kst bool :=
  if negb (index =? IE_REQ_NONE) then
    let* p := get_port a in
    require_ip_active p ;;*
    massert (has_requests p) "table != IPR_NULL" ;;*
    let* (addr, table) := requests_of p in
    let* ipr := lift (aget table index) in
    massert (ipr_name ipr =? name) "ipr->ipr_name == name" ;;*
    if IPR_SOR_SPREQ (ipr_soright ipr) then
      put_port a (set_ip_sprequests true (set_ip_requests (Some (addr, aset table index
        (mk_ipr (IPR_SOR_MAKE (ipr_soright ipr) IPR_SOR_SPARM_MASK) (ipr_name ipr)))) p)) ;;*
      when (has option MACH_SEND_OVERRIDE && negb (qos_ovr =? 0))
        (ipc_mqueue_override_send_locked a qos_ovr) ;;*
      ret (negb (has option MACH_SEND_NOIMPORTANCE) && ip_impdonation p &&
           negb (ip_spimportant p) &&
           (has option MACH_SEND_IMPORTANCE || current_task_is_importance_donor))
    else ret false
  else ret false.

(** ** Types of the requests of a name *)
Definition ipc_port_request_type (a name index : Z) : M kst Z :=
  let* p := get_port a in
  massert (has_requests p) "table != IPR_NULL" ;;*
  massert (negb (index =? IE_REQ_NONE)) "index != IE_REQ_NONE" ;;*
  let* (_, table) := requests_of p in
  let* ipr := lift (aget table index) in
  massert (ipr_name ipr =? name) "ipr->ipr_name == name" ;;*
  let sor := ipr_soright ipr in
  ret (if IP_VALID (IPR_SOR_PORT sor) then
         Z.lor MACH_PORT_TYPE_DNREQUEST
           (if IPR_SOR_SPREQ sor
            then Z.lor MACH_PORT_TYPE_SPREQUEST
                   (if IPR_SOR_SPARMED sor then 0 else MACH_PORT_TYPE_SPREQUEST_DELAYED)
            else 0)
       else 0).

(** ** Cancellation; returns the send-once right. *)
Definition ipc_port_request_cancel (a name index : Z) : M kst Z :=
  let* p := get_port a in
  require_ip_active p ;;*
  massert (has_requests p) "table != IPR_NULL" ;;*
  massert (negb (index =? IE_REQ_NONE)) "index != IE_REQ_NONE" ;;*
  let* (addr, table) := requests_of p in
  let* ipr := lift (aget table index) in
  massert (ipr_name ipr =? name) "ipr->ipr_name == name" ;;*
  let* head := lift (aget table 0) in
  let table := aset table index (mk_ipr (ipr_next head) MACH_PORT_NULL) in
  put_port a (set_ip_requests (Some (addr, aset table 0 (mk_ipr index (ipr_size head)))) p) ;;*
  ret (IPR_SOR_PORT (ipr_soright ipr)).

(** ** Delivery *)

(** [while (++index < size)]: the lock is dropped around each notification,
    and the port is looked at again. *)
Fixpoint spnotify_scan (fuel : nat) (a size index : Z) : M kst unit :=
  match fuel with
  | O => ret tt
  | S fuel =>
    let index := index + 1 in
    if size <=? index then ret tt
    else
      let* p := get_port a in
      let* (addr, table) := requests_of p in
      let* ipr := lift (aget table index) in
      let name := ipr_name ipr in
      let soright := IPR_SOR_PORT (ipr_soright ipr) in
      if MACH_PORT_VALID name && IPR_SOR_SPARMED (ipr_soright ipr) && IP_VALID soright then
        put_port a (set_ip_requests (Some (addr, aset table index (mk_ipr IP_NULL name))) p) ;;*
        interfere ;;* (* ip_mq_unlock *)
        ipc_notify_send_possible soright name ;;*
        interfere ;;* (* ip_mq_lock *)
        let* p := get_port a in
        if ip_active p then
          massert (has_requests p) "requests != IPR_NULL" ;;*
          spnotify_scan fuel a size index
        else ret tt
      else spnotify_scan fuel a size index
  end.

Definition ipc_port_spnotify (a : Z) : M kst unit :=
  let* p := get_port a in
  if negb (ip_sprequests p) then ret tt
  else
    interfere ;;* (* ip_mq_lock *)
    let* p := get_port a in
    when (ip_spimportant p)
      (put_port a (set_ip_spimportant false p) ;;*
       let* dropped := ipc_port_importance_delta a IPID_OPTION_NORMAL (-1) in
       when dropped interfere) ;;*
    let* p := get_port a in
    if negb (ip_sprequests p) then ret tt
    else
      put_port a (set_ip_sprequests false p) ;;*
      if ip_active p then
        massert (has_requests p) "requests != IPR_NULL" ;;*
        let* (_, table) := requests_of p in
        let* head := lift (aget table 0) in
        let* size := lift (aget ipc_table_requests (ipr_size head)) in
        spnotify_scan (Z.to_nat size) a size 0
      else ret tt.

(** [for (index = 1; index < size; index++)] *)
Fixpoint dnnotify_scan (count : nat) (table : list ipc_port_request) (index : Z) : M kst unit :=
  match count with
  | O => ret tt
  | S count =>
    let* ipr := lift (aget table index) in
    let name := ipr_name ipr in
    let soright := IPR_SOR_PORT (ipr_soright ipr) in
    when (MACH_PORT_VALID name && IP_VALID soright) (ipc_notify_dead_name soright name) ;;*
    dnnotify_scan count table (index + 1)
  end.

Definition ipc_port_dnnotify (a : Z) : M kst unit :=
  let* p := get_port a in
  massert (negb (ip_active p)) "!ip_active(port)" ;;*
  match ip_requests p with
  | None => ret tt
  | Some (_, table) =>
    let* head := lift (aget table 0) in
    let* size := lift (aget ipc_table_requests (ipr_size head)) in
    dnnotify_scan (Z.to_nat (size - 1)) table 1
  end.
End operations.
