(* ===== verification/RequestProps.v ===== *)
(** * Request tables are finite maps

    The request table of a port refines a finite map from request indices to
    requests: allocation adds at an unused index, cancellation removes and
    hands the send-once right back, growth changes nothing; there is always
    room after a growth.  A growth to a size that is not the next one leaves
    the table as it was. *)

From S2P Require Import Prelude MachPort Prng OsRefcnt IpcTable IpcHash IpcState IpcSpace EntryFacts IpcEntry EntrySpec IpcPort IpcChain PortSpec IpcRequest.

(** ** Sizes *)
Section sizes.
Context `{RequestSizes}.

Lemma request_sizes_alen : alen ipc_table_requests = 64.
Proof.
  pose proof ipc_table_requests_ok as Hc. unfold requests_contract in Hc.
  rewrite !andb_true_iff in Hc. destruct Hc as [[[Hl _] _] _]. apply Z.eqb_eq in Hl. exact Hl.
Qed.
Lemma request_sizes_step i : 0 <= i -> i + 1 < 63 ->
  anth ipc_table_requests i < anth ipc_table_requests (i + 1).
Proof.
  pose proof ipc_table_requests_ok as Hc. unfold requests_contract in Hc.
  rewrite !andb_true_iff in Hc. destruct Hc as [[[_ Hi] _] _].
  apply (strictly_increasing_upto_spec _ _ Hi).
Qed.
Lemma request_sizes_last : anth ipc_table_requests 63 = 0.
Proof.
  pose proof ipc_table_requests_ok as Hc. unfold requests_contract in Hc.
  rewrite !andb_true_iff in Hc. destruct Hc as [_ Hz]. apply Z.eqb_eq in Hz. exact Hz.
Qed.
Lemma request_sizes_min i : 0 <= i < 63 -> i + 2 <= anth ipc_table_requests i.
Proof.
  intros [Hi Hlt]. revert Hlt. pattern i. apply natlike_ind; [| |done].
  - intros _. pose proof ipc_table_requests_ok as Hc. unfold requests_contract in Hc.
    rewrite !andb_true_iff in Hc. destruct Hc as [[_ Hz] _]. apply Z.leb_le in Hz. lia.
  - intros j Hj IH Hlt. pose proof (request_sizes_step j Hj). unfold Z.succ in *. lia.
Qed.
Lemma request_sizes_lt i j : 0 <= i < j -> j < 63 ->
  anth ipc_table_requests i < anth ipc_table_requests j.
Proof.
  intros [Hi Hij]. assert (i + 1 <= j) as Hle by lia. clear Hij. revert j Hle. apply (Zlt_lower_bound_ind (fun j => j < 63 -> _ < anth _ j) (i + 1)).
  - intros j IH Hj Hlt. destruct (decide (j = i + 1)) as [->|]; [by apply request_sizes_step|].
    specialize (IH (j - 1) ltac:(lia) ltac:(lia)).
    pose proof (request_sizes_step (j - 1) ltac:(lia)) as Hs. replace (j - 1 + 1) with j in Hs by lia.
    specialize (Hs Hlt). lia.
Qed.
End sizes.

(** ** Well-formed tables *)

(** [fl] is the free list hanging off element [x]. *)
Fixpoint req_chain (t : list ipc_port_request) (x : Z) (fl : list Z) : Prop :=
  match fl with
  | [] => ipr_next (anth t x) = 0
  | y :: fl => ipr_next (anth t x) = y /\ req_chain t y fl
  end.

Record requests_wf `{RequestSizes} (t : list ipc_port_request) (fl : list Z) : Prop := {
  rw_index : 0 <= ipr_size (anth t 0) < 63;
  rw_len : alen t = anth ipc_table_requests (ipr_size (anth t 0));
  rw_chain : req_chain t 0 fl;
  rw_nodup : NoDup fl;
  rw_range : forall i, i ∈ fl -> 0 < i < alen t;
  rw_free : forall i, 0 < i < alen t -> (ipr_name (anth t i) = MACH_PORT_NULL <-> i ∈ fl);
}.

(** The requests in a table, by index. *)
Definition in_use (t : list ipc_port_request) (i : Z) : Prop :=
  ipr_name (anth t i) <> MACH_PORT_NULL.
#[global] Instance in_use_dec t i : Decision (in_use t i).
Proof. unfold in_use. apply _. Defined.
Definition req_map (t : list ipc_port_request) : gmap Z ipc_port_request :=
  list_to_map ((fun i => (i, anth t i)) <$> filter (in_use t) (seqZ 1 (alen t - 1))).

Lemma req_map_lookup t i :
  req_map t !! i = if decide (0 < i < alen t /\ in_use t i) then Some (anth t i) else None.
Proof.
  unfold req_map.
  assert (NoDup (((fun i => (i, anth t i)) <$> filter (in_use t) (seqZ 1 (alen t - 1))).*1)) as Hnd.
  { rewrite <- list_fmap_compose. erewrite list_fmap_ext; [|by intros ???].
    rewrite list_fmap_id. apply NoDup_filter, NoDup_seqZ. }
  destruct (decide (0 < i < alen t /\ in_use t i)) as [[Hi Hu]|Hn].
  - apply elem_of_list_to_map_1; [done|]. apply list_elem_of_fmap. exists i. split; [done|].
    apply list_elem_of_filter. split; [done|]. apply elem_of_seqZ. lia.
  - apply not_elem_of_list_to_map_1. intros Hin. apply Hn.
    apply list_elem_of_fmap in Hin as ([j r]&->&Hin). apply list_elem_of_fmap in Hin as (?&[= -> ->]&Hin).
    apply list_elem_of_filter in Hin as [Hu Hs]. apply elem_of_seqZ in Hs. simpl. split; [lia|done].
Qed.

Lemma req_map_Some t i r :
  req_map t !! i = Some r <-> 0 < i < alen t /\ in_use t i /\ anth t i = r.
Proof. rewrite req_map_lookup. case_decide; naive_solver. Qed.

(** The chain depends on where the first element points and on the elements
    it goes through. *)
Lemma req_chain_ext t t' x x' fl :
  ipr_next (anth t' x') = ipr_next (anth t x) -> (forall y, y ∈ fl -> anth t' y = anth t y) ->
  req_chain t x fl -> req_chain t' x' fl.
Proof.
  revert x x'. induction fl as [|y fl IH]; intros x x' Hx Hy; simpl; rewrite Hx; [done|].
  intros [-> Hc]. split; [done|]. apply (IH y y); [|set_solver|done].
  f_equal. apply Hy, list_elem_of_here.
Qed.

Section tables.
Context `{RequestSizes}.

Lemma requests_wf_len t fl : requests_wf t fl -> 2 <= alen t.
Proof. intros [Hi Hl _ _ _ _]. pose proof (request_sizes_min _ Hi). lia. Qed.

(** Taking the first free element. *)
Lemma requests_pop t i fl r : requests_wf t (i :: fl) -> ipr_name r <> MACH_PORT_NULL ->
  let t' := aset (aset t 0 (mk_ipr (ipr_next (anth t i)) (ipr_size (anth t 0)))) i r in
  requests_wf t' fl /\ req_map t' = <[i := r]> (req_map t) /\ req_map t !! i = None.
Proof.
  intros Hw Hr t'. pose proof (requests_wf_len _ _ Hw). destruct Hw as [Hi Hl [_ Hc] Hnd Hrg Hfree].
  apply NoDup_cons in Hnd as [Hni Hnd].
  assert (0 < i < alen t) as Hir by (apply Hrg, list_elem_of_here).
  assert (alen t' = alen t) as Hlen by (unfold t'; by rewrite !alen_aset).
  assert (forall j, 0 < j -> anth t' j = if i =? j then r else anth t j) as Hj.
  { intros j Hj0. unfold t'. rewrite anth_aset by (rewrite ?alen_aset; lia).
    destruct (i =? j); [done|]. rewrite anth_aset_ne by lia. done. }
  assert (anth t' 0 = mk_ipr (ipr_next (anth t i)) (ipr_size (anth t 0))) as Hz0.
  { unfold t'. rewrite anth_aset_ne by lia. by rewrite anth_aset_eq by lia. }
  split; [split|split].
  - by rewrite Hz0.
  - by rewrite Hlen, Hz0.
  - apply (req_chain_ext t _ i); [by rewrite Hz0| |done]. intros y Hy.
    assert (0 < y < alen t) by (apply Hrg; by apply list_elem_of_further).
    rewrite (Hj y) by lia. destruct (Z.eqb_spec i y) as [->|]; done.
  - done.
  - intros j Hin. rewrite Hlen. apply Hrg. by apply list_elem_of_further.
  - intros j Hjr. rewrite Hlen in Hjr. rewrite (Hj j) by lia. destruct (Z.eqb_spec i j) as [<-|].
    + split; [done|]. intros Hin. done.
    + rewrite Hfree by lia. rewrite elem_of_cons. naive_solver.
  - apply map_eq. intros j. apply option_eq. intros x.
    rewrite lookup_insert_Some, !req_map_Some, Hlen. unfold in_use.
    destruct (decide (0 < j < alen t)); [|naive_solver lia].
    rewrite (Hj j) by lia. destruct (Z.eqb_spec i j) as [<-|]; naive_solver.
  - rewrite req_map_lookup. rewrite decide_False; [done|]. intros [_ Hu]. apply Hu, Hfree; [done|].
    apply list_elem_of_here.
Qed.

(** Giving an element back. *)
Lemma requests_push t i fl : requests_wf t fl -> 0 < i < alen t -> in_use t i ->
  let t' := aset (aset t i (mk_ipr (ipr_next (anth t 0)) MACH_PORT_NULL)) 0
              (mk_ipr i (ipr_size (anth t 0))) in
  requests_wf t' (i :: fl) /\ req_map t' = delete i (req_map t).
Proof.
  intros Hw Hir Hu t'. pose proof (requests_wf_len _ _ Hw). destruct Hw as [Hi Hl Hc Hnd Hrg Hfree].
  assert (i ∉ fl) as Hni by (intros Hin; apply Hu, Hfree; done).
  assert (alen t' = alen t) as Hlen by (unfold t'; by rewrite !alen_aset).
  assert (forall j, 0 < j -> anth t' j =
    if i =? j then mk_ipr (ipr_next (anth t 0)) MACH_PORT_NULL else anth t j) as Hj.
  { intros j Hj0. unfold t'. rewrite anth_aset_ne by lia. by rewrite anth_aset by lia. }
  assert (anth t' 0 = mk_ipr i (ipr_size (anth t 0))) as Hz0.
  { unfold t'. rewrite anth_aset_eq by (rewrite alen_aset; lia). done. }
  split; [split|].
  - by rewrite Hz0.
  - by rewrite Hlen, Hz0.
  - simpl. rewrite Hz0. split; [done|]. apply (req_chain_ext t _ 0); [| |done].
    + rewrite (Hj i) by lia. by rewrite Z.eqb_refl.
    + intros y Hy. pose proof (Hrg y Hy). rewrite (Hj y) by lia. by destruct (Z.eqb_spec i y) as [->|].
  - by apply NoDup_cons.
  - intros j [->|Hin]%elem_of_cons; rewrite Hlen; [done|by apply Hrg].
  - intros j Hjr. rewrite Hlen in Hjr. rewrite (Hj j) by lia. rewrite elem_of_cons.
    destruct (Z.eqb_spec i j) as [<-|]; [naive_solver|]. rewrite Hfree by lia. naive_solver.
  - apply map_eq. intros j. apply option_eq. intros x.
    rewrite lookup_delete_Some, !req_map_Some, Hlen. unfold in_use.
    destruct (decide (0 < j < alen t)); [|naive_solver lia].
    rewrite (Hj j) by lia. destruct (Z.eqb_spec i j) as [<-|]; naive_solver.
Qed.

(** The loop that threads the new elements. *)
Lemma request_fill_ok n : forall i free t, 0 < i -> i + Z.of_nat n = alen t ->
  let '(free', t') := request_fill n i free t in
  alen t' = alen t /\
  (forall j, 0 <= j < i -> anth t' j = anth t j) /\
  (forall j, i <= j < i + Z.of_nat n ->
     anth t' j = mk_ipr (if j =? i then free else j - 1) MACH_PORT_NULL) /\
  free' = (if (0 <? Z.of_nat n) then i + Z.of_nat n - 1 else free).
Proof using.
  induction n as [|n IH]; intros i free t Hi Hn; cbn [request_fill].
  - split_and!; [done|done|intros; lia|done].
  - specialize (IH (i + 1) i (aset t i (mk_ipr free MACH_PORT_NULL)) ltac:(lia)).
    rewrite alen_aset in IH. specialize (IH ltac:(lia)).
    destruct (request_fill n (i + 1) i _) as [free' t'].
    destruct IH as (Hl&Hlow&Hnew&Hf). split_and!; [done| | |].
    + intros j Hj. rewrite Hlow by lia. apply anth_aset_ne; lia.
    + intros j Hj. destruct (Z.eqb_spec j i) as [->|].
      * rewrite Hlow by lia. apply anth_aset_eq. lia.
      * rewrite Hnew by lia. f_equal. destruct (Z.eqb_spec j (i + 1)); lia.
    + rewrite Hf. zcase; lia.
Qed.

(** The descending list of the new elements. *)
Definition new_elements (osize : Z) (n : nat) : list Z := reverse (seqZ osize (Z.of_nat n)).

Lemma new_chain t osize n free fl : 0 < osize ->
  (forall j, osize <= j < osize + Z.of_nat n ->
     ipr_next (anth t j) = if j =? osize then free else j - 1) ->
  (n = O -> ipr_next (anth t 0) = free) ->
  ((0 < n)%nat -> ipr_next (anth t 0) = osize + Z.of_nat n - 1) ->
  (forall x, ipr_next (anth t x) = free -> req_chain t x fl) ->
  req_chain t 0 (new_elements osize n ++ fl).
Proof using.
  intros Ho Hnew Hz Hs Hfl.
  assert (forall m x, (m <= n)%nat ->
    ipr_next (anth t x) = (if (0 <? Z.of_nat m) then osize + Z.of_nat m - 1 else free) ->
    req_chain t x (new_elements osize m ++ fl)) as Hgen.
  { induction m as [|m IH]; intros x Hm Hx.
    - simpl. by apply Hfl.
    - unfold new_elements. replace (Z.of_nat (S m)) with (Z.of_nat m + 1) by lia.
      rewrite seqZ_app, reverse_app by lia.
      assert (forall x, reverse (seqZ x 1) = [x]) as ->
        by (intros y; rewrite seqZ_cons by lia; reflexivity).
      cbn [app req_chain].
      rewrite Hx. destruct (Z.ltb_spec 0 (Z.of_nat (S m))); [|lia].
      split; [lia|]. apply IH; [lia|]. rewrite Hnew by lia.
      destruct (Z.eqb_spec (osize + Z.of_nat m) osize), (Z.ltb_spec 0 (Z.of_nat m)); lia. }
  apply Hgen; [lia|]. destruct n as [|n]; [by apply Hz|]. rewrite Hs by lia.
  destruct (Z.ltb_spec 0 (Z.of_nat (S n))); lia.
Qed.

(** The new table, element by element. *)
Lemma request_copy_spec its nsize osize free t :
  0 < osize -> osize <= nsize -> (1 < osize -> alen t = osize) ->
  let t' := request_copy its nsize osize free t in
  alen t' = nsize /\
  anth t' 0 = mk_ipr (if osize <? nsize then nsize - 1 else free) its /\
  (forall j, 0 < j < osize -> anth t' j = anth t j) /\
  (forall j, osize <= j < nsize ->
     anth t' j = mk_ipr (if j =? osize then free else j - 1) MACH_PORT_NULL).
Proof using.
  intros Ho Hn Hlen. unfold request_copy.
  set (t0 := take 1 _ ++ _ ++ _).
  assert (length (drop 1 t) = Z.to_nat (alen t) - 1)%nat as Hd
    by (rewrite length_drop; unfold alen; lia).
  assert (length (take (Z.to_nat (osize - 1)) (drop 1 t)) = Z.to_nat (osize - 1)) as Htk.
  { rewrite length_take, Hd. destruct (decide (1 < osize)); [rewrite Hlen by lia; lia|lia]. }
  assert (alen t0 = nsize) as Hl0.
  { unfold t0, alen. rewrite !length_app, Htk, length_take, length_drop, length_replicate. lia. }
  assert (forall j, 0 < j < osize -> anth t0 j = anth t j) as Hold.
  { intros j Hj. unfold anth, t0. apply list_lookup_total_correct.
    rewrite lookup_app_r by (rewrite length_take, length_replicate; lia).
    rewrite length_take, length_replicate, lookup_app_l by (rewrite Htk; lia).
    rewrite lookup_take_lt by lia. rewrite lookup_drop.
    replace (1 + (Z.to_nat j - 1 `min` Z.to_nat nsize))%nat with (Z.to_nat j) by lia.
    apply list_lookup_lookup_total_lt. rewrite Hlen in Hd by lia. unfold alen in Hlen. lia. }
  pose proof (request_fill_ok (Z.to_nat (nsize - osize)) osize free t0 Ho ltac:(lia)) as Hf.
  destruct (request_fill _ osize free t0) as [free' t1]. destruct Hf as (Hl1&Hlow&Hnew&->).
  rewrite Z2Nat.id in Hnew by lia. rewrite Z2Nat.id by lia.
  rewrite alen_aset. split_and!.
  - lia.
  - rewrite anth_aset_eq by lia. f_equal. zcase; lia.
  - intros j Hj. rewrite anth_aset_ne by lia. rewrite Hlow by lia. by apply Hold.
  - intros j Hj. rewrite anth_aset_ne by lia. apply Hnew. lia.
Qed.

Lemma new_elements_elem osize n i : i ∈ new_elements osize n <-> osize <= i < osize + Z.of_nat n.
Proof using. unfold new_elements. rewrite elem_of_reverse, elem_of_seqZ. lia. Qed.

(** Growing from a table with free list [fl] and [osize] elements (1 when
    there is no table) to size [its]. *)
Lemma requests_grow t fl its :
  (requests_wf t fl /\ ipr_size (anth t 0) < its \/ alen t = 0 /\ fl = [] /\ 0 <= its) -> its < 63 ->
  let osize := Z.max 1 (alen t) in
  let free := if alen t =? 0 then 0 else ipr_next (anth t 0) in
  let t' := request_copy its (anth ipc_table_requests its) osize free t in
  exists fl', requests_wf t' fl' /\ req_map t' = req_map t /\ fl' <> [].
Proof.
  intros Hcase Hits osize free t'. set (nsize := anth ipc_table_requests its).
  assert (0 <= its /\ osize < nsize /\ (1 < osize -> alen t = osize) /\
          (alen t = osize \/ alen t = 0 /\ osize = 1)) as (Hpos&Hsz&Hlo&Hal).
  { unfold osize, nsize. destruct Hcase as [[Hw Hlt]|(->&_&?)].
    - pose proof (requests_wf_len _ _ Hw). destruct Hw as [Hi Hl _ _ _ _].
      assert (anth ipc_table_requests (ipr_size (anth t 0)) < anth ipc_table_requests its)
        by (apply request_sizes_lt; lia). lia.
    - assert (its + 2 <= anth ipc_table_requests its) by (apply request_sizes_min; lia). lia. }
  pose proof (request_copy_spec its nsize osize free t ltac:(lia) ltac:(lia) Hlo) as Hcopy.
  change (request_copy its nsize osize free t) with t' in Hcopy.
  destruct Hcopy as (Hl&Hz0&Hold&Hnew).
  assert ((osize <? nsize) = true) as Hb by (apply Z.ltb_lt; lia). rewrite Hb in Hz0. clear Hb.
  assert (forall i, i ∈ fl -> 0 < i < osize) as Hrange.
  { intros i Hi. destruct Hcase as [[Hw _]|(_&->&_)]; [|set_solver].
    pose proof (rw_range _ _ Hw i Hi). lia. }
  assert (forall i, 0 < i < osize -> ipr_name (anth t i) = MACH_PORT_NULL <-> i ∈ fl) as Hfree.
  { intros i Hi. destruct Hcase as [[Hw _]|(?&_&_)]; [|lia]. apply (rw_free _ _ Hw). lia. }
  exists (new_elements osize (Z.to_nat (nsize - osize)) ++ fl). split; [split|split].
  - rewrite Hz0. simpl. lia.
  - rewrite Hz0. simpl. exact Hl.
  - apply (new_chain _ osize _ free); [lia| |lia| |].
    + intros j Hj. rewrite Hnew by lia. done.
    + intros _. rewrite Hz0. simpl. lia.
    + intros x Hx. destruct Hcase as [[Hw _]|(Hz&->&_)].
      * pose proof (requests_wf_len _ _ Hw). apply (req_chain_ext t _ 0).
        -- rewrite Hx. unfold free. destruct (Z.eqb_spec (alen t) 0); [lia|done].
        -- intros y Hy. apply Hold. by apply Hrange.
        -- apply Hw.
      * simpl. rewrite Hx. unfold free. by rewrite Hz.
  - apply NoDup_app. split_and!.
    + unfold new_elements. rewrite reverse_Permutation. apply NoDup_seqZ.
    + intros i Hi Hf. apply new_elements_elem in Hi. apply Hrange in Hf. lia.
    + destruct Hcase as [[Hw _]|(_&->&_)]; [apply Hw|constructor].
  - intros i Hi. apply elem_of_app in Hi as [Hi|Hi].
    + apply new_elements_elem in Hi. lia.
    + apply Hrange in Hi. lia.
  - intros i Hi. rewrite elem_of_app, new_elements_elem. destruct (decide (i < osize)).
    + rewrite Hold, Hfree by lia. split; [auto|]. intros [?|?]; [lia|done].
    + rewrite Hnew by lia. simpl. split; [intros _; left; lia|done].
  - apply map_eq. intros j. apply option_eq. intros r. rewrite !req_map_Some. unfold in_use.
    destruct (decide (0 < j < osize)).
    + rewrite Hold by lia. split; intros (?&?&?); split_and!; try done; lia.
    + destruct (decide (osize <= j < nsize)).
      * rewrite Hnew by lia. simpl. split; intros (?&?&?); [done|lia].
      * split; intros (?&_&_); lia.
  - intros Hnil. apply app_nil in Hnil as [Hnil _].
    assert (osize ∈ new_elements osize (Z.to_nat (nsize - osize))) as Hin
      by (apply new_elements_elem; lia). rewrite Hnil in Hin. set_solver.
Qed.
End tables.

(** ** The operations refine a finite map *)

(** The abstract requests of a port, and whether its table has no free
    element. *)
Definition port_requests (p : ipc_port) : gmap Z ipc_port_request :=
  match ip_requests p with Some (_, t) => req_map t | None => ∅ end.
Definition requests_full (p : ipc_port) : Prop :=
  match ip_requests p with Some (_, t) => forall i, 0 < i < alen t -> in_use t i | None => True end.
Definition requests_ok `{RequestSizes} (p : ipc_port) : Prop :=
  match ip_requests p with Some (_, t) => exists fl, requests_wf t fl | None => True end.

Inductive req_op :=
| ReqAlloc (name soright : Z) (send_possible immediate : bool)
| ReqCancel (name index : Z)
| ReqGrow.
Inductive req_result :=
| ReqIndex (index : Z) | ReqFull | ReqRight (soright : Z) | ReqGrew (kr : kern_return_t).

(** The kind of a request, in the low bits of its right. *)
Definition req_mask (send_possible immediate : bool) : Z :=
  if send_possible then Z.lor IPR_SOR_SPREQ_MASK (if immediate then IPR_SOR_SPARM_MASK else 0) else 0.

(** What a port promises about its requests. *)
Inductive req_spec (m : gmap Z ipc_port_request) :
    req_op -> req_result -> gmap Z ipc_port_request -> Prop :=
| spec_alloc name soright sp im index :
    index <> IE_REQ_NONE -> m !! index = None ->
    req_spec m (ReqAlloc name soright sp im) (ReqIndex index)
      (<[index := mk_ipr (Z.lor soright (req_mask sp im)) name]> m)
| spec_full name soright sp im : req_spec m (ReqAlloc name soright sp im) ReqFull m
| spec_cancel name index r : m !! index = Some r -> ipr_name r = name ->
    req_spec m (ReqCancel name index) (ReqRight (IPR_SOR_PORT (ipr_soright r))) (delete index m)
| spec_grow kr : req_spec m ReqGrow (ReqGrew kr) m.

(** The client's obligations. *)
Definition req_legal (p : ipc_port) (op : req_op) : Prop :=
  match op with
  | ReqAlloc name soright _ _ => name <> MACH_PORT_NULL /\ soright <> IP_NULL
  | ReqCancel name index => exists r, port_requests p !! index = Some r /\ ipr_name r = name
  | ReqGrow => True
  end.

Section operations.
Context `{KernelConfig} `{Externals} `{RequestSizes}.

Definition req_exec `{Concurrency} (a : Z) (op : req_op) : M kst req_result :=
  match op with
  | ReqAlloc name soright sp im =>
    let* (kr, index, _) := ipc_port_request_alloc a name soright sp im in
    ret (if bool_decide (kr = KERN_SUCCESS) then ReqIndex index else ReqFull)
  | ReqCancel name index =>
    let* soright := ipc_port_request_cancel a name index in ret (ReqRight soright)
  | ReqGrow => let* kr := ipc_port_request_grow a ITS_SIZE_NONE in ret (ReqGrew kr)
  end.

(** A port that can take part: active, with a table in order and references to
    spare. *)
Record req_port (p : ipc_port) : Prop := {
  rp_active : ip_active p = true;
  rp_table : requests_ok p;
  rp_refs : 1 <= io_references p < OS_REFCNT_MAX_COUNT;
}.

Lemma request_alloc_ok `{Concurrency} k a p name soright sp im :
  ks_ports k !! a = Some p -> req_port p -> name <> MACH_PORT_NULL -> soright <> IP_NULL ->
  wp (req_exec a (ReqAlloc name soright sp im)) (fun r k' => exists p', k' = with_port a p' k /\
    req_port p' /\ req_spec (port_requests p) (ReqAlloc name soright sp im) r (port_requests p') /\
    (r = ReqFull -> requests_full p)) k.
Proof.
  intros Hp [Hact Hok Hrefs] Hname Hso. apply wp_bind. unfold ipc_port_request_alloc. port_goal.
  apply wp_massert; [by apply negb_true_iff, Z.eqb_neq|]. port_goal.
  apply wp_massert; [by apply negb_true_iff, Z.eqb_neq|].
  destruct (ip_requests p) as [[addr t]|] eqn:Hr.
  2:{ port_goal. exists p. rewrite with_port_id by done. split_and!; [done|done|constructor|].
      intros _. unfold requests_full. by rewrite Hr. }
  pose proof Hok as Hok'. unfold requests_ok in Hok'. rewrite Hr in Hok'. destruct Hok' as [fl Hw].
  pose proof (requests_wf_len _ _ Hw). apply wp_bind, wp_array; [lia|].
  destruct fl as [|i fl].
  - assert (ipr_next (anth t 0) = 0) as -> by apply (rw_chain _ _ Hw). port_goal. simpl.
    exists p. rewrite with_port_id by done. split_and!; [done|done|constructor|].
    intros _. unfold requests_full. rewrite Hr. intros i Hi Hn. apply (rw_free _ _ Hw) in Hn; [|done].
    set_solver.
  - assert (ipr_next (anth t 0) = i) as -> by apply (rw_chain _ _ Hw).
    assert (0 < i < alen t) as Hi by (apply (rw_range _ _ Hw), list_elem_of_here).
    destruct (Z.eqb_spec i 0); [lia|]. apply wp_bind, wp_array; [lia|]. apply wp_bind, wp_massert.
    { apply Z.eqb_eq, (rw_free _ _ Hw); [done|apply list_elem_of_here]. }
    port_goal. simpl.
    destruct (requests_pop t i fl (mk_ipr (Z.lor soright (req_mask sp im)) name) Hw Hname)
      as (Hw'&Hm&Hfresh).
    eexists. split; [done|]. unfold port_requests. rewrite Hr. simpl.
    assert (forall q : ipc_port, ip_active q = true -> ip_active (set_ip_sprequests true q) = true) as Hset
      by done.
    split_and!; [split| |done].
    + unfold ip_active in *. simpl. by destruct (_ && _ && _).
    + unfold requests_ok. simpl. eexists. exact Hw'.
    + simpl. by destruct (_ && _ && _).
    + unfold IPR_SOR_MAKE. fold (req_mask sp im). rewrite Hm. by constructor.
Qed.

Lemma request_cancel_ok `{Concurrency} k a p name index :
  ks_ports k !! a = Some p -> req_port p -> req_legal p (ReqCancel name index) ->
  wp (req_exec a (ReqCancel name index)) (fun r k' => exists p', k' = with_port a p' k /\
    req_port p' /\ req_spec (port_requests p) (ReqCancel name index) r (port_requests p')) k.
Proof.
  intros Hp [Hact Hok Hrefs] (r&Hlook&Hname). unfold requests_ok in Hok. unfold port_requests in Hlook.
  destruct (ip_requests p) as [[addr t]|] eqn:Hr; [|by rewrite lookup_empty in Hlook].
  destruct Hok as [fl Hw]. pose proof Hlook as (Hi&Hu&Hrec)%req_map_Some.
  apply wp_bind. unfold ipc_port_request_cancel. port_goal.
  apply wp_massert; [unfold has_requests; by rewrite Hr, bool_decide_true|]. port_goal.
  apply wp_massert; [apply negb_true_iff, Z.eqb_neq; unfold IE_REQ_NONE; lia|].
  unfold requests_of. rewrite Hr. port_goal. apply wp_array; [lia|]. port_goal.
  apply wp_massert; [apply Z.eqb_eq; congruence|]. apply wp_bind, wp_array; [lia|]. port_goal.
  destruct (requests_push t index fl Hw Hi Hu) as [Hw' Hm].
  eexists. split; [done|]. split; [split; [exact Hact| |exact Hrefs]|].
  - unfold requests_ok. simpl. eexists. exact Hw'.
  - unfold port_requests. rewrite Hr. simpl. rewrite Hm, Hrec. by constructor.
Qed.

(** Installing the table that follows the one in place. *)
Lemma request_install_ok k a p its naddr :
  ks_ports k !! a = Some p -> ip_active p = true -> requests_ok p ->
  1 < io_references p <= OS_REFCNT_MAX_COUNT -> 0 <= its < 63 ->
  match ip_requests p with Some (_, t) => ipr_size (anth t 0) + 1 = its | None => True end ->
  wp (request_install a its (anth ipc_table_requests its) naddr (fst <$> ip_requests p))
    (fun kr k' => kr = KERN_SUCCESS /\ exists p' t' fl', k' = with_port a p' k /\
       ip_active p' = true /\ io_references p' = io_references p - 1 /\
       ip_requests p' = Some (naddr, t') /\ requests_wf t' fl' /\ fl' <> [] /\
       port_requests p' = port_requests p) k.
Proof.
  intros Hp Hact Hok Hrefs Hits Hnext. unfold request_install. port_goal.
  rewrite Hact, bool_decide_true by done. cbn [andb].
  unfold port_requests, requests_ok in *.
  assert (exists t fl, (requests_wf t fl /\ ipr_size (anth t 0) < its \/ alen t = 0 /\ fl = [] /\ 0 <= its) /\
    match ip_requests p with Some (_, t0) => req_map t0 | None => ∅ end = req_map t /\
    forall Q, Q (Some (Z.max 1 (alen t), if alen t =? 0 then 0 else ipr_next (anth t 0), t)) k ->
     wp (match ip_requests p with
       | Some (_, table) =>
         let* head := lift (aget table 0) in
         if ipr_size head + 1 =? its then
           let* osize := lift (aget ipc_table_requests (ipr_size head)) in
           ret (Some (osize, ipr_next head, table))
         else ret None
       | None => ret (Some (1, 0, []))
       end) Q k) as (t&fl&Hcase&Hmap&Hwp).
  { destruct (ip_requests p) as [[addr t]|].
    - destruct Hok as [fl Hw]. exists t, fl. pose proof (requests_wf_len _ _ Hw).
      split; [left; split; [done|lia]|]. split; [done|]. intros Q HQ.
      apply wp_bind, wp_array; [lia|]. rewrite Hnext, Z.eqb_refl.
      apply wp_bind, wp_array; [rewrite request_sizes_alen; pose proof (rw_index _ _ Hw); lia|].
      apply wp_ret. rewrite <- (rw_len _ _ Hw). replace (Z.max 1 (alen t)) with (alen t) in HQ by lia.
      destruct (Z.eqb_spec (alen t) 0); [lia|done].
    - exists [], []. split; [right; split_and!; [done|done|lia]|]. split; [done|].
      intros Q HQ. apply wp_ret. exact HQ. }
  apply Hwp. destruct (requests_grow t fl its Hcase ltac:(lia)) as (fl'&Hw'&Hm'&Hne). 
  pose proof (requests_wf_len _ _ Hw').
  assert (Z.max 1 (alen t) < anth ipc_table_requests its) as Hlt.
  { destruct Hcase as [[Hw Hl]|(->&_&_)].
    - pose proof (requests_wf_len _ _ Hw). rewrite (rw_len _ _ Hw) in *.
      assert (anth ipc_table_requests (ipr_size (anth t 0)) < anth ipc_table_requests its)
        by (apply request_sizes_lt; [pose proof (rw_index _ _ Hw)|]; lia). lia.
    - assert (its + 2 <= anth ipc_table_requests its) by (apply request_sizes_min; lia). lia. }
  port_goal. apply wp_massert; [by apply Z.ltb_lt|]. port_goal.
  eapply wp_ip_release; [apply with_port_lookup|done|].
  rewrite with_port_twice. apply wp_ret. split; [done|].
  do 3 eexists. split_and!; [done|exact Hact|done|reflexivity|exact Hw'|exact Hne|].
  simpl. by rewrite Hm', Hmap.
Qed.

Definition tick (k : kst) : kst := set_ks_clock (S (ks_clock k)) k.

(** Growth, with no other thread interfering. *)
Lemma request_grow_ok k a p :
  ks_ports k !! a = Some p -> req_port p ->
  wp (ipc_port_request_grow (H2 := quiet) a ITS_SIZE_NONE) (fun kr k' => exists p',
    k' = with_port a p' (tick k) /\ req_port p' /\ port_requests p' = port_requests p /\
    (kr = KERN_SUCCESS -> ~ requests_full p') /\ (kr <> KERN_SUCCESS -> kr = KERN_RESOURCE_SHORTAGE)) k.
Proof.
  intros Hp [Hact Hok Hrefs]. unfold ipc_port_request_grow. port_goal.
  set (oits := match ip_requests p with None => -1 | Some (_, t) => ipr_size (anth t 0) end).
  assert (-1 <= oits < 63) as Hoits.
  { unfold oits. unfold requests_ok in Hok. destruct (ip_requests p) as [[addr t]|]; [|lia].
    destruct Hok as [fl Hw]. pose proof (rw_index _ _ Hw). lia. }
  assert (forall Q, Q oits k -> wp (match ip_requests p with
    | None => ret (-1) | Some (_, table) => let* head := lift (aget table 0) in ret (ipr_size head)
    end) Q k) as Hwp.
  { intros Q HQ. unfold oits in HQ. unfold requests_ok in Hok.
    destruct (ip_requests p) as [[addr t]|]; [|done]. destruct Hok as [fl Hw].
    pose proof (requests_wf_len _ _ Hw). apply wp_bind, wp_array; [lia|]. done. }
  apply Hwp. port_goal. rewrite ?(Z.eqb_refl ITS_SIZE_NONE); cbn [negb andb]. port_goal.
  apply wp_array; [rewrite request_sizes_alen; lia|]. rewrite ?(Z.eqb_refl ITS_SIZE_NONE); cbn [negb andb]. port_goal.
  eapply wp_ip_reference; [done|done|]. port_goal. apply wp_modify. cbn [other quiet].
  unfold OS_REFCNT_MAX_COUNT in Hrefs.
  set (k1 := set_ks_clock _ _). port_goal.
  assert (ks_ports k1 !! a = Some (set_io_references (io_references p + 1) p)) as Hp1
    by apply with_port_lookup.
  destruct ((anth ipc_table_requests (oits + 1) =? 0) || (it_requests_alloc k1 =? IPR_NULL)) eqn:Hb.
  - port_goal. eapply wp_ip_release; [exact Hp1|simpl; unfold OS_REFCNT_MAX_COUNT; lia|].
    port_goal. eexists. split; [unfold k1, with_port, set_ks_ports, tick, set_ks_clock; simpl;
      rewrite insert_insert_eq; reflexivity|].
    split; [split; [exact Hact|exact Hok|simpl; unfold OS_REFCNT_MAX_COUNT; lia]|].
    split; [done|]. done.
  - apply orb_false_iff in Hb as [Hsz _]. apply Z.eqb_neq in Hsz.
    assert (oits + 1 < 63) as Hlt.
    { destruct (decide (oits + 1 = 63)) as [He|]; [|lia]. rewrite He, request_sizes_last in Hsz. done. }
    eapply wp_mono.
    + apply (request_install_ok k1 a _ (oits + 1) (it_requests_alloc k1) Hp1);
        [exact Hact|exact Hok|simpl; unfold OS_REFCNT_MAX_COUNT; lia|lia|].
      simpl. unfold oits. by destruct (ip_requests p) as [[addr t]|].
    + intros kr k2 (->&p'&t'&fl'&->&Ha'&Hr'&Ht'&Hw'&Hne&Hm').
      exists p'. split; [unfold k1, with_port, set_ks_ports, tick, set_ks_clock; simpl;
        by rewrite insert_insert_eq|].
      split; [split; [done| |rewrite Hr'; simpl; unfold OS_REFCNT_MAX_COUNT; lia]|].
      { unfold requests_ok. rewrite Ht'. by exists fl'. }
      split; [done|]. split; [|done]. intros _ Hfull. unfold requests_full in Hfull. rewrite Ht' in Hfull.
      destruct fl' as [|i fl']; [done|].
      assert (0 < i < alen t') as Hi by (apply (rw_range _ _ Hw'), list_elem_of_here).
      apply (Hfull i Hi), (rw_free _ _ Hw'); [done|apply list_elem_of_here].
Qed.
End operations.

(** C16. Request tables refine finite maps: on an active port with a table in
    order, allocating a request records it under an unused non-zero index or
    reports a table that is really full, cancelling removes exactly that request
    and returns its send-once right stripped of the flag bits, and growing keeps every
    request under its index; the table stays in order and no assertion fails. *)
Theorem request_table_refines `{KernelConfig} `{Externals} `{RequestSizes}
    (a : Z) (op : req_op) (k : kst) (p : ipc_port) :
  ks_ports k !! a = Some p -> req_port p -> req_legal p op ->
  exists r p' n, req_exec (H2 := quiet) a op k = Done (r, with_port a p' (set_ks_clock n k)) /\
    req_port p' /\ req_spec (port_requests p) op r (port_requests p') /\
    (r = ReqFull -> requests_full p).
Proof.
  intros Hp Hok Hlegal.
  assert (wp (req_exec (H2 := quiet) a op) (fun r k' => exists p' n, k' = with_port a p' (set_ks_clock n k) /\
    req_port p' /\ req_spec (port_requests p) op r (port_requests p') /\
    (r = ReqFull -> requests_full p)) k) as Hw.
  { assert (set_ks_clock (ks_clock k) k = k) as Hk by (by destruct k). destruct op.
    - destruct Hlegal. eapply wp_mono; [by eapply (request_alloc_ok (H2 := quiet))|].
      intros r k' (p'&->&?&?&?). exists p', (ks_clock k). by rewrite Hk.
    - eapply wp_mono; [by eapply (request_cancel_ok (H2 := quiet))|].
      intros r k' (p'&->&?&Hs). exists p', (ks_clock k). rewrite Hk. split_and!; [done..|].
      intros ->. inversion Hs.
    - apply wp_bind. eapply wp_mono; [by apply request_grow_ok|]. intros kr k' (p'&->&?&Hm&_).
      apply wp_ret. exists p', (S (ks_clock k)). rewrite Hm. split_and!; [done..|constructor|done]. }
  destruct (wp_elim _ _ _ Hw) as (r&k'&Hrun&p'&n&->&?). by exists r, p', n.
Qed.


(** The search for a size stops at the first one that reaches the target. *)
Lemma request_grow_search_ok `{RequestSizes} target j n : forall its, 0 <= its <= j -> j < 63 ->
  target <= anth ipc_table_requests j -> (Z.to_nat (j - its) < n)%nat ->
  exists its', request_grow_search n target its = Done its' /\ its <= its' <= j /\
    target <= anth ipc_table_requests its'.
Proof.
  induction n as [|n IH]; intros its Hi Hj Ht Hn; [lia|]. cbn [request_grow_search].
  rewrite aget_in by (rewrite request_sizes_alen; lia). cbn [obind].
  assert (its + 2 <= anth ipc_table_requests its) by (apply request_sizes_min; lia).
  destruct (Z.eqb_spec (anth ipc_table_requests its) 0); [lia|]. cbn [negb andb].
  destruct (Z.ltb_spec (anth ipc_table_requests its) target) as [Hlt|Hge].
  - destruct (decide (its = j)) as [->|]; [lia|].
    destruct (IH (its + 1) ltac:(lia) Hj Ht ltac:(lia)) as (its'&->&?&?). exists its'. split; [done|]. lia.
  - exists its. split; [done|]. lia.
Qed.

(** Growing past the next size is silently dropped: when a port already has
    a request table and the requested size is larger than the next entry of
    [ipc_table_requests], [ipc_port_request_grow] allocates a table of the
    requested size, finds that it does not follow the current one, frees it
    and returns [KERN_SUCCESS] with the table as it was, although no other
    thread touched it. *)
Theorem request_grow_skips_sizes `{KernelConfig} `{Externals} `{RequestSizes}
    (a target addr : Z) (t : list ipc_port_request) (k : kst) (p : ipc_port) :
  ks_ports k !! a = Some p -> req_port p -> ip_requests p = Some (addr, t) ->
  (forall k', it_requests_alloc k' <> IPR_NULL) ->
  ipr_size (anth t 0) + 1 < 63 ->
  anth ipc_table_requests (ipr_size (anth t 0) + 1) < target <= anth ipc_table_requests 62 ->
  target <> ITS_SIZE_NONE ->
  exists p', ipc_port_request_grow (H2 := quiet) a target k =
      Done (KERN_SUCCESS, with_port a p' (tick k)) /\ ip_requests p' = Some (addr, t).
Proof.
  intros Hp [Hact Hok Hrefs] Hr Hmem Hi Ht Hnone. unfold requests_ok in Hok. rewrite Hr in Hok.
  destruct Hok as [fl Hw]. pose proof (requests_wf_len _ _ Hw). pose proof (rw_index _ _ Hw).
  set (oits := ipr_size (anth t 0)) in *.
  assert (oits + 1 + 2 <= anth ipc_table_requests (oits + 1)) by (apply request_sizes_min; lia).
  assert (anth ipc_table_requests oits < anth ipc_table_requests (oits + 1))
    by (apply request_sizes_lt; lia).
  destruct (request_grow_search_ok target 62 (S (length ipc_table_requests)) (oits + 1))
    as (its&Hs&Hits&Hge); [lia|lia|lia|pose proof request_sizes_alen; unfold alen in *; lia|].
  assert (its <> oits + 1) by (intros ->; lia).
  assert (its + 2 <= anth ipc_table_requests its) by (apply request_sizes_min; lia).
  enough (wp (ipc_port_request_grow (H2 := quiet) a target) (fun kr k' => kr = KERN_SUCCESS /\ exists p',
    k' = with_port a p' (tick k) /\ ip_requests p' = Some (addr, t)) k) as Hwp.
  { destruct (wp_elim _ _ _ Hwp) as (?&?&?&->&p'&->&?). by exists p'. }
  unfold ipc_port_request_grow. port_goal. rewrite Hr. port_goal. apply wp_array; [lia|]. port_goal.
  assert ((target =? ITS_SIZE_NONE) = false) as -> by (by apply Z.eqb_neq).
  unfold has_requests. rewrite Hr, bool_decide_true by done. cbn [negb andb]. port_goal.
  apply wp_array; [rewrite request_sizes_alen; lia|]. port_goal.
  destruct (Z.leb_spec target (anth ipc_table_requests (ipr_size (anth t 0)))) as [Hle|]; [fold oits in Hle; lia|].
  port_goal. apply (wp_lift _ its); [exact Hs|]. port_goal.
  apply wp_array; [rewrite request_sizes_alen; lia|].
  destruct (Z.eqb_spec (anth ipc_table_requests its) 0); [lia|]. cbn [andb]. port_goal.
  eapply wp_ip_reference; [done|done|]. port_goal. apply wp_modify. cbn [other quiet].
  set (k1 := set_ks_clock _ _). port_goal.
  assert (ks_ports k1 !! a = Some (set_io_references (io_references p + 1) p)) as Hp1
    by apply with_port_lookup.
  destruct (Z.eqb_spec (it_requests_alloc k1) IPR_NULL) as [Hz|]; [by destruct (Hmem _ Hz)|].
  cbn [orb]. unfold request_install. port_goal. simpl ip_requests. rewrite Hr.
  assert (ip_active (set_io_references (io_references p + 1) p) = true) as -> by exact Hact.
  rewrite bool_decide_true by done. cbn [andb]. port_goal. apply wp_array; [lia|].
  destruct (Z.eqb_spec (ipr_size (anth t 0) + 1) its) as [He|]; [fold oits in He; lia|]. port_goal.
  unfold OS_REFCNT_MAX_COUNT in Hrefs.
  eapply wp_ip_release; [exact Hp1|simpl; unfold OS_REFCNT_MAX_COUNT; lia|].
  port_goal. split; [done|]. eexists. split; [|shelve].
  unfold k1, with_port, set_ks_ports, tick, set_ks_clock; simpl. rewrite insert_insert_eq. reflexivity.
  Unshelve. exact Hr.
Qed.

(** ** Instances *)
Definition small_4k_requests : list Z :=
  match @ipc_table_init RELEASE small_4k with Done (_, r) => r | _ => [] end.
Lemma small_4k_requests_ok : requests_contract small_4k_requests = true.
Proof. vm_compute. reflexivity. Qed.
Definition SMALL_REQUESTS : RequestSizes :=
  {| ipc_table_requests := small_4k_requests; ipc_table_requests_ok := small_4k_requests_ok |}.

(** A port whose table has the two elements of the smallest size. *)
Definition request_port : ipc_port := set_ip_requests (Some (0x4000, [mk_ipr 1 0; mk_ipr 0 0])) fresh_port.

Lemma request_port_ok : @req_port SMALL_REQUESTS request_port.
Proof.
  split; [reflexivity| |simpl; unfold OS_REFCNT_MAX_COUNT; lia].
  exists [1]. split.
  - simpl. lia.
  - vm_compute. reflexivity.
  - split; reflexivity.
  - apply NoDup_singleton.
  - intros i ->%list_elem_of_singleton. change (alen _) with 2. lia.
  - intros i Hi. change (alen _) with 2 in Hi. assert (i = 1) as -> by lia.
    split; [intros _; apply list_elem_of_here|reflexivity].
Qed.

Lemma request_table_refines_witness :
  exists r p' n, @req_exec DEVELOPMENT plain_externals SMALL_REQUESTS quiet 0x5000
    (ReqAlloc 0x203 0x6000 true true) (one_port request_port)
  = Done (r, with_port 0x5000 p' (set_ks_clock n (one_port request_port))) /\
    req_spec (port_requests request_port) (ReqAlloc 0x203 0x6000 true true) r (port_requests p').
Proof.
  destruct (@request_table_refines DEVELOPMENT plain_externals SMALL_REQUESTS 0x5000
    (ReqAlloc 0x203 0x6000 true true) (one_port request_port) request_port) as (r&p'&n&Hrun&_&Hs&_).
  - reflexivity.
  - apply request_port_ok.
  - split; intros [=].
  - exists r, p', n. split; [exact Hrun|exact Hs].
Defined.


Lemma request_grow_skips_sizes_witness :
  exists p', @ipc_port_request_grow DEVELOPMENT plain_externals SMALL_REQUESTS quiet 0x5000 8
      (one_port request_port) = Done (KERN_SUCCESS, with_port 0x5000 p' (tick (one_port request_port))) /\
    ip_requests p' = Some (0x4000, [mk_ipr 1 0; mk_ipr 0 0]).
Proof.
  apply (@request_grow_skips_sizes DEVELOPMENT plain_externals SMALL_REQUESTS 0x5000 8 0x4000
    [mk_ipr 1 0; mk_ipr 0 0] (one_port request_port) request_port).
  - reflexivity.
  - apply request_port_ok.
  - reflexivity.
  - intros k' [=].
  - reflexivity.
  - vm_compute. split; [reflexivity|intros [=]].
  - intros [=].
Defined.
