(* ===== verification/IpcPortLife.v ===== *)
(** * The life of a port ([osfmk/ipc/ipc_port.c], [ipc_pset.c])

    Initialisation of ports and port sets, the loss of a receive right
    (in limbo, or for good), destruction with its notifications, watchport
    elements and special ports.  Calls into the turnstile, importance and
    kernel-object code are recorded in the trace. *)

From S2P Require Import Prelude MachPort Prng OsRefcnt IpcTable IpcHash IpcState IpcSpace IpcEntry IpcPort IpcChain IpcMqueue IpcRequest.

Definition IPC_PORT_ADJUST_SR_ALLOW_SYNC_LINKAGE : Z := 0x1.

(** A port as the zone allocator returns it, all zeroes. *)
Definition zero_port : ipc_port :=
  mk_ipc_port 0 0 false false false false false false false 0 false false false false false false
    false false [] 0 0 0 0 0 0 0 0 0 0 None 0 0 0 0 0 0 [] false false.

(** ** Watchport elements *)
Definition ipc_port_update_watchport_elem `{KernelConfig} (a we : Z) : M kst Z :=
  let* p := get_port a in
  massert (negb (ip_specialreply p)) "!port->ip_specialreply" ;;*
  let old_we := if ip_has_watchport p then ip_twe p else 0 in
  put_port a (if negb (we =? 0) then set_ip_twe we (set_ip_has_watchport true p)
              else set_ip_twe 0 (set_ip_has_watchport false p)) ;;*
  ret old_we.

Definition ipc_port_clear_watchport_elem_internal `{KernelConfig} (a : Z) : M kst Z :=
  let* p := get_port a in
  if negb (ip_has_watchport p) then ret 0 else ipc_port_update_watchport_elem a 0.

Definition ipc_port_has_prdrequest (p : ipc_port) : bool :=
  if ip_specialreply p then false else negb (ip_pdrequest p =? IP_NULL).

Section operations.
Context `{KernelConfig} `{Externals} `{RequestSizes}.

(** ** Initialisation *)
Definition ipc_port_init (a space flags name : Z) : M kst unit :=
  let* p := get_port a in
  let p := if has flags IPC_PORT_INIT_FILTER_MESSAGE
           then set_io_bits (Z.lor (io_bits p) IP_BIT_FILTER_MSG) p else p in
  let p := set_ip_waitq_valid true p in (* waitq_init *)
  let p := if has flags IPC_PORT_INIT_TG_BLOCK_TRACKING then set_ip_tg_block_tracking true p else p in
  let p := if has flags IPC_PORT_INIT_SPECIAL_REPLY
           then set_ip_immovable_receive true (set_ip_specialreply true p) else p in
  let p := ipc_mqueue_init p in
  let p := set_ip_receiver space (set_ip_receiver_name name p) in
  put_port a (if has flags IPC_PORT_INIT_MAKE_SEND_RIGHT
              then set_ip_mscount 1 (set_ip_srights 1 p) else p).

(** [a] is where the zone allocator put the port, [IP_NULL] on failure. *)
Definition ipc_port_alloc_special (a space flags : Z) : M kst Z :=
  if a =? IP_NULL then ret IP_NULL
  else
    put_port a (set_io_references 1 (set_io_bits (io_makebits true IOT_PORT 0) zero_port)) ;;*
    ipc_port_init a space flags MACH_PORT_SPECIAL_DEFAULT ;;*
    ret a.

(** ** Losing the receiver; returns whether messages are left to reap. *)
Definition ipc_port_clear_receiver (a : Z) (should_destroy : bool) : M kst bool :=
  let* p := get_port a in
  when (ip_in_pset p) (waitq_unlink_all_locked a None) ;;*
  ipc_mqueue_changed (if ip_in_a_space p then ip_get_receiver p else IS_NULL) a ;;*
  let* p := get_port a in
  let p := set_imq_seqno 0 (set_ip_mscount 0 p) in
  let p := set_ip_strict_guard false (set_ip_guarded false (set_ip_context 0 p)) in
  let p := set_ip_immovable_receive false p in
  if should_destroy then
    let* t := ipc_port_timestamp in
    let p := set_io_bits (Z.ldiff (io_bits p) IO_BITS_ACTIVE) p in
    put_port a (set_ip_timestamp t (set_ip_receiver_name MACH_PORT_NULL p)) ;;*
    ipc_mqueue_destroy_locked a
  else
    put_port a (set_ip_destination IP_NULL (set_ip_receiver_name MACH_PORT_NULL p)) ;;*
    ret false.

(** ** Destruction *)

(** The port-destroyed request is armed: the port goes to the backup. *)
Definition destroy_to_backup (a pdrequest : Z) (service_port reap_msgs : bool) : M kst unit :=
  massert (negb reap_msgs) "reap_msgs == false" ;;*
  let* p := get_port a in
  when service_port
    (massert (negb (ip_splabel p =? 0)) "port->ip_splabel != NULL" ;;*
     when (ipc_service_port_label_is_special_pdrequest (ip_splabel p))
       (emit "ipc_service_port_label_set_flag" [ip_splabel p; ISPL_FLAGS_SEND_PD_NOTIFICATION])) ;;*
  emit "ipc_port_send_turnstile_recompute_push_locked" [a] ;;*
  ipc_notify_port_destroyed pdrequest a.

(** It is not: the port is dead. *)
Definition destroy_for_good (a : Z) (special_reply service_port reap_msgs : bool) : M kst unit :=
  let* nsrequest := ipc_notify_no_senders_prepare a in
  let* p := get_port a in
  let splabel := if negb (ip_is_kolabeled p) then ip_splabel p else 0 in
  when (negb (ip_is_kolabeled p))
    (put_port a (set_ip_service_port false (set_ip_splabel 0 p))) ;;*
  emit "ipc_port_send_turnstile_recompute_push_locked" [a] ;;*
  when special_reply
    (emit "ipc_port_adjust_special_reply_port" [a; IPC_PORT_ADJUST_SR_ALLOW_SYNC_LINKAGE]) ;;*
  when (negb (splabel =? 0))
    (emit "ipc_service_port_label_dealloc" [splabel; Z.b2z service_port]) ;;*
  when reap_msgs (emit "ipc_kmsg_reap_delayed" []) ;;*
  when (negb (ns_notify nsrequest =? IP_NULL))
    (massert (negb (ns_is_kobject nsrequest)) "!nsrequest.ns_is_kobject" ;;*
     ipc_notify_send_once_and_unlock (ns_notify nsrequest)) ;;*
  ipc_port_dnnotify a ;;*
  emit "ipc_kobject_destroy" [a] ;;*
  ip_release a.

(** The boosts the port carried, and the task they are taken from. *)
Definition destroy_importance (a pdrequest : Z) : M kst (Z * Z) :=
  let* p := get_port a in
  if ip_tempowner p then
    massert no_thread_assertions "top" ;;*
    let imp_task := ip_get_imp_task p in
    if negb (imp_task =? IIT_NULL) then
      put_port a (set_ip_kobject IIT_NULL p) ;;*
      ret (imp_task, ip_impcount p)
    else ret (IIT_NULL, 0)
  else
    when (negb (pdrequest =? IP_NULL)) (put_port a (set_ip_tempowner true p)) ;;*
    ret (IIT_NULL, ip_impcount p).

Definition destroy_drop_boosts (release_imp_task assertcnt : Z) : M kst unit :=
  if negb (release_imp_task =? IIT_NULL) then
    when (0 <? assertcnt)
      (massert no_thread_assertions "top" ;;*
       massert (ipc_importance_task_is_any_receiver_type release_imp_task)
         "ipc_importance_task_is_any_receiver_type(release_imp_task)" ;;*
       emit "ipc_importance_task_drop_internal_assertion" [release_imp_task; assertcnt]) ;;*
    emit "ipc_importance_task_release" [release_imp_task]
  else
    when ((0 <? assertcnt) && no_thread_assertions &&
          ipc_importance_task_is_any_receiver_type current_task_imp_base)
      (emit "ipc_importance_task_drop_internal_assertion" [current_task_imp_base; assertcnt]).

Definition ipc_port_destroy (a : Z) : M kst unit :=
  let* p := get_port a in
  let special_reply := ip_specialreply p in
  let service_port := ip_service_port p in
  require_ip_active p ;;*
  put_port a (set_imq_context 0 p) ;;*
  let* twe := ipc_port_clear_watchport_elem_internal a in
  let* p := get_port a in
  massert (negb (ip_has_watchport p)) "!port->ip_has_watchport" ;;*
  let pdrequest := if negb special_reply then ip_pdrequest p else IP_NULL in
  (if negb special_reply then put_port a (set_ip_pdrequest IP_NULL p)
   else if ip_tempowner p then panic "ipc_port_destroy: invalid state"
   else ret tt) ;;*
  let* (release_imp_task, assertcnt) := destroy_importance a pdrequest in
  let* reap_msgs := ipc_port_clear_receiver a (pdrequest =? IP_NULL) in
  let* p := get_port a in
  massert (negb (ip_in_pset p)) "!ip_in_pset(port)" ;;*
  massert (ip_mscount p =? 0) "port->ip_mscount == 0" ;;*
  (if negb (pdrequest =? IP_NULL) then destroy_to_backup a pdrequest service_port reap_msgs
   else destroy_for_good a special_reply service_port reap_msgs) ;;*
  when (negb (twe =? 0)) (emit "task_watchport_elem_deallocate" [twe]) ;;*
  destroy_drop_boosts release_imp_task assertcnt.

(** ** Naked receive rights and special ports *)
Definition ipc_port_release_receive (a : Z) : M kst unit :=
  if negb (IP_VALID a) then ret tt
  else
    let* p := get_port a in
    require_ip_active p ;;*
    massert (negb (ip_in_a_space p)) "!ip_in_a_space(port)" ;;*
    let dest := ip_get_destination p in
    ipc_port_destroy a ;;*
    when (negb (dest =? IP_NULL))
      (emit "ipc_port_send_turnstile_complete" [dest] ;;* ip_release dest).

Definition ipc_port_dealloc_special_and_unlock (a space : Z) : M kst unit :=
  let* p := get_port a in
  require_ip_active p ;;*
  massert (ip_in_space p space) "ip_in_space(port, space)" ;;*
  put_port a (set_imq_seqno 0 (set_ip_mscount 0
    (set_ip_receiver IS_NULL (set_ip_receiver_name MACH_PORT_NULL p)))) ;;*
  ipc_port_destroy a.

(** ** Port sets *)
Definition ips_release (a : Z) : M kst unit :=
  let* s := get_pset a in
  let* n := lift (os_ref_release_barrier_internal (ips_references s)) in
  put_pset a (set_ips_references n s) ;;*
  when (n =? 0) (del_pset a).

Definition ipc_pset_destroy (space a : Z) : M kst unit :=
  let* s := get_pset a in
  massert (ips_active s) "ips_active(pset)" ;;*
  put_pset a (set_ips_io_bits (Z.ldiff (ips_io_bits s) IO_BITS_ACTIVE) s) ;;*
  ipc_mqueue_changed space a ;;*
  modify (fun k => set_ks_ports (leave_pset a <$> ks_ports k) k) ;;*
  ips_release a.

(** ** Watchport elements, conditionally *)
Definition ipc_port_watchport_elem (p : ipc_port) : M kst Z :=
  if ip_has_watchport p then
    massert (negb (ip_specialreply p)) "!port->ip_specialreply" ;;* ret (ip_twe p)
  else ret 0.
Definition ipc_port_clear_watchport_elem_internal_conditional_locked (a elem : Z)
    : M kst kern_return_t :=
  let* p := get_port a in
  let* cur := ipc_port_watchport_elem p in
  if negb (cur =? elem) then ret KERN_FAILURE
  else
    ipc_port_clear_watchport_elem_internal a ;;*
    emit "ipc_port_send_turnstile_recompute_push_locked" [a] ;;*
    ret KERN_SUCCESS.
Definition ipc_port_replace_watchport_elem_conditional_locked (a old_elem new_elem : Z)
    : M kst kern_return_t :=
  let* p := get_port a in
  if ip_specialreply p then ret KERN_FAILURE
  else
    let* cur := ipc_port_watchport_elem p in
    if negb (cur =? old_elem) then ret KERN_FAILURE
    else
    ipc_port_update_watchport_elem a new_elem ;;*
    emit "ipc_port_send_turnstile_recompute_push_locked" [a] ;;*
    ret KERN_SUCCESS.
End operations.
