(* ===== verification/DestroyProps.v ===== *)
(** * The end of a port

    [ipc_port_destroy] on a port without a port-destroyed request leaves it
    dead, with every dead-name request notified once; with such a request the
    port survives in limbo and the request is notified instead. *)

From S2P Require Import Prelude MachPort Prng OsRefcnt IpcTable IpcHash IpcState IpcSpace EntryFacts IpcEntry EntrySpec IpcPort IpcChain IpcMqueue PortSpec Samples IpcRequest RequestProps IpcPortLife.

(** The notification a slot of the request table calls for. *)
Definition dead_name_event (r : ipc_port_request) : option event :=
  if MACH_PORT_VALID (ipr_name r) && IP_VALID (IPR_SOR_PORT (ipr_soright r))
  then Some (Call "mach_notify_dead_name" [IPR_SOR_PORT (ipr_soright r); ipr_name r]) else None.
Definition dead_name_events (p : ipc_port) : list event :=
  match ip_requests p with
  | Some (_, table) => omap dead_name_event (drop 1 table)
  | None => []
  end.
(** The notifications of a trace. *)
Definition is_notification (e : event) : bool :=
  let '(Call f _) := e in
  bool_decide (f = "mach_notify_dead_name" \/ f = "mach_notify_port_destroyed" \/ f = "mach_notify_no_senders" \/
     f = "mach_notify_send_once" \/ f = "mach_notify_port_deleted" \/ f = "mach_notify_send_possible").
Definition notified (k k' : kst) (l : list event) : Prop :=
  exists l', ks_trace k' = ks_trace k ++ l' /\ filter is_notification l' = l.

Lemma notified_refl k : notified k k [].
Proof. exists []. by rewrite app_nil_r. Qed.
Lemma notified_trans k1 k2 k3 l l' : notified k1 k2 l -> notified k2 k3 l' -> notified k1 k3 (l ++ l').
Proof.
  intros (x&Hx&<-) (y&Hy&<-). exists (x ++ y). split; [by rewrite Hy, Hx, app_assoc|]. apply filter_app.
Qed.
Lemma notified_emit k f args k' : ks_trace k' = ks_trace k ++ [Call f args] ->
  notified k k' (filter is_notification [Call f args]).
Proof. intros Ht. by exists [Call f args]. Qed.

Section destroy.
Context `{KernelConfig} `{Externals} `{RequestSizes}.

(** ** Delivery of the dead-name requests *)
Definition traced (l : list event) (k : kst) : kst := set_ks_trace (ks_trace k ++ l) k.
Lemma traced_nil k : traced [] k = k.
Proof. unfold traced. rewrite app_nil_r. by destruct k. Qed.
Lemma traced_app l l' k : traced l' (traced l k) = traced (l ++ l') k.
Proof. unfold traced. simpl. by rewrite app_assoc. Qed.

Lemma dnnotify_scan_ok table : forall count index k,
  0 <= index -> index + Z.of_nat count = alen table ->
  dnnotify_scan count table index k = Done (tt, traced (omap dead_name_event (drop (Z.to_nat index) table)) k).
Proof.
  induction count as [|count IH]; intros index k Hi Hc; simpl.
  - rewrite drop_ge by (unfold alen in Hc; lia). by rewrite traced_nil.
  - unfold bind at 1, lift. rewrite aget_in by lia.
    assert (drop (Z.to_nat index) table = anth table index :: drop (Z.to_nat (index + 1)) table) as ->.
    { replace (Z.to_nat (index + 1)) with (S (Z.to_nat index)) by lia. apply drop_S, list_lookup_lookup_total_lt.
      unfold alen in Hc. lia. }
    cbn [omap list_omap]. unfold dead_name_event at 1.
    destruct (MACH_PORT_VALID _ && IP_VALID _) eqn:Hv; unfold bind, when; simpl; rewrite IH by lia.
    + unfold traced. simpl. by rewrite <- app_assoc.
    + done.
Qed.

Lemma dnnotify_ok k a p :
  ks_ports k !! a = Some p -> ip_active p = false ->
  match ip_requests p with
  | Some (_, table) => 0 <= ipr_size (anth table 0) < 63 /\ alen table = anth ipc_table_requests (ipr_size (anth table 0))
  | None => True
  end -> ipc_port_dnnotify a k = Done (tt, traced (dead_name_events p) k).
Proof.
  intros Hp Ha Hok. unfold ipc_port_dnnotify, dead_name_events. unfold bind at 1, get_port. rewrite Hp.
  unfold bind at 1, massert, lift. rewrite kassert_true by by rewrite Ha.
  destruct (ip_requests p) as [[addr table]|]; [|by rewrite traced_nil]. destruct Hok as [Hs Hlen].
  assert (0 < alen table) as Hl by (rewrite Hlen; pose proof (request_sizes_min (ipr_size (anth table 0)) Hs); lia).
  unfold bind at 1. rewrite aget_in by lia. unfold bind at 1. rewrite aget_in.
  - rewrite <- Hlen. rewrite dnnotify_scan_ok by lia. done.
  - pose proof request_sizes_alen. lia.
Qed.

(** ** Losing the receiver *)

(** A plain port: not a reply port, no watchport, nobody waits for its senders,
    and no temporary owner. *)
Record plain_port (p : ipc_port) : Prop := {
  pp_active : ip_active p = true;
  pp_special : ip_specialreply p = false;
  pp_watch : ip_has_watchport p = false;
  pp_ns : ip_nsrequest p = IP_NULL;
  pp_owner : ip_tempowner p = false;
  pp_refs : 1 <= io_references p <= OS_REFCNT_MAX_COUNT;
  pp_requests : match ip_requests p with
    | Some (_, table) => 0 <= ipr_size (anth table 0) < 63 /\ alen table = anth ipc_table_requests (ipr_size (anth table 0))
    | None => True
    end;
}.

(** What [ipc_port_clear_receiver] makes of a port that is destroyed at time
    [t], or that goes to limbo. *)
Definition unlinked (p : ipc_port) : ipc_port := set_ip_sync_link_state PORT_SYNC_LINK_ANY (set_ip_psets [] p).
Definition cleared (p : ipc_port) : ipc_port :=
  set_ip_immovable_receive false (set_ip_strict_guard false (set_ip_guarded false (set_ip_context 0
    (set_imq_seqno 0 (set_ip_mscount 0 (unlinked p)))))).
Definition buried (t : Z) (p : ipc_port) : ipc_port :=
  set_ip_psets [] (set_ip_waitq_valid false (set_imq_msgcount 0 (set_imq_messages [] (set_ip_fullwaiters false
    (set_ip_timestamp t (set_ip_receiver_name MACH_PORT_NULL
      (set_io_bits (Z.ldiff (io_bits p) IO_BITS_ACTIVE) (cleared p)))))))).
Definition limbo_of (p : ipc_port) : ipc_port :=
  set_ip_destination IP_NULL (set_ip_receiver_name MACH_PORT_NULL (cleared p)).

(** [k'] has the port [p'] at [a] and differs from [k] otherwise in the trace and
    the timestamp only. *)
Definition port_now (k k' : kst) (a : Z) (p' : ipc_port) : Prop :=
  ks_ports k' = <[a := p']> (ks_ports k) /\ ks_space k' = ks_space k /\ ks_psets k' = ks_psets k.

Lemma port_now_lookup k k' a p' : port_now k k' a p' -> ks_ports k' !! a = Some p'.
Proof. intros [-> _]. apply lookup_insert_eq. Qed.
Lemma port_now_trans k k1 k2 a p1 p2 : port_now k k1 a p1 -> port_now k1 k2 a p2 -> port_now k k2 a p2.
Proof. intros (E1&F1&G1) (E2&F2&G2). split; [by rewrite E2, E1, insert_insert_eq|]. split; congruence. Qed.
Lemma port_now_traced k k1 a p1 l : port_now k k1 a p1 -> port_now k (traced l k1) a p1.
Proof. done. Qed.

(** The threads of [k], those that wait on [a] for one of the events sent away. *)
Definition restarted (a : Z) (ev : wait_event) (th : thread) : thread :=
  if decide (waits a ev th) then woken THREAD_RESTART th else th.
Definition roused (a : Z) (th : thread) : thread := restarted a IPC_MQUEUE_FULL (restarted a IPC_MQUEUE_RECEIVE th).
(** A sender that blocks on the port holds its turnstile. *)
Definition turnstiled (k : kst) (a : Z) : Prop :=
  forall t th, ks_threads k !! t = Some th -> waits a IPC_MQUEUE_FULL th -> th_turnstile th = Some a.
(** Knotes are attached to a port only while it is in a space. *)
Definition knotes_ok (a : Z) (p : ipc_port) : Prop := klist_first a = true -> ip_get_receiver p <> IS_NULL.

Lemma wp_when_note b f args k (Q : unit -> kst -> Prop) :
  is_notification (Call f args) = false ->
  (forall l, filter is_notification l = [] -> Q tt (traced l k)) -> wp (when b (emit f args)) Q k.
Proof.
  intros Hf HQ. destruct b.
  - apply wp_emit. apply (HQ [Call f args]). rewrite filter_cons, decide_False; [done|]. rewrite Hf. intros [].
  - apply wp_ret. rewrite <- (traced_nil k). by apply HQ.
Qed.
Lemma wp_note f args k (Q : unit -> kst -> Prop) :
  is_notification (Call f args) = false ->
  (forall l, filter is_notification l = [] -> Q tt (traced l k)) -> wp (emit f args) Q k.
Proof. apply (wp_when_note true). Qed.
Lemma filter_nowhere (P : Z -> Prop) `{forall x, Decision (P x)} (l : list Z) : (forall x, ~ P x) -> filter P l = [].
Proof. intros HP. induction l as [|x l IH]; [done|]. by rewrite filter_cons_False. Qed.

(** Nobody waits for a message of the port any more. *)
Lemma changed_ok {B} k a p (n : M kst B) Q :
  ks_ports k !! a = Some p -> knotes_ok a p ->
  (forall k', port_now k k' a (unlinked p) -> ks_timestamp k' = ks_timestamp k -> notified k k' [] ->
     ks_threads k' = restarted a IPC_MQUEUE_RECEIVE <$> ks_threads k -> ks_reap k' = ks_reap k -> wp n Q k') ->
  wp (when (ip_in_pset p) (waitq_unlink_all_locked a None) ;;*
      ipc_mqueue_changed (if ip_in_a_space p then ip_get_receiver p else IS_NULL) a ;;* n) Q k.
Proof.
  intros Hp Hkn HQ. set (p1 := set_ip_psets [] p). apply wp_bind.
  assert (wp (when (ip_in_pset p) (waitq_unlink_all_locked a None)) (fun _ k' => k' = with_port a p1 k) k) as Hun.
  { unfold ip_in_pset. case_bool_decide as Hps.
    - apply (wp_mod_port _ _ p); [done|]. unfold p1. rewrite filter_nowhere; [done|]. by intros x [=].
    - apply wp_ret. unfold p1. rewrite <- Hps, with_port_id; [done|]. rewrite Hp. by destruct p. }
  eapply wp_mono; [exact Hun|]. intros [] ? ->. set (k1 := with_port a p1 k).
  assert (ks_ports k1 !! a = Some p1) as Hp1 by apply with_port_lookup.
  apply wp_bind. unfold ipc_mqueue_changed. apply wp_bind, wp_gets. rewrite Hp1. apply wp_bind.
  assert (ip_get_receiver p = (if ip_in_a_space p then ip_get_receiver p else IS_NULL)) as <-
    by (unfold ip_get_receiver; by destruct (ip_in_a_space p)).
  assert (wp (when (ipc_port_has_klist p1 && klist_first a)
    (massert (negb (ip_get_receiver p =? IS_NULL)) "space" ;;* emit "knote_vanish" [a; ip_get_receiver p]))
    (fun _ k' => exists l, filter is_notification l = [] /\ k' = traced l k1) k1) as Hvan.
  { destruct (ipc_port_has_klist p1 && klist_first a) eqn:Hb.
    - apply andb_true_iff in Hb as [_ Hb]. apply wp_bind, wp_massert; [by apply negb_true_iff, Z.eqb_neq, Hkn|].
      apply wp_emit. by exists [Call "knote_vanish" [a; ip_get_receiver p]].
    - apply wp_ret. exists []. by rewrite traced_nil. }
  eapply wp_mono; [exact Hvan|]. intros [] k2 (l&Hl&->). apply wp_bind.
  rewrite bool_decide_true by done. unfold ipc_port_adjust_sync_link_state_locked.
  apply wp_bind, (wp_get_port _ _ p1); [done|].
  apply wp_bind, wp_when_note; [done|]. intros l1 F1. rewrite traced_app.
  apply wp_bind, wp_when_note; [done|]. intros l2 F2. rewrite traced_app.
  apply wp_bind, wp_ret, wp_bind, wp_ret, wp_put_port, wp_modify. apply HQ; try done.
  - split; [|done]. simpl. by rewrite insert_insert_eq.
  - exists (((l ++ l1) ++ l2)). split; [done|]. by rewrite !filter_app, Hl, F1, F2.
Qed.

Lemma destroy_queue_ok k a p Q :
  ks_ports k !! a = Some p ->
  (forall reap k', port_now k k' a (set_ip_psets [] (set_ip_waitq_valid false (set_imq_msgcount 0
       (set_imq_messages [] (set_ip_fullwaiters false p))))) -> ks_timestamp k' = ks_timestamp k ->
     ks_trace k' = ks_trace k -> ks_reap k' = ks_reap k ++ imq_messages p ->
     (turnstiled k a -> ks_threads k' = restarted a IPC_MQUEUE_FULL <$> ks_threads k) -> Q reap k') ->
  wp (ipc_mqueue_destroy_locked a) Q k.
Proof.
  intros Hp HQ. unfold ipc_mqueue_destroy_locked. apply wp_bind, (wp_get_port _ _ p); [done|]. apply wp_bind, wp_gets.
  assert (turnstiled k a -> has_send_turnstile a k = false -> restarted a IPC_MQUEUE_FULL <$> ks_threads k = ks_threads k) as Hno.
  { intros Ht [_ Hb%bool_decide_eq_false]%orb_false_iff. apply map_eq. intros t. rewrite lookup_fmap.
    destruct (ks_threads k !! t) as [th|] eqn:Hth; [|done]. simpl. unfold restarted. case_decide as Hw; [|done].
    destruct Hb. exists t, th. split; [done|]. by eapply Ht. }
  apply wp_bind. destruct (has_send_turnstile a k) eqn:Hb.
  - apply wp_modify. apply wp_bind, wp_gets, wp_bind, wp_modify, wp_bind, wp_put_port, wp_ret. by apply HQ.
  - apply wp_ret. apply wp_bind, wp_gets, wp_bind, wp_modify, wp_bind, wp_put_port, wp_ret. apply HQ; try done.
    intros Ht. by rewrite Hno.
Qed.

Lemma clear_receiver_dead k a p Q :
  ks_ports k !! a = Some p -> knotes_ok a p ->
  (forall reap k', port_now k k' a (buried (ks_timestamp k) p) -> notified k k' [] ->
     ks_timestamp k' = u32 (ks_timestamp k + 1) -> ks_reap k' = ks_reap k ++ imq_messages p ->
     (turnstiled k a -> ks_threads k' = roused a <$> ks_threads k) -> Q reap k') ->
  wp (ipc_port_clear_receiver a true) Q k.
Proof.
  intros Hp Hkn HQ. unfold ipc_port_clear_receiver. apply wp_bind, (wp_get_port _ _ p); [done|].
  apply (changed_ok k a p); [done..|]. intros k1 (E1&F1&G1) T1 N1 Th1 R1.
  apply wp_bind, (wp_get_port _ _ (unlinked p)); [rewrite E1; apply lookup_insert_eq|].
  unfold ipc_port_timestamp. apply wp_bind, wp_bind, wp_gets. apply wp_bind, wp_modify, wp_ret.
  rewrite T1. apply wp_bind, wp_put_port. set (p2 := set_ip_receiver _ _).
  apply (destroy_queue_ok _ _ p2); [apply with_port_lookup|]. intros reap k2 (E2&F2&G2) T2 N2 R2 Th2. apply HQ.
  - split; [|simpl in *; split; congruence]. rewrite E2. simpl. by rewrite E1, !insert_insert_eq.
  - destruct N1 as (l&Hl&Hf). exists l. by rewrite N2.
  - by rewrite T2.
  - rewrite R2. simpl. by rewrite R1.
  - intros Ht. rewrite Th2; simpl.
    + rewrite Th1, <- map_fmap_compose. done.
    + intros t th Hth Hw. simpl in Hth. rewrite Th1, lookup_fmap in Hth. destruct (ks_threads k !! t) as [th0|] eqn:Hth0; [|done].
      injection Hth as <-. unfold restarted in *. case_decide; [done|]. by eapply Ht.
Qed.

(** ** Destruction *)

(** The last reference frees the port. *)
Definition after_release (p : ipc_port) : option ipc_port :=
  if io_references p =? 1 then None else Some (set_io_references (io_references p - 1) p).

Lemma release_ok k a p Q :
  ks_ports k !! a = Some p -> ip_active p = false -> 1 <= io_references p <= OS_REFCNT_MAX_COUNT ->
  Q tt (set_ks_ports (partial_alter (fun _ => after_release p) a (ks_ports k)) k) -> wp (ip_release a) Q k.
Proof.
  intros Hp Ha Hr HQ. unfold after_release in HQ. destruct (Z.eqb_spec (io_references p) 1) as [H1'|].
  - by apply (wp_ip_release_last _ _ p).
  - apply (wp_ip_release _ _ p); [done|lia|]. exact HQ.
Qed.

Lemma notified_traced k k1 l l' :
  notified k k1 l -> filter is_notification l' = [] -> notified k (traced l' k1) l.
Proof. intros (x&Hx&Hf) Hl. exists (x ++ l'). simpl. rewrite Hx, filter_app, Hf, Hl. by rewrite app_assoc, app_nil_r. Qed.

(** The dead port without its label. *)
Definition unlabelled (p : ipc_port) : ipc_port :=
  if ip_is_kolabeled p then p else set_ip_service_port false (set_ip_splabel 0 p).

Lemma dead_names_notify p : filter is_notification (dead_name_events p) = dead_name_events p.
Proof.
  unfold dead_name_events. destruct (ip_requests p) as [[? table]|]; [|done].
  induction (drop 1 table) as [|r l IH]; [done|]. cbn [omap list_omap].
  destruct (dead_name_event r) as [e|] eqn:He; [|done]. unfold dead_name_event in He.
  destruct (_ && _); [|done]. injection He as <-. rewrite filter_cons, decide_True by done. f_equal. exact IH.
Qed.

Lemma destroy_for_good_ok k a p sp reap Q :
  ks_ports k !! a = Some p -> ip_active p = false -> ip_nsrequest p = IP_NULL ->
  1 <= io_references p <= OS_REFCNT_MAX_COUNT ->
  match ip_requests p with
  | Some (_, table) => 0 <= ipr_size (anth table 0) < 63 /\ alen table = anth ipc_table_requests (ipr_size (anth table 0))
  | None => True
  end ->
  (forall l, filter is_notification l = dead_name_events p ->
     Q tt (traced l (set_ks_ports (partial_alter (fun _ => after_release (unlabelled p)) a (ks_ports k)) k))) ->
  wp (destroy_for_good a false sp reap) Q k.
Proof.
  intros Hp Ha Hns Hr Hq HQ. unfold destroy_for_good, ipc_notify_no_senders_prepare.
  apply wp_bind, wp_bind, (wp_get_port _ _ p); [done|]. rewrite Hns. cbn [Z.eqb IP_NULL IP_KOBJECT_NSREQUEST_ARMED].
  apply wp_ret. apply wp_bind, (wp_get_port _ _ p); [done|].
  set (k1 := with_port a (unlabelled p) k).
  assert (wp (when (negb (ip_is_kolabeled p)) (put_port a (set_ip_service_port false (set_ip_splabel 0 p))))
    (fun _ k' => k' = k1) k) as Hlab.
  { unfold k1, unlabelled. destruct (ip_is_kolabeled p); cbn [negb]; [|by apply wp_put_port].
    apply wp_ret. symmetry. by apply with_port_id. }
  apply wp_bind. eapply wp_mono; [exact Hlab|]. intros [] ? ->.
  assert (ks_ports k1 !! a = Some (unlabelled p)) as Hp1 by apply with_port_lookup.
  apply wp_bind, wp_note; [done|]. intros l1 F1.
  apply wp_bind, wp_ret. apply wp_bind, wp_when_note; [done|]. intros l2 F2. rewrite traced_app.
  apply wp_bind, wp_when_note; [done|]. intros l3 F3. rewrite traced_app.
  apply wp_bind, wp_ret. apply wp_bind. unfold wp at 1.
  rewrite (dnnotify_ok _ a (unlabelled p)); [|done|by unfold unlabelled; destruct (ip_is_kolabeled p)..].
  rewrite traced_app. apply wp_bind, wp_note; [done|]. intros l4 F4. rewrite traced_app.
  apply (release_ok _ _ (unlabelled p)); [done|by unfold unlabelled; destruct (ip_is_kolabeled p)..|].
  set (l := (((l1 ++ l2) ++ l3) ++ dead_name_events (unlabelled p)) ++ l4).
  replace (set_ks_ports _ (traced l k1)) with (traced l
    (set_ks_ports (partial_alter (fun _ => after_release (unlabelled p)) a (ks_ports k)) k)).
  - apply HQ. unfold l. rewrite !filter_app, F1, F2, F3, F4, dead_names_notify, app_nil_r.
    by unfold unlabelled; destruct (ip_is_kolabeled p).
  - unfold k1, traced, with_port, set_ks_ports. simpl. f_equal. by rewrite partial_alter_insert_eq.
Qed.

Lemma inactive_bits b : has (Z.ldiff b IO_BITS_ACTIVE) IO_BITS_ACTIVE = false.
Proof.
  unfold has. apply negb_false_iff, Z.eqb_eq, Z.bits_inj'. intros n Hn. rewrite Z.land_spec, Z.ldiff_spec, Z.bits_0.
  by destruct (Z.testbit b n), (Z.testbit IO_BITS_ACTIVE n).
Qed.

(** What [ipc_port_destroy] does first: nobody can receive from the port. *)
Definition disowned (p : ipc_port) : ipc_port := set_ip_pdrequest IP_NULL (set_imq_context 0 p).

Lemma drop_boosts_ok n k (Q : unit -> kst -> Prop) :
  (forall l, filter is_notification l = [] -> Q tt (traced l k)) -> wp (destroy_drop_boosts IIT_NULL n) Q k.
Proof. intros HQ. by apply wp_when_note. Qed.

(** The port as it is when its receiver is cleared. *)
Lemma destroy_begin k a p Q :
  ks_ports k !! a = Some p -> plain_port p ->
  wp (let* (release_imp_task, assertcnt) := destroy_importance a (ip_pdrequest p) in
      let* reap_msgs := ipc_port_clear_receiver a (ip_pdrequest p =? IP_NULL) in
      let* q := get_port a in
      massert (negb (ip_in_pset q)) "!ip_in_pset(port)" ;;*
      massert (ip_mscount q =? 0) "port->ip_mscount == 0" ;;*
      (if negb (ip_pdrequest p =? IP_NULL) then destroy_to_backup a (ip_pdrequest p) (ip_service_port p) reap_msgs
       else destroy_for_good a false (ip_service_port p) reap_msgs) ;;*
      when (negb (0 =? 0)) (emit "task_watchport_elem_deallocate" [0]) ;;*
      destroy_drop_boosts release_imp_task assertcnt) Q (with_port a (disowned p) k) ->
  wp (ipc_port_destroy a) Q k.
Proof.
  intros Hp [Ha Hsp Hw _ _ _ _] HQ. unfold ipc_port_destroy. apply wp_bind, (wp_get_port _ _ p); [done|].
  rewrite Hsp. apply wp_bind, wp_require_ip_active; [done|]. apply wp_bind, wp_put_port.
  set (p0 := set_imq_context 0 p). set (k0 := with_port a p0 k).
  apply wp_bind. unfold ipc_port_clear_watchport_elem_internal. apply wp_bind, (wp_get_port _ _ p0); [apply with_port_lookup|].
  change (ip_has_watchport p0) with (ip_has_watchport p). rewrite Hw. cbn [negb]. apply wp_ret.
  apply wp_bind, (wp_get_port _ _ p0); [apply with_port_lookup|].
  apply wp_bind, wp_massert; [by change (ip_has_watchport p0) with (ip_has_watchport p); rewrite Hw|].
  cbn [negb]. apply wp_bind, wp_put_port. unfold k0. rewrite with_port_twice. exact HQ.
Qed.

Lemma ipc_port_destroy_dead_ok k a p :
  ks_ports k !! a = Some p -> plain_port p -> knotes_ok a p -> ip_pdrequest p = IP_NULL ->
  wp (ipc_port_destroy a) (fun _ k' => notified k k' (dead_name_events p) /\
    ks_space k' = ks_space k /\ ks_psets k' = ks_psets k /\ ks_timestamp k' = u32 (ks_timestamp k + 1) /\
    ks_reap k' = ks_reap k ++ imq_messages p /\ (turnstiled k a -> ks_threads k' = roused a <$> ks_threads k) /\
    ks_ports k' = partial_alter (fun _ => after_release (unlabelled (buried (ks_timestamp k) (disowned p)))) a (ks_ports k)) k.
Proof.
  intros Hp Hpl Hkn Hpd. pose proof Hpl as [Ha Hsp Hw Hns Hown Hr Hq]. apply (destroy_begin k a p); [done..|]. rewrite Hpd.
  set (k1 := with_port a (disowned p) k). assert (ks_ports k1 !! a = Some (disowned p)) as Hp1 by apply with_port_lookup.
  apply wp_bind. unfold destroy_importance. apply wp_bind, (wp_get_port _ _ (disowned p)); [done|].
  change (ip_tempowner (disowned p)) with (ip_tempowner p). rewrite Hown. cbn [Z.eqb IP_NULL negb].
  apply wp_bind, wp_ret, wp_ret. apply wp_bind, (clear_receiver_dead _ _ (disowned p)); [done..|].
  intros reap k2 Hk2 Hn2 Ht2 Hr2 Hth2. change (ks_timestamp k1) with (ks_timestamp k) in *.
  set (d := buried (ks_timestamp k) (disowned p)) in *. pose proof (port_now_lookup _ _ _ _ Hk2) as Hp2.
  apply wp_bind, (wp_get_port _ _ d); [done|]. apply wp_bind, wp_massert; [done|]. apply wp_bind, wp_massert; [done|].
  apply wp_bind, (destroy_for_good_ok _ _ d); [done|apply inactive_bits|done|done|done|]. intros l Hl.
  destruct Hk2 as (E2&F2&G2). apply wp_bind, wp_ret. apply drop_boosts_ok. intros l' Hl'.
  split; [|split; [done|split; [done|split; [done|split; [done|split; [done|]]]]]].
  - apply notified_traced; [|done]. change (dead_name_events p) with (dead_name_events d). rewrite <- Hl.
    destruct Hn2 as (x&Hx&Hf). exists (x ++ l). simpl. rewrite Hx, filter_app, Hf. by rewrite app_assoc.
  - simpl. rewrite E2. unfold k1. simpl. by rewrite insert_insert_eq, partial_alter_insert_eq.
Qed.

(** C28. Destroying a plain port that nobody backs up: the port is dead with the
    current timestamp, out of every set, unguarded and without a name; the send
    and send-once rights on it stay counted, one reference is gone (and the
    port with the last one), and every dead-name request of its table is
    notified once, in order, with no other notification.  The messages of its
    queue are handed over for destruction, no slot stays reserved, and every
    thread that waited to receive from the port or to send to it is sent away. *)
Theorem ipc_port_destroy_dead k a p :
  ks_ports k !! a = Some p -> plain_port p -> knotes_ok a p -> ip_pdrequest p = IP_NULL -> turnstiled k a ->
  wp (ipc_port_destroy a) (fun _ k' => notified k k' (dead_name_events p) /\ ks_space k' = ks_space k /\
    ks_reap k' = ks_reap k ++ imq_messages p /\ ks_threads k' = roused a <$> ks_threads k /\
    exists p', ks_ports k' = partial_alter (fun _ => after_release p') a (ks_ports k) /\
      ip_active p' = false /\ ip_timestamp p' = ks_timestamp k /\ ip_receiver_name p' = MACH_PORT_NULL /\
      ip_psets p' = [] /\ ip_guarded p' = false /\ ip_context p' = 0 /\ ip_mscount p' = 0 /\
      imq_messages p' = [] /\ imq_msgcount p' = 0 /\ ip_waitq_valid p' = false /\
      ip_srights p' = ip_srights p /\ ip_sorights p' = ip_sorights p /\
      io_references p' = io_references p /\ ip_requests p' = ip_requests p) k.
Proof.
  intros Hp Hpl Hkn Hpd Ht. eapply wp_mono; [by apply (ipc_port_destroy_dead_ok k a p)|].
  intros [] k' (Hn&Hsp&_&_&Hre&Hth&Hports). split; [done|]. split; [done|]. split; [done|]. split; [by apply Hth|]. eexists. split; [exact Hports|].
  unfold unlabelled. destruct (ip_is_kolabeled _); repeat split; done || apply inactive_bits.
Qed.

(** The end of [ipc_port_destroy] for a port that is backed up. *)
Lemma backup_end_ok k k2 a p2 pd n :
  ks_ports k2 = <[a := p2]> (ks_ports k) -> ks_space k2 = ks_space k -> notified k k2 [] ->
  wp (emit "ipc_port_send_turnstile_recompute_push_locked" [a] ;;* ipc_notify_port_destroyed pd a)
    (fun _ k' => wp (when (negb (0 =? 0)) (emit "task_watchport_elem_deallocate" [0]) ;;*
       destroy_drop_boosts IIT_NULL n) (fun _ k' =>
       notified k k' [Call "mach_notify_port_destroyed" [pd; a]] /\ ks_space k' = ks_space k /\
       ks_ports k' = <[a := p2]> (ks_ports k)) k') k2.
Proof.
  intros E F Hn. apply wp_bind, wp_note; [done|]. intros l3 F3. apply wp_emit, wp_bind, wp_ret, drop_boosts_ok.
  intros l4 F4. split; [|done]. apply notified_traced; [|done].
  destruct Hn as (x&Hx&Hf). exists ((x ++ l3) ++ [Call "mach_notify_port_destroyed" [pd; a]]).
  simpl. rewrite Hx, !filter_app, Hf, F3. by rewrite !app_assoc.
Qed.

(** C29. Destroying a plain port that has a port-destroyed request: the port is not
    dead but in limbo, with a temporary owner, no name, no guard and no set;
    its messages, rights, requests and references are untouched, and the only
    notification is the port itself, sent to the backup. *)
Theorem ipc_port_destroy_limbo k a p :
  ks_ports k !! a = Some p -> plain_port p -> knotes_ok a p -> ip_pdrequest p <> IP_NULL ->
  (ip_service_port p = true -> ip_splabel p <> 0) ->
  wp (ipc_port_destroy a) (fun _ k' =>
    notified k k' [Call "mach_notify_port_destroyed" [ip_pdrequest p; a]] /\ ks_space k' = ks_space k /\
    exists p', ks_ports k' = <[a := p']> (ks_ports k) /\
      ip_in_limbo p' = true /\ ip_tempowner p' = true /\ ip_pdrequest p' = IP_NULL /\
      ip_psets p' = [] /\ ip_guarded p' = false /\ ip_mscount p' = 0 /\
      imq_messages p' = imq_messages p /\ imq_msgcount p' = imq_msgcount p /\ ip_srights p' = ip_srights p /\ ip_sorights p' = ip_sorights p /\
      io_references p' = io_references p /\ ip_requests p' = ip_requests p) k.
Proof.
  intros Hp Hpl Hkn Hpd Hlab. pose proof Hpl as [Ha Hsp Hw Hns Hown Hr Hq]. apply (destroy_begin k a p); [done..|].
  apply wp_bind. unfold destroy_importance. apply wp_bind, (wp_get_port _ _ (disowned p)); [apply with_port_lookup|].
  change (ip_tempowner (disowned p)) with (ip_tempowner p). rewrite Hown, (proj2 (Z.eqb_neq _ _) Hpd). cbn [negb when].
  apply wp_bind, wp_put_port. rewrite with_port_twice. set (p1 := set_ip_tempowner true (disowned p)). apply wp_ret.
  set (k1 := with_port a p1 k). apply wp_bind. unfold ipc_port_clear_receiver.
  apply wp_bind, (wp_get_port _ _ p1); [apply with_port_lookup|].
  apply (changed_ok k1 a p1); [apply with_port_lookup|done|]. intros kc (Ec&Fc&_) _ Nc _ _.
  apply wp_bind, (wp_get_port _ _ (unlinked p1)); [rewrite Ec; apply lookup_insert_eq|]. apply wp_bind, wp_put_port. apply wp_ret.
  set (p2 := set_ip_receiver IP_NULL _). apply wp_bind, (wp_get_port _ _ p2); [apply with_port_lookup|].
  apply wp_bind, wp_massert; [done|]. apply wp_bind, wp_massert; [done|].
  apply wp_bind. unfold destroy_to_backup. apply wp_bind, wp_massert; [done|].
  apply wp_bind, (wp_get_port _ _ p2); [apply with_port_lookup|].
  apply wp_bind. eapply wp_mono with (Q := fun _ k2 => ks_ports k2 = <[a := p2]> (ks_ports k) /\ ks_space k2 = ks_space k /\ notified k k2 []).
  - assert (ks_ports (with_port a p2 kc) = <[a := p2]> (ks_ports k)) as E
      by (simpl; by rewrite Ec; unfold k1; simpl; rewrite !insert_insert_eq).
    assert (notified k (with_port a p2 kc) []) as Hn by exact Nc.
    apply wp_when; intros Hs; [|done]. apply wp_bind, wp_massert; [apply negb_true_iff, Z.eqb_neq; by apply Hlab|].
    apply wp_when_note; [done|]. intros l3 F3. split; [done|]. split; [done|]. by apply notified_traced.
  - intros [] k2 (E&F&Hn). eapply wp_mono; [by apply (backup_end_ok k k2)|]. intros [] k3 Hk3. eapply wp_mono; [exact Hk3|].
    intros [] k4 (Hn4&F4&E4). split; [done|]. split; [done|]. exists p2. split; [done|].
    assert (ip_in_limbo p2 = true) as Hl.
    { unfold ip_in_limbo, ip_in_a_space. change (ip_active p2) with (ip_active p). rewrite Ha. done. }
    done.
Qed.
End destroy.

(** ** The theorems at work *)
#[local] Existing Instances DEVELOPMENT plain_externals SMALL_REQUESTS.

(** A port with one dead-name request, of the send-once right at 0x8000 for the
    name 0x203; the other slot is free. *)
Definition watched_port : ipc_port :=
  set_ip_srights 1 (set_io_references 2 (set_ip_requests (Some (0x4000, [mk_ipr 0 0; mk_ipr 0x8000 0x203])) fresh_port)).
Definition backed_port : ipc_port := set_ip_pdrequest 0x9000 watched_port.

Lemma watched_plain p : p = watched_port \/ p = backed_port -> plain_port p.
Proof. intros [->| ->]; (split; [done..|split; vm_compute; done|split; [split; vm_compute; done|done]]). Qed.

(** The port has a message, and the thread at 0x40 waits for room to send. *)
Definition full_port : ipc_port :=
  set_imq_messages [(0x10, 0)] (set_imq_msgcount 1 (set_imq_qlimit 1 (set_ip_fullwaiters true watched_port))).
Definition blocked_sender : thread :=
  mk_thread 0 0 0 0 0 0 0 0 (Some (0x5000, IPC_MQUEUE_FULL)) THREAD_WAITING (Some 0x5000).
Definition crowded : kst := set_ks_threads {[ 0x40 := blocked_sender ]} (one_port full_port).

Lemma crowded_turnstiled : turnstiled crowded 0x5000.
Proof. intros t th Hth. unfold crowded in Hth. cbn [ks_threads set_ks_threads] in Hth. by apply lookup_singleton_Some in Hth as [_ <-]. Qed.

Lemma ipc_port_destroy_dead_witness :
  exists k', ipc_port_destroy 0x5000 crowded = Done (tt, k') /\
    notified crowded k' [Call "mach_notify_dead_name" [0x8000; 0x203]] /\
    ks_reap k' = [(0x10, 0)] /\ th_wait_result <$> ks_threads k' !! 0x40 = Some THREAD_RESTART /\
    ip_active <$> ks_ports k' !! 0x5000 = Some false.
Proof.
  destruct (wp_elim _ _ _ (ipc_port_destroy_dead crowded 0x5000 full_port eq_refl
    ltac:(by split; [done..|split; vm_compute|split]) ltac:(done) eq_refl
    crowded_turnstiled)) as ([]&k'&Hr&Hn&_&Hre&Hth&p'&Hp&Ha&_&_&_&_&_&_&_&_&_&_&_&Hrefs&_).
  exists k'. split; [exact Hr|]. split; [exact Hn|]. split; [exact Hre|]. split; [by rewrite Hth|].
  rewrite Hp, lookup_partial_alter_eq. unfold after_release. rewrite Hrefs. simpl. f_equal. exact Ha.
Defined.

Lemma ipc_port_destroy_limbo_witness :
  exists k', ipc_port_destroy 0x5000 (one_port backed_port) = Done (tt, k') /\
    notified (one_port backed_port) k' [Call "mach_notify_port_destroyed" [0x9000; 0x5000]].
Proof.
  destruct (wp_elim _ _ _ (ipc_port_destroy_limbo (one_port backed_port) 0x5000 backed_port eq_refl
    (watched_plain _ (or_intror eq_refl)) ltac:(done) ltac:(done) ltac:(done))) as ([]&k'&Hr&Hn&_).
  exists k'. split; [exact Hr|]. exact Hn.
Defined.
