(* ===== verification/MqueueProps.v ===== *)
(** * A message queue and the threads that use it

    A transition system whose steps are the critical sections of [ipc_mqueue.c] on
    the queue of one port, run by any number of senders and receivers in any order,
    with aborted waits, new limits and the death of the port.  No section panics or
    runs forever, a thread blocks only while it has to, and messages come out in the
    order they went in. *)

From S2P Require Import Prelude MachPort KmsgQueue KmsgSpec Prng OsRefcnt IpcTable IpcHash IpcState IpcSpace EntryFacts IpcEntry EntrySpec IpcPort PortSpec IpcMqueue MqueueSpec Samples IpcRequest RequestProps IpcPortLife DestroyProps.

(** ** The system

    The kernel, the threads inside a send, the messages posted to the queue and the
    messages received from it with their sequence numbers, in order. *)
Record config := mk_config {
  c_kst : kst;
  c_senders : senders;
  c_posted : list Z;
  c_taken : list (Z * Z);
}.

Inductive request :=
| Send (t : Z) (kmsg : Z * Z) (option send_timeout : Z)
| Resume (t : Z)
| Post (t : Z)
| Receive (t object option max_size rcv_timeout : Z)
| Abort_wait (t : Z) (result : wait_result_t)
| Set_qlimit (qlimit : Z)
| Clear_receiver.

Section system.
Context `{KernelConfig} `{Externals} `{Messages}.
Context (a : Z).

Definition and_then {A} (x : outcome (A * kst)) (f : A -> kst -> config) : outcome config :=
  match x with
  | Done (y, k') => Done (f y k')
  | Panic what => Panic what
  | Diverges => Diverges
  end.
(** What the thread holds that did not have to wait. *)
Definition taken_at_once (t : Z) (w : wait_result_t) (k : kst) : list (Z * Z) :=
  if decide (w = THREAD_NOT_WAITING) then omap got (option_list (ks_threads k !! t)) else [].

Definition perform (r : request) (c : config) : outcome config :=
  let '(mk_config k pc posted taken) := c in
  match r with
  | Send t m option send_timeout =>
    and_then (send_reserve t a m option send_timeout k) (fun o k' => mk_config k' (sent t m option o pc) posted taken)
  | Resume t =>
    match pc !! t with
    | Some (Sleeping m option) =>
      and_then (send_resume t option k) (fun o k' => mk_config k' (sent t m option o pc) posted taken)
    | _ => Panic "not a blocked sender"
    end
  | Post t =>
    match pc !! t, ks_ports k !! a with
    | Some (Posting m), Some p =>
      and_then (ipc_mqueue_post a m k) (fun _ k' => mk_config k' (delete t pc)
        (posted ++ if ip_waitq_valid p then [m.1] else []) (taken ++ handed (ks_threads k) (ks_threads k')))
    | _, _ => Panic "no slot"
    end
  | Receive t object option max_size rcv_timeout =>
    and_then (ipc_mqueue_receive_on_thread_and_unlock object option max_size rcv_timeout t k)
      (fun w k' => mk_config k' pc posted (taken ++ taken_at_once t w k'))
  | Abort_wait t result => and_then (mod_thread t (woken result) k) (fun _ k' => mk_config k' pc posted taken)
  | Set_qlimit qlimit => and_then (ipc_mqueue_set_qlimit_locked a qlimit k) (fun _ k' => mk_config k' pc posted taken)
  | Clear_receiver => and_then (ipc_port_clear_receiver a true k) (fun _ k' => mk_config k' pc posted taken)
  end.

(** When the code of the kernel runs a section: a thread runs one at a time, a send goes
    to a port that is alive and brings a message of its own, a sender posts when it
    has a slot, a receiver looks at the port or at a set it is in. *)
Definition enabled (r : request) (c : config) : Prop :=
  let '(mk_config k pc _ _) := c in
  exists p, ks_ports k !! a = Some p /\
  match r with
  | Send t m _ _ =>
    ip_waitq_valid p = true /\ (exists th, ks_threads k !! t = Some th /\ th_waits_on th = None) /\
    pc !! t = None /\ fresh m.1 p pc
  | Resume t =>
    (exists m o, pc !! t = Some (Sleeping m o)) /\ exists th, ks_threads k !! t = Some th /\ th_waits_on th = None
  | Post t => exists m, pc !! t = Some (Posting m)
  | Receive t x option _ _ =>
    has option MACH_PEEK_MSG = false /\ (exists th, ks_threads k !! t = Some th /\ th_waits_on th = None) /\
    pc !! t = None /\ source a k p x /\ exists r, message_port x k = Done (r, k) /\ (r = None \/ r = Some a)
  | Abort_wait t result =>
    (exists th, ks_threads k !! t = Some th /\ th_waits_on th <> None) /\
    (result = THREAD_INTERRUPTED \/
     result = THREAD_TIMED_OUT /\ forall m o, pc !! t = Some (Sleeping m o) -> has o MACH_SEND_TIMEOUT = true)
  | Set_qlimit q =>
    ip_waitq_valid p = true /\ 0 <= q <= MACH_PORT_QLIMIT_MAX /\ imq_msgcount p + (q - imq_qlimit p) < 2 ^ 16
  | Clear_receiver => ip_waitq_valid p = true /\ knotes_ok a p
  end.

Inductive mq_step (c c' : config) : Prop :=
| do_request r : enabled r c -> perform r c = Done c' -> mq_step c c'.

(** A port that has just been made. *)
Definition fresh_queue (seqno : Z) (c : config) : Prop :=
  let '(mk_config k pc posted taken) := c in
  exists p, ks_ports k !! a = Some p /\ ip_waitq_valid p = true /\ imq_messages p = [] /\ imq_msgcount p = 0 /\
  imq_seqno p = u32 seqno /\ 0 <= imq_qlimit p <= MACH_PORT_QLIMIT_MAX /\
  (forall t th, ks_threads k !! t = Some th -> ~ waits a IPC_MQUEUE_FULL th /\ ~ receives a p th) /\
  ks_reap k = [] /\ pc = ∅ /\ posted = [] /\ taken = [].

Definition reachable (seqno : Z) (c : config) : Prop := exists c0, fresh_queue seqno c0 /\ rtc mq_step c0 c.

(** ** The invariant *)
Record history (seqno : Z) (p : ipc_port) (R : kmsgs) (posted : list Z) (taken : list (Z * Z)) : Prop := {
  hi_order : posted = taken.*2 ++ R.*1 ++ (imq_messages p).*1;
  hi_live : ip_waitq_valid p = true -> R = [] /\ imq_seqno p = u32 (seqno + Z.of_nat (length taken));
  hi_seqno i x : taken !! i = Some x -> x.1 = u32 (seqno + Z.of_nat i);
}.
Definition mq_good (seqno : Z) (c : config) : Prop :=
  exists p, mq_at a (c_kst c) p (ks_threads (c_kst c)) (ks_reap (c_kst c)) /\
    mq_inv a p (ks_threads (c_kst c)) (c_senders c) /\
    history seqno p (ks_reap (c_kst c)) (c_posted c) (c_taken c).

Lemma good_intro seqno k p T R pc posted taken :
  mq_at a k p T R -> mq_inv a p T pc -> history seqno p R posted taken -> mq_good seqno (mk_config k pc posted taken).
Proof. intros [? <- <-] Hi Hh. by exists p. Qed.

Lemma and_then_wp {A} (m : M kst A) k f (Q : A -> kst -> Prop) (G : config -> Prop) :
  wp m Q k -> (forall x k', Q x k' -> G (f x k')) -> exists c', and_then (m k) f = Done c' /\ G c'.
Proof.
  intros Hm HG. apply wp_elim in Hm as (x&k'&E&HQ). rewrite E. eexists. split; [done|]. by apply HG.
Qed.

(** The history of a queue whose messages and sequence number did not change. *)
Lemma history_same seqno p p' R posted taken :
  history seqno p R posted taken -> imq_messages p' = imq_messages p -> imq_seqno p' = imq_seqno p ->
  ip_waitq_valid p' = ip_waitq_valid p -> history seqno p' R posted taken.
Proof. intros [] Hm Hs Hv. split; by rewrite ?Hm, ?Hs, ?Hv. Qed.
Lemma history_posted seqno p p' m posted taken :
  history seqno p [] posted taken -> ip_waitq_valid p = true -> ip_waitq_valid p' = true ->
  imq_messages p' = raise m.2 (imq_messages p) ++ [m] -> imq_seqno p' = imq_seqno p ->
  history seqno p' [] (posted ++ [m.1]) taken.
Proof.
  intros [Ho Hl Hs] Hv Hv' Hm Hq. split; [|intros _; split; [done|]; rewrite Hq; by apply Hl|done].
  rewrite Ho, Hm, fmap_app, raise_addresses. simpl. by rewrite <- !app_assoc.
Qed.
(** The head of what is posted is taken. *)
Lemma history_taken seqno p p' m posted taken :
  history seqno p [] posted taken -> ip_waitq_valid p = true -> (imq_messages p).*1 = m :: (imq_messages p').*1 ->
  imq_seqno p' = u32 (imq_seqno p + 1) -> history seqno p' [] posted (taken ++ [(imq_seqno p, m)]).
Proof.
  intros [Ho Hl Hs] Hv Hm Hq. destruct (Hl Hv) as [_ Hn]. split.
  - rewrite Ho, Hm, fmap_app. simpl. by rewrite <- app_assoc.
  - intros _. split; [done|]. rewrite Hq, Hn, length_app. simpl. unfold u32. rewrite Z.add_mod_idemp_l by done. f_equal. lia.
  - intros i x Hx. apply lookup_snoc_Some in Hx as [[Hi Hx]|[-> <-]]; [eauto|done].
Qed.

(** ** Every section keeps it *)
Section steps.
Context (seqno : Z) (k : kst) (pc : senders) (posted : list Z) (taken : list (Z * Z)).
Abbreviation c := (mk_config k pc posted taken).
Abbreviation returns r := (exists c', perform r c = Done c' /\ mq_good seqno c').

Lemma good_live p : ks_ports k !! a = Some p -> ip_waitq_valid p = true -> mq_good seqno c ->
  mq_at a k p (ks_threads k) [] /\ mq_core a 0 p (ks_threads k) pc /\ history seqno p [] posted taken.
Proof.
  intros Hp Hv (p'&[Hp' _ _]&Hi&Hh). simpl in *. assert (p' = p) as -> by congruence. unfold mq_inv in Hi. rewrite Hv in Hi.
  destruct (hi_live _ _ _ _ _ Hh Hv) as [HR _]. rewrite HR in Hh. done.
Qed.
Lemma inv_live p T pc' : ip_waitq_valid p = true -> mq_core a 0 p T pc' -> mq_inv a p T pc'.
Proof. unfold mq_inv. by intros ->. Qed.
Lemma inv_dead p T pc' : ip_waitq_valid p = false -> mq_dead a p T pc' -> mq_inv a p T pc'.
Proof. unfold mq_inv. by intros ->. Qed.

Lemma step_send t m option send_timeout :
  enabled (Send t m option send_timeout) c -> mq_good seqno c -> returns (Send t m option send_timeout).
Proof.
  intros (p&Hp&Hv&(th&Ht&Hrun)&Hn&Hfr) Hg. destruct (good_live p Hp Hv Hg) as (Hat&Hc&Hh).
  eapply and_then_wp; [by apply (send_reserve_ok a k p _ _ pc t th m option send_timeout Hat Hc)|].
  intros o k' (p'&T'&Hk'&Hc'&[]). eapply good_intro; [done|apply inv_live; [congruence|done]|]. by eapply history_same.
Qed.

Lemma step_resume t : enabled (Resume t) c -> mq_good seqno c -> returns (Resume t).
Proof.
  intros (p&Hp&(m&o&Hs)&th&Ht&Hrun) (p'&Hat&Hi&Hh). simpl in *.
  assert (p' = p) as -> by (destruct Hat; congruence). rewrite Hs.
  assert (resumable o (th_wait_result th)) as Hr.
  { unfold mq_inv in Hi. destruct (ip_waitq_valid p).
    - destruct (mo_sleep _ _ _ _ _ Hi _ _ _ Hs) as (th'&Ht'&_&[Hw|[_ ?]]); [|congruence]. unfold waits in Hw. congruence.
    - destruct (md_sleep _ _ _ _ Hi _ _ _ Hs) as (th'&Ht'&_&_&?). congruence. }
  eapply and_then_wp; [by apply (send_resume_run a k p _ _ t th o Hat)|]. intros out k' [-> Hk'].
  eapply good_intro; [done| |done]. unfold mq_inv in *. destruct (ip_waitq_valid p); [by apply core_resume|by apply dead_resume].
Qed.

Lemma step_post t : enabled (Post t) c -> mq_good seqno c -> returns (Post t).
Proof.
  intros (p&Hp&m&Hs) Hg. simpl. rewrite Hs, Hp. destruct (ip_waitq_valid p) eqn:Hv.
  - destruct (good_live p Hp Hv Hg) as (Hat&Hc&Hh). destruct (core_leave a 0 p (ks_threads k) pc t (Posting m)) as [Hl Hfr]; [done..| |].
    { intros th Ht Hw. destruct (mo_full _ _ _ _ _ Hc _ _ Ht Hw) as ((m'&o&?)&_). congruence. }
    eapply and_then_wp; [by apply (post_ok a k p _ _ _ m Hat Hl)|]. intros [] k' (p'&T'&Hk'&Hc'&[Hps Hv' _ Hd]).
    eapply good_intro; [done|apply inv_live; [congruence|done]|]. rewrite (ma_threads _ _ _ _ _ Hk').
    destruct Hd as [(Hm&Hq&Hg')|(Hm&Hm'&Hq&t'&Ht'&Hg')].
    + rewrite handed_none, app_nil_r by done. apply (history_posted _ p); [done|done|congruence|done..].
    + rewrite (handed_one _ _ t' (imq_seqno p, m.1)) by done.
      apply (history_taken _ (set_imq_messages (raise m.2 (imq_messages p) ++ [m]) p)); [|done| |done].
      * by apply (history_posted _ p).
      * simpl. by rewrite Hm, Hm'.
  - destruct Hg as (p'&Hat&Hi&Hh). simpl in *. assert (p' = p) as -> by (destruct Hat; congruence).
    eapply (and_then_wp _ _ _ (fun _ k' => mq_at a k' p (ks_threads k) (ks_reap k))).
    + apply wp_bind, (at_get_port _ _ _ _ _ Hat), wp_bind, wp_gets, wp_bind. rewrite Hv. apply wp_ret.
      by apply (at_emit _ _ _ _ _ Hat).
    + intros [] k' Hk'. rewrite (ma_threads _ _ _ _ _ Hk'), handed_none, !app_nil_r.
      * eapply good_intro; [done|apply inv_dead; [done|]|done]. unfold mq_inv in Hi. rewrite Hv in Hi.
        destruct Hi. split; [done..|]. intros t' m' o' Hs'. apply lookup_delete_Some in Hs' as [_ ?]. eauto.
      * intros t'. by apply (gain_stirred a).
Qed.

Lemma taken_at_once_some t w k' th x :
  w = THREAD_NOT_WAITING -> ks_threads k' !! t = Some th -> got th = x -> taken_at_once t w k' = option_list x.
Proof. intros -> Ht <-. unfold taken_at_once. rewrite decide_True, Ht by done. simpl. by destruct (got th). Qed.

Lemma step_receive t x option max_size rcv_timeout :
  enabled (Receive t x option max_size rcv_timeout) c -> mq_good seqno c -> returns (Receive t x option max_size rcv_timeout).
Proof.
  intros (p&Hp&Hpeek&(th&Ht&Hrun)&Hn&Hx&r&Hr&Hra) Hg. destruct (ip_waitq_valid p) eqn:Hv.
  - destruct (good_live p Hp Hv Hg) as (Hat&Hc&Hh).
    eapply and_then_wp; [eapply (receive_ok a k p _ _ pc t th Hat Hc Ht Hrun); [intros; congruence|done..]|].
    intros w k' (p'&T'&Hk'&Hc'&[Hps Hv' (th'&Ht'&Hd)]). rewrite <- (ma_threads _ _ _ _ _ Hk') in Ht'.
    eapply good_intro; [done|apply inv_live; [congruence|done]|].
    destruct Hd as [(m&l&->&Hm&Hm'&Hq&Hgot)|(Hm&Hq&Hgot)].
    + rewrite (taken_at_once_some _ _ _ th' (Some (imq_seqno p, m.1))) by done.
      apply (history_taken _ p); [done..| |done]. by rewrite Hm, Hm'.
    + destruct (decide (w = THREAD_NOT_WAITING)) as [Hw|Hw].
      * rewrite (taken_at_once_some _ _ _ th' None), app_nil_r by auto. apply (history_same _ p); congruence.
      * unfold taken_at_once. rewrite decide_False, app_nil_r by done. apply (history_same _ p); congruence.
  - pose proof Hg as (p'&Hat&Hi&Hh). simpl in Hat, Hi, Hh. assert (p' = p) as -> by (destruct Hat; congruence).
    unfold mq_inv in Hi. rewrite Hv in Hi. destruct Hx as [[-> Hnp]|[Hx _]]; [|rewrite (md_psets _ _ _ _ Hi) in Hx; set_solver].
    eapply (and_then_wp _ _ _ (fun w k' => w = THREAD_RESTART /\ k' = k)).
    + apply wp_bind. unfold wp at 1, message_port. rewrite Hnp, Hp, (md_messages _ _ _ _ Hi), decide_True by done.
      apply wp_bind. unfold wp at 1, waitq_valid. rewrite Hnp, Hp, Hv. by apply wp_ret.
    + intros w k' [-> ->]. unfold taken_at_once. rewrite decide_False, app_nil_r by done. done.
Qed.

Lemma step_abort t result : enabled (Abort_wait t result) c -> mq_good seqno c -> returns (Abort_wait t result).
Proof.
  intros (p&Hp&(th&Ht&Hw)&Hr) (p'&Hat&Hi&Hh). simpl in *. assert (p' = p) as -> by (destruct Hat; congruence).
  eapply (and_then_wp _ _ _ (fun _ k' => mq_at a k' p (<[t := woken result th]> (ks_threads k)) (ks_reap k)));
    [by apply (at_mod_thread _ _ _ _ _ Hat _ th _ _ Ht)|]. intros _ k' Hk'.
  eapply good_intro; [done| |done]. unfold mq_inv in *. destruct (ip_waitq_valid p); [|by apply dead_abort].
  apply core_abort; [done..|by destruct Hr as [->|[-> _]]|]. intros m o Hs.
  destruct Hr as [->|[-> Ho]]; [by right; left|]. right; right; right. eauto.
Qed.

Lemma step_qlimit q : enabled (Set_qlimit q) c -> mq_good seqno c -> returns (Set_qlimit q).
Proof.
  intros (p&Hp&Hv&Hq&Hroom) Hg. destruct (good_live p Hp Hv Hg) as (Hat&Hc&Hh).
  eapply and_then_wp; [by apply (set_qlimit_ok a k p _ _ pc q Hat Hc)|].
  intros [] k' (p'&T'&Hk'&Hc'&_&?&?&?&?&_). eapply good_intro; [done|apply inv_live; [congruence|done]|].
  by apply (history_same _ p).
Qed.

(** Everybody who waits on the port is sent away. *)
Lemma dead_roused p p' T :
  mq_core a 0 p T pc -> imq_msgcount p' = 0 -> imq_messages p' = [] -> ip_psets p' = [] ->
  mq_dead a p' (roused a <$> T) pc.
Proof.
  intros Hc ? ? ?. split; [done..| |].
  - intros t th Ht. apply lookup_fmap_Some in Ht as (th0&<-&_). unfold roused, restarted.
    repeat case_decide; simpl in *; done.
  - intros t m o Hs. destruct (mo_sleep _ _ _ _ _ Hc _ _ _ Hs) as (th&Ht&Hu&Hw). exists (roused a th).
    rewrite lookup_fmap, Ht. split; [done|]. unfold roused, restarted. destruct Hw as [Hw|[Hw Hr]].
    + rewrite (decide_False (P := waits a IPC_MQUEUE_RECEIVE th)), decide_True by congruence.
      split_and!; [done..|]. by right; right; left.
    + by rewrite (decide_False (P := waits a IPC_MQUEUE_RECEIVE th)), decide_False by congruence.
Qed.
Lemma step_clear : enabled Clear_receiver c -> mq_good seqno c -> returns Clear_receiver.
Proof.
  intros (p&Hp&Hv&Hkn) Hg. destruct (good_live p Hp Hv Hg) as (Hat&Hc&Hh).
  eapply (and_then_wp _ _ _ (fun _ k' => exists p', mq_at a k' p' (roused a <$> ks_threads k) (imq_messages p) /\
    ip_waitq_valid p' = false /\ imq_msgcount p' = 0 /\ imq_messages p' = [] /\ ip_psets p' = [])).
  - apply (clear_receiver_dead k a p); [done..|]. intros reap k' Hn _ _ HR HT.
    exists (buried (ks_timestamp k) p). split; [|done]. split; [by eapply port_now_lookup| |].
    + apply HT. intros t th Ht Hw. destruct (mo_full _ _ _ _ _ Hc _ _ Ht Hw) as ((m&o&Hs)&_).
      destruct (mo_sleep _ _ _ _ _ Hc _ _ _ Hs) as (th'&Ht'&?&_). congruence.
    + rewrite HR. by destruct Hat as [_ _ ->].
  - intros _ k' (p'&Hk'&Hv'&?&Hm&?). eapply good_intro; [done|apply inv_dead; [done|by eapply dead_roused]|].
    destruct Hh as [Ho Hl Hs]. split; [|congruence|done]. rewrite Ho, Hm. simpl. by rewrite app_nil_r.
Qed.
End steps.

Lemma perform_ok seqno r c :
  enabled r c -> mq_good seqno c -> exists c', perform r c = Done c' /\ mq_good seqno c'.
Proof.
  destruct c, r; auto using step_send, step_resume, step_post, step_receive, step_abort, step_qlimit, step_clear.
Qed.

Lemma fresh_good seqno c : fresh_queue seqno c -> mq_good seqno c.
Proof.
  destruct c as [k pc posted taken]. intros (p&Hp&Hv&Hm&Hn&Hs&Hl&Hw&HR&->&->&->).
  apply (good_intro _ k p (ks_threads k) []); [done| |].
  - apply inv_live; [done|]. split; rewrite ?Hm; try done; [by rewrite Hn..| | |constructor|apply not_elem_of_nil].
    + intros t th Ht Hf. by destruct (Hw t th Ht) as [? _].
    + intros t th x Ht Hr Hx. destruct (Hw t th Ht) as [_ []]. by exists x.
  - split; [by rewrite Hm| |done]. intros _. rewrite Hs. simpl. by rewrite Z.add_0_r.
Qed.
Lemma reachable_good seqno c : reachable seqno c -> mq_good seqno c.
Proof.
  intros (c0&H0'&Hr). apply fresh_good in H0'. induction Hr as [|c1 c2 c3 [r He Hp] _ IH]; [done|]. apply IH.
  destruct (perform_ok seqno r c1 He H0') as (c'&Hp'&Hg). congruence.
Qed.

(** ** Theorems *)




(** Raising the limit wakes as many blocked senders as the limit grew by, if there
    are so many, and gives each a slot, whether or not the count is below the new limit: a
    queue that held more than the old limit and has enough blocked senders holds more than
    the new one. *)
Theorem raising_qlimit_wakes seqno c p q :
  reachable seqno c -> ks_ports (c_kst c) !! a = Some p -> ip_waitq_valid p = true ->
  imq_qlimit p <= q <= MACH_PORT_QLIMIT_MAX -> imq_msgcount p + (q - imq_qlimit p) < 2 ^ 16 ->
  let n := min (full_waiters a (ks_threads (c_kst c))) (Z.to_nat (q - imq_qlimit p)) in
  exists c' p', perform (Set_qlimit q) c = Done c' /\ ks_ports (c_kst c') !! a = Some p' /\
    full_waiters a (ks_threads (c_kst c')) = (full_waiters a (ks_threads (c_kst c)) - n)%nat /\
    imq_qlimit p' = q /\ imq_msgcount p' = imq_msgcount p + Z.of_nat n /\
    (imq_qlimit p < imq_msgcount p -> q - imq_qlimit p <= Z.of_nat (full_waiters a (ks_threads (c_kst c))) ->
      q < imq_msgcount p').
Proof.
  intros Hr Hp Hv Hq Hroom n. apply reachable_good in Hr. destruct c as [k pc posted taken]. simpl in *.
  destruct (good_live seqno k pc posted taken p Hp Hv Hr) as (Hat&Hc&_). pose proof (mo_limit _ _ _ _ _ Hc) as Hl.
  destruct (wp_elim _ _ _ (set_qlimit_ok a k p _ _ pc q Hat Hc ltac:(lia) Hroom))
    as ([]&k'&E&p'&T'&[Hp' <- _]&_&Hq'&_&_&_&_&Hw&Hn).
  exists (mk_config k' pc posted taken), p'. unfold perform. rewrite E. split_and!; [done..|simpl; lia|done|done|lia].
Qed.
End system.

(** ** Running requests

    A check that a request may run, for receives on the port itself. *)
Section runs.
Context `{KernelConfig} `{Externals} `{Messages}.
Context (a : Z).

Definition idle (k : kst) (t : Z) : bool := bool_decide (th_waits_on <$> ks_threads k !! t = Some None).
Definition fresh_check (x : Z) (p : ipc_port) (pc : senders) : bool :=
  bool_decide (x <> IKM_NULL /\ (x ∉ (imq_messages p).*1) /\ map_Forall (fun _ s => sender_kmsg s <> x) pc).
Definition enabled_check (r : request) (c : config) : bool :=
  let '(mk_config k pc _ _) := c in
  match ks_ports k !! a with
  | None => false
  | Some p =>
    match r with
    | Send t m _ _ => ip_waitq_valid p && idle k t && bool_decide (pc !! t = None) && fresh_check m.1 p pc
    | Resume t => match pc !! t with Some (Sleeping _ _) => idle k t | _ => false end
    | Post t => match pc !! t with Some (Posting _) => true | _ => false end
    | Receive t x option _ _ =>
      negb (has option MACH_PEEK_MSG) && idle k t && bool_decide (pc !! t = None) &&
      bool_decide (x = a /\ ks_psets k !! a = None)
    | Set_qlimit q =>
      ip_waitq_valid p && bool_decide (0 <= q <= MACH_PORT_QLIMIT_MAX /\ imq_msgcount p + (q - imq_qlimit p) < 2 ^ 16)
    | _ => false
    end
  end.
Lemma idle_running k t : idle k t = true -> exists th, ks_threads k !! t = Some th /\ th_waits_on th = None.
Proof. unfold idle. intros Hi%bool_decide_eq_true. destruct (ks_threads k !! t) as [th|]; [|done]. simplify_eq/=. eauto. Qed.
Lemma enabled_check_ok r c : enabled_check r c = true -> enabled a r c.
Proof.
  destruct c as [k pc posted taken]. simpl. destruct (ks_ports k !! a) as [p|] eqn:Hp; [|done].
  intros Hr. exists p. split; [done|]. destruct r; rewrite ?andb_true_iff, ?bool_decide_eq_true in Hr; try done.
  - destruct Hr as [[[Hv Hi%idle_running] Hn] Hf%bool_decide_eq_true]. done.
  - destruct (pc !! t) as [[m o|m]|]; [|done..]. split; [eauto|by apply idle_running].
  - destruct (pc !! t) as [[m o|m]|]; [done| |done]. eauto.
  - destruct Hr as [[[Hk%negb_true_iff Hi%idle_running] Hn] [-> Hs]]. split_and!; [done..|by left|].
    unfold message_port. rewrite Hs, Hp. destruct (decide (imq_messages p = [])); eauto.
Qed.

Fixpoint run (l : list request) (c : config) : option config :=
  match l with
  | [] => Some c
  | r :: l =>
    if enabled_check r c then match perform a r c with Done c' => run l c' | _ => None end else None
  end.
Lemma run_steps l : forall c c', run l c = Some c' -> rtc (mq_step a) c c'.
Proof.
  induction l as [|r l IH]; simpl; intros c c' Hr; [by injection Hr as <-|].
  destruct (enabled_check r c) eqn:He; [|done]. destruct (perform a r c) as [c1| |] eqn:Hp; [|done..].
  eapply rtc_l; [|by apply IH]. eapply do_request; [by apply enabled_check_ok|done].
Qed.
End runs.

(** ** Instances *)
Definition pick_first (_ : kst) (X : gset Z) : Z := default 0 (head (elements X)).
Lemma pick_first_in k X : X <> ∅ -> pick_first k X ∈ X.
Proof.
  intros HX. apply elem_of_elements. unfold pick_first. destruct (elements X) as [|x l] eqn:E; [|left].
  by apply elements_empty_iff, leibniz_equiv in E.
Qed.
(** Messages of 64 bytes; the first of the waiting threads is woken. *)
Definition plain_messages : Messages := {|
  ipc_kmsg_copyout_size _ _ := 64;
  thread_is_64bit_addr _ := true;
  msgh_remote_type _ := MACH_MSG_TYPE_PORT_SEND;
  msgh_size _ := 64;
  msgh_id _ := 0;
  waitq_pick := pick_first;
  waitq_pick_in := pick_first_in;
  prepost_pick := pick_first;
  prepost_pick_in := pick_first_in;
  thread_abort_pending _ _ := false;
|}.

Section instances.
#[local] Existing Instances DEVELOPMENT plain_externals plain_messages.

Definition idle_thread : thread := mk_thread 0 0 0 0 0 0 0 0 None THREAD_NOT_WAITING None.
(** Four threads and a port with a limit of one message. *)
Definition narrow_port : ipc_port := set_imq_qlimit 1 fresh_port.
Definition narrow : config :=
  mk_config (set_ks_threads {[ 0x40 := idle_thread; 0x41 := idle_thread; 0x42 := idle_thread; 0x43 := idle_thread ]}
    (one_port narrow_port)) ∅ [] [].
Lemma narrow_fresh : fresh_queue 0x5000 0 narrow.
Proof.
  exists narrow_port. split_and!; try done. intros t th Ht.
  assert (map_Forall (fun _ th => th_waits_on th = None) (ks_threads (c_kst narrow))) as Hall
    by (apply (bool_decide_unpack _); vm_compute; exact I).
  specialize (Hall t th Ht). unfold receives, waits. rewrite Hall. split; [done|]. by intros (x&?&_).
Qed.

(** The thread at 0x40 waits for a message and gets the first; the second fills the
    queue, the third sender blocks. *)
Definition busy_requests : list request :=
  [Receive 0x40 0x5000 0 0x100 0; Send 0x41 (0x10, 0) 0 0; Post 0x41; Send 0x41 (0x20, 0) 0 0; Post 0x41;
   Send 0x42 (0x30, 0) 0 0].
Definition busy : config := default narrow (run 0x5000 busy_requests narrow).
Lemma busy_reachable : reachable 0x5000 0 busy.
Proof. exists narrow. split; [apply narrow_fresh|]. apply (run_steps 0x5000 busy_requests). vm_compute. reflexivity. Qed.
Example busy_state : c_posted busy = [0x10; 0x20] /\ c_taken busy = [(0, 0x10)] /\
  imq_messages <$> ks_ports (c_kst busy) !! 0x5000 = Some [(0x20, 0)] /\
  th_waits_on <$> ks_threads (c_kst busy) !! 0x42 = Some (Some (0x5000, IPC_MQUEUE_FULL)).
Proof. vm_compute. done. Qed.




(** Two messages, a limit of one, one blocked sender. *)
Definition over_requests : list request :=
  [Set_qlimit 2; Send 0x41 (0x10, 0) 0 0; Post 0x41; Send 0x41 (0x20, 0) 0 0; Post 0x41; Set_qlimit 1;
   Send 0x42 (0x30, 0) 0 0].
Definition over : config := default narrow (run 0x5000 over_requests narrow).
Lemma over_reachable : reachable 0x5000 0 over.
Proof. exists narrow. split; [apply narrow_fresh|]. apply (run_steps 0x5000 over_requests). vm_compute. reflexivity. Qed.

Lemma raising_qlimit_wakes_witness :
  exists c' p', perform 0x5000 (Set_qlimit 2) over = Done c' /\ ks_ports (c_kst c') !! 0x5000 = Some p' /\
    imq_qlimit p' = 2 /\ imq_msgcount p' = 3.
Proof.
  destruct (ks_ports (c_kst over) !! 0x5000) as [p|] eqn:Hp; [|by vm_compute in Hp].
  pose proof (raising_qlimit_wakes 0x5000 0 over p 2 over_reachable Hp) as Hr.
  vm_compute in Hp. injection Hp as <-.
  destruct (Hr eq_refl ltac:(by vm_compute) eq_refl) as (c'&p'&E&Hp'&_&Hq&Hn&_).
  exists c', p'. split; [exact E|]. split; [exact Hp'|]. split; [exact Hq|]. rewrite Hn. reflexivity.
Defined.
End instances.
