(* ===== verification/IpcTransit.v ===== *)
(** * Receive rights in transit ([osfmk/ipc/ipc_port.c], [ipc_importance.c])

    Queueing a receive right in a message for another port: the check that the
    chain of destinations stays free of circles, and the transfer of the
    importance the right carries to the ports and the task down the chain. *)

From S2P Require Import Prelude MachPort Prng OsRefcnt IpcTable IpcHash IpcState IpcPort IpcChain IpcRequest IpcPortLife.

(** Conversion of [natural_t] to [int]. *)
Definition s32 (x : Z) : Z := if x <? 2 ^ 31 then x else x - 2 ^ 32.

Section operations.
Context `{KernelConfig} `{Externals} `{Concurrency}.

(** Every port along the chain tracks the assertions behind it. *)
Fixpoint transit_chain (fuel : nat) (dest base assertcnt : Z) : M kst unit :=
  match fuel with
  | O => fun _ => Diverges
  | S fuel =>
    let* _ := ipc_port_impcount_delta dest assertcnt base in
    if dest =? base then ret tt
    else
      let* d := get_port dest in
      require_ip_active d ;;*
      massert (ip_in_transit d) "ip_in_transit(dest)" ;;*
      massert (negb (ip_tempowner d)) "dest->ip_tempowner == 0" ;;*
      transit_chain fuel (ip_get_destination d) base assertcnt
  end.

(** The ports of a circle are unlocked, up to the one in limbo. *)
Fixpoint unlock_circle (fuel : nat) (base : Z) : M kst unit :=
  match fuel with
  | O => fun _ => Diverges
  | S fuel =>
    if base =? IP_NULL then ret tt
    else
      let* b := get_port base in
      require_ip_active b ;;*
      massert (ip_receiver_name b =? MACH_PORT_NULL) "base->ip_receiver_name == MACH_PORT_NULL" ;;*
      unlock_circle fuel (ip_get_destination b)
  end.

(** From limbo to transit; returns the assertions the port carries and the task
    they are held on. *)
Definition transit_port (port dest : Z) : M kst (Z * Z) :=
  let* p := get_port port in
  massert (ip_receiver_name p =? MACH_PORT_NULL) "port->ip_receiver_name == MACH_PORT_NULL" ;;*
  let p := set_ip_destination dest p in
  massert (ip_tempowner p) "port->ip_tempowner != 0" ;;*
  let release_imp_task := ip_get_imp_task p in
  let p := if negb (release_imp_task =? IIT_NULL) then set_ip_kobject IIT_NULL p else p in
  put_port port (set_ip_tempowner false p) ;;*
  ret (s32 (ip_impcount p), release_imp_task).

(** The task at the base that is to be boosted, with a reference. *)
Definition transit_boost (base assertcnt : Z) (imp_lock_held : bool) : M kst Z :=
  let* b := get_port base in
  massert (negb (ip_in_transit b)) "!ip_in_transit(base)" ;;*
  if ip_active b && (0 <? assertcnt) then
    massert imp_lock_held "imp_lock_held" ;;*
    let imp_task := base_imp_task b in
    when (ip_tempowner b && negb (imp_task =? IIT_NULL))
      (massert (ipc_importance_task_is_any_receiver_type imp_task)
         "ipc_importance_task_is_any_receiver_type(imp_task)") ;;*
    when (negb (imp_task =? IIT_NULL)) (emit "ipc_importance_task_reference" [imp_task]) ;;*
    ret imp_task
  else ret IIT_NULL.

(** It takes the assertions over from the task that held them. *)
Definition transit_transfer (imp_task release_imp_task assertcnt : Z) (imp_lock_held : bool)
    : M kst unit :=
  let transfer_assertions := negb (imp_task =? release_imp_task) in
  when (negb (imp_task =? IIT_NULL))
    (massert imp_lock_held "imp_lock_held" ;;*
     when transfer_assertions
       (emit "ipc_importance_task_hold_internal_assertion_locked" [imp_task; assertcnt])) ;;*
  when (negb (release_imp_task =? IIT_NULL))
    (massert imp_lock_held "imp_lock_held" ;;*
     when transfer_assertions
       (emit "ipc_importance_task_drop_internal_assertion_locked" [release_imp_task; assertcnt])).

(** [not_circular:] *)
Definition enter_transit (port dest base : Z) (took_base_ref imp_lock_held : bool) : M kst unit :=
  let* p := get_port port in
  require_ip_active p ;;*
  massert (ip_in_limbo p) "ip_in_limbo(port)" ;;*
  let* watchport_elem := ipc_port_clear_watchport_elem_internal port in
  let* d := get_port dest in
  when (ip_specialreply d && ip_sync_bootstrap_checkin d)
    (mod_port port (set_ip_sync_bootstrap_checkin true)) ;;*
  ip_reference dest ;;*
  let* (assertcnt, release_imp_task) := transit_port port dest in
  when (port_send_turnstile port)
    (emit "turnstile_prepare" [port] ;;* emit "turnstile_update_inheritor" [port; dest]) ;;*
  let* fuel := chain_fuel in
  transit_chain fuel dest base assertcnt ;;*
  let* imp_task := transit_boost base assertcnt imp_lock_held in
  when (port_send_turnstile port)
    (emit "turnstile_update_inheritor_complete" [port] ;;* emit "turnstile_complete" [port]) ;;*
  transit_transfer imp_task release_imp_task assertcnt imp_lock_held ;;*
  when took_base_ref (ip_release base) ;;*
  when (negb (imp_task =? IIT_NULL)) (emit "ipc_importance_task_release" [imp_task]) ;;*
  when (negb (release_imp_task =? IIT_NULL))
    (emit "ipc_importance_task_release" [release_imp_task]) ;;*
  when (negb (watchport_elem =? 0)) (emit "task_watchport_elem_deallocate" [watchport_elem]).

(** [got_dest] is the answer of [ip_mq_lock_try(dest)].  While no port is locked,
    other threads run. *)
Definition ipc_importance_check_circularity (got_dest : bool) (port dest : Z) : M kst bool :=
  massert (negb (port =? IP_NULL)) "port != IP_NULL" ;;*
  massert (negb (dest =? IP_NULL)) "dest != IP_NULL" ;;*
  if port =? dest then ret true
  else
    emit "ipc_port_send_turnstile_prepare" [dest] ;;*
    interfere ;;* (* ip_mq_lock(port) *)
    let* p := get_port port in
    let imp_lock_held := ip_impdonation p || (0 <? ip_impcount p) in
    let* d := get_port dest in
    if got_dest && negb (ip_in_transit d) then
      enter_transit port dest dest false imp_lock_held ;;* ret false
    else
      interfere ;;* (* ip_mq_unlock(port); ipc_port_multiple_lock() *)
      let* (base, took_base_ref) := ipc_port_destination_chain_lock dest in
      if port =? base then
        let* p := get_port port in
        require_ip_active p ;;*
        massert (ip_in_limbo p) "ip_in_limbo(port)" ;;*
        massert (negb took_base_ref) "!took_base_ref" ;;*
        let* fuel := chain_fuel in
        unlock_circle (S fuel) dest ;;*
        emit "ipc_port_send_turnstile_complete" [dest] ;;*
        ret true
      else
        enter_transit port dest base took_base_ref true ;;* ret false.

(** [IMPORTANCE_INHERITANCE] is configured in every kernel of [config/MASTER.*]. *)
Definition ipc_port_check_circularity (got_dest : bool) (port dest : Z) : M kst bool :=
  ipc_importance_check_circularity got_dest port dest.
End operations.
