(* ===== verification/TransitGraph.v ===== *)
(** * The graph of ports in transit

    The destinations of ports in transit form a forest; the invariant that says
    so, the walks along its branches and the importance counts they carry. *)

From stdpp Require Import relations.
From S2P Require Import Prelude MachPort Prng OsRefcnt IpcTable IpcHash IpcState IpcSpace EntryFacts IpcEntry EntrySpec IpcPort IpcChain PortSpec Samples IpcRequest IpcPortLife IpcTransit.

(** ** The graph of destinations *)
Abbreviation ports := (gmap Z ipc_port).

Definition transit_of (p : ipc_port) : option Z :=
  if ip_in_transit p then Some (ip_destination p) else None.
Definition queued_on (m : ports) (a b : Z) : Prop := m !! a ≫= transit_of = Some b.

Record transit_wf (m : ports) : Prop := {
  tr_dest : forall a b, queued_on m a b -> is_Some (m !! b);
  tr_owner : forall a p, m !! a = Some p -> ip_in_transit p = true -> ip_tempowner p = false;
  tr_acyclic : forall a, ~ tc (queued_on m) a a;
}.

(** [x] leads to [b], which is not in transit, in [n] steps. *)
Inductive chain (m : ports) : Z -> Z -> nat -> Prop :=
| chain_base x p : m !! x = Some p -> ip_in_transit p = false -> chain m x x 0
| chain_step x p b n :
    m !! x = Some p -> ip_in_transit p = true -> chain m (ip_destination p) b n -> chain m x b (S n).

Lemma queued_on_Some m a p : m !! a = Some p -> ip_in_transit p = true -> queued_on m a (ip_destination p).
Proof. intros Hp Ht. unfold queued_on, transit_of. rewrite Hp. simpl. by rewrite Ht. Qed.
Lemma queued_on_inv m a b : queued_on m a b ->
  exists p, m !! a = Some p /\ ip_in_transit p = true /\ ip_destination p = b.
Proof.
  unfold queued_on, transit_of. destruct (m !! a) as [p|]; simpl; [|done].
  destruct (ip_in_transit p) eqn:Ht; [|done]. intros [= <-]. by exists p.
Qed.

Lemma transit_destination p : ip_in_transit p = true ->
  ip_active p = true /\ ip_get_destination p = ip_destination p /\ ip_receiver_name p = MACH_PORT_NULL.
Proof.
  unfold ip_in_transit, ip_get_destination, ip_in_a_space. intros [[-> Hs]%andb_true_iff _]%andb_true_iff.
  split; [done|]. rewrite andb_true_l, negb_involutive in Hs. apply Z.eqb_eq in Hs. by rewrite Hs.
Qed.

Lemma chain_rtc m x b n : chain m x b n -> rtc (queued_on m) x b.
Proof.
  induction 1 as [|x p b n Hp Ht _ IH]; [apply rtc_refl|].
  eapply rtc_l; [by apply queued_on_Some|done].
Qed.
Lemma chain_end m x b n : chain m x b n -> exists q, m !! b = Some q /\ ip_in_transit q = false.
Proof. induction 1; eauto. Qed.
Lemma rtc_chain m x y b n : rtc (queued_on m) x y -> chain m x b n -> exists j, chain m y b j.
Proof.
  intros Hr. revert n. induction Hr as [|x z y Hq _ IH]; intros n Hc; [eauto|].
  apply queued_on_inv in Hq as (p&Hp&Ht&<-).
  inversion Hc as [? q Hq Hf|? q ? j Hq _ Hc']; simplify_eq/=; [congruence|eauto].
Qed.

Lemma chain_det m x b n b' n' : chain m x b n -> chain m x b' n' -> b = b'.
Proof.
  intros Hc. revert n'. induction Hc as [x p Hp Ht|x p b n Hp Ht _ IH]; intros n' Hc';
    inversion Hc' as [? q Hq Hqt|? q ? j Hq Hqt Hc'']; simplify_eq/=; try congruence. by eapply IH.
Qed.

(** A chain ends within as many steps as there are ports. *)
Lemma chain_within m (V : gset Z) : forall n x,
  transit_wf m -> (size V <= n)%nat -> is_Some (m !! x) -> (forall y, rtc (queued_on m) x y -> y ∈ V) ->
  exists b j, (j < n)%nat /\ chain m x b j.
Proof.
  intros n. revert V. induction n as [|n IH]; intros V x Hwf Hn [p Hp] HV.
  { assert (x ∈ V) as Hx by apply HV, rtc_refl. assert (size V = 0)%nat as He by lia.
    apply size_empty_inv in He. set_solver. }
  destruct (ip_in_transit p) eqn:Ht.
  - pose proof (queued_on_Some _ _ _ Hp Ht) as Hq.
    destruct (IH (V ∖ {[x]}) (ip_destination p)) as (b&j&Hj&Hc); [done| |by eapply tr_dest| |].
    + assert ({[x]} ⊆ V) as Hs by (apply singleton_subseteq_l, HV, rtc_refl).
      rewrite size_difference, size_singleton by done. lia.
    + intros y Hy. apply elem_of_difference. split; [apply HV; by eapply rtc_l|].
      intros ->%elem_of_singleton. apply (tr_acyclic _ Hwf x). eapply tc_rtc_r; [by apply tc_once|done].
    + exists b, (S j). split; [lia|]. by eapply chain_step.
  - exists x, 0%nat. split; [lia|]. by eapply chain_base.
Qed.

Lemma chain_exists m x : transit_wf m -> is_Some (m !! x) -> exists b n, (n <= size m)%nat /\ chain m x b n.
Proof.
  intros Hwf Hx. destruct (chain_within m (dom m) (size m) x) as (b&n&Hn&Hc); [done| |done| |].
  - by rewrite size_dom.
  - intros y Hr. apply elem_of_dom. revert Hx. induction Hr as [|z y w Hq _ IH]; [done|].
    intros _. apply IH. by eapply tr_dest.
  - exists b, n. split; [lia|done].
Qed.

(** ** A new edge *)
Section new_edge.
Context (R R' : Z -> Z -> Prop) (u v : Z).
Context (Hnew : forall a b, R' a b -> R a b \/ (a = u /\ b = v)).

Lemma new_edge_to x : rtc R' x u -> rtc R x u.
Proof using Hnew.
  revert x. apply rtc_ind_l; [apply rtc_refl|]. intros x y Hq Hr IH.
  destruct (Hnew _ _ Hq) as [?|[-> ->]]; [by eapply rtc_l|apply rtc_refl].
Qed.
Lemma new_edge_split a b : tc R' a b -> tc R a b \/ (rtc R' a u /\ rtc R' v b).
Proof using Hnew.
  induction 1 as [a b Hq|a c b Hq Hr IH].
  - destruct (Hnew _ _ Hq) as [?|[-> ->]]; [left; by apply tc_once|right; split; apply rtc_refl].
  - destruct (Hnew _ _ Hq) as [?|[-> ->]].
    + destruct IH as [?|[??]]; [left; by eapply tc_l|right; split; [by eapply rtc_l|done]].
    + right. split; [apply rtc_refl|]. by apply tc_rtc.
Qed.
Lemma new_edge_acyclic : ~ rtc R v u -> (forall a, ~ tc R a a) -> forall a, ~ tc R' a a.
Proof using Hnew.
  intros Hno Hac a [Ha|[Hau Hva]]%new_edge_split; [by eapply Hac|].
  apply Hno, new_edge_to. by trans a.
Qed.
End new_edge.

(** ** Importance counts *)

(** [m] and [m'] differ in importance counts only. *)
Definition same_but_imp (m m' : ports) : Prop :=
  forall a, set_ip_impcount 0 <$> m !! a = set_ip_impcount 0 <$> m' !! a.
#[global] Instance same_but_imp_equiv : Equivalence same_but_imp.
Proof.
  split.
  - intros m a. done.
  - intros m m' Hm a. by rewrite Hm.
  - intros m1 m2 m3 H1 H2 a. by rewrite H1.
Qed.

Lemma same_but_imp_lookup m m' a p : same_but_imp m m' -> m !! a = Some p ->
  exists p', m' !! a = Some p' /\ set_ip_impcount 0 p' = set_ip_impcount 0 p.
Proof.
  intros Hm Hp. specialize (Hm a). rewrite Hp in Hm. simpl in Hm. symmetry in Hm.
  apply fmap_Some in Hm as (p'&Hp'&Heq). eauto.
Qed.
Lemma same_but_imp_insert m a p n : m !! a = Some p ->
  same_but_imp m (<[a := set_ip_impcount n p]> m).
Proof.
  intros Hp b. destruct (decide (a = b)) as [->|]; [by rewrite lookup_insert_eq, Hp|by rewrite lookup_insert_ne].
Qed.

(** Whatever the projection [f] says of a port but its importance count. *)
Lemma imp_blind {A} (f : ipc_port -> A) p p' :
  (forall q, f q = f (set_ip_impcount 0 q)) -> set_ip_impcount 0 p' = set_ip_impcount 0 p -> f p' = f p.
Proof. intros Hf He. by rewrite (Hf p'), (Hf p), He. Qed.

(** Sums over the ports. *)
Definition zsum (f : ipc_port -> Z) (m : ports) : Z := map_fold (fun _ p acc => f p + acc) 0 m.
Lemma zsum_insert f m a p : m !! a = None -> zsum f (<[a := p]> m) = f p + zsum f m.
Proof. intros Hn. unfold zsum. rewrite map_fold_insert_L; [done|lia|done]. Qed.
Lemma zsum_update f m a p p' : m !! a = Some p -> zsum f (<[a := p']> m) = zsum f m + f p' - f p.
Proof.
  intros Hp. rewrite <- (insert_delete_id m a p Hp) at 2. rewrite <- insert_delete_eq.
  rewrite !zsum_insert by apply lookup_delete_eq. lia.
Qed.

(** The boosts queued behind [a], and those of its own messages (modulo the
    width of the counter). *)
Definition behind (m : ports) (a : Z) : Z :=
  zsum (fun q => if bool_decide (transit_of q = Some a) then ip_impcount q else 0) m.
Definition own (m : ports) (a : Z) : Z :=
  match m !! a with Some p => u32 (ip_impcount p - behind m a) | None => 0 end.
Definition at_ (x a d : Z) : Z := if a =? x then d else 0.

Lemma behind_update m x p n a : m !! x = Some p ->
  behind (<[x := set_ip_impcount n p]> m) a =
  behind m a + (if bool_decide (transit_of p = Some a) then n - ip_impcount p else 0).
Proof.
  intros Hp. unfold behind. rewrite (zsum_update _ _ _ p) by done.
  change (transit_of (set_ip_impcount n p)) with (transit_of p). case_bool_decide; simpl; lia.
Qed.

Lemma own_add m x p d a :
  m !! x = Some p -> transit_of p <> Some x -> is_Some (m !! a) ->
  own (<[x := set_ip_impcount (u32 (ip_impcount p + d)) p]> m) a =
  u32 (own m a + at_ x a d - (if bool_decide (transit_of p = Some a) then d else 0)).
Proof.
  intros Hp Hx [q Hq]. unfold own, at_, u32. rewrite behind_update by done. rewrite Hq.
  destruct (Z.eqb_spec a x) as [->|].
  - rewrite lookup_insert_eq. simplify_eq. rewrite bool_decide_eq_false_2 by done. simpl. dlia.
  - rewrite lookup_insert_ne by done. rewrite Hq. case_bool_decide; dlia.
Qed.
Lemma u32_idem x : u32 (u32 x) = u32 x.
Proof. unfold u32. apply Z.mod_mod. lia. Qed.
Lemma own_u32 m a : u32 (own m a) = own m a.
Proof. unfold own. destruct (m !! a); [apply u32_idem|done]. Qed.

(** ** What the graph and the counts depend on *)
Definition edges (p : ipc_port) : option Z * bool := (transit_of p, ip_tempowner p).
Definition view (p : ipc_port) : option Z * bool * Z * bool := (edges p, ip_impcount p, ip_active p).

Section seen.
Context {V : Type} (f : ipc_port -> V).
Implicit Types m : ports.
Lemma seen_insert m a p p' : m !! a = Some p -> f p' = f p -> f <$> <[a := p']> m = f <$> m.
Proof. intros Hp Hv. rewrite fmap_insert. apply insert_id. by rewrite lookup_fmap, Hp, Hv. Qed.
Lemma seen_lookup m m' a p : f <$> m = f <$> m' -> m !! a = Some p ->
  exists p', m' !! a = Some p' /\ f p' = f p.
Proof.
  intros Hv Hp. assert ((f <$> m') !! a = Some (f p)) as Ha by (by rewrite <- Hv, lookup_fmap, Hp).
  rewrite lookup_fmap in Ha. apply fmap_Some in Ha as (p'&Hp'&He). eauto.
Qed.
End seen.

Lemma view_edges (m m' : ports) : view <$> m = view <$> m' -> edges <$> m = edges <$> m'.
Proof.
  intros Hv. assert (forall m0 : ports, edges <$> m0 = (fun v => v.1.1) <$> (view <$> m0)) as He.
  { intros m0. rewrite <- map_fmap_compose. done. }
  by rewrite !He, Hv.
Qed.
Lemma same_edges m m' : same_but_imp m m' -> edges <$> m = edges <$> m'.
Proof.
  intros Hs. apply map_eq. intros a. rewrite !lookup_fmap. specialize (Hs a).
  destruct (m !! a) as [p|], (m' !! a) as [p'|]; simpl in *; try done. f_equal.
  assert (set_ip_impcount 0 p = set_ip_impcount 0 p') as He by congruence.
  by rewrite (imp_blind edges p' p (fun _ => eq_refl) He).
Qed.

Lemma transit_of_true p b : transit_of p = Some b -> ip_in_transit p = true /\ ip_destination p = b.
Proof. unfold transit_of. destruct (ip_in_transit p); [|done]. by intros [= <-]. Qed.
Lemma transit_of_false p : transit_of p = None <-> ip_in_transit p = false.
Proof. unfold transit_of. by destruct (ip_in_transit p). Qed.
Lemma in_transit_of p : ip_in_transit p = true -> transit_of p = Some (ip_destination p).
Proof. unfold transit_of. by intros ->. Qed.

Section edges.
Context (m m' : ports) (Hv : edges <$> m = edges <$> m').
Lemma queued_edges a b : queued_on m a b -> queued_on m' a b.
Proof using Hv.
  unfold queued_on. destruct (m !! a) as [p|] eqn:Hp; [|done]. simpl. intros Hq.
  destruct (seen_lookup edges _ _ _ _ Hv Hp) as (p'&->&[= He _]). simpl. congruence.
Qed.
Lemma transit_wf_edges : transit_wf m' -> transit_wf m.
Proof using Hv.
  intros [Hd Ho Ha]. split.
  - intros a b Hq. destruct (Hd a b) as [p Hp]; [by apply queued_edges|].
    destruct (seen_lookup edges m' m _ _ (eq_sym Hv) Hp) as (p'&Hp'&_). eauto.
  - intros a p Hp Ht. destruct (seen_lookup edges _ _ _ _ Hv Hp) as (p'&Hp'&[= He Hto]).
    rewrite <- Hto. apply (Ho a); [done|]. eapply transit_of_true. by rewrite He, in_transit_of.
  - intros a Hc. apply (Ha a). revert Hc. generalize a at 2 4. intros b. induction 1 as [? ? Hq|? ? ? Hq _ IH].
    + apply tc_once. by apply queued_edges.
    + eapply tc_l; [by apply queued_edges|done].
Qed.
Lemma chain_edges x b n : chain m x b n -> chain m' x b n.
Proof using Hv.
  induction 1 as [x p Hp Ht|x p b n Hp Ht Hc IH];
    destruct (seen_lookup edges _ _ _ _ Hv Hp) as (p'&Hp'&[= He _]).
  - eapply chain_base; [done|]. apply transit_of_false. rewrite He. by apply transit_of_false.
  - destruct (transit_of_true p' (ip_destination p)) as [Ht' Hd']; [by rewrite He, in_transit_of|].
    eapply chain_step; [done..|]. by rewrite Hd'.
Qed.
End edges.

Section views.
Context (m m' : ports) (Hv : view <$> m = view <$> m').
Lemma behind_view a : behind m a = behind m' a.
Proof using Hv.
  set (g := fun v : option Z * bool * Z * bool => if bool_decide (v.1.1.1 = Some a) then v.1.2 else 0).
  assert (forall m0, behind m0 a = map_fold (fun _ v acc => g v + acc) 0 (view <$> m0)) as Hb.
  { intros m0. rewrite map_fold_fmap. reflexivity. }
  by rewrite !Hb, Hv.
Qed.
Lemma own_view a : own m a = own m' a.
Proof using Hv.
  unfold own. rewrite behind_view. destruct (m !! a) as [p|] eqn:Hp.
  - destruct (seen_lookup view _ _ _ _ Hv Hp) as (p'&->&[= _ _ He _]). by rewrite He.
  - destruct (m' !! a) as [p'|] eqn:Hp'; [|done].
    destruct (seen_lookup view m' m _ _ (eq_sym Hv) Hp') as (?&?&_). congruence.
Qed.
End views.

(** [d] more boosts at [x], and everything else as it was. *)
Definition boosted (x d : Z) (m m' : ports) : Prop :=
  forall a p, m' !! a = Some p -> ip_active p = true -> own m' a = u32 (own m a + at_ x a d).

Lemma own_step m x p d a :
  transit_wf m -> m !! x = Some p -> ip_in_transit p = true -> is_Some (m !! a) ->
  own (<[x := set_ip_impcount (u32 (ip_impcount p + d)) p]> m) a =
  u32 (own m a + at_ x a d - at_ (ip_destination p) a d).
Proof.
  intros Hwf Hp Ht Ha. pose proof (in_transit_of p Ht) as Hto.
  rewrite own_add; [|done| |done].
  - rewrite Hto. unfold at_. destruct (Z.eqb_spec a (ip_destination p)) as [->|];
      [by rewrite bool_decide_eq_true_2|by rewrite bool_decide_eq_false_2 by congruence].
  - rewrite Hto. intros [= Hx]. apply (tr_acyclic _ Hwf x), tc_once. rewrite <- Hx at 2.
    by apply queued_on_Some.
Qed.

Lemma same_but_imp_back m m' a p' : same_but_imp m m' -> m' !! a = Some p' -> is_Some (m !! a).
Proof. intros Hs Hp. destruct (same_but_imp_lookup m' m a p' (symmetry Hs) Hp) as (p&?&_). eauto. Qed.

(** The count at the end of a chain. *)
Lemma boosted_base m x p d :
  m !! x = Some p -> ip_in_transit p = false ->
  let m' := if ip_active p then <[x := set_ip_impcount (u32 (ip_impcount p + d)) p]> m else m in
  same_but_imp m m' /\ boosted x d m m'.
Proof.
  intros Hp Ht. destruct (ip_active p) eqn:Hact.
  - pose proof (same_but_imp_insert m x p (u32 (ip_impcount p + d)) Hp) as Hs. split; [done|].
    intros a q Hq _. assert (transit_of p = None) as Hto by by apply transit_of_false.
    rewrite own_add; [by rewrite Hto, bool_decide_eq_false_2, Z.sub_0_r|done|by rewrite Hto|].
    by eapply same_but_imp_back.
  - split; [done|]. intros a q Hq Ha. unfold at_.
    destruct (Z.eqb_spec a x) as [->|]; [congruence|]. by rewrite Z.add_0_r, own_u32.
Qed.

(** The count inside a chain, and those after it. *)
Lemma boosted_step m x p d m' :
  transit_wf m -> m !! x = Some p -> ip_in_transit p = true ->
  let m1 := <[x := set_ip_impcount (u32 (ip_impcount p + d)) p]> m in
  same_but_imp m1 m' -> boosted (ip_destination p) d m1 m' -> same_but_imp m m' /\ boosted x d m m'.
Proof.
  intros Hwf Hp Ht m1 Hs Hb.
  assert (same_but_imp m m') as Hs' by (etrans; [by apply same_but_imp_insert|exact Hs]).
  split; [done|]. intros a r Hr Ha. rewrite (Hb _ _ Hr Ha). unfold m1. rewrite own_step; [|done..|].
  - unfold u32. dlia.
  - by eapply same_but_imp_back.
Qed.

(** One step along a chain. *)
Lemma chain_next m x p n base c :
  m !! x = Some p -> ip_in_transit p = true -> transit_wf m -> chain m (ip_destination p) base n ->
  let m1 := <[x := set_ip_impcount c p]> m in
  x <> base /\ chain m1 (ip_destination p) base n /\ transit_wf m1.
Proof.
  intros Hp Ht Hwf Hc m1. pose proof (same_edges _ _ (same_but_imp_insert m x p c Hp)) as He. fold m1 in He.
  split; [|split; [by eapply chain_edges|by eapply transit_wf_edges]].
  intros ->. destruct (chain_end _ _ _ _ Hc) as (q&Hq&Hqt). congruence.
Qed.

Section walks.
Context `{KernelConfig} `{Externals} `{Concurrency}.

(** The delta can be applied in full. *)
Definition fits (d : Z) (p : ipc_port) : Prop := 0 <= d \/ - d <= ip_impcount p.

Lemma impcount_delta_ok k x p base d Q :
  ks_ports k !! x = Some p -> fits d p ->
  Q (if ip_active p then d else 0)
    (set_ks_ports (if ip_active p then <[x := set_ip_impcount (u32 (ip_impcount p + d)) p]> (ks_ports k)
                   else ks_ports k) k) ->
  wp (ipc_port_impcount_delta x d base) Q k.
Proof.
  intros Hp Hd HQ. unfold ipc_port_impcount_delta. apply wp_bind, (wp_get_port _ _ p); [done|].
  destruct (ip_active p); cbn [negb]; [|apply wp_ret; by destruct k].
  destruct (Z.leb_spec 0 d); [by apply wp_bind, wp_put_port, wp_ret|].
  destruct (Z.leb_spec (- d) (ip_impcount p)); [|destruct Hd; lia]. by apply wp_bind, wp_put_port, wp_ret.
Qed.

Lemma transit_chain_ok d base : 0 <= d -> forall n fuel x k,
  chain (ks_ports k) x base n -> (n < fuel)%nat -> transit_wf (ks_ports k) ->
  wp (transit_chain fuel x base d) (fun _ k' => exists m', k' = set_ks_ports m' k /\
    same_but_imp (ks_ports k) m' /\ boosted x d (ks_ports k) m') k.
Proof.
  intros Hd. induction n as [|n IH]; intros [|fuel] x k Hc Hf Hwf; try lia; simpl.
  - inversion Hc as [? p Hp Ht|]; subst. apply wp_bind, (impcount_delta_ok _ _ p); [done|by left|].
    rewrite Z.eqb_refl. apply wp_ret. eexists. split; [done|]. by apply boosted_base.
  - inversion Hc as [|? p ? ? Hp Ht Hc']; subst. destruct (transit_destination _ Ht) as (Hact&Hdest&_).
    apply wp_bind, (impcount_delta_ok _ _ p); [done|by left|]. rewrite Hact.
    set (p' := set_ip_impcount _ p). set (k1 := set_ks_ports _ k).
    destruct (chain_next _ x p n base (ip_impcount p') Hp Ht Hwf Hc') as (Hne&Hc1&Hwf1).
    destruct (Z.eqb_spec x base); [done|].
    apply wp_bind, (wp_get_port _ _ p'); [apply lookup_insert_eq|].
    apply wp_bind, wp_require_ip_active; [done|]. apply wp_bind, wp_massert; [done|].
    apply wp_bind, wp_massert; [apply negb_true_iff; by eapply (tr_owner _ Hwf x p)|].
    change (ip_get_destination p') with (ip_get_destination p). rewrite Hdest.
    eapply wp_mono; [apply (IH fuel _ k1); [done|lia|done]|].
    intros [] k' (m'&->&Hs&Hb). exists m'. split; [done|]. by eapply boosted_step.
Qed.

Lemma importance_chain_ok d base b : forall n fuel x k,
  chain (ks_ports k) x base n -> (n < fuel)%nat -> transit_wf (ks_ports k) -> ks_ports k !! base = Some b ->
  (forall a p, rtc (queued_on (ks_ports k)) x a -> ks_ports k !! a = Some p -> fits d p) ->
  wp (importance_chain fuel x base d) (fun r k' => r = (if ip_active b then d else 0) /\
    exists m', k' = set_ks_ports m' k /\ same_but_imp (ks_ports k) m' /\ boosted x d (ks_ports k) m') k.
Proof.
  induction n as [|n IH]; intros [|fuel] x k Hc Hf Hwf Hbase Hfit; try lia; simpl.
  - inversion Hc as [? p Hp Ht|]; subst. rewrite Hp in Hbase. injection Hbase as ->.
    apply wp_bind, (impcount_delta_ok _ _ b); [done|by apply (Hfit base); [apply rtc_refl|]|].
    rewrite Z.eqb_refl. apply wp_ret. split; [done|]. eexists. split; [done|]. by apply boosted_base.
  - inversion Hc as [|? p ? ? Hp Ht Hc']; subst. destruct (transit_destination _ Ht) as (Hact&Hdest&_).
    pose proof (queued_on_Some _ _ _ Hp Ht) as Hq.
    apply wp_bind, (impcount_delta_ok _ _ p); [done|by apply (Hfit x); [apply rtc_refl|]|]. rewrite Hact.
    set (p' := set_ip_impcount _ p). set (k1 := set_ks_ports _ k).
    destruct (chain_next _ x p n base (ip_impcount p') Hp Ht Hwf Hc') as (Hne&Hc1&Hwf1).
    destruct (Z.eqb_spec x base); [done|].
    apply wp_bind, (wp_get_port _ _ p'); [apply lookup_insert_eq|].
    apply wp_bind, wp_massert; [apply negb_true_iff; by eapply (tr_owner _ Hwf x p)|].
    apply wp_bind, wp_massert; [done|].
    change (ip_get_destination p') with (ip_get_destination p). rewrite Hdest.
    pose proof (same_edges _ _ (symmetry (same_but_imp_insert (ks_ports k) x p (ip_impcount p') Hp))) as He.
    eapply wp_mono; [apply (IH fuel _ k1); [done|lia|done|simpl; by rewrite lookup_insert_ne|]|].
    + intros a r Hr Har. assert (rtc (queued_on (ks_ports k)) (ip_destination p) a) as Hr'.
      { revert Hr. apply rtc_subrel. intros y z. by apply queued_edges. }
      simpl in Har. apply lookup_insert_Some in Har as [[<- _]|[_ Har]].
      * destruct (tr_acyclic _ Hwf x). eapply tc_rtc_r; [by apply tc_once|done].
      * apply (Hfit a); [by eapply rtc_l|done].
    + intros r k' (->&m'&->&Hs&Hb). split; [done|]. exists m'. split; [done|]. by eapply boosted_step.
Qed.
End walks.
