(* ===== verification/TransitProps.v ===== *)
(** * No circle of receive rights

    The circularity check answers exactly whether queueing a right would close
    a circle, whatever other threads do meanwhile, and keeps the destinations
    of ports in transit free of circles; importance counts are conserved along
    the chains. *)

From stdpp Require Import relations.
From S2P Require Import Prelude MachPort Prng OsRefcnt IpcTable IpcHash IpcState IpcSpace EntryFacts IpcEntry EntrySpec IpcPort IpcChain PortSpec Samples IpcRequest IpcPortLife IpcTransit TransitGraph.

Section transit.
Context `{KernelConfig} `{Externals} `{Concurrency}.

(** ** Walks that change no edge *)
Lemma chain_walk_ok k q b n : forall fuel x,
  chain (ks_ports k) x b n -> (n < fuel)%nat -> ks_ports k !! b = Some q ->
  1 <= io_references q < OS_REFCNT_MAX_COUNT ->
  wp (destination_chain_walk fuel x) (fun r k' => r = (b, negb (ip_active q)) /\
    k' = if ip_active q then k else with_port b (set_io_references (io_references q + 1) q) k) k.
Proof.
  induction n as [|n IH]; intros [|fuel] x Hc Hf Hq Hr; try lia.
  - inversion Hc as [? p Hp Ht|]; simplify_eq. apply wp_bind, (wp_get_port _ _ q); [done|].
    destruct (ip_active q) eqn:Ha; cbn [negb].
    + rewrite Ht. by apply wp_ret.
    + by apply wp_bind, (wp_ip_reference _ _ q), wp_ret.
  - inversion Hc as [|? p ? ? Hp Ht Hc']; simplify_eq. destruct (transit_destination _ Ht) as (Ha&Hd&_).
    apply wp_bind, (wp_get_port _ _ p); [done|]. rewrite Ha, Ht, Hd. apply IH; [done|lia|done..].
Qed.

Lemma unlock_circle_ok k q b n : forall fuel x,
  chain (ks_ports k) x b n -> (S n < fuel)%nat -> ks_ports k !! b = Some q -> ip_in_limbo q = true ->
  wp (unlock_circle fuel x) (fun _ k' => k' = k) k.
Proof.
  induction n as [|n IH]; intros [|fuel] x Hc Hf Hq Hl; try lia; simpl;
    (destruct (x =? IP_NULL); [by apply wp_ret|]).
  - inversion Hc as [? p Hp Ht|]; simplify_eq. apply wp_bind, (wp_get_port _ _ q); [done|].
    unfold ip_in_limbo in Hl. apply andb_true_iff in Hl as [[Ha Hs]%andb_true_iff Hd%Z.eqb_eq].
    apply wp_bind, wp_require_ip_active; [done|]. unfold ip_get_destination. rewrite Ha, Hs. cbn [andb].
    unfold ip_in_a_space in Hs. rewrite Ha, andb_true_l, negb_involutive in Hs.
    apply wp_bind, wp_massert; [done|]. rewrite Hd. destruct fuel as [|fuel]; [lia|]. by apply wp_ret.
  - inversion Hc as [|? p ? ? Hp Ht Hc']; simplify_eq. destruct (transit_destination _ Ht) as (Ha&Hd&Hn).
    apply wp_bind, (wp_get_port _ _ p); [done|]. apply wp_bind, wp_require_ip_active; [done|].
    apply wp_bind, wp_massert; [by apply Z.eqb_eq|]. rewrite Hd. apply IH; [done|lia|done..].
Qed.

(** ** Steps that touch no port *)
Lemma wp_when_emit b f args Q k :
  (forall k', ks_ports k' = ks_ports k -> Q tt k') -> wp (when b (emit f args)) Q k.
Proof. intros HQ. destruct b; [by apply wp_emit, HQ|by apply wp_ret, HQ]. Qed.

Lemma transit_transfer_ok imp_task release d held Q k :
  (release <> IIT_NULL -> held = true) -> (imp_task <> IIT_NULL -> held = true) ->
  (forall k', ks_ports k' = ks_ports k -> Q tt k') -> wp (transit_transfer imp_task release d held) Q k.
Proof.
  intros Hr Hi HQ. unfold transit_transfer. apply wp_bind, wp_when.
  - intros Hn%negb_true_iff%Z.eqb_neq. apply wp_bind, wp_massert; [auto|]. apply wp_when_emit. intros k1 Hk1.
    apply wp_when; [|intros _; by apply HQ]. intros Hn'%negb_true_iff%Z.eqb_neq.
    apply wp_bind, wp_massert; [auto|]. apply wp_when_emit. intros k2 Hk2. apply HQ. congruence.
  - intros _. apply wp_when; [|intros _; by apply HQ]. intros Hn'%negb_true_iff%Z.eqb_neq.
    apply wp_bind, wp_massert; [auto|]. apply wp_when_emit. intros k2 Hk2. apply HQ. congruence.
Qed.

Lemma transit_boost_ok base b d held Q k :
  ks_ports k !! base = Some b -> ip_in_transit b = false ->
  (0 < d -> held = true) ->
  (ip_tempowner b = true -> ip_get_imp_task b <> IIT_NULL ->
   ipc_importance_task_is_any_receiver_type (ip_get_imp_task b) = true) ->
  (forall r k', (r <> IIT_NULL -> held = true) -> ks_ports k' = ks_ports k -> Q r k') ->
  wp (transit_boost base d held) Q k.
Proof.
  intros Hb Ht Hh Hrecv HQ. unfold transit_boost. apply wp_bind, (wp_get_port _ _ b); [done|].
  apply wp_bind, wp_massert; [by rewrite Ht|].
  destruct (ip_active b && (0 <? d)) eqn:Hc; [|apply wp_ret, HQ; done].
  apply andb_true_iff in Hc as [Ha Hd%Z.ltb_lt]. apply wp_bind, wp_massert; [auto|].
  apply wp_bind, wp_when.
  - intros [Hown Hn%negb_true_iff%Z.eqb_neq]%andb_true_iff. apply wp_massert.
    + unfold base_imp_task in *. rewrite Ha, Hown in *. auto.
    + apply wp_bind, wp_when_emit. intros k' Hk'. apply wp_ret, HQ; auto.
  - intros _. apply wp_bind, wp_when_emit. intros k' Hk'. apply wp_ret, HQ; auto.
Qed.

(** ** Entering transit *)

(** A port in limbo, as the sender of its receive right holds it. *)
Record in_limbo (m : ports) (port : Z) (p : ipc_port) : Prop := {
  lm_port : m !! port = Some p;
  lm_limbo : ip_in_limbo p = true;
  lm_owner : ip_tempowner p = true;
  lm_watch : ip_has_watchport p = true -> ip_specialreply p = false;
  lm_count : 0 <= ip_impcount p < 2 ^ 31;
  lm_donor : ip_get_imp_task p <> IIT_NULL -> ip_impdonation p = true;
}.

Lemma limbo_facts p : ip_in_limbo p = true ->
  ip_active p = true /\ ip_receiver_name p = MACH_PORT_NULL /\ transit_of p = None.
Proof.
  unfold ip_in_limbo, transit_of, ip_in_transit. intros [[Ha Hs]%andb_true_iff Hd]%andb_true_iff.
  rewrite Ha, Hs, Hd. split; [done|]. split; [|done].
  unfold ip_in_a_space in Hs. rewrite Ha, andb_true_l, negb_involutive in Hs. by apply Z.eqb_eq.
Qed.

(** The fields of a port in limbo that entering transit does not touch first. *)
Definition at_rest (p : ipc_port) :=
  (io_bits p, ip_receiver_name p, ip_receiver p, ip_tempowner p, ip_impcount p, ip_specialreply p, ip_kobject p).
Lemma at_rest_limbo p q : at_rest q = at_rest p -> ip_in_limbo q = ip_in_limbo p /\ view q = view p /\
  ip_receiver_name q = ip_receiver_name p /\ ip_tempowner q = ip_tempowner p /\
  ip_impcount q = ip_impcount p /\ ip_active q = ip_active p /\ ip_get_imp_task q = ip_get_imp_task p.
Proof.
  unfold at_rest. intros [= E1 E2 E3 E4 E5 E6 E7]. unfold ip_in_limbo, view, edges, transit_of, ip_in_transit, ip_in_a_space, ip_active,
    ip_get_imp_task, ip_is_kobject. by rewrite E1, E2, E3, E4, E5, E6, E7.
Qed.

Lemma clear_watchport_ok k port p Q :
  ks_ports k !! port = Some p -> (ip_has_watchport p = true -> ip_specialreply p = false) ->
  (forall we p1, at_rest p1 = at_rest p -> Q we (with_port port p1 k)) ->
  wp (ipc_port_clear_watchport_elem_internal port) Q k.
Proof.
  intros Hp Hw HQ. unfold ipc_port_clear_watchport_elem_internal. apply wp_bind, (wp_get_port _ _ p); [done|].
  destruct (ip_has_watchport p) eqn:Hh; cbn [negb].
  - apply wp_bind, (wp_get_port _ _ p); [done|]. apply wp_bind, wp_massert; [by rewrite Hw|]. rewrite Hh.
    apply wp_bind, wp_put_port, wp_ret. by apply HQ.
  - apply wp_ret. rewrite <- (with_port_id k port p Hp). by apply HQ.
Qed.

Lemma transit_port_ok k port p dest Q :
  ks_ports k !! port = Some p -> ip_in_limbo p = true -> ip_tempowner p = true -> 0 <= ip_impcount p < 2 ^ 31 ->
  (forall p4, ip_active p4 = true -> ip_receiver_name p4 = MACH_PORT_NULL -> ip_destination p4 = dest ->
     ip_tempowner p4 = false -> ip_impcount p4 = ip_impcount p ->
     Q (ip_impcount p, ip_get_imp_task p) (with_port port p4 k)) ->
  wp (transit_port port dest) Q k.
Proof.
  intros Hp Hl Ho Hi HQ. destruct (limbo_facts p Hl) as (Ha&Hn&_). unfold transit_port.
  apply wp_bind, (wp_get_port _ _ p); [done|]. apply wp_bind, wp_massert; [by rewrite Hn|].
  apply wp_bind, wp_massert; [done|]. apply wp_bind, wp_put_port, wp_ret.
  assert (s32 (ip_impcount p) = ip_impcount p) as Hs by (unfold s32; destruct (Z.ltb_spec (ip_impcount p) (2 ^ 31)); lia).
  change (ip_get_imp_task (set_ip_receiver dest p)) with (ip_get_imp_task p).
  destruct (negb _); simpl; rewrite Hs; apply HQ; done.
Qed.

Lemma chain_insert m x b n port q : chain m x b n -> ~ rtc (queued_on m) x port ->
  chain (<[port := q]> m) x b n.
Proof.
  induction 1 as [x p Hp Ht|x p b n Hp Ht _ IH]; intros Hno;
    (assert (port <> x) as Hne by (intros ->; by apply Hno, rtc_refl)).
  - eapply chain_base; [by rewrite lookup_insert_ne|done].
  - eapply chain_step; [by rewrite lookup_insert_ne|done|]. apply IH. intros Hr. apply Hno.
    eapply rtc_l; [by apply queued_on_Some|done].
Qed.

(** The map of ports with one more edge. *)
Section edge.
Context (m : ports) (u v : Z) (p q : ipc_port).
Context (Hu : m !! u = Some p) (Hp : transit_of p = None) (Hq : transit_of q = Some v).

Lemma edge_queued a b : queued_on (<[u := q]> m) a b <-> queued_on m a b \/ (a = u /\ b = v).
Proof using Hu Hp Hq.
  unfold queued_on. destruct (decide (a = u)) as [->|Hne].
  - rewrite lookup_insert_eq, Hu. simpl. rewrite Hp, Hq. naive_solver.
  - rewrite lookup_insert_ne by done. naive_solver.
Qed.
Lemma edge_wf : transit_wf m -> is_Some (m !! v) -> ~ rtc (queued_on m) v u -> ip_tempowner q = false ->
  transit_wf (<[u := q]> m).
Proof using Hu Hp Hq.
  intros [Hd Ho Ha] Hv Hno Hown. split.
  - intros a b [Hab|[-> ->]]%edge_queued; [|destruct Hv as [d Hd']]; apply lookup_insert_is_Some'; [|eauto].
    right. by eapply Hd.
  - intros a r Hr Ht. apply lookup_insert_Some in Hr as [[<- <-]|[_ Hr]]; [done|by eapply Ho].
  - apply (new_edge_acyclic (queued_on m) _ u v); [|done..]. intros a b Hab. by apply edge_queued.
Qed.
Lemma edge_own a : u <> v -> ip_impcount q = ip_impcount p -> is_Some (m !! a) ->
  own (<[u := q]> m) a = u32 (own m a - at_ v a (ip_impcount p)).
Proof using Hu Hp Hq.
  intros Huv Hi [r Hr]. unfold own, at_.
  assert (behind (<[u := q]> m) a = behind m a + (if a =? v then ip_impcount p else 0)) as ->.
  { unfold behind. rewrite (zsum_update _ _ _ p) by done. rewrite Hp, Hq, Hi.
    rewrite (bool_decide_eq_false_2 (None = Some a)) by done.
    destruct (Z.eqb_spec a v) as [->|]; [rewrite bool_decide_eq_true_2 by done|rewrite bool_decide_eq_false_2 by congruence]; lia. }
  destruct (decide (a = u)) as [->|].
  - rewrite lookup_insert_eq, Hu, Hi. unfold u32. dlia.
  - rewrite lookup_insert_ne, Hr by done. unfold u32. dlia.
Qed.
End edge.

(** What entering transit achieves. *)
Record entered (m m' : ports) (port dest : Z) : Prop := {
  en_wf : transit_wf m';
  en_edges : forall a b, queued_on m' a b <-> queued_on m a b \/ (a = port /\ b = dest);
  en_own : forall a p, m' !! a = Some p -> ip_active p = true -> own m' a = own m a;
}.

Lemma entered_view m m1 m' m2 port dest :
  view <$> m = view <$> m1 -> view <$> m' = view <$> m2 -> entered m1 m2 port dest -> entered m m' port dest.
Proof.
  intros V1 V2 [Hw He Ho]. pose proof (view_edges _ _ V1) as E1. pose proof (view_edges _ _ V2) as E2. split.
  - by eapply transit_wf_edges.
  - intros a b. split.
    + intros Hq%(queued_edges _ _ E2). apply He in Hq as [Hq|?]; [left; by eapply queued_edges|by right].
    + intros Hq. eapply (queued_edges m2); [done|]. apply He.
      destruct Hq as [Hq|?]; [left; by eapply queued_edges|by right].
  - intros a p Hp Ha. rewrite (own_view _ _ V1), (own_view _ _ V2).
    destruct (seen_lookup view _ _ _ _ V2 Hp) as (p2&Hp2&[= _ _ _ Hact]). apply (Ho a p2); [done|congruence].
Qed.

(** The new edge, and the boosts of the port added along the chain. *)
Lemma entered_chain m m4 m5 port p q dest :
  m !! port = Some p -> transit_of p = None -> transit_of q = Some dest -> ip_tempowner q = false ->
  ip_impcount q = ip_impcount p -> port <> dest -> transit_wf m -> is_Some (m !! dest) ->
  ~ rtc (queued_on m) dest port -> m4 = <[port := q]> m ->
  same_but_imp m4 m5 -> boosted dest (ip_impcount p) m4 m5 -> entered m m5 port dest.
Proof.
  intros Hp Hn Hq Hown Hi Hne Hwf Hd Hno -> Hs Hb. pose proof (same_edges _ _ Hs) as He. split.
  - eapply transit_wf_edges; [symmetry; exact He|]. by eapply edge_wf.
  - intros a b. rewrite <- (edge_queued m port dest p q) by done.
    split; intros Hab; (eapply queued_edges; [|exact Hab]); [symmetry; exact He|exact He].
  - intros a r Hr Ha. rewrite (Hb _ _ Hr Ha). rewrite (edge_own m port dest p q); try done.
    + rewrite <- (own_u32 m a) at 2. unfold u32. dlia.
    + destruct (same_but_imp_lookup m5 (<[port := q]> m) _ _ (symmetry Hs) Hr) as (r'&Hr'&_).
      apply lookup_insert_Some in Hr' as [[<- _]|[_ ?]]; eauto.
Qed.

Lemma wp_when_emit2 b f args f' args' Q k :
  (forall k', ks_ports k' = ks_ports k -> Q tt k') -> wp (when b (emit f args ;;* emit f' args')) Q k.
Proof. intros HQ. destruct b; [by apply wp_bind, wp_emit, wp_emit, HQ|by apply wp_ret, HQ]. Qed.

Lemma checkin_ok k port p b Q :
  ks_ports k !! port = Some p -> (forall p1, at_rest p1 = at_rest p -> Q tt (with_port port p1 k)) ->
  wp (when b (mod_port port (set_ip_sync_bootstrap_checkin true))) Q k.
Proof.
  intros Hp HQ. apply wp_when; intros _.
  - apply (wp_mod_port _ _ p); [done|]. by apply HQ.
  - rewrite <- (with_port_id k port p Hp). by apply HQ.
Qed.

Lemma entered_transit p4 dest : ip_active p4 = true -> ip_receiver_name p4 = MACH_PORT_NULL ->
  ip_destination p4 = dest -> dest <> IP_NULL -> transit_of p4 = Some dest.
Proof.
  intros Ha Hn Hd Hnn. unfold transit_of, ip_in_transit, ip_in_a_space. rewrite Ha, Hn, Hd.
  destruct (Z.eqb_spec dest IP_NULL); [done|]. done.
Qed.

Lemma base_unreached m dest base n port p :
  chain m dest base n -> m !! port = Some p -> transit_of p = None -> base <> port -> ~ rtc (queued_on m) dest port.
Proof.
  intros Hc Hp Hn Hne Hr. destruct (rtc_chain _ _ _ _ _ Hr Hc) as [j Hj].
  inversion Hj as [|? q ? ? Hq Ht _]; simplify_eq. apply transit_of_false in Hn. congruence.
Qed.

(** The end of [enter_transit], from the walk down the chain. *)
Lemma transit_tail_ok k (Q : unit -> kst -> Prop) base b d release (turnstile took held : bool) we :
  ks_ports k !! base = Some b -> ip_in_transit b = false ->
  (0 < d -> held = true) -> (release <> IIT_NULL -> held = true) ->
  (ip_tempowner b = true -> ip_get_imp_task b <> IIT_NULL ->
   ipc_importance_task_is_any_receiver_type (ip_get_imp_task b) = true) ->
  (took = true -> 1 < io_references b <= OS_REFCNT_MAX_COUNT) ->
  (forall k', view <$> ks_ports k' = view <$> ks_ports k -> Q tt k') ->
  forall port, wp (let* imp_task := transit_boost base d held in
    when turnstile (emit "turnstile_update_inheritor_complete" [port] ;;* emit "turnstile_complete" [port]) ;;*
    transit_transfer imp_task release d held ;;*
    when took (ip_release base) ;;*
    when (negb (imp_task =? IIT_NULL)) (emit "ipc_importance_task_release" [imp_task]) ;;*
    when (negb (release =? IIT_NULL)) (emit "ipc_importance_task_release" [release]) ;;*
    when (negb (we =? 0)) (emit "task_watchport_elem_deallocate" [we])) Q k.
Proof.
  intros Hb Ht Hd Hr Hrecv Hrefs HQ port. apply wp_bind, (transit_boost_ok _ b); [done..|].
  intros imp k1 Himp E1. apply wp_bind, wp_when_emit2. intros k2 E2.
  apply wp_bind, transit_transfer_ok; [done..|]. intros k3 E3.
  assert (ks_ports k3 = ks_ports k) as E by congruence. apply wp_bind, wp_when; intros Htk.
  - apply (wp_ip_release _ _ b); [by rewrite E|by apply Hrefs|].
    apply wp_bind, wp_when_emit. intros k4 E4. apply wp_bind, wp_when_emit. intros k5 E5.
    apply wp_when_emit. intros k6 E6. apply HQ. rewrite E6, E5, E4. simpl. rewrite E. by apply (seen_insert view _ _ b).
  - apply wp_bind, wp_when_emit. intros k4 E4. apply wp_bind, wp_when_emit. intros k5 E5.
    apply wp_when_emit. intros k6 E6. apply HQ. congruence.
Qed.

Lemma enter_transit_ok k port p dest d base b n (took held : bool) :
  let m := ks_ports k in
  in_limbo m port p -> m !! dest = Some d -> m !! base = Some b -> port <> dest -> base <> port ->
  dest <> IP_NULL -> chain m dest base n -> (n <= size m)%nat -> transit_wf m ->
  1 <= io_references d < OS_REFCNT_MAX_COUNT -> (took = true -> 1 < io_references b < OS_REFCNT_MAX_COUNT) ->
  (0 < ip_impcount p -> held = true) -> (ip_get_imp_task p <> IIT_NULL -> held = true) ->
  (ip_tempowner b = true -> ip_get_imp_task b <> IIT_NULL ->
   ipc_importance_task_is_any_receiver_type (ip_get_imp_task b) = true) ->
  wp (enter_transit port dest base took held) (fun _ k' => entered m (ks_ports k') port dest) k.
Proof.
  intros m [Hp Hl Hown Hw Hcnt _] Hd Hb Hne Hbne Hnn Hc Hsz Hwf Hrd Hrb Hh1 Hh2 Hrecv.
  destruct (limbo_facts p Hl) as (Ha&_&Hnt). destruct (chain_end _ _ _ _ Hc) as (?&Hb'&Hbt). rewrite Hb in Hb'. injection Hb' as <-.
  unfold enter_transit. apply wp_bind, (wp_get_port _ _ p); [done|].
  apply wp_bind, wp_require_ip_active; [done|]. apply wp_bind, wp_massert; [done|].
  apply wp_bind, (clear_watchport_ok _ _ p); [done|done|]. intros we p1 R1. set (k1 := with_port port p1 k).
  apply wp_bind, (wp_get_port _ _ d); [by apply lookup_insert_Some; right|].
  apply wp_bind, (checkin_ok _ _ p1); [apply with_port_lookup|]. intros p2 R2.
  unfold k1. rewrite with_port_twice. clear k1. set (k2 := with_port port p2 k).
  destruct (at_rest_limbo p p2) as (Hl2&Hv2&_&Ho2&Hi2&_&Him2); [congruence|].
  apply wp_bind, (wp_ip_reference _ _ d); [by apply lookup_insert_Some; right|done|].
  set (d' := set_io_references _ d). set (k3 := with_port dest d' k2).
  assert (ks_ports k2 !! dest = Some d) as Hd2 by (by apply lookup_insert_Some; right).
  assert (ks_ports k3 !! port = Some p2) as Hp3 by (unfold k3; simpl; rewrite lookup_insert_ne by done; apply with_port_lookup).
  assert (view <$> ks_ports k3 = view <$> m) as V3.
  { unfold k3. simpl. rewrite (seen_insert view _ _ d) by done. by apply (seen_insert view _ _ p). }
  apply wp_bind, (transit_port_ok _ _ p2); [done|congruence..|lia|]. intros p4 A4 N4 D4 O4 I4.
  pose proof (entered_transit p4 dest A4 N4 D4 Hnn) as T4. set (k4 := with_port port p4 k3).
  apply wp_bind, wp_when_emit2. intros k5 E5. apply wp_bind. unfold chain_fuel. apply wp_gets.
  pose proof (chain_edges _ _ (view_edges _ _ (eq_sym V3)) _ _ _ Hc) as Hc3.
  assert (transit_of p2 = None) as Hnt2 by (injection Hv2 as Hv2 _ _ _; congruence).
  pose proof (base_unreached _ _ _ _ _ _ Hc3 Hp3 Hnt2 Hbne) as Hno3.
  assert (transit_wf (ks_ports k3)) as Hwf3 by (by eapply transit_wf_edges; [apply view_edges|]).
  assert (is_Some (ks_ports k3 !! dest)) as Hd3 by (eexists; apply with_port_lookup).
  assert (size (ks_ports k5) = size m) as Hs5.
  { rewrite E5. unfold k4, k3, k2. simpl. rewrite !map_size_insert_Some; eauto. }
  apply wp_bind. eapply wp_mono; [apply (transit_chain_ok (ip_impcount p2) base ltac:(lia) n); [|lia|]|].
  - rewrite E5. by apply chain_insert.
  - rewrite E5. by eapply edge_wf.
  - intros [] k6 (m6&->&Hs6&Hb6). rewrite E5 in Hs6, Hb6.
    assert (exists b6, m6 !! base = Some b6 /\ (at_rest (set_ip_impcount 0 b6) = at_rest (set_ip_impcount 0 b)) /\
      (io_references b6 = io_references b \/ io_references b6 = io_references b + 1)) as (b6&Hb6'&Hr6&Hrr).
    { assert (exists b4, ks_ports k4 !! base = Some b4 /\ at_rest b4 = at_rest b /\
        (io_references b4 = io_references b \/ io_references b4 = io_references b + 1)) as (b4&Hb4&R4&Rr4).
      { unfold k4, k3, k2. simpl. rewrite lookup_insert_ne by done. destruct (decide (base = dest)) as [->|].
        - rewrite lookup_insert_eq. simplify_eq. exists d'. auto.
        - rewrite !lookup_insert_ne by done. eauto. }
      destruct (same_but_imp_lookup _ _ _ _ Hs6 Hb4) as (b6&Hb6'&He6). exists b6. split; [done|]. rewrite He6.
      split; [unfold at_rest in *; simpl in *; congruence|]. by rewrite (imp_blind io_references _ _ (fun _ => eq_refl) He6). }
    destruct (at_rest_limbo (set_ip_impcount 0 b) (set_ip_impcount 0 b6) Hr6) as (_&[= Hvt6 _ _]&_&Hot6&_&_&Him6).
    apply (transit_tail_ok _ _ _ b6); simpl; [done| |by rewrite Hi2|by rewrite Him2|..].
    + apply transit_of_false. change (transit_of b6) with (transit_of (set_ip_impcount 0 b6)). rewrite Hvt6.
      by apply transit_of_false.
    + change (ip_tempowner b6) with (ip_tempowner (set_ip_impcount 0 b6)). rewrite Hot6.
      change (ip_get_imp_task b6) with (ip_get_imp_task (set_ip_impcount 0 b6)). rewrite Him6. done.
    + intros Htk. specialize (Hrb Htk). destruct Hrr as [-> | ->]; lia.
    + intros k7 V7. eapply entered_view; [exact (eq_sym V3)|exact V7|].
      by eapply (entered_chain (ks_ports k3) (ks_ports k4) m6 port p2 p4 dest).
Qed.

(** ** The check *)

(** The state before a right on [port] is queued for [dest]: the port is in
    limbo, both are referenced. *)
Record settled (port dest : Z) (m : ports) : Prop := {
  st_wf : transit_wf m;
  st_port : exists p, in_limbo m port p;
  st_dest : is_Some (m !! dest);
  st_refs : forall a p, m !! a = Some p -> 1 <= io_references p < OS_REFCNT_MAX_COUNT - 1;
  st_tasks : forall a p, m !! a = Some p -> ip_tempowner p = true -> ip_get_imp_task p <> IIT_NULL ->
    ipc_importance_task_is_any_receiver_type (ip_get_imp_task p) = true;
}.

(** The state after other threads ran. *)
Definition moved (k : kst) : kst := set_ks_clock (S (ks_clock k)) (other (ks_clock k) k).
(** The turnstile of the destination was prepared. *)
Definition prepared (dest : Z) (k : kst) : kst :=
  set_ks_trace (ks_trace k ++ [Call "ipc_port_send_turnstile_prepare" [dest]]) k.

Definition checked (port dest : Z) (k : kst) (circular : bool) (k' : kst) : Prop :=
  exists k1, (k1 = moved (prepared dest k) \/ k1 = moved (moved (prepared dest k))) /\
    if circular then rtc (queued_on (ks_ports k1)) dest port /\ transit_wf (ks_ports k') /\ ks_ports k' = ks_ports k1
    else ~ rtc (queued_on (ks_ports k1)) dest port /\ entered (ks_ports k1) (ks_ports k') port dest.

Section check.
Context (port dest : Z) (Hport : port <> IP_NULL) (Hdest : dest <> IP_NULL) (Hne : port <> dest).
Context (Hrely : forall n k, settled port dest (ks_ports k) -> settled port dest (ks_ports (other n k))).

Lemma slow_check_ok k :
  settled port dest (ks_ports k) ->
  wp (let* (base, took_base_ref) := ipc_port_destination_chain_lock dest in
      if port =? base then
        let* p := get_port port in
        require_ip_active p ;;*
        massert (ip_in_limbo p) "ip_in_limbo(port)" ;;*
        massert (negb took_base_ref) "!took_base_ref" ;;*
        let* fuel := chain_fuel in
        unlock_circle (S fuel) dest ;;*
        emit "ipc_port_send_turnstile_complete" [dest] ;;*
        ret true
      else enter_transit port dest base took_base_ref true ;;* ret false)
  (fun circular k' => if circular
     then rtc (queued_on (ks_ports k)) dest port /\ transit_wf (ks_ports k') /\ ks_ports k' = ks_ports k
     else ~ rtc (queued_on (ks_ports k)) dest port /\ entered (ks_ports k) (ks_ports k') port dest) k.
Proof using Hdest Hne.
  intros [Hwf [p Hp] Hd Hrefs Htasks]. destruct (chain_exists _ _ Hwf Hd) as (base&n&Hn&Hc).
  destruct (chain_end _ _ _ _ Hc) as (b&Hb&Hbt). pose proof (Hrefs _ _ Hb) as Hrb.
  destruct (limbo_facts p (lm_limbo _ _ _ Hp)) as (Ha&_&Hnt).
  apply wp_bind. unfold ipc_port_destination_chain_lock, chain_fuel. apply wp_bind, wp_gets.
  eapply wp_mono; [apply (chain_walk_ok _ b base n); [done|lia|done|lia]|]. intros ? k' [-> ->].
  destruct (Z.eqb_spec port base) as [<-|Hbne].
  - pose proof (lm_port _ _ _ Hp) as Hp'. rewrite Hb in Hp'. injection Hp' as ->. rewrite Ha. cbn [negb].
    apply wp_bind, (wp_get_port _ _ p); [done|]. apply wp_bind, wp_require_ip_active; [done|].
    apply wp_bind, wp_massert; [by apply (lm_limbo _ _ _ Hp)|]. apply wp_bind, wp_massert; [done|].
    apply wp_bind, wp_gets, wp_bind.
    eapply wp_mono; [apply (unlock_circle_ok _ p port n); [done|lia|done|by apply (lm_limbo _ _ _ Hp)]|].
    intros [] ? ->. apply wp_bind, wp_emit, wp_ret. split; [by eapply chain_rtc|done].
  - destruct Hd as [d Hd]. pose proof (Hrefs _ _ Hd) as Hrd. apply wp_bind.
    set (k2 := if ip_active b then k else _).
    assert (view <$> ks_ports k2 = view <$> ks_ports k) as V2.
    { unfold k2. destruct (ip_active b); [done|]. by apply (seen_insert view _ _ b). }
    assert (exists b2, ks_ports k2 !! base = Some b2 /\ ip_tempowner b2 = ip_tempowner b /\
      ip_get_imp_task b2 = ip_get_imp_task b /\ (negb (ip_active b) = true -> io_references b2 = io_references b + 1)) as (b2&Hb2&Ht2&Hi2&Hr2).
    { unfold k2. destruct (ip_active b); [by exists b|]. eexists. split; [apply with_port_lookup|done]. }
    assert (exists d2, ks_ports k2 !! dest = Some d2 /\ 1 <= io_references d2 < OS_REFCNT_MAX_COUNT) as (d2&Hd2&Hrd2).
    { unfold k2. destruct (ip_active b); [exists d; split; [done|lia]|]. simpl.
      destruct (decide (base = dest)) as [->|].
      - eexists. split; [apply lookup_insert_eq|]. simplify_eq. simpl. lia.
      - exists d. rewrite lookup_insert_ne by done. split; [done|lia]. }
    assert (in_limbo (ks_ports k2) port p) as Hp2.
    { destruct Hp as [Hpp ? ? ? ? ?]. split; try done. unfold k2. destruct (ip_active b); [done|]. simpl. by rewrite lookup_insert_ne. }
    eapply wp_mono; [apply (enter_transit_ok k2 port p dest d2 base b2 n); try done|].
    + eapply chain_edges; [|done]. symmetry. by apply view_edges.
    + unfold k2. destruct (ip_active b); [done|]. simpl. rewrite map_size_insert_Some; [done|eauto].
    + by eapply transit_wf_edges; [apply view_edges|].
    + intros Hx. rewrite (Hr2 Hx). lia.
    + rewrite Ht2, Hi2. by apply (Htasks base).
    + intros [] k3 He. apply wp_ret. split; [by eapply base_unreached; [done|apply Hp|..]|].
      eapply entered_view; [symmetry; exact V2|done|done].
Qed.

Lemma check_circularity_ok got k :
  settled port dest (ks_ports k) ->
  wp (ipc_port_check_circularity got port dest) (checked port dest k) k.
Proof using Hport Hdest Hne Hrely.
  intros Hset. unfold ipc_port_check_circularity, ipc_importance_check_circularity.
  apply wp_bind, wp_massert; [by apply negb_true_iff, Z.eqb_neq|].
  apply wp_bind, wp_massert; [by apply negb_true_iff, Z.eqb_neq|].
  destruct (Z.eqb_spec port dest); [done|]. apply wp_bind, wp_emit. fold (prepared dest k).
  apply wp_bind, wp_modify. fold (moved (prepared dest k)). set (k1 := moved (prepared dest k)).
  assert (settled port dest (ks_ports k1)) as Hset1 by by apply Hrely.
  pose proof Hset1 as [Hwf [p Hp] [d Hd] Hrefs Htasks]. pose proof (Hrefs _ _ Hd) as Hrd.
  apply wp_bind, (wp_get_port _ _ p); [apply Hp|]. apply wp_bind, (wp_get_port _ _ d); [done|].
  destruct (got && negb (ip_in_transit d)) eqn:Hgot.
  - apply andb_true_iff in Hgot as [_ Hnt%negb_true_iff]. assert (chain (ks_ports k1) dest dest 0) as Hc by by eapply chain_base.
    apply wp_bind. eapply wp_mono.
    { eapply (enter_transit_ok k1 port p dest d dest d 0 false _ Hp Hd Hd Hne (not_eq_sym Hne) Hdest Hc).
      - lia.
      - exact Hwf.
      - lia.
      - discriminate.
      - intros Hpos. apply orb_true_iff. right. by apply Z.ltb_lt.
      - intros Himp. apply orb_true_iff. left. by apply (lm_donor _ _ _ Hp).
      - by apply (Htasks dest). }
    intros [] k' He. apply wp_ret. exists k1. split; [by left|]. split; [|exact He].
    eapply (base_unreached _ dest dest); [done|apply Hp|apply limbo_facts, Hp|done].
  - apply wp_bind, wp_modify. fold (moved k1). eapply wp_mono; [apply slow_check_ok; by apply Hrely|].
    intros circular k' Hk'. exists (moved k1). split; [by right|]. exact Hk'.
Qed.

(** C21. Queueing a receive right for another port never closes a circle: under any
    interference that keeps the port in limbo and the graph well formed, the
    check returns TRUE exactly when the destination's chain already leads to the
    port, in the state where it walked the chain; otherwise the port, and
    nothing else, becomes queued on the destination.  Either way the chains stay
    free of circles, and the check terminates without a panic. *)
Theorem check_circularity_exact got k :
  settled port dest (ks_ports k) ->
  wp (ipc_port_check_circularity got port dest) (fun circular k' =>
    exists k1, (k1 = moved (prepared dest k) \/ k1 = moved (moved (prepared dest k))) /\
      transit_wf (ks_ports k') /\
      (circular = true <-> rtc (queued_on (ks_ports k1)) dest port) /\
      forall a b, queued_on (ks_ports k') a b <->
        queued_on (ks_ports k1) a b \/ (circular = false /\ a = port /\ b = dest)) k.
Proof using Hport Hdest Hne Hrely.
  intros Hset. eapply wp_mono; [by apply check_circularity_ok|].
  intros [|] k' (k1&Hk1&Hck); exists k1; (split; [done|]).
  - destruct Hck as (Hr&Hwf&Heq). rewrite Heq in *. split; [done|]. split; [done|]. naive_solver.
  - destruct Hck as (Hr&[Hwf He _]). split; [done|]. split; [naive_solver|]. intros a b. rewrite He. naive_solver.
Qed.

(** C22. Importance is conserved when a receive right is queued: the counts down
    the destination's chain grow by what the port carries, so that at every
    active port the boosts of its own messages (its count less the counts of
    the ports queued on it) are what they were. *)
Theorem transit_importance_conserved got k :
  settled port dest (ks_ports k) ->
  wp (ipc_port_check_circularity got port dest) (fun circular k' =>
    exists k1, (k1 = moved (prepared dest k) \/ k1 = moved (moved (prepared dest k))) /\
      forall a p, ks_ports k' !! a = Some p -> ip_active p = true -> own (ks_ports k') a = own (ks_ports k1) a) k.
Proof using Hport Hdest Hne Hrely.
  intros Hset. eapply wp_mono; [by apply check_circularity_ok|].
  intros [|] k' (k1&Hk1&Hck); exists k1; (split; [done|]).
  - destruct Hck as (_&_&->). done.
  - destruct Hck as (_&[_ _ Hown]). exact Hown.
Qed.
End check.

End transit.

(** ** The theorems at work *)
#[local] Existing Instances DEVELOPMENT quiet plain_externals.

(** 0x7000 is received in a space; 0x6000 is queued on it; 0x5000 is in limbo. *)
Definition limbo_port : ipc_port := set_ip_tempowner true (set_ip_impcount 2 (set_ip_receiver 0 (set_ip_receiver_name 0 fresh_port))).
Definition queued_port : ipc_port := set_ip_impcount 3 (set_ip_receiver 0x7000 (set_ip_receiver_name 0 fresh_port)).
Definition three_ports : gmap Z ipc_port :=
  <[0x5000 := limbo_port]> (<[0x6000 := queued_port]> {[ 0x7000 := set_ip_impcount 4 fresh_port ]}).
Definition transit_state : kst := set_ks_ports three_ports (one_port fresh_port).

Ltac three_cases_in H :=
  unfold three_ports in H;
  repeat first [apply lookup_insert_Some in H as [[<- <-]|[_ H]]
               |apply lookup_singleton_Some in H as [<- <-]].

Lemma three_queued a b : queued_on three_ports a b -> a = 0x6000 /\ b = 0x7000.
Proof. intros (p&Hp&Ht&Hd)%queued_on_inv. three_cases_in Hp; done. Qed.
Lemma three_wf : transit_wf three_ports.
Proof.
  split.
  - intros a b [-> ->]%three_queued. vm_compute. eauto.
  - intros a p Hp. three_cases_in Hp; done.
  - intros a Hc.
    assert (forall x y, tc (queued_on three_ports) x y -> x = 0x6000 /\ y = 0x7000) as Hall.
    { induction 1 as [x y Hq|x y z Hq Hr IH]; [by apply three_queued|].
      apply three_queued in Hq as [-> ->]. destruct IH as [[=] _]. }
    destruct (Hall _ _ Hc) as [-> [=]].
Qed.
Lemma three_refs a p : three_ports !! a = Some p -> 1 <= io_references p < OS_REFCNT_MAX_COUNT - 1.
Proof. intros Hp. three_cases_in Hp; split; vm_compute; done. Qed.
Lemma three_tasks a p : three_ports !! a = Some p -> base_imp_task p = IIT_NULL /\ ip_get_imp_task p = IIT_NULL.
Proof. intros Hp. three_cases_in Hp; done. Qed.

Lemma three_settled : settled 0x5000 0x6000 three_ports.
Proof.
  split.
  - apply three_wf.
  - exists limbo_port. split; done || (split; vm_compute; done).
  - vm_compute. eauto.
  - apply three_refs.
  - intros a p Hp _ Hn. by destruct (three_tasks a p Hp).
Qed.

Lemma check_circularity_exact_witness :
  exists circular k', ipc_port_check_circularity true 0x5000 0x6000 transit_state = Done (circular, k') /\
    transit_wf (ks_ports k').
Proof.
  destruct (wp_elim _ _ _ (check_circularity_exact 0x5000 0x6000 ltac:(done) ltac:(done) ltac:(done)
    (fun _ _ Hs => Hs) true transit_state three_settled)) as (circular&k'&Hr&k1&_&Hwf&_).
  exists circular, k'. by split.
Defined.

Lemma transit_importance_conserved_witness :
  exists circular k', ipc_port_check_circularity false 0x5000 0x6000 transit_state = Done (circular, k') /\
    forall a p, ks_ports k' !! a = Some p -> ip_active p = true -> own (ks_ports k') a = own three_ports a.
Proof.
  destruct (wp_elim _ _ _ (transit_importance_conserved 0x5000 0x6000 ltac:(done) ltac:(done) ltac:(done)
    (fun _ _ Hs => Hs) false transit_state three_settled)) as (circular&k'&Hr&k1&Hk1&Hown).
  exists circular, k'. split; [exact Hr|]. destruct Hk1 as [->| ->]; exact Hown.
Defined.
