(* ===== verification/ImportanceProps.v ===== *)
(** * Importance boosts down a chain

    [ipc_port_importance_delta] counts a boost at every port of the chain and
    hands it to the task at the end; the reference it takes on that task. *)

From stdpp Require Import relations.
From S2P Require Import Prelude MachPort Prng OsRefcnt IpcTable IpcHash IpcState IpcSpace EntryFacts IpcEntry EntrySpec IpcPort IpcChain PortSpec Samples IpcRequest IpcPortLife IpcTransit TransitGraph TransitProps.

Section deltas.
Context `{KernelConfig} `{Externals} `{Concurrency}.

(** ** Importance deltas *)

(** The port can take a delta of [d] all the way down its chain. *)
Record ready (port d : Z) (m : ports) : Prop := {
  rd_wf : transit_wf m;
  rd_port : is_Some (m !! port);
  rd_refs : forall a p, m !! a = Some p -> 1 <= io_references p < OS_REFCNT_MAX_COUNT - 1;
  rd_fits : forall a p, rtc (queued_on m) port a -> m !! a = Some p -> fits d p;
}.

Lemma boosted_view x d m m1 m' m2 :
  view <$> m = view <$> m1 -> view <$> m' = view <$> m2 -> boosted x d m1 m2 -> boosted x d m m'.
Proof.
  intros V1 V2 Hb a p Hp Ha. destruct (seen_lookup view _ _ _ _ V2 Hp) as (p2&Hp2&[= _ _ _ Hact]).
  rewrite (own_view _ _ V1), (own_view _ _ V2). apply (Hb a p2); [done|congruence].
Qed.

(** The counts down the chain and the reference on the task to boost. *)
Lemma importance_tail_ok k base b n port d (dropped took : bool) Q :
  let m := ks_ports k in
  transit_wf m -> (forall a p, rtc (queued_on m) port a -> m !! a = Some p -> fits d p) ->
  chain m port base n -> (n <= size m)%nat -> m !! base = Some b ->
  (took = true -> 1 < io_references b <= OS_REFCNT_MAX_COUNT) ->
  (forall k' , let t := base_imp_task b in
     ks_trace k' = ks_trace k ++ (if t =? IIT_NULL then [] else [Call "ipc_importance_task_reference" [t]]) ->
     (exists m2, view <$> ks_ports k' = view <$> m2 /\ same_but_imp m m2 /\ boosted port d m m2) ->
     Q (dropped, if ip_active b then d else 0, t) k') ->
  wp (let* fuel := chain_fuel in
      let* delta := importance_chain fuel port base d in
      let* b := get_port base in
      let imp_task := base_imp_task b in
      when (negb (imp_task =? IIT_NULL)) (emit "ipc_importance_task_reference" [imp_task]) ;;*
      when (dropped && took) (ip_release base) ;;*
      ret (dropped, delta, imp_task)) Q k.
Proof.
  intros m Hwf Hfit Hc Hn Hb Htook HQ. apply wp_bind, wp_gets, wp_bind.
  eapply wp_mono; [apply (importance_chain_ok d base b n); [done|unfold m in *; lia|done..]|].
  intros r k' (->&m2&->&Hs&Hbo). destruct (same_but_imp_lookup _ _ _ _ Hs Hb) as (b2&Hb2&He).
  apply wp_bind, (wp_get_port _ _ b2); [done|].
  rewrite (imp_blind base_imp_task _ _ (fun _ => eq_refl) He). cbv zeta.
  assert (io_references b2 = io_references b) as Hr2 by exact (imp_blind io_references _ _ (fun _ => eq_refl) He).
  apply wp_bind, wp_when; intros Ht.
  - apply wp_emit, wp_bind, wp_when; intros Htk.
    + apply andb_true_iff in Htk as [_ Htk]. specialize (Htook Htk).
      apply (wp_ip_release _ _ b2); [done|lia|]. apply wp_ret, HQ.
      * apply negb_true_iff in Ht. by rewrite Ht.
      * exists m2. split; [simpl; by apply (seen_insert view _ _ b2)|done].
    + apply wp_ret, HQ; [apply negb_true_iff in Ht; by rewrite Ht|]. by exists m2.
  - apply negb_false_iff in Ht. apply wp_bind, wp_when; intros Htk.
    + apply andb_true_iff in Htk as [_ Htk]. specialize (Htook Htk).
      apply (wp_ip_release _ _ b2); [done|lia|]. apply wp_ret, HQ; [by rewrite Ht, app_nil_r|].
      exists m2. split; [simpl; by apply (seen_insert view _ _ b2)|done].
    + apply wp_ret, HQ; [by rewrite Ht, app_nil_r|]. by exists m2.
Qed.

Lemma chain_lock_ok k port d Q :
  ready port d (ks_ports k) ->
  (forall base b n k2 b2, chain (ks_ports k) port base n -> (n <= size (ks_ports k))%nat ->
     ks_ports k !! base = Some b -> ks_ports k2 !! base = Some b2 ->
     set_io_references 0 b2 = set_io_references 0 b -> ks_trace k2 = ks_trace k ->
     (negb (ip_active b) = true -> 1 < io_references b2 <= OS_REFCNT_MAX_COUNT) ->
     (k2 = k \/ exists r, k2 = with_port base (set_io_references r b) k) ->
     Q (base, negb (ip_active b)) k2) ->
  wp (ipc_port_destination_chain_lock port) Q k.
Proof.
  intros [Hwf Hp Hrefs _] HQ. destruct (chain_exists _ _ Hwf Hp) as (base&n&Hn&Hc).
  destruct (chain_end _ _ _ _ Hc) as (b&Hb&_). pose proof (Hrefs _ _ Hb) as Hrb.
  unfold ipc_port_destination_chain_lock, chain_fuel. apply wp_bind, wp_gets.
  eapply wp_mono; [apply (chain_walk_ok _ b base n); [done|lia|done|lia]|]. intros ? k' [-> ->].
  destruct (ip_active b) eqn:Ha; cbn [negb].
  - replace false with (negb (ip_active b)) by by rewrite Ha.
    apply (HQ base b n k b); try done; [rewrite Ha; done|by left].
  - replace true with (negb (ip_active b)) by by rewrite Ha.
    apply (HQ base b n _ (set_io_references (io_references b + 1) b)); try done.
    + apply with_port_lookup.
    + simpl. lia.
    + right. eauto.
Qed.

(** A reference more or less on the base changes nothing that is counted. *)
Lemma locked_ok k k2 base b port d :
  ready port d (ks_ports k) -> ks_ports k !! base = Some b ->
  (k2 = k \/ exists r, k2 = with_port base (set_io_references r b) k) ->
  view <$> ks_ports k2 = view <$> ks_ports k /\ size (ks_ports k2) = size (ks_ports k) /\
  transit_wf (ks_ports k2) /\ (forall a p, rtc (queued_on (ks_ports k2)) port a -> ks_ports k2 !! a = Some p -> fits d p).
Proof.
  intros [Hwf _ _ Hfit] Hb [->|[r ->]]; [done|].
  assert (view <$> ks_ports (with_port base (set_io_references r b) k) = view <$> ks_ports k) as V
    by by apply (seen_insert view _ _ b).
  split; [done|]. split; [apply map_size_insert_Some; eauto|].
  split; [by eapply transit_wf_edges; [apply view_edges|]|].
  intros a p Hr Hp. destruct (seen_lookup view _ _ _ _ V Hp) as (p'&Hp'&[= _ _ Hi _]).
  assert (fits d p') as Hf.
  { apply (Hfit a p'); [|done]. revert Hr. apply rtc_subrel. intros x y. apply queued_edges. by apply view_edges. }
  unfold fits in *. by rewrite Hi in Hf.
Qed.

Definition tasks_receive (m : ports) : Prop :=
  forall a p, m !! a = Some p -> base_imp_task p <> IIT_NULL ->
    ipc_importance_task_is_any_receiver_type (base_imp_task p) = true.

Section delta.
Context (port d : Z) (k : kst).
Let inv (m : ports) : Prop := ready port d m /\ tasks_receive m.

(** The delta is applied to the state before or after the interference. *)
Definition delta_applied (k' : kst) : Prop :=
  exists k1, (k1 = k \/ k1 = moved k) /\ transit_wf (ks_ports k') /\
    (forall a b, queued_on (ks_ports k') a b <-> queued_on (ks_ports k1) a b) /\
    boosted port d (ks_ports k1) (ks_ports k').
Definition delta_returned (r : bool * Z * Z) (k' : kst) : Prop :=
  (r.2 <> IIT_NULL -> ipc_importance_task_is_any_receiver_type r.2 = true) /\ delta_applied k'.

Lemma delta_tail_ok k1 k2 base b b2 n (dropped took : bool) :
  (k1 = k \/ k1 = moved k) -> inv (ks_ports k1) ->
  chain (ks_ports k1) port base n -> (n <= size (ks_ports k1))%nat -> ks_ports k1 !! base = Some b ->
  ks_ports k2 !! base = Some b2 -> set_io_references 0 b2 = set_io_references 0 b ->
  (took = true -> 1 < io_references b2 <= OS_REFCNT_MAX_COUNT) ->
  (k2 = k1 \/ exists r, k2 = with_port base (set_io_references r b) k1) ->
  wp (let* delta := (ret d : M kst Z) in
      let* fuel := chain_fuel in
      let* delta := importance_chain fuel port base delta in
      let* b := get_port base in
      let imp_task := base_imp_task b in
      when (negb (imp_task =? IIT_NULL)) (emit "ipc_importance_task_reference" [imp_task]) ;;*
      when (dropped && took) (ip_release base) ;;*
      ret (dropped, delta, imp_task)) delta_returned k2.
Proof using Type.
  intros Hk1 [Hrd Htasks] Hc Hn Hb Hb2 Hbb Htk Hk2. apply wp_bind, wp_ret.
  destruct (locked_ok k1 k2 base b port d Hrd Hb Hk2) as (V&Hsz&Hwf&Hfit).
  apply (importance_tail_ok k2 base b2 n); [done|done| |by rewrite Hsz|done|done|].
  { eapply chain_edges; [symmetry; by apply view_edges|done]. }
  intros k' t _ (m2&Hv&Hs&Hbo). split.
  - simpl. intros Ht. assert (t = base_imp_task b) as Heq.
    { unfold t. change (base_imp_task b2) with (base_imp_task (set_io_references 0 b2)). by rewrite Hbb. }
    rewrite Heq in *. by apply (Htasks base).
  - exists k1. assert (edges <$> ks_ports k' = edges <$> ks_ports k1) as E.
    { rewrite (view_edges _ _ Hv), <- (same_edges _ _ Hs). by apply view_edges. }
    split; [done|]. split; [eapply transit_wf_edges; [exact E|apply Hrd]|]. split.
    + intros x y. split; apply queued_edges; [done|by symmetry].
    + eapply boosted_view; [symmetry; exact V|exact Hv|done].
Qed.

(** [ipc_port_importance_delta] applies its delta to the port and to every port
    down its chain, under any interference that leaves the delta
    applicable: the graph is unchanged, the boosts of the port's own messages
    change by the delta and those of every other active port do not. *)
Theorem importance_delta_boosts :
  (forall n k, ready port d (ks_ports k) /\ tasks_receive (ks_ports k) ->
     ready port d (ks_ports (other n k)) /\ tasks_receive (ks_ports (other n k))) ->
  ready port d (ks_ports k) -> tasks_receive (ks_ports k) -> d <> 0 ->
  wp (ipc_port_importance_delta port IPID_OPTION_NORMAL d) (fun _ k' => delta_applied k') k.
Proof using Type.
  intros Hrely Hrd Htr Hd. unfold ipc_port_importance_delta. apply wp_bind.
  apply (wp_mono _ delta_returned); cycle 1.
  { intros [[dropped delta] t] k' [Ht Hk']. destruct ((t =? IIT_NULL) || (delta =? 0)) eqn:Hz; [by apply wp_ret|].
    apply orb_false_iff in Hz as [Hz%Z.eqb_neq _]. apply wp_bind, wp_massert; [by apply Ht|].
    apply wp_bind. destruct (0 <? delta); apply wp_emit, wp_bind, wp_emit, wp_ret, Hk'. }
  unfold ipc_port_importance_delta_internal. destruct (Z.eqb_spec d 0) as [|_]; [done|].
  apply wp_bind, wp_massert; [done|]. pose proof Hrd as [Hwf [p Hp] _ _].
  apply wp_bind, (wp_get_port _ _ p); [done|]. destruct (ip_in_transit p) eqn:Ht.
  - apply wp_bind, wp_bind, wp_modify. fold (moved k). assert (inv (ks_ports (moved k))) as Hinv' by by apply Hrely.
    apply wp_bind, (chain_lock_ok _ _ d); [apply Hinv'|]. intros base b n k2 b2 Hc Hn Hb Hb2 Hbb _ Htk Hk2.
    apply wp_ret. by eapply (delta_tail_ok (moved k) k2 base b b2 n); [right|..].
  - apply wp_bind, wp_ret. eapply (delta_tail_ok k k port p p 0%nat); try done.
    + by left.
    + by eapply chain_base.
    + lia.
    + by left.
Qed.
End delta.

(** A boost that lost its race leaks a reference on the task: the port is in
    transit, the lock is dropped, and by the time it is taken again the
    send-possible request has fired; the delta becomes 0 and
    [ipc_port_importance_delta] returns without releasing the reference
    taken on the task at the base. *)
Theorem importance_delta_leaks_task port p k p1 base b n :
  let k1 := moved k in
  ks_ports k !! port = Some p -> ip_in_transit p = true ->
  ready port 0 (ks_ports k1) -> ks_ports k1 !! port = Some p1 -> ip_sprequests p1 = false ->
  chain (ks_ports k1) port base n -> ks_ports k1 !! base = Some b ->
  base_imp_task b <> IIT_NULL ->
  wp (ipc_port_importance_delta port IPID_OPTION_SENDPOSSIBLE 1) (fun dropped k' => dropped = true /\
    ks_trace k' = ks_trace k1 ++ [Call "ipc_importance_task_reference" [base_imp_task b]]) k.
Proof.
  intros k1 Hp Ht Hrd Hp1 Hspr Hc Hb Htask. unfold ipc_port_importance_delta. apply wp_bind.
  unfold ipc_port_importance_delta_internal. destruct (Z.eqb_spec 1 0); [done|].
  apply wp_bind, wp_massert; [done|]. apply wp_bind, (wp_get_port _ _ p); [done|]. rewrite Ht.
  apply wp_bind, wp_bind, wp_modify. fold (moved k). fold k1.
  apply wp_bind, (chain_lock_ok _ _ 0); [done|]. intros base' b' n' k2 b2 Hc' Hn' Hb' Hb2 Hbb Htr Htk Hk2.
  assert (base' = base) as -> by (eapply chain_det; done). rewrite Hb in Hb'. injection Hb' as <-.
  destruct (locked_ok k1 k2 base b port 0 Hrd Hb Hk2) as (V&Hsz&Hwf&Hfit).
  assert (exists q, ks_ports k2 !! port = Some q /\ ip_sprequests q = false) as (q&Hq&Hqs).
  { destruct Hk2 as [->|[r ->]]; [eauto|]. simpl. destruct (decide (base = port)) as [->|];
      [rewrite lookup_insert_eq|rewrite lookup_insert_ne by done; eauto]. eexists. split; [done|]. simpl. congruence. }
  apply wp_ret, wp_bind. change (has IPID_OPTION_SENDPOSSIBLE IPID_OPTION_SENDPOSSIBLE) with true.
  apply wp_bind, wp_massert; [done|]. apply wp_bind, (wp_get_port _ _ q); [done|]. rewrite Hqs. apply wp_ret.
  apply (importance_tail_ok k2 base b2 n'); [done|done| |by rewrite Hsz|done|done|].
  { eapply chain_edges; [symmetry; by apply view_edges|done]. }
  intros k' t Htrace _. assert (t = base_imp_task b) as Heq.
  { unfold t. change (base_imp_task b2) with (base_imp_task (set_io_references 0 b2)). by rewrite Hbb. }
  rewrite Heq in *. destruct (Z.eqb_spec (base_imp_task b) IIT_NULL); [done|].
  assert ((if ip_active b2 then 0 else 0) = 0) as -> by by destruct (ip_active b2).
  apply wp_ret. split; [done|]. by rewrite Htrace, Htr.
Qed.
End deltas.

(** ** The theorems at work *)
#[local] Existing Instances DEVELOPMENT quiet plain_externals.

Lemma three_ready d : 0 <= d -> ready 0x6000 d three_ports.
Proof. intros Hd. split; [apply three_wf|vm_compute; eauto|apply three_refs|by left]. Qed.
Lemma three_receive : tasks_receive three_ports.
Proof. intros a p Hp Hn. by destruct (three_tasks a p Hp). Qed.

Lemma importance_delta_boosts_witness :
  exists dropped k', ipc_port_importance_delta 0x6000 IPID_OPTION_NORMAL 1 transit_state = Done (dropped, k') /\
    transit_wf (ks_ports k').
Proof.
  destruct (wp_elim _ _ _ (importance_delta_boosts (H1 := quiet) 0x6000 1 transit_state (fun _ _ Hs => Hs)
    (three_ready 1 ltac:(lia)) three_receive ltac:(done))) as (dropped&k'&Hr&k1&_&Hwf&_).
  exists dropped, k'. by split.
Defined.

(** The task of every space accepts boosts; its importance is at 0x9000. *)
Definition boosting_externals : Externals := {|
  ipc_space_kernel := 0x100;
  current_task_is_importance_donor := true;
  no_thread_assertions := true;
  current_task_imp_base := 0;
  ipc_importance_task_is_any_receiver_type _ := true;
  ipc_service_port_label_is_special_pdrequest _ := false;
  ipc_service_port_label_is_pd_notification _ := false;
  ipc_service_port_label_get_attr _ := (0, 0);
  space_task_imp_base := None;
  receiver_task_imp_base _ := Some 0x9000;
  port_send_turnstile _ := false;
  space_task_is_immovable := false;
  space_task_is_pinned := false;
  current_task_is_initproc := false;
  ith_knote := 0;
  ith_msg_addr := 0;
  ipc_kobject_label_check _ _ flags := ret (true, 0, flags);
  it_requests_alloc _ := 0x7000;
  klist_first _ := false;
  space_active _ := true |}.

Lemma importance_delta_leaks_task_witness :
  exists k', ipc_port_importance_delta (H0 := boosting_externals) (H1 := quiet) 0x6000 IPID_OPTION_SENDPOSSIBLE 1 transit_state =
    Done (true, k') /\ ks_trace k' = [Call "ipc_importance_task_reference" [0x9000]].
Proof.
  destruct (wp_elim _ _ _ (importance_delta_leaks_task (H0 := boosting_externals) (H1 := quiet) 0x6000 queued_port transit_state
    queued_port 0x7000 (set_ip_impcount 4 fresh_port) 1 eq_refl eq_refl (three_ready 0 ltac:(lia)) eq_refl eq_refl
    ltac:(eapply chain_step; [reflexivity|reflexivity|eapply chain_base; reflexivity]) eq_refl ltac:(done)))
    as (dropped&k'&Hr&->&Ht).
  exists k'. by split.
Defined.
