(* ===== verification/IpcKobject.v ===== *)
(** * Ports of kernel objects ([osfmk/kern/ipc_kobject.c], [ipc_kobject.h])

    A port of the kernel's space that stands for a kernel object: its creation, its
    no-senders requests, and what gives it an object or takes the object away from it. *)

From S2P Require Import Prelude MachPort KmsgQueue KmsgSpec Prng OsRefcnt IpcTable IpcHash IpcState IpcSpace IpcPort IpcMqueue IpcRequest IpcPortLife.

Definition IPC_KOBJECT_ALLOC_MAKE_SEND : Z := 0x01.
Definition IPC_KOBJECT_ALLOC_NSREQUEST : Z := 0x02.
Definition IPC_KOBJECT_ALLOC_NO_GRANT : Z := 0x04.
Definition IPC_KOBJECT_ALLOC_IMMOVABLE_SEND : Z := 0x08.
Definition IPC_KOBJECT_ALLOC_PINNED : Z := 0x20.
Definition IPC_PORT_INIT_NONE : Z := 0.
Definition IKO_NULL : Z := 0.
Definition IKOT_NONE : Z := 0.
Definition IKOT_PORT_SUBST_ONCE : Z := 9.
Definition IKOT_HOST_NOTIFY : Z := 16.
Definition IKOT_TASK_RESUME : Z := 36.
Definition IKOT_EVENTLINK : Z := 43.

(** [struct ipc_kobject_ops]; an absent callback is [None]. *)
Record ipc_kobject_ops := mk_ipc_kobject_ops {
  iko_op_allow_upgrade : bool;
  iko_op_stable : bool;
  iko_op_permanent : bool;
  iko_op_no_senders : option (Z -> Z -> M kst unit);
  iko_op_destroy : option (Z -> M kst unit);
}.

(** The table that the kernel's [IPC_KOBJECT_DEFINE]s fill at start-up, and its size. *)
Class KobjectOps := {
  CONFIG_PROC_RESOURCE_LIMITS : bool;
  ipc_kobject_ops_array : Z -> ipc_kobject_ops;
}.
Definition IKOT_UNKNOWN `{KobjectOps} : Z := if CONFIG_PROC_RESOURCE_LIMITS then 52 else 51.
Definition IKOT_MAX_TYPE `{KobjectOps} : Z := IKOT_UNKNOWN + 1.
Definition ipc_kobject_ops_get `{KobjectOps} {S} (ikot : Z) : M S ipc_kobject_ops :=
  if (ikot <? IKOT_NONE) || (IKOT_MAX_TYPE <=? ikot) then panic "invalid kobject type"
  else ret (ipc_kobject_ops_array ikot).

(** [assert(ipc_kobject_ops_get(type)->...)], which looks the type up only where assertions are
    compiled in. *)
Definition assert_op `{KernelConfig} `{KobjectOps} {S} (type : Z) (op : ipc_kobject_ops -> bool) (what : string)
    : M S unit :=
  when MACH_ASSERT (let* ops := ipc_kobject_ops_get type in massert (op ops) what).

Section operations.
Context `{KernelConfig} `{Externals} `{RequestSizes} `{KobjectOps}.

(** ** The object of a port *)
Definition ipc_kobject_set_raw (port kobject : Z) : M kst unit := mod_port port (set_ip_kobject kobject).
Definition ipc_kobject_set_internal (port kobject type : Z) : M kst unit :=
  massert (negb (type =? IKOT_NONE)) "type != IKOT_NONE" ;;*
  mod_port port (fun p => set_io_bits (Z.lor (io_bits p) (Z.lor type IO_BITS_KOBJECT)) p) ;;*
  ipc_kobject_set_raw port kobject.
Definition ipc_kobject_get_raw (p : ipc_port) : Z := ip_kobject p.
Definition ipc_kobject_get_locked (port type : Z) : M kst Z :=
  let* p := get_port port in
  ret (if ip_active p && (type =? ip_kotype p) then ipc_kobject_get_raw p else IKO_NULL).
Definition ipc_kobject_get_stable (port type : Z) : M kst Z :=
  assert_op type iko_op_stable "ipc_kobject_ops_get(type)->iko_op_stable" ;;*
  ipc_kobject_get_locked port type.

(** ** Creation *)
Definition ipc_kobject_init_port (port kobject type options : Z) : M kst unit :=
  ipc_kobject_set_internal port kobject type ;;*
  when (has options IPC_KOBJECT_ALLOC_MAKE_SEND) (ipc_port_make_send_locked port ;;* ret tt) ;;*
  when (has options IPC_KOBJECT_ALLOC_NSREQUEST)
    (mod_port port (set_ip_nsrequest IP_KOBJECT_NSREQUEST_ARMED) ;;* ip_reference port) ;;*
  when (has options IPC_KOBJECT_ALLOC_NO_GRANT) (mod_port port (set_ip_no_grant true)) ;;*
  when (has options IPC_KOBJECT_ALLOC_IMMOVABLE_SEND) (mod_port port (set_ip_immovable_send true)) ;;*
  when (has options IPC_KOBJECT_ALLOC_PINNED) (mod_port port (set_ip_pinned true)).
(** [a] is where the zone allocator puts the port. *)
Definition ipc_kobject_alloc_port (a kobject type options : Z) : M kst Z :=
  let* port := ipc_port_alloc_special a ipc_space_kernel IPC_PORT_INIT_NONE in
  if port =? IP_NULL then panic "ipc_kobject_alloc_port(): failed to allocate port"
  else ipc_kobject_init_port port kobject type options ;;* ret port.

(** ** No-senders requests *)
Definition ipc_kobject_nsrequest_locked (port sync : Z) : M kst kern_return_t :=
  let* p := get_port port in
  if ip_nsrequest p =? IP_KOBJECT_NSREQUEST_ARMED then ret KERN_ALREADY_WAITING
  else if (ip_srights p =? 0) && (sync <=? ip_mscount p) then ret KERN_FAILURE
  else
    put_port port (set_ip_nsrequest IP_KOBJECT_NSREQUEST_ARMED p) ;;*
    ip_reference port ;;*
    ret KERN_SUCCESS.
(** With the make-send count that the function stores for its caller. *)
Definition ipc_kobject_nsrequest (port sync : Z) : M kst (kern_return_t * Z) :=
  if IP_VALID port then
    let* p := get_port port in
    let* kr := if ip_active p then ipc_kobject_nsrequest_locked port sync else ret KERN_INVALID_RIGHT in
    ret (kr, ip_mscount p)
  else ret (KERN_INVALID_RIGHT, 0).
Definition ipc_kobject_make_send_nsrequest (port : Z) : M kst kern_return_t :=
  if IP_VALID port then
    let* p := get_port port in
    if ip_active p then
      ipc_port_make_send_locked port ;;*
      let* kr := ipc_kobject_nsrequest_locked port 0 in
      massert (bool_decide (kr <> KERN_FAILURE)) "kr != KERN_FAILURE" ;;*
      ret kr
    else ret KERN_INVALID_RIGHT
  else ret KERN_INVALID_RIGHT.

(** ** Destruction *)

(** The alternate port of a label belongs to the label. *)
Definition ipc_kobject_disable_internal (port : Z) : M kst Z :=
  let* p := get_port port in
  put_port port (set_ip_kobject 0 p) ;;*
  when (ip_is_kolabeled p) (emit "ikol_alt_port" [ip_splabel p; IP_NULL]) ;;*
  ret (ipc_kobject_get_raw p).
Definition ipc_kobject_dealloc_port (port mscount type : Z) : M kst Z :=
  let* ops := ipc_kobject_ops_get type in
  let* p := get_port port in
  require_ip_active p ;;*
  if negb (ip_kotype p =? type) then panic "port of type, expecting"
  else if negb (mscount =? 0) && negb (ip_mscount p =? mscount) then panic "unexpected make-send count"
  else if (negb (mscount =? 0) || iko_op_stable ops) && negb (ip_srights p =? 0)
       then panic "unexpected send right count"
  else
    let* kobject := match iko_op_destroy ops with
                    | None => ipc_kobject_disable_internal port
                    | Some _ => ret IKO_NULL
                    end in
    ipc_port_dealloc_special_and_unlock port ipc_space_kernel ;;*
    ret kobject.

(** ** A port made on first use

    [port_store] is what the location that owns the port holds when it is read, [current]
    what it holds at the compare-and-exchange, [a] where the allocator would put a port.  The
    result says whether a notification was armed, and what the location holds afterwards. *)
Definition ipc_kobject_make_send_lazy_alloc_port (a port_store current kobject type alloc_opts : Z)
    : M kst (bool * Z) :=
  let existing (port : Z) : M kst (bool * Z) :=
    let* kr := ipc_kobject_make_send_nsrequest port in
    massert (bool_decide (kr = KERN_SUCCESS \/ kr = KERN_ALREADY_WAITING))
      "kr == KERN_SUCCESS || kr == KERN_ALREADY_WAITING" ;;*
    ret (bool_decide (kr = KERN_SUCCESS), port) in
  if negb (IP_VALID port_store) then
    let* port := ipc_kobject_alloc_port a kobject type
                   (Z.lor (Z.lor IPC_KOBJECT_ALLOC_MAKE_SEND IPC_KOBJECT_ALLOC_NSREQUEST) alloc_opts) in
    if current =? IP_NULL then ret (true, port)
    else
      mod_port port (fun p => set_ip_srights 0 (set_ip_mscount 0 p)) ;;*
      ip_release_live port ;;*
      ipc_kobject_dealloc_port port 0 type ;;*
      existing current
  else existing port_store.

(** ** Changing the object *)
Definition ipc_kobject_enable (port kobject type : Z) : M kst unit :=
  assert_op type (fun ops => negb (iko_op_stable ops)) "!ipc_kobject_ops_get(type)->iko_op_stable" ;;*
  let* p := get_port port in
  require_ip_active p ;;*
  if negb (type =? ip_kotype p) then panic "unexpected kotype of port" else ipc_kobject_set_raw port kobject.
Definition ipc_kobject_disable (port type : Z) : M kst Z :=
  let* p := get_port port in
  when (ip_active p)
    (assert_op type (fun ops => negb (iko_op_stable ops)) "!ipc_kobject_ops_get(type)->iko_op_stable") ;;*
  if negb (ip_kotype p =? type) then panic "port of type, expecting" else ipc_kobject_disable_internal port.

Definition ipc_kobject_may_upgrade (p : ipc_port) : bool :=
  if negb (ip_active p) || negb (ip_kotype p =? IKOT_NONE) then false
  else if ip_tempowner p || ip_specialreply p then false
  else if ip_has_watchport p || ipc_port_has_prdrequest p then false
  else true.
Definition ipc_kobject_upgrade (port kobject type : Z) : M kst kern_return_t :=
  assert_op type iko_op_allow_upgrade "ipc_kobject_ops_get(type)->iko_op_allow_upgrade" ;;*
  let* p := get_port port in
  if ipc_kobject_may_upgrade p
  then ipc_kobject_set_internal port kobject type ;;* ret KERN_SUCCESS
  else ret KERN_INVALID_CAPABILITY.
Definition ipc_kobject_downgrade_host_notify (port : Z) : M kst Z :=
  let* p := get_port port in
  if ip_kotype p =? IKOT_HOST_NOTIFY then
    let* kobject := ipc_kobject_disable port IKOT_HOST_NOTIFY in
    mod_port port (fun p => set_io_bits (Z.land (io_bits p) (Z.lnot IO_BITS_KOTYPE)) p) ;;*
    ret kobject
  else ret IKO_NULL.

(** ** Notifications *)
(** An absent callback is an assertion failure, or a jump to address zero. *)
Definition ipc_kobject_notify_no_senders (port mscount : Z) : M kst unit :=
  let* p := get_port port in
  let* ops := ipc_kobject_ops_get (ip_kotype p) in
  match iko_op_no_senders ops with
  | None => panic "ops->iko_op_no_senders"
  | Some no_senders => no_senders port mscount
  end ;;*
  ip_release port.
Definition ipc_kobject_notify_send_once_and_unlock (port : Z) : M kst unit :=
  let* p := get_port port in
  massert (negb (ip_specialreply p)) "!port->ip_specialreply" ;;*
  if ip_sorights p =? 0 then panic "Over-release of port send-once right!"
  else
    put_port port (set_ip_sorights (u32 (ip_sorights p - 1)) p) ;;*
    when (ip_kotype p =? IKOT_TASK_RESUME) (emit "task_suspension_send_once" [port]) ;;*
    ip_release port.
End operations.
