(* ===== verification/KobjectProps.v ===== *)
(** * The life of the send rights on a kernel object's port

    A kernel object that makes its port on first use gives one of its references to the port
    each time [ipc_kobject_make_send_lazy_alloc_port] says that it armed a notification, and
    takes one back at each no-senders notification.  The theorem of this file is that the two
    alternate, whatever is done with the rights. *)

From S2P Require Import Prelude MachPort KmsgQueue KmsgSpec Prng OsRefcnt IpcTable IpcHash IpcState IpcSpace EntryFacts IpcEntry EntrySpec IpcPort PortSpec IpcMqueue Samples IpcRequest RequestProps IpcPortLife DestroyProps IpcKobject.

(** ** The contract *)
Inductive kobject_op := LazyMake | CopyRight | ReleaseRight.
Record kobject_rights := mk_kobject_rights { kr_send : Z; kr_made : Z; kr_fired : Z }.

(** The new rights, the answers of the makers and the notifications; [None] where a client
    uses a right it does not have. *)
Definition kobject_step (a : Z) (s : kobject_rights) (op : kobject_op)
    : option (kobject_rights * list bool * list event) :=
  let '(mk_kobject_rights send made fired) := s in
  match op with
  | LazyMake => Some (mk_kobject_rights (send + 1) (made + 1) fired, [send =? 0], [])
  | CopyRight => if 0 <? send then Some (mk_kobject_rights (send + 1) made fired, [], []) else None
  | ReleaseRight =>
    if negb (0 <? send) then None
    else if send =? 1
         then Some (mk_kobject_rights 0 made (fired + 1), [], [Call "ipc_kobject_notify_no_senders" [a; made]])
         else Some (mk_kobject_rights (send - 1) made fired, [], [])
  end.
Fixpoint kobject_run (a : Z) (s : kobject_rights) (ops : list kobject_op)
    : option (kobject_rights * list bool * list event) :=
  match ops with
  | [] => Some (s, [], [])
  | op :: ops =>
    '(s, armed, evs) ← kobject_step a s op; '(s, armed', evs') ← kobject_run a s ops;
    Some (s, armed ++ armed', evs ++ evs')
  end.
Definition armed_count (l : list bool) : Z := Z.of_nat (length (filter (fun b : bool => b) l)).
Definition armed_now (s : kobject_rights) : Z := if 0 <? kr_send s then 1 else 0.

Section histories.
Context `{KernelConfig} `{Externals} `{RequestSizes} `{KobjectOps}.
Context (a kobject type : Z) (Ha : IP_VALID a = true) (Hty : 0 < type < IKOT_MAX_TYPE).

(** The code behind the operations on the port at [a]; [LazyMake] finds it in its location. *)
Definition kobject_exec (op : kobject_op) : M kst (list bool) :=
  match op with
  | LazyMake =>
    let* (armed, _) := ipc_kobject_make_send_lazy_alloc_port IP_NULL a a kobject type 0 in ret [armed]
  | CopyRight => ipc_port_copy_send a ;;* ret []
  | ReleaseRight => ipc_port_release_send a ;;* ret []
  end.
Fixpoint kobject_exec_all (ops : list kobject_op) : M kst (list bool) :=
  match ops with
  | [] => ret []
  | op :: ops => let* l := kobject_exec op in let* l' := kobject_exec_all ops in ret (l ++ l')
  end.
(** The first use, of an empty location, and what follows. *)
Definition kobject_history (ops : list kobject_op) : M kst (list bool) :=
  let* (armed, port) := ipc_kobject_make_send_lazy_alloc_port a IP_NULL IP_NULL kobject type 0 in
  let* l := kobject_exec_all ops in
  ret (armed :: l).

(** The references of the port: its own, one for each send right, the armed request's, and
    one for each notification on its way. *)
Record holds_kobject (p : ipc_port) (s : kobject_rights) : Prop := {
  hk_active : ip_active p = true;
  hk_object : ip_kobject p = kobject;
  hk_type : ip_kotype p = type;
  hk_send : ip_srights p = kr_send s;
  hk_made : ip_mscount p = kr_made s;
  hk_armed : ip_nsrequest p = if 0 <? kr_send s then IP_KOBJECT_NSREQUEST_ARMED else IP_NULL;
  hk_refs : io_references p = 1 + kr_send s + armed_now s + kr_fired s;
  hk_pos : 0 <= kr_send s /\ 0 <= kr_made s /\ 0 <= kr_fired s;
}.
Definition kobject_room (n : Z) (s : kobject_rights) : Prop :=
  2 + kr_send s + kr_fired s + n <= OS_REFCNT_MAX_COUNT /\ kr_made s + n < 2 ^ 32.

Lemma lazy_make_ok k p s : ks_ports k !! a = Some p -> holds_kobject p s -> kobject_room 1 s ->
  wp (kobject_exec LazyMake) (fun l k' => exists p', l = [kr_send s =? 0] /\ k' = with_port a p' k /\
    holds_kobject p' (mk_kobject_rights (kr_send s + 1) (kr_made s + 1) (kr_fired s))) k.
Proof using Ha.
  intros Hp Hh [Hr Hm]. pose proof Hh as [Hact ?? Hs Hmd Harm Hrf (?&?&?)].
  unfold OS_REFCNT_MAX_COUNT in Hr. unfold armed_now in *.
  unfold kobject_exec, ipc_kobject_make_send_lazy_alloc_port. rewrite Ha. cbn [negb].
  apply wp_bind. unfold ipc_kobject_make_send_nsrequest. rewrite Ha. port_goal. rewrite Hact.
  unfold ipc_port_make_send_locked. port_goal.
  eapply wp_ip_reference; [apply with_port_lookup|simpl; unfold OS_REFCNT_MAX_COUNT; zcase; lia|].
  rewrite with_port_twice. port_goal. unfold ipc_kobject_nsrequest_locked. port_goal. simpl.
  rewrite !u32_small by lia. rewrite Harm.
  destruct (Z.ltb_spec 0 (kr_send s)); simpl.
  - port_goal. apply wp_massert; [done|]. port_goal. apply wp_massert; [done|]. port_goal.
    eexists. split; [|split; [done|]].
    + destruct (Z.eqb_spec (kr_send s) 0); [lia|done].
    + split; unfold armed_now; simpl; try done; zcase; simpl; lia.
  - destruct (Z.eqb_spec (ip_srights p + 1) 0); [lia|]. simpl. port_goal.
    eapply wp_ip_reference; [apply with_port_lookup|simpl; unfold OS_REFCNT_MAX_COUNT; zcase; lia|].
    rewrite !with_port_twice. port_goal. apply wp_massert; [done|]. port_goal. apply wp_massert; [done|]. port_goal.
    eexists. split; [|split; [done|]].
    + destruct (Z.eqb_spec (kr_send s) 0); [done|lia].
    + split; unfold armed_now; simpl; try done; zcase; simpl; lia.
Qed.

Lemma copy_right_ok k p s : ks_ports k !! a = Some p -> holds_kobject p s -> kobject_room 1 s -> 0 < kr_send s ->
  wp (kobject_exec CopyRight) (fun l k' => exists p', l = [] /\ k' = with_port a p' k /\
    holds_kobject p' (mk_kobject_rights (kr_send s + 1) (kr_made s) (kr_fired s))) k.
Proof using Ha.
  intros Hp Hh [Hr Hm] Hpos. pose proof Hh as [Hact ?? Hs Hmd Harm Hrf (?&?&?)].
  unfold OS_REFCNT_MAX_COUNT in Hr. unfold armed_now in *.
  unfold kobject_exec, ipc_port_copy_send. rewrite Ha. cbn [negb]. port_goal. rewrite Hact.
  unfold ipc_port_copy_send_locked. port_goal. apply wp_massert; [apply Z.ltb_lt; lia|]. port_goal.
  eapply wp_ip_reference; [apply with_port_lookup|simpl; unfold OS_REFCNT_MAX_COUNT; zcase; lia|].
  rewrite with_port_twice. port_goal. eexists. split; [done|]. split; [done|]. simpl.
  rewrite !u32_small by lia.
  split; unfold armed_now; simpl; try done; try rewrite Harm; zcase; simpl; try done; lia.
Qed.

Lemma release_right_ok k p s s' l evs : ks_ports k !! a = Some p -> holds_kobject p s -> kobject_room 0 s ->
  kobject_step a s ReleaseRight = Some (s', l, evs) ->
  wp (kobject_exec ReleaseRight) (fun l' k' => exists p', l' = l /\ k' = traced evs (with_port a p' k) /\
    holds_kobject p' s') k.
Proof using Ha.
  destruct s as [send made fired]. intros Hp Hh [Hr Hm] Hstep. pose proof Hh as [Hact ?? Hs Hmd Harm Hrf (?&?&?)].
  unfold OS_REFCNT_MAX_COUNT in Hr. unfold armed_now in *. simpl in *.
  destruct (Z.ltb_spec 0 send); [|done]. simpl in Hstep.
  unfold ipc_port_release_send. rewrite Ha. unfold ipc_port_release_send_and_unlock.
  port_goal. destruct (Z.eqb_spec (ip_srights p) 0); [lia|]. port_goal.
  rewrite Hact. simpl. rewrite u32_small by lia.
  destruct (Z.eqb_spec send 1); injection Hstep as <- <- <-.
  - destruct (Z.eqb_spec (ip_srights p - 1) 0); [|lia].
    unfold ipc_notify_no_senders_prepare. port_goal. simpl. rewrite Harm. simpl. port_goal.
    assert (ip_active (set_ip_srights (ip_srights p - 1) p) = true) as -> by exact Hact. port_goal.
    eapply wp_ip_release; [apply with_port_lookup|simpl; unfold OS_REFCNT_MAX_COUNT; zcase; lia|].
    rewrite !with_port_twice. unfold ipc_notify_no_senders_emit. simpl.
    destruct (Z.eqb_spec a IP_NULL) as [->|]; [done|]. simpl. port_goal.
    eexists. split; [done|]. split; [unfold traced; simpl; by rewrite Hmd|].
    split; unfold armed_now; simpl; try done; lia.
  - destruct (Z.eqb_spec (ip_srights p - 1) 0); [lia|]. port_goal.
    eapply wp_ip_release; [apply with_port_lookup|simpl; unfold OS_REFCNT_MAX_COUNT; zcase; lia|].
    rewrite with_port_twice. unfold ipc_notify_no_senders_emit. simpl. port_goal.
    eexists. split; [done|]. rewrite traced_nil. split; [done|].
    split; unfold armed_now; simpl; try done; destruct (Z.ltb_spec 0 (send - 1)); simpl; try done; lia.
Qed.

Lemma kobject_exec_ok k p s s' op l evs : ks_ports k !! a = Some p -> holds_kobject p s -> kobject_room 1 s ->
  kobject_step a s op = Some (s', l, evs) ->
  wp (kobject_exec op) (fun l' k' => exists p', l' = l /\ k' = traced evs (with_port a p' k) /\ holds_kobject p' s') k.
Proof using Ha.
  intros Hp Hh Hr Hstep. assert (kobject_room 0 s) as Hr0 by (unfold kobject_room in *; lia).
  destruct op; [| |by eapply release_right_ok]; destruct s as [send made fired]; simpl in Hstep.
  - injection Hstep as <- <- <-. eapply wp_mono; [by eapply lazy_make_ok|].
    intros ? ? (p'&->&->&?). exists p'. by rewrite traced_nil.
  - destruct (Z.ltb_spec 0 send); [|done]. injection Hstep as <- <- <-.
    eapply wp_mono; [by eapply copy_right_ok|]. intros ? ? (p'&->&->&?). exists p'. by rewrite traced_nil.
Qed.

Lemma kobject_step_growth s op s' l evs n : kobject_step a s op = Some (s', l, evs) ->
  kobject_room (n + 1) s -> kobject_room n s'.
Proof using.
  destruct s as [send made fired]. unfold kobject_room. destruct op; simpl; zcase; simpl;
    intros [= <- <- <-] ?; simpl in *; try lia.
Qed.

(** Armings and notifications alternate. *)
Lemma kobject_step_balance s op s' l evs : kobject_step a s op = Some (s', l, evs) -> 0 <= kr_send s ->
  0 <= kr_send s' /\ armed_now s + armed_count l = Z.of_nat (length evs) + armed_now s'.
Proof using.
  destruct s as [send made fired]. unfold armed_now, armed_count.
  destruct op; simpl; zcase; simpl; intros [= <- <- <-] ?; simpl in *; zcase; simpl in *; lia.
Qed.
Lemma armed_count_app l l' : armed_count (l ++ l') = armed_count l + armed_count l'.
Proof using. unfold armed_count. rewrite filter_app, length_app. lia. Qed.
Lemma kobject_run_balance ops : forall s s' l evs, kobject_run a s ops = Some (s', l, evs) -> 0 <= kr_send s ->
  armed_now s + armed_count l = Z.of_nat (length evs) + armed_now s'.
Proof using.
  induction ops as [|op ops IH]; intros s s' l evs Hrun Hs; simpl in Hrun.
  - injection Hrun as <- <- <-. unfold armed_count. simpl. lia.
  - destruct (kobject_step a s op) as [[[s1 l1] e1]|] eqn:E; [|done]. simpl in Hrun.
    destruct (kobject_run a s1 ops) as [[[s2 l2] e2]|] eqn:E2; [|done]. injection Hrun as <- <- <-.
    destruct (kobject_step_balance _ _ _ _ _ E Hs) as [Hs1 Hb]. specialize (IH _ _ _ _ E2 Hs1).
    rewrite armed_count_app, length_app. lia.
Qed.

Lemma kobject_exec_all_ok ops : forall k p s s' l evs, ks_ports k !! a = Some p -> holds_kobject p s ->
  kobject_room (Z.of_nat (length ops)) s -> kobject_run a s ops = Some (s', l, evs) ->
  wp (kobject_exec_all ops) (fun l' k' => exists p', l' = l /\ k' = traced evs (with_port a p' k) /\
    holds_kobject p' s') k.
Proof using Ha.
  induction ops as [|op ops IH]; intros k p s s' l evs Hp Hh Hr Hrun; simpl in Hrun.
  - injection Hrun as <- <- <-. apply wp_ret. exists p. by rewrite traced_nil, with_port_id.
  - destruct (kobject_step a s op) as [[[s1 l1] e1]|] eqn:E; [|done]. simpl in Hrun.
    destruct (kobject_run a s1 ops) as [[[s2 l2] e2]|] eqn:E2; [|done]. injection Hrun as <- <- <-.
    cbn [kobject_exec_all]. apply wp_bind. eapply wp_mono.
    { eapply kobject_exec_ok; [done|done| |done]. unfold kobject_room in *. simpl in Hr. lia. }
    intros ? ? (p1&->&->&Hh1). apply wp_bind. eapply wp_mono.
    { eapply (IH _ p1 s1); [apply with_port_lookup|done| |done].
      eapply kobject_step_growth; [done|]. unfold kobject_room in *. simpl in Hr. lia. }
    intros ? ? (p2&->&->&Hh2). apply wp_ret. exists p2. split; [done|]. split; [|done].
    unfold traced, with_port, set_ks_ports, set_ks_trace. simpl. by rewrite insert_insert_eq, app_assoc.
Qed.

(** The bits of a new port of the type. *)
Lemma kobject_bits : let bits := Z.lor (io_makebits true IOT_PORT 0) (Z.lor type IO_BITS_KOBJECT) in
  has bits IO_BITS_ACTIVE = true /\ Z.land bits IO_BITS_KOTYPE = type.
Proof using Hty.
  assert (type < 53) as Hm by (revert Hty; unfold IKOT_MAX_TYPE, IKOT_UNKNOWN; destruct CONFIG_PROC_RESOURCE_LIMITS; lia).
  set (f := fun t => has (Z.lor (io_makebits true IOT_PORT 0) (Z.lor t IO_BITS_KOBJECT)) IO_BITS_ACTIVE &&
    (Z.land (Z.lor (io_makebits true IOT_PORT 0) (Z.lor t IO_BITS_KOBJECT)) IO_BITS_KOTYPE =? t)).
  assert (f type = true) as Hf by (apply (forallb_seqZ f 53); [reflexivity|lia]).
  unfold f in Hf. apply andb_true_iff in Hf as [? ?%Z.eqb_eq]. done.
Qed.

Lemma alloc_port_ok k :
  wp (ipc_kobject_alloc_port a kobject type (Z.lor IPC_KOBJECT_ALLOC_MAKE_SEND IPC_KOBJECT_ALLOC_NSREQUEST))
    (fun r k' => exists p', r = a /\ k' = with_port a p' k /\ holds_kobject p' (mk_kobject_rights 1 1 0)) k.
Proof using Ha Hty.
  destruct kobject_bits as [Hact Hkt].
  assert ((a =? IP_NULL) = false) as Hn by (revert Ha; unfold IP_VALID; destruct (a =? IP_NULL); done).
  unfold ipc_kobject_alloc_port, ipc_port_alloc_special.
  apply wp_bind. rewrite Hn. port_goal. unfold ipc_port_init. port_goal. simpl.
  rewrite with_port_twice, Hn. port_goal. unfold ipc_kobject_init_port. port_goal.
  unfold ipc_kobject_set_internal. port_goal. apply wp_massert; [destruct (Z.eqb_spec type IKOT_NONE) as [->|]; [unfold IKOT_NONE in Hty; lia|done]|].
  apply wp_bind. eapply wp_mod_port; [apply with_port_lookup|]. eapply wp_mod_port; [apply with_port_lookup|].
  rewrite !with_port_twice. simpl. port_goal. unfold ipc_port_make_send_locked. port_goal.
  eapply wp_ip_reference; [apply with_port_lookup|simpl; unfold OS_REFCNT_MAX_COUNT; lia|].
  rewrite with_port_twice. port_goal. eapply wp_mod_port; [apply with_port_lookup|].
  eapply wp_ip_reference; [apply with_port_lookup|simpl; unfold OS_REFCNT_MAX_COUNT; lia|].
  rewrite !with_port_twice. simpl. port_goal.
  eexists. split; [done|]. split; [done|]. split; unfold ip_active, ip_kotype; simpl; try done; lia.
Qed.

Lemma first_use_ok k :
  wp (ipc_kobject_make_send_lazy_alloc_port a IP_NULL IP_NULL kobject type 0)
    (fun r k' => exists p', r = (true, a) /\ k' = with_port a p' k /\ holds_kobject p' (mk_kobject_rights 1 1 0)) k.
Proof using Ha Hty.
  unfold ipc_kobject_make_send_lazy_alloc_port. change (negb (IP_VALID IP_NULL)) with true. cbv iota.
  apply wp_bind. rewrite Z.lor_0_r. eapply wp_mono; [apply alloc_port_ok|]. intros r k' (p'&->&->&Hh).
  apply wp_ret. by exists p'.
Qed.
End histories.

(** C14. The reference protocol of a lazily made kernel object port.  From the first use of
    an empty location, and for any history of further makers, copies and releases in which
    clients only use rights they hold, the code does not panic; a maker is told that it armed a
    notification exactly when there was no send right, and a no-senders notification with the
    make-send count is sent exactly when the last right goes away; so the number of references
    the object has given to the port is the number of notifications sent, plus one while there
    are send rights.  The port keeps its object, and its reference count is exactly its
    own, the rights', the armed request's and the notifications'. *)
Theorem kobject_no_senders_balance `{KernelConfig} `{Externals} `{RequestSizes} `{KobjectOps}
    (a kobject type : Z) (ops : list kobject_op) (k : kst) s l evs :
  IP_VALID a = true -> 0 < type < IKOT_MAX_TYPE ->
  Z.of_nat (length ops) + 3 <= OS_REFCNT_MAX_COUNT ->
  kobject_run a (mk_kobject_rights 1 1 0) ops = Some (s, l, evs) ->
  exists p, kobject_history a kobject type ops k = Done (true :: l, traced evs (with_port a p k)) /\
    holds_kobject kobject type p s /\
    armed_count (true :: l) = Z.of_nat (length evs) + armed_now s.
Proof.
  intros Ha Hty Hlen Hrun.
  destruct (wp_elim _ _ _ (first_use_ok a kobject type Ha Hty k)) as (?&k1&E1&p1&->&->&Hh1).
  assert (kobject_room (Z.of_nat (length ops)) (mk_kobject_rights 1 1 0)) as Hroom.
  { unfold kobject_room, OS_REFCNT_MAX_COUNT in *. simpl. lia. }
  pose proof (kobject_exec_all_ok a kobject type Ha ops _ _ _ _ _ _ (with_port_lookup a p1 k) Hh1 Hroom Hrun) as Hw.
  apply wp_elim in Hw as (?&k2&E2&p2&->&->&Hh2). exists p2. split; [|split; [done|]].
  - unfold kobject_history, bind. rewrite E1, E2. unfold ret. do 2 f_equal.
    unfold traced, with_port, set_ks_ports, set_ks_trace. simpl. by rewrite insert_insert_eq.
  - pose proof (kobject_run_balance a ops _ _ _ _ Hrun) as Hb. unfold armed_now at 1 in Hb. simpl in Hb.
    unfold armed_count in *. simpl. lia.
Qed.

(** ** An instance *)
Definition no_ops : KobjectOps := {|
  CONFIG_PROC_RESOURCE_LIMITS := true;
  ipc_kobject_ops_array _ := mk_ipc_kobject_ops false false false None None |}.

Lemma kobject_no_senders_balance_witness :
  exists p, @kobject_history DEVELOPMENT plain_externals SMALL_REQUESTS no_ops 0x6000 0x9000 IKOT_EVENTLINK
      [LazyMake; CopyRight; ReleaseRight; ReleaseRight; ReleaseRight; LazyMake] (one_port fresh_port)
    = Done ([true; false; true], traced [Call "ipc_kobject_notify_no_senders" [0x6000; 2]]
              (with_port 0x6000 p (one_port fresh_port))) /\
    ip_kobject p = 0x9000 /\ io_references p = 4 /\ ip_mscount p = 3.
Proof.
  destruct (@kobject_no_senders_balance DEVELOPMENT plain_externals SMALL_REQUESTS no_ops 0x6000 0x9000
    IKOT_EVENTLINK [LazyMake; CopyRight; ReleaseRight; ReleaseRight; ReleaseRight; LazyMake] (one_port fresh_port)
    (mk_kobject_rights 1 3 1) [false; true] [Call "ipc_kobject_notify_no_senders" [0x6000; 2]]) as (p&Hrun&Hh&_).
  - reflexivity.
  - split; reflexivity.
  - intros [=].
  - reflexivity.
  - exists p. split; [exact Hrun|]. destruct Hh as [_ Ho _ _ Hm _ Hr _]. split; [exact Ho|]. split; [exact Hr|exact Hm].
Defined.
