(* ===== verification/IpcRight.v ===== *)
(** * Capabilities: lookup, requests, deallocation ([osfmk/ipc/ipc_right.c])

    The operations on the right an entry holds: finding it, registering
    dead-name requests, noticing a dead port, destroying, deallocating and
    counting user references.  An [ipc_entry_t] is the index of the entry, which
    is [MACH_PORT_INDEX] of the name in every call; space and port
    locks are held as in the source, and what follows the unlock of the space
    belongs to the same operation. *)

From S2P Require Import Prelude MachPort Prng OsRefcnt IpcTable IpcHash IpcState IpcSpace IpcEntry IpcPort IpcChain IpcRequest IpcPortLife.

Definition IPC_OBJECT_COPYIN_FLAGS_NONE : Z := 0.
Definition IPC_OBJECT_COPYIN_FLAGS_ALLOW_IMMOVABLE_SEND : Z := 1.
Definition IPC_OBJECT_COPYIN_FLAGS_ALLOW_DEAD_SEND_ONCE : Z := 2.
Definition IPC_OBJECT_COPYIN_FLAGS_DEADOK : Z := 4.
Definition kGUARD_EXC_DESTROY : Z := 1.
Definition kGUARD_EXC_MOD_REFS : Z := 2.
Definition kGUARD_EXC_INCORRECT_GUARD : Z := 16.
Definition kGUARD_EXC_IMMOVABLE : Z := 32.
Definition kGUARD_EXC_INVALID_RIGHT : Z := 0x100.
Definition kGUARD_EXC_INVALID_NAME : Z := 0x200.
Definition kGUARD_EXC_INVALID_VALUE : Z := 0x400.
Definition MPG_FLAGS_NONE : Z := 0.
Definition MPG_FLAGS_MOD_REFS_PINNED_DEALLOC : Z := Z.shiftl 1 56.
Definition MPG_FLAGS_MOD_REFS_PINNED_DESTROY : Z := Z.shiftl 2 56.
Definition MPG_FLAGS_MOD_REFS_PINNED_COPYIN : Z := Z.shiftl 4 56.

(** Guard exceptions reach the debugger or kill the task; here, the trace. *)
Definition mach_port_guard_exception (name inguard portguard reason : Z) : M kst unit :=
  emit "mach_port_guard_exception" [name; inguard; portguard; reason].
Definition mach_port_guard_exception_pinned (name port flags : Z) : M kst unit :=
  emit "mach_port_guard_exception_pinned" [name; port; flags].
Definition mach_port_guard_exception_immovable (name port flags : Z) : M kst unit :=
  emit "mach_port_guard_exception_immovable" [name; port; flags].

(** Objects are ports or port sets. *)
Definition io_active (a : Z) : M kst bool :=
  fun k => match ks_ports k !! a, ks_psets k !! a with
           | Some p, _ => Done (ip_active p, k)
           | None, Some s => Done (ips_active s, k)
           | None, None => Panic "dangling object"
           end.

(** Changing the entry in place. *)
Definition mod_entry (index : Z) (f : ipc_entry -> ipc_entry) : M kst unit :=
  let* e := get_entry index in put_entry index (f e).

Section lookup.
Context `{KernelConfig} `{TableSizes} `{Concurrency} `{Externals}.

(** ** Finding entries *)
Definition ipc_right_lookup_write (name : Z) : M kst (kern_return_t * option Z) :=
  let* active := is_active in
  if negb active then ret (KERN_INVALID_TASK, None)
  else
    let* entry := ipc_entry_lookup name in
    match entry with
    | None => ret (KERN_INVALID_NAME, None)
    | Some i => ret (KERN_SUCCESS, Some i)
    end.

Definition ipc_right_lookup_two_write (name1 name2 : Z) : M kst (kern_return_t * option (Z * Z)) :=
  let* active := is_active in
  if negb active then ret (KERN_INVALID_TASK, None)
  else
    let* entry1 := ipc_entry_lookup name1 in
    match entry1 with
    | None =>
      mach_port_guard_exception name1 0 0 kGUARD_EXC_INVALID_NAME ;;* ret (KERN_INVALID_NAME, None)
    | Some i1 =>
      let* entry2 := ipc_entry_lookup name2 in
      match entry2 with
      | None =>
        mach_port_guard_exception name2 0 0 kGUARD_EXC_INVALID_NAME ;;* ret (KERN_INVALID_NAME, None)
      | Some i2 => ret (KERN_SUCCESS, Some (i1, i2))
      end
    end.

(** [ipc_right_lookup_read] without [MACH_LOCKFREE_SPACE]: bits and object. *)
Definition ipc_right_lookup_read_locked (name : Z) : M kst (kern_return_t * option (Z * Z)) :=
  let* (kr, entry) := ipc_right_lookup_write name in
  match entry with
  | None => ret (kr, None)
  | Some i =>
    let* e := get_entry i in
    if ie_object e =? IO_NULL then ret (KERN_INVALID_NAME, None)
    else
      let* active := io_active (ie_object e) in
      if negb active then ret (KERN_INVALID_NAME, None)
      else ret (KERN_SUCCESS, Some (ie_bits e, ie_object e))
  end.

(** With it: the table is read without the space lock, other threads run
    between the first read and the locking of the object ([interfere]), and
    the entry is read again under the object lock.  An object can be locked
    unless it is gone or dead ([io_lock_allow_invalid]). *)
Definition io_lock_allow_invalid (a : Z) : M kst bool :=
  fun k => match ks_ports k !! a, ks_psets k !! a with
           | Some p, _ => Done (ip_active p, k)
           | None, Some s => Done (ips_active s, k)
           | None, None => Done (false, k)
           end.

Definition ipc_right_lookup_read (name : Z) : M kst (kern_return_t * option (Z * Z)) :=
  let index := MACH_PORT_INDEX name in
  if index =? 0 then ret (KERN_INVALID_NAME, None)
  else
    let* table := get_space is_table in
    match table with
    | None => ret (KERN_INVALID_TASK, None)
    | Some table =>
      let* head := lift (aget table 0) in
      if ie_size head <=? index then ret (KERN_INVALID_NAME, None)
      else
        let* e := lift (aget table index) in
        let object := ie_object e in
        interfere ;;*
        let* locked := if object =? IO_NULL then ret false else io_lock_allow_invalid object in
        if negb locked then ret (KERN_INVALID_NAME, None)
        else
          let* table := get_space is_table in
          match table with
          | None => ret (KERN_INVALID_TASK, None)
          | Some table =>
            let* e := lift (aget table index) in
            if negb (ie_object e =? object) then ret (KERN_INVALID_NAME, None)
            else
              let bits := ie_bits e in
              if negb (IE_BITS_GEN bits =? MACH_PORT_GEN name) ||
                 negb (IE_BITS_TYPE (Z.b2z (bits =? MACH_PORT_TYPE_NONE)) =? 0)
              then ret (KERN_INVALID_NAME, None)
              else ret (KERN_SUCCESS, Some (bits, object))
          end
    end.

(** ** From an object to the space's name for it *)
Definition ipc_right_reverse (object : Z) : M kst (option (Z * Z)) :=
  let* active := is_active in
  massert active "is_active(space)" ;;*
  let* p := get_port object in
  require_ip_active p ;;*
  let* space := get_space is_self in
  if ip_in_space p space then
    let name := ip_receiver_name p in
    massert (negb (name =? MACH_PORT_NULL)) "name != MACH_PORT_NULL" ;;*
    let* entry := ipc_entry_lookup name in
    match entry with
    | None => panic "entry != IE_NULL"
    | Some i =>
      let* e := get_entry i in
      massert (has (ie_bits e) MACH_PORT_TYPE_RECEIVE) "entry->ie_bits & MACH_PORT_TYPE_RECEIVE" ;;*
      massert (ie_object e =? object) "port == ip_object_to_port(entry->ie_object)" ;;*
      ret (Some (name, i))
    end
  else
    let* found := ipc_hash_lookup object in
    match found with
    | Some (name, i) =>
      let* e := get_entry i in
      massert (IE_BITS_TYPE (ie_bits e) =? MACH_PORT_TYPE_SEND)
        "IE_BITS_TYPE(entry->ie_bits) == MACH_PORT_TYPE_SEND" ;;*
      massert (ie_object e =? object) "port == ip_object_to_port(entry->ie_object)" ;;*
      ret (Some (name, i))
    | None => ret None
    end.

Definition ipc_right_inuse (index : Z) : M kst bool :=
  let* e := get_entry index in ret (negb (IE_BITS_TYPE (ie_bits e) =? MACH_PORT_TYPE_NONE)).
End lookup.

Section rights.
Context `{KernelConfig} `{TableSizes} `{Concurrency} `{Externals} `{RequestSizes}.

(** ** Noticing that the port died

    Returns whether it did; then the entry is a dead name and the caller owns
    the entry's reference to the port. *)
Definition ipc_right_check (port name index flags : Z) : M kst bool :=
  let* active := is_active in
  massert active "is_active(space)" ;;*
  let* e := get_entry index in
  massert (ie_object e =? port) "port == ip_object_to_port(entry->ie_object)" ;;*
  let* p := get_port port in
  if ip_active p ||
     (has flags IPC_OBJECT_COPYIN_FLAGS_ALLOW_DEAD_SEND_ONCE &&
      (ie_request e =? IE_REQ_NONE) && has (ie_bits e) MACH_PORT_TYPE_SEND_ONCE)
  then ret false
  else
    let bits := ie_bits e in
    massert (negb (has bits MACH_PORT_TYPE_RECEIVE)) "(bits & MACH_PORT_TYPE_RECEIVE) == 0" ;;*
    massert (0 <? IE_BITS_UREFS bits) "IE_BITS_UREFS(bits) > 0" ;;*
    (if has bits MACH_PORT_TYPE_SEND then
       massert (IE_BITS_TYPE bits =? MACH_PORT_TYPE_SEND) "IE_BITS_TYPE(bits) == MACH_PORT_TYPE_SEND" ;;*
       massert (0 <? ip_srights p) "port->ip_srights > 0" ;;*
       put_port port (set_ip_srights (u32 (ip_srights p - 1)) p)
     else
       massert (IE_BITS_TYPE bits =? MACH_PORT_TYPE_SEND_ONCE)
         "IE_BITS_TYPE(bits) == MACH_PORT_TYPE_SEND_ONCE" ;;*
       massert (IE_BITS_UREFS bits =? 1) "IE_BITS_UREFS(bits) == 1" ;;*
       massert (0 <? ip_sorights p) "port->ip_sorights > 0" ;;*
       put_port port (set_ip_sorights (u32 (ip_sorights p - 1)) p)) ;;*
    when (has bits MACH_PORT_TYPE_SEND) (ipc_hash_delete port name) ;;*
    let bits := Z.lor (Z.ldiff bits IE_BITS_TYPE_MASK) MACH_PORT_TYPE_DEAD_NAME in
    let* bits :=
      if negb (ie_request e =? IE_REQ_NONE) then
        let* type := ipc_port_request_type port name (ie_request e) in
        ret (if negb (type =? 0) && (IE_BITS_UREFS bits <? MACH_PORT_UREFS_MAX)
             then u32 (bits + 1) else bits)
      else ret bits in
    mod_entry index (fun e =>
      set_ie_object IO_NULL (set_ie_bits bits (set_ie_request IE_REQ_NONE e))) ;;*
    ipc_entry_modified name ;;*
    ret true.

(** ** Cancelling the request of an entry *)
Definition ipc_right_request_cancel (port name index : Z) : M kst Z :=
  let* p := get_port port in
  require_ip_active p ;;*
  let* active := is_active in
  massert active "is_active(space)" ;;*
  let* e := get_entry index in
  massert (ie_object e =? port) "port == ip_object_to_port(entry->ie_object)" ;;*
  if ie_request e =? IE_REQ_NONE then ret IP_NULL
  else
    let* previous := ipc_port_request_cancel port name (ie_request e) in
    mod_entry index (set_ie_request IE_REQ_NONE) ;;*
    ipc_entry_modified name ;;*
    ret previous.

Definition ipc_right_request_cancel_macro (port name index : Z) : M kst Z :=
  let* e := get_entry index in
  if ie_request e =? IE_REQ_NONE then ret IP_NULL else ipc_right_request_cancel port name index.

(** ** Dead-name requests *)

(** The request is undone: [previous] is the right it held. *)
Definition request_undo (port name index prev_request : Z) : M kst Z :=
  let* previous :=
    if negb (prev_request =? IE_REQ_NONE) then
      let* previous := ipc_port_request_cancel port name prev_request in
      mod_entry index (set_ie_request IE_REQ_NONE) ;;*
      ret previous
    else ret IP_NULL in
  ipc_entry_modified name ;;*
  ret previous.

(** One round on an entry whose port is alive; [None]: go round again. *)
Definition request_alloc_alive (name index port : Z) (immediate send_possible : bool)
    (notify prev_request : Z) : M kst (option (kern_return_t * Z)) :=
  let* p := get_port port in
  let* e := get_entry index in
  if notify =? IP_NULL then
    let* previous := request_undo port name index prev_request in
    ret (Some (KERN_SUCCESS, previous))
  else if send_possible && immediate &&
     (has (ie_bits e) MACH_PORT_TYPE_SEND_ONCE || ip_in_space p ipc_space_kernel || negb (ip_full p))
  then
    let* previous := request_undo port name index prev_request in
    ipc_notify_send_possible notify name ;;*
    ret (Some (KERN_SUCCESS, previous))
  else
    let* previous :=
      if negb (prev_request =? IE_REQ_NONE)
      then ipc_port_request_cancel port name prev_request else ret IP_NULL in
    let* (kr, new_request, needboost) :=
      ipc_port_request_alloc port name notify send_possible immediate in
    if negb (bool_decide (kr = KERN_SUCCESS)) then
      massert (previous =? IP_NULL) "previous == IP_NULL" ;;*
      let* kr := ipc_port_request_grow port ITS_SIZE_NONE in
      ret (if bool_decide (kr = KERN_SUCCESS) then None else Some (kr, IP_NULL))
    else
      massert (negb (new_request =? IE_REQ_NONE)) "new_request != IE_REQ_NONE" ;;*
      mod_entry index (set_ie_request new_request) ;;*
      ipc_entry_modified name ;;*
      when needboost
        (let* _ := ipc_port_importance_delta port IPID_OPTION_SENDPOSSIBLE 1 in ret tt) ;;*
      ret (Some (KERN_SUCCESS, previous)).

(** One round on an entry that is not a live port right; [port] is the port
    that [ipc_right_check] left to release, if any. *)
Definition request_alloc_dead (name index port : Z) (immediate send_possible : bool) (notify : Z)
    : M kst (kern_return_t * Z) :=
  let* e := get_entry index in
  if (send_possible || immediate) && negb (notify =? IP_NULL) &&
     has (ie_bits e) MACH_PORT_TYPE_DEAD_NAME
  then
    massert (0 <? IE_BITS_UREFS (ie_bits e)) "urefs > 0" ;;*
    when (IE_BITS_UREFS (ie_bits e) <? MACH_PORT_UREFS_MAX)
      (put_entry index (set_ie_bits (u32 (ie_bits e + 1)) e)) ;;*
    ipc_entry_modified name ;;*
    when (negb (port =? IP_NULL)) (ip_release port) ;;*
    ipc_notify_dead_name notify name ;;*
    ret (KERN_SUCCESS, IP_NULL)
  else
    let kr := if has (ie_bits e) MACH_PORT_TYPE_PORT_OR_DEAD
              then KERN_INVALID_ARGUMENT else KERN_INVALID_RIGHT in
    when (negb (port =? IP_NULL)) (ip_release port) ;;*
    ret (kr, IP_NULL).

(** The [for (;;)] loop goes round once per growth of the request table. *)
Fixpoint ipc_right_request_alloc (rounds : nat) (name : Z) (immediate send_possible : bool)
    (notify : Z) : M kst (kern_return_t * Z) :=
  match rounds with
  | O => fun _ => Diverges
  | S rounds =>
    let* (kr, entry) := ipc_right_lookup_write name in
    match entry with
    | None => ret (kr, IP_NULL)
    | Some index =>
      let* e := get_entry index in
      let prev_request := ie_request e in
      if (notify =? IP_NULL) && (prev_request =? IE_REQ_NONE) then ret (KERN_SUCCESS, IP_NULL)
      else if has (ie_bits e) MACH_PORT_TYPE_PORT_RIGHTS then
        let port := ie_object e in
        massert (negb (port =? IP_NULL)) "port != IP_NULL" ;;*
        let* died := ipc_right_check port name index IPC_OBJECT_COPYIN_FLAGS_NONE in
        if died then request_alloc_dead name index port immediate send_possible notify
        else
          let* r := request_alloc_alive name index port immediate send_possible notify prev_request in
          match r with
          | Some r => ret r
          | None => ipc_right_request_alloc rounds name immediate send_possible notify
          end
      else request_alloc_dead name index IP_NULL immediate send_possible notify
    end
  end.

(** ** Pieces the rights operations share *)

(** [if (--port->ip_srights == 0) nsrequest = ipc_notify_no_senders_prepare(port);] *)
Definition drop_send_right (port : Z) : M kst nsenders :=
  let* p := get_port port in
  let srights := u32 (ip_srights p - 1) in
  put_port port (set_ip_srights srights p) ;;*
  if srights =? 0 then ipc_notify_no_senders_prepare port else ret no_nsenders.

Definition notify_port_deleted_if (request name : Z) : M kst unit :=
  when (negb (request =? IP_NULL)) (ipc_notify_port_deleted request name).

(** Decrement the user references of the bits read before, unless pegged. *)
Definition urefs_decrement (index bits : Z) : M kst unit :=
  when (IE_BITS_UREFS bits <? MACH_PORT_UREFS_MAX) (mod_entry index (set_ie_bits (u32 (bits - 1)))).

Definition clear_send_bits (bits : Z) : Z :=
  Z.ldiff bits (Z.lor IE_BITS_UREFS_MASK MACH_PORT_TYPE_SEND).
End rights.
