(* ===== verification/RightDrop.v ===== *)
(** * Giving rights up ([osfmk/ipc/ipc_right.c], [ipc_space_terminate])

    Termination, destruction and deallocation of a right, the user-reference
    arithmetic of [ipc_right_delta] and [ipc_right_destruct], information
    about a right, and the end of a space. *)

From S2P Require Import Prelude MachPort Prng OsRefcnt IpcTable IpcHash IpcState IpcSpace IpcEntry IpcPort IpcChain IpcRequest IpcPortLife IpcRight.

Section operations.
Context `{KernelConfig} `{TableSizes} `{Concurrency} `{Externals} `{RequestSizes}.

(** ** In a terminated space *)

(** A notification right is sent the notification if its port is alive, and
    swallowed otherwise. *)
Definition terminate_notify_no_senders (nsrequest : nsenders) : M kst unit :=
  when (negb (ns_notify nsrequest =? IP_NULL))
    (let* q := get_port (ns_notify nsrequest) in
     if ip_active q then ipc_notify_no_senders_emit nsrequest
     else ipc_notify_no_senders_consume nsrequest).
Definition terminate_notify_port_deleted (request name : Z) : M kst unit :=
  when (negb (request =? IP_NULL))
    (let* q := get_port request in
     if ip_active q then ipc_notify_port_deleted request name
     else ipc_port_release_sonce request).

(** The port rights; returns the entry's request index afterwards. *)
Definition terminate_port (name type object ie_req : Z) : M kst Z :=
  let* space := get_space is_self in
  let* p := get_port object in
  if negb (ip_active p) then ip_release object ;;* ret ie_req
  else
    let* request := if negb (ie_req =? IE_REQ_NONE)
                    then ipc_port_request_cancel object name ie_req else ret IP_NULL in
    let* nsrequest :=
      if has type MACH_PORT_TYPE_SEND then
        let* p := get_port object in
        massert (0 <? ip_srights p) "port->ip_srights > 0" ;;*
        drop_send_right object
      else ret no_nsenders in
    let* p := get_port object in
    (if has type MACH_PORT_TYPE_RECEIVE then
       massert (ip_receiver_name p =? name) "ip_get_receiver_name(port) == name" ;;*
       massert (ip_in_space p space) "ip_in_space(port, space)" ;;*
       ipc_port_destroy object
     else if has type MACH_PORT_TYPE_SEND_ONCE then
       massert (0 <? ip_sorights p) "port->ip_sorights > 0" ;;*
       put_port object (set_imq_context 0 p) ;;*
       ipc_notify_send_once_and_unlock object
     else
       massert (negb (ip_in_space p space)) "!ip_in_space(port, space)" ;;*
       ip_release object) ;;*
    terminate_notify_no_senders nsrequest ;;*
    terminate_notify_port_deleted request name ;;*
    ret IE_REQ_NONE.

(** The table is detached from the space: the entry is a value, and the result
    is what is left of it. *)
Definition ipc_right_terminate (name : Z) (e : ipc_entry) : M kst ipc_entry :=
  let* active := is_active in
  massert (negb active) "!is_active(space)" ;;*
  let type := IE_BITS_TYPE (ie_bits e) in
  let object := ie_object e in
  massert ((type =? MACH_PORT_TYPE_DEAD_NAME) || negb (object =? IO_NULL)) "object != IO_NULL" ;;*
  let e := set_ie_object IO_NULL e in
  let e := set_ie_bits (Z.land (ie_bits e) (Z.lor IE_BITS_GEN_MASK IE_BITS_ROLL_MASK)) e in
  if type =? MACH_PORT_TYPE_DEAD_NAME then
    massert (ie_request e =? IE_REQ_NONE) "entry->ie_request == IE_REQ_NONE" ;;*
    massert (object =? IO_NULL) "object == IO_NULL" ;;*
    ret e
  else if type =? MACH_PORT_TYPE_PORT_SET then
    massert (ie_request e =? IE_REQ_NONE) "entry->ie_request == IE_REQ_NONE" ;;*
    let* space := get_space is_self in
    ipc_pset_destroy space object ;;*
    ret e
  else if (type =? MACH_PORT_TYPE_SEND) || (type =? MACH_PORT_TYPE_RECEIVE) ||
          (type =? MACH_PORT_TYPE_SEND_RECEIVE) || (type =? MACH_PORT_TYPE_SEND_ONCE) then
    let* request := terminate_port name type object (ie_request e) in
    ret (set_ie_request request e)
  else panic "ipc_right_terminate: strange type".

(** ** Destruction *)
Definition destroy_port (name index type : Z) (check_guard : bool) (guard : Z) : M kst kern_return_t :=
  let* space := get_space is_self in
  let* e := get_entry index in
  let port := ie_object e in
  massert (negb (port =? IP_NULL)) "port != IP_NULL" ;;*
  let* p := get_port port in
  if (type =? MACH_PORT_TYPE_SEND) && ip_pinned p then
    massert (ip_active p) "ip_active(port)" ;;*
    mach_port_guard_exception_pinned name port MPG_FLAGS_MOD_REFS_PINNED_DESTROY ;;*
    ret KERN_INVALID_CAPABILITY
  else
    when (type =? MACH_PORT_TYPE_SEND) (ipc_hash_delete port name) ;;*
    if negb (ip_active p) then
      massert (negb (has type MACH_PORT_TYPE_RECEIVE)) "(type & MACH_PORT_TYPE_RECEIVE) == 0" ;;*
      mod_entry index (set_ie_request IE_REQ_NONE) ;;*
      massert (negb (ip_pinned p)) "!ip_is_pinned(port)" ;;*
      ipc_entry_dealloc port name index ;;*
      ip_release port ;;*
      ret KERN_SUCCESS
    else if has type MACH_PORT_TYPE_RECEIVE && check_guard && ip_guarded p &&
            negb (guard =? ip_context p) then
      mach_port_guard_exception name 0 (ip_context p) kGUARD_EXC_DESTROY ;;*
      ret KERN_INVALID_RIGHT
    else
      let* request := ipc_right_request_cancel_macro port name index in
      massert (negb (ip_pinned p)) "!ip_is_pinned(port)" ;;*
      ipc_entry_dealloc port name index ;;*
      let* nsrequest :=
        if has type MACH_PORT_TYPE_SEND then
          let* p := get_port port in
          massert (0 <? ip_srights p) "port->ip_srights > 0" ;;*
          drop_send_right port
        else ret no_nsenders in
      let* p := get_port port in
      (if has type MACH_PORT_TYPE_RECEIVE then
         require_ip_active p ;;*
         massert (ip_in_space p space) "ip_in_space(port, space)" ;;*
         ipc_port_destroy port
       else if has type MACH_PORT_TYPE_SEND_ONCE then
         massert (0 <? ip_sorights p) "port->ip_sorights > 0" ;;*
         put_port port (set_imq_context 0 p) ;;*
         ipc_notify_send_once_and_unlock port
       else
         massert (negb (ip_in_space p space)) "!ip_in_space(port, space)" ;;*
         ip_release port) ;;*
      ipc_notify_no_senders_emit nsrequest ;;*
      notify_port_deleted_if request name ;;*
      ret KERN_SUCCESS.

Definition ipc_right_destroy (name index : Z) (check_guard : bool) (guard : Z) : M kst kern_return_t :=
  let* e := get_entry index in
  let bits := ie_bits e in
  put_entry index (set_ie_bits (Z.ldiff bits IE_BITS_TYPE_MASK) e) ;;*
  let type := IE_BITS_TYPE bits in
  let* active := is_active in
  massert active "is_active(space)" ;;*
  if type =? MACH_PORT_TYPE_DEAD_NAME then
    massert (ie_request e =? IE_REQ_NONE) "entry->ie_request == IE_REQ_NONE" ;;*
    massert (ie_object e =? IO_NULL) "entry->ie_object == IO_NULL" ;;*
    ipc_entry_dealloc IO_NULL name index ;;*
    ret KERN_SUCCESS
  else if type =? MACH_PORT_TYPE_PORT_SET then
    massert (ie_request e =? IE_REQ_NONE) "entry->ie_request == IE_REQ_NONE" ;;*
    massert (negb (ie_object e =? IPS_NULL)) "pset != IPS_NULL" ;;*
    let* s := get_pset (ie_object e) in
    massert (ips_active s) "ips_active(pset)" ;;*
    ipc_entry_dealloc (ie_object e) name index ;;*
    let* space := get_space is_self in
    ipc_pset_destroy space (ie_object e) ;;*
    ret KERN_SUCCESS
  else if (type =? MACH_PORT_TYPE_SEND) || (type =? MACH_PORT_TYPE_RECEIVE) ||
          (type =? MACH_PORT_TYPE_SEND_RECEIVE) || (type =? MACH_PORT_TYPE_SEND_ONCE) then
    destroy_port name index type check_guard guard
  else panic "ipc_right_destroy: strange type".

(** ** Deallocating a user reference *)
Definition dealloc_port_set (name index : Z) : M kst kern_return_t :=
  let* e := get_entry index in
  massert (IE_BITS_UREFS (ie_bits e) =? 0) "IE_BITS_UREFS(bits) == 0" ;;*
  massert (ie_request e =? IE_REQ_NONE) "entry->ie_request == IE_REQ_NONE" ;;*
  let* s := get_pset (ie_object e) in
  massert (ips_active s) "ips_active(pset)" ;;*
  ipc_entry_dealloc (ie_object e) name index ;;*
  let* space := get_space is_self in
  ipc_pset_destroy space (ie_object e) ;;*
  ret KERN_SUCCESS.

(** [dead_name:]; [port] was converted to a dead name on the way, or is null. *)
Definition dealloc_dead_name (name index port : Z) : M kst kern_return_t :=
  let* e := get_entry index in
  let bits := ie_bits e in
  massert (0 <? IE_BITS_UREFS bits) "IE_BITS_UREFS(bits) > 0" ;;*
  massert (ie_request e =? IE_REQ_NONE) "entry->ie_request == IE_REQ_NONE" ;;*
  massert (ie_object e =? IO_NULL) "entry->ie_object == IO_NULL" ;;*
  (if IE_BITS_UREFS bits =? 1 then ipc_entry_dealloc IO_NULL name index
   else urefs_decrement index bits ;;* ipc_entry_modified name) ;;*
  when (negb (port =? IP_NULL)) (ip_release port) ;;*
  ret KERN_SUCCESS.

Definition dealloc_send_once (name index : Z) : M kst kern_return_t :=
  let* e := get_entry index in
  massert (IE_BITS_UREFS (ie_bits e) =? 1) "IE_BITS_UREFS(bits) == 1" ;;*
  let port := ie_object e in
  massert (negb (port =? IP_NULL)) "port != IP_NULL" ;;*
  let* died := ipc_right_check port name index IPC_OBJECT_COPYIN_FLAGS_NONE in
  if died then
    let* e := get_entry index in
    massert (IE_BITS_TYPE (ie_bits e) =? MACH_PORT_TYPE_DEAD_NAME)
      "IE_BITS_TYPE(bits) == MACH_PORT_TYPE_DEAD_NAME" ;;*
    dealloc_dead_name name index port
  else
    let* p := get_port port in
    massert (0 <? ip_sorights p) "port->ip_sorights > 0" ;;*
    put_port port (set_imq_context 0 p) ;;*
    let* request := ipc_right_request_cancel_macro port name index in
    massert (negb (ip_pinned p)) "!ip_is_pinned(port)" ;;*
    ipc_entry_dealloc port name index ;;*
    ipc_notify_send_once_and_unlock port ;;*
    notify_port_deleted_if request name ;;*
    ret KERN_SUCCESS.

Definition dealloc_send (name index : Z) : M kst kern_return_t :=
  let* e := get_entry index in
  let bits := ie_bits e in
  massert (0 <? IE_BITS_UREFS bits) "IE_BITS_UREFS(bits) > 0" ;;*
  let port := ie_object e in
  massert (negb (port =? IP_NULL)) "port != IP_NULL" ;;*
  let* died := ipc_right_check port name index IPC_OBJECT_COPYIN_FLAGS_NONE in
  if died then
    let* e := get_entry index in
    massert (IE_BITS_TYPE (ie_bits e) =? MACH_PORT_TYPE_DEAD_NAME)
      "IE_BITS_TYPE(bits) == MACH_PORT_TYPE_DEAD_NAME" ;;*
    dealloc_dead_name name index port
  else
    let* p := get_port port in
    massert (0 <? ip_srights p) "port->ip_srights > 0" ;;*
    if IE_BITS_UREFS bits =? 1 then
      if ip_pinned p then
        mach_port_guard_exception_pinned name port MPG_FLAGS_MOD_REFS_PINNED_DEALLOC ;;*
        ret KERN_INVALID_CAPABILITY
      else
        let* nsrequest := drop_send_right port in
        let* request := ipc_right_request_cancel_macro port name index in
        ipc_hash_delete port name ;;*
        ipc_entry_dealloc port name index ;;*
        ip_release port ;;*
        ipc_notify_no_senders_emit nsrequest ;;*
        notify_port_deleted_if request name ;;*
        ret KERN_SUCCESS
    else
      urefs_decrement index bits ;;*
      ipc_entry_modified name ;;*
      ret KERN_SUCCESS.

Definition dealloc_send_receive (name index : Z) : M kst kern_return_t :=
  let* space := get_space is_self in
  let* e := get_entry index in
  let bits := ie_bits e in
  massert (0 <? IE_BITS_UREFS bits) "IE_BITS_UREFS(bits) > 0" ;;*
  let port := ie_object e in
  massert (negb (port =? IP_NULL)) "port != IP_NULL" ;;*
  let* p := get_port port in
  require_ip_active p ;;*
  massert (ip_receiver_name p =? name) "ip_get_receiver_name(port) == name" ;;*
  massert (ip_in_space p space) "ip_in_space(port, space)" ;;*
  massert (0 <? ip_srights p) "port->ip_srights > 0" ;;*
  let* nsrequest :=
    if IE_BITS_UREFS bits =? 1 then
      let* nsrequest := drop_send_right port in
      mod_entry index (set_ie_bits (clear_send_bits bits)) ;;*
      ret nsrequest
    else urefs_decrement index bits ;;* ret no_nsenders in
  ipc_entry_modified name ;;*
  ipc_notify_no_senders_emit nsrequest ;;*
  ret KERN_SUCCESS.

Definition ipc_right_dealloc (name index : Z) : M kst kern_return_t :=
  let* e := get_entry index in
  let type := IE_BITS_TYPE (ie_bits e) in
  let* active := is_active in
  massert active "is_active(space)" ;;*
  if type =? MACH_PORT_TYPE_PORT_SET then dealloc_port_set name index
  else if type =? MACH_PORT_TYPE_DEAD_NAME then dealloc_dead_name name index IP_NULL
  else if type =? MACH_PORT_TYPE_SEND_ONCE then dealloc_send_once name index
  else if type =? MACH_PORT_TYPE_SEND then dealloc_send name index
  else if type =? MACH_PORT_TYPE_SEND_RECEIVE then dealloc_send_receive name index
  else
    mach_port_guard_exception name 0 0 kGUARD_EXC_INVALID_RIGHT ;;*
    ret KERN_INVALID_RIGHT.

(** ** Changing the user-reference count *)

(** [invalid_right:], [invalid_value:] of [ipc_right_delta]; [port] is the
    port to release, if any. *)
Definition delta_invalid_right (port : Z) : M kst kern_return_t :=
  when (negb (port =? IP_NULL)) (ip_release port) ;;*
  ret KERN_INVALID_RIGHT.
Definition delta_invalid_value (name : Z) : M kst kern_return_t :=
  mach_port_guard_exception name 0 0 kGUARD_EXC_INVALID_VALUE ;;*
  ret KERN_INVALID_VALUE.

(** The delta after the pegging rules; [None] on underflow. *)
Definition delta_clamp (urefs delta : Z) : option Z :=
  if urefs =? MACH_PORT_UREFS_MAX then
    Some (if negb (delta =? - MACH_PORT_UREFS_MAX) then 0 else delta)
  else if MACH_PORT_UREFS_UNDERFLOW urefs delta then None
  else if MACH_PORT_UREFS_OVERFLOW urefs delta then Some (MACH_PORT_UREFS_MAX - urefs)
  else Some delta.
Definition delta_in_range (delta : Z) : bool :=
  negb (MACH_PORT_UREFS_MAX <? delta) && negb (delta <? - MACH_PORT_UREFS_MAX).

Definition delta_port_set (name index delta : Z) : M kst kern_return_t :=
  let* e := get_entry index in
  let bits := ie_bits e in
  if negb (has bits MACH_PORT_TYPE_PORT_SET) then
    mach_port_guard_exception name 0 0 kGUARD_EXC_INVALID_RIGHT ;;*
    delta_invalid_right IP_NULL
  else
    massert (IE_BITS_TYPE bits =? MACH_PORT_TYPE_PORT_SET)
      "IE_BITS_TYPE(bits) == MACH_PORT_TYPE_PORT_SET" ;;*
    massert (IE_BITS_UREFS bits =? 0) "IE_BITS_UREFS(bits) == 0" ;;*
    massert (ie_request e =? IE_REQ_NONE) "entry->ie_request == IE_REQ_NONE" ;;*
    if delta =? 0 then ret KERN_SUCCESS
    else if negb (delta =? -1) then delta_invalid_value name
    else dealloc_port_set name index.

(** The receive right of a [SEND_RECEIVE] entry goes: the send right stays as
    a send right when the port goes to its backup, as a dead name otherwise. *)
Definition leave_receive (name index port bits : Z) : M kst unit :=
  let* p := get_port port in
  (if ipc_port_has_prdrequest p then
     ipc_hash_insert port name ;;*
     ip_reference port ;;*
     mod_entry index (set_ie_bits
       (Z.lor (Z.ldiff bits MACH_PORT_TYPE_RECEIVE) MACH_PORT_TYPE_EX_RECEIVE))
   else
     let bits := Z.lor (Z.ldiff bits IE_BITS_TYPE_MASK)
                   (Z.lor MACH_PORT_TYPE_DEAD_NAME MACH_PORT_TYPE_EX_RECEIVE) in
     let* e := get_entry index in
     let bits := if negb (ie_request e =? 0) && (IE_BITS_UREFS bits <? MACH_PORT_UREFS_MAX)
                 then u32 (bits + 1) else bits in
     put_entry index
       (set_ie_bits bits (set_ie_object IO_NULL (set_ie_request IE_REQ_NONE e)))) ;;*
  ipc_entry_modified name.

Definition delta_receive (name index delta : Z) : M kst kern_return_t :=
  let* space := get_space is_self in
  let* e := get_entry index in
  let bits := ie_bits e in
  if negb (has bits MACH_PORT_TYPE_RECEIVE) then
    when (negb (has bits MACH_PORT_TYPE_EX_RECEIVE))
      (mach_port_guard_exception name 0 0 kGUARD_EXC_INVALID_RIGHT) ;;*
    delta_invalid_right IP_NULL
  else if delta =? 0 then ret KERN_SUCCESS
  else if negb (delta =? -1) then delta_invalid_value name
  else
    let port := ie_object e in
    massert (negb (port =? IP_NULL)) "port != IP_NULL" ;;*
    let* p := get_port port in
    require_ip_active p ;;*
    massert (ip_receiver_name p =? name) "ip_get_receiver_name(port) == name" ;;*
    massert (ip_in_space p space) "ip_in_space(port, space)" ;;*
    if ip_guarded p then
      mach_port_guard_exception name 0 (ip_context p) kGUARD_EXC_MOD_REFS ;;*
      ret KERN_INVALID_RIGHT
    else
      let* request :=
        if has bits MACH_PORT_TYPE_SEND then
          massert (IE_BITS_TYPE bits =? MACH_PORT_TYPE_SEND_RECEIVE)
            "IE_BITS_TYPE(bits) == MACH_PORT_TYPE_SEND_RECEIVE" ;;*
          massert (0 <? IE_BITS_UREFS bits) "IE_BITS_UREFS(bits) > 0" ;;*
          massert (0 <? ip_srights p) "port->ip_srights > 0" ;;*
          leave_receive name index port bits ;;*
          ret IP_NULL
        else
          massert (IE_BITS_TYPE bits =? MACH_PORT_TYPE_RECEIVE)
            "IE_BITS_TYPE(bits) == MACH_PORT_TYPE_RECEIVE" ;;*
          massert (IE_BITS_UREFS bits =? 0) "IE_BITS_UREFS(bits) == 0" ;;*
          let* request := ipc_right_request_cancel_macro port name index in
          massert (negb (ip_pinned p)) "!ip_is_pinned(port)" ;;*
          ipc_entry_dealloc port name index ;;*
          ret request in
      ipc_port_destroy port ;;*
      notify_port_deleted_if request name ;;*
      ret KERN_SUCCESS.

Definition delta_send_once (name index delta : Z) : M kst kern_return_t :=
  let* e := get_entry index in
  let bits := ie_bits e in
  if negb (has bits MACH_PORT_TYPE_SEND_ONCE) then delta_invalid_right IP_NULL
  else
    massert (IE_BITS_TYPE bits =? MACH_PORT_TYPE_SEND_ONCE)
      "IE_BITS_TYPE(bits) == MACH_PORT_TYPE_SEND_ONCE" ;;*
    massert (IE_BITS_UREFS bits =? 1) "IE_BITS_UREFS(bits) == 1" ;;*
    let port := ie_object e in
    massert (negb (port =? IP_NULL)) "port != IP_NULL" ;;*
    let* died := ipc_right_check port name index IPC_OBJECT_COPYIN_FLAGS_NONE in
    if died then
      let* e := get_entry index in
      massert (negb (has (ie_bits e) MACH_PORT_TYPE_SEND_ONCE))
        "!(entry->ie_bits & MACH_PORT_TYPE_SEND_ONCE)" ;;*
      mach_port_guard_exception name 0 0 kGUARD_EXC_INVALID_RIGHT ;;*
      delta_invalid_right port
    else
      let* p := get_port port in
      massert (0 <? ip_sorights p) "port->ip_sorights > 0" ;;*
      if (0 <? delta) || (delta <? -1) then delta_invalid_value name
      else if delta =? 0 then ret KERN_SUCCESS
      else
        put_port port (set_imq_context 0 p) ;;*
        let* request := ipc_right_request_cancel_macro port name index in
        massert (negb (ip_pinned p)) "!ip_is_pinned(port)" ;;*
        ipc_entry_dealloc port name index ;;*
        ipc_notify_send_once_and_unlock port ;;*
        notify_port_deleted_if request name ;;*
        ret KERN_SUCCESS.

(** A dead name with [bits]; [relport] is the port that turned into it just
    now, if any. *)
Definition delta_dead_bits (name index delta relport : Z) : M kst kern_return_t :=
  let* e := get_entry index in
  let bits := ie_bits e in
  massert (IE_BITS_TYPE bits =? MACH_PORT_TYPE_DEAD_NAME)
    "IE_BITS_TYPE(bits) == MACH_PORT_TYPE_DEAD_NAME" ;;*
  massert (0 <? IE_BITS_UREFS bits) "IE_BITS_UREFS(bits) > 0" ;;*
  massert (ie_object e =? IO_NULL) "entry->ie_object == IO_NULL" ;;*
  massert (ie_request e =? IE_REQ_NONE) "entry->ie_request == IE_REQ_NONE" ;;*
  if negb (delta_in_range delta) then delta_invalid_value name
  else
    let urefs := IE_BITS_UREFS bits in
    match delta_clamp urefs delta with
    | None => delta_invalid_value name
    | Some delta =>
      (if u32 (urefs + delta) =? 0 then ipc_entry_dealloc IO_NULL name index
       else when (negb (delta =? 0))
         (mod_entry index (set_ie_bits (u32 (bits + delta))) ;;* ipc_entry_modified name)) ;;*
      when (negb (relport =? IP_NULL)) (ip_release relport) ;;*
      ret KERN_SUCCESS
    end.

Definition delta_dead_name (name index delta : Z) : M kst kern_return_t :=
  let* e := get_entry index in
  let bits := ie_bits e in
  if has bits MACH_PORT_TYPE_SEND_RIGHTS then
    let port := ie_object e in
    massert (negb (port =? IP_NULL)) "port != IP_NULL" ;;*
    let* died := ipc_right_check port name index IPC_OBJECT_COPYIN_FLAGS_NONE in
    if negb died then
      mach_port_guard_exception name 0 0 kGUARD_EXC_INVALID_RIGHT ;;*
      delta_invalid_right IP_NULL
    else delta_dead_bits name index delta port
  else if negb (has bits MACH_PORT_TYPE_DEAD_NAME) then
    mach_port_guard_exception name 0 0 kGUARD_EXC_INVALID_RIGHT ;;*
    delta_invalid_right IP_NULL
  else delta_dead_bits name index delta IP_NULL.

(** The send right goes: the entry keeps its receive right, or is freed.
    Returns the request cancelled and the port to release. *)
Definition delta_send_zero (name index port bits : Z) : M kst (Z * Z) :=
  let* space := get_space is_self in
  let* p := get_port port in
  if has bits MACH_PORT_TYPE_RECEIVE then
    massert (ip_receiver_name p =? name) "ip_get_receiver_name(port) == name" ;;*
    massert (ip_in_space p space) "ip_in_space(port, space)" ;;*
    massert (IE_BITS_TYPE bits =? MACH_PORT_TYPE_SEND_RECEIVE)
      "IE_BITS_TYPE(bits) == MACH_PORT_TYPE_SEND_RECEIVE" ;;*
    mod_entry index (set_ie_bits (clear_send_bits bits)) ;;*
    ipc_entry_modified name ;;*
    ret (IP_NULL, IP_NULL)
  else
    massert (IE_BITS_TYPE bits =? MACH_PORT_TYPE_SEND) "IE_BITS_TYPE(bits) == MACH_PORT_TYPE_SEND" ;;*
    let* request := ipc_right_request_cancel_macro port name index in
    ipc_hash_delete port name ;;*
    massert (negb (ip_pinned p)) "!ip_is_pinned(port)" ;;*
    ipc_entry_dealloc port name index ;;*
    ret (request, port).

Definition delta_send (name index delta : Z) : M kst kern_return_t :=
  let* e := get_entry index in
  let bits := ie_bits e in
  if negb (has bits MACH_PORT_TYPE_SEND) then
    when (negb (has bits MACH_PORT_TYPE_DEAD_NAME) &&
          (negb (has bits MACH_PORT_TYPE_RECEIVE) || negb (delta =? 1)))
      (mach_port_guard_exception name 0 0 kGUARD_EXC_INVALID_RIGHT) ;;*
    delta_invalid_right IP_NULL
  else
    let port := ie_object e in
    massert (negb (port =? IP_NULL)) "port != IP_NULL" ;;*
    let* died := ipc_right_check port name index IPC_OBJECT_COPYIN_FLAGS_NONE in
    if died then
      let* e := get_entry index in
      massert (negb (has (ie_bits e) MACH_PORT_TYPE_SEND))
        "(entry->ie_bits & MACH_PORT_TYPE_SEND) == 0" ;;*
      delta_invalid_right port
    else
      let* p := get_port port in
      massert (0 <? ip_srights p) "port->ip_srights > 0" ;;*
      if negb (delta_in_range delta) then delta_invalid_value name
      else
        let urefs := IE_BITS_UREFS bits in
        match delta_clamp urefs delta with
        | None => delta_invalid_value name
        | Some delta =>
          if u32 (urefs + delta) =? 0 then
            if ip_pinned p then
              mach_port_guard_exception_pinned name port MPG_FLAGS_MOD_REFS_PINNED_DEALLOC ;;*
              ret KERN_INVALID_CAPABILITY
            else
              let* nsrequest := drop_send_right port in
              let* (request, port_to_release) := delta_send_zero name index port bits in
              when (negb (port_to_release =? IP_NULL)) (ip_release port_to_release) ;;*
              ipc_notify_no_senders_emit nsrequest ;;*
              notify_port_deleted_if request name ;;*
              ret KERN_SUCCESS
          else
            when (negb (delta =? 0))
              (mod_entry index (set_ie_bits (u32 (bits + delta))) ;;* ipc_entry_modified name) ;;*
            ret KERN_SUCCESS
        end.

Definition ipc_right_delta (name index right delta : Z) : M kst kern_return_t :=
  let* active := is_active in
  massert active "is_active(space)" ;;*
  massert (right <? MACH_PORT_RIGHT_NUMBER) "right < MACH_PORT_RIGHT_NUMBER" ;;*
  if right =? MACH_PORT_RIGHT_PORT_SET then delta_port_set name index delta
  else if right =? MACH_PORT_RIGHT_RECEIVE then delta_receive name index delta
  else if right =? MACH_PORT_RIGHT_SEND_ONCE then delta_send_once name index delta
  else if right =? MACH_PORT_RIGHT_DEAD_NAME then delta_dead_name name index delta
  else if right =? MACH_PORT_RIGHT_SEND then delta_send name index delta
  else if right =? MACH_PORT_RIGHT_LABELH then delta_invalid_right IP_NULL
  else panic "ipc_right_delta: strange right".

(** ** Destroying a receive right and some send rights at once *)

(** The send part; [None] on a bad delta. *)
Definition destruct_send (name index port bits srdelta : Z) : M kst (option nsenders) :=
  if srdelta =? 0 then ret (Some no_nsenders)
  else
    let* p := get_port port in
    massert (0 <? ip_srights p) "port->ip_srights > 0" ;;*
    let urefs := IE_BITS_UREFS bits in
    if MACH_PORT_UREFS_UNDERFLOW urefs srdelta then ret None
    else
      let srdelta := if (urefs =? MACH_PORT_UREFS_MAX) && negb (srdelta =? - MACH_PORT_UREFS_MAX)
                     then 0 else srdelta in
      if u32 (urefs + srdelta) =? 0 then
        let* nsrequest := drop_send_right port in
        massert (IE_BITS_TYPE bits =? MACH_PORT_TYPE_SEND_RECEIVE)
          "IE_BITS_TYPE(bits) == MACH_PORT_TYPE_SEND_RECEIVE" ;;*
        mod_entry index (set_ie_bits (clear_send_bits bits)) ;;*
        ret (Some nsrequest)
      else
        mod_entry index (set_ie_bits (u32 (bits + srdelta))) ;;*
        ret (Some no_nsenders).

(** The receive part; returns the request cancelled. *)
Definition destruct_receive (name index port : Z) : M kst Z :=
  let* e := get_entry index in
  let bits := ie_bits e in
  let* p := get_port port in
  if has bits MACH_PORT_TYPE_SEND then
    massert (0 <? IE_BITS_UREFS bits) "IE_BITS_UREFS(bits) > 0" ;;*
    massert (IE_BITS_UREFS bits <=? MACH_PORT_UREFS_MAX) "IE_BITS_UREFS(bits) <= MACH_PORT_UREFS_MAX" ;;*
    leave_receive name index port bits ;;*
    ret IP_NULL
  else
    massert (IE_BITS_TYPE bits =? MACH_PORT_TYPE_RECEIVE)
      "IE_BITS_TYPE(bits) == MACH_PORT_TYPE_RECEIVE" ;;*
    massert (IE_BITS_UREFS bits =? 0) "IE_BITS_UREFS(bits) == 0" ;;*
    let* request := ipc_right_request_cancel_macro port name index in
    massert (negb (ip_pinned p)) "!ip_is_pinned(port)" ;;*
    ipc_entry_dealloc port name index ;;*
    ret request.

Definition ipc_right_destruct (name index srdelta guard : Z) : M kst kern_return_t :=
  let* space := get_space is_self in
  let* e := get_entry index in
  let bits := ie_bits e in
  let* active := is_active in
  massert active "is_active(space)" ;;*
  if negb (has bits MACH_PORT_TYPE_RECEIVE) then
    when (negb (has bits MACH_PORT_TYPE_EX_RECEIVE))
      (mach_port_guard_exception name 0 0 kGUARD_EXC_INVALID_RIGHT) ;;*
    ret KERN_INVALID_RIGHT
  else if negb (srdelta =? 0) && negb (has bits MACH_PORT_TYPE_SEND) then
    mach_port_guard_exception name 0 0 kGUARD_EXC_INVALID_RIGHT ;;*
    ret KERN_INVALID_RIGHT
  else if 0 <? srdelta then delta_invalid_value name
  else
    let port := ie_object e in
    massert (negb (port =? IP_NULL)) "port != IP_NULL" ;;*
    let* p := get_port port in
    require_ip_active p ;;*
    massert (ip_receiver_name p =? name) "ip_get_receiver_name(port) == name" ;;*
    massert (ip_in_space p space) "ip_in_space(port, space)" ;;*
    if ip_guarded p && negb (guard =? ip_context p) then
      mach_port_guard_exception name 0 (ip_context p) kGUARD_EXC_DESTROY ;;*
      ret KERN_INVALID_ARGUMENT
    else
      let* nsrequest := destruct_send name index port bits srdelta in
      match nsrequest with
      | None => delta_invalid_value name
      | Some nsrequest =>
        let* request := destruct_receive name index port in
        ipc_notify_no_senders_emit nsrequest ;;*
        ipc_port_destroy port ;;*
        notify_port_deleted_if request name ;;*
        ret KERN_SUCCESS
      end.

(** ** Information about a right: its type with request flags, its user
    references. *)
Definition ipc_right_info (name index : Z) : M kst (kern_return_t * Z * Z) :=
  let* e := get_entry index in
  let bits := ie_bits e in
  let request := ie_request e in
  let port := ie_object e in
  let* (type, bits) :=
    if has bits MACH_PORT_TYPE_RECEIVE then
      massert (IP_VALID port) "IP_VALID(port)" ;;*
      if negb (request =? IE_REQ_NONE) then
        let* p := get_port port in
        require_ip_active p ;;*
        let* type := ipc_port_request_type port name request in ret (type, bits)
      else ret (0, bits)
    else if has bits MACH_PORT_TYPE_SEND_RIGHTS then
      let* died := ipc_right_check port name index IPC_OBJECT_COPYIN_FLAGS_NONE in
      if negb died then
        if negb (request =? IE_REQ_NONE) then
          let* type := ipc_port_request_type port name request in ret (type, bits)
        else ret (0, bits)
      else
        let* e := get_entry index in
        massert (IE_BITS_TYPE (ie_bits e) =? MACH_PORT_TYPE_DEAD_NAME)
          "IE_BITS_TYPE(bits) == MACH_PORT_TYPE_DEAD_NAME" ;;*
        ip_release port ;;*
        ret (0, ie_bits e)
    else ret (0, bits) in
  ret (KERN_SUCCESS, Z.lor type (IE_BITS_TYPE bits), IE_BITS_UREFS bits).

(** ** The end of a space *)

(** One pass over the detached table; [pick] selects the types to terminate. *)
Fixpoint terminate_pass (count : nat) (pick : Z -> bool) (index : Z) (table : list ipc_entry)
    : M kst (list ipc_entry) :=
  match count with
  | O => ret table
  | S count =>
    let* e := lift (aget table index) in
    let* table :=
      if pick (IE_BITS_TYPE (ie_bits e)) then
        let name := MACH_PORT_MAKE index (IE_BITS_GEN (ie_bits e)) in
        let* e := ipc_right_terminate name e in
        ret (aset table index e)
      else ret table in
    terminate_pass count pick (index + 1) table
  end.

(** [while (is_growing(space)) is_write_sleep(space);] *)
Fixpoint terminate_wait (fuel : nat) : M kst unit :=
  match fuel with
  | O => fun _ => Diverges
  | S fuel =>
    let* growing := is_growing in
    if growing then interfere ;;* terminate_wait fuel else ret tt
  end.

Definition ipc_space_terminate (fuel : nat) : M kst unit :=
  let* table := get_space is_table in
  match table with
  | None => ret tt
  | Some table =>
    mod_space (set_is_table None) ;;*
    terminate_wait fuel ;;*
    let* head := lift (aget table 0) in
    let rounds := Z.to_nat (ie_size head - 1) in
    let* table := terminate_pass rounds (fun type => has type MACH_PORT_TYPE_RECEIVE) 1 table in
    terminate_pass rounds (fun type => negb (type =? MACH_PORT_TYPE_NONE)) 1 table ;;*
    mod_space (set_is_table_free 0) ;;*
    emit "is_release" []
  end.
End operations.
