(* ===== verification/RightCopy.v ===== *)
(** * Moving rights in and out of a space ([osfmk/ipc/ipc_right.c])

    [ipc_right_copyin] takes a naked right out of an entry for each
    disposition, [ipc_right_copyout] puts one into an entry. *)

From S2P Require Import Prelude MachPort Prng OsRefcnt IpcTable IpcHash IpcState IpcSpace IpcEntry IpcPort IpcChain IpcRequest IpcPortLife IpcRight RightDrop.

Definition MACH_MSG_GUARD_FLAGS_IMMOVABLE_RECEIVE : Z := 1.
Definition MACH_MSG_GUARD_FLAGS_UNGUARDED_ON_SEND : Z := 2.
Definition IPC_OBJECT_COPYOUT_FLAGS_NONE : Z := 0.
Definition IPC_OBJECT_COPYOUT_FLAGS_PINNED : Z := 1.
Definition IPC_OBJECT_COPYOUT_FLAGS_NO_LABEL_CHECK : Z := 2.
Definition ITH_KNOTE_NULL : Z := 0.
Definition ITH_KNOTE_PSEUDO : Z := 0xdeadbeef.
Definition ITH_KNOTE_VALID (kn msgt_name : Z) : bool :=
  (negb (kn =? ITH_KNOTE_NULL) && negb (kn =? ITH_KNOTE_PSEUDO)) &&
  ((msgt_name =? MACH_MSG_TYPE_PORT_RECEIVE) || (msgt_name =? MACH_MSG_TYPE_PORT_SEND_ONCE)).
Definition IPC_PORT_ADJUST_SR_LINK_WORKLOOP : Z := 0x2.

(** What a successful copyin hands over: the object ([IO_DEAD] for a dead
    name) and the send-once right of a cancelled request; on any return, a port to
    release, the boosts the task loses, and the guard flags. *)
Record copyin_result := mk_copyin {
  ci_kr : kern_return_t; ci_object : Z; ci_soright : Z; ci_release : Z; ci_assertcnt : Z;
  ci_guard_flags : option Z }.
Definition copyin_ok (object soright : Z) (gf : option Z) : copyin_result :=
  mk_copyin KERN_SUCCESS object soright IP_NULL 0 gf.
Definition copyin_fail (kr : kern_return_t) (release : Z) (gf : option Z) : copyin_result :=
  mk_copyin kr IO_NULL IP_NULL release 0 gf.

Section operations.
Context `{KernelConfig} `{TableSizes} `{Concurrency} `{Externals} `{RequestSizes}.

(** ** Would a copyin of the reply port succeed? *)
Definition ipc_right_copyin_check_reply (reply_name index reply_type : Z) : M kst bool :=
  let* e := get_entry index in
  let bits := ie_bits e in
  let* active := is_active in
  massert active "is_active(space)" ;;*
  if (reply_type =? MACH_MSG_TYPE_MAKE_SEND) || (reply_type =? MACH_MSG_TYPE_MAKE_SEND_ONCE)
  then ret (has bits MACH_PORT_TYPE_RECEIVE)
  else if reply_type =? MACH_MSG_TYPE_MOVE_RECEIVE then ret false
  else if (reply_type =? MACH_MSG_TYPE_COPY_SEND) || (reply_type =? MACH_MSG_TYPE_MOVE_SEND) ||
          (reply_type =? MACH_MSG_TYPE_MOVE_SEND_ONCE) then
    if has bits MACH_PORT_TYPE_DEAD_NAME then ret true
    else if negb (has bits MACH_PORT_TYPE_SEND_RIGHTS) then ret false
    else
      let reply_port := ie_object e in
      massert (negb (reply_port =? IP_NULL)) "reply_port != IP_NULL" ;;*
      let* p := get_port reply_port in
      if negb (ip_active p) then ret true
      else if ip_immovable_send p then
        mach_port_guard_exception_immovable reply_name reply_port MPG_FLAGS_NONE ;;* ret false
      else if reply_type =? MACH_MSG_TYPE_MOVE_SEND_ONCE then ret (has bits MACH_PORT_TYPE_SEND_ONCE)
      else ret (has bits MACH_PORT_TYPE_SEND)
  else panic "ipc_right_copyin_check: strange rights".

(** ** Guard of a moving receive right *)
Definition ipc_right_copyin_check_guard_locked (name port context flags : Z) : M kst kern_return_t :=
  let* p := get_port port in
  if has flags MACH_MSG_GUARD_FLAGS_UNGUARDED_ON_SEND && negb (ip_guarded p) && (context =? 0)
  then ret KERN_SUCCESS
  else if ip_guarded p && (ip_context p =? context) then ret KERN_SUCCESS
  else
    mach_port_guard_exception name context (ip_context p) kGUARD_EXC_INCORRECT_GUARD ;;*
    ret KERN_INVALID_ARGUMENT.

(** ** Copying in, by disposition *)

(** The port of an entry that holds the receive right; [active]: the code also
    insists that it is active. *)
Definition receive_port (name index : Z) (active : bool) : M kst Z :=
  let* space := get_space is_self in
  let* e := get_entry index in
  let port := ie_object e in
  massert (negb (port =? IP_NULL)) "port != IP_NULL" ;;*
  let* p := get_port port in
  when active (require_ip_active p) ;;*
  massert (ip_receiver_name p =? name) "ip_get_receiver_name(port) == name" ;;*
  massert (ip_in_space p space) "ip_in_space(port, space)" ;;*
  ret port.

Definition copyin_make_send (name index : Z) (gf : option Z) : M kst copyin_result :=
  let* e := get_entry index in
  if negb (has (ie_bits e) MACH_PORT_TYPE_RECEIVE) then ret (copyin_fail KERN_INVALID_RIGHT IP_NULL gf)
  else
    let* port := receive_port name index false in
    ipc_port_make_send_locked port ;;*
    ret (copyin_ok port IP_NULL gf).

Definition copyin_make_send_once (name index : Z) (gf : option Z) : M kst copyin_result :=
  let* e := get_entry index in
  if negb (has (ie_bits e) MACH_PORT_TYPE_RECEIVE) then ret (copyin_fail KERN_INVALID_RIGHT IP_NULL gf)
  else
    let* port := receive_port name index true in
    ipc_port_make_sonce_locked port ;;*
    ret (copyin_ok port IP_NULL gf).

(** The entry side of moving a receive right: the send right stays, or the
    entry is freed; returns the request cancelled. *)
Definition copyin_leave_receive (name index port bits : Z) : M kst Z :=
  let* p := get_port port in
  if has bits MACH_PORT_TYPE_SEND then
    massert (IE_BITS_TYPE bits =? MACH_PORT_TYPE_SEND_RECEIVE)
      "IE_BITS_TYPE(bits) == MACH_PORT_TYPE_SEND_RECEIVE" ;;*
    massert (0 <? IE_BITS_UREFS bits) "IE_BITS_UREFS(bits) > 0" ;;*
    massert (0 <? ip_srights p) "port->ip_srights > 0" ;;*
    mod_entry index (set_ie_bits
      (Z.lor (Z.ldiff bits MACH_PORT_TYPE_RECEIVE) MACH_PORT_TYPE_EX_RECEIVE)) ;;*
    ipc_hash_insert port name ;;*
    ip_reference port ;;*
    ipc_entry_modified name ;;*
    ret IP_NULL
  else
    massert (IE_BITS_TYPE bits =? MACH_PORT_TYPE_RECEIVE)
      "IE_BITS_TYPE(bits) == MACH_PORT_TYPE_RECEIVE" ;;*
    massert (IE_BITS_UREFS bits =? 0) "IE_BITS_UREFS(bits) == 0" ;;*
    let* request := ipc_right_request_cancel_macro port name index in
    massert (negb (ip_pinned p)) "!ip_is_pinned(port)" ;;*
    ipc_entry_dealloc port name index ;;*
    ret request.

Definition copyin_move_receive (name index context : Z) (gf : option Z) : M kst copyin_result :=
  let* e := get_entry index in
  let bits := ie_bits e in
  if negb (has bits MACH_PORT_TYPE_RECEIVE) then ret (copyin_fail KERN_INVALID_RIGHT IP_NULL gf)
  else
    let* port := receive_port name index true in
    let* p := get_port port in
    if ip_is_kobject p || ip_is_kolabeled p then
      mach_port_guard_exception name 0 0 kGUARD_EXC_IMMOVABLE ;;*
      ret (copyin_fail KERN_INVALID_CAPABILITY IP_NULL gf)
    else if ip_immovable_receive p || ip_specialreply p then
      massert (negb (ip_in_space p ipc_space_kernel)) "!ip_in_space(port, ipc_space_kernel)" ;;*
      mach_port_guard_exception name 0 0 kGUARD_EXC_IMMOVABLE ;;*
      ret (copyin_fail KERN_INVALID_CAPABILITY IP_NULL gf)
    else
      let* kr := match gf with
                 | Some flags => ipc_right_copyin_check_guard_locked name port context flags
                 | None => ret KERN_SUCCESS
                 end in
      if negb (bool_decide (kr = KERN_SUCCESS)) then ret (copyin_fail kr IP_NULL gf)
      else
        let* request := copyin_leave_receive name index port bits in
        ipc_port_clear_receiver port false ;;*
        let gf := (fun flags => Z.lor flags MACH_MSG_GUARD_FLAGS_UNGUARDED_ON_SEND) <$> gf in
        let* p := get_port port in
        let* assertcnt :=
          if negb (ip_tempowner p) then
            massert (ip_get_imp_task p =? IIT_NULL) "IIT_NULL == ip_get_imp_task(port)" ;;*
            put_port port (set_ip_tempowner true p) ;;*
            ret (ip_impcount p)
          else ret 0 in
        ret (mk_copyin KERN_SUCCESS port request IP_NULL assertcnt gf).

(** [copy_dead:]; [port] just turned into the dead name, or is null. *)
Definition copyin_copy_dead (index port : Z) (deadok : bool) (gf : option Z) : M kst copyin_result :=
  let* e := get_entry index in
  massert (IE_BITS_TYPE (ie_bits e) =? MACH_PORT_TYPE_DEAD_NAME)
    "IE_BITS_TYPE(bits) == MACH_PORT_TYPE_DEAD_NAME" ;;*
  massert (0 <? IE_BITS_UREFS (ie_bits e)) "IE_BITS_UREFS(bits) > 0" ;;*
  massert (ie_request e =? IE_REQ_NONE) "entry->ie_request == IE_REQ_NONE" ;;*
  massert (ie_object e =? IO_NULL) "entry->ie_object == 0" ;;*
  if negb deadok then ret (copyin_fail KERN_INVALID_RIGHT port gf)
  else ret (mk_copyin KERN_SUCCESS IO_DEAD IP_NULL port 0 gf).

(** [move_dead:] *)
Definition copyin_move_dead (name index port : Z) (deadok : bool) (gf : option Z)
    : M kst copyin_result :=
  let* e := get_entry index in
  let bits := ie_bits e in
  massert (IE_BITS_TYPE bits =? MACH_PORT_TYPE_DEAD_NAME)
    "IE_BITS_TYPE(bits) == MACH_PORT_TYPE_DEAD_NAME" ;;*
  massert (0 <? IE_BITS_UREFS bits) "IE_BITS_UREFS(bits) > 0" ;;*
  massert (ie_request e =? IE_REQ_NONE) "entry->ie_request == IE_REQ_NONE" ;;*
  massert (ie_object e =? IO_NULL) "entry->ie_object == IO_NULL" ;;*
  if negb deadok then ret (copyin_fail KERN_INVALID_RIGHT port gf)
  else
    (if IE_BITS_UREFS bits =? 1 then ipc_entry_dealloc IO_NULL name index
     else urefs_decrement index bits ;;* ipc_entry_modified name) ;;*
    ret (mk_copyin KERN_SUCCESS IO_DEAD IP_NULL port 0 gf).

Definition copyin_copy_send (name index : Z) (deadok allow_imm_send : bool) (gf : option Z)
    : M kst copyin_result :=
  let* e := get_entry index in
  let bits := ie_bits e in
  if has bits MACH_PORT_TYPE_DEAD_NAME then copyin_copy_dead index IP_NULL deadok gf
  else if negb (has bits MACH_PORT_TYPE_SEND_RIGHTS)
  then ret (copyin_fail KERN_INVALID_RIGHT IP_NULL gf)
  else
    massert (0 <? IE_BITS_UREFS bits) "IE_BITS_UREFS(bits) > 0" ;;*
    let port := ie_object e in
    massert (negb (port =? IP_NULL)) "port != IP_NULL" ;;*
    let* died := ipc_right_check port name index IPC_OBJECT_COPYIN_FLAGS_NONE in
    if died then copyin_copy_dead index port deadok gf
    else
      let* p := get_port port in
      if negb (has bits MACH_PORT_TYPE_SEND) then
        massert (IE_BITS_TYPE bits =? MACH_PORT_TYPE_SEND_ONCE)
          "IE_BITS_TYPE(bits) == MACH_PORT_TYPE_SEND_ONCE" ;;*
        massert (0 <? ip_sorights p) "port->ip_sorights > 0" ;;*
        ret (copyin_fail KERN_INVALID_RIGHT IP_NULL gf)
      else if negb allow_imm_send && ip_immovable_send p then
        mach_port_guard_exception_immovable name port MPG_FLAGS_NONE ;;*
        ret (copyin_fail KERN_INVALID_CAPABILITY IP_NULL gf)
      else
        ipc_port_copy_send_locked port ;;*
        ret (copyin_ok port IP_NULL gf).

(** The last user reference of a send right moves; [None]: the right is
    pinned. *)
Definition copyin_move_last_send (name index port bits : Z) : M kst (option Z) :=
  let* space := get_space is_self in
  let* p := get_port port in
  massert (0 <? ip_srights p) "port->ip_srights > 0" ;;*
  if has bits MACH_PORT_TYPE_RECEIVE then
    massert (ip_receiver_name p =? name) "ip_get_receiver_name(port) == name" ;;*
    massert (ip_in_space p space) "ip_in_space(port, space)" ;;*
    massert (IE_BITS_TYPE bits =? MACH_PORT_TYPE_SEND_RECEIVE)
      "IE_BITS_TYPE(bits) == MACH_PORT_TYPE_SEND_RECEIVE" ;;*
    massert (negb (ip_pinned p)) "!ip_is_pinned(port)" ;;*
    mod_entry index (set_ie_bits (clear_send_bits bits)) ;;*
    ipc_entry_modified name ;;*
    ip_reference port ;;*
    ret (Some IP_NULL)
  else
    massert (IE_BITS_TYPE bits =? MACH_PORT_TYPE_SEND) "IE_BITS_TYPE(bits) == MACH_PORT_TYPE_SEND" ;;*
    if ip_pinned p then ret None
    else
      let* request := ipc_right_request_cancel_macro port name index in
      ipc_hash_delete port name ;;*
      ipc_entry_dealloc port name index ;;*
      ret (Some request).

Definition copyin_move_send (name index : Z) (deadok allow_imm_send : bool) (gf : option Z)
    : M kst copyin_result :=
  let* e := get_entry index in
  let bits := ie_bits e in
  if has bits MACH_PORT_TYPE_DEAD_NAME then copyin_move_dead name index IP_NULL deadok gf
  else if negb (has bits MACH_PORT_TYPE_SEND_RIGHTS)
  then ret (copyin_fail KERN_INVALID_RIGHT IP_NULL gf)
  else
    massert (0 <? IE_BITS_UREFS bits) "IE_BITS_UREFS(bits) > 0" ;;*
    let port := ie_object e in
    massert (negb (port =? IP_NULL)) "port != IP_NULL" ;;*
    let* died := ipc_right_check port name index IPC_OBJECT_COPYIN_FLAGS_NONE in
    if died then copyin_move_dead name index port deadok gf
    else
      let* p := get_port port in
      if negb (has bits MACH_PORT_TYPE_SEND) then
        massert (IE_BITS_TYPE bits =? MACH_PORT_TYPE_SEND_ONCE)
          "IE_BITS_TYPE(bits) == MACH_PORT_TYPE_SEND_ONCE" ;;*
        massert (0 <? ip_sorights p) "port->ip_sorights > 0" ;;*
        ret (copyin_fail KERN_INVALID_RIGHT IP_NULL gf)
      else if negb allow_imm_send && ip_immovable_send p then
        mach_port_guard_exception_immovable name port MPG_FLAGS_NONE ;;*
        ret (copyin_fail KERN_INVALID_CAPABILITY IP_NULL gf)
      else if IE_BITS_UREFS bits =? 1 then
        let* request := copyin_move_last_send name index port bits in
        match request with
        | None =>
          mach_port_guard_exception_pinned name port MPG_FLAGS_MOD_REFS_PINNED_COPYIN ;;*
          ret (copyin_fail KERN_INVALID_CAPABILITY IP_NULL gf)
        | Some request => ret (copyin_ok port request gf)
        end
      else
        ipc_port_copy_send_locked port ;;*
        urefs_decrement index bits ;;*
        ipc_entry_modified name ;;*
        ret (copyin_ok port IP_NULL gf).

Definition copyin_move_send_once (name index flags : Z) (deadok allow_imm_send : bool)
    (gf : option Z) : M kst copyin_result :=
  let* e := get_entry index in
  let bits := ie_bits e in
  if has bits MACH_PORT_TYPE_DEAD_NAME then copyin_move_dead name index IP_NULL deadok gf
  else if negb (has bits MACH_PORT_TYPE_SEND_RIGHTS)
  then ret (copyin_fail KERN_INVALID_RIGHT IP_NULL gf)
  else
    massert (0 <? IE_BITS_UREFS bits) "IE_BITS_UREFS(bits) > 0" ;;*
    let port := ie_object e in
    massert (negb (port =? IP_NULL)) "port != IP_NULL" ;;*
    let* died := ipc_right_check port name index flags in
    if died then copyin_move_dead name index port deadok gf
    else
      let* p := get_port port in
      if negb (has bits MACH_PORT_TYPE_SEND_ONCE) then
        massert (has bits MACH_PORT_TYPE_SEND) "bits & MACH_PORT_TYPE_SEND" ;;*
        massert (0 <? ip_srights p) "port->ip_srights > 0" ;;*
        ret (copyin_fail KERN_INVALID_RIGHT IP_NULL gf)
      else if negb allow_imm_send && ip_immovable_send p then
        mach_port_guard_exception_immovable name port MPG_FLAGS_NONE ;;*
        ret (copyin_fail KERN_INVALID_CAPABILITY IP_NULL gf)
      else
        massert (IE_BITS_TYPE bits =? MACH_PORT_TYPE_SEND_ONCE)
          "IE_BITS_TYPE(bits) == MACH_PORT_TYPE_SEND_ONCE" ;;*
        massert (IE_BITS_UREFS bits =? 1) "IE_BITS_UREFS(bits) == 1" ;;*
        massert (0 <? ip_sorights p) "port->ip_sorights > 0" ;;*
        let* request := ipc_right_request_cancel_macro port name index in
        massert (negb (ip_pinned p)) "!ip_is_pinned(port)" ;;*
        ipc_entry_dealloc port name index ;;*
        ret (copyin_ok port request gf).

Definition ipc_right_copyin (name index msgt_name flags context : Z) (gf : option Z)
    : M kst copyin_result :=
  let deadok := has flags IPC_OBJECT_COPYIN_FLAGS_DEADOK in
  let allow_imm_send := has flags IPC_OBJECT_COPYIN_FLAGS_ALLOW_IMMOVABLE_SEND in
  let* active := is_active in
  massert active "is_active(space)" ;;*
  if msgt_name =? MACH_MSG_TYPE_MAKE_SEND then copyin_make_send name index gf
  else if msgt_name =? MACH_MSG_TYPE_MAKE_SEND_ONCE then copyin_make_send_once name index gf
  else if msgt_name =? MACH_MSG_TYPE_MOVE_RECEIVE then copyin_move_receive name index context gf
  else if msgt_name =? MACH_MSG_TYPE_COPY_SEND then copyin_copy_send name index deadok allow_imm_send gf
  else if msgt_name =? MACH_MSG_TYPE_MOVE_SEND then copyin_move_send name index deadok allow_imm_send gf
  else if msgt_name =? MACH_MSG_TYPE_MOVE_SEND_ONCE
  then copyin_move_send_once name index flags deadok allow_imm_send gf
  else ret (copyin_fail KERN_INVALID_RIGHT IP_NULL gf).

(** ** Two send rights at once *)
Definition ipc_right_copyin_two_move_sends (name index : Z) : M kst copyin_result :=
  let* space := get_space is_self in
  let* active := is_active in
  massert active "is_active(space)" ;;*
  let* e := get_entry index in
  let bits := ie_bits e in
  let urefs := IE_BITS_UREFS bits in
  if negb (has bits MACH_PORT_TYPE_SEND) || (urefs <? 2)
  then ret (copyin_fail KERN_INVALID_RIGHT IP_NULL None)
  else
    let port := ie_object e in
    massert (negb (port =? IP_NULL)) "port != IP_NULL" ;;*
    let* died := ipc_right_check port name index IPC_OBJECT_COPYIN_FLAGS_NONE in
    if died then ret (copyin_fail KERN_INVALID_RIGHT port None)
    else
      let* p := get_port port in
      massert (negb (ip_immovable_send p)) "!ip_is_immovable_send(port)" ;;*
      massert (negb (ip_pinned p)) "!ip_is_pinned(port)" ;;*
      if 2 <? urefs then
        ipc_port_copy_send_locked port ;;*
        ipc_port_copy_send_locked port ;;*
        when (urefs <? MACH_PORT_UREFS_MAX) (mod_entry index (set_ie_bits (u32 (bits - 2)))) ;;*
        ipc_entry_modified name ;;*
        ret (copyin_ok port IP_NULL None)
      else
        ipc_port_copy_send_locked port ;;*
        if has bits MACH_PORT_TYPE_RECEIVE then
          massert (ip_receiver_name p =? name) "ip_get_receiver_name(port) == name" ;;*
          massert (ip_in_space p space) "ip_in_space(port, space)" ;;*
          massert (IE_BITS_TYPE bits =? MACH_PORT_TYPE_SEND_RECEIVE)
            "IE_BITS_TYPE(bits) == MACH_PORT_TYPE_SEND_RECEIVE" ;;*
          mod_entry index (set_ie_bits (clear_send_bits bits)) ;;*
          ipc_entry_modified name ;;*
          ip_reference port ;;*
          ret (copyin_ok port IP_NULL None)
        else
          massert (IE_BITS_TYPE bits =? MACH_PORT_TYPE_SEND)
            "IE_BITS_TYPE(bits) == MACH_PORT_TYPE_SEND" ;;*
          let* request := ipc_right_request_cancel_macro port name index in
          ipc_hash_delete port name ;;*
          ipc_entry_dealloc port name index ;;*
          ret (copyin_ok port request None).

(** One disposition needs the receive right. *)
Definition copyin_two_make (name index msgt_one msgt_two : Z) : M kst copyin_result :=
  let* r := ipc_right_copyin name index msgt_one
              IPC_OBJECT_COPYIN_FLAGS_ALLOW_IMMOVABLE_SEND 0 None in
  massert (ci_assertcnt r =? 0) "assertcnt == 0" ;;*
  if negb (bool_decide (ci_kr r = KERN_SUCCESS)) then ret r
  else
    massert (IP_VALID (ci_object r)) "IO_VALID(*objectp)" ;;*
    massert (ci_soright r =? IP_NULL) "*sorightp == IP_NULL" ;;*
    massert (ci_release r =? IP_NULL) "*releasep == IP_NULL" ;;*
    let* r2 := ipc_right_copyin name index msgt_two IPC_OBJECT_COPYIN_FLAGS_NONE 0 None in
    massert (ci_assertcnt r2 =? 0) "assertcnt == 0" ;;*
    massert (bool_decide (ci_kr r2 = KERN_SUCCESS)) "kr == KERN_SUCCESS" ;;*
    massert (ci_soright r2 =? IP_NULL) "*sorightp == IP_NULL" ;;*
    massert (ci_release r2 =? IP_NULL) "*releasep == IP_NULL" ;;*
    massert (ci_object r2 =? ci_object r) "object_two == *objectp" ;;*
    let* e := get_entry index in
    massert (has (ie_bits e) MACH_PORT_TYPE_RECEIVE) "entry->ie_bits & MACH_PORT_TYPE_RECEIVE" ;;*
    ret (mk_copyin KERN_SUCCESS (ci_object r) (ci_soright r2) (ci_release r2) 0 None).

Definition ipc_right_copyin_two (name index msgt_one msgt_two : Z) : M kst copyin_result :=
  massert (MACH_MSG_TYPE_PORT_ANY_SEND msgt_one) "MACH_MSG_TYPE_PORT_ANY_SEND(msgt_one)" ;;*
  massert (MACH_MSG_TYPE_PORT_ANY_SEND msgt_two) "MACH_MSG_TYPE_PORT_ANY_SEND(msgt_two)" ;;*
  if (msgt_one =? MACH_MSG_TYPE_MOVE_SEND_ONCE) || (msgt_two =? MACH_MSG_TYPE_MOVE_SEND_ONCE)
  then ret (copyin_fail KERN_INVALID_RIGHT IP_NULL None)
  else if (msgt_one =? MACH_MSG_TYPE_MAKE_SEND) || (msgt_one =? MACH_MSG_TYPE_MAKE_SEND_ONCE) ||
          (msgt_two =? MACH_MSG_TYPE_MAKE_SEND) || (msgt_two =? MACH_MSG_TYPE_MAKE_SEND_ONCE)
  then copyin_two_make name index msgt_one msgt_two
  else if (msgt_one =? MACH_MSG_TYPE_MOVE_SEND) && (msgt_two =? MACH_MSG_TYPE_MOVE_SEND)
  then ipc_right_copyin_two_move_sends name index
  else
    let msgt_name := if (msgt_one =? MACH_MSG_TYPE_MOVE_SEND) || (msgt_two =? MACH_MSG_TYPE_MOVE_SEND)
                     then MACH_MSG_TYPE_MOVE_SEND else MACH_MSG_TYPE_COPY_SEND in
    let* r := ipc_right_copyin name index msgt_name
                IPC_OBJECT_COPYIN_FLAGS_ALLOW_IMMOVABLE_SEND 0 None in
    massert (ci_assertcnt r =? 0) "assertcnt == 0" ;;*
    if negb (bool_decide (ci_kr r = KERN_SUCCESS)) then ret r
    else
      ipc_port_copy_send_locked (ci_object r) ;;*
      ret r.

(** ** Copying out *)
Definition copyout_send_once (name index object : Z) : M kst unit :=
  let* e := get_entry index in
  let bits := ie_bits e in
  let* p := get_port object in
  massert (IE_BITS_TYPE bits =? MACH_PORT_TYPE_NONE) "IE_BITS_TYPE(bits) == MACH_PORT_TYPE_NONE" ;;*
  massert (IE_BITS_UREFS bits =? 0) "IE_BITS_UREFS(bits) == 0" ;;*
  massert (0 <? ip_sorights p) "port->ip_sorights > 0" ;;*
  when (ip_specialreply p)
    (emit "ipc_port_adjust_special_reply_port_locked"
       [object; ith_knote; IPC_PORT_ADJUST_SR_LINK_WORKLOOP]) ;;*
  mod_entry index (set_ie_bits (Z.lor bits (Z.lor MACH_PORT_TYPE_SEND_ONCE 1))) ;;*
  ipc_entry_modified name.

Definition copyout_send (name index object : Z) : M kst unit :=
  let* e := get_entry index in
  let bits := ie_bits e in
  let* p := get_port object in
  massert (0 <? ip_srights p) "port->ip_srights > 0" ;;*
  if has bits MACH_PORT_TYPE_SEND then
    let urefs := IE_BITS_UREFS bits in
    massert (1 <? ip_srights p) "port->ip_srights > 1" ;;*
    massert (0 <? urefs) "urefs > 0" ;;*
    massert (urefs <=? MACH_PORT_UREFS_MAX) "urefs <= MACH_PORT_UREFS_MAX" ;;*
    put_port object (set_ip_srights (u32 (ip_srights p - 1)) p) ;;*
    ip_release_live object ;;*
    when (negb (urefs =? MACH_PORT_UREFS_MAX))
      (mod_entry index (set_ie_bits (u32 (Z.lor bits MACH_PORT_TYPE_SEND + 1))) ;;*
       ipc_entry_modified name)
  else
    (if has bits MACH_PORT_TYPE_RECEIVE then
       massert (IE_BITS_TYPE bits =? MACH_PORT_TYPE_RECEIVE)
         "IE_BITS_TYPE(bits) == MACH_PORT_TYPE_RECEIVE" ;;*
       massert (IE_BITS_UREFS bits =? 0) "IE_BITS_UREFS(bits) == 0" ;;*
       ip_release_live object
     else
       massert (IE_BITS_TYPE bits =? MACH_PORT_TYPE_NONE)
         "IE_BITS_TYPE(bits) == MACH_PORT_TYPE_NONE" ;;*
       massert (IE_BITS_UREFS bits =? 0) "IE_BITS_UREFS(bits) == 0" ;;*
       ipc_hash_insert object name) ;;*
    mod_entry index (set_ie_bits (u32 (Z.lor bits MACH_PORT_TYPE_SEND + 1))) ;;*
    ipc_entry_modified name.

(** The guard of a receive right on arrival; returns the guard flags. *)
Definition copyout_guard (object : Z) (gf : option Z) : M kst (option Z) :=
  match gf with
  | Some flags =>
    if has flags MACH_MSG_GUARD_FLAGS_IMMOVABLE_RECEIVE then
      let* p := get_port object in
      massert (negb (ip_immovable_receive p)) "port->ip_immovable_receive == 0" ;;*
      let p := set_ip_strict_guard false (set_ip_guarded true p) in
      let p := if negb (ith_knote =? ITH_KNOTE_PSEUDO) then set_ip_immovable_receive true p else p in
      put_port object (set_ip_context ith_msg_addr p) ;;*
      ret (Some (Z.ldiff flags MACH_MSG_GUARD_FLAGS_UNGUARDED_ON_SEND))
    else ret gf
  | None => ret gf
  end.

(** The service-port check of a port-destroyed notification. *)
Definition copyout_service_port (name object : Z) : M kst unit :=
  let* p := get_port object in
  if negb (ip_service_port p) then ret tt
  else
    massert (negb (ip_splabel p =? 0)) "port->ip_splabel != NULL" ;;*
    if negb (ipc_service_port_label_is_pd_notification (ip_splabel p)) then ret tt
    else
      emit "ipc_service_port_label_clear_flag" [ip_splabel p; ISPL_FLAGS_SEND_PD_NOTIFICATION] ;;*
      if negb MACH_ASSERT && negb current_task_is_initproc then ret tt
      else
        let '(sp_name, sp_context) := ipc_service_port_label_get_attr (ip_splabel p) in
        massert (negb (sp_name =? MACH_PORT_NULL)) "sp_name != MACH_PORT_NULL" ;;*
        if negb (name =? sp_name)
        then panic "Service port name doesnt match the stored launchd port name"
        else when (negb (sp_context =? 0))
          (put_port object (set_ip_context sp_context
             (set_ip_strict_guard true (set_ip_guarded true p)))).

Definition copyout_receive (name index object : Z) (gf : option Z) : M kst (option Z) :=
  let* space := get_space is_self in
  let* e := get_entry index in
  let bits := ie_bits e in
  let* p := get_port object in
  let assertcnt := ip_impcount p in
  massert (ip_mscount p =? 0) "port->ip_mscount == 0" ;;*
  massert (negb (ip_in_a_space p)) "!ip_in_a_space(port)" ;;*
  if ip_is_kobject p || ip_is_kolabeled p
  then panic "ipc_right_copyout: Copyout kobject/kolabel as receive right"
  else
    let dest := ip_get_destination p in
    put_port object (set_ip_receiver space (set_ip_receiver_name name p)) ;;*
    let* gf := copyout_guard object gf in
    copyout_service_port name object ;;*
    massert (negb (has bits MACH_PORT_TYPE_RECEIVE)) "(bits & MACH_PORT_TYPE_RECEIVE) == 0" ;;*
    (if has bits MACH_PORT_TYPE_SEND then
       massert (IE_BITS_TYPE bits =? MACH_PORT_TYPE_SEND)
         "IE_BITS_TYPE(bits) == MACH_PORT_TYPE_SEND" ;;*
       massert (0 <? IE_BITS_UREFS bits) "IE_BITS_UREFS(bits) > 0" ;;*
       massert (0 <? ip_srights p) "port->ip_srights > 0"
     else
       massert (IE_BITS_TYPE bits =? MACH_PORT_TYPE_NONE)
         "IE_BITS_TYPE(bits) == MACH_PORT_TYPE_NONE" ;;*
       massert (IE_BITS_UREFS bits =? 0) "IE_BITS_UREFS(bits) == 0") ;;*
    mod_entry index (set_ie_bits (Z.lor bits MACH_PORT_TYPE_RECEIVE)) ;;*
    ipc_entry_modified name ;;*
    emit "ipc_port_adjust_port_locked"
      [object; if ITH_KNOTE_VALID ith_knote MACH_MSG_TYPE_PORT_RECEIVE then ith_knote else 0;
       Z.b2z (negb (ith_knote =? ITH_KNOTE_PSEUDO) && ip_sync_bootstrap_checkin p)] ;;*
    when (has bits MACH_PORT_TYPE_SEND)
      (ip_release_live object ;;* ipc_hash_delete object name) ;;*
    when (negb (dest =? IP_NULL))
      (emit "ipc_port_impcount_delta" [dest; 0 - assertcnt] ;;*
       emit "ipc_port_send_turnstile_complete" [dest] ;;*
       ip_release dest) ;;*
    ret gf.

(** Returns the guard flags as the code leaves them; the return code is always
    [KERN_SUCCESS]. *)
Definition ipc_right_copyout (name index msgt_name flags : Z) (gf : option Z) (object : Z)
    : M kst (option Z) :=
  let* e := get_entry index in
  massert (IP_VALID object) "IO_VALID(object)" ;;*
  let* p := get_port object in
  massert (ip_active p) "io_active(object)" ;;*
  massert (ie_object e =? object) "entry->ie_object == object" ;;*
  when (has flags IPC_OBJECT_COPYOUT_FLAGS_PINNED)
    (massert (negb (ip_pinned p)) "!ip_is_pinned(port)" ;;*
     massert (ip_immovable_send p) "ip_is_immovable_send(port)" ;;*
     massert space_task_is_immovable "task_is_immovable(space->is_task)" ;;*
     massert space_task_is_pinned "task_is_pinned(space->is_task)" ;;*
     put_port object (set_ip_pinned true p)) ;;*
  if msgt_name =? MACH_MSG_TYPE_PORT_SEND_ONCE then copyout_send_once name index object ;;* ret gf
  else if msgt_name =? MACH_MSG_TYPE_PORT_SEND then copyout_send name index object ;;* ret gf
  else if msgt_name =? MACH_MSG_TYPE_PORT_RECEIVE then copyout_receive name index object gf
  else panic "ipc_right_copyout: strange rights".
End operations.
