(* ===== verification/IpcObject.v ===== *)
(** * Objects and naked rights ([osfmk/ipc/ipc_object.c], [ipc_port.c], [ipc_pset.c])

    Name translation, allocation of objects with an entry for them, and the
    copyin and copyout of rights at the level of names. *)

From S2P Require Import Prelude MachPort Prng OsRefcnt IpcTable IpcHash IpcState IpcSpace IpcEntry IpcPort IpcChain IpcRequest IpcPortLife IpcRight RightDrop RightCopy.

Definition MACH_PORT_RIGHT_VALID_TRANSLATE (right : Z) : bool :=
  (MACH_PORT_RIGHT_SEND <=? right) && (right <=? MACH_PORT_RIGHT_DEAD_NAME).
Definition MACH_MSG_TYPE_DISPOSE_RECEIVE : Z := 24.
Definition MACH_MSG_TYPE_DISPOSE_SEND : Z := 25.
Definition MACH_MSG_TYPE_DISPOSE_SEND_ONCE : Z := 26.

(** ** Dispositions *)
Definition ipc_object_copyin_type (msgt_name : Z) : Z :=
  if msgt_name =? MACH_MSG_TYPE_MOVE_RECEIVE then MACH_MSG_TYPE_PORT_RECEIVE
  else if (msgt_name =? MACH_MSG_TYPE_MOVE_SEND_ONCE) || (msgt_name =? MACH_MSG_TYPE_MAKE_SEND_ONCE)
  then MACH_MSG_TYPE_PORT_SEND_ONCE
  else if (msgt_name =? MACH_MSG_TYPE_MOVE_SEND) || (msgt_name =? MACH_MSG_TYPE_MAKE_SEND) ||
          (msgt_name =? MACH_MSG_TYPE_COPY_SEND) then MACH_MSG_TYPE_PORT_SEND
  else MACH_MSG_TYPE_PORT_NONE.

Section operations.
Context `{KernelConfig} `{TableSizes} `{Concurrency} `{Externals} `{RequestSizes}.

(** ** Translation *)
Definition ipc_object_translate (name right : Z) : M kst (kern_return_t * Z) :=
  if negb (MACH_PORT_RIGHT_VALID_TRANSLATE right) then ret (KERN_INVALID_RIGHT, IO_NULL)
  else
    let* (kr, found) := ipc_right_lookup_read name in
    match found with
    | None => ret (kr, IO_NULL)
    | Some (bits, object) =>
      if Z.land bits (MACH_PORT_TYPE right) =? MACH_PORT_TYPE_NONE
      then ret (KERN_INVALID_RIGHT, IO_NULL)
      else ret (KERN_SUCCESS, object)
    end.

Definition ipc_port_translate_send (name : Z) : M kst (kern_return_t * Z) :=
  ipc_object_translate name MACH_PORT_RIGHT_SEND.

Definition ipc_port_translate_receive (name : Z) : M kst (kern_return_t * Z) :=
  let* (kr, object) := ipc_object_translate name MACH_PORT_RIGHT_RECEIVE in
  if bool_decide (kr = KERN_SUCCESS) then
    let* space := get_space is_self in
    let* p := get_port object in
    if ip_in_space p space then ret (kr, object)
    else panic "found receive right in space with non-matching receiver"
  else ret (kr, IP_NULL).

(** The wrong right under a name; no exception for a receive right it once
    was. *)
Definition translate_wrong_right (name right bits : Z) : M kst unit :=
  when (negb ((Z.land right MACH_PORT_RIGHT_RECEIVE =? MACH_PORT_RIGHT_RECEIVE) &&
              (Z.land bits MACH_PORT_TYPE_EX_RECEIVE =? MACH_PORT_TYPE_EX_RECEIVE)))
    (mach_port_guard_exception name 0 0 kGUARD_EXC_INVALID_RIGHT).

Definition ipc_object_translate_two (name1 right1 name2 right2 : Z)
    : M kst (kern_return_t * option (Z * Z)) :=
  let* (kr, found) := ipc_right_lookup_two_write name1 name2 in
  match found with
  | None => ret (kr, None)
  | Some (i1, i2) =>
    let* e1 := get_entry i1 in
    let* e2 := get_entry i2 in
    if Z.land (ie_bits e1) (MACH_PORT_TYPE right1) =? MACH_PORT_TYPE_NONE then
      translate_wrong_right name1 right1 (ie_bits e1) ;;* ret (KERN_INVALID_RIGHT, None)
    else if Z.land (ie_bits e2) (MACH_PORT_TYPE right2) =? MACH_PORT_TYPE_NONE then
      translate_wrong_right name2 right2 (ie_bits e2) ;;* ret (KERN_INVALID_RIGHT, None)
    else
      massert (negb (ie_object e1 =? IO_NULL)) "object1 != IO_NULL" ;;*
      let* active1 := io_active (ie_object e1) in
      if negb active1 then ret (KERN_INVALID_NAME, None)
      else
        massert (negb (ie_object e2 =? IO_NULL)) "object2 != IO_NULL" ;;*
        let* active2 := io_active (ie_object e2) in
        if negb active2 then ret (KERN_INVALID_NAME, None)
        else ret (KERN_SUCCESS, Some (ie_object e1, ie_object e2))
  end.

(** ** Allocation *)

(** Of a dead name; [rounds], [rescans] and [memory] as in
    [ipc_entry_alloc]. *)
Definition ipc_object_alloc_dead (rounds rescans : nat) (memory : bool) : M kst (kern_return_t * Z) :=
  let* (kr, r) := ipc_entry_alloc rounds rescans memory IO_NULL in
  match r with
  | None => ret (kr, MACH_PORT_NULL)
  | Some (name, index) =>
    mod_entry index (fun e => set_ie_bits (Z.lor (ie_bits e) (Z.lor MACH_PORT_TYPE_DEAD_NAME 1)) e) ;;*
    ipc_entry_modified name ;;*
    ret (KERN_SUCCESS, name)
  end.

Definition ipc_object_alloc_dead_name (rounds rescans : nat) (memory : bool) (name : Z)
    : M kst kern_return_t :=
  let* (kr, r) := ipc_entry_alloc_name rounds rescans memory name in
  match r with
  | None => ret kr
  | Some index =>
    let* inuse := ipc_right_inuse index in
    if inuse then ret KERN_NAME_EXISTS
    else
      let* e := get_entry index in
      massert (ie_object e =? IO_NULL) "entry->ie_object == IO_NULL" ;;*
      put_entry index (set_ie_bits (Z.lor (ie_bits e) (Z.lor MACH_PORT_TYPE_DEAD_NAME 1)) e) ;;*
      ipc_entry_modified name ;;*
      ret KERN_SUCCESS
  end.

(** A new object at [a], and its release before anyone saw it. *)
Definition io_alloc (a otype : Z) : M kst unit :=
  if otype =? IOT_PORT
  then put_port a (set_io_references 1 (set_io_bits (io_makebits true otype 0) zero_port))
  else put_pset a (mk_ipc_pset (io_makebits true otype 0) 1).
Definition io_free (a otype : Z) : M kst unit :=
  if otype =? IOT_PORT then del_port a else del_pset a.

(** [a] is where the zone allocator put the object. *)
Definition ipc_object_alloc (rounds rescans : nat) (memory : bool) (a otype type urefs : Z)
    : M kst (kern_return_t * Z) :=
  massert (otype <? 2) "otype < IOT_NUMBER" ;;*
  massert (Z.land type MACH_PORT_TYPE_ALL_RIGHTS =? type) "(type & MACH_PORT_TYPE_ALL_RIGHTS) == type" ;;*
  massert (negb (type =? MACH_PORT_TYPE_NONE)) "type != MACH_PORT_TYPE_NONE" ;;*
  massert (urefs <=? MACH_PORT_UREFS_MAX) "urefs <= MACH_PORT_UREFS_MAX" ;;*
  io_alloc a otype ;;*
  let* (kr, r) := ipc_entry_alloc rounds rescans memory a in
  match r with
  | None => io_free a otype ;;* ret (kr, MACH_PORT_NULL)
  | Some (name, index) =>
    mod_entry index (fun e => set_ie_bits (Z.lor (ie_bits e) (Z.lor type urefs)) e) ;;*
    ipc_entry_modified name ;;*
    ret (KERN_SUCCESS, name)
  end.

Definition ipc_object_alloc_name (rounds rescans : nat) (memory : bool) (a otype type urefs name : Z)
    (finish_init : Z -> M kst unit) : M kst kern_return_t :=
  massert (otype <? 2) "otype < IOT_NUMBER" ;;*
  massert (Z.land type MACH_PORT_TYPE_ALL_RIGHTS =? type) "(type & MACH_PORT_TYPE_ALL_RIGHTS) == type" ;;*
  massert (negb (type =? MACH_PORT_TYPE_NONE)) "type != MACH_PORT_TYPE_NONE" ;;*
  massert (urefs <=? MACH_PORT_UREFS_MAX) "urefs <= MACH_PORT_UREFS_MAX" ;;*
  io_alloc a otype ;;*
  let* (kr, r) := ipc_entry_alloc_name rounds rescans memory name in
  match r with
  | None => io_free a otype ;;* ret kr
  | Some index =>
    let* inuse := ipc_right_inuse index in
    if inuse then io_free a otype ;;* ret KERN_NAME_EXISTS
    else
      mod_entry index (fun e => set_ie_object a
        (set_ie_bits (Z.lor (ie_bits e) (Z.lor type urefs)) e)) ;;*
      finish_init a ;;*
      ipc_entry_modified name ;;*
      ret KERN_SUCCESS
  end.

(** The type and user references of the entry of a new port. *)
Definition port_alloc_type (flags : Z) : Z * Z :=
  if has flags IPC_PORT_INIT_MAKE_SEND_RIGHT
  then (Z.lor MACH_PORT_TYPE_RECEIVE MACH_PORT_TYPE_SEND, 1) else (MACH_PORT_TYPE_RECEIVE, 0).

Definition ipc_port_alloc (rounds rescans : nat) (memory : bool) (a flags : Z)
    : M kst (kern_return_t * Z) :=
  let '(type, urefs) := port_alloc_type flags in
  let* (kr, name) := ipc_object_alloc rounds rescans memory a IOT_PORT type urefs in
  if bool_decide (kr = KERN_SUCCESS) then
    let* space := get_space is_self in
    ipc_port_init a space flags name ;;*
    ret (KERN_SUCCESS, name)
  else ret (kr, MACH_PORT_NULL).

Definition ipc_port_alloc_name (rounds rescans : nat) (memory : bool) (a flags name : Z)
    : M kst kern_return_t :=
  let '(type, urefs) := port_alloc_type flags in
  let* space := get_space is_self in
  ipc_object_alloc_name rounds rescans memory a IOT_PORT type urefs name
    (fun object => ipc_port_init object space flags name).

Definition ipc_pset_alloc (rounds rescans : nat) (memory : bool) (a : Z) : M kst (kern_return_t * Z) :=
  ipc_object_alloc rounds rescans memory a IOT_PORT_SET MACH_PORT_TYPE_PORT_SET 0.
Definition ipc_pset_alloc_name (rounds rescans : nat) (memory : bool) (a name : Z)
    : M kst kern_return_t :=
  ipc_object_alloc_name rounds rescans memory a IOT_PORT_SET MACH_PORT_TYPE_PORT_SET 0 name
    (fun _ => ret tt).

(** ** Copying in by name *)
Definition ipc_object_copyin (name msgt_name context : Z) (gf : option Z) (copyin_flags : Z)
    : M kst (kern_return_t * Z * option Z) :=
  let irc_flags := Z.lor (Z.land copyin_flags IPC_OBJECT_COPYIN_FLAGS_ALLOW_IMMOVABLE_SEND)
                     IPC_OBJECT_COPYIN_FLAGS_DEADOK in
  let* (kr, entry) := ipc_right_lookup_write name in
  match entry with
  | None => ret (kr, IO_NULL, gf)
  | Some index =>
    let* r := ipc_right_copyin name index msgt_name irc_flags context gf in
    when ((0 <? ci_assertcnt r) && ipc_importance_task_is_any_receiver_type current_task_imp_base)
      (emit "ipc_importance_task_drop_internal_assertion" [current_task_imp_base; ci_assertcnt r]) ;;*
    when (negb (ci_release r =? IP_NULL)) (ip_release (ci_release r)) ;;*
    when (bool_decide (ci_kr r = KERN_SUCCESS) && negb (ci_soright r =? IP_NULL))
      (ipc_notify_port_deleted (ci_soright r) name) ;;*
    ret (ci_kr r, ci_object r, ci_guard_flags r)
  end.

(** [remote] is whether [port->ip_receiver->is_node_id != HOST_LOCAL_NODE]. *)
Definition ipc_object_copyin_from_kernel (object msgt_name : Z) (remote : bool) : M kst unit :=
  massert (IP_VALID object) "IO_VALID(object)" ;;*
  let* p := get_port object in
  if msgt_name =? MACH_MSG_TYPE_MOVE_RECEIVE then
    require_ip_active p ;;*
    when (ip_in_a_space p)
      (massert (ip_in_space p ipc_space_kernel) "ip_in_space(port, ipc_space_kernel)" ;;*
       massert (negb (ip_immovable_receive p)) "port->ip_immovable_receive == 0" ;;*
       put_port object (set_ip_destination IP_NULL
         (set_ip_receiver_name MACH_PORT_NULL (set_ip_mscount 0 p))))
  else if msgt_name =? MACH_MSG_TYPE_COPY_SEND then
    when (ip_active p) (massert (0 <? ip_srights p) "port->ip_srights > 0") ;;*
    put_port object (set_ip_srights (u32 (ip_srights p + 1)) p) ;;*
    ip_reference object
  else if msgt_name =? MACH_MSG_TYPE_MAKE_SEND then
    when (ip_active p)
      (massert (ip_in_a_space p) "ip_in_a_space(port)" ;;*
       massert (ip_in_space p ipc_space_kernel || remote)
         "ip_in_space(port, ipc_space_kernel) || is_node_id != HOST_LOCAL_NODE") ;;*
    let p := if ip_active p then set_ip_mscount (u32 (ip_mscount p + 1)) p else p in
    put_port object (set_ip_srights (u32 (ip_srights p + 1)) p) ;;*
    ip_reference object
  else if msgt_name =? MACH_MSG_TYPE_MOVE_SEND then
    massert (negb (ip_srights p =? 0)) "ip_srights"
  else if msgt_name =? MACH_MSG_TYPE_MAKE_SEND_ONCE then
    when (ip_active p) (massert (ip_in_a_space p) "ip_in_a_space(port)") ;;*
    ipc_port_make_sonce_locked object ;;* ret tt
  else if msgt_name =? MACH_MSG_TYPE_MOVE_SEND_ONCE then
    massert (negb (ip_sorights p =? 0)) "ip_sorights"
  else panic "ipc_object_copyin_from_kernel: strange rights".

(** ** Destroying naked rights *)
Definition ipc_object_destroy (object msgt_name : Z) : M kst unit :=
  massert (IP_VALID object) "IO_VALID(object)" ;;*
  if msgt_name =? MACH_MSG_TYPE_PORT_SEND then ipc_port_release_send object
  else if msgt_name =? MACH_MSG_TYPE_PORT_SEND_ONCE then ipc_notify_send_once_and_unlock object
  else if msgt_name =? MACH_MSG_TYPE_PORT_RECEIVE then ipc_port_release_receive object
  else panic "ipc_object_destroy: strange rights".

Definition ipc_object_destroy_dest (object msgt_name : Z) : M kst unit :=
  massert (IP_VALID object) "IO_VALID(object)" ;;*
  if msgt_name =? MACH_MSG_TYPE_PORT_SEND then ipc_port_release_send object
  else if msgt_name =? MACH_MSG_TYPE_PORT_SEND_ONCE then ipc_notify_send_once_and_unlock object
  else panic "ipc_object_destroy_dest: strange rights".

(** ** The fast path of [mach_port_insert_right] *)
Definition ipc_object_insert_send_right (name msgt_name : Z) : M kst kern_return_t :=
  massert ((msgt_name =? MACH_MSG_TYPE_MAKE_SEND) || (msgt_name =? MACH_MSG_TYPE_COPY_SEND))
    "msgt_name == MACH_MSG_TYPE_MAKE_SEND || msgt_name == MACH_MSG_TYPE_COPY_SEND" ;;*
  let* (kr, entry) := ipc_right_lookup_write name in
  match entry with
  | None => ret kr
  | Some index =>
    let* e := get_entry index in
    let bits := ie_bits e in
    let object := ie_object e in
    if negb (IP_VALID object) then ret KERN_INVALID_CAPABILITY
    else
      let* active := io_active object in
      if negb active then ret KERN_INVALID_CAPABILITY
      else if msgt_name =? MACH_MSG_TYPE_MAKE_SEND then
        if has bits MACH_PORT_TYPE_RECEIVE then
          let* p := get_port object in
          let p := set_ip_mscount (u32 (ip_mscount p + 1)) p in
          put_port object (if negb (has bits MACH_PORT_TYPE_SEND)
                           then set_ip_srights (u32 (ip_srights p + 1)) p else p) ;;*
          let bits := if negb (has bits MACH_PORT_TYPE_SEND)
                      then Z.lor bits MACH_PORT_TYPE_SEND else bits in
          let bits := if IE_BITS_UREFS bits <? MACH_PORT_UREFS_MAX then u32 (bits + 1) else bits in
          put_entry index (set_ie_bits bits e) ;;*
          ipc_entry_modified name ;;*
          ret KERN_SUCCESS
        else ret KERN_INVALID_RIGHT
      else if has bits MACH_PORT_TYPE_SEND then
        when (IE_BITS_UREFS bits <? MACH_PORT_UREFS_MAX)
          (put_entry index (set_ie_bits (u32 (bits + 1)) e)) ;;*
        ipc_entry_modified name ;;*
        ret KERN_SUCCESS
      else ret KERN_INVALID_RIGHT
  end.

(** ** Copying out *)

(** Unlabelled ports may always be copied out. *)
Definition ip_label_check (port msgt_name flags : Z) : M kst (bool * Z * Z) :=
  let* p := get_port port in
  if negb (ip_is_kolabeled p) then ret (true, IP_NULL, flags)
  else ipc_kobject_label_check port msgt_name flags.

(** The [for (;;)] loop of [ipc_object_copyout]: room for an entry, a live
    object, and its label's consent or substitute.  Returns the object and
    flags to go on with. *)
Fixpoint copyout_prepare (rounds rescans : nat) (memory : bool) (object msgt_name flags : Z)
    : M kst (kern_return_t * Z * Z) :=
  match rounds with
  | O => fun _ => Diverges
  | S rounds =>
    let* active := is_active in
    if negb active then ret (KERN_INVALID_TASK, object, flags)
    else
      let* kr := ipc_entries_hold 1 in
      if negb (bool_decide (kr = KERN_SUCCESS)) then
        let* kr := ipc_entry_grow_table rescans memory ITS_SIZE_NONE in
        if negb (bool_decide (kr = KERN_SUCCESS)) then ret (kr, object, flags)
        else copyout_prepare rounds rescans memory object msgt_name flags
      else
        let* alive := io_active object in
        if negb alive then ret (KERN_INVALID_CAPABILITY, object, flags)
        else
          let* (allowed, port_subst, flags) := ip_label_check object msgt_name flags in
          if negb allowed then
            massert (port_subst =? IP_NULL) "port_subst == IP_NULL" ;;*
            ret (KERN_INVALID_CAPABILITY, object, flags)
          else if negb (port_subst =? IP_NULL) then
            massert (msgt_name =? MACH_MSG_TYPE_PORT_SEND) "msgt_name == MACH_MSG_TYPE_PORT_SEND" ;;*
            if negb (IP_VALID port_subst) then ret (KERN_INVALID_CAPABILITY, IO_DEAD, flags)
            else copyout_prepare rounds rescans memory port_subst msgt_name flags
          else ret (KERN_SUCCESS, object, flags)
  end.

Definition ipc_object_copyout (rounds rescans : nat) (memory : bool) (object msgt_name flags : Z)
    (gf : option Z) : M kst (kern_return_t * Z * option Z) :=
  massert (IP_VALID object) "IO_VALID(object)" ;;*
  when (ITH_KNOTE_VALID ith_knote msgt_name)
    (emit "filt_machport_turnstile_prepare_lazily" [ith_knote; msgt_name; object]) ;;*
  let* (kr, object, flags) := copyout_prepare rounds rescans memory object msgt_name flags in
  if bool_decide (kr = KERN_SUCCESS) then
    let* found :=
      if negb (msgt_name =? MACH_MSG_TYPE_PORT_SEND_ONCE)
      then ipc_right_reverse object else ret None in
    let* (name, index) :=
      match found with
      | Some (name, index) =>
        let* e := get_entry index in
        massert (has (ie_bits e) MACH_PORT_TYPE_SEND_RECEIVE)
          "entry->ie_bits & MACH_PORT_TYPE_SEND_RECEIVE" ;;*
        ret (name, index)
      | None =>
        let* (_, name, index) := ipc_entry_claim object in ret (name, index)
      end in
    let* gf := ipc_right_copyout name index msgt_name flags gf object in
    ret (KERN_SUCCESS, name, gf)
  else
    when (IP_VALID object) (ipc_object_destroy object msgt_name) ;;*
    ret (kr, MACH_PORT_NULL, gf).

(** The entry that [ipc_entry_alloc_name] made goes back if it is unused. *)
Definition copyout_name_undo (name index : Z) : M kst unit :=
  let* inuse := ipc_right_inuse index in
  when (negb inuse) (ipc_entry_dealloc IO_NULL name index).

(** The copyout proper, with the boosts of a receive right that arrives
    without having been enqueued. *)
Definition copyout_name_right (object msgt_name name index : Z) : M kst kern_return_t :=
  let* p := get_port object in
  let receive := msgt_name =? MACH_MSG_TYPE_PORT_RECEIVE in
  let task_imp := if receive then
                    match space_task_imp_base with
                    | Some t => if ipc_importance_task_is_any_receiver_type t then t else IIT_NULL
                    | None => IIT_NULL
                    end
                  else IIT_NULL in
  when (negb (task_imp =? IIT_NULL)) (emit "ipc_importance_task_reference" [task_imp]) ;;*
  when receive (put_port object (set_ip_tempowner false p)) ;;*
  ipc_right_copyout name index msgt_name IPC_OBJECT_COPYOUT_FLAGS_NONE None object ;;*
  when (negb (task_imp =? IIT_NULL))
    (emit "ipc_importance_task_hold_internal_assertion" [task_imp; ip_impcount p] ;;*
     emit "ipc_importance_task_release" [task_imp]) ;;*
  ret KERN_SUCCESS.

Definition ipc_object_copyout_name (rounds rescans : nat) (memory : bool)
    (object msgt_name name : Z) : M kst kern_return_t :=
  massert (IP_VALID object) "IO_VALID(object)" ;;*
  let* (kr, r) := ipc_entry_alloc_name rounds rescans memory name in
  match r with
  | None => ret kr
  | Some index =>
    let* p := get_port object in
    if negb (ip_active p) || ip_is_kolabeled p then
      copyout_name_undo name index ;;* ret KERN_INVALID_CAPABILITY
    else
      let* found :=
        if negb (msgt_name =? MACH_MSG_TYPE_PORT_SEND_ONCE)
        then ipc_right_reverse object else ret None in
      match found with
      | Some (oname, oindex) =>
        if negb (name =? oname) then copyout_name_undo name index ;;* ret KERN_RIGHT_EXISTS
        else
          massert (index =? oindex) "entry == oentry" ;;*
          let* e := get_entry index in
          massert (has (ie_bits e) MACH_PORT_TYPE_SEND_RECEIVE)
            "entry->ie_bits & MACH_PORT_TYPE_SEND_RECEIVE" ;;*
          copyout_name_right object msgt_name name index
      | None =>
        let* inuse := ipc_right_inuse index in
        if inuse then ret KERN_NAME_EXISTS
        else
          let* e := get_entry index in
          massert (ie_object e =? IO_NULL) "entry->ie_object == IO_NULL" ;;*
          put_entry index (set_ie_object object e) ;;*
          copyout_name_right object msgt_name name index
      end
  end.

(** The right a message was sent to: consumed, and named if the space
    receives on it. *)
Definition ipc_object_copyout_dest (object msgt_name : Z) : M kst Z :=
  massert (IP_VALID object) "IO_VALID(object)" ;;*
  let* space := get_space is_self in
  let* p := get_port object in
  massert (ip_active p) "io_active(object)" ;;*
  if msgt_name =? MACH_MSG_TYPE_PORT_SEND then
    let name := if ip_in_space p space then ip_receiver_name p else MACH_PORT_NULL in
    massert (0 <? ip_srights p) "port->ip_srights > 0" ;;*
    let* nsrequest := drop_send_right object in
    emit "ipc_port_clear_sync_rcv_thread_boost_locked" [object] ;;*
    ipc_notify_no_senders_emit nsrequest ;;*
    ip_release object ;;*
    ret name
  else if msgt_name =? MACH_MSG_TYPE_PORT_SEND_ONCE then
    massert (0 <? ip_sorights p) "port->ip_sorights > 0" ;;*
    if ip_in_space p space then
      put_port object (set_ip_sorights (u32 (ip_sorights p - 1)) p) ;;*
      emit "ipc_port_clear_sync_rcv_thread_boost_locked" [object] ;;*
      ip_release object ;;*
      ret (ip_receiver_name p)
    else ipc_notify_send_once_and_unlock object ;;* ret MACH_PORT_NULL
  else panic "ipc_object_copyout_dest: strange rights".
End operations.
