(* ===== verification/IpcEventlink.v ===== *)
(** * Event links ([osfmk/ipc/ipc_eventlink.c], [ipc_eventlink.h], [mach/mach_eventlink_types.h])

    A pair of counters, each with a port, which two threads use to signal each other and to
    wait for each other's signals.  The sections that run under the eventlink lock are
    the steps of the model; a wait is split at the point where the thread gives up the
    processor. *)

From S2P Require Import Prelude MachPort KmsgQueue KmsgSpec Prng OsRefcnt IpcTable IpcHash IpcState IpcSpace IpcEntry IpcPort IpcMqueue IpcRequest IpcPortLife IpcKobject IpcRight RightDrop RightCopy IpcObject.

Definition UINT64_MAX : Z := 2 ^ 64 - 1.
Definition THREAD_ASSOCIATE_WILD : Z := 2 ^ 64 - 1.
Definition IPC_EVENTLINK_NULL : Z := 0.
Definition IPC_EVENTLINK_NONE : Z := 0.
Definition IPC_EVENTLINK_NO_WAIT : Z := 0x1.
Definition IPC_EVENTLINK_HANDOFF : Z := 0x2.
Definition IPC_EVENTLINK_FORCE_WAKEUP : Z := 0x4.
Definition IPC_EVENTLINK_TYPE_NO_COPYIN : Z := 0x1.
Definition MELC_OPTION_NO_COPYIN : Z := 0x1.
Definition MELA_OPTION_NONE : Z := 0.
Definition MELA_OPTION_ASSOCIATE_ON_WAIT : Z := 0x1.
Definition MELD_OPTION_NONE : Z := 0.
Definition MELSW_OPTION_NO_WAIT : Z := 0x1.
Definition KERN_CLOCK_MACH_ABSOLUTE_TIME : Z := 1.

(** ** Results packed into a word *)
Definition EVENTLINK_SIGNAL_COUNT_MASK : Z := 0xffffffffffffff.
Definition EVENTLINK_SIGNAL_ERROR_MASK : Z := 0xff.
Definition EVENTLINK_SIGNAL_ERROR_SHIFT : Z := 56.
(** The values of [mach/kern_return.h]. *)
Definition kern_return_value (kr : kern_return_t) : Z :=
  match kr with
  | KERN_SUCCESS => 0 | KERN_NO_SPACE => 3 | KERN_INVALID_ARGUMENT => 4 | KERN_FAILURE => 5
  | KERN_RESOURCE_SHORTAGE => 6 | KERN_MEMORY_ERROR => 10 | KERN_ALREADY_IN_SET => 11 | KERN_NOT_IN_SET => 12
  | KERN_NAME_EXISTS => 13 | KERN_ABORTED => 14 | KERN_INVALID_NAME => 15 | KERN_INVALID_TASK => 16
  | KERN_INVALID_RIGHT => 17 | KERN_INVALID_VALUE => 18 | KERN_INVALID_CAPABILITY => 20 | KERN_RIGHT_EXISTS => 21
  | KERN_ALREADY_WAITING => 30 | KERN_TERMINATED => 37 | KERN_NOT_SUPPORTED => 46 | KERN_NOT_WAITING => 48
  | KERN_OPERATION_TIMED_OUT => 49 | KERN_DENIED => 53
  end.
Definition encode_eventlink_count_and_error (count : Z) (error : kern_return_t) : Z :=
  Z.lor (Z.land count EVENTLINK_SIGNAL_COUNT_MASK)
    (u64 (Z.shiftl (Z.land (kern_return_value error) EVENTLINK_SIGNAL_ERROR_MASK) EVENTLINK_SIGNAL_ERROR_SHIFT)).
Definition decode_eventlink_count_from_retval (retval : Z) : Z := Z.land retval EVENTLINK_SIGNAL_COUNT_MASK.
Definition decode_eventlink_error_from_retval (retval : Z) : Z :=
  Z.land (Z.shiftr retval EVENTLINK_SIGNAL_ERROR_SHIFT) EVENTLINK_SIGNAL_ERROR_MASK.

(** ** State *)
Record ipc_eventlink := mk_eventlink {
  el_port : Z;
  el_thread : Z;
  el_base : Z;
  el_sync_counter : Z;
  el_wait_counter : Z;
}.
Definition set_el_port (v : Z) (x : ipc_eventlink) : ipc_eventlink :=
  mk_eventlink v (el_thread x) (el_base x) (el_sync_counter x) (el_wait_counter x).
Definition set_el_thread (v : Z) (x : ipc_eventlink) : ipc_eventlink :=
  mk_eventlink (el_port x) v (el_base x) (el_sync_counter x) (el_wait_counter x).
Definition set_el_sync_counter (v : Z) (x : ipc_eventlink) : ipc_eventlink :=
  mk_eventlink (el_port x) (el_thread x) (el_base x) v (el_wait_counter x).
Definition set_el_wait_counter (v : Z) (x : ipc_eventlink) : ipc_eventlink :=
  mk_eventlink (el_port x) (el_thread x) (el_base x) (el_sync_counter x) v.

(** [elb_valid] is [waitq_valid(&elb_waitq)]; a thread on that queue waits for [EVENTLINK] of
    the side's address. *)
Record ipc_eventlink_base := mk_eventlink_base { elb_valid : bool; elb_ref_count : Z; elb_type : Z }.
(** The address of [base->elb_eventlink[i]]. *)
Definition elb_eventlink (base i : Z) : Z := base + 40 * i.

(** The kernel's state, the two sides of every eventlink by address, the base structures, and
    [handoff_thread] of the current thread. *)
Record est := mk_est {
  e_kst : kst;
  e_links : gmap Z ipc_eventlink;
  e_bases : gmap Z ipc_eventlink_base;
  e_handoff_thread : Z;
}.
Definition set_e_kst (v : kst) (s : est) : est := mk_est v (e_links s) (e_bases s) (e_handoff_thread s).
Definition set_e_links (v : gmap Z ipc_eventlink) (s : est) : est := mk_est (e_kst s) v (e_bases s) (e_handoff_thread s).
Definition set_e_bases (v : gmap Z ipc_eventlink_base) (s : est) : est := mk_est (e_kst s) (e_links s) v (e_handoff_thread s).
Definition set_e_handoff_thread (v : Z) (s : est) : est := mk_est (e_kst s) (e_links s) (e_bases s) v.

(** An operation on the kernel's state. *)
Definition onk {A} (m : M kst A) : M est A :=
  fun s => match m (e_kst s) with
           | Done (a, k) => Done (a, set_e_kst k s)
           | Panic why => Panic why
           | Diverges => Diverges
           end.
Definition get_link (a : Z) : M est ipc_eventlink :=
  fun s => match e_links s !! a with Some el => Done (el, s) | None => Panic "dangling eventlink" end.
Definition put_link (a : Z) (el : ipc_eventlink) : M est unit :=
  modify (fun s => set_e_links (<[a := el]> (e_links s)) s).
Definition mod_link (a : Z) (f : ipc_eventlink -> ipc_eventlink) : M est unit :=
  let* el := get_link a in put_link a (f el).
Definition get_base (a : Z) : M est ipc_eventlink_base :=
  fun s => match e_bases s !! a with Some b => Done (b, s) | None => Panic "dangling eventlink base" end.
Definition put_base (a : Z) (b : ipc_eventlink_base) : M est unit :=
  modify (fun s => set_e_bases (<[a := b]> (e_bases s)) s).

Definition ipc_eventlink_active (a : Z) : M est bool :=
  let* el := get_link a in let* b := get_base (el_base el) in ret (elb_valid b).
Definition eventlink_remote_side (a : Z) : M est Z :=
  let* el := get_link a in
  ret (if a =? elb_eventlink (el_base el) 0 then elb_eventlink (el_base el) 1 else elb_eventlink (el_base el) 0).

(** What the sections ask of the scheduler. *)
Class Handoff := { thread_allowed_for_handoff : kst -> Z -> bool }.

Section operations.
Context `{KernelConfig} `{TableSizes} `{Concurrency} `{Externals} `{RequestSizes} `{KobjectOps} `{Messages} `{Handoff}.

(** ** References *)
Definition ipc_eventlink_reference (a : Z) : M est unit :=
  let* el := get_link a in
  let* b := get_base (el_base el) in
  let* n := lift (os_ref_retain_internal (elb_ref_count b)) in
  put_base (el_base el) (mk_eventlink_base (elb_valid b) n (elb_type b)).
(** The last reference frees the base, and with it both sides. *)
Definition ipc_eventlink_deallocate (a : Z) : M est unit :=
  if a =? IPC_EVENTLINK_NULL then ret tt
  else
    let* el := get_link a in
    let base := el_base el in
    let* b := get_base base in
    let* n := lift (os_ref_release_barrier_internal (elb_ref_count b)) in
    put_base base (mk_eventlink_base (elb_valid b) n (elb_type b)) ;;*
    if 0 <? n then ret tt
    else
      massert (negb (elb_valid b)) "!ipc_eventlink_active(ipc_eventlink)" ;;*
      modify (fun s => set_e_bases (delete base (e_bases s))
        (set_e_links (delete (elb_eventlink base 0) (delete (elb_eventlink base 1) (e_links s))) s)).

(** ** Creation; [base] and [ports] are where the allocators put things. *)
Definition initialize_side (base i port : Z) : M est unit :=
  let a := elb_eventlink base i in
  let* port := onk (ipc_kobject_alloc_port port a IKOT_EVENTLINK
                      (Z.lor IPC_KOBJECT_ALLOC_MAKE_SEND IPC_KOBJECT_ALLOC_NSREQUEST)) in
  put_link a (mk_eventlink port THREAD_NULL base 0 UINT64_MAX).
Definition ipc_eventlink_alloc (base port0 port1 : Z) : M est Z :=
  let* n := lift (os_ref_init_count_internal 2) in
  initialize_side base 0 port0 ;;*
  initialize_side base 1 port1 ;;*
  put_base base (mk_eventlink_base true n IPC_EVENTLINK_TYPE_NO_COPYIN) ;;*
  ret base.
(** [current] is whether [task] is the current task. *)
Definition mach_eventlink_create (current : bool) (elc_option base port0 port1 : Z) : M est (kern_return_t * list Z) :=
  if negb current || negb (elc_option =? MELC_OPTION_NO_COPYIN) then ret (KERN_INVALID_ARGUMENT, [])
  else
    let* base := ipc_eventlink_alloc base port0 port1 in
    let* el0 := get_link (elb_eventlink base 0) in
    let* el1 := get_link (elb_eventlink base 1) in
    ret (KERN_SUCCESS, [el_port el0; el_port el1]).

(** ** Signals *)

(** [waitq_wakeup64_one_locked] of a side, with a thread to hand the processor to. *)
Definition wakeup_one (a : Z) (handoff : bool) : M est kern_return_t :=
  let* X := gets (fun s => waiters a EVENTLINK (e_kst s)) in
  if decide (X = ∅) then ret KERN_NOT_WAITING
  else
    let* t := gets (fun s => waitq_pick (e_kst s) X) in
    let* allowed := gets (fun s => thread_allowed_for_handoff (e_kst s) t) in
    onk (mod_thread t (woken THREAD_AWAKENED)) ;;*
    when (handoff && allowed)
      (let* h := gets e_handoff_thread in
       massert (h =? THREAD_NULL) "self->handoff_thread == NULL" ;;*
       onk (emit "thread_reference" [t]) ;;*
       modify (set_e_handoff_thread t)) ;;*
    ret KERN_SUCCESS.
Definition wakeup_all (a : Z) : M est kern_return_t :=
  let* X := gets (fun s => waiters a EVENTLINK (e_kst s)) in
  onk (waitq_wakeup64_all a EVENTLINK THREAD_RESTART) ;;*
  ret (if decide (X = ∅) then KERN_NOT_WAITING else KERN_SUCCESS).

Definition ipc_eventlink_signal_internal_locked (a eventlink_option : Z) : M est kern_return_t :=
  if has eventlink_option IPC_EVENTLINK_FORCE_WAKEUP then
    mod_link a (set_el_wait_counter UINT64_MAX) ;;*
    wakeup_all a
  else
    mod_link a (fun el => set_el_sync_counter (u64 (el_sync_counter el + 1)) el) ;;*
    let* el := get_link a in
    if el_wait_counter el <? el_sync_counter el then
      mod_link a (set_el_wait_counter UINT64_MAX) ;;*
      wakeup_one a (has eventlink_option IPC_EVENTLINK_HANDOFF)
    else ret KERN_NOT_WAITING.
Definition ipc_eventlink_signal (a : Z) : M est kern_return_t :=
  if a =? IPC_EVENTLINK_NULL then ret KERN_INVALID_ARGUMENT
  else
    let* active := ipc_eventlink_active a in
    if negb active then ret KERN_TERMINATED
    else
      let* kr := ipc_eventlink_signal_internal_locked a IPC_EVENTLINK_NONE in
      ret (if bool_decide (kr = KERN_NOT_WAITING) then KERN_SUCCESS else kr).

(** ** Waits *)
Definition ipc_eventlink_convert_wait_result (wait_result : wait_result_t) : M est kern_return_t :=
  match wait_result with
  | THREAD_AWAKENED => ret KERN_SUCCESS
  | THREAD_TIMED_OUT => ret KERN_OPERATION_TIMED_OUT
  | THREAD_INTERRUPTED => ret KERN_ABORTED
  | THREAD_RESTART => ret KERN_TERMINATED
  | _ => panic "ipc_eventlink_wait_block"
  end.

(** The wait is over with a result and a count, or the thread blocks, for signals beyond a
    count, with the counter it saw. *)
Inductive wait_outcome := Waited (kr : kern_return_t) (count : Z) | WaitBlocked (count old_signal_count : Z).

(** Up to [thread_handoff_deallocate]; [self] is the current thread.  The code compares
    [el_thread] with it. *)
Definition wait_enter (self wait_eventlink signal_eventlink count eventlink_option : Z) : M est wait_outcome :=
  let* active := ipc_eventlink_active wait_eventlink in
  let* el := get_link wait_eventlink in
  let signal (option : Z) : M est unit :=
    when (negb (signal_eventlink =? IPC_EVENTLINK_NULL))
      (let* signal_kr := ipc_eventlink_signal_internal_locked signal_eventlink option in
       when (bool_decide (signal_kr = KERN_NOT_WAITING))
         (let* h := gets e_handoff_thread in massert (h =? THREAD_NULL) "self->handoff_thread == THREAD_NULL")) in
  let unlock (kr : kern_return_t) (count : Z) : M est wait_outcome :=
    let* h := gets e_handoff_thread in
    massert (h =? THREAD_NULL) "self->handoff_thread == THREAD_NULL" ;;* ret (Waited kr count) in
  if negb active then unlock KERN_TERMINATED count
  else if negb (el_thread el =? THREAD_ASSOCIATE_WILD) && negb (el_thread el =? self) then unlock KERN_INVALID_ARGUMENT count
  else if (el_thread el =? THREAD_ASSOCIATE_WILD) && negb (el_wait_counter el =? UINT64_MAX)
       then unlock KERN_INVALID_ARGUMENT count
  else if count <? el_sync_counter el then
    signal eventlink_option ;;* unlock KERN_SUCCESS (el_sync_counter el)
  else if has eventlink_option IPC_EVENTLINK_NO_WAIT then
    signal eventlink_option ;;* unlock KERN_OPERATION_TIMED_OUT (el_sync_counter el)
  else
    put_link wait_eventlink (set_el_wait_counter count el) ;;*
    let* aborted := gets (fun s => thread_abort_pending (e_kst s) self) in
    onk (mod_thread self (fun th =>
      if aborted then woken THREAD_INTERRUPTED th
      else set_th_waits_on (Some (wait_eventlink, EVENTLINK)) (set_th_wait_result THREAD_WAITING th))) ;;*
    signal (Z.lor eventlink_option IPC_EVENTLINK_HANDOFF) ;;*
    let* h := gets e_handoff_thread in
    modify (set_e_handoff_thread THREAD_NULL) ;;*
    onk (emit "thread_handoff_deallocate" [h]) ;;*
    ret (WaitBlocked count (el_sync_counter el)).
(** When the thread runs again. *)
Definition wait_resume (self count old_signal_count : Z) : M est (kern_return_t * Z) :=
  let* th := onk (get_thread self) in
  let* kr := ipc_eventlink_convert_wait_result (th_wait_result th) in
  let* h := gets e_handoff_thread in
  massert (h =? THREAD_NULL) "self->handoff_thread == THREAD_NULL" ;;*
  ret (kr, if bool_decide (kr = KERN_SUCCESS) then u64 (count + 1) else old_signal_count).

(** ** Association *)
Definition mach_eventlink_associate (a thread : Z) (copyin : bool) (ela_option : Z) : M est kern_return_t :=
  if a =? IPC_EVENTLINK_NULL then ret KERN_TERMINATED
  else if copyin then ret KERN_INVALID_ARGUMENT
  else if ((thread =? THREAD_NULL) && (ela_option =? MELA_OPTION_NONE)) ||
          (negb (thread =? THREAD_NULL) && (ela_option =? MELA_OPTION_ASSOCIATE_ON_WAIT)) then ret KERN_INVALID_ARGUMENT
  else
    let* active := ipc_eventlink_active a in
    if negb active then ret KERN_TERMINATED
    else
      let* el := get_link a in
      if negb (el_thread el =? THREAD_NULL) then ret KERN_NAME_EXISTS
      else if ela_option =? MELA_OPTION_ASSOCIATE_ON_WAIT
      then put_link a (set_el_thread THREAD_ASSOCIATE_WILD el) ;;* ret KERN_SUCCESS
      else onk (emit "thread_reference" [thread]) ;;* put_link a (set_el_thread thread el) ;;* ret KERN_SUCCESS.
Definition mach_eventlink_disassociate (a eld_option : Z) : M est kern_return_t :=
  if a =? IPC_EVENTLINK_NULL then ret KERN_TERMINATED
  else if negb (eld_option =? MELD_OPTION_NONE) then ret KERN_INVALID_ARGUMENT
  else
    let* active := ipc_eventlink_active a in
    if negb active then ret KERN_TERMINATED
    else
      let* el := get_link a in
      if el_thread el =? THREAD_NULL then ret KERN_INVALID_ARGUMENT
      else
        put_link a (set_el_thread THREAD_NULL el) ;;*
        ipc_eventlink_signal_internal_locked a IPC_EVENTLINK_FORCE_WAKEUP ;;*
        when (negb (el_thread el =? THREAD_ASSOCIATE_WILD)) (onk (emit "thread_deallocate" [el_thread el])) ;;*
        ret KERN_SUCCESS.

(** ** Destruction *)

(** One round of the loop; returns the thread that was associated, and the port. *)
Definition destroy_side (a side : Z) : M est (Z * Z) :=
  let* el := get_link side in
  when (negb (el_thread el =? THREAD_NULL))
    (put_link side (set_el_thread THREAD_NULL el) ;;*
     ipc_eventlink_signal_internal_locked side IPC_EVENTLINK_FORCE_WAKEUP ;;* ret tt) ;;*
  massert (negb (el_port el =? IP_NULL)) "port != IPC_PORT_NULL" ;;*
  when (negb (side =? a)) (onk (ip_reference (el_port el))) ;;*
  mod_link side (set_el_port IP_NULL) ;;*
  ret (el_thread el, el_port el).
(** The section under the eventlink lock: the threads, the port to destroy and the remote one;
    [None] where the eventlink was terminated before. *)
Definition destroy_locked (a : Z) : M est (option (list Z * Z * Z)) :=
  let* active := ipc_eventlink_active a in
  if negb active then ret None
  else
    let* el := get_link a in
    let base := el_base el in
    let* (t0, p0) := destroy_side a (elb_eventlink base 0) in
    let* (t1, p1) := destroy_side a (elb_eventlink base 1) in
    let* b := get_base base in
    put_base base (mk_eventlink_base false (elb_ref_count b) (elb_type b)) ;;*
    ret (Some ([t0; t1], if a =? elb_eventlink base 0 then p0 else p1, if a =? elb_eventlink base 0 then p1 else p0)).
Definition destroy_thread (a thread : Z) : M est unit :=
  when (negb (thread =? THREAD_NULL) && negb (thread =? THREAD_ASSOCIATE_WILD))
    (onk (emit "thread_deallocate" [thread])) ;;*
  ipc_eventlink_deallocate a.
Definition ipc_eventlink_destroy_internal (a : Z) : M est kern_return_t :=
  if a =? IPC_EVENTLINK_NULL then ret KERN_TERMINATED
  else
    let* section := destroy_locked a in
    match section with
    | None => ret KERN_TERMINATED
    | Some (threads, port, remote) =>
      onk (ipc_kobject_dealloc_port port 0 IKOT_EVENTLINK) ;;*
      onk (ipc_kobject_disable remote IKOT_EVENTLINK) ;;*
      onk (ip_release remote) ;;*
      match threads with
      | [t0; t1] => destroy_thread a t0 ;;* destroy_thread a t1
      | _ => ret tt
      end ;;*
      ret KERN_SUCCESS
    end.
Definition mach_eventlink_destroy (a : Z) : M est kern_return_t :=
  ipc_eventlink_destroy_internal a ;;* ret KERN_SUCCESS.

(** ** From ports to eventlinks *)
Definition convert_port_to_eventlink_locked (port : Z) : M est (kern_return_t * Z) :=
  let* p := onk (get_port port) in
  if ip_active p && (ip_kotype p =? IKOT_EVENTLINK) then
    let a := ipc_kobject_get_raw p in
    if negb (a =? IPC_EVENTLINK_NULL) then ipc_eventlink_reference a ;;* ret (KERN_SUCCESS, a)
    else ret (KERN_TERMINATED, a)
  else ret (KERN_INVALID_CAPABILITY, IPC_EVENTLINK_NULL).
Definition convert_port_to_eventlink (port : Z) : M est Z :=
  if IP_VALID port then let* (_, a) := convert_port_to_eventlink_locked port in ret a else ret IPC_EVENTLINK_NULL.
Definition port_name_to_eventlink (name : Z) : M est (kern_return_t * Z) :=
  if negb (MACH_PORT_VALID name) then ret (KERN_INVALID_NAME, IPC_EVENTLINK_NULL)
  else
    let* (kr, kern_port) := onk (ipc_port_translate_send name) in
    if bool_decide (kr <> KERN_SUCCESS) then ret (kr, IPC_EVENTLINK_NULL)
    else massert (IP_VALID kern_port) "IP_VALID(kern_port)" ;;* convert_port_to_eventlink_locked kern_port.
Definition ipc_eventlink_no_senders (port mscount : Z) : M est unit :=
  let* p := onk (get_port port) in
  if negb (ip_active p) then ret tt
  else
    let* (_, a) := convert_port_to_eventlink_locked port in
    let* kr := ipc_eventlink_destroy_internal a in
    when (bool_decide (kr = KERN_TERMINATED)) (onk (ipc_kobject_dealloc_port port mscount IKOT_EVENTLINK) ;;* ret tt) ;;*
    ipc_eventlink_deallocate a.

(** ** System calls *)
Definition mach_eventlink_signal_trap (name : Z) : M est Z :=
  let* (kr, a) := port_name_to_eventlink name in
  let* kr := if bool_decide (kr = KERN_SUCCESS) then
               let* remote := eventlink_remote_side a in
               let* kr := ipc_eventlink_signal remote in
               ipc_eventlink_deallocate a ;;* ret kr
             else ret kr in
  ret (encode_eventlink_count_and_error 0 kr).
(** A trap that is over, or the state of the thread that blocks in it. *)
Inductive trap_outcome := TrapDone (retval : Z) | TrapBlocked (wait_eventlink count old_signal_count : Z).
Definition signal_wait_until_trap_enter (self wait_port signal_port count el_option clock_id : Z) : M est trap_outcome :=
  if negb (clock_id =? KERN_CLOCK_MACH_ABSOLUTE_TIME)
  then ret (TrapDone (encode_eventlink_count_and_error count KERN_INVALID_ARGUMENT))
  else
    let* (kr, wait_eventlink) := port_name_to_eventlink wait_port in
    if bool_decide (kr = KERN_SUCCESS) then
      massert (negb (wait_eventlink =? IPC_EVENTLINK_NULL)) "wait_ipc_eventlink != IPC_EVENTLINK_NULL" ;;*
      let* remote := eventlink_remote_side wait_eventlink in
      let signal_eventlink := if negb (signal_port =? MACH_PORT_NULL) then remote else IPC_EVENTLINK_NULL in
      let option := if has el_option MELSW_OPTION_NO_WAIT then IPC_EVENTLINK_NO_WAIT else IPC_EVENTLINK_NONE in
      let* r := wait_enter self wait_eventlink signal_eventlink count option in
      match r with
      | Waited kr count =>
        ipc_eventlink_deallocate wait_eventlink ;;* ret (TrapDone (encode_eventlink_count_and_error count kr))
      | WaitBlocked count old => ret (TrapBlocked wait_eventlink count old)
      end
    else ret (TrapDone (encode_eventlink_count_and_error count kr)).
Definition signal_wait_until_trap_resume (self wait_eventlink count old_signal_count : Z) : M est Z :=
  let* (kr, count) := wait_resume self count old_signal_count in
  ipc_eventlink_deallocate wait_eventlink ;;*
  ret (encode_eventlink_count_and_error count kr).
Definition mach_eventlink_wait_until_trap (self name wait_count option clock_id : Z) : M est trap_outcome :=
  signal_wait_until_trap_enter self name MACH_PORT_NULL wait_count option clock_id.
Definition mach_eventlink_signal_wait_until_trap (self name wait_count option clock_id : Z) : M est trap_outcome :=
  signal_wait_until_trap_enter self name name wait_count option clock_id.
End operations.
