(* ===== verification/SyncSema.v ===== *)
(** * Semaphores ([osfmk/kern/sync_sema.c], [sync_sema.h], [mach/semaphore.h])

    Counting semaphores that tasks own and name through ports.  As for event links, the
    sections that run under the semaphore's lock are the steps of the model; a wait is split
    where it drops the lock to signal another semaphore, and where the thread gives up the
    processor.  A deadline only arms a timer, which the model leaves to whoever ends the
    wait. *)

From S2P Require Import Prelude MachPort KmsgQueue KmsgSpec Prng OsRefcnt IpcTable IpcHash IpcState IpcSpace IpcEntry IpcPort IpcMqueue IpcRequest IpcPortLife IpcKobject IpcRight RightDrop RightCopy IpcObject IpcEventlink.

Definition SEMAPHORE_NULL : Z := 0.
Definition TASK_NULL : Z := 0.
Definition SEMAPHORE_OPTION_NONE : Z := 0x00000000.
Definition SEMAPHORE_SIGNAL_ALL : Z := 0x00000020.
Definition SEMAPHORE_SIGNAL_PREPOST : Z := 0x00000080.
Definition SEMAPHORE_TIMEOUT_NOBLOCK : Z := 0x00100000.
Definition SEMAPHORE_THREAD_HANDOFF : Z := 0x04000000.
Definition SYNC_POLICY_USER_MASK : Z := 0x6.
Definition NSEC_PER_SEC : Z := 1000000000.
Definition BAD_MACH_TIMESPEC (tv_nsec : Z) : bool := (tv_nsec <? 0) || (NSEC_PER_SEC <=? tv_nsec).
Definition IKOT_SEMAPHORE : Z := 23.
Definition IPC_KOBJECT_ALLOC_NONE : Z := 0.
(** [count] is an [int]. *)
Definition int32 (x : Z) : Z := (x + 2 ^ 31) mod 2 ^ 32 - 2 ^ 31.

(** ** State *)

(** [struct semaphore]; the threads on its wait queue wait for [SEMAPHORE_EVENT] of its address. *)
Record semaphore := mk_semaphore { sm_owner : Z; sm_port : Z; sm_ref_count : Z; sm_count : Z }.
Definition set_sm_owner (v : Z) (x : semaphore) : semaphore := mk_semaphore v (sm_port x) (sm_ref_count x) (sm_count x).
Definition set_sm_port (v : Z) (x : semaphore) : semaphore := mk_semaphore (sm_owner x) v (sm_ref_count x) (sm_count x).
Definition set_sm_ref_count (v : Z) (x : semaphore) : semaphore := mk_semaphore (sm_owner x) (sm_port x) v (sm_count x).
Definition set_sm_count (v : Z) (x : semaphore) : semaphore := mk_semaphore (sm_owner x) (sm_port x) (sm_ref_count x) v.

(** What semaphores use of [struct task]. *)
Record sema_task := mk_sema_task { active : bool; semaphore_list : list Z; semaphores_owned : Z }.

(** The kernel's state, semaphores and tasks by address, and [handoff_thread] of the current
    thread. *)
Record sst := mk_sst { s_kst : kst; s_semas : gmap Z semaphore; s_tasks : gmap Z sema_task; s_handoff_thread : Z }.
Definition set_s_kst (v : kst) (s : sst) : sst := mk_sst v (s_semas s) (s_tasks s) (s_handoff_thread s).
Definition set_s_semas (v : gmap Z semaphore) (s : sst) : sst := mk_sst (s_kst s) v (s_tasks s) (s_handoff_thread s).
Definition set_s_tasks (v : gmap Z sema_task) (s : sst) : sst := mk_sst (s_kst s) (s_semas s) v (s_handoff_thread s).
Definition set_s_handoff_thread (v : Z) (s : sst) : sst := mk_sst (s_kst s) (s_semas s) (s_tasks s) v.

Definition on_kst {A} (m : M kst A) : M sst A :=
  fun s => match m (s_kst s) with
           | Done (a, k) => Done (a, set_s_kst k s)
           | Panic why => Panic why
           | Diverges => Diverges
           end.
Definition get_sema (a : Z) : M sst semaphore :=
  fun s => match s_semas s !! a with Some x => Done (x, s) | None => Panic "dangling semaphore" end.
Definition put_sema (a : Z) (x : semaphore) : M sst unit := modify (fun s => set_s_semas (<[a := x]> (s_semas s)) s).
Definition mod_sema (a : Z) (f : semaphore -> semaphore) : M sst unit := let* x := get_sema a in put_sema a (f x).
Definition get_task (a : Z) : M sst sema_task :=
  fun s => match s_tasks s !! a with Some x => Done (x, s) | None => Panic "dangling task" end.
Definition put_task (a : Z) (x : sema_task) : M sst unit := modify (fun s => set_s_tasks (<[a := x]> (s_tasks s)) s).

Definition semaphore_active (x : semaphore) : bool := negb (sm_owner x =? TASK_NULL).

Section operations.
Context `{KernelConfig} `{TableSizes} `{Concurrency} `{Externals} `{RequestSizes} `{KobjectOps} `{Messages} `{Handoff}.

(** ** Creation; [a] is where the allocator puts the semaphore. *)
Definition semaphore_create (a task policy value : Z) : M sst (kern_return_t * Z) :=
  if (task =? TASK_NULL) || (value <? 0) || negb (Z.ldiff policy SYNC_POLICY_USER_MASK =? 0)
  then ret (KERN_INVALID_ARGUMENT, SEMAPHORE_NULL)
  else
    let* t := get_task task in
    if negb (active t) then ret (KERN_INVALID_TASK, SEMAPHORE_NULL)
    else
      let* n := lift (os_ref_init_count_internal 1) in
      put_sema a (mk_semaphore task IP_NULL n value) ;;*
      put_task task (mk_sema_task true (a :: semaphore_list t) (semaphores_owned t + 1)) ;;*
      ret (KERN_SUCCESS, a).

(** ** Wait queues *)
Definition sema_wakeup_all (a : Z) (result : wait_result_t) : M sst kern_return_t :=
  let* X := gets (fun s => waiters a SEMAPHORE_EVENT (s_kst s)) in
  on_kst (waitq_wakeup64_all a SEMAPHORE_EVENT result) ;;*
  ret (if decide (X = ∅) then KERN_NOT_WAITING else KERN_SUCCESS).
Definition sema_wakeup_one (a : Z) (handoff : bool) : M sst kern_return_t :=
  let* X := gets (fun s => waiters a SEMAPHORE_EVENT (s_kst s)) in
  if decide (X = ∅) then ret KERN_NOT_WAITING
  else
    let* t := gets (fun s => waitq_pick (s_kst s) X) in
    let* allowed := gets (fun s => thread_allowed_for_handoff (s_kst s) t) in
    on_kst (mod_thread t (woken THREAD_AWAKENED)) ;;*
    when (handoff && allowed)
      (let* h := gets s_handoff_thread in
       massert (h =? THREAD_NULL) "self->handoff_thread == NULL" ;;*
       on_kst (emit "thread_reference" [t]) ;;*
       modify (set_s_handoff_thread t)) ;;*
    ret KERN_SUCCESS.
(** [waitq_wakeup64_thread_and_unlock]. *)
Definition sema_wakeup_thread (a thread : Z) : M sst kern_return_t :=
  let* th := on_kst (get_thread thread) in
  if decide (waits a SEMAPHORE_EVENT th)
  then on_kst (mod_thread thread (woken THREAD_AWAKENED)) ;;* ret KERN_SUCCESS
  else ret KERN_NOT_WAITING.

(** ** Destruction *)
Definition semaphore_destroy_internal (task a : Z) : M sst unit :=
  let* x := get_sema a in
  massert (sm_owner x =? task) "semaphore->owner == task" ;;*
  let* t := get_task task in
  put_task task (mk_sema_task (active t) (filter (fun y => y <> a) (semaphore_list t)) (semaphores_owned t - 1)) ;;*
  put_sema a (set_sm_count 0 (set_sm_owner TASK_NULL x)) ;;*
  if sm_count x <? 0 then sema_wakeup_all a THREAD_RESTART ;;* ret tt
  else
    let* X := gets (fun s => waiters a SEMAPHORE_EVENT (s_kst s)) in
    massert (bool_decide (X = ∅)) "circle_queue_empty(&semaphore->waitq.waitq_queue)".
(** The three ways the code takes the locks of the task and of the semaphore end in the same
    section. *)
Definition semaphore_free (a : Z) : M sst unit :=
  let* x := get_sema a in
  when (IP_VALID (sm_port x))
    (let* p := on_kst (get_port (sm_port x)) in
     massert (ip_srights p =? 0) "!port->ip_srights" ;;*
     on_kst (ipc_kobject_dealloc_port (sm_port x) 0 IKOT_SEMAPHORE) ;;* ret tt) ;;*
  when (semaphore_active x) (semaphore_destroy_internal (sm_owner x) a) ;;*
  modify (fun s => set_s_semas (delete a (s_semas s)) s).
Definition semaphore_reference (a : Z) : M sst unit :=
  let* x := get_sema a in
  let* n := lift (os_ref_retain_internal (sm_ref_count x)) in
  put_sema a (set_sm_ref_count n x).
Definition semaphore_dereference (a : Z) : M sst unit :=
  if a =? SEMAPHORE_NULL then ret tt
  else
    let* x := get_sema a in
    let* n := lift (os_ref_release_barrier_internal (sm_ref_count x)) in
    put_sema a (set_sm_ref_count n x) ;;*
    when (n =? 0) (semaphore_free a).
Definition semaphore_destroy (task a : Z) : M sst kern_return_t :=
  if a =? SEMAPHORE_NULL then ret KERN_INVALID_ARGUMENT
  else if task =? TASK_NULL then semaphore_dereference a ;;* ret KERN_INVALID_ARGUMENT
  else
    let* x := get_sema a in
    when (sm_owner x =? task) (semaphore_destroy_internal task a) ;;*
    semaphore_dereference a ;;*
    ret KERN_SUCCESS.
Fixpoint destroy_each (task : Z) (l : list Z) : M sst unit :=
  match l with
  | [] => ret tt
  | a :: l => semaphore_destroy_internal task a ;;* destroy_each task l
  end.
Definition semaphore_destroy_all (task : Z) : M sst unit :=
  let* t := get_task task in destroy_each task (semaphore_list t).

(** ** Signals *)
Definition semaphore_signal_internal (a thread options : Z) : M sst kern_return_t :=
  let* x := get_sema a in
  if negb (semaphore_active x) then ret KERN_TERMINATED
  else if negb (thread =? THREAD_NULL) then
    if sm_count x <? 0 then sema_wakeup_thread a thread else ret KERN_NOT_WAITING
  else if has options SEMAPHORE_SIGNAL_ALL then
    if sm_count x <? 0 then put_sema a (set_sm_count 0 x) ;;* sema_wakeup_all a THREAD_AWAKENED
    else
      when (has options SEMAPHORE_SIGNAL_PREPOST) (put_sema a (set_sm_count (int32 (sm_count x + 1)) x)) ;;*
      ret KERN_SUCCESS
  else
    let* kr := if sm_count x <? 0 then sema_wakeup_one a (has options SEMAPHORE_THREAD_HANDOFF)
               else ret KERN_NOT_WAITING in
    if bool_decide (kr = KERN_SUCCESS) then ret KERN_SUCCESS
    else
      when (sm_count x <? 0) (mod_sema a (set_sm_count 0)) ;;*
      when (has options SEMAPHORE_SIGNAL_PREPOST)
        (mod_sema a (fun x => set_sm_count (int32 (sm_count x + 1)) x)) ;;*
      ret KERN_NOT_WAITING.
Definition semaphore_signal_thread (a thread : Z) : M sst kern_return_t :=
  if a =? SEMAPHORE_NULL then ret KERN_INVALID_ARGUMENT
  else semaphore_signal_internal a thread SEMAPHORE_OPTION_NONE.
(** [KERN_NOT_WAITING] is a success for these callers. *)
Definition plain (kr : kern_return_t) : kern_return_t :=
  if bool_decide (kr = KERN_NOT_WAITING) then KERN_SUCCESS else kr.
Definition semaphore_signal (a : Z) : M sst kern_return_t :=
  if a =? SEMAPHORE_NULL then ret KERN_INVALID_ARGUMENT
  else let* kr := semaphore_signal_internal a THREAD_NULL SEMAPHORE_SIGNAL_PREPOST in ret (plain kr).
Definition semaphore_signal_all (a : Z) : M sst kern_return_t :=
  if a =? SEMAPHORE_NULL then ret KERN_INVALID_ARGUMENT
  else let* kr := semaphore_signal_internal a THREAD_NULL SEMAPHORE_SIGNAL_ALL in ret (plain kr).

(** ** Waits *)
Definition semaphore_convert_wait_result (wait_result : wait_result_t) : M sst kern_return_t :=
  match wait_result with
  | THREAD_AWAKENED => ret KERN_SUCCESS
  | THREAD_TIMED_OUT => ret KERN_OPERATION_TIMED_OUT
  | THREAD_INTERRUPTED => ret KERN_ABORTED
  | THREAD_RESTART => ret KERN_TERMINATED
  | _ => panic "semaphore_block"
  end.

(** The section under the lock of the semaphore to wait on; [KERN_ALREADY_WAITING] where the
    thread has to block. *)
Definition wait_section (self wait option : Z) : M sst kern_return_t :=
  let* x := get_sema wait in
  if negb (semaphore_active x) then ret KERN_TERMINATED
  else if 0 <? sm_count x then put_sema wait (set_sm_count (sm_count x - 1) x) ;;* ret KERN_SUCCESS
  else if has option SEMAPHORE_TIMEOUT_NOBLOCK then ret KERN_OPERATION_TIMED_OUT
  else
    put_sema wait (set_sm_count (-1) x) ;;*
    let* aborted := gets (fun s => thread_abort_pending (s_kst s) self) in
    on_kst (mod_thread self (fun th =>
      if aborted then woken THREAD_INTERRUPTED th
      else set_th_waits_on (Some (wait, SEMAPHORE_EVENT)) (set_th_wait_result THREAD_WAITING th))) ;;*
    ret KERN_ALREADY_WAITING.
(** [clear_wait]: a thread that waits is taken off its queue; the result of the wait of one that
    does not is left alone. *)
Definition clear_wait (self : Z) (result : wait_result_t) : M sst unit :=
  on_kst (mod_thread self (fun th => if bool_decide (th_waits_on th = None) then th else woken result th)).
(** Signalling the other semaphore, with the result so far. *)
Definition wait_signal (self signal : Z) (kr : kern_return_t) : M sst kern_return_t :=
  let options := if bool_decide (kr = KERN_ALREADY_WAITING)
                 then Z.lor SEMAPHORE_SIGNAL_PREPOST SEMAPHORE_THREAD_HANDOFF else SEMAPHORE_SIGNAL_PREPOST in
  if signal =? SEMAPHORE_NULL then ret kr
  else
    let* signal_kr := semaphore_signal_internal signal THREAD_NULL options in
    let* h := gets s_handoff_thread in
    if bool_decide (signal_kr = KERN_NOT_WAITING) then
      massert (h =? THREAD_NULL) "self->handoff_thread == THREAD_NULL" ;;* ret kr
    else if bool_decide (signal_kr = KERN_TERMINATED) then
      massert (h =? THREAD_NULL) "self->handoff_thread == THREAD_NULL" ;;*
      clear_wait self THREAD_INTERRUPTED ;;*
      let* th := on_kst (get_thread self) in
      let* kr := semaphore_convert_wait_result (th_wait_result th) in
      ret (if bool_decide (kr = KERN_ABORTED) then KERN_TERMINATED else kr)
    else ret kr.
(** The thread blocks, or the call is over. *)
Inductive sema_outcome := SemaDone (kr : kern_return_t) | SemaBlocked.
Definition wait_block (kr : kern_return_t) : M sst sema_outcome :=
  let* h := gets s_handoff_thread in
  if bool_decide (kr <> KERN_ALREADY_WAITING)
  then massert (h =? THREAD_NULL) "self->handoff_thread == THREAD_NULL" ;;* ret (SemaDone kr)
  else
    modify (set_s_handoff_thread THREAD_NULL) ;;*
    on_kst (emit "thread_handoff" [h]) ;;*
    ret SemaBlocked.
Definition semaphore_wait_internal (self wait signal option : Z) : M sst sema_outcome :=
  let* kr := wait_section self wait option in
  let* kr := wait_signal self signal kr in
  wait_block kr.
(** When the thread runs again. *)
Definition sema_wait_resume (self : Z) : M sst kern_return_t :=
  let* th := on_kst (get_thread self) in
  let* h := gets s_handoff_thread in
  massert (h =? THREAD_NULL) "self->handoff_thread == THREAD_NULL" ;;*
  semaphore_convert_wait_result (th_wait_result th).

Definition semaphore_wait_signal (self wait signal : Z) : M sst sema_outcome :=
  if wait =? SEMAPHORE_NULL then ret (SemaDone KERN_INVALID_ARGUMENT)
  else semaphore_wait_internal self wait signal SEMAPHORE_OPTION_NONE.
Definition semaphore_wait (self a : Z) : M sst sema_outcome := semaphore_wait_signal self a SEMAPHORE_NULL.
(** The same up to the deadline. *)
Definition semaphore_wait_deadline (self a : Z) : M sst sema_outcome := semaphore_wait_signal self a SEMAPHORE_NULL.
Definition semaphore_wait_noblock (self a : Z) : M sst sema_outcome :=
  if a =? SEMAPHORE_NULL then ret (SemaDone KERN_INVALID_ARGUMENT)
  else semaphore_wait_internal self a SEMAPHORE_NULL SEMAPHORE_TIMEOUT_NOBLOCK.
(** A timeout of zero does not block. *)
Definition timeout_option (sec nsec : Z) : Z :=
  if (sec =? 0) && (nsec =? 0) then SEMAPHORE_TIMEOUT_NOBLOCK else SEMAPHORE_OPTION_NONE.
Definition semaphore_timedwait_signal (self wait signal sec nsec : Z) : M sst sema_outcome :=
  if wait =? SEMAPHORE_NULL then ret (SemaDone KERN_INVALID_ARGUMENT)
  else if BAD_MACH_TIMESPEC nsec then ret (SemaDone KERN_INVALID_VALUE)
  else semaphore_wait_internal self wait signal (timeout_option sec nsec).
Definition semaphore_timedwait (self a sec nsec : Z) : M sst sema_outcome :=
  semaphore_timedwait_signal self a SEMAPHORE_NULL sec nsec.

(** ** Ports *)
Definition convert_port_to_semaphore (port : Z) : M sst Z :=
  if IP_VALID port then
    let* a := on_kst (ipc_kobject_get_stable port IKOT_SEMAPHORE) in
    when (negb (a =? SEMAPHORE_NULL)) (semaphore_reference a) ;;*
    ret a
  else ret SEMAPHORE_NULL.
Definition port_name_to_semaphore (name : Z) : M sst (kern_return_t * Z) :=
  if negb (MACH_PORT_VALID name) then ret (KERN_INVALID_NAME, SEMAPHORE_NULL)
  else
    let* (kr, port) := on_kst (ipc_port_translate_send name) in
    if bool_decide (kr <> KERN_SUCCESS) then ret (kr, SEMAPHORE_NULL)
    else
      let* a := convert_port_to_semaphore port in
      ret (if a =? SEMAPHORE_NULL then KERN_INVALID_CAPABILITY else KERN_SUCCESS, a).
(** [port] is where the allocator would put a port, [current] what the field holds at the
    compare-and-exchange. *)
Definition convert_semaphore_to_port (a port current : Z) : M sst Z :=
  if a =? SEMAPHORE_NULL then ret IP_NULL
  else
    let* x := get_sema a in
    let* (armed, store) := on_kst (ipc_kobject_make_send_lazy_alloc_port port (sm_port x) current a IKOT_SEMAPHORE
                                     IPC_KOBJECT_ALLOC_NONE) in
    mod_sema a (set_sm_port store) ;;*
    when (negb armed) (semaphore_dereference a) ;;*
    ret store.
Definition semaphore_no_senders (port : Z) : M sst unit :=
  let* a := on_kst (ipc_kobject_get_stable port IKOT_SEMAPHORE) in
  massert (negb (a =? SEMAPHORE_NULL)) "semaphore != SEMAPHORE_NULL" ;;*
  when MACH_ASSERT (let* x := get_sema a in massert (sm_port x =? port) "semaphore->port == port") ;;*
  semaphore_dereference a.

(** ** System calls *)

(** The signal calls differ in the thread and in the options; [thread] is what its name denotes. *)
Definition signal_trap (name thread options : Z) : M sst kern_return_t :=
  let* (kr, a) := port_name_to_semaphore name in
  if bool_decide (kr = KERN_SUCCESS)
  then let* kr := semaphore_signal_internal a thread options in semaphore_dereference a ;;* ret kr
  else ret kr.
(** [None]: the name was given and denotes no thread. *)
Definition semaphore_signal_thread_trap (name : Z) (thread : option Z) : M sst kern_return_t :=
  match thread with
  | None => ret KERN_INVALID_ARGUMENT
  | Some thread =>
    let* kr := signal_trap name thread SEMAPHORE_OPTION_NONE in
    when (negb (thread =? THREAD_NULL)) (on_kst (emit "thread_deallocate" [thread])) ;;*
    ret kr
  end.
Definition semaphore_signal_internal_trap (name : Z) : M sst kern_return_t :=
  let* kr := signal_trap name THREAD_NULL SEMAPHORE_SIGNAL_PREPOST in ret (plain kr).
Definition semaphore_signal_all_trap (name : Z) : M sst kern_return_t :=
  let* kr := signal_trap name THREAD_NULL SEMAPHORE_SIGNAL_ALL in ret (plain kr).

(** A wait that blocks keeps its references until [semaphore_wait_continue]. *)
Inductive sema_trap := SemaTrapDone (kr : kern_return_t) | SemaTrapBlocked (wait signal : Z).
Definition wait_trap (self wait_name option : Z) (signal : Z) : M sst sema_trap :=
  let* (kr, wait) := port_name_to_semaphore wait_name in
  if bool_decide (kr = KERN_SUCCESS) then
    let* o := semaphore_wait_internal self wait signal option in
    match o with
    | SemaDone kr => semaphore_dereference wait ;;* semaphore_dereference signal ;;* ret (SemaTrapDone kr)
    | SemaBlocked => ret (SemaTrapBlocked wait signal)
    end
  else semaphore_dereference signal ;;* ret (SemaTrapDone kr).
Definition semaphore_wait_trap_internal (self name : Z) : M sst sema_trap :=
  wait_trap self name SEMAPHORE_OPTION_NONE SEMAPHORE_NULL.
Definition semaphore_timedwait_trap_internal (self name sec nsec : Z) : M sst sema_trap :=
  if BAD_MACH_TIMESPEC nsec then ret (SemaTrapDone KERN_INVALID_VALUE)
  else wait_trap self name (timeout_option sec nsec) SEMAPHORE_NULL.
Definition wait_signal_trap (self wait_name signal_name option : Z) : M sst sema_trap :=
  let* (kr, signal) := port_name_to_semaphore signal_name in
  if bool_decide (kr = KERN_SUCCESS) then wait_trap self wait_name option signal else ret (SemaTrapDone kr).
Definition semaphore_wait_signal_trap_internal (self wait_name signal_name : Z) : M sst sema_trap :=
  wait_signal_trap self wait_name signal_name SEMAPHORE_OPTION_NONE.
Definition semaphore_timedwait_signal_trap_internal (self wait_name signal_name sec nsec : Z) : M sst sema_trap :=
  if BAD_MACH_TIMESPEC nsec then ret (SemaTrapDone KERN_INVALID_VALUE)
  else wait_signal_trap self wait_name signal_name (timeout_option sec nsec).
Definition semaphore_wait_continue (self wait signal : Z) : M sst kern_return_t :=
  massert (negb (wait =? SEMAPHORE_NULL)) "self->sth_waitsemaphore != SEMAPHORE_NULL" ;;*
  semaphore_dereference wait ;;*
  semaphore_dereference signal ;;*
  sema_wait_resume self.
End operations.
