(* ===== verification/MachPortCalls.v ===== *)
(** * The port calls of user space ([osfmk/ipc/mach_port.c])

    What a task does to the rights of a space by name: allocating, destroying and
    counting rights, reading and writing what a receive right carries, guards,
    notification requests, construction and destruction of ports.  [space] is the
    address of the space operated on, [IS_NULL] or the space of the state. *)

From S2P Require Import Prelude MachPort Prng OsRefcnt IpcTable IpcHash IpcState IpcSpace IpcEntry IpcPort IpcChain IpcMqueue IpcRequest IpcPortLife IpcRight RightDrop RightCopy IpcObject.

Definition MACH_NOTIFY_SEND_POSSIBLE : Z := 66.
Definition MACH_NOTIFY_PORT_DESTROYED : Z := 69.
Definition MACH_NOTIFY_NO_SENDERS : Z := 70.
Definition MACH_NOTIFY_DEAD_NAME : Z := 72.
Definition kGUARD_EXC_SET_CONTEXT : Z := 4.
Definition kGUARD_EXC_UNGUARDED : Z := 8.
Definition kGUARD_EXC_INVALID_ARGUMENT : Z := 0x800.
Definition kGUARD_EXC_KERN_FAILURE : Z := 0x4000.
Definition MPG_STRICT : Z := 1.
Definition MPG_IMMOVABLE_RECEIVE : Z := 2.
Definition MACH_PORT_LIMITS_INFO : Z := 1.
Definition MACH_PORT_DNREQUESTS_SIZE : Z := 3.
Definition MACH_PORT_TEMPOWNER : Z := 4.
Definition MACH_PORT_IMPORTANCE_RECEIVER : Z := 5.
Definition MACH_PORT_DENAP_RECEIVER : Z := 6.
Definition MACH_MSG_SIZE_MAX : Z := 0xffffffff.
Definition MACH_MSG_TYPE_PORT_ANY (x : Z) : bool :=
  (MACH_MSG_TYPE_MOVE_RECEIVE <=? x) && (x <=? MACH_MSG_TYPE_MAKE_SEND_ONCE).
Definition MACH_MSG_TYPE_PORT_ANY_RIGHT (x : Z) : bool :=
  (MACH_MSG_TYPE_MOVE_RECEIVE <=? x) && (x <=? MACH_MSG_TYPE_MOVE_SEND_ONCE).
Definition IPC_PORT_INIT_MESSAGE_QUEUE : Z := 2.
Definition MPO_CONTEXT_AS_GUARD : Z := 0x01.
Definition MPO_QLIMIT : Z := 0x02.
Definition MPO_TEMPOWNER : Z := 0x04.
Definition MPO_IMPORTANCE_RECEIVER : Z := 0x08.
Definition MPO_INSERT_SEND_RIGHT : Z := 0x10.
Definition MPO_STRICT : Z := 0x20.
Definition MPO_DENAP_RECEIVER : Z := 0x40.
Definition MPO_IMMOVABLE_RECEIVE : Z := 0x80.
Definition MPO_FILTER_MSG : Z := 0x100.
Definition MPO_TG_BLOCK_TRACKING : Z := 0x200.
Definition MPO_SERVICE_PORT : Z := 0x400.
Definition MPO_CONNECTION_PORT : Z := 0x800.

(** [mach_port_qos_t] and [mach_port_options_t], the fields that are read. *)
Record mach_port_qos := mk_qos { qos_name : bool; qos_prealloc : bool; qos_len : Z }.
Record mach_port_options := mk_options {
  opt_flags : Z;
  opt_qlimit : Z;
  opt_work_interval_port : Z;
  opt_service_port_info : Z;
  opt_service_port_name : Z;
}.

(** What the calls ask of the caller's task and of the service port labels. *)
Class Caller := {
  current_space : Z;
  MAX_TRAILER_SIZE : Z;
  (** [proc_get_effective_task_policy(current_task(), TASK_POLICY_ROLE) ==
      TASK_GRAPHICS_SERVER] *)
  task_is_graphics_server : bool;
  work_interval_port_type_render_server : Z -> bool;
  (** [task_is_in_privileged_coalition(current_task(), COALITION_TYPE_JETSAM)] *)
  task_in_privileged_coalition : bool;
  (** [copyin] of the service port info: [None] on a fault, whether the name
      is terminated within its buffer *)
  copyin_service_port_info : Z -> option bool;
  ipc_service_port_label_alloc : Z -> kern_return_t * Z;
  ipc_service_port_derive_sblabel : Z -> kern_return_t * Z * bool;
}.

Section calls.
Context `{KernelConfig} `{TableSizes} `{Concurrency} `{Externals} `{RequestSizes} `{Messages} `{Caller}.

(** ** Rights by name *)
Definition mach_port_type (space name : Z) : M kst (kern_return_t * Z) :=
  if space =? IS_NULL then ret (KERN_INVALID_TASK, 0)
  else if name =? MACH_PORT_NULL then ret (KERN_INVALID_NAME, 0)
  else if name =? MACH_PORT_DEAD then ret (KERN_SUCCESS, MACH_PORT_TYPE_DEAD_NAME)
  else
    let* (kr, entry) := ipc_right_lookup_write name in
    match entry with
    | None => ret (kr, 0)
    | Some index =>
      let* (kr, type, _) := ipc_right_info name index in
      ret (kr, Z.ldiff type (Z.lor MACH_PORT_TYPE_SPREQUEST MACH_PORT_TYPE_SPREQUEST_DELAYED))
    end.

Definition mach_port_rename (space oname nname : Z) : M kst kern_return_t := ret KERN_NOT_SUPPORTED.

(** [a] is where the zone allocator puts a new object; [rounds], [rescans] and
    [memory] are those of the allocation of an entry. *)
Definition mach_port_allocate_full (rounds rescans : nat) (memory : bool) (a : Z)
    (space right proto : Z) (qos : mach_port_qos) (name : Z) : M kst (kern_return_t * Z) :=
  if space =? IS_NULL then ret (KERN_INVALID_TASK, name)
  else if negb (proto =? MACH_PORT_NULL) then ret (KERN_INVALID_VALUE, name)
  else if qos_name qos && negb (MACH_PORT_VALID name) then ret (KERN_INVALID_VALUE, name)
  else if qos_prealloc qos && (MACH_MSG_SIZE_MAX - MAX_TRAILER_SIZE <? qos_len qos)
  then ret (KERN_RESOURCE_SHORTAGE, name)
  else if qos_prealloc qos && negb (right =? MACH_PORT_RIGHT_RECEIVE) then ret (KERN_INVALID_VALUE, name)
  else if right =? MACH_PORT_RIGHT_RECEIVE then
    if qos_name qos then
      let* kr := ipc_port_alloc_name rounds rescans memory a IPC_PORT_INIT_MESSAGE_QUEUE name in
      ret (kr, name)
    else ipc_port_alloc rounds rescans memory a IPC_PORT_INIT_MESSAGE_QUEUE
  else if right =? MACH_PORT_RIGHT_PORT_SET then
    if qos_name qos then
      let* kr := ipc_pset_alloc_name rounds rescans memory a name in ret (kr, name)
    else ipc_pset_alloc rounds rescans memory a
  else if right =? MACH_PORT_RIGHT_DEAD_NAME then ipc_object_alloc_dead rounds rescans memory
  else ret (KERN_INVALID_VALUE, name).

Definition mach_port_allocate_name (rounds rescans : nat) (memory : bool) (a space right name : Z)
    : M kst kern_return_t :=
  if negb (MACH_PORT_VALID name) then ret KERN_INVALID_VALUE
  else
    let* (kr, _) := mach_port_allocate_full rounds rescans memory a space right MACH_PORT_NULL
                      (mk_qos true false 0) name in
    ret kr.

Definition mach_port_allocate (rounds rescans : nat) (memory : bool) (a space right : Z)
    : M kst (kern_return_t * Z) :=
  mach_port_allocate_full rounds rescans memory a space right MACH_PORT_NULL
    (mk_qos false false 0) MACH_PORT_NULL.

Definition mach_port_allocate_qos (rounds rescans : nat) (memory : bool) (a space right : Z)
    (qos : mach_port_qos) : M kst (kern_return_t * Z) :=
  if qos_name qos then ret (KERN_INVALID_ARGUMENT, MACH_PORT_NULL)
  else mach_port_allocate_full rounds rescans memory a space right MACH_PORT_NULL qos MACH_PORT_NULL.

(** Looking an entry up for a call that raises an exception when there is
    none. *)
Definition lookup_or_raise (name : Z) (k : Z -> M kst kern_return_t) : M kst kern_return_t :=
  let* (kr, entry) := ipc_right_lookup_write name in
  match entry with
  | None => mach_port_guard_exception name 0 0 kGUARD_EXC_INVALID_NAME ;;* ret kr
  | Some index => k index
  end.

Definition mach_port_destroy (space name : Z) : M kst kern_return_t :=
  if space =? IS_NULL then ret KERN_INVALID_TASK
  else if negb (MACH_PORT_VALID name) then ret KERN_SUCCESS
  else lookup_or_raise name (fun index => ipc_right_destroy name index true 0).

Definition mach_port_deallocate (space name : Z) : M kst kern_return_t :=
  if space =? IS_NULL then ret KERN_INVALID_TASK
  else if negb (MACH_PORT_VALID name) then ret KERN_SUCCESS
  else lookup_or_raise name (fun index => ipc_right_dealloc name index).

Definition mach_port_get_refs (space name right : Z) : M kst (kern_return_t * Z) :=
  if space =? IS_NULL then ret (KERN_INVALID_TASK, 0)
  else if MACH_PORT_RIGHT_NUMBER <=? right then ret (KERN_INVALID_VALUE, 0)
  else if negb (MACH_PORT_VALID name) then
    if (right =? MACH_PORT_RIGHT_SEND) || (right =? MACH_PORT_RIGHT_SEND_ONCE)
    then ret (KERN_SUCCESS, 1) else ret (KERN_INVALID_NAME, 0)
  else
    let* (kr, entry) := ipc_right_lookup_write name in
    match entry with
    | None => ret (kr, 0)
    | Some index =>
      let* (kr, type, urefs) := ipc_right_info name index in
      if negb (bool_decide (kr = KERN_SUCCESS)) then ret (kr, 0)
      else if has type (MACH_PORT_TYPE right) then
        if right =? MACH_PORT_RIGHT_SEND_ONCE then
          massert (urefs =? 1) "urefs == 1" ;;* ret (kr, 1)
        else if (right =? MACH_PORT_RIGHT_PORT_SET) || (right =? MACH_PORT_RIGHT_RECEIVE) then ret (kr, 1)
        else if (right =? MACH_PORT_RIGHT_DEAD_NAME) || (right =? MACH_PORT_RIGHT_SEND) then
          massert (0 <? urefs) "urefs > 0" ;;* ret (kr, urefs)
        else panic "mach_port_get_refs: strange rights"
      else ret (kr, 0)
    end.

Definition mach_port_mod_refs (space name right delta : Z) : M kst kern_return_t :=
  if space =? IS_NULL then ret KERN_INVALID_TASK
  else if MACH_PORT_RIGHT_NUMBER <=? right then ret KERN_INVALID_VALUE
  else if negb (MACH_PORT_VALID name) then
    if (right =? MACH_PORT_RIGHT_SEND) || (right =? MACH_PORT_RIGHT_SEND_ONCE)
    then ret KERN_SUCCESS else ret KERN_INVALID_NAME
  else lookup_or_raise name (fun index => ipc_right_delta name index right delta).

(** ** What a receive right carries *)

(** The port under a name that must denote a receive right. *)
Definition with_receive {A} (space name : Z) (invalid : kern_return_t) (none : A)
    (k : Z -> ipc_port -> M kst (kern_return_t * A)) : M kst (kern_return_t * A) :=
  if space =? IS_NULL then ret (KERN_INVALID_TASK, none)
  else if negb (MACH_PORT_VALID name) then ret (invalid, none)
  else
    let* (kr, port) := ipc_port_translate_receive name in
    if bool_decide (kr = KERN_SUCCESS) then let* p := get_port port in k port p
    else ret (kr, none).

Definition mach_port_set_mscount (space name mscount : Z) : M kst kern_return_t :=
  let* (kr, _) := with_receive space name KERN_INVALID_RIGHT tt (fun port p =>
    put_port port (set_ip_mscount mscount p) ;;* ret (KERN_SUCCESS, tt)) in
  ret kr.

Definition mach_port_set_seqno (space name seqno : Z) : M kst kern_return_t :=
  let* (kr, _) := with_receive space name KERN_INVALID_RIGHT tt (fun port p =>
    put_port port (set_imq_seqno seqno p) ;;* ret (KERN_SUCCESS, tt)) in
  ret kr.

Definition mach_port_get_context (space name : Z) : M kst (kern_return_t * Z) :=
  with_receive space name KERN_INVALID_RIGHT 0 (fun port p =>
    ret (KERN_SUCCESS, if ip_strict_guard p then 0 else ip_context p)).

Definition mach_port_set_context (space name context : Z) : M kst kern_return_t :=
  let* (kr, _) := with_receive space name KERN_INVALID_RIGHT tt (fun port p =>
    if ip_strict_guard p then
      mach_port_guard_exception name context (ip_context p) kGUARD_EXC_SET_CONTEXT ;;*
      ret (KERN_INVALID_ARGUMENT, tt)
    else put_port port (set_ip_context context p) ;;* ret (KERN_SUCCESS, tt)) in
  ret kr.

(** ** Guards *)
Definition mach_port_guard_locked (port guard flags : Z) : M kst kern_return_t :=
  let* p := get_port port in
  if negb (ip_context p =? 0) then ret KERN_INVALID_ARGUMENT
  else
    let p := set_ip_strict_guard (has flags MPG_STRICT) (set_ip_guarded true (set_ip_context guard p)) in
    put_port port (if ip_immovable_receive p then p
                   else set_ip_immovable_receive (has flags MPG_IMMOVABLE_RECEIVE) p) ;;*
    ret KERN_SUCCESS.

Definition mach_port_unguard_locked (port name guard : Z) : M kst kern_return_t :=
  let* p := get_port port in
  if negb (ip_guarded p) then
    mach_port_guard_exception name guard 0 kGUARD_EXC_UNGUARDED ;;* ret KERN_INVALID_ARGUMENT
  else if negb (ip_context p =? guard) then
    mach_port_guard_exception name guard (ip_context p) kGUARD_EXC_INCORRECT_GUARD ;;*
    ret KERN_INVALID_ARGUMENT
  else
    put_port port (set_ip_strict_guard false (set_ip_guarded false (set_ip_context 0 p))) ;;*
    ret KERN_SUCCESS.

(** The same, for the calls that raise an exception when the name is no receive
    right. *)
Definition with_guardable (space name : Z) (k : Z -> ipc_port -> M kst kern_return_t)
    : M kst kern_return_t :=
  if space =? IS_NULL then ret KERN_INVALID_TASK
  else if negb (MACH_PORT_VALID name) then ret KERN_INVALID_NAME
  else
    let* (kr, port) := ipc_port_translate_receive name in
    if bool_decide (kr = KERN_SUCCESS) then let* p := get_port port in k port p
    else
      mach_port_guard_exception name 0 0
        (if bool_decide (kr = KERN_INVALID_NAME) then kGUARD_EXC_INVALID_NAME else kGUARD_EXC_INVALID_RIGHT) ;;*
      ret kr.

Definition mach_port_guard_with_flags (space name guard flags : Z) : M kst kern_return_t :=
  with_guardable space name (fun port _ =>
    let* kr := mach_port_guard_locked port guard flags in
    when (bool_decide (kr = KERN_INVALID_ARGUMENT))
      (mach_port_guard_exception name 0 0 kGUARD_EXC_INVALID_ARGUMENT) ;;*
    ret kr).

Definition mach_port_guard (space name guard : Z) (strict : bool) : M kst kern_return_t :=
  with_guardable space name (fun port _ =>
    let flags := if strict then MPG_STRICT else 0 in
    let* kr := mach_port_guard_locked port guard flags in
    when (bool_decide (kr = KERN_INVALID_ARGUMENT))
      (mach_port_guard_exception name 0 0 kGUARD_EXC_INVALID_ARGUMENT) ;;*
    ret kr).

Definition mach_port_unguard (space name guard : Z) : M kst kern_return_t :=
  with_guardable space name (fun port _ => mach_port_unguard_locked port name guard).

Definition mach_port_swap_guard (space name old_guard new_guard : Z) : M kst kern_return_t :=
  with_guardable space name (fun port p =>
    if negb (ip_guarded p) then
      mach_port_guard_exception name old_guard 0 kGUARD_EXC_UNGUARDED ;;* ret KERN_INVALID_ARGUMENT
    else if ip_strict_guard p then
      mach_port_guard_exception name old_guard (ip_context p) kGUARD_EXC_SET_CONTEXT ;;*
      ret KERN_INVALID_ARGUMENT
    else if negb (ip_context p =? old_guard) then
      mach_port_guard_exception name old_guard (ip_context p) kGUARD_EXC_INCORRECT_GUARD ;;*
      ret KERN_INVALID_ARGUMENT
    else put_port port (set_ip_context new_guard p) ;;* ret KERN_SUCCESS).

(** ** Notification requests; returns the previous request. *)
Definition mach_port_request_notification (rounds : nat) (space name id sync notify : Z)
    : M kst (kern_return_t * Z) :=
  if space =? IS_NULL then ret (KERN_INVALID_TASK, IP_NULL)
  else if notify =? IP_DEAD then ret (KERN_INVALID_CAPABILITY, IP_NULL)
  else if id =? MACH_NOTIFY_PORT_DESTROYED then
    if negb (sync =? 0) then ret (KERN_INVALID_VALUE, IP_NULL)
    else
      with_receive space name KERN_INVALID_RIGHT IP_NULL (fun port p =>
        if ip_is_kobject p || ip_is_kolabeled p || ip_specialreply p then
          mach_port_guard_exception name 0 0 kGUARD_EXC_INVALID_RIGHT ;;*
          ret (KERN_INVALID_RIGHT, IP_NULL)
        else if ipc_port_has_prdrequest p then
          mach_port_guard_exception name 0 0 kGUARD_EXC_KERN_FAILURE ;;*
          ret (KERN_FAILURE, IP_NULL)
        else put_port port (set_ip_pdrequest notify p) ;;* ret (KERN_SUCCESS, IP_NULL))
  else if id =? MACH_NOTIFY_NO_SENDERS then
    with_receive space name KERN_INVALID_RIGHT IP_NULL (fun port _ =>
      let* previous := ipc_port_nsrequest port sync notify in ret (KERN_SUCCESS, previous))
  else if (id =? MACH_NOTIFY_SEND_POSSIBLE) || (id =? MACH_NOTIFY_DEAD_NAME) then
    if negb (MACH_PORT_VALID name) then ret (KERN_INVALID_ARGUMENT, IP_NULL)
    else
      ipc_right_request_alloc rounds name (negb (sync =? 0)) (id =? MACH_NOTIFY_SEND_POSSIBLE) notify
  else ret (KERN_INVALID_VALUE, IP_NULL).

(** ** Inserting and extracting rights *)
Definition mach_port_insert_right (rounds rescans : nat) (memory : bool) (space name poly polyPoly : Z)
    : M kst kern_return_t :=
  if space =? IS_NULL then ret KERN_INVALID_TASK
  else if negb (MACH_PORT_VALID name) || negb (MACH_MSG_TYPE_PORT_ANY_RIGHT polyPoly)
  then ret KERN_INVALID_VALUE
  else if negb (IP_VALID poly) then ret KERN_INVALID_CAPABILITY
  else ipc_object_copyout_name rounds rescans memory poly polyPoly name.

(** Returns the right and its type. *)
Definition mach_port_extract_right (space name msgt_name : Z) : M kst (kern_return_t * option (Z * Z)) :=
  if space =? IS_NULL then ret (KERN_INVALID_TASK, None)
  else if negb (MACH_MSG_TYPE_PORT_ANY msgt_name) then ret (KERN_INVALID_VALUE, None)
  else if negb (MACH_PORT_VALID name) then ret (KERN_INVALID_RIGHT, None)
  else
    let flags := if (space =? current_space) && (msgt_name =? MACH_MSG_TYPE_COPY_SEND)
                 then IPC_OBJECT_COPYIN_FLAGS_ALLOW_IMMOVABLE_SEND else IPC_OBJECT_COPYIN_FLAGS_NONE in
    let* (kr, object, _) := ipc_object_copyin name msgt_name 0 None flags in
    ret (kr, if bool_decide (kr = KERN_SUCCESS) then Some (object, ipc_object_copyin_type msgt_name) else None).

(** ** Attributes *)

(** The assertions the port carried are no longer its receiver's. *)
Definition tempowner_drop (release_imp_task assertcnt : Z) : M kst unit :=
  if negb (release_imp_task =? IIT_NULL) then
    massert (ipc_importance_task_is_any_receiver_type release_imp_task)
      "ipc_importance_task_is_any_receiver_type(release_imp_task)" ;;*
    when (0 <? assertcnt)
      (emit "ipc_importance_task_drop_internal_assertion" [release_imp_task; assertcnt]) ;;*
    emit "ipc_importance_task_release" [release_imp_task]
  else
    when ((0 <? assertcnt) && negb (current_task_imp_base =? IIT_NULL) &&
          ipc_importance_task_is_any_receiver_type current_task_imp_base)
      (emit "ipc_importance_task_drop_internal_assertion" [current_task_imp_base; assertcnt]).

(** [value] is what [info] points to, [count] its size in words. *)
Definition mach_port_set_attributes (space name flavor value count : Z) : M kst kern_return_t :=
  let receive := with_receive space name KERN_INVALID_RIGHT tt in
  let* (kr, _) :=
    if space =? IS_NULL then ret (KERN_INVALID_TASK, tt)
    else if flavor =? MACH_PORT_LIMITS_INFO then
      if count <? 1 then ret (KERN_FAILURE, tt)
      else if MACH_PORT_QLIMIT_MAX <? value then ret (KERN_INVALID_VALUE, tt)
      else receive (fun port _ => ipc_mqueue_set_qlimit_locked port value ;;* ret (KERN_SUCCESS, tt))
    else if flavor =? MACH_PORT_DNREQUESTS_SIZE then
      if count <? 1 then ret (KERN_FAILURE, tt)
      else receive (fun port _ => let* kr := ipc_port_request_grow port value in ret (kr, tt))
    else if flavor =? MACH_PORT_TEMPOWNER then
      receive (fun port p =>
        if ip_is_kobject p || ip_specialreply p then ret (KERN_INVALID_ARGUMENT, tt)
        else
          let release_imp_task := if ip_tempowner p then ip_get_imp_task p else IIT_NULL in
          let assertcnt := if ip_tempowner p && (ip_get_imp_task p =? IIT_NULL) then 0 else ip_impcount p in
          let p := if negb (release_imp_task =? IIT_NULL) then set_ip_kobject IIT_NULL p else p in
          put_port port (set_ip_tempowner true (set_ip_impdonation true p)) ;;*
          tempowner_drop release_imp_task assertcnt ;;*
          ret (KERN_SUCCESS, tt))
    else if (flavor =? MACH_PORT_DENAP_RECEIVER) || (flavor =? MACH_PORT_IMPORTANCE_RECEIVER) then
      receive (fun port p =>
        if ip_is_kobject p || ip_specialreply p then ret (KERN_INVALID_ARGUMENT, tt)
        else put_port port (set_ip_impdonation true p) ;;* ret (KERN_SUCCESS, tt))
    else ret (KERN_INVALID_ARGUMENT, tt) in
  ret kr.

(** ** Leaving a port set *)
Definition mach_port_extract_member (space name psname : Z) : M kst kern_return_t :=
  if space =? IS_NULL then ret KERN_INVALID_TASK
  else if negb (MACH_PORT_VALID name) || negb (MACH_PORT_VALID psname) then ret KERN_INVALID_RIGHT
  else
    let* (kr, found) := ipc_object_translate_two name MACH_PORT_RIGHT_RECEIVE psname MACH_PORT_RIGHT_PORT_SET in
    match found with
    | None => ret kr
    | Some (port, pset) =>
      massert (negb (pset =? IO_NULL)) "psobj != IO_NULL" ;;*
      massert (negb (port =? IO_NULL)) "obj != IO_NULL" ;;*
      let* p := get_port port in
      if bool_decide (pset ∈ ip_psets p) then
        put_port port (leave_pset pset p) ;;* ret KERN_SUCCESS
      else ret KERN_NOT_IN_SET
    end.

Definition task_set_port_space (rescans : nat) (memory : bool) (space table_entries : Z)
    : M kst kern_return_t :=
  if space =? IS_NULL then ret KERN_INVALID_TASK
  else
    let* active := is_active in
    if negb active then ret KERN_INVALID_TASK
    else ipc_entry_grow_table rescans memory table_entries.

(** ** Construction and destruction *)
Definition mach_port_destruct (space name srdelta guard : Z) : M kst kern_return_t :=
  if space =? IS_NULL then ret KERN_INVALID_TASK
  else if negb (MACH_PORT_VALID name) then ret KERN_INVALID_NAME
  else lookup_or_raise name (fun index => ipc_right_destruct name index srdelta guard).

(** The label of a service port; [inl] is an error. *)
Definition construct_service (options : mach_port_options) : kern_return_t + Z :=
  if negb MACH_ASSERT && negb task_in_privileged_coalition then inl KERN_DENIED
  else if opt_service_port_info options =? 0 then inl KERN_INVALID_ARGUMENT
  else
    match copyin_service_port_info (opt_service_port_info options) with
    | None => inl KERN_MEMORY_ERROR
    | Some false => inl KERN_INVALID_ARGUMENT
    | Some true =>
      let '(kr, splabel) := ipc_service_port_label_alloc (opt_service_port_info options) in
      if bool_decide (kr = KERN_SUCCESS) then inr splabel else inl kr
    end.

(** The flags the port is initialised with and its label. *)
Definition construct_flags (options : mach_port_options) : kern_return_t + Z * Z :=
  let flags := opt_flags options in
  let init := IPC_PORT_INIT_MESSAGE_QUEUE in
  let init := if has flags MPO_INSERT_SEND_RIGHT then Z.lor init IPC_PORT_INIT_MAKE_SEND_RIGHT else init in
  let init := if has flags MPO_FILTER_MSG then Z.lor init IPC_PORT_INIT_FILTER_MESSAGE else init in
  if has flags MPO_TG_BLOCK_TRACKING && negb task_is_graphics_server then inl KERN_DENIED
  else if has flags MPO_TG_BLOCK_TRACKING &&
          negb (work_interval_port_type_render_server (opt_work_interval_port options))
  then inl KERN_INVALID_ARGUMENT
  else
    let init := if has flags MPO_TG_BLOCK_TRACKING then Z.lor init IPC_PORT_INIT_TG_BLOCK_TRACKING else init in
    if has flags MPO_SERVICE_PORT then
      match construct_service options with
      | inl kr => inl kr
      | inr splabel => inr (Z.lor init IPC_PORT_INIT_FILTER_MESSAGE, splabel)
      end
    else if has flags MPO_CONNECTION_PORT then
      if opt_service_port_name options =? 0 then inl KERN_INVALID_ARGUMENT
      else
        let '(kr, splabel, filter_msgs) := ipc_service_port_derive_sblabel (opt_service_port_name options) in
        if bool_decide (kr = KERN_SUCCESS)
        then inr (if filter_msgs then Z.lor init IPC_PORT_INIT_FILTER_MESSAGE else init, splabel)
        else inl kr
    else inr (init, 0).

(** The label and guard of the new port. *)
Definition construct_port (port name context splabel : Z) (options : mach_port_options) : M kst unit :=
  let flags := opt_flags options in
  when (negb (splabel =? 0))
    (mod_port port (fun p => set_ip_splabel splabel (set_ip_service_port (has flags MPO_SERVICE_PORT) p))) ;;*
  if has flags MPO_CONTEXT_AS_GUARD then
    let* kr := mach_port_guard_locked port context
      (Z.lor (if has flags MPO_STRICT then MPG_STRICT else 0)
             (if has flags MPO_IMMOVABLE_RECEIVE then MPG_IMMOVABLE_RECEIVE else 0)) in
    massert (bool_decide (kr = KERN_SUCCESS)) "kr == KERN_SUCCESS" ;;*
    when (has flags MPO_SERVICE_PORT)
      (massert (has flags MPO_STRICT) "(options->flags & MPO_STRICT) == MPO_STRICT" ;;*
       emit "ipc_service_port_label_set_attr" [splabel; name; context])
  else
    mod_port port (set_ip_context context) ;;*
    when (has flags MPO_SERVICE_PORT) (emit "ipc_service_port_label_set_attr" [splabel; name; 0]).

(** The attributes asked for, in order, up to the first that fails. *)
Fixpoint construct_attributes (space name : Z) (wanted : list (Z * Z * Z)) : M kst kern_return_t :=
  match wanted with
  | [] => ret KERN_SUCCESS
  | (flavor, value, count) :: wanted =>
    let* kr := mach_port_set_attributes space name flavor value count in
    if bool_decide (kr = KERN_SUCCESS) then construct_attributes space name wanted else ret kr
  end.
Definition wanted_attributes (options : mach_port_options) : list (Z * Z * Z) :=
  let flags := opt_flags options in
  (if has flags MPO_QLIMIT then [(MACH_PORT_LIMITS_INFO, opt_qlimit options, 1)] else []) ++
  (if has flags MPO_TEMPOWNER then [(MACH_PORT_TEMPOWNER, 0, 0)] else []) ++
  (if has flags MPO_IMPORTANCE_RECEIVER then [(MACH_PORT_IMPORTANCE_RECEIVER, 0, 0)] else []) ++
  (if has flags MPO_DENAP_RECEIVER then [(MACH_PORT_DENAP_RECEIVER, 0, 0)] else []).

Definition mach_port_construct (rounds rescans : nat) (memory : bool) (a space : Z)
    (options : mach_port_options) (context : Z) : M kst (kern_return_t * Z) :=
  let flags := opt_flags options in
  let at_most_one := Z.land flags (Z.lor MPO_SERVICE_PORT (Z.lor MPO_CONNECTION_PORT MPO_TG_BLOCK_TRACKING)) in
  if has at_most_one (u32 (at_most_one - 1)) then ret (KERN_INVALID_ARGUMENT, MACH_PORT_NULL)
  else if space =? IS_NULL then ret (KERN_INVALID_TASK, MACH_PORT_NULL)
  else
    match construct_flags options with
    | inl kr => ret (kr, MACH_PORT_NULL)
    | inr (init_flags, splabel) =>
      let* (kr, name) := ipc_port_alloc rounds rescans memory a init_flags in
      if negb (bool_decide (kr = KERN_SUCCESS)) then
        when (negb (splabel =? 0))
          (emit "ipc_service_port_label_dealloc" [splabel; Z.b2z (has flags MPO_SERVICE_PORT)]) ;;*
        ret (kr, MACH_PORT_NULL)
      else
        construct_port a name context splabel options ;;*
        let* kr := construct_attributes space name (wanted_attributes options) in
        when (negb (bool_decide (kr = KERN_SUCCESS)))
          (let* _ := mach_port_destruct space name
             (if has flags MPO_INSERT_SEND_RIGHT then -1 else 0) context in ret tt) ;;*
        ret (kr, name)
    end.
End calls.
