(* ===== verification/MachPortInfo.v ===== *)
(** * Sets and listings ([osfmk/ipc/mach_port.c], [ipc_mqueue.c])

    The calls that put receive rights into port sets and those that report: the names
    of a space, the members of a set, the attributes of a port, the messages that
    wait.  Memory for the answers comes from [ipc_kernel_map]; what becomes of it after the
    call is the caller's. *)

From stdpp Require Import sorting.
From S2P Require Import Prelude MachPort KmsgQueue KmsgSpec Prng OsRefcnt IpcTable IpcHash IpcState IpcSpace IpcEntry IpcPort IpcChain IpcMqueue IpcRequest IpcPortLife IpcRight RightDrop IpcObject MachPortCalls.

Definition kGUARD_EXC_RCV_INVALID_NAME : Z := 0x80000.
Definition MACH_PORT_RECEIVE_STATUS : Z := 2.
Definition MACH_PORT_INFO_EXT : Z := 7.
Definition MACH_PORT_LIMITS_INFO_COUNT : Z := 1.
Definition MACH_PORT_RECEIVE_STATUS_COUNT : Z := 10.
Definition MACH_PORT_DNREQUESTS_SIZE_COUNT : Z := 1.
Definition MACH_PORT_INFO_EXT_COUNT : Z := 17.
Definition MACH_PORT_STATUS_FLAG_TEMPOWNER : Z := 0x01.
Definition MACH_PORT_STATUS_FLAG_GUARDED : Z := 0x02.
Definition MACH_PORT_STATUS_FLAG_STRICT_GUARD : Z := 0x04.
Definition MACH_PORT_STATUS_FLAG_IMP_DONATION : Z := 0x08.
Definition MACH_PORT_STATUS_FLAG_TASKPTR : Z := 0x20.
Definition MACH_PORT_STATUS_FLAG_GUARD_IMMOVABLE_RECEIVE : Z := 0x40.
Definition MACH_PORT_STATUS_FLAG_NO_GRANT : Z := 0x80.

(** [ipc_kernel_map]: the size of its pages, whether an allocation of a size
    succeeds, and what the memory holds before it is written. *)
Class KernelMap := {
  VM_MAP_PAGE_SIZE : Z;
  kmem_alloc : kst -> Z -> bool;
  kmem_contents : kst -> Z -> nat -> Z;
}.
(** [vm_map_round_page(x, VM_MAP_PAGE_MASK(ipc_kernel_map))] *)
Definition round_page `{KernelMap} (x : Z) : Z := (x + VM_MAP_PAGE_SIZE - 1) / VM_MAP_PAGE_SIZE * VM_MAP_PAGE_SIZE.

(** [mach_port_status_t] *)
Record mach_port_status := mk_status {
  mps_pset : bool;
  mps_seqno : Z;
  mps_mscount : Z;
  mps_qlimit : Z;
  mps_msgcount : Z;
  mps_sorights : Z;
  mps_srights : bool;
  mps_pdrequest : bool;
  mps_nsrequest : bool;
  mps_flags : Z;
}.
(** What [mach_port_get_attributes] writes to [info]. *)
Inductive port_info :=
| Nothing
| Limits (mpl_qlimit : Z)
| Receive_status (status : mach_port_status)
| Dnrequests_size (size : Z)
| Info_ext (status : mach_port_status) (mpie_boost_cnt : Z).

Definition IP_TIMESTAMP_ORDER (one two : Z) : bool := 2 ^ 31 <=? u32 (one - two).

Section calls.
Context `{KernelConfig} `{TableSizes} `{Concurrency} `{Externals} `{RequestSizes} `{Messages}.

(** ** Receiving by name *)
Definition io_reference (a : Z) : M kst unit :=
  fun k => match ks_psets k !! a with
  | Some s =>
    match os_ref_retain_internal (ips_references s) with
    | Done n => Done (tt, set_ks_psets (<[a := mk_ipc_pset (ips_io_bits s) n]> (ks_psets k)) k)
    | Panic what => Panic what
    | Diverges => Diverges
    end
  | None => ip_reference a k
  end.
Definition ipc_mqueue_copyin (name : Z) : M kst (Z * Z) :=
  let* (kr, found) := ipc_right_lookup_read name in
  match found with
  | None => ret (MACH_RCV_INVALID_NAME, IO_NULL)
  | Some (bits, object) =>
    when (has bits MACH_PORT_TYPE_RECEIVE)
      (let* p := get_port object in
       let* space := get_space is_self in
       massert (ip_receiver_name p =? name) "ip_get_receiver_name(port) == name" ;;*
       massert (ip_in_space p space) "ip_in_space(port, space)") ;;*
    if has bits (Z.lor MACH_PORT_TYPE_RECEIVE MACH_PORT_TYPE_PORT_SET) then
      io_reference object ;;* ret (MACH_MSG_SUCCESS, object)
    else
      when (Z.land bits MACH_PORT_TYPE_EX_RECEIVE =? 0)
        (mach_port_guard_exception name 0 0 kGUARD_EXC_RCV_INVALID_NAME) ;;*
      ret (MACH_RCV_INVALID_NAME, IO_NULL)
  end.

(** ** Members of sets *)
Definition mach_port_insert_member (space name psname : Z) : M kst kern_return_t :=
  if space =? IS_NULL then ret KERN_INVALID_TASK
  else if negb (MACH_PORT_VALID name) || negb (MACH_PORT_VALID psname) then ret KERN_INVALID_RIGHT
  else
    let* (kr, found) := ipc_object_translate_two name MACH_PORT_RIGHT_RECEIVE psname MACH_PORT_RIGHT_PORT_SET in
    match found with
    | None => ret kr
    | Some (port, pset) =>
      massert (negb (pset =? IO_NULL)) "psobj != IO_NULL" ;;*
      massert (negb (port =? IO_NULL)) "obj != IO_NULL" ;;*
      ipc_mqueue_add_locked port pset
    end.

(** The port leaves its sets, [after] apart. *)
Definition move_member (port : Z) (after : option Z) : M kst kern_return_t :=
  let* kr :=
    match after with
    | Some nset => ipc_mqueue_add_locked port nset ;;* ret KERN_SUCCESS
    | None =>
      let* p := get_port port in
      ret (if negb (ip_in_pset p) then KERN_NOT_IN_SET else KERN_SUCCESS)
    end in
  waitq_unlink_all_locked port after ;;*
  ret kr.
Definition mach_port_move_member (space member after : Z) : M kst kern_return_t :=
  if space =? IS_NULL then ret KERN_INVALID_TASK
  else if negb (MACH_PORT_VALID member) then ret KERN_INVALID_RIGHT
  else if after =? MACH_PORT_DEAD then ret KERN_INVALID_RIGHT
  else if negb (after =? MACH_PORT_NULL) then
    let* (kr, found) := ipc_object_translate_two member MACH_PORT_RIGHT_RECEIVE after MACH_PORT_RIGHT_PORT_SET in
    match found with
    | None => ret kr
    | Some (port, pset) => move_member port (Some pset)
    end
  else
    let* (kr, port) := ipc_object_translate member MACH_PORT_RIGHT_RECEIVE in
    if bool_decide (kr = KERN_SUCCESS) then move_member port None else ret kr.

(** ** Messages that wait: the sequence number, size and id of one, and the size of its
    trailer; the trailer itself is copied out. *)
Definition mach_port_peek (space name trailer_type seqno trailer_size : Z)
    : M kst (kern_return_t * option (Z * Z * Z * Z)) :=
  if space =? IS_NULL then ret (KERN_INVALID_TASK, None)
  else if negb (MACH_PORT_VALID name) then ret (KERN_INVALID_RIGHT, None)
  else if (MACH_RCV_TRAILER_AUDIT <? GET_RCV_ELEMENTS trailer_type) ||
          (trailer_size <? REQUESTED_TRAILER_SIZE true trailer_type) then
    mach_port_guard_exception name 0 0 kGUARD_EXC_INVALID_VALUE ;;* ret (KERN_INVALID_VALUE, None)
  else
    let* (kr, port) := ipc_port_translate_receive name in
    if negb (bool_decide (kr = KERN_SUCCESS)) then
      mach_port_guard_exception name 0 0
        (if bool_decide (kr = KERN_INVALID_NAME) then kGUARD_EXC_INVALID_NAME else kGUARD_EXC_INVALID_RIGHT) ;;*
      ret (kr, None)
    else
      let* found := ipc_mqueue_peek_locked port seqno in
      match found with
      | None => ret (KERN_FAILURE, None)
      | Some (seqno, kmsg) => ret (KERN_SUCCESS, 
        Some (seqno, msgh_size kmsg, msgh_id kmsg, REQUESTED_TRAILER_SIZE true trailer_type))
      end.

(** ** Attributes *)
Definition mach_port_get_status_helper (p : ipc_port) : mach_port_status :=
  mk_status (ip_in_pset p) (imq_seqno p) (ip_mscount p) (imq_qlimit p) (imq_msgcount p)
    (ip_sorights p) (0 <? ip_srights p) (ipc_port_has_prdrequest p) (negb (ip_nsrequest p =? IP_NULL))
    (let flags := 0 in
     let flags :=
       if ip_impdonation p then
         let flags := Z.lor flags MACH_PORT_STATUS_FLAG_IMP_DONATION in
         if ip_tempowner p then
           let flags := Z.lor flags MACH_PORT_STATUS_FLAG_TEMPOWNER in
           if negb (IIT_NULL =? ip_get_imp_task p) then Z.lor flags MACH_PORT_STATUS_FLAG_TASKPTR else flags
         else flags
       else flags in
     let flags :=
       if ip_guarded p then
         let flags := Z.lor flags MACH_PORT_STATUS_FLAG_GUARDED in
         let flags := if ip_strict_guard p then Z.lor flags MACH_PORT_STATUS_FLAG_STRICT_GUARD else flags in
         if ip_immovable_receive p then Z.lor flags MACH_PORT_STATUS_FLAG_GUARD_IMMOVABLE_RECEIVE else flags
       else flags in
     if ip_no_grant p then Z.lor flags MACH_PORT_STATUS_FLAG_NO_GRANT else flags).

(** The size of a table of requests, as its head records it. *)
Definition dnrequests_size (p : ipc_port) : M kst Z :=
  match ip_requests p with
  | None => ret 0
  | Some (_, table) => let* ipr := lift (aget table 0) in lift (aget ipc_table_requests (ipr_size ipr))
  end.

(** The answer and the count written back. *)
Definition mach_port_get_attributes (space name flavor count : Z) : M kst (kern_return_t * port_info * Z) :=
  if space =? IS_NULL then ret (KERN_INVALID_TASK, Nothing, count)
  else
    let translated (k : ipc_port -> M kst (kern_return_t * port_info * Z)) :=
      let* (kr, port) := ipc_port_translate_receive name in
      if negb (bool_decide (kr = KERN_SUCCESS)) then ret (kr, Nothing, count)
      else let* p := get_port port in k p in
    if flavor =? MACH_PORT_LIMITS_INFO then
      if count <? MACH_PORT_LIMITS_INFO_COUNT then ret (KERN_FAILURE, Nothing, count)
      else if negb (MACH_PORT_VALID name) then ret (KERN_SUCCESS, Nothing, 0)
      else translated (fun p => ret (KERN_SUCCESS, Limits (imq_qlimit p), MACH_PORT_LIMITS_INFO_COUNT))
    else if flavor =? MACH_PORT_RECEIVE_STATUS then
      if count <? MACH_PORT_RECEIVE_STATUS_COUNT then ret (KERN_FAILURE, Nothing, count)
      else if negb (MACH_PORT_VALID name) then ret (KERN_INVALID_RIGHT, Nothing, count)
      else translated (fun p =>
        ret (KERN_SUCCESS, Receive_status (mach_port_get_status_helper p), MACH_PORT_RECEIVE_STATUS_COUNT))
    else if flavor =? MACH_PORT_DNREQUESTS_SIZE then
      if count <? MACH_PORT_DNREQUESTS_SIZE_COUNT then ret (KERN_FAILURE, Nothing, count)
      else if negb (MACH_PORT_VALID name) then ret (KERN_SUCCESS, Dnrequests_size 0, count)
      else translated (fun p =>
        let* size := dnrequests_size p in
        ret (KERN_SUCCESS, Dnrequests_size size, MACH_PORT_DNREQUESTS_SIZE_COUNT))
    else if flavor =? MACH_PORT_INFO_EXT then
      if count <? MACH_PORT_INFO_EXT_COUNT then ret (KERN_FAILURE, Nothing, count)
      else if negb (MACH_PORT_VALID name) then ret (KERN_INVALID_RIGHT, Nothing, count)
      else translated (fun p =>
        ret (KERN_SUCCESS, Info_ext (mach_port_get_status_helper p) (ip_impcount p), MACH_PORT_INFO_EXT_COUNT))
    else ret (KERN_INVALID_ARGUMENT, Nothing, count).

(** ** The names of a space *)
Context `{KernelMap}.

(** The type of the right under a name at the time [timestamp]. *)
Definition mach_port_names_helper (timestamp : Z) (entry : ipc_entry) (name : Z) : M kst Z :=
  let bits := ie_bits entry in
  let request := ie_request entry in
  let port := ie_object entry in
  let* (type, bits) :=
    if has bits MACH_PORT_TYPE_RECEIVE then
      massert (IP_VALID port) "IP_VALID(port)" ;;*
      if negb (request =? IE_REQ_NONE) then
        let* p := get_port port in
        require_ip_active p ;;*
        let* type := ipc_port_request_type port name request in ret (type, bits)
      else ret (0, bits)
    else if has bits MACH_PORT_TYPE_SEND_RIGHTS then
      massert (IP_VALID port) "IP_VALID(port)" ;;*
      let* reqtype := if negb (request =? IE_REQ_NONE) then ipc_port_request_type port name request else ret 0 in
      let* p := get_port port in
      if ip_active p || IP_TIMESTAMP_ORDER timestamp (ip_timestamp p) then ret (reqtype, bits)
      else
        let bits := Z.lor (Z.ldiff bits IE_BITS_TYPE_MASK) MACH_PORT_TYPE_DEAD_NAME in
        ret (0, if negb (reqtype =? 0) then u32 (bits + 1) else bits)
    else ret (0, bits) in
  ret (Z.lor type (IE_BITS_TYPE bits)).

(** [names[actual]] and [types[actual]] in arrays of [size] bytes. *)
Definition names_write (size : Z) (out : list (Z * Z)) (name type : Z) : M kst (list (Z * Z)) :=
  if 4 * (alen out + 1) <=? size then ret (out ++ [(name, type)]) else panic "write past the end of names".
Fixpoint names_scan (count : nat) (table : list ipc_entry) (timestamp size index : Z) (out : list (Z * Z))
    : M kst (list (Z * Z)) :=
  match count with
  | O => ret out
  | S count =>
    let* entry := lift (aget table index) in
    let bits := ie_bits entry in
    let* out :=
      if negb (IE_BITS_TYPE bits =? MACH_PORT_TYPE_NONE) then
        let name := MACH_PORT_MAKE index (IE_BITS_GEN bits) in
        let* type := mach_port_names_helper timestamp entry name in
        names_write size out name type
      else ret out in
    names_scan count table timestamp size (index + 1) out
  end.

(** Memory for as many names as the table has entries; the table may grow while the space
    is unlocked. *)
Fixpoint names_room (rounds : nat) (size : Z) : M kst (kern_return_t + Z) :=
  match rounds with
  | O => fun _ => Diverges
  | S rounds =>
    let* active := is_active in
    if negb active then ret (inl KERN_INVALID_TASK)
    else
      let* table := is_active_table in
      let* head := lift (aget table 0) in
      let size_needed := round_page (ie_size head * 4) in
      if size_needed <=? size then ret (inr size)
      else
        interfere ;;* (* is_read_unlock *)
        let* memory := gets (fun k => kmem_alloc k size_needed) in
        if negb memory then ret (inl KERN_RESOURCE_SHORTAGE) else names_room rounds size_needed
  end.
Definition mach_port_names (rounds : nat) (space : Z) : M kst (kern_return_t * list (Z * Z)) :=
  if space =? IS_NULL then ret (KERN_INVALID_TASK, [])
  else
    let* room := names_room rounds 0 in
    match room with
    | inl kr => ret (kr, [])
    | inr size =>
      let* timestamp := ipc_port_timestamp in
      let* table := is_active_table in
      let* head := lift (aget table 0) in
      let* out := names_scan (Z.to_nat (ie_size head - 1)) table timestamp size 1 [] in
      ret (KERN_SUCCESS, out)
    end.

(** ** The members of a set *)

(** The names of the receive rights in the set; the order of the links is not
    kept, the names are sorted in the end. *)
Definition set_members (pset : Z) (k : kst) : list Z :=
  omap (fun '(_, p) => if decide (pset ∈ ip_psets p) then Some (ip_receiver_name p) else None) (map_to_list (ks_ports k)).
(** The block run for each member: [names] holds [maxnames] names. *)
Fixpoint write_members (members : list Z) (maxnames : Z) (names : list Z) (actual : Z) : list Z * Z :=
  match members with
  | [] => (names, actual)
  | member :: members =>
    write_members members maxnames (if actual <? maxnames then aset names actual member else names) (u32 (actual + 1))
  end.
(** [actual] is declared outside the loop and starts at zero, as every automatic
    variable does ([-ftrivial-auto-var-init=zero]). *)
Fixpoint set_status_loop (rounds : nat) (name size actual : Z) : M kst (kern_return_t * list Z) :=
  match rounds with
  | O => fun _ => Diverges
  | S rounds =>
    let* memory := gets (fun k => kmem_alloc k size) in
    if negb memory then ret (KERN_RESOURCE_SHORTAGE, [])
    else
      let maxnames := size / 4 in
      let* names := gets (fun k => (fun i => kmem_contents k size i) <$> seq 0 (Z.to_nat maxnames)) in
      let* (kr, pset) := ipc_object_translate name MACH_PORT_RIGHT_PORT_SET in
      if negb (bool_decide (kr = KERN_SUCCESS)) then ret (kr, [])
      else
        let* members := gets (set_members pset) in
        let '(names, actual) := write_members members maxnames names actual in
        if actual <=? maxnames then ret (KERN_SUCCESS, merge_sort Z.le (take (Z.to_nat actual) names))
        else
          interfere ;;* (* ips_mq_unlock *)
          set_status_loop rounds name (round_page (actual * 4) + VM_MAP_PAGE_SIZE) actual
  end.
Definition mach_port_get_set_status (rounds : nat) (space name : Z) : M kst (kern_return_t * list Z) :=
  if space =? IS_NULL then ret (KERN_INVALID_TASK, [])
  else if negb (MACH_PORT_VALID name) then ret (KERN_INVALID_RIGHT, [])
  else set_status_loop rounds name VM_MAP_PAGE_SIZE 0.
End calls.
