(* ===== verification/RightSpec.v ===== *)
(** * Deallocation is a delta of minus one

    The code has two ways to drop a user reference, [ipc_right_dealloc] and
    [ipc_right_delta] with delta -1, written separately for every type of
    right.  On a live entry that is not pegged they are the same computation.
    The equations for running code on a known state are shared by the files
    that follow. *)

From S2P Require Import Prelude MachPort Prng OsRefcnt IpcTable IpcHash IpcState IpcSpace EntryFacts IpcEntry EntrySpec IpcPort IpcChain PortSpec Samples IpcRequest RequestProps IpcPortLife IpcRight RightDrop.

(** ** Running computations on a known state *)
Section running.
Context {S A B : Type}.
Implicit Types (m : M S A) (f g : A -> M S B) (s : S).

Lemma bind_run m f s a s' : m s = Done (a, s') -> bind m f s = f a s'.
Proof. intros Hm. unfold bind. by rewrite Hm. Qed.

Lemma bind_ext m f g s :
  (forall a s', m s = Done (a, s') -> f a s' = g a s') -> bind m f s = bind m g s.
Proof. intros Hfg. unfold bind. destruct (m s) as [[a s']| |]; [by apply Hfg|done|done]. Qed.

Lemma bind_same m m' f s s' : m s = m' s' -> bind m f s = bind m' f s'.
Proof. intros Hm. unfold bind. by rewrite Hm. Qed.

Lemma bind_assoc {C} m (f : A -> M S B) (h : B -> M S C) s :
  bind (bind m f) h s = bind m (fun a => bind (f a) h) s.
Proof. unfold bind. by destruct (m s) as [[a s']| |]. Qed.

End running.

Lemma bind_wp {S A B} (m : M S A) (f : A -> M S B) s a s' Q : m s = Done (a, s') -> wp (bind m f) Q s = wp (f a) Q s'.
Proof. intros Hm. unfold wp. by rewrite (bind_run m f s a s' Hm). Qed.

Lemma massert_run `{KernelConfig} {S B} b what (n : M S B) (s : S) :
  b = true -> (massert b what ;;* n) s = n s.
Proof.
  intros Hb. apply (bind_run (massert b what) (fun _ => n) s tt s).
  unfold massert. by rewrite kassert_true.
Qed.

Lemma when_false_run {S B} m (n : M S B) (s : S) : (when false m ;;* n) s = n s.
Proof. done. Qed.

(** ** Types in entry bits *)
Lemma has_type bits m : Z.land IE_BITS_TYPE_MASK m = m -> has bits m = has (IE_BITS_TYPE bits) m.
Proof. intros Hm. unfold has, IE_BITS_TYPE. by rewrite <- Z.land_assoc, Hm. Qed.

(** Decide the tests on bits whose type is known, and on constants. *)
Ltac constant_Z x := lazymatch x with
  | Z0 => idtac | Zpos _ => idtac | Zneg _ => idtac | _ => is_const x
  end.
Ltac decided x y b :=
  constant_Z x; constant_Z y; let v := eval vm_compute in b in change b with v.
Ltac const_tests :=
  repeat match goal with
  | |- context [Z.eqb ?x ?y] => decided x y (Z.eqb x y)
  | |- context [Z.ltb ?x ?y] => decided x y (Z.ltb x y)
  | |- context [has ?x ?y] => decided x y (has x y)
  end; cbn [negb andb orb]; cbv iota.
Ltac type_tests Hty :=
  repeat match goal with
  | |- context [has ?b ?m] => rewrite (has_type b m eq_refl), Hty
  end; rewrite ?Hty; const_tests.

Lemma IE_BITS_UREFS_range bits : 0 <= IE_BITS_UREFS bits < 2 ^ 16.
Proof. rewrite IE_BITS_UREFS_arith. dlia. Qed.

(** ** Reading the state *)
Section reading.
Context (k : kst) (t : list ipc_entry) (Ht : is_table (ks_space k) = Some t).

Lemma get_entry_run i : 0 <= i < alen t -> get_entry i k = Done (anth t i, k).
Proof using Ht.
  intros Hi. unfold get_entry, is_active_table, bind, get_space, gets. rewrite Ht. simpl.
  unfold ret, lift. by rewrite aget_in.
Qed.
Lemma is_active_run : is_active k = Done (true, k).
Proof using Ht. unfold is_active, get_space, gets. by rewrite Ht, bool_decide_true. Qed.
End reading.

Lemma get_port_run k a p : ks_ports k !! a = Some p -> get_port a k = Done (p, k).
Proof. intros Hp. unfold get_port. by rewrite Hp. Qed.
Lemma put_port_run {B} a p (n : M kst B) k : (put_port a p ;;* n) k = n (with_port a p k).
Proof. done. Qed.
Lemma require_ip_active_run {B} p (n : M kst B) k :
  ip_active p = true -> (require_ip_active p ;;* n) k = n k.
Proof.
  intros Hp. apply (bind_run (require_ip_active p) (fun _ => n) k tt k).
  unfold require_ip_active. by rewrite Hp.
Qed.

(** ** Entries as the code relies on them

    What the assertions of [ipc_right_dealloc] and [ipc_right_delta] demand of
    an entry with a live right and unpegged user references. *)
Section sound.
Context `{KernelConfig} `{TableSizes} `{Concurrency} `{Externals} `{RequestSizes}.

Record live_port (k : kst) (e : ipc_entry) (p : ipc_port) : Prop := {
  lp_port : ks_ports k !! ie_object e = Some p;
  lp_valid : ie_object e <> IP_NULL;
  lp_active : ip_active p = true;
}.

Lemma ipc_right_check_run k t i p name flags :
  is_table (ks_space k) = Some t -> 0 <= i < alen t -> live_port k (anth t i) p ->
  ipc_right_check (ie_object (anth t i)) name i flags k = Done (false, k).
Proof.
  intros Ht Hi [Hp Hv Ha]. unfold ipc_right_check.
  erewrite bind_run by (by eapply is_active_run). rewrite massert_run by done.
  erewrite bind_run by (by eapply get_entry_run). rewrite massert_run by lia.
  erewrite bind_run by (by eapply get_port_run). by rewrite Ha.
Qed.

(** Dropping a send right of a live port: the port afterwards, and the
    no-senders notification that is due. *)
Definition dropped_port (p : ipc_port) : ipc_port :=
  let p' := set_ip_srights (u32 (ip_srights p - 1)) p in
  if u32 (ip_srights p - 1) =? 0 then set_ip_nsrequest IP_NULL p' else p'.
Definition dropped_ns (a : Z) (p : ipc_port) : nsenders :=
  if negb (u32 (ip_srights p - 1) =? 0) then no_nsenders
  else if ip_nsrequest p =? IP_KOBJECT_NSREQUEST_ARMED then mk_nsenders a (ip_mscount p) true
  else if ip_nsrequest p =? IP_NULL then no_nsenders
  else mk_nsenders (ip_nsrequest p) (ip_mscount p) false.

Lemma set_ip_nsrequest_same p : ip_nsrequest p = IP_NULL -> set_ip_nsrequest IP_NULL p = p.
Proof. destruct p. simpl. by intros ->. Qed.

Lemma drop_send_right_run k a p :
  ks_ports k !! a = Some p -> ip_active p = true ->
  drop_send_right a k = Done (dropped_ns a p, with_port a (dropped_port p) k).
Proof.
  intros Hp Ha. unfold drop_send_right. rewrite (bind_run _ _ _ _ _ (get_port_run k a p Hp)).
  rewrite (bind_run (put_port _ _) _ k tt (with_port a (set_ip_srights (u32 (ip_srights p - 1)) p) k) eq_refl).
  unfold dropped_port, dropped_ns. destruct (u32 (ip_srights p - 1) =? 0); [|done].
  unfold ipc_notify_no_senders_prepare.
  rewrite (bind_run _ _ _ _ _ (get_port_run _ a _ (with_port_lookup _ _ _))). cbn [negb].
  change (ip_nsrequest (set_ip_srights (u32 (ip_srights p - 1)) p)) with (ip_nsrequest p).
  change (ip_active (set_ip_srights (u32 (ip_srights p - 1)) p)) with (ip_active p).
  destruct (Z.eqb_spec (ip_nsrequest p) IP_KOBJECT_NSREQUEST_ARMED) as [He|].
  - rewrite (bind_run (put_port _ _) _ _ tt _ eq_refl), Ha. unfold ret. do 2 f_equal. apply with_port_twice.
  - destruct (Z.eqb_spec (ip_nsrequest p) IP_NULL) as [Hz|]; cbn [negb].
    + by rewrite set_ip_nsrequest_same.
    + rewrite (bind_run (put_port _ _) _ _ tt _ eq_refl). unfold ret. do 2 f_equal. apply with_port_twice.
Qed.

Lemma dropped_port_pinned p : ip_pinned (dropped_port p) = ip_pinned p.
Proof. unfold dropped_port. by destruct (_ =? 0). Qed.
Lemma dropped_port_receiver_name p : ip_receiver_name (dropped_port p) = ip_receiver_name p.
Proof. unfold dropped_port. by destruct (_ =? 0). Qed.
Lemma dropped_port_in_space p s : ip_in_space (dropped_port p) s = ip_in_space p s.
Proof. unfold dropped_port. by destruct (_ =? 0). Qed.

(** The right an entry's user references count. *)
Definition right_of_type (type : Z) : Z :=
  if type =? MACH_PORT_TYPE_PORT_SET then MACH_PORT_RIGHT_PORT_SET
  else if type =? MACH_PORT_TYPE_DEAD_NAME then MACH_PORT_RIGHT_DEAD_NAME
  else if type =? MACH_PORT_TYPE_SEND_ONCE then MACH_PORT_RIGHT_SEND_ONCE
  else MACH_PORT_RIGHT_SEND.

Inductive droppable (k : kst) (name : Z) (e : ipc_entry) : Prop :=
| droppable_port_set :
    IE_BITS_TYPE (ie_bits e) = MACH_PORT_TYPE_PORT_SET -> IE_BITS_UREFS (ie_bits e) = 0 ->
    ie_request e = IE_REQ_NONE -> droppable k name e
| droppable_dead_name :
    IE_BITS_TYPE (ie_bits e) = MACH_PORT_TYPE_DEAD_NAME ->
    0 < IE_BITS_UREFS (ie_bits e) < MACH_PORT_UREFS_MAX ->
    ie_object e = IO_NULL -> ie_request e = IE_REQ_NONE -> droppable k name e
| droppable_send_once p :
    IE_BITS_TYPE (ie_bits e) = MACH_PORT_TYPE_SEND_ONCE -> IE_BITS_UREFS (ie_bits e) = 1 ->
    live_port k e p -> 0 < ip_sorights p -> droppable k name e
| droppable_send p :
    IE_BITS_TYPE (ie_bits e) = MACH_PORT_TYPE_SEND ->
    0 < IE_BITS_UREFS (ie_bits e) < MACH_PORT_UREFS_MAX ->
    live_port k e p -> 0 < ip_srights p -> droppable k name e
| droppable_send_receive p :
    IE_BITS_TYPE (ie_bits e) = MACH_PORT_TYPE_SEND_RECEIVE ->
    0 < IE_BITS_UREFS (ie_bits e) < MACH_PORT_UREFS_MAX ->
    live_port k e p -> 0 < ip_srights p -> ip_pinned p = false -> ip_receiver_name p = name ->
    ip_in_space p (is_self (ks_space k)) = true -> droppable k name e.

Lemma delta_clamp_one urefs :
  0 < urefs < MACH_PORT_UREFS_MAX -> delta_clamp urefs (-1) = Some (-1).
Proof.
  unfold delta_clamp, MACH_PORT_UREFS_UNDERFLOW, MACH_PORT_UREFS_OVERFLOW, MACH_PORT_UREFS_MAX.
  intros Hu. change (u32 (- -1)) with 1. zsolve.
Qed.
Lemma urefs_zero urefs : 0 < urefs < MACH_PORT_UREFS_MAX -> (u32 (urefs + -1) =? 0) = (urefs =? 1).
Proof. unfold u32, MACH_PORT_UREFS_MAX. intros Hu. rewrite Z.mod_small by lia. zsolve. Qed.

Context (k : kst) (t : list ipc_entry) (i : Z).
Context (Ht : is_table (ks_space k) = Some t) (Hi : 0 <= i < alen t).

(** Entry, port and check are known: run over them. *)
Ltac run_assert := rewrite massert_run by first [assumption | lia | reflexivity].
Ltac run :=
  repeat first
  [ run_assert
  | rewrite (bind_run is_active _ k _ _ (is_active_run k t Ht))
  | rewrite (bind_run (get_entry i) _ k _ _ (get_entry_run k t Ht i Hi))
  | erewrite (bind_run (ipc_right_check _ _ _ _)) by (eapply ipc_right_check_run; eassumption)
  | erewrite (bind_run (get_port _)) by (eapply get_port_run; eassumption) ].

Lemma dealloc_dead_name_delta name :
  IE_BITS_TYPE (ie_bits (anth t i)) = MACH_PORT_TYPE_DEAD_NAME ->
  0 < IE_BITS_UREFS (ie_bits (anth t i)) < MACH_PORT_UREFS_MAX ->
  ie_object (anth t i) = IO_NULL -> ie_request (anth t i) = IE_REQ_NONE ->
  dealloc_dead_name name i IP_NULL k = delta_dead_name name i (-1) k.
Proof using Ht Hi.
  intros Hty Hu Ho Hq. unfold dealloc_dead_name, delta_dead_name, delta_dead_bits. run.
  type_tests Hty. run. rewrite delta_clamp_one, urefs_zero by done.
  change (delta_in_range (-1)) with true. cbn [negb].
  unfold urefs_decrement. destruct (Z.ltb_spec (IE_BITS_UREFS (ie_bits (anth t i))) MACH_PORT_UREFS_MAX); [|lia].
  reflexivity.
Qed.

Lemma dealloc_send_once_delta name p :
  IE_BITS_TYPE (ie_bits (anth t i)) = MACH_PORT_TYPE_SEND_ONCE ->
  IE_BITS_UREFS (ie_bits (anth t i)) = 1 -> live_port k (anth t i) p -> 0 < ip_sorights p ->
  dealloc_send_once name i k = delta_send_once name i (-1) k.
Proof using Ht Hi.
  intros Hty Hu Hp Hs. pose proof Hp as [Hport Hv Ha].
  unfold dealloc_send_once, delta_send_once. unfold IP_NULL in *. run. type_tests Hty. run. reflexivity.
Qed.

Lemma dealloc_send_delta name p :
  IE_BITS_TYPE (ie_bits (anth t i)) = MACH_PORT_TYPE_SEND ->
  0 < IE_BITS_UREFS (ie_bits (anth t i)) < MACH_PORT_UREFS_MAX ->
  live_port k (anth t i) p -> 0 < ip_srights p ->
  dealloc_send name i k = delta_send name i (-1) k.
Proof using Ht Hi.
  intros Hty Hu Hp Hs. pose proof Hp as [Hport Hv Ha].
  unfold dealloc_send, delta_send. run. type_tests Hty. run.
  rewrite delta_clamp_one, urefs_zero by done. change (delta_in_range (-1)) with true. cbn [negb].
  destruct (Z.eqb_spec (IE_BITS_UREFS (ie_bits (anth t i))) 1).
  - destruct (ip_pinned p) eqn:Hpin; [reflexivity|].
    rewrite !(bind_run _ _ _ _ _ (drop_send_right_run k _ p Hport Ha)).
    unfold delta_send_zero.
    rewrite !bind_assoc. rewrite (bind_run (get_space is_self) _ _ _ _ eq_refl).
    rewrite !bind_assoc, (bind_run _ _ _ _ _ (get_port_run _ _ _ (with_port_lookup _ _ _))).
    type_tests Hty. rewrite !bind_assoc. run_assert.
    rewrite bind_assoc. apply bind_ext. intros request k1 _.
    rewrite bind_assoc. apply bind_ext. intros [] k2 _.
    rewrite bind_assoc, massert_run by (by rewrite dropped_port_pinned, Hpin).
    rewrite bind_assoc. apply bind_ext. intros [] k3 _.
    rewrite (bind_run (ret _) _ _ _ _ eq_refl).
    destruct (Z.eqb_spec (ie_object (anth t i)) IP_NULL); [done|]. reflexivity.
  - unfold urefs_decrement.
    destruct (Z.ltb_spec (IE_BITS_UREFS (ie_bits (anth t i))) MACH_PORT_UREFS_MAX); [|lia].
    unfold when. cbn [negb Z.eqb]. by rewrite bind_assoc.
Qed.

Lemma dealloc_send_receive_delta name p :
  IE_BITS_TYPE (ie_bits (anth t i)) = MACH_PORT_TYPE_SEND_RECEIVE ->
  0 < IE_BITS_UREFS (ie_bits (anth t i)) < MACH_PORT_UREFS_MAX ->
  live_port k (anth t i) p -> 0 < ip_srights p -> ip_pinned p = false -> ip_receiver_name p = name ->
  ip_in_space p (is_self (ks_space k)) = true ->
  dealloc_send_receive name i k = delta_send name i (-1) k.
Proof using Ht Hi.
  intros Hty Hu Hp Hs Hpin Hn Hin. pose proof Hp as [Hport Hv Ha].
  unfold dealloc_send_receive, delta_send.
  rewrite (bind_run (get_space is_self) _ _ _ _ eq_refl). run. type_tests Hty. run.
  rewrite require_ip_active_run by done. run.
  rewrite delta_clamp_one, urefs_zero by done. change (delta_in_range (-1)) with true. cbn [negb].
  destruct (Z.eqb_spec (IE_BITS_UREFS (ie_bits (anth t i))) 1).
  - rewrite Hpin, bind_assoc, !(bind_run _ _ _ _ _ (drop_send_right_run k _ p Hport Ha)).
    unfold delta_send_zero.
    rewrite !bind_assoc, (bind_run (get_space is_self) _ _ _ _ eq_refl).
    rewrite !bind_assoc, (bind_run _ _ _ _ _ (get_port_run _ _ _ (with_port_lookup _ _ _))).
    type_tests Hty. rewrite bind_assoc, massert_run by (rewrite dropped_port_receiver_name; lia).
    rewrite bind_assoc, massert_run by (by rewrite dropped_port_in_space).
    rewrite bind_assoc, massert_run by done. rewrite !bind_assoc.
    apply bind_ext. intros [] k1 _. rewrite (bind_run (ret _) _ _ _ _ eq_refl), bind_assoc.
    apply bind_ext. intros [] k2 _. rewrite (bind_run (ret _) _ _ _ _ eq_refl).
    reflexivity.
  - unfold urefs_decrement.
    destruct (Z.ltb_spec (IE_BITS_UREFS (ie_bits (anth t i))) MACH_PORT_UREFS_MAX); [|lia].
    unfold when. cbn [negb Z.eqb]. rewrite !bind_assoc. apply bind_ext. intros [] k1 _.
    rewrite (bind_run (ret _) _ _ _ _ eq_refl). reflexivity.
Qed.

Lemma dealloc_port_set_delta name :
  IE_BITS_TYPE (ie_bits (anth t i)) = MACH_PORT_TYPE_PORT_SET ->
  IE_BITS_UREFS (ie_bits (anth t i)) = 0 -> ie_request (anth t i) = IE_REQ_NONE ->
  dealloc_port_set name i k = delta_port_set name i (-1) k.
Proof using Ht Hi.
  intros Hty Hu Hq. unfold delta_port_set. run. type_tests Hty. run. reflexivity.
Qed.

End sound.

(** The theorem at work: an assert-enabled kernel, one thread. *)
#[local] Existing Instances DEVELOPMENT SMALL_4K quiet plain_externals SMALL_REQUESTS.

