(* ===== verification/RightUrefs.v ===== *)
(** * User references

    The arithmetic of [ipc_right_delta]: saturating counts that never leave
    their field of the entry bits, and what that makes of a dead name. *)

From S2P Require Import Prelude MachPort Prng OsRefcnt IpcTable IpcHash IpcState IpcSpace EntryFacts IpcEntry EntrySpec IpcPort IpcChain PortSpec Samples IpcRequest RequestProps IpcPortLife IpcRight RightDrop RightSpec.

(** ** What the count promises

    [None]: the delta is refused.  A count that reaches the maximum is pegged
    there: from then on only the delta that removes all references at once
    has an effect. *)
Definition urefs_spec (urefs delta : Z) : option Z :=
  if (MACH_PORT_UREFS_MAX <? delta) || (delta <? - MACH_PORT_UREFS_MAX) then None
  else if urefs =? MACH_PORT_UREFS_MAX then
    Some (if delta =? - MACH_PORT_UREFS_MAX then 0 else MACH_PORT_UREFS_MAX)
  else if urefs + delta <? 0 then None
  else Some (Z.min (urefs + delta) MACH_PORT_UREFS_MAX).

Lemma urefs_spec_range urefs delta u :
  0 <= urefs <= MACH_PORT_UREFS_MAX -> urefs_spec urefs delta = Some u -> 0 <= u <= MACH_PORT_UREFS_MAX.
Proof. unfold urefs_spec, MACH_PORT_UREFS_MAX. intros Hu. zcase; simpl; intros [= <-]; lia. Qed.

(** The code computes it. *)
Lemma delta_clamp_spec urefs delta :
  0 < urefs <= MACH_PORT_UREFS_MAX ->
  (if delta_in_range delta then delta_clamp urefs delta else None) =
  (fun u => u - urefs) <$> urefs_spec urefs delta.
Proof.
  unfold delta_in_range, delta_clamp, urefs_spec, MACH_PORT_UREFS_UNDERFLOW, MACH_PORT_UREFS_OVERFLOW,
    MACH_PORT_UREFS_MAX. intros Hu.
  destruct (Z.ltb_spec 65535 delta); [done|]. destruct (Z.ltb_spec delta (Z.opp 65535)); [done|].
  cbn [negb andb orb]. destruct (Z.eqb_spec urefs 65535) as [->|].
  { destruct (Z.eqb_spec delta (Z.opp 65535)) as [->|]; simpl; f_equal; lia. }
  destruct (Z.ltb_spec delta 0); simpl.
  - unfold u32. rewrite (Z.mod_small (- delta)) by lia.
    destruct (Z.ltb_spec urefs (- delta)), (Z.ltb_spec (urefs + delta) 0); try lia; [done|].
    destruct (Z.ltb_spec 0 delta); [lia|]. simpl. f_equal. lia.
  - destruct (Z.ltb_spec (urefs + delta) 0); [lia|]. unfold u32. rewrite Z.mod_small by lia.
    destruct (Z.ltb_spec 0 delta); simpl; [|f_equal; lia].
    destruct (Z.leb_spec (urefs + delta) urefs); [lia|]. simpl.
    destruct (Z.leb_spec 65535 (urefs + delta)); simpl; f_equal; lia.
Qed.

(** ** The fields of the bits after a change of the count *)
Lemma urefs_change bits u :
  0 <= bits < 2 ^ 32 -> 0 <= u <= MACH_PORT_UREFS_MAX ->
  let bits' := u32 (bits + (u - IE_BITS_UREFS bits)) in
  0 <= bits' < 2 ^ 32 /\ IE_BITS_UREFS bits' = u /\ IE_BITS_TYPE bits' = IE_BITS_TYPE bits /\
  IE_BITS_GEN bits' = IE_BITS_GEN bits.
Proof.
  intros Hb Hu. cbv zeta. rewrite !IE_BITS_UREFS_arith, !IE_BITS_TYPE_arith, !IE_BITS_GEN_arith.
  unfold MACH_PORT_UREFS_MAX, u32 in *.
  assert (bits + (u - bits mod 2 ^ 16) = (bits / 2 ^ 16) * 2 ^ 16 + u) as -> by dlia.
  set (q := bits / 2 ^ 16). assert (0 <= q < 2 ^ 16) by (unfold q; dlia).
  assert (bits / 2 ^ 24 = q / 2 ^ 8) as -> by (unfold q; dlia).
  rewrite (Z.mod_small _ (2 ^ 32)) by lia.
  assert ((q * 2 ^ 16 + u) / 2 ^ 16 = q) as -> by dlia.
  assert ((q * 2 ^ 16 + u) / 2 ^ 24 = q / 2 ^ 8) as -> by dlia.
  split; [lia|]. split; [dlia|done].
Qed.

(** ** Writing an entry *)

(** Finishing the work on an entry: what is written is in use, and in the
    reverse hash exactly when it is a send right. *)
Lemma space_wf_close s t fl i e :
  space_wf s t fl (Some i) -> 0 < i < alen t ->
  ie_dist e = ie_dist (anth t i) -> ie_index e = ie_index (anth t i) -> bits_ok (ie_bits e) ->
  (hashed t i -> ie_object e = object_at t i) -> IE_BITS_TYPE (ie_bits e) <> MACH_PORT_TYPE_NONE ->
  (hashed t i <-> IE_BITS_TYPE (ie_bits e) = MACH_PORT_TYPE_SEND) ->
  space_wf (set_is_table (Some (aset t i e)) s) (aset t i e) fl None /\ hash_agree t (aset t i e).
Proof.
  intros [Ht Hwf Hhc Hfc Hlo Hhi] Hi Hd Hx Hb Hob Hte Hhe.
  pose proof (put_entry_agree t fl i e Hwf Hi Hd Hx Hob) as Ha.
  assert (anth (aset t i e) i = e) as Hai by (apply anth_aset_eq; lia).
  split; [|done]. split; simpl; rewrite ?alen_aset; try done.
  - apply table_wf_close with i; [by apply table_wf_put| |].
    + unfold type_at. by rewrite Hai.
    + rewrite (hash_agree_hashed t) by done. unfold type_at. by rewrite Hai.
  - rewrite Hhc. f_equal. symmetry. by apply hash_agree_count; [apply Hwf|].
Qed.

Lemma space_wf_open s t fl i :
  space_wf s t fl None -> type_at t i <> MACH_PORT_TYPE_NONE -> space_wf s t fl (Some i).
Proof. intros [Ht Hwf Hhc Hfc Hlo Hhi] Hty. split; try done. by apply table_wf_open. Qed.

(** Writing an entry in use without changing its type. *)
Lemma space_wf_put s t fl i e :
  space_wf s t fl None -> 0 < i < alen t -> type_at t i <> MACH_PORT_TYPE_NONE ->
  ie_dist e = ie_dist (anth t i) -> ie_index e = ie_index (anth t i) -> bits_ok (ie_bits e) ->
  IE_BITS_TYPE (ie_bits e) = type_at t i ->
  (type_at t i = MACH_PORT_TYPE_SEND -> ie_object e = object_at t i) ->
  space_wf (set_is_table (Some (aset t i e)) s) (aset t i e) fl None /\ hash_agree t (aset t i e).
Proof.
  intros Hsw Hi Hty Hd Hx Hb Hte Ho.
  assert (hashed t i <-> type_at t i = MACH_PORT_TYPE_SEND) as Hh by (by apply Hsw).
  apply space_wf_close; try done; [by apply space_wf_open|intros ?%Hh; auto|by rewrite Hte|by rewrite Hte].
Qed.

(** Other entries keep what they hold. *)
Definition same_but (i : Z) (t t' : list ipc_entry) : Prop :=
  alen t' = alen t /\ forall j, 0 < j -> j <> i -> anth t' j = anth t j.

Lemma same_but_names i t t' n :
  same_but i t t' -> MACH_PORT_INDEX n <> i -> name_entry t' n = name_entry t n.
Proof.
  intros [Hl Hj] Hn. unfold name_entry, type_at. rewrite Hl.
  destruct (Z.ltb_spec 0 (MACH_PORT_INDEX n)); [|done]. by rewrite Hj.
Qed.

Section operations.
Context `{KernelConfig} `{TableSizes} `{Concurrency} `{Externals} `{RequestSizes}.

(** A new user-reference count in an entry in use, marked as modified. *)
Lemma wp_set_urefs k t fl i name u Q :
  space_wf (ks_space k) t fl None -> name_entry t name = Some i ->
  0 <= u <= MACH_PORT_UREFS_MAX ->
  (forall t' k', space_wf (ks_space k') t' fl None -> same_but i t t' -> only_space k k' ->
     name_entry t' name = Some i -> IE_BITS_UREFS (ie_bits (anth t' i)) = u ->
     type_at t' i = type_at t i -> object_at t' i = object_at t i -> Q tt k') ->
  wp (mod_entry i (set_ie_bits (u32 (ie_bits (anth t i) + (u - IE_BITS_UREFS (ie_bits (anth t i)))))) ;;*
      ipc_entry_modified name) Q k.
Proof.
  intros Hsw Hn Hu HQ. pose proof Hn as (Hix&Hi&Hg&Hty)%name_entry_Some.
  pose proof Hsw as [Ht Hwf _ _ _ _].
  set (b := u32 _). set (e := set_ie_bits b (anth t i)).
  destruct (tw_bits _ _ _ Hwf i Hi) as [Hb (g&Hgr&Hgg)].
  destruct (urefs_change _ u Hb Hu) as (Hb1&Hbu&Hbt&Hbg). fold b in Hb1, Hbu, Hbt, Hbg.
  destruct (space_wf_put (ks_space k) t fl i e) as [Hsw' Ha]; try done.
  { split; [done|]. exists g. split; [done|]. change (ie_bits e) with b. by rewrite Hbg. }
  assert (anth (aset t i e) i = e) as Hai by (apply anth_aset_eq; lia).
  apply wp_bind. unfold mod_entry.
  apply wp_bind, (wp_get_entry _ t); [done|lia|]. apply (wp_put_entry _ t); [done|lia|]. fold e.
  eapply (ipc_entry_modified_ok _ (aset t i e) fl None); [exact Hsw'|rewrite alen_aset; lia|].
  intros lo hi ????. rewrite alen_aset in *. simpl in *.
  apply (HQ (aset t i e)).
  - apply space_wf_mods; [done|rewrite alen_aset; lia..].
  - split; [apply alen_aset|]. intros j Hj Hne. apply anth_aset_ne; lia.
  - done.
  - apply name_entry_Some. rewrite alen_aset. unfold type_at. rewrite Hai.
    split; [done|]. split; [lia|]. split; [by rewrite <- Hg|]. unfold e. simpl. by rewrite Hbt.
  - by rewrite Hai.
  - unfold type_at. by rewrite Hai.
  - unfold object_at. by rewrite Hai.
Qed.

(** C32. The user references of a dead name: [ipc_right_delta] applies the
    delta saturating at the maximum, refuses one that would go below zero or is out
    of range (raising the guard exception and changing nothing else), frees
    the entry and invalidates the name when the count reaches zero, and otherwise
    leaves the same dead name with the new count.  No other entry changes. *)
Theorem ipc_right_delta_dead_name k t fl i name delta :
  space_wf (ks_space k) t fl None -> name_entry t name = Some i ->
  type_at t i = MACH_PORT_TYPE_DEAD_NAME -> 0 < IE_BITS_UREFS (ie_bits (anth t i)) ->
  object_at t i = IO_NULL -> ie_request (anth t i) = IE_REQ_NONE ->
  wp (ipc_right_delta name i MACH_PORT_RIGHT_DEAD_NAME delta) (fun r k' =>
    match urefs_spec (IE_BITS_UREFS (ie_bits (anth t i))) delta with
    | None => r = KERN_INVALID_VALUE /\
        k' = set_ks_trace (ks_trace k ++ [Call "mach_port_guard_exception"
               [name; 0; 0; kGUARD_EXC_INVALID_VALUE]]) k
    | Some u => r = KERN_SUCCESS /\ only_space k k' /\ exists t', same_but i t t' /\
        if u =? 0 then space_wf (ks_space k') t' (i :: fl) None /\ name_entry t' name = None
        else space_wf (ks_space k') t' fl None /\ name_entry t' name = Some i /\
             IE_BITS_UREFS (ie_bits (anth t' i)) = u /\ type_at t' i = MACH_PORT_TYPE_DEAD_NAME
    end) k.
Proof.
  intros Hsw Hn Hty Hu Ho Hq. pose proof Hn as (Hix&Hi&Hg&Hnone)%name_entry_Some.
  pose proof Hsw as [Ht Hwf _ _ _ _]. pose proof (IE_BITS_UREFS_range (ie_bits (anth t i))) as Hur.
  assert (0 < IE_BITS_UREFS (ie_bits (anth t i)) <= MACH_PORT_UREFS_MAX) as Hum
    by (unfold MACH_PORT_UREFS_MAX; lia).
  pose proof (delta_clamp_spec _ delta Hum) as Hcl.
  set (urefs := IE_BITS_UREFS (ie_bits (anth t i))) in *.
  unfold ipc_right_delta. apply wp_bind, (wp_is_active _ t); [done|].
  apply wp_bind, wp_massert; [done|]. apply wp_bind, wp_massert; [done|]. const_tests.
  unfold delta_dead_name. apply wp_bind, (wp_get_entry _ t); [done|lia|]. unfold type_at in Hty. type_tests Hty.
  unfold delta_dead_bits. apply wp_bind, (wp_get_entry _ t); [done|lia|]. type_tests Hty.
  apply wp_bind, wp_massert; [done|]. apply wp_bind, wp_massert; [lia|].
  apply wp_bind, wp_massert; [unfold object_at in Ho; lia|]. apply wp_bind, wp_massert; [lia|].
  fold urefs. destruct (delta_in_range delta) eqn:Hr; cbn [negb].
  2: { destruct (urefs_spec urefs delta); [done|]. by apply wp_bind, wp_emit, wp_ret. }
  rewrite Hcl. destruct (urefs_spec urefs delta) as [u|] eqn:Hs; simpl.
  2: by apply wp_bind, wp_emit, wp_ret.
  pose proof (urefs_spec_range urefs delta u ltac:(lia) Hs) as Hus.
  replace (urefs + (u - urefs)) with u by lia.
  rewrite u32_small by (unfold MACH_PORT_UREFS_MAX in *; lia).
  destruct (Z.eqb_spec u 0) as [->|Hu0].
  - apply wp_bind. eapply wp_mono.
    { replace IO_NULL with (object_at t i) by done.
      apply (ipc_entry_dealloc_ok _ t fl); try done; [by apply space_wf_open|].
      rewrite (tw_hashed _ _ _ Hwf i) by done. by rewrite Hty. }
    intros _ k' [(t'&Hsw'&Ha&Hoth&_) Hos _]. pose proof (ha_len _ _ Ha) as Hl.
    apply wp_bind, wp_ret, wp_ret. split; [done|]. split; [done|]. exists t'.
    split; [by split|]. split; [done|].
    apply (freed_name t' i fl); [apply Hsw'|done].
  - apply wp_bind, wp_when.
    + intros _. apply (wp_set_urefs _ t fl); [done..|].
      intros t' k' Hsw' Hsb Hos Hn' Hu' Hty' _. apply wp_bind, wp_ret, wp_ret.
      split; [done|]. split; [done|]. exists t'. split; [done|]. split; [done|]. split; [done|].
      split; [done|]. unfold type_at in *. congruence.
    + intros Hz. assert (u = urefs) as -> by lia. apply wp_bind, wp_ret, wp_ret.
      split; [done|]. split; [done|]. exists t. done.
Qed.
End operations.

#[local] Existing Instances DEVELOPMENT SMALL_4K quiet plain_externals SMALL_REQUESTS.

Lemma ipc_right_delta_dead_name_witness :
  exists k', ipc_right_delta 0x103 1 MACH_PORT_RIGHT_DEAD_NAME 65535
    (sample_state 0 MACH_PORT_TYPE_DEAD_NAME 2 sent_port) = Done (KERN_SUCCESS, k').
Proof.
  pose proof (ipc_right_delta_dead_name (sample_state 0 MACH_PORT_TYPE_DEAD_NAME 2 sent_port)
    (sample_table 0 MACH_PORT_TYPE_DEAD_NAME 2) [2; 3] 1 0x103 65535) as Hw.
  destruct (wp_elim _ _ _ (Hw ltac:(apply sample_wf; [lia|by do 5 right; left|discriminate])
    eq_refl eq_refl eq_refl eq_refl eq_refl)) as (r&k'&Hr&Hx).
  change (urefs_spec _ _) with (Some 65535) in Hx. destruct Hx as [-> _]. by exists k'.
Defined.
