(* ===== verification/LookupProps.v ===== *)
(** * Lookup without the space lock

    [ipc_right_lookup_read] of a kernel with [MACH_LOCKFREE_SPACE] reads the
    table while other threads change it.  What it returns is nevertheless
    current: the theorems quantify over everything the other threads may do
    between the two reads, restricted only by the rely that a table is never
    replaced by a shorter one. *)

From S2P Require Import Prelude MachPort Prng OsRefcnt IpcTable IpcHash IpcState IpcSpace EntryFacts IpcEntry EntrySpec IpcPort IpcChain PortSpec Samples IpcRequest RequestProps IpcPortLife IpcRight RightDrop RightCopy IpcObject RightSpec.

(** The rely: other threads may do anything but shrink the table. *)
Definition tables_grow `{Concurrency} : Prop := forall n k t t',
  is_table (ks_space k) = Some t -> is_table (ks_space (other n k)) = Some t' -> alen t <= alen t'.

(** The state after the other threads had their turn. *)
Definition interfered `{Concurrency} (k : kst) : kst := set_ks_clock (S (ks_clock k)) (other (ks_clock k) k).

(** A right under [name] in [k]: the name's entry, its object, alive. *)
Record current_right (k : kst) (name bits object : Z) : Prop := {
  cr_table : exists t, is_table (ks_space k) = Some t /\ 0 < MACH_PORT_INDEX name < alen t /\
    ie_bits (anth t (MACH_PORT_INDEX name)) = bits /\ object_at t (MACH_PORT_INDEX name) = object;
  cr_gen : IE_BITS_GEN bits = MACH_PORT_GEN name;
  cr_object : object <> IO_NULL;
  cr_active : io_active object k = Done (true, k);
}.

Section lock_free.
Context `{KernelConfig} `{TableSizes} `{Concurrency} `{Externals} `{RequestSizes}.

Lemma io_lock_active a k : io_lock_allow_invalid a k = Done (true, k) -> io_active a k = Done (true, k).
Proof.
  unfold io_lock_allow_invalid, io_active.
  destruct (ks_ports k !! a); [done|]. by destruct (ks_psets k !! a).
Qed.
Lemma io_lock_run a k : exists b, io_lock_allow_invalid a k = Done (b, k).
Proof.
  unfold io_lock_allow_invalid. destruct (ks_ports k !! a) as [p|]; [by eexists|].
  destruct (ks_psets k !! a); by eexists.
Qed.

(** The type test of the code is applied to a truth value, and never fires. *)
Lemma type_test_void b : negb (IE_BITS_TYPE (Z.b2z b) =? 0) = false.
Proof. by destruct b. Qed.

Lemma typeless_land bits right :
  MACH_PORT_RIGHT_VALID_TRANSLATE right = true -> IE_BITS_TYPE bits = MACH_PORT_TYPE_NONE ->
  Z.land bits (MACH_PORT_TYPE right) = MACH_PORT_TYPE_NONE.
Proof.
  intros Hv Hz.
  assert (Z.land (MACH_PORT_TYPE right) IE_BITS_TYPE_MASK = MACH_PORT_TYPE right) as <-.
  { unfold MACH_PORT_RIGHT_VALID_TRANSLATE, MACH_PORT_RIGHT_SEND, MACH_PORT_RIGHT_DEAD_NAME in Hv.
    assert (right = 0 \/ right = 1 \/ right = 2 \/ right = 3 \/ right = 4) as Hc by lia.
    destruct Hc as [->|[->|[->|[->| ->]]]]; reflexivity. }
  rewrite (Z.land_comm (MACH_PORT_TYPE right)), Z.land_assoc. unfold IE_BITS_TYPE in Hz. rewrite Hz.
  apply Z.land_0_l.
Qed.

Lemma aget_run {B} (t : list ipc_entry) i (f : ipc_entry -> M kst B) k :
  0 <= i < alen t -> bind (lift (aget t i)) f k = f (anth t i) k.
Proof. intros Hi. apply bind_run. unfold lift. by rewrite aget_in. Qed.

Lemma ipc_right_lookup_read_ok k t name :
  tables_grow -> is_table (ks_space k) = Some t -> ie_size (anth t 0) = alen t -> 0 < alen t ->
  0 <= name ->
  wp (ipc_right_lookup_read name) (fun r k' => (k' = k \/ k' = interfered k) /\
    match r with
    | (kr, Some (bits, object)) => kr = KERN_SUCCESS /\ current_right k' name bits object
    | (kr, None) => kr = KERN_INVALID_NAME \/ kr = KERN_INVALID_TASK
    end) k.
Proof.
  intros Hrely Ht Hsz Hl Hn. assert (0 <= MACH_PORT_INDEX name) as Hi0.
  { rewrite MACH_PORT_INDEX_arith. dlia. }
  unfold ipc_right_lookup_read. set (i := MACH_PORT_INDEX name) in *.
  destruct (Z.eqb_spec i 0); [apply wp_ret; auto|].
  apply wp_bind, wp_get_space. rewrite Ht. apply wp_bind, wp_array; [lia|]. rewrite Hsz.
  destruct (Z.leb_spec (alen t) i); [apply wp_ret; auto|].
  apply wp_bind, wp_array; [lia|]. set (o := ie_object (anth t i)).
  apply wp_bind. unfold interfere. apply wp_modify. fold (interfered k). set (k1 := interfered k).
  apply wp_bind. destruct (Z.eqb_spec o IO_NULL) as [|Ho]; [apply wp_ret, wp_ret; auto|].
  destruct (io_lock_run o k1) as [b Hb]. unfold wp at 1. rewrite Hb.
  destruct b; [|apply wp_ret; auto]. cbn [negb]. apply wp_bind, wp_get_space.
  destruct (is_table (ks_space k1)) as [t1|] eqn:Ht1; [|apply wp_ret; auto].
  assert (alen t <= alen t1) as Hl1 by (by apply (Hrely (ks_clock k) k)).
  apply wp_bind, wp_array; [lia|].
  destruct (Z.eqb_spec (ie_object (anth t1 i)) o) as [Ho1|]; [|apply wp_ret; auto]. cbn [negb].
  rewrite type_test_void, orb_false_r.
  destruct (Z.eqb_spec (IE_BITS_GEN (ie_bits (anth t1 i))) (MACH_PORT_GEN name)) as [Hg|];
    [|apply wp_ret; auto]. cbn [negb].
  apply wp_ret. split; [auto|]. split; [done|]. split; [|done|done|by apply io_lock_active].
  exists t1. split; [done|]. split; [lia|done].
Qed.


(** Undisturbed, the lock-free lookup is the one under the lock. *)
Definition objects_live (k : kst) (t : list ipc_entry) : Prop := forall i,
  0 < i < alen t -> object_at t i <> IO_NULL ->
  is_Some (ks_ports k !! object_at t i) \/ is_Some (ks_psets k !! object_at t i).

(** Whether the object at an address is alive. *)
Definition object_alive (k : kst) (a : Z) : bool :=
  match ks_ports k !! a, ks_psets k !! a with
  | Some p, _ => ip_active p
  | None, Some s => ips_active s
  | None, None => false
  end.
Lemma io_active_run a k :
  is_Some (ks_ports k !! a) \/ is_Some (ks_psets k !! a) ->
  io_active a k = Done (object_alive k a, k).
Proof.
  unfold io_active, object_alive. destruct (ks_ports k !! a); [done|]. destruct (ks_psets k !! a); [done|].
  by intros [[? ?]|[? ?]].
Qed.
Lemma io_lock_alive_run a k : io_lock_allow_invalid a k = Done (object_alive k a, k).
Proof.
  unfold io_lock_allow_invalid, object_alive.
  destruct (ks_ports k !! a); [done|]. by destruct (ks_psets k !! a).
Qed.

(** What looking up a name in a space at rest should give. *)
Definition read_result (k : kst) (t : list ipc_entry) (name : Z) : kern_return_t * option (Z * Z) :=
  match name_entry t name with
  | Some i =>
    if (object_at t i =? IO_NULL) || negb (object_alive k (object_at t i)) then (KERN_INVALID_NAME, None)
    else (KERN_SUCCESS, Some (ie_bits (anth t i), object_at t i))
  | None => (KERN_INVALID_NAME, None)
  end.

Lemma lookup_read_locked_run k t fl name :
  space_wf (ks_space k) t fl None -> objects_live k t ->
  ipc_right_lookup_read_locked name k = Done (read_result k t name, k).
Proof.
  intros Hsw Hlive. pose proof Hsw as [Ht Hwf _ _ _ _].
  unfold ipc_right_lookup_read_locked, ipc_right_lookup_write, read_result.
  rewrite bind_assoc, (bind_run _ _ _ _ _ (is_active_run k t Ht)). cbn [negb].
  destruct (wp_elim (ipc_entry_lookup name) (fun r k' => r = name_entry t name /\ k' = k) k)
    as (?&?&Hlk&->&->); [by eapply ipc_entry_lookup_ok|].
  rewrite bind_assoc, (bind_run _ _ _ _ _ Hlk).
  destruct (name_entry t name) as [i|] eqn:Hn; [|done]. apply name_entry_Some in Hn as (_&Hi&_).
  rewrite (bind_run (ret _) _ k _ _ eq_refl), (bind_run _ _ _ _ _ (get_entry_run k t Ht i ltac:(lia))).
  fold (object_at t i). destruct (Z.eqb_spec (object_at t i) IO_NULL) as [|Ho]; [done|].
  rewrite (bind_run _ _ _ _ _ (io_active_run _ k (Hlive i ltac:(lia) Ho))).
  cbn [orb]. by destruct (object_alive k (object_at t i)).
Qed.

Lemma lookup_read_quiet_run k t fl name :
  (forall n k, other n k = k) -> space_wf (ks_space k) t fl None -> 0 <= name ->
  exists n, ipc_right_lookup_read name k = Done (read_result k t name, set_ks_clock n k).
Proof.
  intros Hq [Ht Hwf _ _ _ _] Hn. pose proof (hw_len _ (tw_hash _ _ _ Hwf)).
  pose proof (hw_size _ (tw_hash _ _ _ Hwf)) as Hsz.
  assert (0 <= MACH_PORT_INDEX name) as Hi0 by (rewrite MACH_PORT_INDEX_arith; dlia).
  assert (k = set_ks_clock (ks_clock k) k) as Hck by (by destruct k).
  unfold ipc_right_lookup_read, read_result, name_entry. set (i := MACH_PORT_INDEX name) in *.
  destruct (Z.eqb_spec i 0) as [->|]; [rewrite Hck; by exists (ks_clock k)|].
  rewrite (bind_run (get_space is_table) _ k _ _ eq_refl), Ht, (aget_run t 0) by lia.
  rewrite Hsz. destruct (Z.ltb_spec 0 i); [|lia].
  destruct (Z.leb_spec (alen t) i), (Z.ltb_spec i (alen t)); try lia;
    [rewrite Hck; by exists (ks_clock k)|]. rewrite (aget_run t i) by lia.
  rewrite (bind_run interfere _ k tt (set_ks_clock (S (ks_clock k)) k)) by (unfold interfere, modify; by rewrite Hq).
  exists (S (ks_clock k)). set (k1 := set_ks_clock (S (ks_clock k)) k). fold (object_at t i). cbn [andb].
  destruct (Z.eqb_spec (object_at t i) IO_NULL) as [Ho|Ho].
  { rewrite (bind_run (ret false) _ k1 _ _ eq_refl). destruct (_ && _); [by rewrite Ho|done]. }
  assert (type_at t i <> MACH_PORT_TYPE_NONE) as Hty.
  { intros Hty. apply Ho, (tw_free_entry _ _ _ Hwf), (tw_free _ _ _ Hwf). done. }
  destruct (Z.eqb_spec (type_at t i) MACH_PORT_TYPE_NONE); [done|]. cbn [negb orb]. rewrite andb_true_r.
  rewrite (bind_run _ _ _ _ _ (io_lock_alive_run _ k1)). change (object_alive k1) with (object_alive k).
  destruct (object_alive k (object_at t i)) eqn:Ha; cbn [negb].
  2: { destruct (_ =? _); [|done]. by rewrite (proj2 (Z.eqb_neq _ _) Ho), Ha. }
  rewrite (bind_run (get_space is_table) _ k1 _ _ eq_refl). simpl. rewrite Ht, (aget_run t i) by lia.
  fold (object_at t i). rewrite Z.eqb_refl, type_test_void, orb_false_r. cbn [negb].
  destruct (_ =? _); [|done]. by rewrite (proj2 (Z.eqb_neq _ _) Ho), Ha.
Qed.

(** In a quiescent, well-formed space the lock-free lookup and the lookup
    under the space lock give the same answer for every name: same return code, same
    bits and object.  The missing type test is harmless there, because a free
    entry holds no object. *)
Theorem lookup_read_lock_free_equiv k t fl name :
  (forall n k, other n k = k) -> space_wf (ks_space k) t fl None -> objects_live k t -> 0 <= name ->
  exists r n, ipc_right_lookup_read_locked name k = Done (r, k) /\
    ipc_right_lookup_read name k = Done (r, set_ks_clock n k).
Proof.
  intros Hq Hsw Hlive Hn. destruct (lookup_read_quiet_run k t fl name Hq Hsw Hn) as [n Hr].
  exists (read_result k t name), n. split; [by eapply lookup_read_locked_run|done].
Qed.

(** The type test of the lock-free lookup is void (its closing parenthesis
    is misplaced): an entry that still holds an object but whose type has been
    cleared ([ipc_right_destroy] does that first) is reported as found, and its
    translation fails with [KERN_INVALID_RIGHT] where the locked lookup says
    [KERN_INVALID_NAME]. *)
Theorem lookup_read_typeless k t name right :
  (forall n k, other n k = k) -> is_table (ks_space k) = Some t -> ie_size (anth t 0) = alen t ->
  0 < MACH_PORT_INDEX name < alen t ->
  let e := anth t (MACH_PORT_INDEX name) in
  IE_BITS_TYPE (ie_bits e) = MACH_PORT_TYPE_NONE -> IE_BITS_GEN (ie_bits e) = MACH_PORT_GEN name ->
  ie_object e <> IO_NULL -> object_alive k (ie_object e) = true ->
  MACH_PORT_RIGHT_VALID_TRANSLATE right = true ->
  ipc_right_lookup_read_locked name k = Done ((KERN_INVALID_NAME, None), k) /\
  exists n, ipc_object_translate name right k = Done ((KERN_INVALID_RIGHT, IO_NULL), set_ks_clock n k).
Proof.
  intros Hq Ht Hsz Hi e Hty Hg Ho Ha Hv. set (i := MACH_PORT_INDEX name) in *. split.
  - unfold ipc_right_lookup_read_locked, ipc_right_lookup_write.
    rewrite bind_assoc, (bind_run _ _ _ _ _ (is_active_run k t Ht)). cbn [negb]. rewrite bind_assoc.
    rewrite (bind_run (ipc_entry_lookup name) _ k None k); [done|].
    unfold ipc_entry_lookup. unfold is_active_table. rewrite bind_assoc.
    rewrite (bind_run (get_space is_table) _ k _ _ eq_refl), Ht, (bind_run (ret t) _ k _ _ eq_refl).
    fold i. rewrite (aget_run t 0), Hsz by lia.
    destruct (Z.ltb_spec 0 i), (Z.ltb_spec i (alen t)); try lia. cbn [andb].
    rewrite (aget_run t i) by lia. fold e. rewrite Hty, orb_true_r. done.
  - unfold ipc_object_translate. rewrite Hv. cbn [negb].
    unfold ipc_right_lookup_read. fold i. destruct (Z.eqb_spec i 0); [lia|].
    rewrite bind_assoc, (bind_run (get_space is_table) _ k _ _ eq_refl), Ht, bind_assoc, (aget_run t 0), Hsz by lia.
    destruct (Z.leb_spec (alen t) i); [lia|]. rewrite bind_assoc, (aget_run t i) by lia. fold e. rewrite bind_assoc.
    rewrite (bind_run interfere _ k tt (set_ks_clock (S (ks_clock k)) k)) by (unfold interfere, modify; by rewrite Hq).
    exists (S (ks_clock k)). set (k1 := set_ks_clock (S (ks_clock k)) k).
    destruct (Z.eqb_spec (ie_object e) IO_NULL); [done|].
    rewrite bind_assoc, (bind_run _ _ _ _ _ (io_lock_alive_run _ k1)).
    change (object_alive k1) with (object_alive k). rewrite Ha. cbn [negb].
    rewrite bind_assoc, (bind_run (get_space is_table) _ k1 _ _ eq_refl). simpl. rewrite Ht, bind_assoc, (aget_run t i) by lia.
    fold e. rewrite Z.eqb_refl, type_test_void, orb_false_r, (proj2 (Z.eqb_eq _ _) Hg). cbn [negb].
    rewrite (bind_run (ret _) _ k1 _ _ eq_refl).
    assert (Z.land (ie_bits e) (MACH_PORT_TYPE right) = MACH_PORT_TYPE_NONE) as ->; [|done].
    by apply typeless_land.
Qed.
End lock_free.

#[local] Existing Instances DEVELOPMENT SMALL_4K plain_externals SMALL_REQUESTS.

(** Another thread that terminates the space behind the reader's back. *)
Definition terminator : Concurrency :=
  {| other _ k := upd_space (set_is_table None) k; current_thread := 1 |}.


Lemma sample_objects_live urefs :
  objects_live (sample_state 0x5000 MACH_PORT_TYPE_SEND urefs sent_port)
    (sample_table 0x5000 MACH_PORT_TYPE_SEND urefs).
Proof.
  intros i Hi. pattern i. apply three_cases; [| | |exact Hi].
  - intros _. left. by exists sent_port.
  - intros Hn. destruct Hn. reflexivity.
  - intros Hn. destruct Hn. reflexivity.
Qed.

Lemma lookup_read_lock_free_equiv_witness :
  exists r n, ipc_right_lookup_read_locked 0x103 (sample_state 0x5000 MACH_PORT_TYPE_SEND 2 sent_port)
      = Done (r, sample_state 0x5000 MACH_PORT_TYPE_SEND 2 sent_port) /\
    ipc_right_lookup_read (H1 := quiet) 0x103 (sample_state 0x5000 MACH_PORT_TYPE_SEND 2 sent_port)
      = Done (r, set_ks_clock n (sample_state 0x5000 MACH_PORT_TYPE_SEND 2 sent_port)).
Proof.
  apply (lookup_read_lock_free_equiv (H1 := quiet) _ (sample_table 0x5000 MACH_PORT_TYPE_SEND 2) [2; 3]).
  - reflexivity.
  - apply sample_wf; [lia|by left|reflexivity].
  - apply sample_objects_live.
  - lia.
Defined.

Lemma lookup_read_typeless_witness :
  let k := sample_state 0x5000 MACH_PORT_TYPE_NONE 0 sent_port in
  ipc_right_lookup_read_locked 0x103 k = Done ((KERN_INVALID_NAME, None), k) /\
  exists n, ipc_object_translate (H1 := quiet) 0x103 MACH_PORT_RIGHT_RECEIVE k
    = Done ((KERN_INVALID_RIGHT, IO_NULL), set_ks_clock n k).
Proof.
  apply (lookup_read_typeless (H1 := quiet) _ (sample_table 0x5000 MACH_PORT_TYPE_NONE 0)); try reflexivity.
  - split; reflexivity.
  - discriminate.
Defined.
