(* ===== verification/EventlinkSpec.v ===== *)
(** * The sections of an eventlink

    What the sections of [IpcEventlink] that run under the lock of one eventlink do to the
    threads that wait on it: rules for their execution, and an invariant that they keep. *)

From S2P Require Import Prelude MachPort KmsgQueue KmsgSpec Prng OsRefcnt IpcTable IpcHash IpcState IpcSpace EntryFacts IpcEntry EntrySpec IpcPort PortSpec IpcMqueue MqueueSpec Samples IpcRequest RequestProps IpcPortLife IpcKobject IpcRight RightDrop RightCopy IpcObject IpcEventlink.

(** The threads inside a wait: the side, the count they wait to be exceeded, and the counter
    they saw. *)
Abbreviation sleepers := (gmap Z (Z * Z * Z)).

(** Every thread that waits on the side leaves its queue. *)
Definition release (a : Z) (r : wait_result_t) (T : threads) : threads :=
  (fun th => if decide (waits a EVENTLINK th) then woken r th else th) <$> T.
Lemma release_lookup a r T t th' : release a r T !! t = Some th' <->
  exists th, T !! t = Some th /\ th' = if decide (waits a EVENTLINK th) then woken r th else th.
Proof. unfold release. rewrite lookup_fmap_Some. naive_solver. Qed.
(** The results [ipc_eventlink_convert_wait_result] knows. *)
Definition wait_over (r : wait_result_t) : Prop :=
  r = THREAD_AWAKENED \/ r = THREAD_TIMED_OUT \/ r = THREAD_INTERRUPTED \/ r = THREAD_RESTART.

Section link.
Context (base : Z).
Definition side (a : Z) : Prop := a = elb_eventlink base 0 \/ a = elb_eventlink base 1.

(** ** The invariant; no counter exceeds [n]. *)
Record el_core (n : Z) (T : threads) (L : gmap Z ipc_eventlink) (pc : sleepers) : Prop := {
  ec_link a : side a -> exists el, L !! a = Some el /\ el_base el = base /\ 0 <= el_sync_counter el <= n;
  (** a blocked thread is the one the side is for, and its signal has not come *)
  ec_wait t th a : T !! t = Some th -> waits a EVENTLINK th -> side a ->
    exists el old, L !! a = Some el /\ pc !! t = Some (a, el_wait_counter el, old) /\
      (el_thread el = t \/ el_thread el = THREAD_ASSOCIATE_WILD) /\
      el_sync_counter el <= el_wait_counter el < UINT64_MAX;
  (** there is one at most *)
  ec_one t t' th th' a : T !! t = Some th -> T !! t' = Some th' -> waits a EVENTLINK th -> waits a EVENTLINK th' ->
    side a -> t = t';
  (** a thread inside a wait is blocked, or was released, by a signal only if it had come *)
  ec_pc t a count old : pc !! t = Some (a, count, old) -> side a /\ (t <> THREAD_NULL /\ 0 <= count) /\
    exists th, T !! t = Some th /\
      (waits a EVENTLINK th \/ th_waits_on th = None /\ wait_over (th_wait_result th) /\
        (th_wait_result th = THREAD_AWAKENED -> exists el, L !! a = Some el /\ count < el_sync_counter el));
}.

Lemma side_link n T L pc a el : el_core n T L pc -> side a -> L !! a = Some el ->
  el_base el = base /\ 0 <= el_sync_counter el <= n.
Proof. intros Hc Hs He. destruct (ec_link _ _ _ _ Hc a Hs) as (el'&He'&?). rewrite He in He'. by injection He' as <-. Qed.

(** A section that releases the threads of a side. *)
Lemma core_release n n' T L pc a el el' r : el_core n T L pc -> side a -> L !! a = Some el -> el_base el' = base ->
  el_sync_counter el <= el_sync_counter el' <= n' -> n <= n' -> wait_over r ->
  (r = THREAD_AWAKENED -> el_wait_counter el < el_sync_counter el') ->
  el_core n' (release a r T) (<[a := el']> L) pc.
Proof.
  intros Hc Ha He Hb Hs Hn Hr Hw. pose proof (side_link _ _ _ _ _ _ Hc Ha He) as [_ ?]. split.
  - intros x Hx. destruct (ec_link _ _ _ _ Hc x Hx) as (elx&Hex&?&?). destruct (decide (x = a)) as [->|].
    + exists el'. rewrite lookup_insert_eq. split; [done|]. split; [done|lia].
    + exists elx. rewrite lookup_insert_ne by done. split; [done|]. split; [done|lia].
  - intros t th' x (th&Ht&->)%release_lookup Hwx Hx. case_decide as Hd; [done|].
    destruct (ec_wait _ _ _ _ Hc t th x Ht Hwx Hx) as (elx&old&Hex&?). exists elx, old.
    rewrite lookup_insert_ne; [done|]. intros <-. done.
  - intros t t' th1 th2 x (th&Ht&->)%release_lookup (th'&Ht'&->)%release_lookup.
    case_decide; [done|]. case_decide; [done|]. by apply (ec_one _ _ _ _ Hc).
  - intros t x count old Hp. destruct (ec_pc _ _ _ _ Hc t x count old Hp) as (Hx&Hnz&th&Ht&Hcase).
    split; [done|]. split; [done|]. eexists. split; [apply release_lookup; by exists th|].
    destruct Hcase as [Hwx|(Hnw&Hov&Haw)].
    + destruct (decide (x = a)) as [->|].
      * rewrite decide_True by done. right. split; [done|]. split; [done|]. simpl. intros ->.
        destruct (ec_wait _ _ _ _ Hc t th a Ht Hwx Hx) as (el0&old0&He0&Hp0&_).
        rewrite He in He0. injection He0 as <-. rewrite Hp in Hp0. injection Hp0 as -> _.
        exists el'. rewrite lookup_insert_eq. split; [done|]. by apply Hw.
      * rewrite decide_False by (unfold waits in *; congruence). by left.
    + rewrite decide_False by (unfold waits; by rewrite Hnw). right. split; [done|]. split; [done|].
      intros Hr'. destruct (Haw Hr') as (elx&Hex&?). destruct (decide (x = a)) as [->|].
      * exists el'. rewrite lookup_insert_eq. split; [done|]. rewrite He in Hex. injection Hex as <-. lia.
      * exists elx. by rewrite lookup_insert_ne.
Qed.

(** A signal that nobody waits for yet. *)
Lemma core_count n T L pc a el : el_core n T L pc -> side a -> L !! a = Some el ->
  el_sync_counter el + 1 <= el_wait_counter el ->
  el_core (n + 1) T (<[a := set_el_sync_counter (el_sync_counter el + 1) el]> L) pc.
Proof.
  intros Hc Ha He Hle. pose proof (side_link _ _ _ _ _ _ Hc Ha He) as [Hb ?]. split.
  - intros x Hx. destruct (ec_link _ _ _ _ Hc x Hx) as (elx&Hex&?&?). destruct (decide (x = a)) as [->|].
    + eexists. rewrite lookup_insert_eq. split; [done|]. simpl. split; [done|lia].
    + exists elx. rewrite lookup_insert_ne by done. split; [done|]. split; [done|lia].
  - intros t th x Ht Hwx Hx. destruct (ec_wait _ _ _ _ Hc t th x Ht Hwx Hx) as (elx&old&Hex&Hp&Hth&Hr).
    destruct (decide (x = a)) as [->|].
    + rewrite He in Hex. injection Hex as <-. eexists _, old. rewrite lookup_insert_eq. simpl.
      split; [done|]. split; [done|]. split; [done|]. simpl. lia.
    + exists elx, old. by rewrite lookup_insert_ne.
  - apply Hc.
  - intros t x count old Hp. destruct (ec_pc _ _ _ _ Hc t x count old Hp) as (Hx&Hnz&th&Ht&Hcase).
    split; [done|]. split; [done|]. exists th. split; [done|]. destruct Hcase as [?|(?&?&Haw)]; [by left|right].
    split; [done|]. split; [done|]. intros Hr. destruct (Haw Hr) as (elx&Hex&?). destruct (decide (x = a)) as [->|].
    + rewrite He in Hex. injection Hex as <-. eexists. rewrite lookup_insert_eq. split; [done|]. simpl. lia.
    + exists elx. by rewrite lookup_insert_ne.
Qed.

(** A thread that blocks, or would have but for an abort. *)
Lemma core_block n T L pc a el self th th' count old :
  el_core n T L pc -> side a -> L !! a = Some el -> T !! self = Some th -> th_waits_on th = None -> pc !! self = None ->
  self <> THREAD_NULL -> (forall t th, T !! t = Some th -> ~ waits a EVENTLINK th) ->
  (el_thread el = self \/ el_thread el = THREAD_ASSOCIATE_WILD) -> el_sync_counter el <= count < UINT64_MAX ->
  (waits a EVENTLINK th' \/ th_waits_on th' = None /\ th_wait_result th' = THREAD_INTERRUPTED) ->
  el_core n (<[self := th']> T) (<[a := set_el_wait_counter count el]> L) (<[self := (a, count, old)]> pc).
Proof.
  intros Hc Ha He Hself Hrun Hnew Hnz Hno Hth Hcount Hth'. pose proof (side_link _ _ _ _ _ _ Hc Ha He) as [Hb ?].
  assert (forall x, waits x EVENTLINK th' -> x = a) as Hwa.
  { intros x Hx. destruct Hth' as [Hy|[Hy _]]; unfold waits in *; congruence. }
  split.
  - intros x Hx. destruct (ec_link _ _ _ _ Hc x Hx) as (elx&Hex&?&?). destruct (decide (x = a)) as [->|].
    + eexists. rewrite lookup_insert_eq. split; [done|]. simpl. split; [done|lia].
    + exists elx. by rewrite lookup_insert_ne.
  - intros t th0 x [[<- <-]|[Hne Ht]]%lookup_insert_Some Hwx Hx.
    + rewrite (Hwa x Hwx). eexists _, old. rewrite !lookup_insert_eq. simpl. done.
    + destruct (ec_wait _ _ _ _ Hc t th0 x Ht Hwx Hx) as (elx&old'&Hex&Hp&?). exists elx, old'.
      rewrite !lookup_insert_ne; [done|done|]. intros <-. by destruct (Hno t th0 Ht).
  - intros t t' th1 th2 x [[<- <-]|[Hne Ht]]%lookup_insert_Some [[<- <-]|[Hne' Ht']]%lookup_insert_Some Hw1 Hw2 Hx; [done| | |].
    + rewrite (Hwa x Hw1) in Hw2. by destruct (Hno t' th2 Ht').
    + rewrite (Hwa x Hw2) in Hw1. by destruct (Hno t th1 Ht).
    + by eapply (ec_one _ _ _ _ Hc).
  - intros t x c o [[<- [= <- <- <-]]|[Hne Hp]]%lookup_insert_Some.
    + split; [done|]. split; [split; [done|lia]|]. exists th'. rewrite lookup_insert_eq. split; [done|].
      destruct Hth' as [?|[? E]]; [by left|right]. split; [done|]. rewrite E. split; [unfold wait_over; auto|done].
    + destruct (ec_pc _ _ _ _ Hc t x c o Hp) as (Hx&Hnz'&th0&Ht&Hcase). split; [done|]. split; [done|].
      exists th0. rewrite lookup_insert_ne by done. split; [done|]. destruct Hcase as [?|(?&?&Haw)]; [by left|right].
      split; [done|]. split; [done|]. intros Hr. destruct (Haw Hr) as (elx&Hex&?). destruct (decide (x = a)) as [->|].
      * rewrite He in Hex. injection Hex as <-. eexists. by rewrite lookup_insert_eq.
      * exists elx. by rewrite lookup_insert_ne.
Qed.

(** A wait that ends for another reason than a signal. *)
Lemma el_core_abort n T L pc t th r : el_core n T L pc -> T !! t = Some th ->
  r = THREAD_TIMED_OUT \/ r = THREAD_INTERRUPTED -> th_waits_on th <> None -> el_core n (<[t := woken r th]> T) L pc.
Proof.
  intros Hc Ht Hr Hblk. split.
  - apply Hc.
  - intros t' th' x [[<- <-]|[Hne Ht']]%lookup_insert_Some Hwx Hx; [done|]. by apply (ec_wait _ _ _ _ Hc t' th' x).
  - intros t1 t2 th1 th2 x [[<- <-]|[? H1]]%lookup_insert_Some [[<- <-]|[? H2]]%lookup_insert_Some ???; try done.
    by eapply (ec_one _ _ _ _ Hc).
  - intros t' x c o Hp. destruct (ec_pc _ _ _ _ Hc t' x c o Hp) as (Hx&Hnz&th0&Ht0&Hcase). split; [done|]. split; [done|].
    destruct (decide (t' = t)) as [->|].
    + exists (woken r th). rewrite lookup_insert_eq. split; [done|]. right. split; [done|]. simpl.
      split; [unfold wait_over; destruct Hr; auto|]. by destruct Hr as [-> | ->].
    + exists th0. by rewrite lookup_insert_ne.
Qed.
(** The thread leaves the section after its wait. *)
Lemma el_core_leave n T L pc t th : el_core n T L pc -> T !! t = Some th -> th_waits_on th = None -> el_core n T L (delete t pc).
Proof.
  intros Hc Ht Hrun. split; [apply Hc| |apply Hc|].
  - intros t' th' x Ht' Hwx Hx. destruct (ec_wait _ _ _ _ Hc t' th' x Ht' Hwx Hx) as (el&old&He&Hp&?). exists el, old.
    rewrite lookup_delete_ne; [done|]. intros <-. rewrite Ht in Ht'. injection Ht' as <-. unfold waits in Hwx. congruence.
  - intros t' x c o [_ Hp]%lookup_delete_Some. by eapply (ec_pc _ _ _ _ Hc t').
Qed.

(** ** Execution

    The parts of the state the sections work on. *)
Record el_at (s : est) (T : threads) (L : gmap Z ipc_eventlink) (P : gmap Z ipc_port) (v : bool) (h : Z) : Prop := {
  ea_threads : ks_threads (e_kst s) = T;
  ea_links : e_links s = L;
  ea_ports : ks_ports (e_kst s) = P;
  ea_base : exists b, e_bases s !! base = Some b /\ elb_valid b = v;
  ea_handoff : e_handoff_thread s = h;
}.

Section rules.
Context `{KernelConfig} `{Externals} `{Messages} `{Handoff}.
Context (s : est) (T : threads) (L : gmap Z ipc_eventlink) (P : gmap Z ipc_port) (v : bool) (h : Z).
Context (Hat : el_at s T L P v h).

Lemma wp_onk {A} (m : M kst A) (Q : A -> est -> Prop) :
  wp m (fun x k => Q x (set_e_kst k s)) (e_kst s) -> wp (onk m) Q s.
Proof using. unfold wp, onk. by destruct (m (e_kst s)) as [[??]| |]. Qed.
Lemma el_get_link a el Q : L !! a = Some el -> Q el s -> wp (get_link a) Q s.
Proof using Hat. destruct Hat as [_ <- _ _ _]. unfold wp, get_link. by intros ->. Qed.
Lemma el_put_link a el Q : (forall s', el_at s' T (<[a := el]> L) P v h -> Q tt s') -> wp (put_link a el) Q s.
Proof using Hat. intros HQ. apply wp_modify, HQ. destruct Hat as [<- <- <- ? <-]. by split. Qed.
Lemma el_mod_link a el f Q : L !! a = Some el -> (forall s', el_at s' T (<[a := f el]> L) P v h -> Q tt s') ->
  wp (mod_link a f) Q s.
Proof using Hat. intros He HQ. apply wp_bind, (el_get_link _ el); [done|]. by apply el_put_link. Qed.
Lemma el_active a el Q : L !! a = Some el -> el_base el = base -> Q v s -> wp (ipc_eventlink_active a) Q s.
Proof using Hat.
  intros He Hb HQ. apply wp_bind, (el_get_link _ el); [done|]. apply wp_bind. rewrite Hb.
  destruct Hat as [_ _ _ (b&Hbs&<-) _]. unfold wp, get_base. rewrite Hbs. by apply wp_ret.
Qed.
Lemma el_mod_thread t th f Q : T !! t = Some th -> (forall s', el_at s' (<[t := f th]> T) L P v h -> Q tt s') ->
  wp (onk (mod_thread t f)) Q s.
Proof using Hat.
  intros Ht HQ. destruct Hat as [<- <- <- ? <-]. apply wp_onk, wp_bind. unfold wp, get_thread. rewrite Ht.
  apply wp_modify, HQ. by split.
Qed.
Lemma el_get_thread t th Q : T !! t = Some th -> Q th s -> wp (onk (get_thread t)) Q s.
Proof using Hat.
  intros Ht HQ. destruct Hat as [<- _ _ _ _]. unfold wp, onk, get_thread. rewrite Ht. by destruct s.
Qed.
Lemma el_emit f args Q : (forall s', el_at s' T L P v h -> Q tt s') -> wp (onk (emit f args)) Q s.
Proof using Hat. intros HQ. apply wp_onk, wp_emit, HQ. destruct Hat as [<- <- <- ? <-]. by split. Qed.
Lemma el_get_handoff Q : Q h s -> wp (gets e_handoff_thread) Q s.
Proof using Hat. intros HQ. apply wp_gets. by destruct Hat as [_ _ _ _ ->]. Qed.
Lemma el_set_handoff h' Q : (forall s', el_at s' T L P v h' -> Q tt s') -> wp (modify (set_e_handoff_thread h')) Q s.
Proof using Hat. intros HQ. apply wp_modify, HQ. destruct Hat as [<- <- <- ? <-]. by split. Qed.
End rules.

Section sections.
Context `{KernelConfig} `{Externals} `{Messages} `{Handoff}.

Lemma wakeup_all_ok s T L P v h a Q : el_at s T L P v h ->
  (forall kr s', el_at s' (release a THREAD_RESTART T) L P v h -> Q kr s') -> wp (wakeup_all a) Q s.
Proof using.
  intros Hat HQ. apply wp_bind, wp_gets, wp_bind, wp_onk, wp_modify, wp_ret, HQ.
  destruct Hat as [<- <- <- ? <-]. by split.
Qed.

(** A signal wakes the one thread that waits. *)
Lemma wakeup_one_ok s T L P v a handoff Q : el_at s T L P v THREAD_NULL ->
  (forall t t' th th', T !! t = Some th -> T !! t' = Some th' -> waits a EVENTLINK th -> waits a EVENTLINK th' -> t = t') ->
  (forall kr h s', el_at s' (release a THREAD_AWAKENED T) L P v h -> (kr = KERN_SUCCESS \/ kr = KERN_NOT_WAITING) ->
     (kr = KERN_NOT_WAITING \/ handoff = false -> h = THREAD_NULL) -> Q kr s') -> wp (wakeup_one a handoff) Q s.
Proof using.
  intros Hat Hone HQ. apply wp_bind, wp_gets. destruct (decide _) as [Hno|Hsome].
  - apply wp_ret, (HQ _ THREAD_NULL); [|by right|done]. replace (release a THREAD_AWAKENED T) with T; [done|].
    apply map_eq. intros t. apply option_eq. intros th'. rewrite release_lookup. split; [|intros (th&Ht&->)].
    + intros Ht. exists th'. split; [done|]. rewrite decide_False; [done|]. intros Hw.
      apply (not_elem_of_empty t (C:=gset Z)). rewrite <- Hno. apply elem_of_waiters. exists th'. destruct Hat as [-> _ _ _ _]. done.
    + rewrite decide_False; [done|]. intros Hw.
      apply (not_elem_of_empty t (C:=gset Z)). rewrite <- Hno. apply elem_of_waiters. exists th. destruct Hat as [-> _ _ _ _]. done.
  - apply wp_bind, wp_gets, wp_bind, wp_gets.
    pose proof (waitq_pick_in (e_kst s) _ Hsome) as Hin. apply elem_of_waiters in Hin as (th&Ht&Hw).
    set (t := waitq_pick _ _) in *. rewrite (ea_threads _ _ _ _ _ _ Hat) in Ht.
    assert (<[t := woken THREAD_AWAKENED th]> T = release a THREAD_AWAKENED T) as HT.
    { apply map_eq. intros t'. apply option_eq. intros th'. rewrite release_lookup, lookup_insert_Some. split.
      - intros [[<- <-]|[Hne Ht']]; [exists th; by rewrite decide_True|]. exists th'. rewrite decide_False; [done|].
        intros Hw'. by destruct Hne; eapply Hone.
      - intros (th0&Ht0&->). case_decide as Hd.
        + assert (t = t') as <- by (by eapply Hone). left. split; [done|]. congruence.
        + right. split; [|done]. intros <-. congruence. }
    apply wp_bind, (el_mod_thread _ _ _ _ _ _ Hat _ th); [done|]. rewrite HT. intros s1 Hat1.
    apply wp_bind, wp_when.
    + intros Hh. apply andb_true_iff in Hh as [-> _].
      apply wp_bind, (el_get_handoff _ _ _ _ _ _ Hat1), wp_bind, wp_massert; [done|].
      apply wp_bind, (el_emit _ _ _ _ _ _ Hat1). intros s2 Hat2. apply (el_set_handoff _ _ _ _ _ _ Hat2). intros s3 Hat3.
      apply wp_ret, (HQ _ t); [done|by left|]. by intros [?|?].
    + intros _. apply wp_ret, (HQ _ THREAD_NULL); [done|by left|done].
Qed.

(** The ports of a live eventlink, and the threads of a dead one. *)
Definition live_ports (L : gmap Z ipc_eventlink) (P : gmap Z ipc_port) : Prop :=
  forall a, side a -> exists el p, L !! a = Some el /\ el_port el <> IP_NULL /\ P !! el_port el = Some p /\
    1 <= io_references p < OS_REFCNT_MAX_COUNT.
Definition no_waiter (a : Z) (T : threads) : Prop := forall t th, T !! t = Some th -> ~ waits a EVENTLINK th.
Record el_inv (n : Z) (T : threads) (L : gmap Z ipc_eventlink) (P : gmap Z ipc_port) (v : bool) (pc : sleepers) : Prop := {
  ei_core : el_core n T L pc;
  ei_live : v = true -> live_ports L P;
  ei_dead : v = false -> forall a, side a -> no_waiter a T;
}.

(** The ports stay, and no thread begins to wait. *)
Definition calm (T : threads) (L : gmap Z ipc_eventlink) (T' : threads) (L' : gmap Z ipc_eventlink) : Prop :=
  (forall x, el_port <$> L' !! x = el_port <$> L !! x) /\
  (forall t th', T' !! t = Some th' -> th_waits_on th' <> None -> T !! t = Some th').
Lemma calm_link T L a el el' : L !! a = Some el -> el_port el' = el_port el -> calm T L T (<[a := el']> L).
Proof using.
  intros He Hp. split; [|done]. intros x. destruct (decide (x = a)) as [->|].
  - by rewrite lookup_insert_eq, He; simpl; rewrite Hp.
  - by rewrite lookup_insert_ne.
Qed.
Lemma calm_release T L a r L' : calm T L T L' -> calm T L (release a r T) L'.
Proof using.
  intros [? _]. split; [done|]. intros t th' (th&Ht&->)%release_lookup Hw. case_decide; [done|]. done.
Qed.
Lemma calm_trans T L T1 L1 T2 L2 : calm T L T1 L1 -> calm T1 L1 T2 L2 -> calm T L T2 L2.
Proof using. intros [HL HT] [HL' HT']. split; [intros x; by rewrite HL'|]. intros t th' Ht Hw. apply HT; [by apply HT'|done]. Qed.
Lemma calm_live T L T' L' P : calm T L T' L' -> live_ports L P -> live_ports L' P.
Proof using.
  intros [HL _] Hp a Ha. destruct (Hp a Ha) as (el&p&He&Hn&HP&Hr). specialize (HL a). rewrite He in HL.
  destruct (L' !! a) as [el'|]; [|done]. injection HL as HL. exists el', p. by rewrite HL.
Qed.
Lemma calm_dead T L T' L' a : calm T L T' L' -> no_waiter a T -> no_waiter a T'.
Proof using. intros [_ HT] Hn t th Ht Hw. apply (Hn t th); [|done]. apply HT; [done|]. unfold waits in Hw. congruence. Qed.
Lemma inv_calm n n' T L T' L' P v pc pc' : el_inv n T L P v pc -> calm T L T' L' -> el_core n' T' L' pc' ->
  el_inv n' T' L' P v pc'.
Proof using.
  intros [_ Hl Hd] Hc Hcore. split; [done| |].
  - intros Hv. eapply calm_live; [done|by apply Hl].
  - intros Hv a Ha. eapply calm_dead; [done|by apply Hd].
Qed.

(** ** Signals *)
Lemma signal_force_ok s T L P v h a el Q : el_at s T L P v h -> L !! a = Some el ->
  (forall kr s', el_at s' (release a THREAD_RESTART T) (<[a := set_el_wait_counter UINT64_MAX el]> L) P v h -> Q kr s') ->
  wp (ipc_eventlink_signal_internal_locked a IPC_EVENTLINK_FORCE_WAKEUP) Q s.
Proof using.
  intros Hat He HQ. unfold ipc_eventlink_signal_internal_locked. change (has IPC_EVENTLINK_FORCE_WAKEUP IPC_EVENTLINK_FORCE_WAKEUP) with true. cbv iota.
  apply wp_bind, (el_mod_link _ _ _ _ _ _ Hat _ el); [done|]. intros s1 Hat1. by apply (wakeup_all_ok _ _ _ _ _ _ _ _ Hat1).
Qed.

Lemma signal_ok n s T L P v a option pc Q : el_at s T L P v THREAD_NULL -> el_core n T L pc -> side a -> n + 1 < 2 ^ 64 ->
  has option IPC_EVENTLINK_FORCE_WAKEUP = false ->
  (forall kr s' T' L' h, el_at s' T' L' P v h -> el_core (n + 1) T' L' pc -> calm T L T' L' ->
    (forall x, x <> a -> L' !! x = L !! x) ->
    (kr = KERN_SUCCESS \/ kr = KERN_NOT_WAITING) ->
    (kr = KERN_NOT_WAITING \/ has option IPC_EVENTLINK_HANDOFF = false -> h = THREAD_NULL) -> Q kr s') ->
  wp (ipc_eventlink_signal_internal_locked a option) Q s.
Proof using.
  intros Hat Hc Ha Hn Hf HQ. unfold ipc_eventlink_signal_internal_locked. rewrite Hf.
  destruct (ec_link _ _ _ _ Hc a Ha) as (el&He&Hb&Hsync).
  assert (u64 (el_sync_counter el + 1) = el_sync_counter el + 1) as Hu by (unfold u64; rewrite Z.mod_small; lia).
  apply wp_bind, (el_mod_link _ _ _ _ _ _ Hat _ el); [done|]. rewrite Hu. intros s1 Hat1.
  set (el1 := set_el_sync_counter _ _) in *. apply wp_bind, (el_get_link _ _ _ _ _ _ Hat1 _ el1); [apply lookup_insert_eq|].
  destruct (Z.ltb_spec (el_wait_counter el1) (el_sync_counter el1)) as [Hlt|Hge].
  - apply wp_bind, (el_mod_link _ _ _ _ _ _ Hat1 _ el1); [apply lookup_insert_eq|]. rewrite insert_insert_eq. intros s2 Hat2.
    set (el2 := set_el_wait_counter _ _) in *.
    assert (el_core (n + 1) (release a THREAD_AWAKENED T) (<[a := el2]> L) pc) as Hc'.
    { eapply core_release; [done..| | | |]; simpl; try lia; [by left|]. intros _. simpl in Hlt. done. }
    apply (wakeup_one_ok _ _ _ _ _ _ _ _ Hat2); [intros; by eapply (ec_one _ _ _ _ Hc)|]. intros kr h s3 Hat3 Hkr Hh.
    apply (HQ kr s3 _ _ h Hat3 Hc'); [|by intros x Hx; rewrite lookup_insert_ne|done|done].
    apply calm_release. by eapply calm_link.
  - apply wp_ret, (HQ _ s1 _ _ THREAD_NULL Hat1); [by eapply core_count|by eapply calm_link| |by right|done].
    intros x Hx. by rewrite lookup_insert_ne.
Qed.

Lemma core_mono n n' T L pc : el_core n T L pc -> n <= n' -> el_core n' T L pc.
Proof using.
  intros [Hl Hw Ho Hp] Hn. split; [|done..]. intros a Ha. destruct (Hl a Ha) as (el&?&?&?). exists el.
  split; [done|]. split; [done|lia].
Qed.
(** Nobody waits on a side that is not for a thread. *)
Lemma free_no_waiter n T L pc a el : el_core n T L pc -> side a -> L !! a = Some el ->
  (el_thread el = THREAD_NULL \/ el_wait_counter el = UINT64_MAX) -> no_waiter a T.
Proof using.
  intros Hc Ha He Hfree t th Ht Hw. destruct (ec_wait _ _ _ _ Hc t th a Ht Hw Ha) as (el'&old&He'&Hp&Hth&Hr).
  rewrite He in He'. injection He' as <-. destruct (ec_pc _ _ _ _ Hc _ _ _ _ Hp) as (_&[Hnz _]&_).
  destruct Hfree as [E|E]; [|lia]. rewrite E in Hth. unfold THREAD_NULL, THREAD_ASSOCIATE_WILD in *. naive_solver lia.
Qed.

Lemma eventlink_signal_ok n s T L P v a pc : el_at s T L P v THREAD_NULL -> el_inv n T L P v pc -> side a -> n + 1 < 2 ^ 64 ->
  wp (ipc_eventlink_signal a) (fun _ s' => exists T' L', el_at s' T' L' P v THREAD_NULL /\ el_inv (n + 1) T' L' P v pc) s.
Proof using.
  intros Hat Hi Ha Hn. pose proof (ei_core _ _ _ _ _ _ Hi) as Hc. destruct (ec_link _ _ _ _ Hc a Ha) as (el&He&Hb&_).
  assert (el_inv (n + 1) T L P v pc) as Hi' by (split; [eapply core_mono; [done|lia]|apply Hi..]).
  unfold ipc_eventlink_signal. destruct (a =? IPC_EVENTLINK_NULL); [apply wp_ret; by exists T, L|].
  apply wp_bind, (el_active _ _ _ _ _ _ Hat _ el); [done..|]. destruct v; [|apply wp_ret; by exists T, L]. cbn [negb].
  apply wp_bind, (signal_ok n _ _ _ _ _ _ _ pc _ Hat); [done..|]. intros kr s1 T1 L1 h Hat1 Hc1 Hcalm _ _ Hh.
  rewrite (Hh ltac:(by right)) in Hat1. apply wp_ret. exists T1, L1. split; [done|]. by eapply inv_calm.
Qed.

(** ** Waits *)
Definition sleeping (self a : Z) (o : wait_outcome) (pc : sleepers) : sleepers :=
  match o with
  | Waited _ _ => pc
  | WaitBlocked count old => <[self := (a, count, old)]> pc
  end.

Section wait.
Context (n : Z) (P : gmap Z ipc_port) (self a sig count option : Z).
Context (Ha : side a) (Hsig : sig = IPC_EVENTLINK_NULL \/ side sig) (Hn : n + 1 < 2 ^ 64)
        (Hopt : option = IPC_EVENTLINK_NONE \/ option = IPC_EVENTLINK_NO_WAIT).

(** The other side is signalled, if at all, after the wait is set up. *)
Lemma wait_signal_ok s T L v pc opt (Q : unit -> est -> Prop) : el_at s T L P v THREAD_NULL -> el_core n T L pc ->
  has opt IPC_EVENTLINK_FORCE_WAKEUP = false ->
  (forall s' T' L' h, el_at s' T' L' P v h -> el_core (n + 1) T' L' pc -> calm T L T' L' ->
     (has opt IPC_EVENTLINK_HANDOFF = false -> h = THREAD_NULL) -> Q tt s') ->
  wp (when (negb (sig =? IPC_EVENTLINK_NULL))
      (let* signal_kr := ipc_eventlink_signal_internal_locked sig opt in
       when (bool_decide (signal_kr = KERN_NOT_WAITING))
         (let* h := gets e_handoff_thread in massert (h =? THREAD_NULL) "self->handoff_thread == THREAD_NULL"))) Q s.
Proof using Hsig Hn.
  intros Hat Hc Hf HQ. destruct (Z.eqb_spec sig IPC_EVENTLINK_NULL) as [|Hne]; cbn [negb when].
  - eapply (HQ s T L THREAD_NULL); [done|eapply core_mono; [done|lia]|done|done].
  - destruct Hsig as [?|Hs]; [done|]. apply wp_bind, (signal_ok n _ _ _ _ _ _ _ pc _ Hat); [done..|].
    intros kr s1 T1 L1 h Hat1 Hc1 Hcalm _ Hkr Hh. apply wp_when.
    + intros Hk%bool_decide_eq_true. apply wp_bind, (el_get_handoff _ _ _ _ _ _ Hat1), wp_massert.
      * by rewrite (Hh ltac:(by left)).
      * eapply HQ; [done..|]. intros _. apply Hh. by left.
    + intros _. eapply HQ; [done..|]. intros ?. apply Hh. by right.
Qed.

Lemma wait_enter_ok s T L v pc th : el_at s T L P v THREAD_NULL -> el_inv n T L P v pc ->
  T !! self = Some th -> th_waits_on th = None -> pc !! self = None -> self <> THREAD_NULL -> 0 <= count < UINT64_MAX ->
  wp (wait_enter self a sig count option)
    (fun o s' => exists T' L', el_at s' T' L' P v THREAD_NULL /\ el_inv (n + 1) T' L' P v (sleeping self a o pc)) s.
Proof using Ha Hsig Hn Hopt.
  intros Hat Hi Hself Hrun Hpc Hnz Hcount. pose proof (ei_core _ _ _ _ _ _ Hi) as Hc.
  destruct (ec_link _ _ _ _ Hc a Ha) as (el&He&Hb&Hsy).
  assert (el_inv (n + 1) T L P v pc) as Hi' by (split; [eapply core_mono; [done|lia]|apply Hi..]).
  assert (has option IPC_EVENTLINK_FORCE_WAKEUP = false /\ has option IPC_EVENTLINK_HANDOFF = false) as [Hf Hho]
    by (destruct Hopt as [-> | ->]; done).
  (* the ends that do not block *)
  assert (forall kr c s' T' L', el_at s' T' L' P v THREAD_NULL -> el_inv (n + 1) T' L' P v pc ->
    wp (let* h := gets e_handoff_thread in
        massert (h =? THREAD_NULL) "self->handoff_thread == THREAD_NULL" ;;* ret (Waited kr c))
      (fun o s' => exists T' L', el_at s' T' L' P v THREAD_NULL /\ el_inv (n + 1) T' L' P v (sleeping self a o pc)) s') as Hend.
  { intros kr c s' T' L' Hat' Hinv. apply wp_bind, (el_get_handoff _ _ _ _ _ _ Hat'), wp_bind, wp_massert; [done|].
    apply wp_ret. by exists T', L'. }
  assert (forall kr c (Q := fun o s' => exists T' L', el_at s' T' L' P v THREAD_NULL /\ el_inv (n + 1) T' L' P v (sleeping self a o pc)),
    wp (when (negb (sig =? IPC_EVENTLINK_NULL))
      (let* signal_kr := ipc_eventlink_signal_internal_locked sig option in
       when (bool_decide (signal_kr = KERN_NOT_WAITING))
         (let* h := gets e_handoff_thread in massert (h =? THREAD_NULL) "self->handoff_thread == THREAD_NULL")) ;;*
       let* h := gets e_handoff_thread in
       massert (h =? THREAD_NULL) "self->handoff_thread == THREAD_NULL" ;;* ret (Waited kr c)) Q s) as Hsend.
  { intros kr c Q. apply wp_bind, (wait_signal_ok s T L v pc); [done..|]. intros s1 T1 L1 h Hat1 Hc1 Hcalm Hh.
    rewrite (Hh Hho) in Hat1. eapply Hend; [done|]. by eapply inv_calm. }
  unfold wait_enter. apply wp_bind, (el_active _ _ _ _ _ _ Hat _ el); [done..|].
  apply wp_bind, (el_get_link _ _ _ _ _ _ Hat _ el); [done|]. destruct v; cbn [negb]; [|by eapply Hend].
  destruct (negb (el_thread el =? THREAD_ASSOCIATE_WILD) && negb (el_thread el =? self)) eqn:E1; [by eapply Hend|].
  destruct ((el_thread el =? THREAD_ASSOCIATE_WILD) && negb (el_wait_counter el =? UINT64_MAX)) eqn:E2; [by eapply Hend|].
  destruct (Z.ltb_spec count (el_sync_counter el)) as [|Hge]; [apply Hsend|].
  destruct (has option IPC_EVENTLINK_NO_WAIT) eqn:E3; [apply Hsend|].
  assert (option = IPC_EVENTLINK_NONE) as -> by (destruct Hopt as [?| ->]; [done|discriminate E3]).
  (* nobody waits on the side *)
  assert (no_waiter a T) as Hno.
  { destruct (Z.eqb_spec (el_thread el) THREAD_ASSOCIATE_WILD) as [Hwild|Hwild]; cbn [negb andb] in *.
    - eapply free_no_waiter; [done..|]. right. destruct (Z.eqb_spec (el_wait_counter el) UINT64_MAX); [done|done].
    - destruct (Z.eqb_spec (el_thread el) self) as [Hs|]; [|done]. intros t th' Ht Hw.
      destruct (ec_wait _ _ _ _ Hc t th' a Ht Hw Ha) as (el'&old&He'&Hp&Hth&Hr). rewrite He in He'. injection He' as <-.
      destruct Hth as [E|]; [|done]. rewrite <- E, Hs in Ht. rewrite Hself in Ht. injection Ht as <-. unfold waits in Hw. congruence. }
  assert (el_thread el = self \/ el_thread el = THREAD_ASSOCIATE_WILD) as Hth by (zcase; naive_solver).
  apply wp_bind, (el_put_link _ _ _ _ _ _ Hat). intros s1 Hat1. apply wp_bind, wp_gets.
  apply wp_bind, (el_mod_thread _ _ _ _ _ _ Hat1 _ th); [done|]. intros s2 Hat2.
  set (th' := if thread_abort_pending (e_kst s1) self then _ else _) in Hat2.
  assert (waits a EVENTLINK th' \/ th_waits_on th' = None /\ th_wait_result th' = THREAD_INTERRUPTED) as Hth'
    by (unfold th'; destruct (thread_abort_pending _ _); [by right|by left]).
  assert (forall old, el_core n (<[self := th']> T) (<[a := set_el_wait_counter count el]> L) (<[self := (a, count, old)]> pc)) as Hblk
    by (intros old; eapply (core_block n T L pc a el self th); done || lia).
  apply wp_bind, (wait_signal_ok s2 _ _ true _ _ _ Hat2 (Hblk (el_sync_counter el))); [done|].
  intros s3 T3 L3 h Hat3 Hc3 Hcalm _. apply wp_bind, (el_get_handoff _ _ _ _ _ _ Hat3), wp_bind, (el_set_handoff _ _ _ _ _ _ Hat3).
  intros s4 Hat4. apply wp_bind, (el_emit _ _ _ _ _ _ Hat4). intros s5 Hat5. apply wp_ret. exists T3, L3. split; [done|].
  split; [done| |done]. intros _. eapply calm_live; [done|].
  eapply calm_live; [eapply (calm_link T); done|]. by apply (ei_live _ _ _ _ _ _ Hi).
Qed.
End wait.

(** The end of a wait: by a signal that came, and then with a count that was reached, or not. *)
Lemma wait_resume_ok n s T L P v pc t a count old th : el_at s T L P v THREAD_NULL -> el_core n T L pc -> n < 2 ^ 64 ->
  pc !! t = Some (a, count, old) -> T !! t = Some th -> th_waits_on th = None ->
  wp (wait_resume t count old) (fun r s' => s' = s /\
    (r = (KERN_SUCCESS, count + 1) /\ (exists el, L !! a = Some el /\ count < el_sync_counter el) \/
     (r.1 = KERN_OPERATION_TIMED_OUT \/ r.1 = KERN_ABORTED \/ r.1 = KERN_TERMINATED) /\ r.2 = old)) s.
Proof using.
  intros Hat Hc Hn Hp Ht Hrun. destruct (ec_pc _ _ _ _ Hc t a count old Hp) as (Ha&[_ Hcount]&th'&Ht'&Hcase).
  rewrite Ht in Ht'. injection Ht' as <-. destruct Hcase as [Hw|(_&Hov&Haw)]; [unfold waits in Hw; congruence|].
  apply wp_bind, (el_get_thread _ _ _ _ _ _ Hat _ th); [done|].
  destruct Hov as [E|[E|[E|E]]]; rewrite E; cbn [ipc_eventlink_convert_wait_result];
    apply wp_bind, wp_ret, wp_bind, (el_get_handoff _ _ _ _ _ _ Hat), wp_bind, wp_massert, wp_ret; try done;
    (split; [done|]); simpl; try naive_solver.
  left. destruct (Haw E) as (el&He&Hlt). destruct (side_link _ _ _ _ _ _ Hc Ha He) as [_ ?].
  split; [|by exists el]. unfold u64. by rewrite Z.mod_small by lia.
Qed.

(** ** Association *)
Lemma release_none a r T : no_waiter a T -> release a r T = T.
Proof using.
  intros Hno. apply map_eq. intros t. apply option_eq. intros th'. rewrite release_lookup. split.
  - intros (th&Ht&->). rewrite decide_False; [done|]. by eapply Hno.
  - intros Ht. exists th'. rewrite decide_False; [done|]. by eapply Hno.
Qed.
Lemma core_free_link n T L pc a el el' : el_core n T L pc -> side a -> L !! a = Some el -> no_waiter a T ->
  el_base el' = base -> el_sync_counter el' = el_sync_counter el -> el_core n T (<[a := el']> L) pc.
Proof using.
  intros Hc Ha He Hno Hb Hs. destruct (side_link _ _ _ _ _ _ Hc Ha He) as [_ ?].
  rewrite <- (release_none a THREAD_RESTART T Hno). eapply core_release; [done..| | | |]; try lia; [|done].
  unfold wait_over. auto.
Qed.

Lemma associate_ok n s T L P v pc a thread copyin option : el_at s T L P v THREAD_NULL -> el_inv n T L P v pc -> side a ->
  wp (mach_eventlink_associate a thread copyin option)
    (fun _ s' => exists L', el_at s' T L' P v THREAD_NULL /\ el_inv n T L' P v pc) s.
Proof using.
  intros Hat Hi Ha. pose proof (ei_core _ _ _ _ _ _ Hi) as Hc. destruct (ec_link _ _ _ _ Hc a Ha) as (el&He&Hb&_).
  unfold mach_eventlink_associate. destruct (a =? IPC_EVENTLINK_NULL); [apply wp_ret; by exists L|].
  destruct copyin; [apply wp_ret; by exists L|]. destruct (_ || _); [apply wp_ret; by exists L|].
  apply wp_bind, (el_active _ _ _ _ _ _ Hat _ el); [done..|]. destruct v; [|apply wp_ret; by exists L]. cbn [negb].
  apply wp_bind, (el_get_link _ _ _ _ _ _ Hat _ el); [done|].
  destruct (Z.eqb_spec (el_thread el) THREAD_NULL) as [Hnull|]; [|apply wp_ret; by exists L]. cbn [negb].
  assert (forall w, el_inv n T (<[a := set_el_thread w el]> L) P true pc) as Hset.
  { intros w. eapply inv_calm; [done|by eapply calm_link|]. eapply core_free_link; [done..| |done|done].
    eapply free_no_waiter; [done..|]. by left. }
  destruct (option =? MELA_OPTION_ASSOCIATE_ON_WAIT).
  - apply wp_bind, (el_put_link _ _ _ _ _ _ Hat). intros s1 Hat1. apply wp_ret. eexists. split; [done|apply Hset].
  - apply wp_bind, (el_emit _ _ _ _ _ _ Hat). intros s1 Hat1. apply wp_bind, (el_put_link _ _ _ _ _ _ Hat1). intros s2 Hat2.
    apply wp_ret. eexists. split; [done|apply Hset].
Qed.

Lemma disassociate_ok n s T L P v pc a option : el_at s T L P v THREAD_NULL -> el_inv n T L P v pc -> side a ->
  wp (mach_eventlink_disassociate a option)
    (fun _ s' => exists T' L', el_at s' T' L' P v THREAD_NULL /\ el_inv n T' L' P v pc) s.
Proof using.
  intros Hat Hi Ha. pose proof (ei_core _ _ _ _ _ _ Hi) as Hc. destruct (ec_link _ _ _ _ Hc a Ha) as (el&He&Hb&Hs).
  unfold mach_eventlink_disassociate. destruct (a =? IPC_EVENTLINK_NULL); [apply wp_ret; by exists T, L|].
  destruct (negb _); [apply wp_ret; by exists T, L|].
  apply wp_bind, (el_active _ _ _ _ _ _ Hat _ el); [done..|]. destruct v; [|apply wp_ret; by exists T, L]. cbn [negb].
  apply wp_bind, (el_get_link _ _ _ _ _ _ Hat _ el); [done|]. destruct (el_thread el =? THREAD_NULL); [apply wp_ret; by exists T, L|].
  apply wp_bind, (el_put_link _ _ _ _ _ _ Hat). intros s1 Hat1.
  apply wp_bind, (signal_force_ok _ _ _ _ _ _ _ (set_el_thread THREAD_NULL el) _ Hat1); [apply lookup_insert_eq|].
  intros kr s2 Hat2. rewrite insert_insert_eq in Hat2.
  assert (el_inv n (release a THREAD_RESTART T) (<[a := set_el_wait_counter UINT64_MAX (set_el_thread THREAD_NULL el)]> L) P true pc) as Hi'.
  { eapply inv_calm; [done|apply calm_release; by eapply calm_link|]. eapply core_release; [done..| | | |]; simpl; try lia; [|done].
    unfold wait_over. auto. }
  apply wp_bind, wp_when; intros _.
  - apply (el_emit _ _ _ _ _ _ Hat2). intros s3 Hat3. apply wp_ret. by eexists _, _.
  - apply wp_ret. by eexists _, _.
Qed.

(** ** Destruction *)
Lemma destroy_side_ok n s T L P v h pc a x el : el_at s T L P v h -> el_core n T L pc -> side x -> L !! x = Some el ->
  el_port el <> IP_NULL ->
  (x <> a -> exists p, P !! el_port el = Some p /\ 1 <= io_references p < OS_REFCNT_MAX_COUNT) ->
  wp (destroy_side a x) (fun _ s' => exists el' P', el_at s' (release x THREAD_RESTART T) (<[x := el']> L) P' v h /\
    (x = a -> P' = P) /\ el_core n (release x THREAD_RESTART T) (<[x := el']> L) pc) s.
Proof using.
  intros Hat Hc Hx He Hport Hp. destruct (side_link _ _ _ _ _ _ Hc Hx He) as [Hb Hs].
  apply wp_bind, (el_get_link _ _ _ _ _ _ Hat _ el); [done|].
  apply wp_bind, (wp_mono _ (fun _ s' => exists el1, el_at s' (release x THREAD_RESTART T) (<[x := el1]> L) P v h /\
    el_base el1 = base /\ el_sync_counter el1 = el_sync_counter el)).
  { apply wp_when.
    - intros _. apply wp_bind, (el_put_link _ _ _ _ _ _ Hat). intros s1 Hat1. apply wp_bind.
      apply (signal_force_ok _ _ _ _ _ _ _ (set_el_thread THREAD_NULL el) _ Hat1); [apply lookup_insert_eq|].
      intros kr s2 Hat2. rewrite insert_insert_eq in Hat2. apply wp_ret. by eexists.
    - intros Hnull%negb_false_iff%Z.eqb_eq. exists el. rewrite insert_id, release_none by (done || eapply free_no_waiter; eauto). done. }
  intros _ s1 (el1&Hat1&Hb1&Hs1). apply wp_bind, wp_massert; [by destruct (Z.eqb_spec (el_port el) IP_NULL)|].
  assert (forall w, el_core n (release x THREAD_RESTART T) (<[x := set_el_port w el1]> L) pc) as Hc'.
  { intros w. eapply core_release; [done..| | | |]; simpl; try lia; [|done]. unfold wait_over. auto. }
  apply wp_bind, (wp_mono _ (fun _ s' => exists P', el_at s' (release x THREAD_RESTART T) (<[x := el1]> L) P' v h /\ (x = a -> P' = P))).
  { apply wp_when.
    - intros Hne%negb_true_iff%Z.eqb_neq. destruct (Hp Hne) as (p&Hpp&Hr). apply wp_onk.
      destruct Hat1 as [E1 E2 E3 E4 E5]. apply (wp_ip_reference _ _ p); [by rewrite E3|done|].
      exists (<[el_port el := set_io_references (io_references p + 1) p]> P). split; [|done]. split; [done|done| |done|done].
      simpl. by rewrite E3.
    - intros _. by exists P. }
  intros _ s2 (P'&Hat2&HP'). apply wp_bind, (el_mod_link _ _ _ _ _ _ Hat2 _ el1); [apply lookup_insert_eq|].
  rewrite insert_insert_eq. intros s3 Hat3. apply wp_ret. eexists _, P'. split; [done|]. split; [done|]. apply Hc'.
Qed.

Lemma released_no_waiter a r T : no_waiter a (release a r T).
Proof using. intros t th' (th&Ht&->)%release_lookup. by case_decide. Qed.
Lemma release_keeps_none a x r T : no_waiter a T -> no_waiter a (release x r T).
Proof using. intros Hno t th' (th&Ht&->)%release_lookup. case_decide; [done|]. by eapply Hno. Qed.

Lemma destroy_ok n s T L P v pc a : el_at s T L P v THREAD_NULL -> el_inv n T L P v pc -> side a ->
  wp (destroy_locked a) (fun _ s' => exists T' L' P' v', el_at s' T' L' P' v' THREAD_NULL /\ el_inv n T' L' P' v' pc) s.
Proof using.
  intros Hat Hi Ha. pose proof (ei_core _ _ _ _ _ _ Hi) as Hc. destruct (ec_link _ _ _ _ Hc a Ha) as (el&He&Hb&Hs).
  apply wp_bind, (el_active _ _ _ _ _ _ Hat _ el); [done..|]. destruct v; [|apply wp_ret; by exists T, L, P, false]. cbn [negb].
  pose proof (ei_live _ _ _ _ _ _ Hi eq_refl) as Hlive.
  apply wp_bind, (el_get_link _ _ _ _ _ _ Hat _ el); [done|]. rewrite Hb.
  set (x0 := elb_eventlink base 0). set (x1 := elb_eventlink base 1).
  assert (x0 <> x1) as H01 by (unfold x0, x1, elb_eventlink; lia).
  destruct (Hlive x0) as (e0&p0&He0&Hn0&HP0&Hr0); [by left|]. destruct (Hlive x1) as (e1&p1&He1&Hn1&HP1&Hr1); [by right|].
  apply wp_bind. eapply wp_mono; [eapply (destroy_side_ok n _ _ _ _ _ _ pc a x0 e0 Hat Hc); [by left|done..|by intros _; exists p0]|].
  intros [t0 q0] s1 (e0'&P1&Hat1&HP&Hc1). apply wp_bind. eapply wp_mono.
  { eapply (destroy_side_ok n _ _ _ _ _ _ pc a x1 e1 Hat1 Hc1); [by right|by rewrite lookup_insert_ne|done|].
    intros Hne. rewrite HP; [by exists p1|]. destruct Ha as [Ha|Ha]; [done|]. by destruct Hne. }
  intros [t1 q1] s2 (e1'&P2&Hat2&_&Hc2). destruct Hat2 as [E1 E2 E3 (b&Eb&Ev) E5]. apply wp_bind. unfold wp, get_base. rewrite Eb.
  apply wp_bind, wp_modify, wp_ret.
  exists (release x1 THREAD_RESTART (release x0 THREAD_RESTART T)), (<[x1 := e1']> (<[x0 := e0']> L)), P2, false. split.
  - split; [exact E1|exact E2|exact E3| |exact E5]. eexists. simpl. by rewrite lookup_insert_eq.
  - split; [exact Hc2|done|]. intros _ x [-> | ->]; [apply release_keeps_none|]; apply released_no_waiter.
Qed.
End sections.
End link.
