(* ===== verification/EventlinkProps.v ===== *)
(** * Threads that signal and wait through an eventlink

    A transition system whose steps are the sections that run under the lock of one
    eventlink, by any number of threads in any order, with timeouts, aborted waits,
    changes of association and destruction. *)

From S2P Require Import Prelude MachPort KmsgQueue KmsgSpec Prng OsRefcnt IpcTable IpcHash IpcState IpcSpace EntryFacts IpcEntry EntrySpec IpcPort PortSpec IpcMqueue MqueueSpec Samples IpcRequest RequestProps IpcPortLife DestroyProps MqueueProps IpcKobject KobjectProps IpcRight RightDrop RightCopy IpcObject IpcEventlink EventlinkSpec.

Record el_config := mk_el_config { x_est : est; x_sleepers : sleepers }.

(** [signal]: whether the call signals the other side too. *)
Inductive el_request :=
| ElSignal (a : Z)
| ElWait (self a : Z) (signal : bool) (count option : Z)
| ElResume (self : Z)
| ElAbort (self : Z) (result : wait_result_t)
| ElAssociate (a thread : Z) (copyin : bool) (option : Z)
| ElDisassociate (a option : Z)
| ElDestroy (a : Z).

Section system.
Context `{KernelConfig} `{Externals} `{Messages} `{Handoff}.
Context (base : Z).

Definition other_side (a : Z) : Z := if a =? elb_eventlink base 0 then elb_eventlink base 1 else elb_eventlink base 0.
Definition el_then {A} (x : outcome (A * est)) (f : A -> est -> el_config) : outcome el_config :=
  match x with
  | Done (y, s) => Done (f y s)
  | Panic what => Panic what
  | Diverges => Diverges
  end.
Definition el_perform (r : el_request) (c : el_config) : outcome el_config :=
  let '(mk_el_config s pc) := c in
  match r with
  | ElSignal a => el_then (ipc_eventlink_signal a s) (fun _ s' => mk_el_config s' pc)
  | ElWait self a signal count option =>
    el_then (wait_enter self a (if signal then other_side a else IPC_EVENTLINK_NULL) count option s)
      (fun o s' => mk_el_config s' (sleeping self a o pc))
  | ElResume self =>
    match pc !! self with
    | Some (_, count, old) => el_then (wait_resume self count old s) (fun _ s' => mk_el_config s' (delete self pc))
    | None => Panic "not in a wait"
    end
  | ElAbort self result => el_then (onk (mod_thread self (woken result)) s) (fun _ s' => mk_el_config s' pc)
  | ElAssociate a thread copyin option =>
    el_then (mach_eventlink_associate a thread copyin option s) (fun _ s' => mk_el_config s' pc)
  | ElDisassociate a option => el_then (mach_eventlink_disassociate a option s) (fun _ s' => mk_el_config s' pc)
  | ElDestroy a => el_then (destroy_locked a s) (fun _ s' => mk_el_config s' pc)
  end.

(** When the kernel runs a section: a thread runs one at a time and waits for a count that
    a signal can exceed; a wait that no section ended is aborted or times out. *)
Definition el_enabled (r : el_request) (c : el_config) : Prop :=
  let '(mk_el_config s pc) := c in
  let running t := exists th, ks_threads (e_kst s) !! t = Some th /\ th_waits_on th = None in
  match r with
  | ElSignal a | ElDisassociate a _ | ElDestroy a | ElAssociate a _ _ _ => side base a
  | ElWait self a _ count option =>
    side base a /\ running self /\ pc !! self = None /\ self <> THREAD_NULL /\ 0 <= count < UINT64_MAX /\
    (option = IPC_EVENTLINK_NONE \/ option = IPC_EVENTLINK_NO_WAIT)
  | ElResume self => is_Some (pc !! self) /\ running self
  | ElAbort self result =>
    (exists th a, ks_threads (e_kst s) !! self = Some th /\ side base a /\ waits a EVENTLINK th) /\
    (result = THREAD_TIMED_OUT \/ result = THREAD_INTERRUPTED)
  end.

(** An eventlink as [ipc_eventlink_alloc] makes it. *)
Definition el_fresh (c : el_config) : Prop :=
  let '(mk_el_config s pc) := c in
  pc = ∅ /\ e_handoff_thread s = THREAD_NULL /\
  (exists b, e_bases s !! base = Some b /\ elb_valid b = true) /\
  forall a, side base a -> no_waiter a (ks_threads (e_kst s)) /\
    exists el p, e_links s !! a = Some el /\ el_base el = base /\ el_sync_counter el = 0 /\
      el_wait_counter el = UINT64_MAX /\ el_thread el = THREAD_NULL /\
      el_port el <> IP_NULL /\ ks_ports (e_kst s) !! el_port el = Some p /\ 1 <= io_references p < OS_REFCNT_MAX_COUNT.

(** A newly created eventlink, at an address nobody waits for. *)
Definition el_created (c : el_config) : Prop :=
  exists s0 port0 port1 ports, IP_VALID port0 = true /\ IP_VALID port1 = true /\ port0 <> port1 /\
    (forall a, side base a -> no_waiter a (ks_threads (e_kst s0))) /\ e_handoff_thread s0 = THREAD_NULL /\
    mach_eventlink_create true MELC_OPTION_NO_COPYIN base port0 port1 s0 = Done ((KERN_SUCCESS, ports), x_est c) /\
    x_sleepers c = ∅.

(** Configurations after [n] sections. *)
Inductive el_reach : nat -> el_config -> Prop :=
| el_start c : el_created c -> el_reach 0 c
| el_next n c r c' : el_reach n c -> el_enabled r c -> el_perform r c = Done c' -> el_reach (S n) c'.

(** ** The invariant of the system *)
Definition el_good (n : Z) (c : el_config) : Prop :=
  exists T L P v, el_at base (x_est c) T L P v THREAD_NULL /\ el_inv base n T L P v (x_sleepers c).

Lemma el_then_wp {A} (m : M est A) s f (Q : A -> est -> Prop) (G : el_config -> Prop) :
  wp m Q s -> (forall x s', Q x s' -> G (f x s')) -> exists c', el_then (m s) f = Done c' /\ G c'.
Proof. intros Hm HG. apply wp_elim in Hm as (x&s'&E&HQ). rewrite E. eexists. split; [done|]. by apply HG. Qed.

Lemma good_mono n n' c : el_good n c -> n <= n' -> el_good n' c.
Proof.
  intros (T&L&P&v&Hat&[Hc Hl Hd]) Hn. exists T, L, P, v. split; [done|].
  split; [by eapply core_mono|done..].
Qed.
Lemma other_side_side a : side base a -> side base (other_side a).
Proof. intros Ha. unfold other_side. destruct (a =? _); [by right|by left]. Qed.

(** Making one side. *)
Lemma initialize_side_ok s i port : IP_VALID port = true ->
  wp (initialize_side base i port) (fun _ s' => exists p, io_references p = 3 /\
    s' = set_e_links (<[elb_eventlink base i := mk_eventlink port THREAD_NULL base 0 UINT64_MAX]> (e_links s))
           (set_e_kst (with_port port p (e_kst s)) s)) s.
Proof.
  intros Hv. apply wp_bind, wp_onk. eapply wp_mono.
  { apply (alloc_port_ok (H2 := no_ops)); [done|]. split; reflexivity. }
  intros ? ? (p&->&->&Hh). apply wp_modify. exists p. split; [apply Hh|done].
Qed.
Lemma created_fresh c : el_created c -> el_fresh c.
Proof.
  destruct c as [s pc]. intros (s0&port0&port1&ports&Hv0&Hv1&Hne&Hno&Hh&E&Hpc). cbn [x_est x_sleepers] in *. subst pc.
  assert (wp (mach_eventlink_create true MELC_OPTION_NO_COPYIN base port0 port1)
    (fun _ s' => exists p0 p1, io_references p0 = 3 /\ io_references p1 = 3 /\
      ks_threads (e_kst s') = ks_threads (e_kst s0) /\ e_handoff_thread s' = THREAD_NULL /\
      ks_ports (e_kst s') !! port0 = Some p0 /\ ks_ports (e_kst s') !! port1 = Some p1 /\
      e_links s' !! elb_eventlink base 0 = Some (mk_eventlink port0 THREAD_NULL base 0 UINT64_MAX) /\
      e_links s' !! elb_eventlink base 1 = Some (mk_eventlink port1 THREAD_NULL base 0 UINT64_MAX) /\
      exists b, e_bases s' !! base = Some b /\ elb_valid b = true) s0) as Hw.
  { assert (elb_eventlink base 0 <> elb_eventlink base 1) as H01 by (unfold elb_eventlink; lia).
    unfold mach_eventlink_create. change (negb true || negb (MELC_OPTION_NO_COPYIN =? MELC_OPTION_NO_COPYIN)) with false. cbv iota.
    apply wp_bind. unfold ipc_eventlink_alloc. apply wp_bind, (wp_lift _ 2); [done|].
    apply wp_bind. eapply wp_mono; [by apply initialize_side_ok|]. intros _ ? (p0&Hr0&->).
    apply wp_bind. eapply wp_mono; [by apply initialize_side_ok|]. intros _ ? (p1&Hr1&->).
    apply wp_bind, wp_modify, wp_ret, wp_bind. unfold wp, get_link. simpl. rewrite lookup_insert_ne, lookup_insert_eq by done.
    unfold bind, get_link. simpl. rewrite lookup_insert_eq. simpl. exists p0, p1. split_and!; try done; simpl.
    - by rewrite lookup_insert_ne, lookup_insert_eq.
    - by rewrite lookup_insert_eq.
    - by rewrite lookup_insert_ne, lookup_insert_eq.
    - by rewrite lookup_insert_eq.
    - eexists. by rewrite lookup_insert_eq. }
  unfold wp in Hw. rewrite E in Hw. destruct Hw as (p0&p1&Hr0&Hr1&HT&HH&HP0&HP1&HL0&HL1&HB).
  assert (forall q, IP_VALID q = true -> q <> IP_NULL) as Hnn by (intros q Hq ->; done).
  split; [done|]. split; [done|]. split; [done|]. intros a Ha. rewrite HT. split; [by apply Hno|].
  destruct Ha as [-> | ->]; eexists _, _; (split; [done|]); simpl; (split_and!; try done; try (by apply Hnn));
    rewrite ?Hr0, ?Hr1; unfold OS_REFCNT_MAX_COUNT; lia.
Qed.

Lemma fresh_el_good c : el_fresh c -> el_good 0 c.
Proof.
  destruct c as [s pc]. intros (->&Hh&Hb&Hs).
  exists (ks_threads (e_kst s)), (e_links s), (ks_ports (e_kst s)), true. split; [by split|].
  split; [split| |done].
  - intros a Ha. destruct (Hs a Ha) as (_&el&p&He&Hbase&Hsync&_). exists el. split; [done|]. split; [done|lia].
  - intros t th a Ht Hw Ha. by destruct (Hs a Ha) as [Hno _]; destruct (Hno t th Ht).
  - intros t t' th th' a Ht _ Hw _ Ha. by destruct (Hs a Ha) as [Hno _]; destruct (Hno t th Ht).
  - intros t a count old. cbn. by rewrite lookup_empty.
  - intros _ a Ha. destruct (Hs a Ha) as (_&el&p&He&_&_&_&_&Hp). by exists el, p.
Qed.

(** Every section that may run returns, and keeps the invariant. *)
Lemma el_step_ok n c r : el_good n c -> n + 1 < 2 ^ 64 -> el_enabled r c ->
  exists c', el_perform r c = Done c' /\ el_good (n + 1) c'.
Proof.
  destruct c as [s pc]. intros (T&L&P&v&Hat&Hi) Hn Hen. cbn [x_est x_sleepers] in *.
  pose proof (ei_core _ _ _ _ _ _ _ Hi) as Hc.
  assert (forall s' T' L' P' v', el_at base s' T' L' P' v' THREAD_NULL -> el_inv base n T' L' P' v' pc ->
    el_good (n + 1) (mk_el_config s' pc)) as Hkeep.
  { intros s' T' L' P' v' Hat' Hi'. apply (good_mono n); [|lia]. by exists T', L', P', v'. }
  destruct r as [a|self a signal count option|self|self result|a thread copyin option|a option|a]; cbn [el_perform el_enabled] in *.
  - eapply el_then_wp; [by eapply eventlink_signal_ok|]. intros _ s' (T'&L'&?&?). by exists T', L', P, v.
  - destruct Hen as (Ha&(th&Hth&Hrun)&Hpc&Hnz&Hcount&Hopt). rewrite (ea_threads _ _ _ _ _ _ _ Hat) in Hth.
    eapply el_then_wp; [eapply (wait_enter_ok base n P self a); try done|].
    { destruct signal; [right; by apply other_side_side|by left]. }
    intros o s' (T'&L'&Hat'&Hi'). by exists T', L', P, v.
  - destruct Hen as [[[[a count] old] Hp] (th&Hth&Hrun)]. rewrite (ea_threads _ _ _ _ _ _ _ Hat) in Hth. rewrite Hp.
    eapply el_then_wp; [eapply (wait_resume_ok base n); done || lia|]. intros x s' [-> _].
    apply (good_mono n); [|lia]. exists T, L, P, v. split; [done|].
    split; [by eapply el_core_leave|apply Hi..].
  - destruct Hen as [(th&a&Hth&Ha&Hw) Hr]. rewrite (ea_threads _ _ _ _ _ _ _ Hat) in Hth.
    assert (th_waits_on th <> None) as Hblk by (unfold waits in Hw; congruence).
    eapply (el_then_wp _ _ _ (fun _ s' => el_at base s' (<[self := woken result th]> T) L P v THREAD_NULL)).
    { by apply (el_mod_thread base _ _ _ _ _ _ Hat _ th). }
    intros _ s' Hat'. eapply Hkeep; [done|]. eapply inv_calm; [done| |by apply el_core_abort].
    split; [done|]. intros t th' [[<- <-]|[_ Ht]]%lookup_insert_Some; done.
  - eapply el_then_wp; [by eapply associate_ok|]. intros _ s' (L'&?&?). by eapply Hkeep.
  - eapply el_then_wp; [by eapply disassociate_ok|]. intros _ s' (T'&L'&?&?). by eapply Hkeep.
  - eapply el_then_wp; [by eapply destroy_ok|]. intros _ s' (T'&L'&P'&v'&?&?). by eapply Hkeep.
Qed.
Lemma reach_good n c : el_reach n c -> Z.of_nat n < 2 ^ 64 -> el_good (Z.of_nat n) c.
Proof.
  induction 1 as [c Hf|n c r c' Hr IH Hen Hdo]; intros Hn; [by apply fresh_el_good, created_fresh|].
  destruct (el_step_ok (Z.of_nat n) c r) as (c''&E&Hg); [apply IH; lia|lia|done|].
  rewrite Hdo in E. injection E as <-. replace (Z.of_nat (S n)) with (Z.of_nat n + 1) by lia. done.
Qed.
End system.




(** The count and the error of a trap survive their encoding, the count up to 56 bits. *)
Theorem eventlink_retval_round_trip (count : Z) (kr : kern_return_t) :
  decode_eventlink_count_from_retval (encode_eventlink_count_and_error count kr) = count mod 2 ^ 56 /\
  decode_eventlink_error_from_retval (encode_eventlink_count_and_error count kr) = kern_return_value kr.
Proof.
  unfold decode_eventlink_count_from_retval, decode_eventlink_error_from_retval, encode_eventlink_count_and_error,
    EVENTLINK_SIGNAL_COUNT_MASK, EVENTLINK_SIGNAL_ERROR_MASK, EVENTLINK_SIGNAL_ERROR_SHIFT.
  change 0xffffffffffffff with (Z.ones 56). change 0xff with (Z.ones 8).
  assert (0 <= kern_return_value kr < 2 ^ 8) as Hk by (destruct kr; simpl; lia).
  rewrite (Z.land_ones (kern_return_value kr)), (Z.mod_small _ (2 ^ 8)) by lia.
  assert (u64 (Z.shiftl (kern_return_value kr) 56) = Z.shiftl (kern_return_value kr) 56) as ->.
  { unfold u64. rewrite Z.shiftl_mul_pow2 by lia. apply Z.mod_small. lia. }
  split.
  - rewrite !Z.land_lor_distr_l, <- Z.land_assoc, Z.land_diag, Z.land_ones by lia.
    rewrite (Z.land_ones (Z.shiftl _ _)), Z.shiftl_mul_pow2, Z.mod_mul by lia. apply Z.lor_0_r.
  - rewrite Z.shiftr_lor, Z.shiftr_shiftl_l, Z.shiftl_0_r by lia.
    rewrite Z.shiftr_land, Z.shiftr_div_pow2 with (a := Z.ones 56) by lia.
    change (Z.ones 56 / 2 ^ 56) with 0. rewrite Z.land_0_r, Z.lor_0_l, Z.land_ones, Z.mod_small by lia. done.
Qed.

(** ** Instances *)
Section instances.
#[local] Existing Instances DEVELOPMENT plain_externals SMALL_REQUESTS no_ops plain_messages.
#[local] Instance no_handoff : Handoff := {| thread_allowed_for_handoff _ _ := false |}.

(** An eventlink at 0x9000 with ports at 0x6000 and 0x6100, and two threads. *)
Definition before_link : est :=
  mk_est (set_ks_threads {[ 0x40 := idle_thread; 0x41 := idle_thread ]} (one_port fresh_port)) ∅ ∅ THREAD_NULL.
Definition state_of {A} (x : outcome (A * est)) : est := match x with Done (_, s) => s | _ => before_link end.
Definition new_link : est := Eval vm_compute in state_of (mach_eventlink_create true MELC_OPTION_NO_COPYIN 0x9000 0x6000 0x6100 before_link).
Lemma new_link_created : el_created 0x9000 (mk_el_config new_link ∅).
Proof.
  exists before_link, 0x6000, 0x6100, [0x6000; 0x6100]. split_and!; try done.
  intros a _ t th Ht Hw.
  assert (map_Forall (fun _ th => th_waits_on th = None) (ks_threads (e_kst before_link))) as Hall
    by (apply (bool_decide_unpack _); vm_compute; exact I).
  specialize (Hall t th Ht). cbv beta in Hall. unfold waits in Hw. congruence.
Qed.

(** A thread waits for the first signal of a side that takes any thread. *)
Definition waiting_link : el_config := Eval vm_compute in
  match el_perform 0x9000 (ElAssociate 0x9000 THREAD_NULL false MELA_OPTION_ASSOCIATE_ON_WAIT) (mk_el_config new_link ∅) with
  | Done c => match el_perform 0x9000 (ElWait 0x40 0x9000 false 0 IPC_EVENTLINK_NONE) c with Done c' => c' | _ => c end
  | _ => mk_el_config new_link ∅
  end.
Lemma waiting_reach : el_reach 0x9000 2 waiting_link.
Proof.
  eapply (el_next 0x9000 1 _ (ElWait 0x40 0x9000 false 0 IPC_EVENTLINK_NONE)).
  - eapply (el_next 0x9000 0 _ (ElAssociate 0x9000 THREAD_NULL false MELA_OPTION_ASSOCIATE_ON_WAIT)).
    + apply el_start, new_link_created.
    + by left.
    + vm_compute. reflexivity.
  - split; [by left|]. split; [eexists; split; vm_compute; reflexivity|]. split; [reflexivity|]. split; [done|].
    split; [unfold UINT64_MAX; lia|by left].
  - vm_compute. reflexivity.
Qed.
Definition signalled_link : el_config := Eval vm_compute in
  match el_perform 0x9000 (ElSignal 0x9000) waiting_link with Done c => c | _ => waiting_link end.
Lemma signalled_reach : el_reach 0x9000 3 signalled_link.
Proof.
  eapply (el_next 0x9000 2 _ (ElSignal 0x9000)); [apply waiting_reach|by left|vm_compute; reflexivity].
Qed.

End instances.
