(* ===== verification/SemaProps.v ===== *)
(** * Semaphores conserve their tokens

    A transition system whose steps are the sections that run under the lock of one semaphore,
    by any number of threads in any order, with timeouts, aborted waits and destruction; and a
    corner of [semaphore_wait_internal] where the result of an earlier wait is returned. *)

From S2P Require Import Prelude MachPort KmsgQueue KmsgSpec Prng OsRefcnt IpcTable IpcHash IpcState IpcSpace EntryFacts IpcEntry EntrySpec IpcPort PortSpec IpcMqueue MqueueSpec Samples IpcRequest RequestProps IpcPortLife DestroyProps MqueueProps IpcKobject KobjectProps IpcRight RightDrop RightCopy IpcObject IpcEventlink SyncSema.

(** ** The system

    The state, the tokens clients have posted and the waits that were granted one. *)
Record sema_config := mk_sema_config { m_sst : sst; m_posted : Z; m_granted : Z }.
Inductive sema_request :=
| SmWait (self option : Z)
| SmSignal (thread options : Z)
| SmAbort (self : Z) (result : wait_result_t)
| SmDestroy.

(** The options the code signals with. *)
Definition signal_options (o : Z) : Prop :=
  o = SEMAPHORE_OPTION_NONE \/ o = SEMAPHORE_SIGNAL_ALL \/ o = SEMAPHORE_SIGNAL_PREPOST \/
  o = Z.lor SEMAPHORE_SIGNAL_PREPOST SEMAPHORE_THREAD_HANDOFF.
(** What a call gives: [semaphore_signal] a token, the others the threads they wake. *)
Definition posts (thread options : Z) (kr : kern_return_t) (released : Z) : Z :=
  if bool_decide (kr = KERN_TERMINATED) then 0
  else if (thread =? THREAD_NULL) && has options SEMAPHORE_SIGNAL_PREPOST then 1 else released.

Section system.
Context `{KernelConfig} `{Externals} `{Messages} `{Handoff}.
Context (a : Z).

Definition blocked_on (s : sst) : Z := Z.of_nat (size (waiters a SEMAPHORE_EVENT (s_kst s))).
(** A signal, with the thread to hand over to taken up as [wait_block] does. *)
Definition signal_section (thread options : Z) : M sst kern_return_t :=
  let* kr := semaphore_signal_internal a thread options in
  modify (set_s_handoff_thread THREAD_NULL) ;;* ret kr.
Definition destroy_section : M sst unit := let* x := get_sema a in semaphore_destroy_internal (sm_owner x) a.
Definition sema_then {A} (x : outcome (A * sst)) (f : A -> sst -> sema_config) : outcome sema_config :=
  match x with
  | Done (y, s) => Done (f y s)
  | Panic what => Panic what
  | Diverges => Diverges
  end.
Definition sema_perform (r : sema_request) (c : sema_config) : outcome sema_config :=
  let '(mk_sema_config s posted granted) := c in
  match r with
  | SmWait self option =>
    sema_then (wait_section self a option s)
      (fun kr s' => mk_sema_config s' posted (granted + if bool_decide (kr = KERN_SUCCESS) then 1 else 0))
  | SmSignal thread options =>
    sema_then (signal_section thread options s)
      (fun kr s' => let released := blocked_on s - blocked_on s' in
         mk_sema_config s' (posted + posts thread options kr released) (granted + released))
  | SmAbort self result =>
    sema_then (on_kst (mod_thread self (woken result)) s) (fun _ s' => mk_sema_config s' posted granted)
  | SmDestroy => sema_then (destroy_section s) (fun _ s' => mk_sema_config s' posted granted)
  end.
Definition sema_enabled (r : sema_request) (c : sema_config) : Prop :=
  let s := m_sst c in
  let thread_at t := is_Some (ks_threads (s_kst s) !! t) in
  match r with
  | SmWait self _ => exists th, ks_threads (s_kst s) !! self = Some th /\ th_waits_on th = None
  | SmSignal thread options => signal_options options /\ (thread <> THREAD_NULL -> thread_at thread)
  | SmAbort self result =>
    (exists th, ks_threads (s_kst s) !! self = Some th /\ waits a SEMAPHORE_EVENT th) /\
    (result = THREAD_TIMED_OUT \/ result = THREAD_INTERRUPTED)
  | SmDestroy => exists x, s_semas s !! a = Some x /\ semaphore_active x = true
  end.

(** A semaphore created with a value, at an address nobody waits for. *)
Definition sema_created (value : Z) (c : sema_config) : Prop :=
  exists s0 task policy, semaphore_create a task policy value s0 = Done ((KERN_SUCCESS, a), m_sst c) /\
    value < 2 ^ 31 /\ waiters a SEMAPHORE_EVENT (s_kst s0) = ∅ /\ s_handoff_thread s0 = THREAD_NULL /\
    m_posted c = 0 /\ m_granted c = 0.
Inductive sema_reach (value : Z) : nat -> sema_config -> Prop :=
| sema_start c : sema_created value c -> sema_reach value 0 c
| sema_next n c r c' : sema_reach value n c -> sema_enabled r c -> sema_perform r c = Done c' -> sema_reach value (S n) c'.

(** ** Waiting threads *)
Definition wset (T : threads) : gset Z := dom (filter (fun x => waits a SEMAPHORE_EVENT x.2) T).
Lemma elem_of_wset T t : t ∈ wset T <-> exists th, T !! t = Some th /\ waits a SEMAPHORE_EVENT th.
Proof. unfold wset. rewrite elem_of_dom. unfold is_Some. setoid_rewrite map_lookup_filter_Some. simpl. naive_solver. Qed.
Lemma wset_run T t th' : ~ waits a SEMAPHORE_EVENT th' -> wset (<[t := th']> T) = wset T ∖ {[ t ]}.
Proof.
  intros Hn. apply set_eq. intros t'. rewrite elem_of_difference, !elem_of_wset, elem_of_singleton.
  setoid_rewrite lookup_insert_Some. naive_solver.
Qed.
Lemma wset_block T t th' : waits a SEMAPHORE_EVENT th' -> wset (<[t := th']> T) = {[ t ]} ∪ wset T.
Proof.
  intros Hn. apply set_eq. intros t'. rewrite elem_of_union, !elem_of_wset, elem_of_singleton.
  setoid_rewrite lookup_insert_Some. destruct (decide (t = t')); naive_solver.
Qed.
Lemma wset_all T r : wset ((fun th => if decide (waits a SEMAPHORE_EVENT th) then woken r th else th) <$> T) = ∅.
Proof.
  apply set_eq. intros t. rewrite elem_of_wset. split; [|set_solver].
  intros (th&(th0&<-&_)%lookup_fmap_Some&Hw). by case_decide.
Qed.
Lemma wset_size_run T t : t ∈ wset T -> Z.of_nat (size (wset T ∖ {[ t ]})) = Z.of_nat (size (wset T)) - 1.
Proof.
  intros Ht. rewrite size_difference by set_solver. rewrite size_singleton.
  assert (size (wset T) <> 0%nat); [|lia]. intros E%size_empty_inv. set_solver.
Qed.

(** ** The parts of the state *)
Record sm_at (s : sst) (T : threads) (x : semaphore) (h : Z) : Prop := {
  sa_threads : ks_threads (s_kst s) = T;
  sa_sema : s_semas s !! a = Some x;
  sa_task : semaphore_active x = true -> is_Some (s_tasks s !! sm_owner x);
  sa_handoff : s_handoff_thread s = h;
}.
(** A thread waits only while there is no token, and on a live semaphore. *)
Record sm_inv (T : threads) (x : semaphore) (tokens : Z) : Prop := {
  sv_wait : wset T <> ∅ -> semaphore_active x = true /\ sm_count x = -1;
  sv_count : -1 <= sm_count x;
  sv_tokens : semaphore_active x = true -> tokens = Z.max 0 (sm_count x);
}.

Section rules.
Context (s : sst) (T : threads) (x : semaphore) (h : Z) (Hat : sm_at s T x h).
Lemma wp_on_kst {A} (m : M kst A) (Q : A -> sst -> Prop) : wp m (fun y k => Q y (set_s_kst k s)) (s_kst s) -> wp (on_kst m) Q s.
Proof using. unfold wp, on_kst. by destruct (m (s_kst s)) as [[??]| |]. Qed.
Lemma sm_get Q : Q x s -> wp (get_sema a) Q s.
Proof using Hat. destruct Hat as [_ E _ _]. unfold wp, get_sema. by rewrite E. Qed.
Lemma sm_put c Q : (forall s', sm_at s' T (set_sm_count c x) h -> Q tt s') -> wp (put_sema a (set_sm_count c x)) Q s.
Proof using Hat. intros HQ. apply wp_modify, HQ. destruct Hat as [? ? ? ?]. split; [done|apply lookup_insert_eq|done|done]. Qed.
Lemma sm_mod_thread t th f Q : T !! t = Some th -> (forall s', sm_at s' (<[t := f th]> T) x h -> Q tt s') ->
  wp (on_kst (mod_thread t f)) Q s.
Proof using Hat.
  intros Ht HQ. destruct Hat as [<- ? ? ?]. apply wp_on_kst, wp_bind. unfold wp, get_thread. rewrite Ht. apply wp_modify, HQ. by split.
Qed.
Lemma sm_get_thread t th Q : T !! t = Some th -> Q th s -> wp (on_kst (get_thread t)) Q s.
Proof using Hat. intros Ht HQ. destruct Hat as [<- _ _ _]. unfold wp, on_kst, get_thread. rewrite Ht. by destruct s. Qed.
Lemma sm_emit f args Q : (forall s', sm_at s' T x h -> Q tt s') -> wp (on_kst (emit f args)) Q s.
Proof using Hat. intros HQ. apply wp_on_kst, wp_emit, HQ. destruct Hat as [? ? ? ?]. by split. Qed.
Lemma sm_set_handoff h' Q : (forall s', sm_at s' T x h' -> Q tt s') -> wp (modify (set_s_handoff_thread h')) Q s.
Proof using Hat. intros HQ. apply wp_modify, HQ. destruct Hat as [? ? ? ?]. by split. Qed.
Lemma sm_waiters : waiters a SEMAPHORE_EVENT (s_kst s) = wset T.
Proof using Hat. destruct Hat as [<- _ _ _]. done. Qed.
Lemma sm_gets_waiters Q : Q (wset T) s -> wp (gets (fun s => waiters a SEMAPHORE_EVENT (s_kst s))) Q s.
Proof using Hat. intros HQ. apply wp_gets. by rewrite sm_waiters. Qed.
Lemma sm_wakeup_all r Q :
  (forall s', sm_at s' ((fun th => if decide (waits a SEMAPHORE_EVENT th) then woken r th else th) <$> T) x h ->
     Q (if decide (wset T = ∅) then KERN_NOT_WAITING else KERN_SUCCESS) s') -> wp (sema_wakeup_all a r) Q s.
Proof using Hat.
  intros HQ. apply wp_bind, sm_gets_waiters, wp_bind, wp_on_kst, wp_modify, wp_ret, HQ.
  destruct Hat as [<- ? ? ?]. by split.
Qed.
End rules.

(** ** What a section keeps *)
Lemma inv_fewer T T' x tokens : wset T' ⊆ wset T -> sm_inv T x tokens -> sm_inv T' x tokens.
Proof. intros Hs [Hw Hc Ht]. split; [|done|done]. intros Hne. apply Hw. set_solver. Qed.
Lemma inv_idle T x c : wset T = ∅ -> 0 <= c -> sm_inv T (set_sm_count c x) c.
Proof. intros He Hc. split; simpl; [done|lia|intros _; lia]. Qed.
Lemma inv_same T x tokens tokens' : sm_inv T x tokens -> tokens' = tokens -> sm_inv T x tokens'.
Proof. by intros ? ->. Qed.
Lemma inv_terminated T x tokens tokens' : semaphore_active x = false -> sm_inv T x tokens -> sm_inv T x tokens'.
Proof. intros Ha [Hw Hc Ht]. split; [done|done|]. by rewrite Ha. Qed.
Lemma inv_empty T x tokens : sm_inv T x tokens -> 0 <= sm_count x -> wset T = ∅.
Proof. intros [Hw _ _] Hc. destruct (decide (wset T = ∅)) as [|Hne]; [done|]. apply Hw in Hne. lia. Qed.
Lemma run_fewer T t th' : ~ waits a SEMAPHORE_EVENT th' -> wset (<[t := th']> T) ⊆ wset T.
Proof. intros Hn. rewrite wset_run by done. set_solver. Qed.
Lemma woken_runs r th : ~ waits a SEMAPHORE_EVENT (woken r th).
Proof. done. Qed.

Definition sm_ok (b : Z) (h : Z) (T : threads -> Z -> Prop) (s : sst) : Prop :=
  exists T' x' tokens, sm_at s T' x' h /\ sm_inv T' x' tokens /\ sm_count x' <= b /\ T T' tokens.

Section sections.
Context (s : sst) (T : threads) (x : semaphore) (h tokens b : Z).
Context (Hat : sm_at s T x h) (Hinv : sm_inv T x tokens) (Hb : sm_count x <= b) (Hb0 : 0 <= b).

Lemma keeps (P : threads -> Z -> Prop) : P T tokens -> sm_ok b h P s.
Proof using Hat Hinv Hb. intros HP. by exists T, x, tokens. Qed.
Lemma wait_keeps self option th : T !! self = Some th -> th_waits_on th = None ->
  wp (wait_section self a option)
     (fun kr => sm_ok b h (fun _ tk => tk = tokens - if bool_decide (kr = KERN_SUCCESS) then 1 else 0)) s.
Proof using Hat Hinv Hb Hb0.
  intros Hth Hidle. apply wp_bind, (sm_get s T x h Hat). destruct (semaphore_active x) eqn:Ha; simpl.
  2: { apply wp_ret, keeps. simpl. lia. }
  destruct (Z.ltb_spec 0 (sm_count x)) as [Hc|Hc].
  { apply wp_bind, (sm_put s T x h Hat). intros s' Hat'. apply wp_ret. eexists _, _, _.
    split; [exact Hat'|]. split; [apply inv_idle; [apply (inv_empty T x tokens Hinv); lia|lia]|]. simpl. split; [lia|].
    rewrite (sv_tokens _ _ _ Hinv Ha). lia. }
  destruct (has option SEMAPHORE_TIMEOUT_NOBLOCK).
  { apply wp_ret, keeps. simpl. lia. }
  apply wp_bind, (sm_put s T x h Hat). intros s1 Hat1. apply wp_bind, wp_gets, wp_bind.
  apply (sm_mod_thread s1 T _ h Hat1 self th); [done|]. intros s2 Hat2. apply wp_ret. eexists _, _, _.
  split; [exact Hat2|]. split; [|split; [simpl; lia|done]].
  split; simpl; [done|lia|]. intros _. rewrite (sv_tokens _ _ _ Hinv Ha). lia.
Qed.

(** After a signal: as many tokens more as it posted, less those it handed to woken threads. *)
Definition signalled (thread options : Z) (kr : kern_return_t) (s' : sst) : Prop :=
  exists h', sm_ok (b + 1) h' (fun T' tk =>
    let released := Z.of_nat (size (wset T)) - Z.of_nat (size (wset T')) in
    tk = tokens + posts thread options kr released - released) s'.
Lemma signalled_same thread options kr s' :
  sm_at s' T x h -> posts thread options kr 0 = 0 -> signalled thread options kr s'.
Proof using Hinv Hb. intros Hat' Hp. exists h, T, x, tokens. split_and!; [done|done|lia|]. simpl. rewrite Z.sub_diag, Hp. lia. Qed.
Lemma signalled_one thread options kr s' t th r h' :
  sm_at s' (<[t := woken r th]> T) x h' -> t ∈ wset T -> posts thread options kr 1 = 1 -> signalled thread options kr s'.
Proof using Hinv Hb.
  intros Hat' Ht Hp. exists h', (<[t := woken r th]> T), x, tokens. split_and!; [done| |lia|].
  - apply (inv_fewer T); [|done]. by apply run_fewer.
  - rewrite wset_run, wset_size_run by done. simpl.
    replace (Z.of_nat _ - (Z.of_nat _ - 1)) with 1 by lia. lia.
Qed.

Context (Hnull : h = THREAD_NULL) (Hactive : semaphore_active x = true) (Hwidth : b + 1 < 2 ^ 31).
Lemma wakeup_one_wakes handoff Q :
  (wset T = ∅ -> Q KERN_NOT_WAITING s) ->
  (forall t th s' h', T !! t = Some th -> t ∈ wset T -> sm_at s' (<[t := woken THREAD_AWAKENED th]> T) x h' -> Q KERN_SUCCESS s') ->
  wp (sema_wakeup_one a handoff) Q s.
Proof using Hat Hnull.
  intros Hno Hyes. apply wp_bind, (sm_gets_waiters s T x h Hat). case_decide as He; [by apply wp_ret, Hno|].
  apply wp_bind, wp_gets, wp_bind, wp_gets. set (t := waitq_pick _ _).
  assert (t ∈ wset T) as Ht by (by apply waitq_pick_in).
  destruct (proj1 (elem_of_wset T t) Ht) as (th&Hth&_).
  apply wp_bind, (sm_mod_thread s T x h Hat t th); [done|]. intros s1 Hat1. apply wp_bind, wp_when.
  - intros _. apply wp_bind, wp_gets, wp_bind, wp_massert; [by rewrite (sa_handoff _ _ _ _ Hat1), Hnull|].
    apply wp_bind, (sm_emit s1 _ x h Hat1). intros s2 Hat2. apply (sm_set_handoff s2 _ x h Hat2). intros s3 Hat3.
    by apply wp_ret, (Hyes t th s3 t).
  - intros _. by apply wp_ret, (Hyes t th s1 h).
Qed.

(** A semaphore without waiters takes the count it is given. *)
Lemma signalled_idle thread options kr s' c h' :
  wset T = ∅ -> sm_at s' T (set_sm_count c x) h' -> c = tokens + posts thread options kr 0 -> 0 <= c <= b + 1 ->
  signalled thread options kr s'.
Proof using.
  intros He Hat' Hc Hr. exists h', T, (set_sm_count c x), c. split_and!; [done|apply inv_idle; [done|lia]|simpl; lia|].
  simpl. rewrite Z.sub_diag. lia.
Qed.
Lemma signal_thread_keeps thread options : thread <> THREAD_NULL -> is_Some (T !! thread) ->
  wp (if sm_count x <? 0 then sema_wakeup_thread a thread else ret KERN_NOT_WAITING) (signalled thread options) s.
Proof using Hat Hinv Hb.
  intros Hne [th Hth].
  assert (forall kr n, kr <> KERN_TERMINATED -> posts thread options kr n = n) as Hp.
  { intros kr n Hkr. unfold posts. rewrite bool_decide_false by done. by rewrite (proj2 (Z.eqb_neq _ _) Hne). }
  destruct (Z.ltb_spec (sm_count x) 0) as [Hc|Hc]; [|apply wp_ret, signalled_same; [done|by apply Hp]].
  apply wp_bind, (sm_get_thread s T x h Hat thread th); [done|]. case_decide as Hw.
  - apply wp_bind, (sm_mod_thread s T x h Hat thread th); [done|]. intros s' Hat'. apply wp_ret.
    apply (signalled_one _ _ _ _ thread th THREAD_AWAKENED h); [done| |by apply Hp].
    apply elem_of_wset. by exists th.
  - apply wp_ret, signalled_same; [done|by apply Hp].
Qed.
Lemma signal_all_keeps :
  wp (if sm_count x <? 0 then put_sema a (set_sm_count 0 x) ;;* sema_wakeup_all a THREAD_AWAKENED
      else
        when (has SEMAPHORE_SIGNAL_ALL SEMAPHORE_SIGNAL_PREPOST) (put_sema a (set_sm_count (int32 (sm_count x + 1)) x)) ;;*
        ret KERN_SUCCESS) (signalled THREAD_NULL SEMAPHORE_SIGNAL_ALL) s.
Proof using Hat Hinv Hb Hactive Hb0.
  destruct (Z.ltb_spec (sm_count x) 0) as [Hc|Hc].
  - apply wp_bind, (sm_put s T x h Hat). intros s1 Hat1. apply (sm_wakeup_all s1 T _ h Hat1). intros s2 Hat2.
    eexists h, _, _, 0. split; [exact Hat2|]. split_and!; [by apply inv_idle; [apply wset_all|]|simpl; lia|].
    simpl. rewrite wset_all, size_empty. unfold posts. rewrite bool_decide_false by (by case_decide). simpl.
    rewrite (sv_tokens _ _ _ Hinv Hactive). lia.
  - apply wp_bind, wp_ret, wp_ret, signalled_same; done.
Qed.
(** No waiter was found: the mark that there are some goes, and the token stays. *)
Lemma prepost_keeps options s1 : let c := Z.max 0 (sm_count x) in wset T = ∅ -> sm_at s1 T (set_sm_count c x) h ->
  wp (when (has options SEMAPHORE_SIGNAL_PREPOST) (mod_sema a (fun x => set_sm_count (int32 (sm_count x + 1)) x)) ;;*
      ret KERN_NOT_WAITING) (signalled THREAD_NULL options) s1.
Proof using Hinv Hb Hactive Hb0 Hwidth.
  intros c He Hat1. pose proof (sv_tokens _ _ _ Hinv Hactive) as Htok.
  apply wp_bind, wp_when; intros Hp.
  - apply wp_bind, (sm_get s1 T _ h Hat1), (sm_put s1 T _ h Hat1). intros s2 Hat2. apply wp_ret.
    simpl in Hat2. replace (int32 (c + 1)) with (c + 1) in Hat2 by (unfold int32; dlia).
    apply (signalled_idle _ _ _ _ (c + 1) h); [done|exact Hat2| |lia]. unfold posts. simpl. rewrite Hp. lia.
  - apply wp_ret, (signalled_idle _ _ _ _ c h); [done|done| |lia]. unfold posts. simpl. rewrite Hp. lia.
Qed.
Lemma no_waiter_keeps options : wset T = ∅ ->
  wp (when (sm_count x <? 0) (mod_sema a (set_sm_count 0)) ;;*
      when (has options SEMAPHORE_SIGNAL_PREPOST) (mod_sema a (fun x => set_sm_count (int32 (sm_count x + 1)) x)) ;;*
      ret KERN_NOT_WAITING) (signalled THREAD_NULL options) s.
Proof using Hat Hinv Hb Hactive Hb0 Hwidth.
  intros He. apply wp_bind, wp_when; intros Hc.
  - apply wp_bind, (sm_get s T x h Hat), (sm_put s T x h Hat). intros s1 Hat1. apply prepost_keeps; [done|].
    by replace (Z.max 0 (sm_count x)) with 0 by lia.
  - apply prepost_keeps; [done|]. replace (Z.max 0 (sm_count x)) with (sm_count x) by lia. by destruct x.
Qed.
Lemma signal_one_keeps options :
  wp (let* kr := if sm_count x <? 0 then sema_wakeup_one a (has options SEMAPHORE_THREAD_HANDOFF)
                 else ret KERN_NOT_WAITING in
      if bool_decide (kr = KERN_SUCCESS) then ret KERN_SUCCESS
      else
        when (sm_count x <? 0) (mod_sema a (set_sm_count 0)) ;;*
        when (has options SEMAPHORE_SIGNAL_PREPOST)
          (mod_sema a (fun x => set_sm_count (int32 (sm_count x + 1)) x)) ;;*
        ret KERN_NOT_WAITING) (signalled THREAD_NULL options) s.
Proof using Hat Hinv Hb Hactive Hb0 Hwidth Hnull.
  apply wp_bind. destruct (Z.ltb_spec (sm_count x) 0) as [Hc|Hc].
  - apply wakeup_one_wakes.
    + intros He. pose proof (no_waiter_keeps options He) as Hw. by rewrite (proj2 (Z.ltb_lt _ _) Hc) in Hw.
    + intros t th s' h' Hth Ht Hat'. apply wp_ret.
      apply (signalled_one _ _ _ _ t th THREAD_AWAKENED h'); [done|done|]. unfold posts. simpl. by destruct (has _ _).
  - apply wp_ret. pose proof (no_waiter_keeps options (inv_empty T x tokens Hinv Hc)) as Hw.
    by rewrite (proj2 (Z.ltb_ge _ _) Hc) in Hw.
Qed.
End sections.

(** ** Steps keep the invariant

    [n] steps after a creation with [value]. *)
Definition sema_inv (value : Z) (n : nat) (c : sema_config) : Prop :=
  0 <= value /\ sm_ok (value + Z.of_nat n) THREAD_NULL (fun _ tk => tk = value + m_posted c - m_granted c) (m_sst c).

Lemma signal_keeps s T x tokens b thread options :
  sm_at s T x THREAD_NULL -> sm_inv T x tokens -> sm_count x <= b -> 0 <= b -> b + 1 < 2 ^ 31 ->
  signal_options options -> (thread <> THREAD_NULL -> is_Some (T !! thread)) ->
  wp (semaphore_signal_internal a thread options) (signalled T tokens b thread options) s.
Proof.
  intros Hat Hinv Hb Hb0 Hw Hopt Hth. apply wp_bind, (sm_get s T x _ Hat).
  destruct (semaphore_active x) eqn:Ha; simpl; [|by apply wp_ret, (signalled_same T x THREAD_NULL)].
  destruct (Z.eqb_spec thread THREAD_NULL) as [->|Hne]; simpl.
  - destruct Hopt as [->| [->| [->| ->]]]; simpl.
    + by eapply signal_one_keeps.
    + by eapply signal_all_keeps.
    + by eapply signal_one_keeps.
    + by eapply signal_one_keeps.
  - eapply signal_thread_keeps; eauto.
Qed.
Lemma destroy_keeps s T x tokens tokens' b :
  sm_at s T x THREAD_NULL -> sm_inv T x tokens -> 0 <= b -> semaphore_active x = true ->
  wp destroy_section (fun _ => sm_ok b THREAD_NULL (fun _ tk => tk = tokens')) s.
Proof.
  intros Hat Hinv Hb Ha. destruct (sa_task _ _ _ _ Hat Ha) as [t Ht].
  apply wp_bind, (sm_get s T x _ Hat), wp_bind, (sm_get s T x _ Hat), wp_bind, wp_massert; [apply Z.eqb_refl|].
  apply wp_bind. unfold wp at 1, get_task. rewrite Ht. apply wp_bind, wp_modify, wp_bind, wp_modify.
  set (s1 := set_s_semas _ _). set (x1 := set_sm_count 0 (set_sm_owner TASK_NULL x)).
  assert (sm_at s1 T x1 THREAD_NULL) as Hat1.
  { destruct Hat as [?? _ ?]. split; [done|apply lookup_insert_eq|done|done]. }
  assert (forall T' s', sm_at s' T' x1 THREAD_NULL -> wset T' = ∅ -> sm_ok b THREAD_NULL (fun _ tk => tk = tokens') s') as Hend.
  { intros T' s' Hat' He. exists T', x1, tokens'. split_and!; [done| |done|done].
    apply (inv_terminated _ _ 0); [done|]. by apply (inv_idle T' (set_sm_owner TASK_NULL x) 0). }
  destruct (Z.ltb_spec (sm_count x) 0) as [Hc|Hc].
  - apply wp_bind, (sm_wakeup_all s1 T x1 _ Hat1). intros s2 Hat2. apply wp_ret. eapply Hend; [done|apply wset_all].
  - assert (wset T = ∅) as He by (by apply (inv_empty T x tokens)).
    apply wp_bind, (sm_gets_waiters s1 T x1 _ Hat1), wp_massert; [by apply bool_decide_true|]. by apply (Hend T).
Qed.
Lemma created_inv value c : sema_created value c -> sema_inv value 0 c.
Proof.
  intros (s0&task&policy&Hc&Hv&Hw&Hh&Hp&Hg). revert Hc. unfold semaphore_create.
  destruct ((task =? TASK_NULL) || (value <? 0) || _) eqn:Hg1; [discriminate|].
  apply orb_false_iff in Hg1 as [[Ht Hv0]%orb_false_iff _].
  unfold bind at 1, get_task. destruct (s_tasks s0 !! task) as [t|] eqn:Et; [|done].
  destruct (negb (active t)); [discriminate|]. simpl. intros [= Hc]. split; [lia|].
  exists (ks_threads (s_kst s0)), (mk_semaphore task IP_NULL 1 value), value. rewrite <- Hc, Hp, Hg. split_and!; [| |simpl; lia|lia].
  - split; [done|apply lookup_insert_eq| |done]. intros _. simpl. rewrite lookup_insert_eq. by eexists.
  - by apply (inv_idle _ (mk_semaphore task IP_NULL 1 0) value); [|lia].
Qed.
Lemma then_done {A} (m : M sst A) (Q : A -> sst -> Prop) (f : A -> sst -> sema_config) (P : sema_config -> Prop) s :
  wp m Q s -> (forall y s', Q y s' -> P (f y s')) -> exists c', sema_then (m s) f = Done c' /\ P c'.
Proof. intros (y&s'&->&HQ)%wp_elim HP. eexists. split; [done|]. by apply HP. Qed.
Lemma at_blocked s T x h : sm_at s T x h -> blocked_on s = Z.of_nat (size (wset T)).
Proof. intros Hat. unfold blocked_on. by rewrite (sm_waiters s T x h Hat). Qed.
Lemma ok_tokens b b' h P P' s : sm_ok b h P s -> b <= b' -> (forall T tk, P T tk -> P' T tk) -> sm_ok b' h P' s.
Proof. intros (T&x&tk&Hat&Hinv&Hb&HP) Hle HP'. exists T, x, tk. split_and!; [done|done|lia|by apply HP']. Qed.

Lemma sema_step value n c r : sema_inv value n c -> value + Z.of_nat n < 2 ^ 31 - 1 -> sema_enabled r c ->
  exists c', sema_perform r c = Done c' /\ sema_inv value (S n) c'.
Proof.
  destruct c as [s posted granted]. intros [Hv (T&x&tk&Hat&Hinv&Hb&Htk)] Hw Hen. simpl in *.
  destruct r as [self option|thread options|self result|]; simpl in Hen |- *.
  - destruct Hen as (th&Hth&Hidle). rewrite (sa_threads _ _ _ _ Hat) in Hth.
    eapply then_done; [by apply (wait_keeps s T x THREAD_NULL tk _ Hat Hinv Hb) with th; [lia|..]|].
    intros kr s' Hok. split; [done|]. eapply ok_tokens; [exact Hok|lia|]. simpl. intros _ ? ->. lia.
  - destruct Hen as [Hopt Hth]. rewrite (sa_threads _ _ _ _ Hat) in Hth. rewrite (at_blocked s T x _ Hat).
    eapply then_done.
    { apply wp_bind. eapply wp_mono; [apply (signal_keeps s T x tk _ _ _ Hat Hinv Hb); [lia|lia|done|done]|].
      intros kr s1 (h'&T'&x'&tk'&Hat'&Hrest). apply wp_bind, (sm_set_handoff s1 T' x' h' Hat'). intros s2 Hat2.
      apply wp_ret. exact (ex_intro _ T' (ex_intro _ x' (ex_intro _ tk' (conj Hat2 Hrest)))). }
    intros kr s' (T'&x'&tk'&Hat'&Hinv'&Hb'&Htk'). split; [done|]. exists T', x', tk'.
    split_and!; [done|done|lia|]. cbn [m_posted m_granted]. rewrite (at_blocked _ T' x' _ Hat'). rewrite Htk', Htk. lia.
  - destruct Hen as [(th&Hth&Hwt) _]. rewrite (sa_threads _ _ _ _ Hat) in Hth.
    eapply (then_done _ (fun _ => sm_ok (value + Z.of_nat n) THREAD_NULL (fun _ tk' => tk' = tk))).
    { apply (sm_mod_thread s T x _ Hat self th); [done|]. intros s' Hat'. eexists _, x, tk. split; [exact Hat'|].
      split_and!; [|done|done]. apply (inv_fewer T); [|done]. by apply run_fewer. }
    intros _ s' Hok. split; [done|]. eapply ok_tokens; [exact Hok|lia|]. simpl. intros _ ? ->. lia.
  - destruct Hen as (x0&Hx&Ha). rewrite (sa_sema _ _ _ _ Hat) in Hx. injection Hx as <-.
    eapply then_done; [by apply (destroy_keeps s T x tk (value + posted - granted) (value + Z.of_nat n) Hat Hinv); [lia|]|].
    intros y s' Hok. split; [done|]. eapply ok_tokens; [exact Hok|lia|]. done.
Qed.
Lemma reach_inv value n c : sema_reach value n c -> value + Z.of_nat n < 2 ^ 31 - 1 -> sema_inv value n c.
Proof.
  induction 1 as [c Hc|n c r c' Hr IH Hen Hp]; intros Hw; [by apply created_inv|].
  destruct (sema_step value n c r) as (c2&E&Hinv); [apply IH; lia|lia|done|]. rewrite Hp in E. by injection E as ->.
Qed.

End system.

(** ** The result of another wait *)
Section stale.
Context `{KernelConfig} `{Externals} `{Messages} `{Handoff}.
Context (s : sst) (self wait signal : Z) (x y : semaphore) (th : thread).
Context (Hwait : s_semas s !! wait = Some x) (Hsignal : s_semas s !! signal = Some y) (Hth : ks_threads (s_kst s) !! self = Some th).
Context (Hlive : semaphore_active x = true) (Hdead : semaphore_active y = false) (Hruns : th_waits_on th = None).
Context (Hhandoff : s_handoff_thread s = THREAD_NULL).

(** The semaphore to signal is dead: the call returns what the last wait of the thread came to. *)
Lemma dead_signal_result kr kr' s' : signal <> SEMAPHORE_NULL -> s_semas s' !! signal = Some y ->
  ks_threads (s_kst s') !! self = Some th -> s_handoff_thread s' = THREAD_NULL ->
  (forall s2, semaphore_convert_wait_result (th_wait_result th) s2 = Done (kr', s2)) -> kr' <> KERN_ABORTED ->
  wp (wait_signal self signal kr) (fun kr2 s2 => kr2 = kr' /\ s_semas s2 = s_semas s' /\ s_handoff_thread s2 = THREAD_NULL) s'.
Proof using Hdead Hruns.
  intros Hne Hs' Hth' Hh' Hconv Hna. unfold wait_signal. rewrite (proj2 (Z.eqb_neq _ _) Hne).
  apply wp_bind. unfold semaphore_signal_internal. apply wp_bind. unfold wp at 1, get_sema. rewrite Hs', Hdead. simpl.
  apply wp_ret, wp_bind, wp_gets. simpl. apply wp_bind, wp_massert; [by rewrite Hh'|]. apply wp_bind, wp_on_kst, wp_bind.
  unfold wp at 1, get_thread at 1. rewrite Hth'. apply wp_modify, wp_bind, wp_on_kst. unfold wp at 1, get_thread. simpl.
  rewrite lookup_insert_eq, bool_decide_true by done. apply wp_bind. unfold wp at 1. rewrite Hconv. apply wp_ret.
  by rewrite bool_decide_false.
Qed.

(** C33. [semaphore_wait_internal] asks for the result of the thread's wait when the semaphore
    it was to signal is dead, also where the thread never began to wait.  A call that must not
    block, on a semaphore without a token, then reports the success of an earlier wait and has
    taken nothing; and one that took a token reports the timeout of an earlier wait, and the
    token is lost. *)
Theorem stale_wait_result :
  wait <> SEMAPHORE_NULL -> signal <> SEMAPHORE_NULL ->
  (sm_count x <= 0 -> th_wait_result th = THREAD_AWAKENED ->
   exists s', semaphore_timedwait_signal self wait signal 0 0 s = Done (SemaDone KERN_SUCCESS, s') /\ s_semas s' = s_semas s) /\
  (0 < sm_count x -> th_wait_result th = THREAD_TIMED_OUT ->
   exists s', semaphore_timedwait_signal self wait signal 0 0 s = Done (SemaDone KERN_OPERATION_TIMED_OUT, s') /\
     s_semas s' = <[wait := set_sm_count (sm_count x - 1) x]> (s_semas s)).
Proof using Hwait Hsignal Hth Hlive Hdead Hruns Hhandoff.
  intros Hw0 Hs0. assert (wait <> signal) as Hws by congruence. unfold semaphore_timedwait_signal. rewrite (proj2 (Z.eqb_neq _ _) Hw0). cbn [BAD_MACH_TIMESPEC].
  assert (forall kr' semas', kr' <> KERN_ALREADY_WAITING -> kr' <> KERN_ABORTED ->
    (forall s2 : sst, semaphore_convert_wait_result (th_wait_result th) s2 = Done (kr', s2)) -> semas' !! signal = Some y ->
    wp (wait_section self wait SEMAPHORE_TIMEOUT_NOBLOCK) (fun _ s' => s' = set_s_semas semas' s) s ->
    exists s', semaphore_wait_internal self wait signal SEMAPHORE_TIMEOUT_NOBLOCK s = Done (SemaDone kr', s') /\ s_semas s' = semas') as Hall.
  { intros kr' semas' Hkr Hna Hconv Hy Hsec.
    assert (wp (semaphore_wait_internal self wait signal SEMAPHORE_TIMEOUT_NOBLOCK)
      (fun o s' => o = SemaDone kr' /\ s_semas s' = semas') s) as Hwp; [|by apply wp_elim in Hwp as (o&s'&?&->&?); exists s'].
    apply wp_bind. eapply wp_mono; [exact Hsec|]. intros kr s1 ->. apply wp_bind.
    eapply wp_mono; [by apply (dead_signal_result kr kr')|]. intros kr2 s2 (->&Hse&Hh). simpl in Hse.
    apply wp_bind, wp_gets. rewrite bool_decide_true by done. by apply wp_bind, wp_massert; [rewrite Hh|apply wp_ret]. }
  split; intros Hc Hr.
  - apply Hall; [done|done|by rewrite Hr|done|]. apply wp_bind. unfold wp at 1, get_sema. rewrite Hwait, Hlive. simpl.
    rewrite (proj2 (Z.ltb_ge _ _) Hc). apply wp_ret. by destruct s.
  - apply Hall; [done|done|by rewrite Hr|by rewrite lookup_insert_ne|]. apply wp_bind. unfold wp at 1, get_sema.
    rewrite Hwait, Hlive. simpl. rewrite (proj2 (Z.ltb_lt _ _) Hc). by apply wp_bind, wp_modify, wp_ret.
Qed.
End stale.

(** ** Instances *)
Section instances.
#[local] Existing Instances DEVELOPMENT plain_externals plain_messages.
#[local] Instance all_handoff : Handoff := {| thread_allowed_for_handoff _ _ := true |}.

(** A task at 0x50 with a semaphore at 0x9000, and three threads. *)
Definition before_sema : sst :=
  mk_sst (set_ks_threads {[ 0x40 := idle_thread; 0x41 := woken THREAD_AWAKENED idle_thread; 0x42 := idle_thread ]} (one_port fresh_port))
    ∅ {[ 0x50 := mk_sema_task true [] 0 ]} THREAD_NULL.
Definition sema_state {A} (x : outcome (A * sst)) : sst := match x with Done (_, s) => s | _ => before_sema end.
Definition new_sema : sema_config := Eval vm_compute in
  mk_sema_config (sema_state (semaphore_create 0x9000 0x50 0 1 before_sema)) 0 0.
Lemma new_sema_created : sema_created 0x9000 1 new_sema.
Proof.
  exists before_sema, 0x50, 0. split_and!; [vm_compute; reflexivity|lia|vm_compute; reflexivity|reflexivity|reflexivity|reflexivity].
Qed.
Definition sema_run (r : sema_request) (c : sema_config) : sema_config :=
  match sema_perform 0x9000 r c with Done c' => c' | _ => c end.
(** The first wait takes the token, the second blocks. *)
Definition sema_taken : sema_config := Eval vm_compute in sema_run (SmWait 0x40 SEMAPHORE_OPTION_NONE) new_sema.
Definition sema_blocked : sema_config := Eval vm_compute in sema_run (SmWait 0x41 SEMAPHORE_OPTION_NONE) sema_taken.
Lemma blocked_reach : sema_reach 0x9000 1 2 sema_blocked.
Proof.
  eapply (sema_next 0x9000 1 1 sema_taken (SmWait 0x41 SEMAPHORE_OPTION_NONE)).
  - eapply (sema_next 0x9000 1 0 new_sema (SmWait 0x40 SEMAPHORE_OPTION_NONE)).
    + apply sema_start, new_sema_created.
    + eexists. split; vm_compute; reflexivity.
    + vm_compute. reflexivity.
  - eexists. split; vm_compute; reflexivity.
  - vm_compute. reflexivity.
Qed.


(** The semaphore at 0x9000 has no token, the one at 0x9100 was destroyed. *)
Definition dead_signal : sst :=
  mk_sst (s_kst before_sema) {[ 0x9000 := mk_semaphore 0x50 IP_NULL 1 0; 0x9100 := mk_semaphore TASK_NULL IP_NULL 1 0 ]}
    {[ 0x50 := mk_sema_task true [0x9000] 1 ]} THREAD_NULL.
Lemma stale_wait_result_witness :
  exists s', semaphore_timedwait_signal 0x41 0x9000 0x9100 0 0 dead_signal = Done (SemaDone KERN_SUCCESS, s') /\
    s_semas s' = s_semas dead_signal.
Proof.
  apply (stale_wait_result dead_signal 0x41 0x9000 0x9100 (mk_semaphore 0x50 IP_NULL 1 0) (mk_semaphore TASK_NULL IP_NULL 1 0)
    (woken THREAD_AWAKENED idle_thread)); try reflexivity; try discriminate.
Defined.
End instances.
