(* ===== verification/GuardProps.v ===== *)
(** * Guards on receive rights

    The guard calls of [mach_port.c] on one receive right refine a small
    machine, and a strict guard yields only to who knows it. *)

From S2P Require Import Prelude MachPort Prng OsRefcnt IpcTable IpcHash IpcState IpcSpace EntryFacts IpcEntry EntrySpec IpcPort IpcChain PortSpec Samples IpcRequest RequestProps IpcPortLife IpcRight RightDrop RightCopy IpcObject MachPortCalls RightSpec LookupProps.

(** ** What a guard is *)
Record guard_state := mk_guard { g_context : Z; g_guarded : bool; g_strict : bool; g_immovable : bool }.
Inductive guard_op :=
| Guard (guard flags : Z) | Unguard (guard : Z) | SwapGuard (old_guard new_guard : Z) | SetContext (context : Z).

Definition guard_step (s : guard_state) (op : guard_op) : guard_state * kern_return_t :=
  let refuse := (s, KERN_INVALID_ARGUMENT) in
  match op with
  | Guard guard flags =>
    if negb (g_context s =? 0) then refuse
    else (mk_guard guard true (has flags MPG_STRICT)
            (g_immovable s || has flags MPG_IMMOVABLE_RECEIVE), KERN_SUCCESS)
  | Unguard guard =>
    if g_guarded s && (g_context s =? guard)
    then (mk_guard 0 false false (g_immovable s), KERN_SUCCESS) else refuse
  | SwapGuard old new =>
    if g_guarded s && negb (g_strict s) && (g_context s =? old)
    then (mk_guard new (g_guarded s) (g_strict s) (g_immovable s), KERN_SUCCESS) else refuse
  | SetContext context =>
    if g_strict s then refuse
    else (mk_guard context (g_guarded s) (g_strict s) (g_immovable s), KERN_SUCCESS)
  end.
Fixpoint guard_steps (s : guard_state) (ops : list guard_op) : guard_state * list kern_return_t :=
  match ops with
  | [] => (s, [])
  | op :: ops =>
    let '(s, kr) := guard_step s op in let '(s, krs) := guard_steps s ops in (s, kr :: krs)
  end.

Definition guard_of (p : ipc_port) : guard_state :=
  mk_guard (ip_context p) (ip_guarded p) (ip_strict_guard p) (ip_immovable_receive p).
Definition with_guard (s : guard_state) (p : ipc_port) : ipc_port :=
  set_ip_immovable_receive (g_immovable s) (set_ip_strict_guard (g_strict s)
    (set_ip_guarded (g_guarded s) (set_ip_context (g_context s) p))).
Lemma with_guard_of p : with_guard (guard_of p) p = p.
Proof. by destruct p. Qed.
Lemma guard_of_with s p : guard_of (with_guard s p) = s.
Proof. by destruct s. Qed.
Lemma with_guard_twice s s' p : with_guard s' (with_guard s p) = with_guard s' p.
Proof. done. Qed.

Section calls.
Context `{KernelConfig} `{TableSizes} `{Concurrency} `{Externals} `{RequestSizes} `{Caller}.

Definition guard_call (space name : Z) (op : guard_op) : M kst kern_return_t :=
  match op with
  | Guard guard flags => mach_port_guard_with_flags space name guard flags
  | Unguard guard => mach_port_unguard space name guard
  | SwapGuard old new => mach_port_swap_guard space name old new
  | SetContext context => mach_port_set_context space name context
  end.
Fixpoint guard_calls (space name : Z) (ops : list guard_op) : M kst (list kern_return_t) :=
  match ops with
  | [] => ret []
  | op :: ops =>
    let* kr := guard_call space name op in let* krs := guard_calls space name ops in ret (kr :: krs)
  end.

(** A name of a space at rest that denotes the receive right of [p]. *)
Record receives (k : kst) (t : list ipc_entry) (fl : list Z) (name i : Z) (p : ipc_port) : Prop := {
  rv_space : space_wf (ks_space k) t fl None;
  rv_name : name_entry t name = Some i;
  rv_valid : 0 <= name /\ MACH_PORT_VALID name = true;
  rv_type : has (ie_bits (anth t i)) MACH_PORT_TYPE_RECEIVE = true;
  rv_object : object_at t i <> IO_NULL;
  rv_port : ks_ports k !! object_at t i = Some p;
  rv_in : ip_in_space p (is_self (ks_space k)) = true;
}.

Context (space : Z) (Hspace : space <> IS_NULL) (Hq : forall n k, other n k = k).

Lemma translate_receive_run k t fl name i p :
  receives k t fl name i p ->
  exists n, ipc_port_translate_receive name k = Done ((KERN_SUCCESS, object_at t i), set_ks_clock n k).
Proof using Hq.
  intros [Hsw Hn [Hn0 _] Hty Ho Hp Hin]. destruct (lookup_read_quiet_run k t fl name Hq Hsw Hn0) as [n Hr].
  exists n. unfold ipc_port_translate_receive, ipc_object_translate.
  change (MACH_PORT_RIGHT_VALID_TRANSLATE MACH_PORT_RIGHT_RECEIVE) with true. cbn [negb].
  assert (read_result k t name = (KERN_SUCCESS, Some (ie_bits (anth t i), object_at t i))) as Hres.
  { unfold read_result. rewrite Hn, (proj2 (Z.eqb_neq _ _) Ho). unfold object_alive. rewrite Hp.
    assert (ip_active p = true) as -> by (unfold ip_in_space, ip_in_a_space in Hin; by repeat apply andb_true_iff in Hin as [Hin _]).
    done. }
  rewrite Hres in Hr. rewrite bind_assoc, (bind_run _ _ _ _ _ Hr).
  change (MACH_PORT_TYPE MACH_PORT_RIGHT_RECEIVE) with MACH_PORT_TYPE_RECEIVE. unfold has in Hty. change MACH_PORT_TYPE_NONE with 0.
  apply negb_true_iff in Hty. rewrite Hty.
  rewrite (bind_run (ret _) _ (set_ks_clock n k) _ _ eq_refl), bool_decide_eq_true_2 by done.
  rewrite (bind_run (get_space is_self) _ (set_ks_clock n k) _ _ eq_refl).
  rewrite (bind_run (get_port _) _ (set_ks_clock n k) p (set_ks_clock n k)) by (unfold get_port; simpl; by rewrite Hp).
  simpl. by rewrite Hin.
Qed.

(** The calls on receive rights reach the port. *)
Lemma wp_with_guardable k t fl name i p f Q :
  receives k t fl name i p ->
  (forall n, wp (f (object_at t i) p) Q (set_ks_clock n k)) -> wp (with_guardable space name f) Q k.
Proof using Hspace Hq.
  intros Hr Hf. destruct (translate_receive_run k t fl name i p Hr) as [n Hrun]. destruct Hr as [_ _ [_ Hv] _ _ Hp _].
  unfold with_guardable. destruct (Z.eqb_spec space IS_NULL); [done|]. rewrite Hv. cbn [negb].
  apply wp_bind. unfold wp at 1. rewrite Hrun, bool_decide_eq_true_2 by done.
  apply wp_bind, (wp_get_port _ _ p); [done|]. apply Hf.
Qed.
Lemma wp_with_receive {A} k t fl name i p invalid (none : A) f Q :
  receives k t fl name i p ->
  (forall n, wp (f (object_at t i) p) Q (set_ks_clock n k)) -> wp (with_receive space name invalid none f) Q k.
Proof using Hspace Hq.
  intros Hr Hf. destruct (translate_receive_run k t fl name i p Hr) as [n Hrun]. destruct Hr as [_ _ [_ Hv] _ _ Hp _].
  unfold with_receive. destruct (Z.eqb_spec space IS_NULL); [done|]. rewrite Hv. cbn [negb].
  apply wp_bind. unfold wp at 1. rewrite Hrun, bool_decide_eq_true_2 by done.
  apply wp_bind, (wp_get_port _ _ p); [done|]. apply Hf.
Qed.

(** [k'] is [k] with the port replaced, but for the trace and the clock. *)
Definition only_port (k : kst) (a : Z) (p : ipc_port) (k' : kst) : Prop :=
  ks_space k' = ks_space k /\ ks_psets k' = ks_psets k /\ ks_ports k' = <[a := p]> (ks_ports k).

Lemma only_port_same k a p n : ks_ports k !! a = Some p -> only_port k a p (set_ks_clock n k).
Proof using. intros Hp. split; [done|]. split; [done|]. simpl. by rewrite insert_id. Qed.

Lemma guard_call_ok k t fl name i p op :
  receives k t fl name i p ->
  wp (guard_call space name op) (fun kr k' => let '(s, r) := guard_step (guard_of p) op in
    kr = r /\ only_port k (object_at t i) (with_guard s p) k') k.
Proof using Hspace Hq.
  intros Hr. pose proof (rv_port _ _ _ _ _ _ Hr) as Hp.
  assert (forall n, only_port k (object_at t i) (with_guard (guard_of p) p) (set_ks_clock n k)) as Hsame
    by (intros n; rewrite with_guard_of; by apply only_port_same).
  destruct op as [guard flags|guard|old new|context]; simpl.
  - eapply wp_with_guardable; [done|]. intros n. apply wp_bind. unfold mach_port_guard_locked.
    apply wp_bind, (wp_get_port _ _ p); [done|]. destruct (ip_context p =? 0); cbn [negb].
    + apply wp_bind, wp_put_port, wp_ret, wp_bind, wp_ret, wp_ret. split; [done|]. split; [done|]. split; [done|].
      simpl. f_equal. unfold with_guard. simpl. destruct (ip_immovable_receive p) eqn:Hi; [|done]. by destruct p; simpl in Hi; subst.
    + apply wp_ret, wp_bind, wp_emit, wp_ret. split; [done|]. apply (Hsame n).
  - eapply wp_with_guardable; [done|]. intros n. unfold mach_port_unguard_locked.
    apply wp_bind, (wp_get_port _ _ p); [done|]. destruct (ip_guarded p); cbn [negb andb];
      [destruct (ip_context p =? guard); cbn [negb]|].
    + apply wp_bind, wp_put_port, wp_ret. split; [done|]. split; [done|]. split; [done|]. simpl. by destruct p.
    + apply wp_bind, wp_emit, wp_ret. split; [done|]. apply (Hsame n).
    + apply wp_bind, wp_emit, wp_ret. split; [done|]. apply (Hsame n).
  - eapply wp_with_guardable; [done|]. intros n.
    destruct (ip_guarded p) eqn:Hg; cbn [negb andb]; [destruct (ip_strict_guard p) eqn:Hs; cbn [negb andb];
      [|destruct (ip_context p =? old); cbn [negb]]|].
    + apply wp_bind, wp_emit, wp_ret. split; [done|]. apply (Hsame n).
    + apply wp_bind, wp_put_port, wp_ret. split; [done|]. split; [done|]. split; [done|]. simpl. f_equal.
      unfold with_guard. simpl. by destruct p; simpl in *; subst.
    + apply wp_bind, wp_emit, wp_ret. split; [done|]. apply (Hsame n).
    + apply wp_bind, wp_emit, wp_ret. split; [done|]. apply (Hsame n).
  - apply wp_bind. eapply wp_with_receive; [done|]. intros n. destruct (ip_strict_guard p) eqn:Hs.
    + apply wp_bind, wp_emit, wp_ret, wp_ret. split; [done|]. apply (Hsame n).
    + apply wp_bind, wp_put_port, wp_ret, wp_ret. split; [done|]. split; [done|]. split; [done|]. simpl. f_equal.
      unfold with_guard. simpl. by destruct p; simpl in *; subst.
Qed.

Lemma guard_calls_ok t fl name i : forall ops k p,
  receives k t fl name i p ->
  wp (guard_calls space name ops) (fun krs k' => let '(s, rs) := guard_steps (guard_of p) ops in
    krs = rs /\ only_port k (object_at t i) (with_guard s p) k') k.
Proof using Hspace Hq.
  induction ops as [|op ops IH]; intros k p Hr; simpl.
  - apply wp_ret. split; [done|]. rewrite with_guard_of. pose proof (only_port_same k _ p (ks_clock k) (rv_port _ _ _ _ _ _ Hr)) as Hs.
    by destruct k.
  - apply wp_bind. eapply wp_mono; [by eapply guard_call_ok|]. intros kr k1 Hk1.
    destruct (guard_step (guard_of p) op) as [s r]. destruct Hk1 as (->&Hsp&Hps&Hpo).
    assert (receives k1 t fl name i (with_guard s p)) as Hr1.
    { destruct Hr. split; try done; [by rewrite Hsp|by rewrite Hpo, lookup_insert_eq|by rewrite Hsp]. }
    apply wp_bind. eapply wp_mono; [by apply IH|]. intros krs k2 Hk2. rewrite guard_of_with in Hk2.
    destruct (guard_steps s ops) as [s2 rs]. destruct Hk2 as (->&Hsp2&Hps2&Hpo2). apply wp_ret.
    split; [done|]. split; [congruence|]. split; [congruence|]. rewrite Hpo2, Hpo, insert_insert_eq. done.
Qed.

(** C27. Any history of guard, unguard, swap and set-context calls on a receive
    right returns what the guard machine says, and changes the port's context,
    guard bits and stickiness as it says, and nothing else of the space or the
    ports. *)
Theorem guard_calls_refine ops k t fl name i p :
  receives k t fl name i p ->
  wp (guard_calls space name ops) (fun krs k' => let '(s, rs) := guard_steps (guard_of p) ops in
    krs = rs /\ only_port k (object_at t i) (with_guard s p) k') k.
Proof using Hspace Hq. apply guard_calls_ok. Qed.

Lemma strict_guard_stuck s ops :
  g_guarded s = true -> g_strict s = true -> g_context s <> 0 -> Unguard (g_context s) ∉ ops ->
  guard_steps s ops = (s, replicate (length ops) KERN_INVALID_ARGUMENT).
Proof using.
  intros Hg Hs Hc. induction ops as [|op ops IH]; intros Hno; [done|]. simpl.
  apply not_elem_of_cons in Hno as [Hop Hno].
  assert (guard_step s op = (s, KERN_INVALID_ARGUMENT)) as ->.
  { destruct op as [guard flags|guard|old new|context]; simpl.
    - by rewrite (proj2 (Z.eqb_neq _ _) Hc).
    - rewrite Hg. destruct (Z.eqb_spec (g_context s) guard) as [<-|]; [done|done].
    - by rewrite Hs, andb_false_r.
    - by rewrite Hs. }
  by rewrite IH.
Qed.

(** A strict guard holds: while nobody unguards with the guard itself, every
    guard, unguard, swap and set-context call on a strictly guarded receive
    right is refused and leaves the port as it is. *)
Theorem strict_guard_holds ops k t fl name i p :
  receives k t fl name i p -> ip_guarded p = true -> ip_strict_guard p = true -> ip_context p <> 0 ->
  Unguard (ip_context p) ∉ ops ->
  wp (guard_calls space name ops) (fun krs k' =>
    krs = replicate (length ops) KERN_INVALID_ARGUMENT /\
    ks_ports k' = ks_ports k /\ ks_space k' = ks_space k) k.
Proof using Hspace Hq.
  intros Hr Hg Hs Hc Hno. eapply wp_mono; [by eapply guard_calls_ok|]. intros krs k'.
  rewrite strict_guard_stuck by done. intros (->&Hsp&_&Hpo). split; [done|]. split; [|done].
  rewrite Hpo, with_guard_of. apply insert_id, Hr.
Qed.
End calls.

(** ** The theorems at work *)
#[local] Existing Instances DEVELOPMENT SMALL_4K quiet plain_externals SMALL_REQUESTS.

(** A task without privileges, in the space at 0x200. *)
Definition plain_caller : Caller := {|
  current_space := 0x200;
  MAX_TRAILER_SIZE := 68;
  task_is_graphics_server := false;
  work_interval_port_type_render_server _ := false;
  task_in_privileged_coalition := false;
  copyin_service_port_info _ := None;
  ipc_service_port_label_alloc _ := (KERN_RESOURCE_SHORTAGE, 0);
  ipc_service_port_derive_sblabel _ := (KERN_INVALID_NAME, 0, false) |}.
#[local] Existing Instance plain_caller.

Lemma sample_receives p :
  ip_in_space p 0x200 = true ->
  receives (sample_state 0x5000 MACH_PORT_TYPE_RECEIVE 0 p) (sample_table 0x5000 MACH_PORT_TYPE_RECEIVE 0) [2; 3] 0x103 1 p.
Proof.
  intros Hp. split; try done.
  apply sample_wf; [lia| |done]. apply list_elem_of_further, list_elem_of_here.
Qed.

Lemma guard_calls_refine_witness :
  exists k', guard_calls 0x200 0x103 [Guard 7 MPG_STRICT; SetContext 9; Unguard 7; Unguard 7]
    (sample_state 0x5000 MACH_PORT_TYPE_RECEIVE 0 fresh_port) =
    Done ([KERN_SUCCESS; KERN_INVALID_ARGUMENT; KERN_SUCCESS; KERN_INVALID_ARGUMENT], k').
Proof.
  destruct (wp_elim _ _ _ (guard_calls_refine (H1 := quiet) 0x200 ltac:(done) (fun _ _ => eq_refl)
    [Guard 7 MPG_STRICT; SetContext 9; Unguard 7; Unguard 7] _ _ _ _ _ _ (sample_receives fresh_port eq_refl)))
    as (krs&k'&Hr&->&_).
  exists k'. exact Hr.
Defined.

Definition guarded_port : ipc_port := set_ip_context 7 (set_ip_strict_guard true (set_ip_guarded true fresh_port)).

Lemma strict_guard_holds_witness :
  exists k', guard_calls 0x200 0x103 [Guard 9 0; SetContext 9; SwapGuard 7 9; Unguard 9]
    (sample_state 0x5000 MACH_PORT_TYPE_RECEIVE 0 guarded_port) =
    Done (replicate 4 KERN_INVALID_ARGUMENT, k') /\ ks_ports k' !! 0x5000 = Some guarded_port.
Proof.
  destruct (wp_elim _ _ _ (strict_guard_holds (H1 := quiet) 0x200 ltac:(done) (fun _ _ => eq_refl)
    [Guard 9 0; SetContext 9; SwapGuard 7 9; Unguard 9] _ _ _ _ _ _ (sample_receives guarded_port eq_refl)
    eq_refl eq_refl ltac:(done) ltac:(intros Hin; repeat (apply elem_of_cons in Hin as [[=]|Hin]); by apply not_elem_of_nil in Hin)))
    as (krs&k'&Hr&->&Hports&_).
  exists k'. split; [exact Hr|]. by rewrite Hports.
Defined.
