(* ===== verification/RightMove.v ===== *)
(** * Moving send rights

    The fast path of [mach_port_insert_right] computes what copying the right
    in and out again computes, and a right moved out of its entry comes back. *)

From S2P Require Import Prelude MachPort Prng OsRefcnt IpcTable IpcHash IpcState IpcSpace EntryFacts IpcEntry EntrySpec IpcPort IpcChain PortSpec Samples IpcRequest RequestProps IpcPortLife IpcRight RightDrop RightCopy IpcObject RightSpec RightUrefs.

Lemma wp_run {S A} (m : M S A) a s s1 : wp m (fun b s' => b = a /\ s' = s1) s -> m s = Done (a, s1).
Proof. intros (b&s'&Hm&->&->)%wp_elim. done. Qed.

(** ** References *)
Lemma ip_reference_run k a p :
  ks_ports k !! a = Some p -> 1 <= io_references p < OS_REFCNT_MAX_COUNT ->
  ip_reference a k = Done (tt, with_port a (set_io_references (io_references p + 1) p) k).
Proof. intros Hp Hr. apply wp_run. by apply (wp_ip_reference _ _ p). Qed.
Lemma ip_release_live_run k a p :
  ks_ports k !! a = Some p -> 1 < io_references p <= OS_REFCNT_MAX_COUNT ->
  ip_release_live a k = Done (tt, with_port a (set_io_references (io_references p - 1) p) k).
Proof. intros Hp Hr. apply wp_run. by apply (wp_ip_release_live _ _ p). Qed.

(** ** Bits of a type *)
Lemma lor_has bits m : Z.land bits m = m -> Z.lor bits m = bits.
Proof.
  intros Hm. apply Z.bits_inj'. intros n Hn. rewrite Z.lor_spec.
  assert (Z.testbit m n = Z.testbit (Z.land bits m) n) as -> by (by rewrite Hm).
  rewrite Z.land_spec. by destruct (Z.testbit bits n).
Qed.
Lemma has_land bits m : Z.land bits m = m -> m <> 0 -> has bits m = true.
Proof. unfold has. intros -> Hm. by rewrite (proj2 (Z.eqb_neq _ _) Hm). Qed.
Lemma send_rights bits :
  Z.land bits MACH_PORT_TYPE_SEND = MACH_PORT_TYPE_SEND -> has bits MACH_PORT_TYPE_SEND_RIGHTS = true.
Proof.
  intros Hs. unfold has. destruct (Z.eqb_spec (Z.land bits MACH_PORT_TYPE_SEND_RIGHTS) 0) as [Hz|]; [|done].
  change MACH_PORT_TYPE_SEND with (Z.land MACH_PORT_TYPE_SEND_RIGHTS MACH_PORT_TYPE_SEND) in Hs at 1.
  rewrite Z.land_assoc, Hz in Hs. discriminate Hs.
Qed.
Lemma land_type bits m : Z.land IE_BITS_TYPE_MASK m = m -> Z.land bits m = Z.land (IE_BITS_TYPE bits) m.
Proof. intros Hm. unfold IE_BITS_TYPE. by rewrite <- Z.land_assoc, Hm. Qed.

(** A port that other operations may take a right on: counts in range. *)
Record roomy (p : ipc_port) : Prop := {
  ro_refs : 1 <= io_references p < OS_REFCNT_MAX_COUNT;
  ro_srights : 0 <= ip_srights p < 2 ^ 32 - 1;
}.

(** One more send right and reference; giving it back restores the port. *)
Definition one_more (p : ipc_port) : ipc_port :=
  set_io_references (io_references p + 1) (set_ip_srights (u32 (ip_srights p + 1)) p).
Lemma one_more_back p : roomy p ->
  set_io_references (io_references (one_more p) - 1)
    (set_ip_srights (u32 (ip_srights (one_more p) - 1)) (one_more p)) = p.
Proof.
  intros [Hr Hs]. unfold one_more. cbn [ip_srights io_references set_io_references set_ip_srights].
  rewrite (u32_small (_ + 1)), u32_small by lia.
  replace (io_references p + 1 - 1) with (io_references p) by lia.
  replace (ip_srights p + 1 - 1) with (ip_srights p) by lia. by destruct p.
Qed.

Lemma one_more_ref p :
  set_io_references (io_references (one_more p) - 1) (one_more p) = set_ip_srights (u32 (ip_srights p + 1)) p.
Proof.
  unfold one_more. cbn [io_references set_io_references set_ip_srights].
  replace (io_references p + 1 - 1) with (io_references p) by lia. by destruct p.
Qed.
Lemma urefs_lor_send bits : IE_BITS_UREFS (Z.lor bits MACH_PORT_TYPE_SEND) = IE_BITS_UREFS bits.
Proof. unfold IE_BITS_UREFS. rewrite Z.land_lor_distr_l. change (Z.land MACH_PORT_TYPE_SEND _) with 0. apply Z.lor_0_r. Qed.

Section fast_path.
Context `{KernelConfig} `{TableSizes} `{Concurrency} `{Externals} `{RequestSizes}.

(** Insertion without the fast path: look the name up, copy a naked right in
    and copy it out again under the same name. *)
Definition insert_by_copy (name msgt_name : Z) : M kst kern_return_t :=
  let* (kr, entry) := ipc_right_lookup_write name in
  match entry with
  | None => ret kr
  | Some index =>
    let* r := ipc_right_copyin name index msgt_name
                IPC_OBJECT_COPYIN_FLAGS_ALLOW_IMMOVABLE_SEND 0 None in
    if negb (bool_decide (ci_kr r = KERN_SUCCESS)) then ret (ci_kr r)
    else
      ipc_right_copyout name index MACH_MSG_TYPE_PORT_SEND IPC_OBJECT_COPYOUT_FLAGS_NONE None
        (ci_object r) ;;*
      ret KERN_SUCCESS
  end.

Context (k : kst) (t : list ipc_entry) (fl : list Z) (i name : Z) (p : ipc_port).
Context (Hsw : space_wf (ks_space k) t fl None) (Hn : name_entry t name = Some i).
Context (Hp : live_port k (anth t i) p) (Hroom : roomy p) (Hvalid : IP_VALID (ie_object (anth t i)) = true).

Let Ht : is_table (ks_space k) = Some t := sw_table _ _ _ _ Hsw.
Lemma move_index : 0 <= i < alen t.
Proof using Hn. apply name_entry_Some in Hn. lia. Qed.

Lemma lookup_write_run : ipc_right_lookup_write name k = Done ((KERN_SUCCESS, Some i), k).
Proof using Hsw Hn.
  unfold ipc_right_lookup_write. rewrite (bind_run _ _ _ _ _ (is_active_run k t Ht)). cbn [negb].
  destruct (wp_elim (ipc_entry_lookup name) (fun r k' => r = name_entry t name /\ k' = k) k)
    as (?&?&Hlk&->&->); [by eapply ipc_entry_lookup_ok|].
  by rewrite (bind_run _ _ _ _ _ Hlk), Hn.
Qed.

(** Copying a right out to an entry that has the send right already. *)
Lemma copyout_again p1 :
  let a := ie_object (anth t i) in
  let bits := ie_bits (anth t i) in
  Z.land bits MACH_PORT_TYPE_SEND = MACH_PORT_TYPE_SEND -> 0 < IE_BITS_UREFS bits < MACH_PORT_UREFS_MAX ->
  ip_active p1 = true -> 1 < ip_srights p1 -> 1 < io_references p1 <= OS_REFCNT_MAX_COUNT ->
  ipc_right_copyout name i MACH_MSG_TYPE_PORT_SEND IPC_OBJECT_COPYOUT_FLAGS_NONE None a (with_port a p1 k) =
  (mod_entry i (set_ie_bits (u32 (bits + 1))) ;;* ipc_entry_modified name ;;* ret None)
    (with_port a (set_io_references (io_references p1 - 1)
       (set_ip_srights (u32 (ip_srights p1 - 1)) p1)) k).
Proof using Hsw Hn Hvalid.
  intros a bits Hs Hu Ha Hsr Hr. pose proof move_index as Hi.
  unfold ipc_right_copyout, copyout_send.
  rewrite (bind_run _ _ _ _ _ (get_entry_run (with_port a p1 k) t Ht i Hi)), massert_run by done.
  rewrite (bind_run _ _ _ _ _ (get_port_run _ a _ (with_port_lookup _ _ _))).
  rewrite massert_run by done. rewrite massert_run by (unfold a; lia). const_tests.
  rewrite when_false_run, bind_assoc.
  rewrite (bind_run _ _ _ _ _ (get_entry_run (with_port a p1 k) t Ht i Hi)), bind_assoc.
  rewrite (bind_run _ _ _ _ _ (get_port_run _ a _ (with_port_lookup _ _ _))).
  rewrite bind_assoc, massert_run by lia. fold bits. rewrite (has_land bits _ Hs) by done.
  rewrite bind_assoc, massert_run by lia. rewrite bind_assoc, massert_run by lia.
  rewrite bind_assoc, massert_run by lia. rewrite bind_assoc, put_port_run, with_port_twice.
  rewrite bind_assoc, (bind_run _ _ _ _ _ (ip_release_live_run _ a
    (set_ip_srights (u32 (ip_srights p1 - 1)) p1) (with_port_lookup _ _ _) Hr)).
  rewrite with_port_twice. destruct (Z.eqb_spec (IE_BITS_UREFS bits) MACH_PORT_UREFS_MAX); [lia|].
  cbn [negb]. unfold when. rewrite bind_assoc, lor_has; done.
Qed.

(** Copying a send right out to an entry with the receive right only. *)
Lemma copyout_first p1 :
  let a := ie_object (anth t i) in
  let bits := ie_bits (anth t i) in
  IE_BITS_TYPE bits = MACH_PORT_TYPE_RECEIVE -> IE_BITS_UREFS bits = 0 ->
  ip_active p1 = true -> 0 < ip_srights p1 -> 1 < io_references p1 <= OS_REFCNT_MAX_COUNT ->
  ipc_right_copyout name i MACH_MSG_TYPE_PORT_SEND IPC_OBJECT_COPYOUT_FLAGS_NONE None a (with_port a p1 k) =
  (mod_entry i (set_ie_bits (u32 (Z.lor bits MACH_PORT_TYPE_SEND + 1))) ;;* ipc_entry_modified name ;;* ret None)
    (with_port a (set_io_references (io_references p1 - 1) p1) k).
Proof using Hsw Hn Hvalid.
  intros a bits Hty Hu Ha Hsr Hr. pose proof move_index as Hi.
  unfold ipc_right_copyout, copyout_send.
  rewrite (bind_run _ _ _ _ _ (get_entry_run (with_port a p1 k) t Ht i Hi)), massert_run by done.
  rewrite (bind_run _ _ _ _ _ (get_port_run _ a _ (with_port_lookup _ _ _))).
  rewrite massert_run by done. rewrite massert_run by (unfold a; lia). const_tests.
  rewrite when_false_run, bind_assoc.
  rewrite (bind_run _ _ _ _ _ (get_entry_run (with_port a p1 k) t Ht i Hi)), bind_assoc.
  rewrite (bind_run _ _ _ _ _ (get_port_run _ a _ (with_port_lookup _ _ _))).
  rewrite bind_assoc, massert_run by lia. fold bits. type_tests Hty.
  rewrite !bind_assoc, massert_run by done. rewrite bind_assoc, massert_run by lia.
  rewrite (bind_run _ _ _ _ _ (ip_release_live_run _ a _ (with_port_lookup _ _ _) Hr)).
  rewrite with_port_twice, bind_assoc. reflexivity.
Qed.

Lemma copyin_make_send_run :
  let a := ie_object (anth t i) in
  has (ie_bits (anth t i)) MACH_PORT_TYPE_RECEIVE = true ->
  ip_receiver_name p = name -> ip_in_space p (is_self (ks_space k)) = true ->
  ipc_right_copyin name i MACH_MSG_TYPE_MAKE_SEND IPC_OBJECT_COPYIN_FLAGS_ALLOW_IMMOVABLE_SEND 0 None k =
  Done (copyin_ok a IP_NULL None, with_port a (one_more (set_ip_mscount (u32 (ip_mscount p + 1)) p)) k).
Proof using Hsw Hn Hp Hroom.
  intros a Hrcv Hname Hin. pose proof move_index as Hi. destruct Hp as [Hpp Hv Ha].
  unfold ipc_right_copyin, copyin_make_send, receive_port.
  rewrite (bind_run _ _ _ _ _ (is_active_run k t Ht)), massert_run by done. const_tests.
  rewrite (bind_run _ _ _ _ _ (get_entry_run k t Ht i Hi)), Hrcv. cbn [negb].
  rewrite bind_assoc, (bind_run (get_space is_self) _ _ _ _ eq_refl).
  rewrite bind_assoc, (bind_run _ _ _ _ _ (get_entry_run k t Ht i Hi)).
  rewrite bind_assoc, massert_run by lia. rewrite bind_assoc, (bind_run _ _ _ _ _ (get_port_run k _ p Hpp)).
  rewrite bind_assoc, when_false_run. rewrite bind_assoc, massert_run by lia.
  rewrite bind_assoc, massert_run by done. rewrite (bind_run (ret _) _ _ _ _ eq_refl).
  unfold ipc_port_make_send_locked. rewrite bind_assoc, (bind_run _ _ _ _ _ (get_port_run k _ p Hpp)).
  rewrite bind_assoc, require_ip_active_run by done. rewrite bind_assoc, put_port_run, bind_assoc.
  erewrite (bind_run (ip_reference _))
    by (apply ip_reference_run; [apply with_port_lookup|exact (ro_refs p Hroom)]).
  rewrite with_port_twice. done.
Qed.

Lemma copyin_copy_send_run :
  let a := ie_object (anth t i) in
  Z.land (ie_bits (anth t i)) MACH_PORT_TYPE_SEND = MACH_PORT_TYPE_SEND ->
  has (ie_bits (anth t i)) MACH_PORT_TYPE_DEAD_NAME = false ->
  0 < IE_BITS_UREFS (ie_bits (anth t i)) -> 0 < ip_srights p ->
  ipc_right_copyin name i MACH_MSG_TYPE_COPY_SEND IPC_OBJECT_COPYIN_FLAGS_ALLOW_IMMOVABLE_SEND 0 None k =
  Done (copyin_ok a IP_NULL None, with_port a (one_more p) k).
Proof using Hsw Hn Hp Hroom.
  intros a Hs Hd Hu Hsr. pose proof move_index as Hi. pose proof Hp as [Hpp Hv Ha].
  unfold ipc_right_copyin, copyin_copy_send.
  rewrite (bind_run _ _ _ _ _ (is_active_run k t Ht)), massert_run by done. const_tests.
  rewrite (bind_run _ _ _ _ _ (get_entry_run k t Ht i Hi)), Hd, send_rights by done. cbn [negb].
  rewrite massert_run by lia. rewrite massert_run by lia.
  rewrite (bind_run _ _ _ _ _ (ipc_right_check_run k t i p name _ Ht Hi Hp)).
  rewrite (bind_run _ _ _ _ _ (get_port_run k _ p Hpp)), (has_land _ _ Hs) by done. cbn [negb andb].
  unfold ipc_port_copy_send_locked. rewrite bind_assoc, (bind_run _ _ _ _ _ (get_port_run k _ p Hpp)).
  rewrite bind_assoc, massert_run by lia. rewrite bind_assoc, put_port_run.
  erewrite (bind_run (ip_reference _))
    by (apply ip_reference_run; [apply with_port_lookup|exact (ro_refs p Hroom)]).
  rewrite with_port_twice. done.
Qed.

(** What the entry and the port must be for [msgt_name] to apply; the user
    references are not pegged. *)
Inductive insertable (msgt_name : Z) : Prop :=
| insertable_first :
    msgt_name = MACH_MSG_TYPE_MAKE_SEND ->
    IE_BITS_TYPE (ie_bits (anth t i)) = MACH_PORT_TYPE_RECEIVE -> IE_BITS_UREFS (ie_bits (anth t i)) = 0 ->
    ip_receiver_name p = name -> ip_in_space p (is_self (ks_space k)) = true -> insertable msgt_name
| insertable_make :
    msgt_name = MACH_MSG_TYPE_MAKE_SEND ->
    IE_BITS_TYPE (ie_bits (anth t i)) = MACH_PORT_TYPE_SEND_RECEIVE ->
    0 < IE_BITS_UREFS (ie_bits (anth t i)) < MACH_PORT_UREFS_MAX -> 0 < ip_srights p ->
    ip_receiver_name p = name -> ip_in_space p (is_self (ks_space k)) = true -> insertable msgt_name
| insertable_copy :
    msgt_name = MACH_MSG_TYPE_COPY_SEND ->
    IE_BITS_TYPE (ie_bits (anth t i)) = MACH_PORT_TYPE_SEND \/
    IE_BITS_TYPE (ie_bits (anth t i)) = MACH_PORT_TYPE_SEND_RECEIVE ->
    0 < IE_BITS_UREFS (ie_bits (anth t i)) < MACH_PORT_UREFS_MAX -> 0 < ip_srights p ->
    insertable msgt_name.

(** The fast path up to its choice of branch. *)
Lemma insert_send_right_enter msgt_name :
  msgt_name = MACH_MSG_TYPE_MAKE_SEND \/ msgt_name = MACH_MSG_TYPE_COPY_SEND ->
  ipc_object_insert_send_right name msgt_name k =
  (let e := anth t i in
   let bits := ie_bits e in
   if msgt_name =? MACH_MSG_TYPE_MAKE_SEND then
     if has bits MACH_PORT_TYPE_RECEIVE then
       let p := set_ip_mscount (u32 (ip_mscount p + 1)) p in
       put_port (ie_object e) (if negb (has bits MACH_PORT_TYPE_SEND)
         then set_ip_srights (u32 (ip_srights p + 1)) p else p) ;;*
       let bits := if negb (has bits MACH_PORT_TYPE_SEND) then Z.lor bits MACH_PORT_TYPE_SEND else bits in
       let bits := if IE_BITS_UREFS bits <? MACH_PORT_UREFS_MAX then u32 (bits + 1) else bits in
       put_entry i (set_ie_bits bits e) ;;* ipc_entry_modified name ;;* ret KERN_SUCCESS
     else ret KERN_INVALID_RIGHT
   else if has bits MACH_PORT_TYPE_SEND then
     when (IE_BITS_UREFS bits <? MACH_PORT_UREFS_MAX) (put_entry i (set_ie_bits (u32 (bits + 1)) e)) ;;*
     ipc_entry_modified name ;;* ret KERN_SUCCESS
   else ret KERN_INVALID_RIGHT) k.
Proof using Hsw Hn Hp Hvalid.
  intros Hm. pose proof move_index as Hi. pose proof Hp as [Hpp Hv Ha].
  unfold ipc_object_insert_send_right. rewrite massert_run by (by destruct Hm as [->| ->]).
  rewrite (bind_run _ _ _ _ _ lookup_write_run), (bind_run _ _ _ _ _ (get_entry_run k t Ht i Hi)).
  rewrite Hvalid. cbn [negb].
  rewrite (bind_run (io_active _) _ k true k) by (unfold io_active; by rewrite Hpp, Ha). cbn [negb].
  destruct Hm as [->| ->]; const_tests; [|done].
  destruct (has (ie_bits (anth t i)) MACH_PORT_TYPE_RECEIVE); [|done].
  by rewrite (bind_run _ _ _ _ _ (get_port_run k _ p Hpp)).
Qed.

(** Running [mod_entry] on a state whose space is [k]'s. *)
Lemma mod_entry_run {B} f (n : M kst B) q :
  (mod_entry i f ;;* n) (with_port (ie_object (anth t i)) q k) =
  (put_entry i (f (anth t i)) ;;* n) (with_port (ie_object (anth t i)) q k).
Proof using Hsw Hn.
  unfold mod_entry. rewrite bind_assoc.
  by rewrite (bind_run _ _ _ _ _ (get_entry_run (with_port _ q k) t Ht i move_index)).
Qed.

End fast_path.

(** ** Moving a send right out of an entry and back *)

(** The state with other modification marks. *)
Definition marked (lo hi : Z) (k : kst) : kst :=
  upd_space (fun s => set_is_high_mod hi (set_is_low_mod lo s)) k.
(** The state with another table. *)
Definition with_table (t : list ipc_entry) (k : kst) : kst := upd_space (set_is_table (Some t)) k.

Lemma put_entry_run {B} k t i e (n : M kst B) :
  is_table (ks_space k) = Some t -> 0 <= i < alen t ->
  (put_entry i e ;;* n) k = n (with_table (aset t i e) k).
Proof.
  intros Ht Hi. apply (bind_run (put_entry i e) (fun _ => n) k tt). apply wp_run.
  by apply (wp_put_entry _ t).
Qed.

Section round_trip.
Context `{KernelConfig} `{TableSizes} `{Concurrency} `{Externals} `{RequestSizes}.

Lemma modified_run k t fl name :
  space_wf (ks_space k) t fl None -> 0 <= MACH_PORT_INDEX name < alen t ->
  exists lo hi, ipc_entry_modified name k = Done (tt, marked lo hi k) /\
    space_wf (ks_space (marked lo hi k)) t fl None.
Proof.
  intros Hsw Hi.
  destruct (wp_elim (ipc_entry_modified name) (fun _ k' => exists lo hi, k' = marked lo hi k /\
    space_wf (ks_space (marked lo hi k)) t fl None) k) as ([]&k'&Hr&lo&hi&->&Hsw').
  { apply (ipc_entry_modified_ok k t fl None); [done|done|]. intros lo hi ????. exists lo, hi.
    split; [done|]. pose proof (sw_low_mod _ _ _ _ Hsw). pose proof (sw_high_mod _ _ _ _ Hsw).
    apply space_wf_mods; [done|lia|lia]. }
  by exists lo, hi.
Qed.

(** Writing an entry and then the old one again leaves the old table. *)
Lemma aset_back (t : list ipc_entry) i e : 0 <= i < alen t -> aset (aset t i e) i (anth t i) = t.
Proof. intros Hi. unfold aset at 1 2. rewrite list_insert_insert_eq. by apply aset_id. Qed.
Lemma table_restored k t i e lo hi lo' hi' :
  is_table (ks_space k) = Some t -> 0 <= i < alen t ->
  marked lo' hi' (with_table (aset (aset t i e) i (anth t i)) (marked lo hi (with_table (aset t i e) k))) =
  marked lo' hi' k.
Proof.
  intros Ht Hi.
  rewrite aset_back by done.
  destruct k as [s ? ? ? ? ?], s. simpl in Ht. subst. done.
Qed.

Context (k : kst) (t : list ipc_entry) (fl : list Z) (i name : Z) (p : ipc_port).
Context (Hsw : space_wf (ks_space k) t fl None) (Hn : name_entry t name = Some i).
Context (Hp : live_port k (anth t i) p) (Hroom : roomy p) (Hvalid : IP_VALID (ie_object (anth t i)) = true).
Let bits := ie_bits (anth t i).
Let a := ie_object (anth t i).
Context (Hsend : Z.land bits MACH_PORT_TYPE_SEND = MACH_PORT_TYPE_SEND).
Context (Hdead : has bits MACH_PORT_TYPE_DEAD_NAME = false).
Context (Hu : 1 < IE_BITS_UREFS bits < MACH_PORT_UREFS_MAX) (Hsr : 0 < ip_srights p).

Let Ht : is_table (ks_space k) = Some t := sw_table _ _ _ _ Hsw.
Let Hi : 0 <= i < alen t := move_index t i name Hn.

Lemma copyin_move_send_run :
  ipc_right_copyin name i MACH_MSG_TYPE_MOVE_SEND IPC_OBJECT_COPYIN_FLAGS_ALLOW_IMMOVABLE_SEND 0 None k =
  (put_entry i (set_ie_bits (u32 (bits - 1)) (anth t i)) ;;* ipc_entry_modified name ;;*
   ret (copyin_ok a IP_NULL None)) (with_port a (one_more p) k).
Proof using Hsw Hn Hp Hroom Hsend Hdead Hu Hsr.
  pose proof Hp as [Hpp Hv Ha]. unfold ipc_right_copyin, copyin_move_send.
  rewrite (bind_run _ _ _ _ _ (is_active_run k t Ht)), massert_run by done. const_tests.
  rewrite (bind_run _ _ _ _ _ (get_entry_run k t Ht i Hi)). fold bits. rewrite Hdead, send_rights by done.
  cbn [negb]. rewrite massert_run by lia. rewrite massert_run by lia.
  rewrite (bind_run _ _ _ _ _ (ipc_right_check_run k t i p name _ Ht Hi Hp)).
  rewrite (bind_run _ _ _ _ _ (get_port_run k _ p Hpp)), (has_land _ _ Hsend) by done. cbn [negb andb].
  destruct (Z.eqb_spec (IE_BITS_UREFS bits) 1); [lia|].
  unfold ipc_port_copy_send_locked. rewrite bind_assoc, (bind_run _ _ _ _ _ (get_port_run k _ p Hpp)).
  rewrite bind_assoc, massert_run by lia. rewrite bind_assoc, put_port_run.
  erewrite (bind_run (ip_reference _))
    by (apply ip_reference_run; [apply with_port_lookup|exact (ro_refs p Hroom)]).
  rewrite with_port_twice. fold a. unfold urefs_decrement. rewrite (proj2 (Z.ltb_lt _ _)) by lia.
  apply (mod_entry_run k t fl i name Hsw Hn).
Qed.

(** Round trip of a send right: moving one of several user references of a
    send right out of its entry and copying it out to the same name restores the
    whole state (table, reverse hash, port counts, references, trace), except
    for the marks that tell a table growth in progress to look again. *)
Theorem move_send_round_trip :
  exists lo hi,
    (let* r := ipc_right_copyin name i MACH_MSG_TYPE_MOVE_SEND
                 IPC_OBJECT_COPYIN_FLAGS_ALLOW_IMMOVABLE_SEND 0 None in
     ipc_right_copyout name i MACH_MSG_TYPE_PORT_SEND IPC_OBJECT_COPYOUT_FLAGS_NONE None (ci_object r)) k
    = Done (None, marked lo hi k).
Proof using Hsw Hn Hp Hroom Hvalid Hsend Hdead Hu Hsr.
  pose proof Hn as (Hix&Hi1&Hg&Hty)%name_entry_Some. pose proof Hp as [Hpp Hv Ha].
  pose proof Hroom as [Hrr Hrs]. pose proof (tw_bits _ _ _ (sw_wf _ _ _ _ Hsw) i Hi1) as [Hb (g&Hgr&Hgg)].
  destruct (urefs_change bits (IE_BITS_UREFS bits - 1) Hb ltac:(lia)) as (Hb1&Hu1&Ht1&Hg1).
  replace (bits + _) with (bits - 1) in * by lia. set (e := set_ie_bits (u32 (bits - 1)) (anth t i)).
  set (t1 := aset t i e). assert (anth t1 i = e) as He by (apply anth_aset_eq; lia).
  destruct (space_wf_put (ks_space k) t fl i e) as [Hsw1 Hag]; try done.
  { split; [done|]. exists g. split; [done|]. by change (ie_bits e) with (u32 (bits - 1)); rewrite Hg1. }
  assert (alen t1 = alen t) as Hl1 by apply alen_aset.
  rewrite (bind_same _ _ _ _ _ copyin_move_send_run), bind_assoc.
  rewrite (put_entry_run _ t) by done. fold e t1. rewrite bind_assoc.
  destruct (modified_run (with_table t1 (with_port a (one_more p) k)) t1 fl name) as (lo&hi&Hm&Hsw2); [done|lia|].
  rewrite (bind_run _ _ _ _ _ Hm), (bind_run (ret _) _ _ _ _ eq_refl). cbn [ci_object copyin_ok].
  set (k1 := marked lo hi (with_table t1 k)).
  change (marked lo hi (with_table t1 (with_port a (one_more p) k))) with (with_port a (one_more p) k1) in *.
  assert (name_entry t1 name = Some i) as Hn1.
  { apply name_entry_Some. unfold type_at. rewrite Hl1, He. split; [done|]. split; [lia|].
    change (ie_bits e) with (u32 (bits - 1)). rewrite Hg1, Ht1. done. }
  assert (a = ie_object (anth t1 i)) as Ha1 by (by rewrite He).
  pose proof (copyout_again k1 t1 fl i name ltac:(exact Hsw2) Hn1 ltac:(by rewrite <- Ha1) (one_more p)) as Hout.
  cbv zeta in Hout. rewrite <- Ha1, He in Hout. change (ie_bits e) with (u32 (bits - 1)) in Hout.
  assert (Z.land (u32 (bits - 1)) MACH_PORT_TYPE_SEND = MACH_PORT_TYPE_SEND) as Hs1
    by (by rewrite (land_type _ _ eq_refl), Ht1, <- (land_type _ _ eq_refl)).
  assert (1 < ip_srights (one_more p)) as Hsr1 by (cbn; rewrite u32_small; lia).
  rewrite (Hout Hs1 ltac:(lia) Ha Hsr1 ltac:(cbn; lia)), one_more_back, (with_port_id k1 a p) by done.
  unfold mod_entry. rewrite bind_assoc, (bind_run _ _ _ _ _ (get_entry_run k1 t1 eq_refl i ltac:(lia))), He.
  rewrite (put_entry_run _ t1) by (done || lia).
  assert (set_ie_bits (u32 (u32 (bits - 1) + 1)) e = anth t i) as ->.
  { unfold e. rewrite (u32_small (bits - 1)), u32_small by (pose proof (IE_BITS_UREFS_arith bits); dlia).
    replace (bits - 1 + 1) with bits by lia. unfold bits. by destruct (anth t i). }
  destruct (modified_run (with_table (aset t1 i (anth t i)) k1) (aset t1 i (anth t i)) fl name) as (lo'&hi'&Hm'&_).
  - unfold t1. rewrite aset_back by done.
    pose proof Hsw as [_ Hwf Hhc Hfc _ _]. pose proof Hsw2 as [_ _ _ _ Hlo Hhi]. rewrite Hl1 in *. by split.
  - rewrite alen_aset. lia.
  - exists lo', hi'. rewrite (bind_run _ _ _ _ _ Hm'). unfold ret. do 2 f_equal.
    unfold k1, t1. by apply table_restored.
Qed.
End round_trip.

(** ** The theorems at work *)
#[local] Existing Instances DEVELOPMENT SMALL_4K quiet plain_externals SMALL_REQUESTS.

Lemma sent_port_live urefs :
  live_port (sample_state 0x5000 MACH_PORT_TYPE_SEND urefs sent_port)
    (anth (sample_table 0x5000 MACH_PORT_TYPE_SEND urefs) 1) sent_port.
Proof. split; [reflexivity|discriminate|reflexivity]. Qed.
Lemma sent_port_roomy : roomy sent_port.
Proof. split; split; reflexivity || discriminate. Qed.


Lemma move_send_round_trip_witness :
  exists lo hi,
    (let* r := ipc_right_copyin 0x103 1 MACH_MSG_TYPE_MOVE_SEND
                 IPC_OBJECT_COPYIN_FLAGS_ALLOW_IMMOVABLE_SEND 0 None in
     ipc_right_copyout 0x103 1 MACH_MSG_TYPE_PORT_SEND IPC_OBJECT_COPYOUT_FLAGS_NONE None (ci_object r))
      (sample_state 0x5000 MACH_PORT_TYPE_SEND 2 sent_port)
    = Done (None, marked lo hi (sample_state 0x5000 MACH_PORT_TYPE_SEND 2 sent_port)).
Proof.
  apply (move_send_round_trip _ (sample_table 0x5000 MACH_PORT_TYPE_SEND 2) [2; 3] 1 _ sent_port).
  - apply sample_wf; [lia|by left|reflexivity].
  - reflexivity.
  - apply sent_port_live.
  - apply sent_port_roomy.
  - reflexivity.
  - reflexivity.
  - reflexivity.
  - split; reflexivity.
  - reflexivity.
Defined.
