(* ===== verification/RightFresh.v ===== *)
(** * Names for send rights

    A space has one name per send right: copying a right out finds the
    existing name through the reverse hash or claims a fresh one, and moving the
    last user reference out retires the name for good. *)

From S2P Require Import Prelude MachPort Prng OsRefcnt IpcTable IpcHash IpcState IpcSpace EntryFacts IpcEntry EntrySpec IpcPort IpcChain PortSpec Samples IpcRequest RequestProps IpcPortLife IpcRight RightDrop RightCopy IpcObject RightSpec RightUrefs RightMove.

(** ** The reverse hash of a space, as a map *)
Lemma hashed_map t j : hash_wf t -> hashed t j <-> hash_map t !! object_at t j = Some j.
Proof. intros Hwf. rewrite hash_map_lookup by done. naive_solver. Qed.

Lemma hash_count_delete t t' o i :
  hash_wf t -> hash_wf t' -> hash_map t' = delete o (hash_map t) -> hash_map t !! o = Some i ->
  S (hash_count t') = hash_count t.
Proof.
  intros Hwf Hwf' Hm' Hm. rewrite <- !hash_map_size, Hm' by done. rewrite map_size_delete, Hm. simpl.
  assert (size (hash_map t) <> 0%nat); [|lia]. intros Hz%map_size_empty_inv. rewrite Hz in Hm. done.
Qed.

(** Retable: the table and the count of hashed entries. *)
Definition rehashed (t : list ipc_entry) (k : kst) : kst :=
  upd_space (fun s => set_is_table (Some t) (set_is_table_hashed (Z.of_nat (hash_count t)) s)) k.

Lemma rehashed_wf k t t' fl cl i :
  space_wf (ks_space k) t fl cl -> table_wf t fl (Some i) -> hash_wf t' -> same_cores t t' ->
  (forall j, j <> i -> hashed t' j <-> hashed t j) ->
  space_wf (ks_space (rehashed t' k)) t' fl (Some i).
Proof.
  intros [Ht Hwf Hhc Hfc Hlo Hhi] Hop Hwf' Hc Hh. pose proof (same_cores_alen _ _ Hc) as Hl.
  split; simpl; rewrite <- ?Hl; try done. by apply table_wf_rehash with t.
Qed.

Lemma table_count t fl cl : table_wf t fl cl -> Z.of_nat (hash_count t) < 2 ^ 24.
Proof.
  intros Hwf. pose proof (hash_count_le t (tw_hash _ _ _ Hwf)). pose proof (tw_max _ _ _ Hwf) as Hmx.
  change (MACH_PORT_INDEX MACH_PORT_DEAD) with (2 ^ 24 - 1) in Hmx. lia.
Qed.

(** The code counts first and changes the table afterwards. *)
Lemma rehash_state k t n :
  n = Z.of_nat (hash_count t) -> upd_space (set_is_table (Some t)) (upd_space (set_is_table_hashed n) k) = rehashed t k.
Proof. by intros ->. Qed.
Ltac rehash_step k t d :=
  let Hst := fresh in
  assert (u32 (is_table_hashed (ks_space k) + d) = Z.of_nat (hash_count t)) as Hst;
  [|apply (rehash_state k t) in Hst;
    match type of Hst with ?L = _ => match goal with |- ?Q tt _ => change (Q tt L) end end; rewrite Hst].

Section hash_rules.
Context `{KernelConfig}.

Lemma wp_ipc_hash_lookup k t fl cl o Q :
  space_wf (ks_space k) t fl cl ->
  Q ((fun i => (MACH_PORT_MAKE i (IE_BITS_GEN (ie_bits (anth t i))), i)) <$> hash_map t !! o) k ->
  wp (ipc_hash_lookup o) Q k.
Proof.
  intros [Ht Hwf _ _ _ _] HQ. apply wp_bind, (wp_is_active_table _ t); [done|].
  eapply wp_lift; [apply ipc_hash_table_lookup_ok, Hwf|done].
Qed.

Lemma wp_ipc_hash_delete k t fl i name o Q :
  space_wf (ks_space k) t fl None -> 0 < i < alen t -> type_at t i = MACH_PORT_TYPE_SEND ->
  MACH_PORT_INDEX name = i -> object_at t i = o ->
  (forall t', space_wf (ks_space (rehashed t' k)) t' fl (Some i) -> same_cores t t' ->
     hash_map t' = delete o (hash_map t) -> ~ hashed t' i -> Q tt (rehashed t' k)) ->
  wp (ipc_hash_delete o name) Q k.
Proof.
  intros Hsw Hi Hty Hni <- HQ. pose proof Hsw as [Ht Hwf Hhc Hfc Hlo Hhi].
  pose proof (tw_hash _ _ _ Hwf) as Hh.
  assert (hashed t i) as Hhi' by (by apply Hwf).
  assert (hash_map t !! object_at t i = Some i) as Hm by (by apply hashed_map).
  destruct (ipc_hash_table_delete_ok t Hh _ _ Hm) as (t'&Hr&Hwf'&Hc&Hm').
  assert (forall j, 0 <= j < alen t -> object_at t' j = object_at t j) as Ho.
  { intros j Hj. unfold object_at. by rewrite (proj1 (same_cores_fields _ _ j Hc Hj)). }
  assert (~ hashed t' i) as Hnh.
  { rewrite hashed_map, Ho, Hm' by (done || lia). by rewrite lookup_delete_eq. }
  assert (S (hash_count t') = hash_count t) as Hcnt.
  { by apply (hash_count_delete t t' (object_at t i) i). }
  apply wp_bind, wp_mod_space. apply wp_bind, (wp_is_active_table _ t); [done|].
  rewrite Hni. apply wp_bind, (wp_lift _ t'); [done|]. apply wp_put_table.
  rehash_step k t' (-1); [rewrite Hhc; pose proof (table_count t fl None Hwf); rewrite u32_small; lia|].
  apply HQ; try done. apply (rehashed_wf k t t' fl None i); try done.
  - apply table_wf_open; [done|]. by rewrite Hty.
  - intros j Hne. split.
    + intros Hj. pose proof (hashed_range _ _ Hwf' Hj) as Hjr. rewrite <- (same_cores_alen _ _ Hc) in Hjr.
      rewrite hashed_map, Ho, Hm' in Hj by (done || lia). apply lookup_delete_Some in Hj as [_ Hj].
      by apply hashed_map.
    + intros Hj. pose proof (hashed_range _ _ Hh Hj) as Hjr. rewrite hashed_map, Ho, Hm' by (done || lia).
      apply hashed_map in Hj; [|done]. rewrite lookup_delete_ne; [done|]. congruence.
Qed.

Lemma wp_ipc_hash_insert k t fl i name o Q :
  space_wf (ks_space k) t fl (Some i) -> 0 < i < alen t -> ~ hashed t i -> MACH_PORT_INDEX name = i ->
  object_at t i = o -> o <> IO_NULL -> hash_map t !! o = None ->
  Z.of_nat (hash_count t) <= IPC_ENTRY_DIST_MAX ->
  (forall t', space_wf (ks_space (rehashed t' k)) t' fl (Some i) -> same_cores t t' ->
     hash_map t' = <[o := i]> (hash_map t) -> hashed t' i -> Q tt (rehashed t' k)) ->
  wp (ipc_hash_insert o name) Q k.
Proof.
  intros Hsw Hi Hnh Hni <- Ho0 Hnone Hcnt HQ. pose proof Hsw as [Ht Hwf Hhc Hfc Hlo Hhi].
  pose proof (tw_hash _ _ _ Hwf) as Hh.
  destruct (ipc_hash_table_insert_ok t Hh _ i Hi Ho0 eq_refl Hnone Hcnt) as (t'&Hr&Hwf'&Hc&Hm').
  assert (forall j, 0 <= j < alen t -> object_at t' j = object_at t j) as Ho.
  { intros j Hj. unfold object_at. by rewrite (proj1 (same_cores_fields _ _ j Hc Hj)). }
  assert (hashed t' i) as Hhi'.
  { rewrite hashed_map, Ho, Hm' by (done || lia). by rewrite lookup_insert_eq. }
  assert (hash_count t' = S (hash_count t)) as Hcnt'.
  { rewrite <- !hash_map_size, Hm' by done. by rewrite map_size_insert_None. }
  apply wp_bind, wp_mod_space. apply wp_bind, (wp_is_active_table _ t); [done|].
  rewrite Hni. apply wp_bind, (wp_lift _ t'); [done|]. apply wp_put_table.
  rehash_step k t' 1; [rewrite Hhc; pose proof (table_count t fl _ Hwf); rewrite u32_small; lia|].
  apply HQ; try done. apply (rehashed_wf k t t' fl (Some i) i); try done.
  intros j Hne. split.
  - intros Hj. pose proof (hashed_range _ _ Hwf' Hj) as Hjr. rewrite <- (same_cores_alen _ _ Hc) in Hjr.
    rewrite hashed_map, Ho, Hm' in Hj by (done || lia). apply lookup_insert_Some in Hj as [[_ ?]|[_ Hj]]; [done|].
    by apply hashed_map.
  - intros Hj. pose proof (hashed_range _ _ Hh Hj) as Hjr. rewrite hashed_map, Ho, Hm' by (done || lia).
    apply hashed_map in Hj; [|done]. rewrite lookup_insert_ne; [done|]. congruence.
Qed.
End hash_rules.

(** Entries other than [i] keep object, bits and request (their slots may have
    moved). *)
Definition cores_but (i : Z) (t t' : list ipc_entry) : Prop :=
  alen t' = alen t /\ forall j, 0 < j < alen t -> j <> i -> entry_core (anth t' j) = entry_core (anth t j).

Lemma cores_but_names i t t' n :
  cores_but i t t' -> MACH_PORT_INDEX n <> i -> name_entry t' n = name_entry t n.
Proof.
  intros [Hl Hj] Hn. unfold name_entry, type_at. rewrite Hl.
  destruct (Z.ltb_spec 0 (MACH_PORT_INDEX n)), (Z.ltb_spec (MACH_PORT_INDEX n) (alen t)); try done.
  by injection (Hj (MACH_PORT_INDEX n) ltac:(lia) Hn) as _ -> _.
Qed.
Lemma cores_but_same i t t' t'' : same_cores t t' -> same_but i t' t'' -> cores_but i t t''.
Proof.
  intros Hc [Hl Hj]. pose proof (same_cores_alen _ _ Hc) as Hl'. split; [congruence|].
  intros j Hjr Hne. rewrite Hj by lia. symmetry. apply same_cores_anth; [done|lia].
Qed.

Section last_send.
Context `{KernelConfig} `{TableSizes} `{Concurrency} `{Externals} `{RequestSizes}.
Context (k : kst) (t : list ipc_entry) (fl : list Z) (i name : Z) (p : ipc_port).
Let a := ie_object (anth t i).
Context (Hsw : space_wf (ks_space k) t fl None) (Hn : name_entry t name = Some i).
Context (Hty : IE_BITS_TYPE (ie_bits (anth t i)) = MACH_PORT_TYPE_SEND).
Context (Hu : IE_BITS_UREFS (ie_bits (anth t i)) = 1) (Hreq : ie_request (anth t i) = IE_REQ_NONE).
Context (Hp : live_port k (anth t i) p) (Hs : 0 < ip_srights p).
Context (Hpin : ip_pinned p = false) (Himm : ip_immovable_send p = false).

Lemma copyin_last_send_ok :
  wp (ipc_object_copyin name MACH_MSG_TYPE_MOVE_SEND 0 None IPC_OBJECT_COPYIN_FLAGS_NONE) (fun r k' =>
    r = (KERN_SUCCESS, a, None) /\ only_space k k' /\ is_self (ks_space k') = is_self (ks_space k) /\
    exists t', space_wf (ks_space k') t' (i :: fl) None /\ hash_map t' = delete a (hash_map t) /\
      name_entry t' name = None /\ cores_but i t t' /\
      IE_BITS_GEN (ie_bits (anth t' i)) = MACH_PORT_GEN name) k.
Proof using Hsw Hn Hty Hu Hreq Hp Hs Hpin Himm.
  pose proof Hsw as [Ht Hwf _ _ _ _]. pose proof Hn as (Hix&Hi&Hg&Hnone)%name_entry_Some.
  pose proof Hp as [Hpp Hv Ha].
  unfold ipc_object_copyin. rewrite (bind_wp _ _ _ _ _ _ (lookup_write_run k t fl i name Hsw Hn)).
  unfold ipc_right_copyin. apply wp_bind, wp_bind, (wp_is_active _ t); [done|].
  apply wp_bind, wp_massert; [done|]. const_tests.
  unfold copyin_move_send. apply wp_bind, (wp_get_entry _ t); [done|lia|]. type_tests Hty.
  apply wp_bind, wp_massert; [lia|]. apply wp_bind, wp_massert; [lia|].
  rewrite (bind_wp _ _ _ _ _ _ (ipc_right_check_run k t i p name _ Ht ltac:(lia) Hp)).
  apply wp_bind, (wp_get_port _ _ p); [done|]. type_tests Hty. rewrite Himm, andb_false_r, Hu. const_tests.
  unfold copyin_move_last_send. apply wp_bind, wp_bind, wp_get_space.
  apply wp_bind, (wp_get_port _ _ p); [done|]. apply wp_bind, wp_massert; [lia|]. type_tests Hty.
  apply wp_bind, wp_massert; [done|]. rewrite Hpin.
  unfold ipc_right_request_cancel_macro. apply wp_bind, wp_bind, (wp_get_entry _ t); [done|lia|].
  rewrite Hreq. const_tests. apply wp_ret.
  apply wp_bind, (wp_ipc_hash_delete k t fl i name a); try done.
  intros t1 Hsw1 Hc Hm Hnh. destruct (same_cores_fields _ _ i Hc ltac:(lia)) as (Ho1&Hb1&Hq1).
  pose proof (same_cores_alen _ _ Hc) as Hl1.
  apply wp_bind. change (ie_object (anth t i)) with a.
  replace (ipc_entry_dealloc a) with (ipc_entry_dealloc (object_at t1 i)) by (unfold object_at; by rewrite Ho1).
  eapply wp_mono; [apply (ipc_entry_dealloc_ok _ t1 fl); try done; [lia|congruence|congruence]|].
  intros _ k' [(t'&Hsw'&Hag&Hoth&Hg') Hos Hself]. pose proof (ha_len _ _ Hag) as Hl.
  apply wp_ret, wp_ret. cbn [ci_assertcnt ci_release ci_soright ci_kr copyin_ok].
  change (0 <? 0) with false. const_tests. rewrite andb_false_r.
  apply wp_bind, wp_ret, wp_bind, wp_ret, wp_bind, wp_ret, wp_ret.
  split; [done|]. split; [done|]. split; [done|].
  exists t'. split; [done|]. split; [rewrite <- Hm; apply hash_agree_map; [apply Hsw1|done]|]. split.
  - apply (freed_name t' i fl); [apply Hsw'|done].
  - split; [apply cores_but_same with t1; [done|by split]|]. congruence.
Qed.

(** Moving the last user reference of a send right out of its space
    hands over the very right: no count of the port changes, nothing
    is notified, the name and its reverse-hash binding are gone, the entry is first
    on the free list, and every other name denotes what it did. *)
Theorem copyin_last_send :
  wp (ipc_object_copyin name MACH_MSG_TYPE_MOVE_SEND 0 None IPC_OBJECT_COPYIN_FLAGS_NONE) (fun r k' =>
    r = (KERN_SUCCESS, a, None) /\ only_space k k' /\ is_self (ks_space k') = is_self (ks_space k) /\
    exists t', space_wf (ks_space k') t' (i :: fl) None /\ hash_map t' = delete a (hash_map t) /\
      name_entry t' name = None /\ cores_but i t t' /\
      IE_BITS_GEN (ie_bits (anth t' i)) = MACH_PORT_GEN name) k.
Proof using Hsw Hn Hty Hu Hreq Hp Hs Hpin Himm. exact copyin_last_send_ok. Qed.
End last_send.

(** ** Bits of a new send right *)
Lemma new_send_bits g r :
  0 <= g < 64 -> 0 <= r < 4 ->
  let b := u32 (Z.lor (gen_bits g r) MACH_PORT_TYPE_SEND + 1) in
  bits_ok b /\ IE_BITS_TYPE b = MACH_PORT_TYPE_SEND /\ IE_BITS_UREFS b = 1 /\
  IE_BITS_GEN b = IE_BITS_GEN (gen_bits g r).
Proof.
  intros Hg Hr. cbv zeta. rewrite lor_disjoint.
  2: { rewrite (land_type _ _ eq_refl), gen_bits_type by done. done. }
  rewrite u32_small by (unfold gen_bits, MACH_PORT_TYPE_SEND; lia). unfold bits_ok.
  rewrite IE_BITS_TYPE_arith, IE_BITS_UREFS_arith, !IE_BITS_GEN_arith. unfold gen_bits, MACH_PORT_TYPE_SEND.
  split; [split; [lia|]; exists g; split; [done|dlia]|]. split; [dlia|]. split; dlia.
Qed.

(** The state of a space that just got a send right on the port at [a] as its
    entry [i]. *)
Record named (k : kst) (t : list ipc_entry) (fl : list Z) (i a name : Z) (k' : kst) : Prop := {
  nm_space : exists t', space_wf (ks_space k') t' fl None /\ name_entry t' name = Some i /\
    type_at t' i = MACH_PORT_TYPE_SEND /\ IE_BITS_UREFS (ie_bits (anth t' i)) = 1 /\
    object_at t' i = a /\ ie_request (anth t' i) = IE_REQ_NONE /\
    hash_map t' = <[a := i]> (hash_map t) /\ cores_but i t t';
  nm_ports : ks_ports k' = ks_ports k /\ ks_psets k' = ks_psets k;
  nm_fresh : MACH_PORT_GEN name <> IE_BITS_GEN (ie_bits (anth t i));
  nm_valid : MACH_PORT_VALID name = true;
}.

Section copyout_new.
Context `{KernelConfig} `{TableSizes} `{Concurrency} `{Externals} `{RequestSizes}.

(** The entry just claimed for the port becomes its send right. *)
Lemma copyout_claimed k t fl i a p name g r Q :
  space_wf (ks_space k) t fl (Some i) -> 0 < i < alen t -> ~ hashed t i -> 0 <= g < 64 -> 0 <= r < 4 ->
  ie_bits (anth t i) = gen_bits g r -> object_at t i = a -> ie_request (anth t i) = IE_REQ_NONE ->
  ks_ports k !! a = Some p -> ip_active p = true -> IP_VALID a = true -> 0 < ip_srights p ->
  MACH_PORT_INDEX name = i -> hash_map t !! a = None -> Z.of_nat (hash_count t) <= IPC_ENTRY_DIST_MAX ->
  (forall t' k', space_wf (ks_space k') t' fl None -> only_space k k' -> cores_but i t t' ->
     hash_map t' = <[a := i]> (hash_map t) -> object_at t' i = a -> type_at t' i = MACH_PORT_TYPE_SEND ->
     IE_BITS_UREFS (ie_bits (anth t' i)) = 1 -> ie_request (anth t' i) = IE_REQ_NONE ->
     IE_BITS_GEN (ie_bits (anth t' i)) = IE_BITS_GEN (gen_bits g r) -> Q None k') ->
  wp (ipc_right_copyout name i MACH_MSG_TYPE_PORT_SEND IPC_OBJECT_COPYOUT_FLAGS_NONE None a) Q k.
Proof.
  intros Hsw Hi Hnh Hg Hr Hb Ho Hq Hp Hact Hv Hs Hix Hnone Hcnt HQ. pose proof Hsw as [Ht Hwf _ _ _ _].
  assert (a <> IO_NULL) as Ha0 by (unfold IP_VALID, IP_NULL in Hv; unfold IO_NULL; lia).
  pose proof (gen_bits_type g r Hg Hr) as Hgt.
  destruct (new_send_bits g r Hg Hr) as (Hbok&Hbt&Hbu&Hbg).
  unfold ipc_right_copyout, copyout_send. apply wp_bind, (wp_get_entry _ t); [done|lia|].
  apply wp_bind, wp_massert; [done|]. apply wp_bind, (wp_get_port _ _ p); [done|].
  apply wp_bind, wp_massert; [done|]. apply wp_bind, wp_massert; [unfold object_at in Ho; lia|].
  const_tests. apply wp_bind, wp_ret. apply wp_bind, wp_bind, (wp_get_entry _ t); [done|lia|].
  apply wp_bind, (wp_get_port _ _ p); [done|]. apply wp_bind, wp_massert; [lia|].
  rewrite Hb. type_tests Hgt. apply wp_bind, wp_bind, wp_massert; [done|].
  apply wp_bind, wp_massert; [rewrite IE_BITS_UREFS_arith; unfold gen_bits; dlia|].
  apply (wp_ipc_hash_insert k t fl i name a); try done. intros t1 Hsw1 Hc Hm Hh1.
  destruct (same_cores_fields _ _ i Hc ltac:(lia)) as (Ho1&Hb1&Hq1). pose proof (same_cores_alen _ _ Hc) as Hl1.
  unfold mod_entry. apply wp_bind, wp_bind, (wp_get_entry _ t1); [apply Hsw1|lia|].
  apply (wp_put_entry _ t1); [apply Hsw1|lia|].
  set (e := set_ie_bits _ (anth t1 i)). set (t2 := aset t1 i e).
  assert (anth t2 i = e) as He by (apply anth_aset_eq; lia).
  destruct (space_wf_close (ks_space (rehashed t1 k)) t1 fl i e) as [Hsw2 Hag]; try done; [lia|..].
  { change (ie_bits e) with (u32 (Z.lor (gen_bits g r) MACH_PORT_TYPE_SEND + 1)). by rewrite Hbt. }
  fold t2 in Hsw2, Hag. pose proof (ha_len _ _ Hag) as Hl2.
  eapply (ipc_entry_modified_ok _ t2 fl None); [exact Hsw2|lia|]. intros lo hi ????. apply wp_ret, (HQ t2).
  - apply space_wf_mods; [done|simpl in *; lia..].
  - done.
  - apply cores_but_same with t1; [done|]. split; [done|]. intros j Hj Hne. apply anth_aset_ne; lia.
  - rewrite <- Hm. apply hash_agree_map; [apply Hsw1|done].
  - unfold object_at. rewrite He. unfold e. simpl. by rewrite Ho1.
  - unfold type_at. by rewrite He.
  - by rewrite He.
  - rewrite He. unfold e. simpl. by rewrite Hq1.
  - by rewrite He.
Qed.

Lemma copyout_prepare_ok k t fl a p rounds rescans memory Q :
  space_wf (ks_space k) t fl None -> can_hold t fl 1 = true -> ks_ports k !! a = Some p ->
  ip_active p = true -> ip_is_kolabeled p = false ->
  (forall k', limits_noted k k' -> Q (KERN_SUCCESS, a, IPC_OBJECT_COPYOUT_FLAGS_NONE) k') ->
  wp (copyout_prepare (S rounds) rescans memory a MACH_MSG_TYPE_PORT_SEND IPC_OBJECT_COPYOUT_FLAGS_NONE) Q k.
Proof.
  intros Hsw Hc Hp Ha Hl HQ. pose proof Hsw as [Ht _ _ _ _ _]. cbn [copyout_prepare].
  apply wp_bind, (wp_is_active _ t); [done|]. cbn [negb].
  apply wp_bind, (ipc_entries_hold_ok k t fl None); [done|lia| |by rewrite Hc]. intros _ k' Hk'.
  rewrite bool_decide_true by done. cbn [negb].
  assert (ks_ports k' !! a = Some p) as Hp' by (by destruct Hk' as [->|[bit ->]]).
  apply wp_bind. unfold io_active. unfold wp at 1. rewrite Hp', Ha. cbn [negb].
  apply wp_bind. unfold ip_label_check. apply wp_bind, (wp_get_port _ _ p); [done|]. rewrite Hl. cbn [negb].
  apply wp_ret. const_tests. apply wp_ret. by apply HQ.
Qed.

Lemma gen_next_fresh g r g' r' : 0 <= g < 64 -> 0 <= r < 4 -> gen_next g r g' r' -> g' <> g.
Proof. unfold gen_next, last_gen. intros Hg Hr. destruct (Z.ltb_spec g (62 - 16 * r)); lia. Qed.

Lemma copyout_send_new_ok k t fl i a p rounds rescans memory :
  space_wf (ks_space k) t (i :: fl) None -> can_hold t (i :: fl) 1 = true ->
  hash_map t !! a = None -> Z.of_nat (hash_count t) <= IPC_ENTRY_DIST_MAX ->
  ks_ports k !! a = Some p -> IP_VALID a = true -> ip_active p = true -> 0 < ip_srights p ->
  ip_is_kolabeled p = false -> ip_in_space p (is_self (ks_space k)) = false ->
  wp (ipc_object_copyout (S rounds) rescans memory a MACH_MSG_TYPE_PORT_SEND
        IPC_OBJECT_COPYOUT_FLAGS_NONE None) (fun res k' =>
    exists name, res = (KERN_SUCCESS, name, None) /\ named k t fl i a name k') k.
Proof.
  intros Hsw Hc Hnone Hcnt Hp Hv Ha Hs Hl Hin. unfold ipc_object_copyout.
  apply wp_bind, wp_massert; [done|]. unfold ITH_KNOTE_VALID. const_tests. rewrite andb_false_r.
  apply wp_bind, wp_ret. apply wp_bind, (copyout_prepare_ok k t (i :: fl) a p); try done.
  intros k1 Hk1. assert (ks_ports k1 = ks_ports k /\ ks_psets k1 = ks_psets k /\
    is_self (ks_space k1) = is_self (ks_space k)) as (Hpk&Hsk&Hself) by (by destruct Hk1 as [->|[bit ->]]).
  assert (space_wf (ks_space k1) t (i :: fl) None) as Hsw1 by (by apply limits_noted_wf with k).
  rewrite bool_decide_true by done. const_tests. unfold ipc_right_reverse.
  apply wp_bind, wp_bind, (wp_is_active _ t); [apply Hsw1|]. apply wp_bind, wp_massert; [done|].
  apply wp_bind, (wp_get_port _ _ p); [by rewrite Hpk|]. apply wp_bind, wp_require_ip_active; [done|].
  apply wp_bind, wp_get_space. rewrite Hself, Hin.
  apply wp_bind, (wp_ipc_hash_lookup _ t (i :: fl) None); [done|]. rewrite Hnone. apply wp_ret.
  apply wp_bind, wp_bind. eapply wp_mono; [by apply (ipc_entry_claim_ok k1 t i fl a)|].
  intros res k2 (name&->&[(t2&Hsw2&Hag&Hnh&Hoth&g&r&g'&r'&Hg'&Hr'&(Hg&Hr&Hb)&Hgn&Hname&He) Hi Hos _]&_&Hval).
  pose proof (ha_len _ _ Hag) as Hl2. destruct Hos as (Hp2&Hps2&_).
  assert (alen t <= 2 ^ 24 - 1) as Hmx by exact (tw_max _ _ _ (sw_wf _ _ _ _ Hsw)).
  assert (0 <= gen_bits g' r' < 2 ^ 32) as Hgb by (unfold gen_bits; lia).
  assert (MACH_PORT_INDEX name = i) as Hix by (rewrite Hname; apply MACH_PORT_INDEX_MAKE; lia).
  assert (hash_map t2 = hash_map t) as Hm2 by (apply hash_agree_map; [apply Hsw|done]).
  assert (MACH_PORT_GEN name = IE_BITS_GEN (gen_bits g' r')) as Hgn'
    by (rewrite Hname; apply MACH_PORT_GEN_MAKE; lia).
  apply wp_ret, wp_bind, (copyout_claimed k2 t2 fl i a p name g' r');
    try done; try (rewrite He; done); try lia.
  - unfold object_at. by rewrite He.
  - by rewrite Hp2, Hpk.
  - by rewrite Hm2.
  - by rewrite (hash_agree_count t t2 (tw_hash _ _ _ (sw_wf _ _ _ _ Hsw)) Hag).
  - intros t3 k3 Hsw3 (Hp3&Hps3&_) [Hl3 Hc3] Hm3 Ho3 Hty3 Hu3 Hq3 Hg3. apply wp_ret. exists name.
    split; [done|]. split; [|split; congruence| |done].
    + exists t3. split; [done|]. split.
      { apply name_entry_Some. rewrite Hg3, Hgn', Hty3. repeat split; try done; lia. }
      rewrite Hm3, Hm2. repeat (split; [done|]). split; [congruence|].
      intros j Hj Hne. rewrite Hc3, Hoth by lia. done.
    + rewrite Hgn', Hb, !gen_bits_gen by done. pose proof (gen_next_fresh _ _ _ _ Hg Hr Hgn). lia.
Qed.

(** Copying a send right out to a space that has no name for the port and
    room for one entry always succeeds: the first free entry becomes a send
    right with one user reference, under a valid name whose generation differs
    from the entry's previous one, bound in the reverse hash; the naked right passes
    to the entry without any change of the port's counts, and all other
    entries keep their contents. *)
Theorem copyout_send_new k t fl i a p rounds rescans memory :
  space_wf (ks_space k) t (i :: fl) None -> can_hold t (i :: fl) 1 = true ->
  hash_map t !! a = None -> Z.of_nat (hash_count t) <= IPC_ENTRY_DIST_MAX ->
  ks_ports k !! a = Some p -> IP_VALID a = true -> ip_active p = true -> 0 < ip_srights p ->
  ip_is_kolabeled p = false -> ip_in_space p (is_self (ks_space k)) = false ->
  wp (ipc_object_copyout (S rounds) rescans memory a MACH_MSG_TYPE_PORT_SEND
        IPC_OBJECT_COPYOUT_FLAGS_NONE None) (fun res k' =>
    exists name, res = (KERN_SUCCESS, name, None) /\ named k t fl i a name k') k.
Proof. apply copyout_send_new_ok. Qed.
End copyout_new.

(** ** There and back again *)
Section travel.
Context `{KernelConfig} `{TableSizes} `{Concurrency} `{Externals} `{RequestSizes}.

(** C18. Round trip of the last send right: moved out of its space and copied
    back in, it comes back under a fresh name of the same entry with one user
    reference; the old name stays invalid, the port is as it was, the reverse hash
    is as it was, and no other name is affected. *)
Theorem last_send_round_trip k t fl i name p rounds rescans memory :
  let a := object_at t i in
  space_wf (ks_space k) t fl None -> name_entry t name = Some i ->
  type_at t i = MACH_PORT_TYPE_SEND -> IE_BITS_UREFS (ie_bits (anth t i)) = 1 ->
  ie_request (anth t i) = IE_REQ_NONE -> live_port k (anth t i) p -> IP_VALID a = true ->
  0 < ip_srights p -> ip_pinned p = false -> ip_immovable_send p = false ->
  ip_is_kolabeled p = false -> ip_in_space p (is_self (ks_space k)) = false ->
  Z.of_nat (hash_count t) <= alen t * 7 / 8 -> Z.of_nat (hash_count t) <= IPC_ENTRY_DIST_MAX ->
  wp (let* (_, object, _) := ipc_object_copyin name MACH_MSG_TYPE_MOVE_SEND 0 None
                               IPC_OBJECT_COPYIN_FLAGS_NONE in
      ipc_object_copyout (S rounds) rescans memory object MACH_MSG_TYPE_PORT_SEND
        IPC_OBJECT_COPYOUT_FLAGS_NONE None) (fun r k' =>
    exists name' t', r = (KERN_SUCCESS, name', None) /\ name' <> name /\
      space_wf (ks_space k') t' fl None /\ name_entry t' name' = Some i /\ name_entry t' name = None /\
      type_at t' i = MACH_PORT_TYPE_SEND /\ IE_BITS_UREFS (ie_bits (anth t' i)) = 1 /\
      object_at t' i = a /\ hash_map t' = hash_map t /\ ks_ports k' = ks_ports k /\
      forall n, MACH_PORT_INDEX n <> i -> name_entry t' n = name_entry t n) k.
Proof.
  intros a Hsw Hn Hty Hu Hq Hp Hv Hs Hpin Himm Hlab Hin Hc7 Hcd. pose proof Hp as [Hpp Hnn Hact].
  pose proof (tw_hash _ _ _ (sw_wf _ _ _ _ Hsw)) as Hh. pose proof Hn as (Hix&Hi&Hg&_)%name_entry_Some.
  assert (hash_map t !! a = Some i) as Hm by (apply hashed_map; [done|]; by apply Hsw).
  apply wp_bind. eapply wp_mono; [by apply (copyin_last_send_ok k t fl i name p)|].
  intros r k1 (->&(Hpk&_)&Hself&t1&Hsw1&Hm1&Hn1&Hcb&Hg1).
  change (ie_object (anth t i)) with a in *. destruct Hcb as [Hl1 Hcores].
  assert (S (hash_count t1) = hash_count t) as Hcnt.
  { apply (hash_count_delete t t1 a i); try done. apply Hsw1. }
  eapply wp_mono; [apply (copyout_send_new_ok k1 t1 fl i a p)|].
  all: try done; try lia.
  - unfold can_hold. rewrite Hl1. simpl length. apply andb_true_iff. split; apply Z.leb_le; lia.
  - by rewrite Hm1, lookup_delete_eq.
  - by rewrite Hpk.
  - by rewrite Hself.
  - intros r k2 (name'&->&[(t2&Hsw2&Hn2&Hty2&Hu2&Ho2&_&Hm2&Hl2&Hcores2) [Hp2 _] Hfresh _]).
    exists name', t2. assert (MACH_PORT_GEN name' <> MACH_PORT_GEN name) as Hne by congruence.
    pose proof Hn2 as (_&_&Hgn2&_)%name_entry_Some.
    split; [done|]. split; [congruence|]. split; [done|]. split; [done|]. split.
    { destruct (name_entry t2 name) as [j|] eqn:Hj; [|done]. apply name_entry_Some in Hj as (->&_&Hgj&_).
      rewrite <- Hix in Hgj. congruence. }
    split; [done|]. split; [done|]. split; [done|]. split; [|split; [congruence|]].
    + rewrite Hm2, Hm1. by apply insert_delete_id.
    + intros n Hni. rewrite (cores_but_names i t1 t2), (cores_but_names i t t1); [done|by split|done|by split|done].
Qed.
End travel.

(** ** The theorems at work *)
#[local] Existing Instances DEVELOPMENT SMALL_4K quiet plain_externals SMALL_REQUESTS.

Lemma copyin_last_send_witness :
  exists k', ipc_object_copyin 0x103 MACH_MSG_TYPE_MOVE_SEND 0 None IPC_OBJECT_COPYIN_FLAGS_NONE
    (sample_state 0x5000 MACH_PORT_TYPE_SEND 1 sent_port) = Done ((KERN_SUCCESS, 0x5000, None), k').
Proof.
  destruct (wp_elim _ _ _ (copyin_last_send (sample_state 0x5000 MACH_PORT_TYPE_SEND 1 sent_port)
    (sample_table 0x5000 MACH_PORT_TYPE_SEND 1) [2; 3] 1 0x103 sent_port
    ltac:(apply sample_wf; [lia|by left|reflexivity]) eq_refl eq_refl eq_refl eq_refl
    (sent_port_live 1) eq_refl eq_refl eq_refl)) as (r&k'&Hr&->&_).
  exists k'. exact Hr.
Defined.

(** The port at 0x6000 has no name in the space yet. *)
Definition newcomer_state : kst :=
  with_port 0x6000 sent_port (sample_state 0x5000 MACH_PORT_TYPE_SEND 1 sent_port).

Lemma copyout_send_new_witness :
  exists name k', ipc_object_copyout 1 1 true 0x6000 MACH_MSG_TYPE_PORT_SEND
    IPC_OBJECT_COPYOUT_FLAGS_NONE None newcomer_state = Done ((KERN_SUCCESS, name, None), k').
Proof.
  destruct (wp_elim _ _ _ (copyout_send_new newcomer_state (sample_table 0x5000 MACH_PORT_TYPE_SEND 1)
    [3] 2 0x6000 sent_port 0 1 true ltac:(apply sample_wf; [lia|by left|reflexivity]) eq_refl eq_refl
    ltac:(discriminate) eq_refl eq_refl eq_refl eq_refl eq_refl eq_refl)) as (r&k'&Hr&name&->&_).
  exists name, k'. exact Hr.
Defined.

Lemma last_send_round_trip_witness :
  exists r k', (let* (_, object, _) := ipc_object_copyin 0x103 MACH_MSG_TYPE_MOVE_SEND 0 None
                               IPC_OBJECT_COPYIN_FLAGS_NONE in
      ipc_object_copyout 1 1 true object MACH_MSG_TYPE_PORT_SEND IPC_OBJECT_COPYOUT_FLAGS_NONE None)
    (sample_state 0x5000 MACH_PORT_TYPE_SEND 1 sent_port) = Done (r, k').
Proof.
  destruct (wp_elim _ _ _ (last_send_round_trip (sample_state 0x5000 MACH_PORT_TYPE_SEND 1 sent_port)
    (sample_table 0x5000 MACH_PORT_TYPE_SEND 1) [2; 3] 1 0x103 sent_port 0 1 true
    ltac:(apply sample_wf; [lia|by left|reflexivity]) eq_refl eq_refl eq_refl eq_refl
    (sent_port_live 1) eq_refl eq_refl eq_refl eq_refl eq_refl eq_refl
    ltac:(discriminate) ltac:(discriminate))) as (r&k'&Hr&_).
  exists r, k'. exact Hr.
Defined.
