(* ===== verification/RightCorners.v ===== *)
(** * Dead ports, pinned rights and fired requests

    What [ipc_right_check] makes of a right whose port died, and corners of
    the rights code where a reference, an entry or a user reference is lost. *)

From S2P Require Import Prelude MachPort Prng OsRefcnt IpcTable IpcHash IpcState IpcSpace EntryFacts IpcEntry EntrySpec IpcPort IpcChain PortSpec Samples IpcRequest RequestProps IpcPortLife IpcRight RightDrop RightCopy IpcObject RightSpec RightUrefs RightMove RightFresh.

(** ** Bits of a dead name *)
Lemma cleared_type bits : IE_BITS_TYPE (Z.ldiff bits IE_BITS_TYPE_MASK) = MACH_PORT_TYPE_NONE.
Proof.
  unfold IE_BITS_TYPE. apply Z.bits_inj'. intros m Hm. rewrite Z.land_spec, Z.ldiff_spec, Z.bits_0.
  by destruct (Z.testbit bits m), (Z.testbit IE_BITS_TYPE_MASK m).
Qed.

Lemma dead_bits_value bits :
  Z.lor (Z.ldiff bits IE_BITS_TYPE_MASK) MACH_PORT_TYPE_DEAD_NAME =
  bits - bits / 2 ^ 16 mod 2 ^ 5 * 2 ^ 16 + MACH_PORT_TYPE_DEAD_NAME.
Proof.
  rewrite lor_disjoint.
  2: { apply Z.bits_inj'. intros m Hm. rewrite Z.land_spec, Z.ldiff_spec, Z.bits_0.
       destruct (Z.testbit MACH_PORT_TYPE_DEAD_NAME m) eqn:Ht; [|by rewrite andb_false_r].
       assert (Z.testbit IE_BITS_TYPE_MASK m = true) as ->; [|by rewrite andb_false_r].
       change IE_BITS_TYPE_MASK with (Z.lor 0xf0000 MACH_PORT_TYPE_DEAD_NAME). by rewrite Z.lor_spec, Ht, orb_true_r. }
  change IE_BITS_TYPE_MASK with (Z.shiftl (Z.ones 5) 16). by rewrite ldiff_field by lia.
Qed.
Lemma dead_bits bits n :
  bits_ok bits -> 0 <= n <= 1 -> IE_BITS_UREFS bits + n <= MACH_PORT_UREFS_MAX ->
  let b := Z.lor (Z.ldiff bits IE_BITS_TYPE_MASK) MACH_PORT_TYPE_DEAD_NAME + n in
  u32 b = b /\ bits_ok b /\ IE_BITS_TYPE b = MACH_PORT_TYPE_DEAD_NAME /\
  IE_BITS_UREFS b = IE_BITS_UREFS bits + n /\ IE_BITS_GEN b = IE_BITS_GEN bits.
Proof.
  intros [Hb (g&Hg&Hgen)] Hn Hu. cbv zeta.
  rewrite IE_BITS_UREFS_arith in *. rewrite dead_bits_value.
  unfold MACH_PORT_TYPE_DEAD_NAME, MACH_PORT_UREFS_MAX in *.
  assert (bits = (bits / 2 ^ 21) * 2 ^ 21 + (bits / 2 ^ 16 mod 2 ^ 5) * 2 ^ 16 + bits mod 2 ^ 16) as Hd by dlia.
  set (q := bits / 2 ^ 21) in *. set (u := bits mod 2 ^ 16) in *.
  assert (0 <= q < 2 ^ 11 /\ 0 <= u < 2 ^ 16) as [Hq Hur] by (unfold q, u; dlia).
  replace (bits - bits / 2 ^ 16 mod 2 ^ 5 * 2 ^ 16 + 0x100000 + n) with (q * 2 ^ 21 + 0x100000 + (u + n)) by lia.
  set (b := q * 2 ^ 21 + 0x100000 + (u + n)).
  assert (0 <= b < 2 ^ 32 /\ b / 2 ^ 16 = q * 32 + 16 /\ b / 2 ^ 24 = q / 8 /\ b mod 2 ^ 16 = u + n) as (Hbr&Hb1&Hb2&Hb3)
    by (unfold b; repeat split; dlia).
  assert (IE_BITS_GEN b = IE_BITS_GEN bits) as Hgb.
  { rewrite !IE_BITS_GEN_arith, Hb2. do 2 f_equal. unfold q. dlia. }
  rewrite IE_BITS_TYPE_arith, IE_BITS_UREFS_arith, Hb1, Hb3.
  split; [by apply u32_small|]. split; [split; [done|]; exists g; split; congruence|].
  split; [dlia|]. done.
Qed.

Section dead_ports.
Context `{KernelConfig} `{TableSizes} `{Concurrency} `{Externals} `{RequestSizes}.

Lemma ipc_right_check_dead_ok k t fl i name p flags :
  let a := object_at t i in
  space_wf (ks_space k) t fl None -> name_entry t name = Some i ->
  type_at t i = MACH_PORT_TYPE_SEND -> 0 < IE_BITS_UREFS (ie_bits (anth t i)) ->
  ie_request (anth t i) = IE_REQ_NONE -> ks_ports k !! a = Some p -> ip_active p = false ->
  0 < ip_srights p < 2 ^ 32 ->
  wp (ipc_right_check a name i flags) (fun died k' => died = true /\
    ks_ports k' = <[a := set_ip_srights (ip_srights p - 1) p]> (ks_ports k) /\ ks_trace k' = ks_trace k /\
    exists t', space_wf (ks_space k') t' fl None /\ name_entry t' name = Some i /\
      type_at t' i = MACH_PORT_TYPE_DEAD_NAME /\ object_at t' i = IO_NULL /\
      IE_BITS_UREFS (ie_bits (anth t' i)) = IE_BITS_UREFS (ie_bits (anth t i)) /\
      ie_request (anth t' i) = IE_REQ_NONE /\
      hash_map t' = delete a (hash_map t) /\ cores_but i t t') k.
Proof.
  intros a Hsw Hn Hty Hu Hq Hp Hact Hs. pose proof Hsw as [Ht Hwf _ _ _ _].
  pose proof Hn as (Hix&Hi&Hg&Hnone)%name_entry_Some. unfold type_at in Hty.
  pose proof (IE_BITS_UREFS_range (ie_bits (anth t i))) as Hur.
  destruct (dead_bits (ie_bits (anth t i)) 0) as (_&Hdok&Hdt&Hdu&Hdg);
    [by apply Hwf|lia|unfold MACH_PORT_UREFS_MAX; lia|]. rewrite !Z.add_0_r in Hdok, Hdt, Hdu, Hdg.
  unfold ipc_right_check. apply wp_bind, (wp_is_active _ t); [done|]. apply wp_bind, wp_massert; [done|].
  apply wp_bind, (wp_get_entry _ t); [done|lia|]. apply wp_bind, wp_massert; [unfold a, object_at; lia|].
  apply wp_bind, (wp_get_port _ _ p); [done|]. rewrite Hact, Hq. type_tests Hty. rewrite andb_false_r.
  apply wp_bind, wp_massert; [done|]. apply wp_bind, wp_massert; [lia|].
  apply wp_bind, wp_bind, wp_massert; [done|]. apply wp_bind, wp_massert; [lia|]. apply wp_put_port.
  rewrite u32_small by lia. set (k1 := with_port a _ k).
  unfold when. cbv iota. apply wp_bind, (wp_ipc_hash_delete k1 t fl i name a); try done.
  intros t1 Hsw1 Hc Hm Hnh. destruct (same_cores_fields _ _ i Hc ltac:(lia)) as (Ho1&Hb1&Hq1).
  pose proof (same_cores_alen _ _ Hc) as Hl1. apply wp_bind, wp_ret.
  unfold mod_entry. apply wp_bind, wp_bind, (wp_get_entry _ t1); [apply Hsw1|lia|].
  apply (wp_put_entry _ t1); [apply Hsw1|lia|]. set (e := set_ie_object _ _). set (t2 := aset t1 i e).
  assert (anth t2 i = e) as He by (apply anth_aset_eq; lia).
  destruct (space_wf_close (ks_space (rehashed t1 k1)) t1 fl i e) as [Hsw2 Hag]; try done; [lia|..].
  { change (ie_bits e) with (Z.lor (Z.ldiff (ie_bits (anth t i)) IE_BITS_TYPE_MASK) MACH_PORT_TYPE_DEAD_NAME). by rewrite Hdt. }
  { change (ie_bits e) with (Z.lor (Z.ldiff (ie_bits (anth t i)) IE_BITS_TYPE_MASK) MACH_PORT_TYPE_DEAD_NAME). by rewrite Hdt. }
  fold t2 in Hsw2, Hag. pose proof (ha_len _ _ Hag) as Hl2.
  apply wp_bind. eapply (ipc_entry_modified_ok _ t2 fl None); [exact Hsw2|lia|]. intros lo hi ????. apply wp_ret.
  split; [done|]. split; [done|]. split; [done|]. exists t2.
  split; [apply space_wf_mods; [done|simpl in *; lia..]|].
  split; [apply name_entry_Some; unfold type_at; rewrite He; simpl; rewrite Hdt, Hdg, Hl2; repeat split; done || lia|].
  split; [unfold type_at; by rewrite He|]. split; [unfold object_at; by rewrite He|].
  rewrite He. split; [exact (eq_trans Hdu (Z.add_0_r _))|]. split; [done|]. split.
  - rewrite <- Hm. apply hash_agree_map; [apply Hsw1|done].
  - apply cores_but_same with t1; [done|]. split; [done|]. intros j Hj Hne. apply anth_aset_ne; lia.
Qed.

(** Noticing that the port of a send right died: [ipc_right_check] turns the
    entry into a dead name with the same name and user references, takes the
    right out of the reverse hash and off the port's count, and leaves
    the entry's reference on the port to the caller; the other entries are
    untouched and the space stays well formed. *)
Theorem ipc_right_check_dead k t fl i name p flags :
  let a := object_at t i in
  space_wf (ks_space k) t fl None -> name_entry t name = Some i ->
  type_at t i = MACH_PORT_TYPE_SEND -> 0 < IE_BITS_UREFS (ie_bits (anth t i)) ->
  ie_request (anth t i) = IE_REQ_NONE -> ks_ports k !! a = Some p -> ip_active p = false ->
  0 < ip_srights p < 2 ^ 32 ->
  wp (ipc_right_check a name i flags) (fun died k' => died = true /\
    ks_ports k' = <[a := set_ip_srights (ip_srights p - 1) p]> (ks_ports k) /\ ks_trace k' = ks_trace k /\
    exists t', space_wf (ks_space k') t' fl None /\ name_entry t' name = Some i /\
      type_at t' i = MACH_PORT_TYPE_DEAD_NAME /\ object_at t' i = IO_NULL /\
      IE_BITS_UREFS (ie_bits (anth t' i)) = IE_BITS_UREFS (ie_bits (anth t i)) /\
      ie_request (anth t' i) = IE_REQ_NONE /\
      hash_map t' = delete a (hash_map t) /\ cores_but i t t') k.
Proof. apply ipc_right_check_dead_ok. Qed.

(** A refused delta on a dying name loses a reference: when
    [ipc_right_delta] finds that the port of a send right died and then refuses the
    delta, the entry has become a dead name but the reference it held on
    the port is never released. *)
Theorem delta_dead_name_leaks k t fl i name p delta :
  let a := object_at t i in
  space_wf (ks_space k) t fl None -> name_entry t name = Some i ->
  type_at t i = MACH_PORT_TYPE_SEND -> 0 < IE_BITS_UREFS (ie_bits (anth t i)) ->
  ie_request (anth t i) = IE_REQ_NONE -> ks_ports k !! a = Some p -> ip_active p = false ->
  0 < ip_srights p < 2 ^ 32 -> a <> IP_NULL -> delta_in_range delta = false ->
  wp (ipc_right_delta name i MACH_PORT_RIGHT_DEAD_NAME delta) (fun r k' =>
    r = KERN_INVALID_VALUE /\
    ks_ports k' = <[a := set_ip_srights (ip_srights p - 1) p]> (ks_ports k) /\
    exists t', is_table (ks_space k') = Some t' /\ type_at t' i = MACH_PORT_TYPE_DEAD_NAME /\
      object_at t' i = IO_NULL) k.
Proof.
  intros a Hsw Hn Hty Hu Hq Hp Hact Hs Ha Hd. pose proof (sw_table _ _ _ _ Hsw) as Ht.
  pose proof Hn as (_&Hi&_)%name_entry_Some. pose proof Hty as Hty'. unfold type_at in Hty.
  unfold ipc_right_delta. apply wp_bind, (wp_is_active _ t); [done|].
  apply wp_bind, wp_massert; [done|]. apply wp_bind, wp_massert; [done|]. const_tests.
  unfold delta_dead_name. apply wp_bind, (wp_get_entry _ t); [done|lia|]. type_tests Hty.
  apply wp_bind, wp_massert; [unfold a, object_at in *; lia|]. apply wp_bind.
  eapply wp_mono; [by apply (ipc_right_check_dead_ok k t fl i name p)|].
  intros died k' (->&Hports&_&t'&Hsw'&_&Hty1&Ho1&Hu1&Hq1&_&Hl1&_). cbn [negb].
  pose proof (sw_table _ _ _ _ Hsw') as Ht'. unfold delta_dead_bits.
  apply wp_bind, (wp_get_entry _ t'); [done|lia|]. unfold type_at in Hty1.
  apply wp_bind, wp_massert; [by rewrite Hty1|]. apply wp_bind, wp_massert; [lia|].
  apply wp_bind, wp_massert; [unfold object_at in Ho1; lia|]. apply wp_bind, wp_massert; [lia|].
  rewrite Hd. cbn [negb]. apply wp_bind, wp_emit, wp_ret. split; [done|]. split; [done|]. by exists t'.
Qed.

(** C39. Destroying a pinned right strands its entry: [ipc_right_destroy]
    clears the type of the entry before it notices that the right is pinned; it
    then reports [KERN_INVALID_CAPABILITY], but the name no longer denotes
    anything, while the entry is not on the free list, the port still counts the
    send right, and the reverse hash still leads to the entry. *)
Theorem destroy_pinned_strands k t fl i name p check_guard guard :
  let a := object_at t i in
  space_wf (ks_space k) t fl None -> name_entry t name = Some i ->
  type_at t i = MACH_PORT_TYPE_SEND -> live_port k (anth t i) p -> ip_pinned p = true ->
  wp (ipc_right_destroy name i check_guard guard) (fun r k' =>
    r = KERN_INVALID_CAPABILITY /\ ks_ports k' = ks_ports k /\
    exists t', is_table (ks_space k') = Some t' /\ name_entry t' name = None /\
      fl_chain t' 0 fl /\ (i ∉ fl) /\ hash_map t' !! a = Some i) k.
Proof.
  intros a Hsw Hn Hty [Hp Hv Hact] Hpin. pose proof Hsw as [Ht Hwf _ _ _ _].
  pose proof Hn as (Hix&Hi&Hg&Hnone)%name_entry_Some. pose proof Hty as Hty'. unfold type_at in Hty.
  assert (i ∉ fl) as Hnf by (intros (_&_&?)%(tw_free _ _ _ Hwf); by rewrite Hty in *).
  assert (hashed t i) as Hh by (by apply Hwf).
  set (e := set_ie_bits (Z.ldiff (ie_bits (anth t i)) IE_BITS_TYPE_MASK) (anth t i)). set (t' := aset t i e).
  assert (anth t' i = e) as He by (apply anth_aset_eq; lia).
  assert (hash_agree t t') as Hag by (apply hash_agree_aset; done || apply Hwf || lia).
  assert (IE_BITS_TYPE (ie_bits e) = MACH_PORT_TYPE_NONE) as Hte by apply cleared_type.
  unfold ipc_right_destroy. apply wp_bind, (wp_get_entry _ t); [done|lia|].
  apply wp_bind, (wp_put_entry _ t); [done|lia|]. fold e t'.
  apply wp_bind, (wp_is_active _ t'); [done|]. apply wp_bind, wp_massert; [done|]. rewrite Hty. const_tests.
  unfold destroy_port. apply wp_bind, wp_get_space. apply wp_bind, (wp_get_entry _ t'); [done|rewrite (ha_len _ _ Hag); lia|].
  rewrite He. change (ie_object e) with (ie_object (anth t i)).
  apply wp_bind, wp_massert; [lia|]. apply wp_bind, (wp_get_port _ _ p); [done|]. rewrite Hpin. const_tests.
  apply wp_bind, wp_massert; [done|]. apply wp_bind, wp_emit, wp_ret.
  split; [done|]. split; [done|]. exists t'. split; [done|]. split; [|split; [|split; [done|]]].
  - destruct (name_entry t' name) as [j|] eqn:Hj; [|done]. apply name_entry_Some in Hj as (->&_&_&Hbad).
    rewrite <- Hix in Hbad. unfold type_at in Hbad. by rewrite He in Hbad.
  - apply fl_chain_agree with t; [|apply Hwf]. intros j Hj. unfold t'.
    rewrite anth_aset_ne; [done|lia| |destruct Hj as [->|Hj]; [lia|by intros ->]].
    destruct Hj as [->|Hj%(tw_free _ _ _ Hwf)]; lia.
  - rewrite (hash_agree_map t t' (tw_hash _ _ _ Hwf) Hag). by apply hashed_map; [apply Hwf|].
Qed.
End dead_ports.

(** ** The theorems at work *)
#[local] Existing Instances DEVELOPMENT SMALL_4K quiet plain_externals SMALL_REQUESTS.

(** The port of the sample entry has died. *)
Definition dead_port : ipc_port := set_io_bits 0 sent_port.
(** The port of the sample entry is pinned. *)
Definition pinned_port : ipc_port := set_ip_pinned true sent_port.

Lemma ipc_right_check_dead_witness :
  exists k', ipc_right_check 0x5000 0x103 1 IPC_OBJECT_COPYIN_FLAGS_NONE
    (sample_state 0x5000 MACH_PORT_TYPE_SEND 2 dead_port) = Done (true, k').
Proof.
  destruct (wp_elim _ _ _ (ipc_right_check_dead (sample_state 0x5000 MACH_PORT_TYPE_SEND 2 dead_port)
    (sample_table 0x5000 MACH_PORT_TYPE_SEND 2) [2; 3] 1 0x103 dead_port IPC_OBJECT_COPYIN_FLAGS_NONE
    ltac:(apply sample_wf; [lia|by left|reflexivity]) eq_refl eq_refl eq_refl eq_refl eq_refl eq_refl
    ltac:(split; reflexivity))) as (r&k'&Hr&->&_).
  exists k'. exact Hr.
Defined.

Lemma delta_dead_name_leaks_witness :
  exists k', ipc_right_delta 0x103 1 MACH_PORT_RIGHT_DEAD_NAME 70000
    (sample_state 0x5000 MACH_PORT_TYPE_SEND 2 dead_port) = Done (KERN_INVALID_VALUE, k') /\
    io_references <$> ks_ports k' !! 0x5000 = Some (io_references dead_port).
Proof.
  destruct (wp_elim _ _ _ (delta_dead_name_leaks (sample_state 0x5000 MACH_PORT_TYPE_SEND 2 dead_port)
    (sample_table 0x5000 MACH_PORT_TYPE_SEND 2) [2; 3] 1 0x103 dead_port 70000
    ltac:(apply sample_wf; [lia|by left|reflexivity]) eq_refl eq_refl eq_refl eq_refl eq_refl eq_refl
    ltac:(split; reflexivity) ltac:(discriminate) eq_refl)) as (r&k'&Hr&->&Hports&_).
  exists k'. split; [exact Hr|]. by rewrite Hports.
Defined.

Lemma destroy_pinned_strands_witness :
  exists k', ipc_right_destroy 0x103 1 false 0
    (sample_state 0x5000 MACH_PORT_TYPE_SEND 1 pinned_port) = Done (KERN_INVALID_CAPABILITY, k').
Proof.
  destruct (wp_elim _ _ _ (destroy_pinned_strands (sample_state 0x5000 MACH_PORT_TYPE_SEND 1 pinned_port)
    (sample_table 0x5000 MACH_PORT_TYPE_SEND 1) [2; 3] 1 0x103 pinned_port false 0
    ltac:(apply sample_wf; [lia|by left|reflexivity]) eq_refl eq_refl
    ltac:(split; [reflexivity|discriminate|reflexivity]) eq_refl)) as (r&k'&Hr&->&_).
  exists k'. exact Hr.
Defined.
