(* ===== verification/InfoProps.v ===== *)
(** * What the listings report

    [mach_port_get_set_status] lists the members of a set, as long as they fit into its
    first guess of one page; [mach_port_names] lists the names of a space. *)

From stdpp Require Import sorting.
From S2P Require Import Prelude MachPort KmsgQueue KmsgSpec Prng OsRefcnt IpcTable IpcHash IpcState IpcSpace EntryFacts IpcEntry EntrySpec IpcPort PortSpec IpcMqueue Samples IpcRequest RequestProps IpcPortLife IpcRight RightDrop RightCopy IpcObject MachPortCalls MachPortInfo LookupProps RightSpec RightUrefs RightMove RightFresh RightCorners.

(** ** Filling the array of members *)
Lemma write_members_ok members : forall maxnames names actual,
  0 <= actual -> actual + alen members < 2 ^ 32 -> alen names = maxnames ->
  (write_members members maxnames names actual).2 = actual + alen members /\
  (actual + alen members <= maxnames ->
   take (Z.to_nat (actual + alen members)) (write_members members maxnames names actual).1 =
   take (Z.to_nat actual) names ++ members).
Proof.
  unfold alen. induction members as [|m members IH]; intros maxnames names actual Ha Hu Hl.
  { simpl. rewrite Z.add_0_r, app_nil_r. done. }
  cbn [write_members length] in *. assert (u32 (actual + 1) = actual + 1) as -> by (unfold u32; apply Z.mod_small; lia).
  destruct (IH maxnames (if actual <? maxnames then aset names actual m else names) (actual + 1)) as [IH1 IH2];
    [lia|lia|destruct (actual <? maxnames); [unfold aset; by rewrite length_insert|done]|].
  rewrite IH1. split; [lia|]. intros Hf. replace (actual + Z.of_nat (S (length members))) with (actual + 1 + Z.of_nat (length members)) by lia.
  rewrite IH2 by lia. rewrite (proj2 (Z.ltb_lt _ _)) by lia.
  replace (Z.to_nat (actual + 1)) with (S (Z.to_nat actual)) by lia. unfold aset.
  rewrite (take_S_r _ _ m) by (apply list_lookup_insert_eq; lia). rewrite take_insert_ge by lia. by rewrite <- app_assoc.
Qed.

(** ** A set that does not change while it is listed

    Other threads may do anything that leaves the name and the members of the set alone. *)
Record steady `{KernelConfig} `{TableSizes} `{Concurrency} `{Externals} `{RequestSizes}
    (name pset : Z) (members : list Z) (I : kst -> Prop) : Prop := {
  st_translate k : I k -> exists k', ipc_object_translate name MACH_PORT_RIGHT_PORT_SET k = Done ((KERN_SUCCESS, pset), k') /\ I k';
  st_members k : I k -> set_members pset k = members;
  st_other k : I k -> I (interfered k);
}.

Section set_status.
Context `{KernelConfig} `{TableSizes} `{Concurrency} `{Externals} `{RequestSizes} `{KernelMap}.
Context (name pset : Z) (members : list Z) (I : kst -> Prop) (HI : steady name pset members I).
Context (P : Z) (HP : 0 < P) (Hpage : VM_MAP_PAGE_SIZE = 4 * P) (Hmem : forall k size, kmem_alloc k size = true).
Abbreviation n := (alen members).

(** One round. *)
Lemma set_status_round rounds size actual k :
  I k -> 0 <= actual -> 0 <= size -> actual + n < 2 ^ 32 ->
  exists k', I k' /\
  set_status_loop (S rounds) name size actual k =
    (if actual + n <=? size / 4
     then Done ((KERN_SUCCESS, merge_sort Z.le (take (Z.to_nat actual) (kmem_contents k size <$> seq 0 (Z.to_nat (size / 4))) ++ members)), k')
     else set_status_loop rounds name (round_page ((actual + n) * 4) + VM_MAP_PAGE_SIZE) (actual + n) (interfered k')).
Proof using HI Hmem.
  intros Hk Ha Hs Hu. destruct (st_translate _ _ _ _ HI k Hk) as (k'&Htr&Hk'). exists k'. split; [done|].
  cbn [set_status_loop]. unfold bind at 1, gets. rewrite Hmem. cbn [negb]. unfold bind at 1, gets.
  unfold bind at 1. rewrite Htr. cbn [bool_decide decide_rel negb]. rewrite bool_decide_eq_true_2 by done. cbn [negb].
  unfold bind at 1, gets. rewrite (st_members _ _ _ _ HI k' Hk').
  set (names := (fun i => kmem_contents k size i) <$> seq 0 (Z.to_nat (size / 4))).
  destruct (write_members_ok members (size / 4) names actual Ha Hu) as [Hw1 Hw2].
  { unfold alen, names. rewrite length_fmap, length_seq, Z2Nat.id; [done|]. by apply Z.div_pos. }
  destruct (write_members members (size / 4) names actual) as [names' actual']. simpl in Hw1, Hw2. subst actual'.
  destruct (Z.leb_spec (actual + n) (size / 4)) as [Hf|Hf]; [|done]. unfold ret. by rewrite Hw2.
Qed.

Lemma set_status_never rounds : forall size actual k,
  I k -> 0 <= actual -> 0 <= size -> size / 4 < actual + 2 * P -> 2 * P <= n ->
  actual + Z.of_nat rounds * n < 2 ^ 32 -> set_status_loop rounds name size actual k = Diverges.
Proof using HI Hmem HP Hpage.
  induction rounds as [|rounds IH]; intros size actual k Hk Ha Hs Hfit Hn Hu; [done|].
  assert (actual + n + Z.of_nat rounds * n < 2 ^ 32) as Hu' by (rewrite Nat2Z.inj_succ in Hu; lia).
  assert (0 <= Z.of_nat rounds * n) by (apply Z.mul_nonneg_nonneg; lia).
  destruct (set_status_round rounds size actual k) as (k'&Hk'&->); [done..|lia|].
  rewrite (proj2 (Z.leb_gt _ _)) by lia. apply IH; [by apply HI|lia| | |done|lia].
  - unfold round_page. rewrite Hpage. apply Z.add_nonneg_nonneg; [|lia]. apply Z.mul_nonneg_nonneg; [|lia]. apply Z.div_pos; lia.
  - unfold round_page. rewrite Hpage.
    pose proof (Z.mul_div_le ((actual + n) * 4 + 4 * P - 1) (4 * P) ltac:(lia)) as Hle.
    set (q := ((actual + n) * 4 + 4 * P - 1) / (4 * P)) in *.
    replace (q * (4 * P) + 4 * P) with ((q * P + P) * 4) by ring. rewrite Z.div_mul by lia. nia.
Qed.

(** C35. [mach_port_get_set_status] returns the members of the set, sorted, when they fit
    into one page of names.  The count is not reset for another round: when one more round
    has room for twice the names the answer is twice as long, its other half whatever the
    memory held; with at least two pages of members no round ever has room. *)
Theorem get_set_status_retry space k rounds :
  space <> IS_NULL -> MACH_PORT_VALID name = true -> I k -> 2 * n < 2 ^ 32 ->
  (n <= P -> exists k', mach_port_get_set_status (S rounds) space name k =
     Done ((KERN_SUCCESS, merge_sort Z.le members), k')) /\
  (P < n -> 2 * n <= (n + P - 1) / P * P + P -> exists k1 k' size, mach_port_get_set_status (S (S rounds)) space name k =
     Done ((KERN_SUCCESS, merge_sort Z.le ((kmem_contents k1 size <$> seq 0 (length members)) ++ members)), k')) /\
  (2 * P <= n -> Z.of_nat rounds * n < 2 ^ 32 -> mach_port_get_set_status rounds space name k = Diverges).
Proof using HI Hmem HP Hpage.
  intros Hsp Hv Hk Hu. unfold mach_port_get_set_status. rewrite (proj2 (Z.eqb_neq _ _) Hsp), Hv. cbn [negb].
  assert (VM_MAP_PAGE_SIZE / 4 = P) as Hp4 by (rewrite Hpage, Z.mul_comm; by apply Z.div_mul).
  assert (0 <= n) by (unfold alen; lia). split_and!.
  - intros Hn. destruct (set_status_round rounds VM_MAP_PAGE_SIZE 0 k) as (k'&_&->); [done|lia..|].
    rewrite Hp4, (proj2 (Z.leb_le _ _)) by lia. by exists k'.
  - intros Hn Hfit. destruct (set_status_round (S rounds) VM_MAP_PAGE_SIZE 0 k) as (k1&Hk1&->); [done|lia..|].
    rewrite Hp4, (proj2 (Z.leb_gt _ _)) by lia. rewrite Z.add_0_l.
    assert (round_page (n * 4) + VM_MAP_PAGE_SIZE = 4 * ((n + P - 1) / P * P + P)) as Hs.
    { unfold round_page. rewrite Hpage. replace (n * 4 + 4 * P - 1) with (3 + (n + P - 1) * 4) by ring.
      rewrite <- Z.div_div, Z.div_add by lia. change (3 / 4) with 0. rewrite Z.add_0_l. ring. }
    rewrite Hs. set (size := 4 * _). assert (size / 4 = (n + P - 1) / P * P + P) as Hsz by (unfold size; rewrite Z.mul_comm; by apply Z.div_mul).
    destruct (set_status_round rounds size n (interfered k1)) as (k2&_&->); [by apply HI|lia|unfold size; lia|lia|].
    rewrite Hsz, (proj2 (Z.leb_le _ _)) by lia. exists (interfered k1), k2, size. do 4 f_equal.
    rewrite <- Hsz, <- fmap_take, take_seq. do 3 f_equal. unfold alen in *. lia.
  - intros Hn Hr. apply set_status_never; [done|lia|lia|lia|done|lia].
Qed.
End set_status.

(** ** Types *)

(** The request flags of a type, for the send-once right of a request. *)
Definition request_flags (sor : Z) : Z :=
  if IP_VALID (IPR_SOR_PORT sor) then
    Z.lor MACH_PORT_TYPE_DNREQUEST
      (if IPR_SOR_SPREQ sor
       then Z.lor MACH_PORT_TYPE_SPREQUEST (if IPR_SOR_SPARMED sor then 0 else MACH_PORT_TYPE_SPREQUEST_DELAYED)
       else 0)
  else 0.
Definition entry_flags (e : ipc_entry) (p : ipc_port) : Z :=
  if ie_request e =? IE_REQ_NONE then 0
  else match ip_requests p with
       | Some (_, table) => request_flags (ipr_soright (anth table (ie_request e)))
       | None => 0
       end.
(** What [mach_port_names] reports of an entry. *)
Definition reported (k : kst) (timestamp : Z) (e : ipc_entry) : Z :=
  match ks_ports k !! ie_object e with
  | Some p =>
    if has (ie_bits e) MACH_PORT_TYPE_RECEIVE then Z.lor (entry_flags e p) (IE_BITS_TYPE (ie_bits e))
    else if has (ie_bits e) MACH_PORT_TYPE_SEND_RIGHTS then
      if ip_active p || IP_TIMESTAMP_ORDER timestamp (ip_timestamp p) then Z.lor (entry_flags e p) (IE_BITS_TYPE (ie_bits e))
      else if negb (entry_flags e p =? 0) && (IE_BITS_UREFS (ie_bits e) =? MACH_PORT_UREFS_MAX)
           then Z.lor MACH_PORT_TYPE_DEAD_NAME MACH_PORT_TYPE_SEND
           else MACH_PORT_TYPE_DEAD_NAME
    else IE_BITS_TYPE (ie_bits e)
  | None => IE_BITS_TYPE (ie_bits e)
  end.

(** An entry that holds a right on a port: the port is there, alive if the right is the
    receive right, and the request of the entry is in its table. *)
Definition right_ok (k : kst) (e : ipc_entry) (name : Z) : Prop :=
  bits_ok (ie_bits e) /\
  (has (ie_bits e) MACH_PORT_TYPE_RECEIVE || has (ie_bits e) MACH_PORT_TYPE_SEND_RIGHTS = true ->
   IP_VALID (ie_object e) = true /\ exists p, ks_ports k !! ie_object e = Some p /\
   (has (ie_bits e) MACH_PORT_TYPE_RECEIVE = true -> ip_active p = true) /\
   (ie_request e <> IE_REQ_NONE -> exists addr table, ip_requests p = Some (addr, table) /\
      0 <= ie_request e < alen table /\ ipr_name (anth table (ie_request e)) = name)).

Lemma pegged_bits bits :
  bits_ok bits -> IE_BITS_UREFS bits = MACH_PORT_UREFS_MAX ->
  IE_BITS_TYPE (u32 (Z.lor (Z.ldiff bits IE_BITS_TYPE_MASK) MACH_PORT_TYPE_DEAD_NAME + 1)) =
  Z.lor MACH_PORT_TYPE_DEAD_NAME MACH_PORT_TYPE_SEND.
Proof.
  intros [Hb _] Hu. rewrite dead_bits_value, IE_BITS_TYPE_arith. rewrite IE_BITS_UREFS_arith in Hu.
  change (Z.lor MACH_PORT_TYPE_DEAD_NAME MACH_PORT_TYPE_SEND) with 0x110000.
  unfold MACH_PORT_TYPE_DEAD_NAME, MACH_PORT_UREFS_MAX in *.
  assert (bits = (bits / 2 ^ 21) * 2 ^ 21 + (bits / 2 ^ 16 mod 2 ^ 5) * 2 ^ 16 + 0xffff) as Hd by dlia.
  set (q := bits / 2 ^ 21) in *. assert (0 <= q < 2 ^ 11) as Hq by (unfold q; dlia).
  replace (bits - bits / 2 ^ 16 mod 2 ^ 5 * 2 ^ 16 + 0x100000 + 1) with (q * 2 ^ 21 + 0x110000) by lia.
  rewrite u32_small by lia. dlia.
Qed.

Section names.
Context `{KernelConfig} `{TableSizes} `{Concurrency} `{Externals} `{RequestSizes} `{KernelMap}.

Lemma request_type_run k a p name index addr table :
  ks_ports k !! a = Some p -> ip_requests p = Some (addr, table) -> index <> IE_REQ_NONE -> 0 <= index < alen table ->
  ipr_name (anth table index) = name ->
  ipc_port_request_type a name index k = Done (request_flags (ipr_soright (anth table index)), k).
Proof.
  intros Hp Hr Hn Hi Hm. unfold ipc_port_request_type. unfold bind at 1, get_port. rewrite Hp.
  unfold has_requests, requests_of, massert. rewrite Hr. unfold bind, lift.
  rewrite kassert_true by done. rewrite kassert_true by by apply negb_true_iff, Z.eqb_neq. cbn.
  rewrite aget_in by done. rewrite kassert_true by by apply Z.eqb_eq. done.
Qed.

Lemma names_helper_ok k timestamp e name :
  right_ok k e name -> mach_port_names_helper timestamp e name k = Done (reported k timestamp e, k).
Proof.
  intros [Hb Hok]. unfold mach_port_names_helper, reported.
  destruct (has (ie_bits e) MACH_PORT_TYPE_RECEIVE) eqn:Hrcv;
    [|destruct (has (ie_bits e) MACH_PORT_TYPE_SEND_RIGHTS) eqn:Hsnd].
  - destruct (Hok eq_refl) as (Hv&p&Hp&Hact&Hreq). rewrite Hp. unfold massert, bind at 1 2, lift. rewrite kassert_true by done.
    unfold entry_flags. destruct (Z.eqb_spec (ie_request e) IE_REQ_NONE) as [Hn|Hn]; [done|]. cbn [negb].
    destruct (Hreq Hn) as (addr&table&Hr&Hi&Hm). unfold bind at 1, get_port. rewrite Hp. unfold require_ip_active.
    rewrite Hact by done. unfold bind, ret. rewrite (request_type_run k _ p name _ addr table) by done. by rewrite Hr.
  - destruct (Hok eq_refl) as (Hv&p&Hp&_&Hreq). rewrite Hp. unfold massert, bind at 1 2, lift. rewrite kassert_true by done.
    assert ((if negb (ie_request e =? IE_REQ_NONE) then ipc_port_request_type (ie_object e) name (ie_request e) else ret 0) k
      = Done (entry_flags e p, k)) as Hty.
    { unfold entry_flags. destruct (Z.eqb_spec (ie_request e) IE_REQ_NONE) as [Hn|Hn]; [done|]. cbn [negb].
      destruct (Hreq Hn) as (addr&table&Hr&Hi&Hm). rewrite Hr. by apply (request_type_run k _ p name _ addr table). }
    unfold bind at 1. rewrite Hty. unfold bind at 1, get_port. rewrite Hp.
    destruct (ip_active p || IP_TIMESTAMP_ORDER timestamp (ip_timestamp p)); [done|].
    unfold bind, ret. rewrite Z.lor_0_l. do 2 f_equal.
    destruct (entry_flags e p =? 0) eqn:Hf; simpl.
    + pose proof (dead_bits (ie_bits e) 0 Hb) as Hd. cbv zeta in Hd. rewrite !Z.add_0_r in Hd. apply Hd; [lia|].
      rewrite IE_BITS_UREFS_arith. unfold MACH_PORT_UREFS_MAX. dlia.
    + destruct (Z.eqb_spec (IE_BITS_UREFS (ie_bits e)) MACH_PORT_UREFS_MAX) as [Hu|Hu]; [by apply pegged_bits|].
      destruct (dead_bits (ie_bits e) 1 Hb) as (->&_&Ht&_); [lia| |done].
      rewrite IE_BITS_UREFS_arith in *. unfold MACH_PORT_UREFS_MAX in *. dlia.
  - unfold bind, ret. rewrite Z.lor_0_l. by destruct (ks_ports k !! ie_object e).
Qed.

(** The entries of [t] from [index] on that are in use, with their names and types. *)
Fixpoint listing (k : kst) (timestamp : Z) (t : list ipc_entry) (count : nat) (index : Z) : list (Z * Z) :=
  match count with
  | O => []
  | S count =>
    let e := anth t index in
    (if IE_BITS_TYPE (ie_bits e) =? MACH_PORT_TYPE_NONE then []
     else [(MACH_PORT_MAKE index (IE_BITS_GEN (ie_bits e)), reported k timestamp e)]) ++
    listing k timestamp t count (index + 1)
  end.
Lemma listing_elem k timestamp t count : forall index x, x ∈ listing k timestamp t count index <->
  exists i, index <= i < index + Z.of_nat count /\ type_at t i <> MACH_PORT_TYPE_NONE /\
    x = (MACH_PORT_MAKE i (IE_BITS_GEN (ie_bits (anth t i))), reported k timestamp (anth t i)).
Proof.
  induction count as [|count IH]; intros index x; cbn [listing].
  { split; [by intros ?%not_elem_of_nil|]. intros (i&?&_). lia. }
  rewrite elem_of_app, IH. unfold type_at.
  destruct (Z.eqb_spec (IE_BITS_TYPE (ie_bits (anth t index))) MACH_PORT_TYPE_NONE) as [Ht|Ht].
  - split.
    + intros [?%not_elem_of_nil|(i&?&?)]; [done|]. exists i. split; [lia|done].
    + intros (i&Hi&Hn&Hx). destruct (decide (i = index)) as [->|]; [done|]. right. exists i. split; [lia|done].
  - rewrite list_elem_of_singleton. split.
    + intros [->|(i&?&?)]; [exists index; split; [lia|done]|]. exists i. split; [lia|done].
    + intros (i&Hi&Hn&Hx). destruct (decide (i = index)) as [->|]; [by left|]. right. exists i. split; [lia|done].
Qed.
Lemma listing_ports k k' timestamp t count : ks_ports k = ks_ports k' -> forall index,
  listing k timestamp t count index = listing k' timestamp t count index.
Proof.
  intros Hp. induction count as [|count IH]; intros index; cbn [listing]; [done|]. rewrite IH. unfold reported. by rewrite Hp.
Qed.
Lemma listing_nodup k timestamp t count : forall index,
  0 <= index -> index + Z.of_nat count <= 2 ^ 24 -> NoDup (listing k timestamp t count index).*1.
Proof.
  induction count as [|count IH]; intros index Hi Hc; cbn [listing]; [constructor|]. rewrite fmap_app.
  destruct (_ =? _); [apply IH; lia|]. simpl. apply NoDup_cons. split; [|apply IH; lia].
  intros Hin. apply list_elem_of_fmap in Hin as (x&Hx&(j&Hj&_&->)%listing_elem). simpl in Hx.
  apply (f_equal MACH_PORT_INDEX) in Hx. rewrite !MACH_PORT_INDEX_MAKE in Hx;
    rewrite ?IE_BITS_GEN_arith; try lia; dlia.
Qed.

(** The arrays have room for all of them. *)
Lemma names_scan_ok k timestamp t size count : forall index out,
  (forall i, 0 < i < alen t -> type_at t i <> MACH_PORT_TYPE_NONE ->
     right_ok k (anth t i) (MACH_PORT_MAKE i (IE_BITS_GEN (ie_bits (anth t i))))) ->
  0 < index -> index + Z.of_nat count = alen t -> 4 * (alen out + Z.of_nat count) <= size ->
  names_scan count t timestamp size index out k = Done (out ++ listing k timestamp t count index, k).
Proof.
  unfold alen. induction count as [|count IH]; intros index out Hok Hi Hc Hs; cbn [names_scan listing].
  { by rewrite app_nil_r. }
  unfold bind at 1, lift. rewrite aget_in by (unfold alen; lia). unfold bind at 1.
  destruct (Z.eqb_spec (IE_BITS_TYPE (ie_bits (anth t index))) MACH_PORT_TYPE_NONE) as [Ht|Ht]; cbn [negb].
  - unfold ret. apply IH; [done|lia..].
  - unfold bind at 1. rewrite names_helper_ok by (apply Hok; [lia|done]). unfold names_write, ret.
    rewrite (proj2 (Z.leb_le _ _)) by (unfold alen; lia). rewrite IH; [by rewrite <- app_assoc|done|lia|lia|].
    rewrite length_app. simpl. lia.
Qed.

(** The memory found is enough for the table. *)
Lemma names_room_ok rounds : forall size k k1 size', names_room rounds size k = Done (inr size', k1) ->
  exists t, is_table (ks_space k1) = Some t /\ 0 < alen t /\ round_page (ie_size (anth t 0) * 4) <= size'.
Proof.
  induction rounds as [|rounds IH]; intros size k k1 size'; cbn [names_room]; [done|].
  unfold is_active, is_active_table, bind at 1, get_space, gets. destruct (is_table (ks_space k)) as [t|] eqn:Ht.
  2: { by rewrite bool_decide_eq_false_2 by (intros [? ?]; done). }
  rewrite bool_decide_eq_true_2 by done. cbn [negb]. unfold bind at 1 2. rewrite Ht. unfold ret at 1.
  unfold bind at 1, lift. destruct (decide (0 < alen t)) as [Hl|Hl].
  2: { unfold aget. destruct t; [done|]. unfold alen in Hl. simpl in Hl. lia. }
  rewrite aget_in by lia. destruct (Z.leb_spec (round_page (ie_size (anth t 0) * 4)) size) as [Hle|Hle].
  - unfold ret. intros [= <- <-]. by exists t.
  - unfold bind at 1, interfere, modify. unfold bind at 1, gets. destruct (kmem_alloc _ _); [apply IH|done].
Qed.

(** C25. The listing is an accurate snapshot of the space: once the table fits into the
    memory obtained, whatever other threads did before, each name that denotes a right is
    listed exactly once, with the type and the request flags of its right, and nothing
    else is; the arrays are never written past their end.  A right whose port died is
    listed as a dead name; if its user references are pegged and its request is about to be
    notified, the additional reference the listing accounts for carries into the type, which
    then claims a send right besides. *)
Theorem mach_port_names_snapshot rounds space k k1 size t fl :
  space <> IS_NULL -> 0 < VM_MAP_PAGE_SIZE -> names_room rounds 0 k = Done (inr size, k1) ->
  space_wf (ks_space k1) t fl None ->
  (forall i, 0 < i < alen t -> type_at t i <> MACH_PORT_TYPE_NONE ->
     right_ok k1 (anth t i) (MACH_PORT_MAKE i (IE_BITS_GEN (ie_bits (anth t i))))) ->
  exists out, mach_port_names rounds space k =
    Done ((KERN_SUCCESS, out), set_ks_timestamp (u32 (ks_timestamp k1 + 1)) k1) /\ NoDup out.*1 /\
  forall name type, 0 <= name < 2 ^ 32 ->
    ((name, type) ∈ out <-> exists i, name_entry t name = Some i /\ type = reported k1 (ks_timestamp k1) (anth t i)).
Proof.
  intros Hsp Hpg Hroom Hsw Hok. destruct (names_room_ok _ _ _ _ _ Hroom) as (t'&Ht'&Hl&Hsz).
  pose proof (sw_table _ _ _ _ Hsw) as Ht. assert (t' = t) as -> by congruence. clear Ht'.
  pose proof (sw_wf _ _ _ _ Hsw) as Hwf. pose proof (hw_size _ (tw_hash _ _ _ Hwf)) as Hsize. rewrite Hsize in Hsz.
  pose proof (tw_max _ _ _ Hwf) as Hmax. change (MACH_PORT_INDEX MACH_PORT_DEAD) with (2 ^ 24 - 1) in Hmax.
  assert (alen t * 4 <= size) as Hfit.
  { etrans; [|exact Hsz]. unfold round_page. pose proof (Z.mul_succ_div_gt (alen t * 4 + VM_MAP_PAGE_SIZE - 1) VM_MAP_PAGE_SIZE Hpg). nia. }
  set (k2 := set_ks_timestamp (u32 (ks_timestamp k1 + 1)) k1).
  exists (listing k1 (ks_timestamp k1) t (Z.to_nat (alen t - 1)) 1). split_and!.
  - unfold mach_port_names. rewrite (proj2 (Z.eqb_neq _ _) Hsp). unfold bind at 1. rewrite Hroom.
    unfold ipc_port_timestamp, is_active_table, get_space, lift, gets, modify, ret, bind. cbn [ks_space set_ks_timestamp].
    rewrite Ht. rewrite aget_in by lia. rewrite Hsize. fold k2.
    rewrite (names_scan_ok k2); [by rewrite (listing_ports k2 k1)|exact Hok|lia|lia|unfold alen at 1; simpl; lia].
  - apply listing_nodup; lia.
  - intros name type Hn. rewrite listing_elem. split.
    + intros (i&Hi&Hty&[= -> ->]). exists i. split; [|done]. apply name_entry_Some.
      rewrite MACH_PORT_INDEX_MAKE by (rewrite ?IE_BITS_GEN_arith; dlia). split_and!; [done|lia|lia| |done].
      rewrite MACH_PORT_GEN_MAKE by (rewrite ?IE_BITS_GEN_arith; dlia). rewrite !IE_BITS_GEN_arith. dlia.
    + intros (i&Hi&->). apply name_entry_Some in Hi as (->&Hr&Hg&Hty). exists (MACH_PORT_INDEX name).
      split; [lia|]. split; [done|]. f_equal. rewrite Hg. symmetry. by apply MACH_PORT_MAKE_name.
Qed.
End names.

(** ** Instances *)
Section instances.
#[local] Existing Instances DEVELOPMENT SMALL_4K plain_externals SMALL_REQUESTS quiet.

(** Pages of two names, and a set of four members named 0x103. *)
Definition tiny_pages : KernelMap := {|
  VM_MAP_PAGE_SIZE := 8;
  kmem_alloc _ _ := true;
  kmem_contents _ _ _ := 0;
|}.
#[local] Existing Instance tiny_pages.
Definition member (name : Z) : ipc_port := set_ip_receiver_name name (set_ip_psets [0x6000] fresh_port).
Definition set_of_four (clock : nat) : kst :=
  set_ks_clock clock (set_ks_psets {[ 0x6000 := mk_ipc_pset (io_makebits true IOT_PORT_SET 0) 1 ]}
    (set_ks_ports {[ 0x5000 := member 0x203; 0x5100 := member 0x403; 0x5200 := member 0x303; 0x5300 := member 0x503 ]}
      (sample_state 0x6000 MACH_PORT_TYPE_PORT_SET 0 fresh_port))).
Definition the_four : list Z := Eval vm_compute in set_members 0x6000 (set_of_four 0).

Lemma four_steady : steady 0x103 0x6000 the_four (fun k => exists clock, k = set_of_four clock).
Proof.
  split.
  - intros k [clock ->]. exists (set_of_four (S clock)). split; [reflexivity|by eexists].
  - intros k [clock ->]. reflexivity.
  - intros k [clock ->]. exists (S clock). reflexivity.
Qed.

Lemma get_set_status_retry_witness :
  length the_four = 4%nat /\ mach_port_get_set_status 10 1 0x103 (set_of_four 0) = Diverges.
Proof.
  split; [reflexivity|].
  apply (get_set_status_retry (H4 := tiny_pages) 0x103 0x6000 the_four _ four_steady 2 ltac:(lia) eq_refl ltac:(done) 1
    (set_of_four 0) 10); [done|reflexivity|by exists 0%nat|done|done|done].
Defined.

Lemma sample_rights urefs i :
  0 <= urefs < 2 ^ 16 -> 0 < i < 4 -> type_at (sample_table 0x5000 MACH_PORT_TYPE_SEND urefs) i <> MACH_PORT_TYPE_NONE ->
  right_ok (sample_state 0x5000 MACH_PORT_TYPE_SEND urefs sent_port) (anth (sample_table 0x5000 MACH_PORT_TYPE_SEND urefs) i)
    (MACH_PORT_MAKE i (IE_BITS_GEN (ie_bits (anth (sample_table 0x5000 MACH_PORT_TYPE_SEND urefs) i)))).
Proof.
  intros Hu Hi. pattern i. apply three_cases; [| | |done].
  - intros _. split.
    + apply (tw_bits _ _ _ (sw_wf _ _ _ _ (sample_wf 0x5000 MACH_PORT_TYPE_SEND urefs Hu ltac:(by left) ltac:(done))) 1). done.
    + intros _. split; [done|]. exists sent_port. split; [done|]. split; [done|]. by intros [].
  - intros []. reflexivity.
  - intros []. reflexivity.
Qed.

Lemma mach_port_names_snapshot_witness :
  exists out, mach_port_names 2 1 (sample_state 0x5000 MACH_PORT_TYPE_SEND 2 sent_port) =
    Done ((KERN_SUCCESS, out), set_ks_timestamp 1 (set_ks_clock 1 (sample_state 0x5000 MACH_PORT_TYPE_SEND 2 sent_port))) /\
    (0x103, MACH_PORT_TYPE_SEND) ∈ out.
Proof.
  destruct (mach_port_names_snapshot 2 1 (sample_state 0x5000 MACH_PORT_TYPE_SEND 2 sent_port)
    (set_ks_clock 1 (sample_state 0x5000 MACH_PORT_TYPE_SEND 2 sent_port)) 16
    (sample_table 0x5000 MACH_PORT_TYPE_SEND 2) [2; 3]) as (out&Hrun&_&Hin); [done|done|reflexivity| | |].
  - apply sample_wf; [lia|by left|done].
  - intros i Hi Hty. apply (sample_rights 2 i); [lia|done|done].
  - exists out. split; [exact Hrun|]. apply Hin; [done|]. by exists 1.
Defined.

(** A send right with 65535 user references and a request, on a port that died: the type
    reported is 0x110000, a dead name and a send right at once. *)
Definition requested_dead_port : ipc_port :=
  set_ip_requests (Some (0x7000, [mk_ipr 0 0; mk_ipr 0x6000 0x103])) (set_io_bits 0 (set_ip_timestamp 0 sent_port)).
Example pegged_dead_name_listed :
  mach_port_names_helper 1 (mk_ipc_entry 0x5000 (gen_bits 0 0 + MACH_PORT_TYPE_SEND + 0xffff) 0 1 1) 0x103
    (one_port requested_dead_port) = Done (0x110000, one_port requested_dead_port).
Proof. reflexivity. Qed.
End instances.
