(* ===== verification/AllocProps.v ===== *)
(** * From a new port to its end

    Allocating a receive right by [mach_port_allocate] and destroying it by
    [mach_port_destruct]: the path of a port through entries, rights, ports and
    references, composed. *)

From S2P Require Import Prelude MachPort Prng OsRefcnt IpcTable IpcHash IpcState IpcSpace EntryFacts IpcEntry EntrySpec IpcPort IpcChain IpcMqueue PortSpec Samples IpcRequest RequestProps IpcPortLife DestroyProps IpcRight RightDrop RightCopy IpcObject MachPortCalls RightSpec RightUrefs LookupProps GuardProps RightMove RightFresh.

(** ** Bits of a new receive right *)
Lemma new_receive_bits g r :
  0 <= g < 64 -> 0 <= r < 4 ->
  let b := Z.lor (gen_bits g r) (Z.lor MACH_PORT_TYPE_RECEIVE 0) in
  bits_ok b /\ IE_BITS_TYPE b = MACH_PORT_TYPE_RECEIVE /\ IE_BITS_UREFS b = 0 /\
  IE_BITS_GEN b = IE_BITS_GEN (gen_bits g r).
Proof.
  intros Hg Hr. cbv zeta. rewrite Z.lor_0_r, lor_disjoint.
  2: { rewrite (land_type _ _ eq_refl), gen_bits_type by done. done. }
  unfold bits_ok. rewrite IE_BITS_TYPE_arith, IE_BITS_UREFS_arith, !IE_BITS_GEN_arith.
  unfold gen_bits, MACH_PORT_TYPE_RECEIVE.
  split; [split; [lia|]; exists g; split; [done|dlia]|]. split; [dlia|]. split; dlia.
Qed.

(** A port as [ipc_port_alloc] leaves it. *)
Definition new_port (self name : Z) : ipc_port :=
  set_ip_receiver self (set_ip_receiver_name name (ipc_mqueue_init (set_ip_waitq_valid true
    (set_io_references 1 (set_io_bits (io_makebits true IOT_PORT 0) zero_port))))).

(** The state of a space that just got the receive right of a new port. *)
Record allocated (k : kst) (t : list ipc_entry) (fl : list Z) (i a name : Z) (k' : kst) : Prop := {
  al_space : exists t', space_wf (ks_space k') t' fl None /\ name_entry t' name = Some i /\
    type_at t' i = MACH_PORT_TYPE_RECEIVE /\ IE_BITS_UREFS (ie_bits (anth t' i)) = 0 /\
    object_at t' i = a /\ ie_request (anth t' i) = IE_REQ_NONE /\
    hash_map t' = hash_map t /\ cores_but i t t';
  al_ports : ks_ports k' = <[a := new_port (is_self (ks_space k)) name]> (ks_ports k);
  al_psets : ks_psets k' = ks_psets k;
  al_self : is_self (ks_space k') = is_self (ks_space k);
  al_fresh : MACH_PORT_GEN name <> IE_BITS_GEN (ie_bits (anth t i));
  al_valid : 0 <= name /\ MACH_PORT_VALID name = true;
  al_quiet : notified k k' [];
}.

Section alloc.
Context `{KernelConfig} `{TableSizes} `{Concurrency} `{Externals} `{RequestSizes} `{Caller}.

Lemma ipc_entry_alloc_ok k t i fl a rounds rescans memory Q :
  space_wf (ks_space k) t (i :: fl) None -> can_hold t (i :: fl) 1 = true ->
  (forall k1 k' name, limits_noted k k1 -> claimed k1 t fl i a name k' -> MACH_PORT_VALID name = true ->
     Q (KERN_SUCCESS, Some (name, i)) k') ->
  wp (ipc_entry_alloc (S rounds) rescans memory a) Q k.
Proof.
  intros Hsw Hc HQ. cbn [ipc_entry_alloc]. apply wp_bind, (wp_is_active _ t); [apply Hsw|]. cbn [negb].
  apply wp_bind, (ipc_entries_hold_ok k t (i :: fl) None); [done|lia| |by rewrite Hc]. intros _ k1 Hk1.
  rewrite bool_decide_true by done. apply wp_bind.
  eapply wp_mono; [apply (ipc_entry_claim_ok k1 t i fl a); by apply limits_noted_wf with k|].
  intros r k' (name&->&Hcl&_&Hv). by apply wp_ret, (HQ k1).
Qed.

(** The entry claimed for the port becomes its receive right. *)
Lemma receive_claimed {B} (n : M kst B) k1 t fl i a name k2 Q :
  space_wf (ks_space k1) t (i :: fl) None -> claimed k1 t fl i a name k2 ->
  (forall t' k', space_wf (ks_space k') t' fl None -> only_space k1 k' ->
     is_self (ks_space k') = is_self (ks_space k1) -> name_entry t' name = Some i ->
     type_at t' i = MACH_PORT_TYPE_RECEIVE -> IE_BITS_UREFS (ie_bits (anth t' i)) = 0 ->
     object_at t' i = a -> ie_request (anth t' i) = IE_REQ_NONE -> hash_map t' = hash_map t ->
     cores_but i t t' -> 0 <= name -> MACH_PORT_GEN name <> IE_BITS_GEN (ie_bits (anth t i)) -> wp n Q k') ->
  wp (mod_entry i (fun e => set_ie_bits (Z.lor (ie_bits e) (Z.lor MACH_PORT_TYPE_RECEIVE 0)) e) ;;*
      ipc_entry_modified name ;;* n) Q k2.
Proof.
  intros Hsw [(t2&Hsw2&Hag&Hnh&Hoth&g&r&g'&r'&Hg'&Hr'&(Hg&Hr&Hb)&Hgn&Hname&He) Hi Hos Hself] HQ.
  pose proof (ha_len _ _ Hag) as Hl2. destruct (new_receive_bits g' r' Hg' Hr') as (Hbok&Hbt&Hbu&Hbg).
  assert (alen t <= 2 ^ 24 - 1) as Hmx by exact (tw_max _ _ _ (sw_wf _ _ _ _ Hsw)).
  assert (0 <= gen_bits g' r' < 2 ^ 32) as Hgb by (unfold gen_bits; lia).
  assert (MACH_PORT_INDEX name = i) as Hix by (rewrite Hname; apply MACH_PORT_INDEX_MAKE; lia).
  assert (MACH_PORT_GEN name = IE_BITS_GEN (gen_bits g' r')) as Hgn' by (rewrite Hname; apply MACH_PORT_GEN_MAKE; lia).
  unfold mod_entry. apply wp_bind, wp_bind, (wp_get_entry _ t2); [apply Hsw2|lia|].
  apply (wp_put_entry _ t2); [apply Hsw2|lia|]. rewrite He.
  set (e := set_ie_bits _ _). set (t3 := aset t2 i e). assert (anth t3 i = e) as He3 by (apply anth_aset_eq; lia).
  assert (ie_bits e = Z.lor (gen_bits g' r') (Z.lor MACH_PORT_TYPE_RECEIVE 0)) as Heb by done.
  destruct (space_wf_close (ks_space k2) t2 fl i e) as [Hsw3 Hag3]; try done.
  { lia. } { by rewrite He. } { by rewrite He. } { by rewrite Heb, Hbt. } { by rewrite Heb, Hbt. }
  fold t3 in Hsw3, Hag3. pose proof (ha_len _ _ Hag3) as Hl3.
  apply wp_bind. eapply (ipc_entry_modified_ok _ t3 fl None); [exact Hsw3|lia|]. intros lo hi ????. apply (HQ t3).
  - apply space_wf_mods; [done|simpl in *; lia..].
  - etrans; [exact Hos|done].
  - done.
  - apply name_entry_Some. unfold type_at. rewrite He3, Heb, Hbt, Hbg. repeat split; try done; lia.
  - unfold type_at. by rewrite He3, Heb.
  - by rewrite He3, Heb.
  - unfold object_at. by rewrite He3.
  - by rewrite He3.
  - transitivity (hash_map t2); [apply hash_agree_map; [apply Hsw2|done]|apply hash_agree_map; [apply Hsw|done]].
  - split; [congruence|]. intros j Hj Hne. unfold t3. rewrite anth_aset_ne by lia. by rewrite Hoth by lia.
  - rewrite Hname. rewrite MACH_PORT_MAKE_arith by lia. dlia.
  - rewrite Hgn', Hb, !gen_bits_gen by done. pose proof (gen_next_fresh _ _ _ _ Hg Hr Hgn). lia.
Qed.

Lemma init_new_port k a self name Q :
  ks_ports k !! a = Some (set_io_references 1 (set_io_bits (io_makebits true IOT_PORT 0) zero_port)) ->
  Q tt (with_port a (new_port self name) k) ->
  wp (ipc_port_init a self IPC_PORT_INIT_MESSAGE_QUEUE name) Q k.
Proof. intros Hp HQ. unfold ipc_port_init. eapply wp_bind, wp_get_port; [exact Hp|]. apply wp_put_port. exact HQ. Qed.

Lemma mach_port_allocate_receive_ok k t fl i a space rounds rescans memory :
  space_wf (ks_space k) t (i :: fl) None -> can_hold t (i :: fl) 1 = true -> space <> IS_NULL ->
  wp (mach_port_allocate (S rounds) rescans memory a space MACH_PORT_RIGHT_RECEIVE) (fun res k' =>
    exists name, res = (KERN_SUCCESS, name) /\ allocated k t fl i a name k') k.
Proof.
  intros Hsw Hc Hsp. unfold mach_port_allocate, mach_port_allocate_full.
  rewrite (proj2 (Z.eqb_neq space IS_NULL) Hsp). cbn [qos_name qos_prealloc andb negb Z.eqb MACH_PORT_NULL].
  const_tests. unfold ipc_port_alloc, port_alloc_type. const_tests. unfold ipc_object_alloc.
  apply wp_bind, wp_bind, wp_massert; [done|]. apply wp_bind, wp_massert; [done|].
  apply wp_bind, wp_massert; [done|]. apply wp_bind, wp_massert; [done|].
  unfold io_alloc. const_tests. apply wp_bind, wp_put_port.
  apply wp_bind, (ipc_entry_alloc_ok _ t i fl); [done..|]. intros k1 k2 name Hk1 Hcl Hv.
  assert (ks_ports k1 = ks_ports (with_port a (set_io_references 1 (set_io_bits (io_makebits true IOT_PORT 0) zero_port)) k)
    /\ ks_psets k1 = ks_psets k /\ is_self (ks_space k1) = is_self (ks_space k) /\ notified k k1 []) as (Hpk&Hsk&Hself&Hnt)
    by (destruct Hk1 as [->|[bit ->]]; (split; [done|]); (split; [done|]); (split; [done|]);
        [by exists []; rewrite app_nil_r|by eexists]).
  apply (receive_claimed _ k1 t fl i a name k2); [by eapply limits_noted_wf|done|].
  intros t' k3 Hsw3 (Hp3&Hps3&_&Htr3&_) Hself3 Hn Hty Hu Ho Hreq Hm Hcb Hname Hfresh. apply wp_ret.
  rewrite bool_decide_true by done. apply wp_bind, wp_get_space, wp_bind, init_new_port.
  { rewrite Hp3, Hpk. apply lookup_insert_eq. }
  apply wp_ret. exists name. split; [done|]. split; [by exists t'| |simpl; congruence|simpl; congruence|done|done|].
  2: { destruct Hnt as (l&Hl&Hf). exists l. simpl. by rewrite Htr3. }
  simpl. rewrite Hp3, Hpk, Hself3, Hself. simpl. by rewrite insert_insert_eq.
Qed.

(** ** The end *)
(** The entry [i] held a receive right and nothing else; it is free again. *)
Definition given_back (t : list ipc_entry) (fl : list Z) (i name : Z) (k' : kst) : Prop :=
  exists t', space_wf (ks_space k') t' (i :: fl) None /\ hash_map t' = hash_map t /\ name_entry t' name = None /\
    cores_but i t t' /\ IE_BITS_GEN (ie_bits (anth t' i)) = MACH_PORT_GEN name.

Lemma destruct_receive_ok k t fl i name p :
  space_wf (ks_space k) t fl None -> name_entry t name = Some i -> type_at t i = MACH_PORT_TYPE_RECEIVE ->
  IE_BITS_UREFS (ie_bits (anth t i)) = 0 -> ie_request (anth t i) = IE_REQ_NONE ->
  ks_ports k !! object_at t i = Some p -> ip_pinned p = false ->
  wp (destruct_receive name i (object_at t i)) (fun request k' =>
    request = IP_NULL /\ only_space k k' /\ given_back t fl i name k') k.
Proof.
  intros Hsw Hn Hty Hu Hreq Hp Hpin. pose proof Hn as (Hix&Hi&Hg&Hnone)%name_entry_Some.
  pose proof Hsw as [Ht Hwf _ _ _ _]. unfold type_at in Hty. unfold destruct_receive.
  apply wp_bind, (wp_get_entry _ t); [done|lia|]. apply wp_bind, (wp_get_port _ _ p); [done|]. type_tests Hty.
  apply wp_bind, wp_massert; [done|]. apply wp_bind, wp_massert; [lia|].
  unfold ipc_right_request_cancel_macro. apply wp_bind, wp_bind, (wp_get_entry _ t); [done|lia|].
  rewrite Hreq. const_tests. apply wp_ret. apply wp_bind, wp_massert; [by rewrite Hpin|].
  assert (~ hashed t i) as Hnh.
  { rewrite (tw_hashed _ _ _ Hwf i) by (done || lia). by rewrite Hty. }
  apply wp_bind. eapply wp_mono; [apply (ipc_entry_dealloc_ok _ t fl); try done; by apply space_wf_open|].
  intros _ k' [(t'&Hsw'&Hag&Hoth&Hg') Hos _]. pose proof (ha_len _ _ Hag) as Hl. apply wp_ret.
  split; [done|]. split; [done|]. exists t'. split; [done|]. split; [apply hash_agree_map; [apply Hwf|done]|].
  split; [by apply (freed_name t' i fl); [apply Hsw'|]|]. split; [|congruence].
  split; [done|]. intros j Hj Hne. by rewrite Hoth by lia.
Qed.

(** A receive right that is the whole of its entry: no send rights under the
    name, no request. *)
Record sole_receive (k : kst) (t : list ipc_entry) (fl : list Z) (name i : Z) (p : ipc_port) : Prop := {
  sr_receives : receives k t fl name i p;
  sr_type : type_at t i = MACH_PORT_TYPE_RECEIVE;
  sr_urefs : IE_BITS_UREFS (ie_bits (anth t i)) = 0;
  sr_request : ie_request (anth t i) = IE_REQ_NONE;
  sr_name : ip_receiver_name p = name;
  sr_pinned : ip_pinned p = false;
}.

Lemma mach_port_destruct_ok k t fl i name p space guard :
  sole_receive k t fl name i p -> plain_port p -> knotes_ok (object_at t i) p -> ip_pdrequest p = IP_NULL ->
  (ip_guarded p = true -> guard = ip_context p) -> space <> IS_NULL ->
  wp (mach_port_destruct space name 0 guard) (fun kr k' =>
    kr = KERN_SUCCESS /\ notified k k' (dead_name_events p) /\ given_back t fl i name k' /\ ks_psets k' = ks_psets k /\
    ks_ports k' = partial_alter (fun _ => after_release (unlabelled (buried (ks_timestamp k) (disowned p))))
      (object_at t i) (ks_ports k)) k.
Proof.
  intros [[Hsw Hn [_ Hv] _ Hnz Hp Hin] Hty Hu Hreq Hrn Hpin] Hpl Hkn Hpd Hguard Hsp.
  pose proof Hn as (Hix&Hi&Hg&Hnone)%name_entry_Some. pose proof Hsw as [Ht Hwf _ _ _ _].
  unfold mach_port_destruct. rewrite (proj2 (Z.eqb_neq space IS_NULL) Hsp), Hv. cbn [negb].
  unfold lookup_or_raise. rewrite (bind_wp _ _ _ _ _ _ (lookup_write_run k t fl i name Hsw Hn)).
  unfold ipc_right_destruct. apply wp_bind, wp_get_space. apply wp_bind, (wp_get_entry _ t); [done|lia|].
  apply wp_bind, (wp_is_active _ t); [done|]. apply wp_bind, wp_massert; [done|].
  pose proof Hty as Hty'. unfold type_at in Hty'. type_tests Hty'.
  apply wp_bind, wp_massert; [by apply negb_true_iff, Z.eqb_neq|]. apply wp_bind, (wp_get_port _ _ p); [done|].
  apply wp_bind, wp_require_ip_active; [by apply pp_active|]. apply wp_bind, wp_massert; [by apply Z.eqb_eq|].
  apply wp_bind, wp_massert; [done|].
  assert (ip_guarded p && negb (guard =? ip_context p) = false) as ->.
  { destruct (ip_guarded p); [|done]. by rewrite Hguard, Z.eqb_refl. }
  unfold destruct_send. const_tests. apply wp_bind, wp_ret.
  apply wp_bind. eapply wp_mono; [by apply (destruct_receive_ok k t fl i name p)|].
  intros request k1 (->&(Hp1&Hps1&Htm1&Htr1&_)&Hgb). apply wp_bind, wp_ret. apply wp_bind.
  eapply wp_mono; [by apply (ipc_port_destroy_dead_ok k1 _ p); [rewrite Hp1|..]|].
  intros [] k2 ((l&Hl&Hf)&Hs2&Hps2&_&_&_&Hp2). apply wp_bind, wp_ret, wp_ret.
  split; [done|]. split; [exists l; by rewrite Hl, Htr1|].
  split; [destruct Hgb as (t'&Ht'); exists t'; by rewrite Hs2|]. split; [congruence|]. by rewrite Hp2, Hp1, Htm1.
Qed.

(** Destroying a port through its receive right: given the guard, if the port
    has one, [mach_port_destruct] succeeds, frees the name and its entry and
    no other, notifies every dead-name request once, and leaves the port dead,
    or gone when the receive right held its last reference. *)
Theorem mach_port_destruct_receive k t fl i name p space guard :
  sole_receive k t fl name i p -> plain_port p -> knotes_ok (object_at t i) p -> ip_pdrequest p = IP_NULL ->
  (ip_guarded p = true -> guard = ip_context p) -> space <> IS_NULL ->
  wp (mach_port_destruct space name 0 guard) (fun kr k' =>
    kr = KERN_SUCCESS /\ notified k k' (dead_name_events p) /\ given_back t fl i name k' /\ ks_psets k' = ks_psets k /\
    exists p', ks_ports k' = partial_alter (fun _ => after_release p') (object_at t i) (ks_ports k) /\
      ip_active p' = false /\ io_references p' = io_references p) k.
Proof.
  intros Hs Hpl Hkn Hpd Hg Hsp. eapply wp_mono; [by apply (mach_port_destruct_ok k t fl i name p)|].
  intros kr k' (->&Hn&Hgb&Hps&Hp). do 4 (split; [done|]). eexists. split; [exact Hp|].
  unfold unlabelled. destruct (ip_is_kolabeled _); (split; [apply inactive_bits|done]).
Qed.

(** C26. Round trip of a port: [mach_port_allocate] of a receive right followed by
    [mach_port_destruct] of the name it returned gives the entry and the port
    back. No port, no binding of the reverse hash and no name changed, the entry is first on the
    free list again, the new name is no longer valid and nobody is
    notified. *)
Theorem allocate_destruct_round_trip k t fl i a space rounds rescans memory :
  space_wf (ks_space k) t (i :: fl) None -> can_hold t (i :: fl) 1 = true -> space <> IS_NULL -> is_self (ks_space k) = space ->
  a <> IO_NULL -> ks_ports k !! a = None ->
  wp (let* (kr, name) := mach_port_allocate (S rounds) rescans memory a space MACH_PORT_RIGHT_RECEIVE in
      let* kr' := mach_port_destruct space name 0 0 in ret (kr, kr', name)) (fun r k' =>
    exists name t', r = (KERN_SUCCESS, KERN_SUCCESS, name) /\ MACH_PORT_VALID name = true /\
      ks_ports k' = ks_ports k /\ ks_psets k' = ks_psets k /\ notified k k' [] /\
      space_wf (ks_space k') t' (i :: fl) None /\ hash_map t' = hash_map t /\ name_entry t' name = None /\
      (forall n, MACH_PORT_INDEX n <> i -> name_entry t' n = name_entry t n)) k.
Proof.
  intros Hsw Hc Hsp Hself Ha Hnew. apply wp_bind.
  eapply wp_mono; [by apply (mach_port_allocate_receive_ok k t fl i a)|].
  intros r k1 (name&->&[(t1&Hsw1&Hn1&Hty1&Hu1&Ho1&Hq1&Hm1&Hcb1) Hp1 Hps1 Hself1 _ Hv Hnt1]). apply wp_bind.
  pose proof Hn1 as (Hix&_)%name_entry_Some.
  rewrite <- Ho1 in Ha, Hnew, Hp1.
  eapply wp_mono; [apply (mach_port_destruct_ok k1 t1 fl i name (new_port (is_self (ks_space k)) name)); try done|].
  - split; try done. split; try done.
    + rewrite (has_type _ _ eq_refl). unfold type_at in Hty1. by rewrite Hty1.
    + rewrite Hp1. apply lookup_insert_eq.
    + rewrite Hself1. unfold ip_in_space, ip_in_a_space. simpl. rewrite Z.eqb_refl, andb_true_r.
      destruct Hv as [_ Hv]. by apply andb_true_iff in Hv as [Hv _].
  - intros _. unfold ip_get_receiver, ip_in_a_space. simpl. destruct Hv as [_ Hv]. apply andb_true_iff in Hv as [-> _].
    by rewrite Hself.
  - intros kr k2 (->&Hn2&(t2&Hsw2&Hm2&Hnone&Hcb2&_)&Hps2&Hp2). apply wp_ret. exists name, t2.
    split; [done|]. split; [apply Hv|]. split.
    { rewrite Hp2, Hp1, partial_alter_insert_eq. transitivity (partial_alter (fun _ => None) (object_at t1 i) (ks_ports k)); [done|].
      rewrite <- Hnew. apply partial_alter_self. }
    split; [congruence|]. split; [by apply (notified_trans k k1 k2 [] [])|]. split; [done|]. split; [congruence|].
    split; [done|]. intros n Hni. by rewrite (cores_but_names i t1 t2), (cores_but_names i t t1).
Qed.
End alloc.

(** ** The theorems at work *)
#[local] Existing Instances DEVELOPMENT SMALL_4K quiet plain_externals SMALL_REQUESTS plain_caller.

(** A guarded port whose receive right is the name 0x103. *)
Definition owned_port : ipc_port :=
  set_ip_context 7 (set_ip_guarded true (new_port 0x200 0x103)).

Lemma mach_port_destruct_receive_witness :
  exists k', mach_port_destruct 0x200 0x103 0 7 (sample_state 0x5000 MACH_PORT_TYPE_RECEIVE 0 owned_port) =
    Done (KERN_SUCCESS, k').
Proof.
  destruct (wp_elim _ _ _ (mach_port_destruct_receive (sample_state 0x5000 MACH_PORT_TYPE_RECEIVE 0 owned_port)
    (sample_table 0x5000 MACH_PORT_TYPE_RECEIVE 0) [2; 3] 1 0x103 owned_port 0x200 7
    ltac:(split; [by apply sample_receives|done..]) ltac:(by split) ltac:(done) eq_refl (fun _ => eq_refl) ltac:(done)))
    as (kr&k'&Hr&->&_).
  exists k'. exact Hr.
Defined.

Lemma allocate_destruct_round_trip_witness :
  exists name k', (let* (kr, name) := mach_port_allocate 1 1 true 0x6000 0x200 MACH_PORT_RIGHT_RECEIVE in
      let* kr' := mach_port_destruct 0x200 name 0 0 in ret (kr, kr', name))
    (sample_state 0x5000 MACH_PORT_TYPE_SEND 1 sent_port) = Done ((KERN_SUCCESS, KERN_SUCCESS, name), k') /\
    ks_ports k' = {[ 0x5000 := sent_port ]}.
Proof.
  destruct (wp_elim _ _ _ (allocate_destruct_round_trip (sample_state 0x5000 MACH_PORT_TYPE_SEND 1 sent_port)
    (sample_table 0x5000 MACH_PORT_TYPE_SEND 1) [3] 2 0x6000 0x200 0 1 true
    ltac:(apply sample_wf; [lia|by left|reflexivity]) eq_refl ltac:(done) eq_refl ltac:(done) eq_refl))
    as (r&k'&Hr&name&t'&->&_&Hp&_).
  exists name, k'. split; [exact Hr|exact Hp].
Defined.
