(* ===== verification/VoucherCache.v ===== *)
(** * The value cache of a voucher attribute ([osfmk/ipc/ipc_voucher.c], [ipc_voucher.h])

    A resource manager hands out values, references to which the manager counts as made.  The
    control of an attribute keeps every value once, in a table of entries that are on a hash
    chain or on the free list; vouchers refer to entries by index.  Here are the sections that
    run under the lock of a control: between them the manager is called, or memory obtained.

    [ivace_layered] and the union with [ivace_layer] are never used; [ivac_table_size] is the
    length of the table. *)

From S2P Require Import Prelude MachPort OsRefcnt.

Definition IV_UNUSED_VALINDEX : Z := 0.
Definition IV_FREELIST_END : Z := 0.
Definition IV_HASH_END : Z := 0xffffffff.
Definition IV_HASH_VAL (sz val : Z) : Z := Z.shiftr val 3 mod sz.
Definition IVACE_REFS_MAX : Z := 2 ^ 28 - 1.
Definition IVAC_ENTRIES_MIN : Z := 512.
Definition IVAC_ENTRIES_MAX : Z := 524288.
Definition MACH_VOUCHER_ATTR_KEY_NONE : Z := 0.
Definition MACH_VOUCHER_ATTR_VALUE_FLAGS_NONE : Z := 0.
Definition MACH_VOUCHER_ATTR_VALUE_FLAGS_PERSIST : Z := 1.
(** What a free entry holds instead of a value. *)
Definition IVACE_DEAD : Z := 0xdeadc0dedeadc0de.
(** [ivace_refs] is a field of 28 bits. *)
Definition u28 (x : Z) : Z := x mod 2 ^ 28.

(** ** State *)

(** [struct ivac_entry_s]; [ivace_index] is the head of the chain of a hash, it has nothing to do
    with the other fields. *)
Record ivac_entry := mk_ivace {
  ivace_value : Z; ivace_releasing : bool; ivace_free : bool; ivace_persist : bool;
  ivace_refs : Z; ivace_made : Z; ivace_next : Z; ivace_index : Z }.
#[global] Instance ivac_entry_inhabited : Inhabited ivac_entry := populate (mk_ivace 0 false false false 0 0 0 0).
Definition set_ivace_releasing (b : bool) (e : ivac_entry) : ivac_entry :=
  mk_ivace (ivace_value e) b (ivace_free e) (ivace_persist e) (ivace_refs e) (ivace_made e) (ivace_next e) (ivace_index e).
Definition set_ivace_refs (n : Z) (e : ivac_entry) : ivac_entry :=
  mk_ivace (ivace_value e) (ivace_releasing e) (ivace_free e) (ivace_persist e) n (ivace_made e) (ivace_next e) (ivace_index e).
Definition set_ivace_made (n : Z) (e : ivac_entry) : ivac_entry :=
  mk_ivace (ivace_value e) (ivace_releasing e) (ivace_free e) (ivace_persist e) (ivace_refs e) n (ivace_next e) (ivace_index e).
Definition set_ivace_next (n : Z) (e : ivac_entry) : ivac_entry :=
  mk_ivace (ivace_value e) (ivace_releasing e) (ivace_free e) (ivace_persist e) (ivace_refs e) (ivace_made e) n (ivace_index e).
Definition set_ivace_index (n : Z) (e : ivac_entry) : ivac_entry :=
  mk_ivace (ivace_value e) (ivace_releasing e) (ivace_free e) (ivace_persist e) (ivace_refs e) (ivace_made e) (ivace_next e) n.

(** [struct ipc_voucher_attr_control]. *)
Record ivac := mk_ivac {
  ivac_refs : Z; ivac_is_growing : bool; ivac_table : list ivac_entry; ivac_init_table_size : Z;
  ivac_freelist : Z; ivac_port : Z; ivac_key_index : Z }.
Definition set_ivac_refs (n : Z) (c : ivac) : ivac :=
  mk_ivac n (ivac_is_growing c) (ivac_table c) (ivac_init_table_size c) (ivac_freelist c) (ivac_port c) (ivac_key_index c).
Definition set_ivac_is_growing (b : bool) (c : ivac) : ivac :=
  mk_ivac (ivac_refs c) b (ivac_table c) (ivac_init_table_size c) (ivac_freelist c) (ivac_port c) (ivac_key_index c).
Definition set_ivac_table (t : list ivac_entry) (c : ivac) : ivac :=
  mk_ivac (ivac_refs c) (ivac_is_growing c) t (ivac_init_table_size c) (ivac_freelist c) (ivac_port c) (ivac_key_index c).
Definition set_ivac_freelist (n : Z) (c : ivac) : ivac :=
  mk_ivac (ivac_refs c) (ivac_is_growing c) (ivac_table c) (ivac_init_table_size c) n (ivac_port c) (ivac_key_index c).
Definition set_ivac_port (n : Z) (c : ivac) : ivac :=
  mk_ivac (ivac_refs c) (ivac_is_growing c) (ivac_table c) (ivac_init_table_size c) (ivac_freelist c) n (ivac_key_index c).
Definition ivac_table_size (c : ivac) : Z := alen (ivac_table c).

Section operations.
Context `{KernelConfig}.

Definition ivace_lookup (index : Z) : M ivac ivac_entry :=
  let* c := gets id in
  if ivac_table_size c <=? index then panic "index >= ivac->ivac_table_size"
  else lift (aget (ivac_table c) index).
Definition ivace_put (index : Z) (e : ivac_entry) : M ivac unit :=
  modify (fun c => set_ivac_table (aset (ivac_table c) index e) c).
Definition ivace_mod (index : Z) (f : ivac_entry -> ivac_entry) : M ivac unit :=
  let* e := ivace_lookup index in ivace_put index (f e).

(** ** Creation; the default value goes into entry 0, which is never free. *)
Definition ivace_reset_data (next_index index : Z) : ivac_entry :=
  mk_ivace IVACE_DEAD false true false 0 0 next_index IV_HASH_END.
(** The whole of [ivac_alloc] but for the allocation itself. *)
Definition ivac_fresh (key_index : Z) : ivac :=
  let n := IVAC_ENTRIES_MIN in
  mk_ivac 1 false
    (tabulate n (fun i =>
       if i =? 0 then mk_ivace IVACE_DEAD false false false 0 0 IV_HASH_END IV_HASH_END
       else ivace_reset_data (if i =? n - 1 then IV_FREELIST_END else i + 1) i))
    n 1 0 key_index.
(** The registration of a manager fills entry 0 in and hashes it. *)
Definition ivac_set_default (default_value : Z) : M ivac unit :=
  ivace_mod IV_UNUSED_VALINDEX (fun e =>
    mk_ivace default_value (ivace_releasing e) (ivace_free e) true IVACE_REFS_MAX IVACE_REFS_MAX (ivace_next e) (ivace_index e)) ;;*
  let* e := ivace_lookup IV_UNUSED_VALINDEX in
  massert (IV_HASH_END =? ivace_next e) "IV_HASH_END == ivac_table[IV_UNUSED_VALINDEX].ivace_next".
Definition ivac_hash_default (default_value : Z) : M ivac unit :=
  let* c := gets id in
  let hash_index := IV_HASH_VAL (ivac_init_table_size c) default_value in
  let* e := ivace_lookup hash_index in
  massert (IV_HASH_END =? ivace_index e) "IV_HASH_END == ivac_table[hash_index].ivace_index" ;;*
  ivace_mod hash_index (set_ivace_index IV_UNUSED_VALINDEX).

(** ** References to the control *)
Definition ivac_retain : M ivac unit :=
  let* c := gets id in
  let* n := lift (os_ref_retain_internal (ivac_refs c)) in
  modify (set_ivac_refs n).
(** The count that is left; at 0 the caller deallocates the control. *)
Definition ivac_unref : M ivac Z :=
  let* c := gets id in
  let* n := lift (os_ref_release_barrier_internal (ivac_refs c)) in
  modify (set_ivac_refs n) ;;* ret n.

(** ** Growth, in two sections around the allocation of the new table.

    The size to grow from, or nothing where another thread is growing the table and this one has
    to sleep. *)
Definition ivac_grow_begin : M ivac (option Z) :=
  let* c := gets id in
  if ivac_is_growing c then ret None
  else
    modify (set_ivac_is_growing true) ;;*
    if IVAC_ENTRIES_MAX <=? ivac_table_size c
    then panic "Cannot grow ipc space beyond IVAC_ENTRIES_MAX. Some process is leaking vouchers"
    else ret (Some (ivac_table_size c)).
Definition ivac_grow_end (old_size : Z) : M ivac unit :=
  let new_size := u32 (old_size * 2) in
  massert (old_size <? new_size) "new_size > old_size" ;;*
  massert (new_size <? IVAC_ENTRIES_MAX) "new_size < IVAC_ENTRIES_MAX" ;;*
  let* c := gets id in
  let new_table := tabulate new_size (fun i =>
    if i <? ivac_table_size c then anth (ivac_table c) i else ivace_reset_data (i + 1) i) in
  modify (set_ivac_table new_table) ;;*
  ivace_mod (new_size - 1) (set_ivace_next (ivac_freelist c)) ;;*
  modify (set_ivac_freelist old_size) ;;*
  modify (set_ivac_is_growing false).

(** ** References to a value *)

(** [ivace_reference_by_index]: the caller has a reference. *)
Definition ivace_reference_locked (val_index : Z) : M ivac unit :=
  let* e := ivace_lookup val_index in
  massert (negb (ivace_value e =? IVACE_DEAD)) "0xdeadc0dedeadc0de != ivace->ivace_value" ;;*
  massert (0 <? ivace_refs e) "0 < ivace->ivace_refs" ;;*
  massert (negb (ivace_free e)) "!ivace->ivace_free" ;;*
  when (negb (ivace_persist e)) (ivace_put val_index (set_ivace_refs (u28 (ivace_refs e + 1)) e)).

(** [ivace_lookup_values] of an entry. *)
Definition ivace_value_locked (value_index : Z) : M ivac Z :=
  let* e := ivace_lookup value_index in
  massert (0 <? ivace_refs e) "ivace->ivace_refs > 0" ;;* ret (ivace_value e).

(** The entry of the chain that holds the value; a chain is no longer than the table. *)
Fixpoint ivace_find (fuel : nat) (index value : Z) : M ivac (option Z) :=
  match fuel with
  | O => fun _ => Diverges
  | S fuel =>
    if index =? IV_HASH_END then ret None
    else
      let* e := ivace_lookup index in
      massert (negb (ivace_free e)) "!ivace->ivace_free" ;;*
      if ivace_value e =? value then ret (Some index)
      else massert (negb (ivace_next e =? index)) "ivace->ivace_next != index" ;;* ivace_find fuel (ivace_next e) value
  end.
(** [ivace_reference_by_value] up to where the table has to grow.  An entry that was found leaves
    the caller with a reference to the control to give back, a new one keeps it. *)
Inductive ref_result := RefFound (index : Z) | RefNew (index : Z) | RefFull.
Definition ivace_reference_attempt (value flag : Z) : M ivac ref_result :=
  let* c := gets id in
  let hash_index := IV_HASH_VAL (ivac_init_table_size c) value in
  let* head := ivace_lookup hash_index in
  let* found := ivace_find (S (length (ivac_table c))) (ivace_index head) value in
  match found with
  | Some index =>
    let* e := ivace_lookup index in
    when (negb (ivace_persist e))
      (ivace_put index (set_ivace_made (u32 (ivace_made e + 1)) (set_ivace_refs (u28 (ivace_refs e + 1)) e))) ;;*
    ret (RefFound index)
  | None =>
    let index := ivac_freelist c in
    if index =? IV_FREELIST_END then ret RefFull
    else
      let* e := ivace_lookup index in
      modify (set_ivac_freelist (ivace_next e)) ;;*
      ivace_put index (mk_ivace value (ivace_releasing e) false (has flag MACH_VOUCHER_ATTR_VALUE_FLAGS_PERSIST)
                         1 1 (ivace_index head) (ivace_index e)) ;;*
      ivace_mod hash_index (set_ivace_index index) ;;*
      ret (RefNew index)
  end.

(** ** Release

    A reference goes; the value to give back to the manager, if it was the last one and nobody
    else is giving it back. *)
Definition ivace_release_begin (key value_index : Z) : M ivac (option Z) :=
  let* e := ivace_lookup value_index in
  massert (0 <? ivace_refs e) "0 < ivace->ivace_refs" ;;*
  if ivace_persist e then ret None
  else
    let e := set_ivace_refs (u28 (ivace_refs e - 1)) e in
    ivace_put value_index e ;;*
    if 0 <? ivace_refs e then ret None
    else
      massert (negb (key =? MACH_VOUCHER_ATTR_KEY_NONE)) "MACH_VOUCHER_ATTR_KEY_NONE != key" ;;*
      if ivace_releasing e then ret None
      else ivace_put value_index (set_ivace_releasing true e) ;;* ret (Some (ivace_value e)).
(** [redrive:], the count to report to the manager. *)
Definition ivace_redrive (value_index value : Z) : M ivac Z :=
  let* e := ivace_lookup value_index in
  massert (value =? ivace_value e) "value == ivace->ivace_value" ;;*
  massert (negb (ivace_free e)) "!ivace->ivace_free" ;;*
  ret (ivace_made e).

(** The entry before [value_index] on its chain, from [hash_index] on. *)
Fixpoint ivace_before (fuel : nat) (hash_index value_index : Z) : M ivac Z :=
  match fuel with
  | O => fun _ => Diverges
  | S fuel =>
    let* tmp := ivace_lookup hash_index in
    if negb (ivace_next tmp =? value_index)
    then massert (negb (IV_HASH_END =? ivace_next tmp)) "IV_HASH_END != hash_index" ;;* ivace_before fuel (ivace_next tmp) value_index
    else ret hash_index
  end.
Definition ivace_unhash (value_index value next : Z) : M ivac unit :=
  let* c := gets id in
  let hash_index := IV_HASH_VAL (ivac_init_table_size c) value in
  let* tmp := ivace_lookup hash_index in
  if ivace_index tmp =? value_index then ivace_put hash_index (set_ivace_index next tmp)
  else
    let hash_index := ivace_index tmp in
    ivace_lookup hash_index ;;*
    massert (negb (IV_HASH_END =? hash_index)) "IV_HASH_END != hash_index" ;;*
    let* before := ivace_before (length (ivac_table c)) hash_index value_index in
    ivace_mod before (set_ivace_next next).
(** After the answer of the manager: done, to be tried again, or the entry is free and its
    reference to the control is to be given back. *)
Inductive release_result := ReleaseDone | ReleaseAgain | ReleaseFreed.
Definition ivace_release_end (value_index value made : Z) (kr : kern_return_t) : M ivac release_result :=
  let* e := ivace_lookup value_index in
  massert (value =? ivace_value e) "value == ivace->ivace_value" ;;*
  if negb (ivace_made e =? made) then
    let e := if bool_decide (kr = KERN_SUCCESS) then set_ivace_made (u32 (ivace_made e - made)) e else e in
    ivace_put value_index e ;;*
    if ivace_refs e =? 0 then ret ReleaseAgain
    else ivace_put value_index (set_ivace_releasing false e) ;;* ret ReleaseDone
  else if bool_decide (kr <> KERN_SUCCESS) then
    ivace_put value_index (set_ivace_releasing false e) ;;* ret ReleaseDone
  else
    massert (ivace_refs e =? 0) "0 == ivace->ivace_refs" ;;*
    ivace_unhash value_index value (ivace_next e) ;;*
    let* c := gets id in
    ivace_mod value_index (fun e =>
      mk_ivace IVACE_DEAD false true (ivace_persist e) (ivace_refs e) 0 (ivac_freelist c) (ivace_index e)) ;;*
    modify (set_ivac_freelist value_index) ;;*
    ret ReleaseFreed.
End operations.
