(* ===== verification/VoucherManager.v ===== *)
(** * Resource managers of voucher attributes ([osfmk/ipc/ipc_voucher.c], [ipc_voucher.h])

    The interface of a resource manager, the contract the voucher code relies on, and the
    manager of user data that is built into the kernel, which honours it. *)

From S2P Require Import Prelude MachPort OsRefcnt VoucherCache.

Definition MACH_VOUCHER_ATTR_KEY_USER_DATA : Z := 7.
Definition MACH_VOUCHER_ATTR_KEY_TEST : Z := 8.
Definition MACH_VOUCHER_ATTR_REDEEM : Z := 10.
Definition MACH_VOUCHER_ATTR_USER_DATA_STORE : Z := 211.
Definition MACH_VOUCHER_ATTR_BITS_STORE : Z := MACH_VOUCHER_ATTR_USER_DATA_STORE.
Definition IPC_VOUCHER_NULL : Z := 0.
Definition IVAM_FLAGS_NONE : Z := 0.

(** ** The interface

    [struct ipc_voucher_attr_manager], with the state [MS] of the managers. *)
Record get_value_result := mk_get_value { gv_kr : kern_return_t; gv_value : Z; gv_flags : Z; gv_voucher : Z }.
Record extract_result := mk_extract { ex_kr : kern_return_t; ex_command : Z; ex_content : list Z }.
Class AttrManager (MS : Type) := {
  ivam_release_value (manager key value made : Z) : M MS kern_return_t;
  ivam_get_value (manager key command : Z) (prev_values : list Z) (content : list Z) : M MS get_value_result;
  (** at most so many bytes *)
  ivam_extract_content (manager key : Z) (values : list Z) (size : Z) : M MS extract_result;
  ivam_command (manager key : Z) (values : list Z) (command : Z) (in_content : list Z) (out_size : Z) : M MS (kern_return_t * list Z);
  ivam_release (manager : Z) : M MS unit;
  ivam_flags (manager : Z) : Z;
}.

(** The contract of the manager of a key: it counts the references to a value it made; a release
    is refused exactly when it made more of them than the caller knows of.  Values that persist,
    and the default, are not counted. *)
Class ManagerLaws {MS : Type} (mgr : AttrManager MS) (manager key default : Z) := {
  ml_ok : MS -> Prop;
  handed : MS -> Z -> Z;
  persistent : Z -> bool;
  ml_default : persistent default = true;
  ml_get ms command prev content : ml_ok ms ->
    (forall v, v ∈ prev -> v <> default /\ (persistent v = false -> 0 < handed ms v)) -> (forall v, handed ms v < 2 ^ 32 - 1) ->
    wp (ivam_get_value manager key command prev content) (fun r ms' => ml_ok ms' /\
      let v := gv_value r in
      if bool_decide (gv_kr r = KERN_SUCCESS) then
        v <> IVACE_DEAD /\
        if persistent v then handed ms' = handed ms /\ (v = default \/ has (gv_flags r) MACH_VOUCHER_ATTR_VALUE_FLAGS_PERSIST = true)
        else has (gv_flags r) MACH_VOUCHER_ATTR_VALUE_FLAGS_PERSIST = false /\
             forall w, handed ms' w = handed ms w + if v =? w then 1 else 0
      else handed ms' = handed ms) ms;
  ml_release ms v made : ml_ok ms -> persistent v = false -> 0 < made <= handed ms v ->
    wp (ivam_release_value manager key v made) (fun kr ms' => ml_ok ms' /\
      if made =? handed ms v then kr = KERN_SUCCESS /\ forall w, handed ms' w = if v =? w then 0 else handed ms w
      else kr = KERN_FAILURE /\ handed ms' = handed ms) ms;
}.

(** ** User data *)
Definition USER_DATA_MAX_DATA : Z := 16 * 1024.
Definition USER_DATA_HASH_BUCKETS : Z := 127.
Definition USER_DATA_HASH_BUCKET (x : Z) : Z := x mod USER_DATA_HASH_BUCKETS.

(** [struct user_data_value_element]; [e_size] is the length of the data. *)
Record user_data_element := mk_element { e_made : Z; e_sum : Z; e_hash : Z; e_data : list Z }.
Definition e_size (e : user_data_element) : Z := alen (e_data e).
Definition set_e_made (n : Z) (e : user_data_element) : user_data_element := mk_element n (e_sum e) (e_hash e) (e_data e).
(** Elements by address, and the queues of the buckets. *)
Record user_data := mk_user_data { ud_elements : gmap Z user_data_element; user_data_bucket : list (list Z) }.
Definition user_data_start : user_data := mk_user_data ∅ (replicate (Z.to_nat USER_DATA_HASH_BUCKETS) []).

(** Where the allocator puts an element; the address of the manager. *)
Class UserDataMemory := {
  user_data_manager : Z;
  element_alloc : gmap Z user_data_element -> Z;
  element_alloc_fresh g : g !! element_alloc g = None /\ element_alloc g <> 0 /\ element_alloc g <> IVACE_DEAD;
}.

Section user_data.
Context `{KernelConfig} `{UserDataMemory}.

Definition get_element (a : Z) : M user_data user_data_element :=
  fun s => match ud_elements s !! a with Some e => Done (e, s) | None => Panic "dangling element" end.
Definition put_element (a : Z) (e : user_data_element) : M user_data unit :=
  modify (fun s => mk_user_data (<[a := e]> (ud_elements s)) (user_data_bucket s)).
Definition USER_DATA_ASSERT_KEY (key : Z) : M user_data unit :=
  massert ((MACH_VOUCHER_ATTR_KEY_USER_DATA =? key) || (MACH_VOUCHER_ATTR_KEY_TEST =? key)) "MACH_VOUCHER_ATTR_KEY_USER_DATA == (key)".
Definition assert_user_data (manager key : Z) : M user_data unit :=
  massert (user_data_manager =? manager) "&user_data_manager == manager" ;;* USER_DATA_ASSERT_KEY key.

Definition user_data_release_value (manager key value sync : Z) : M user_data kern_return_t :=
  assert_user_data manager key ;;*
  let* elem := get_element value in
  if sync =? e_made elem then
    let* s := gets id in
    let* queue := lift (aget (user_data_bucket s) (e_hash elem)) in
    modify (fun s => mk_user_data (delete value (ud_elements s))
                       (aset (user_data_bucket s) (e_hash elem) (filter (fun a => a <> value) queue))) ;;*
    ret KERN_SUCCESS
  else
    massert (sync <? e_made elem) "sync < elem->e_made" ;;* ret KERN_FAILURE.

Definition user_data_checksum (content : list Z) : Z :=
  let cksum := fold_left (fun cksum b => Z.lxor (u32 (Z.shiftl cksum 8)) (u32 (cksum + b))) content 0 in
  2 ^ 32 - 1 - cksum.

(** The element of a queue with that content. *)
Fixpoint user_data_find (queue : list Z) (sum hash : Z) (content : list Z) : M user_data (option Z) :=
  match queue with
  | [] => ret None
  | a :: queue =>
    let* elem := get_element a in
    massert (e_hash elem =? hash) "elem->e_hash == hash" ;;*
    if (e_sum elem =? sum) && (e_size elem =? alen content) && bool_decide (e_data elem = content)
    then ret (Some a) else user_data_find queue sum hash content
  end.
(** A look at the bucket under the lock; an element that is found is made once more. *)
Definition user_data_lookup (sum hash : Z) (content : list Z) : M user_data (option Z) :=
  let* s := gets id in
  let* queue := lift (aget (user_data_bucket s) hash) in
  let* found := user_data_find queue sum hash content in
  match found with
  | Some a => let* elem := get_element a in put_element a (set_e_made (u32 (e_made elem + 1)) elem) ;;* ret (Some a)
  | None => ret None
  end.
(** The bucket is searched again once there is memory for a new element. *)
Definition user_data_dedup (content : list Z) : M user_data Z :=
  let sum := user_data_checksum content in
  let hash := USER_DATA_HASH_BUCKET sum in
  let* found := user_data_lookup sum hash content in
  match found with
  | Some a => ret a
  | None =>
    let* alloc := gets (fun s => element_alloc (ud_elements s)) in
    let* found := user_data_lookup sum hash content in
    match found with
    | Some a => ret a
    | None =>
      let* s := gets id in
      let* queue := lift (aget (user_data_bucket s) hash) in
      modify (fun s => mk_user_data (<[alloc := mk_element 1 sum hash content]> (ud_elements s))
                         (aset (user_data_bucket s) hash (queue ++ [alloc]))) ;;*
      ret alloc
    end
  end.

Definition user_data_get_value (manager key command : Z) (prev_values content : list Z) : M user_data get_value_result :=
  assert_user_data manager key ;;*
  let success value := mk_get_value KERN_SUCCESS value MACH_VOUCHER_ATTR_VALUE_FLAGS_NONE IPC_VOUCHER_NULL in
  let failure kr := mk_get_value kr 0 MACH_VOUCHER_ATTR_VALUE_FLAGS_NONE IPC_VOUCHER_NULL in
  if command =? MACH_VOUCHER_ATTR_REDEEM then
    match prev_values with
    | a :: _ =>
      let* elem := get_element a in
      massert (0 <? e_made elem) "0 < elem->e_made" ;;*
      put_element a (set_e_made (u32 (e_made elem + 1)) elem) ;;*
      ret (success a)
    | [] => ret (success 0)
    end
  else if command =? MACH_VOUCHER_ATTR_USER_DATA_STORE then
    if USER_DATA_MAX_DATA <? alen content then ret (failure KERN_RESOURCE_SHORTAGE)
    else if alen content =? 0 then ret (success 0)
    else let* a := user_data_dedup content in ret (success a)
  else ret (failure KERN_INVALID_ARGUMENT).

(** The stored data one after the other, or nothing. *)
Fixpoint concat_data (values : list Z) (out : list Z) (size : Z) : M user_data (option (list Z)) :=
  match values with
  | [] => ret (Some out)
  | a :: values =>
    if 0 <? size then
      let* elem := get_element a in
      massert (e_size elem <=? USER_DATA_MAX_DATA) "USER_DATA_MAX_DATA >= elem->e_size" ;;*
      if size <? alen out + e_size elem then ret None else concat_data values (out ++ e_data elem) size
    else ret (Some out)
  end.
Definition user_data_extract_content (manager key : Z) (values : list Z) (size : Z) : M user_data extract_result :=
  assert_user_data manager key ;;*
  let* out := concat_data values [] size in
  ret (match out with
       | None => mk_extract KERN_NO_SPACE 0 []
       | Some out => mk_extract KERN_SUCCESS MACH_VOUCHER_ATTR_BITS_STORE out
       end).
Definition user_data_command (manager key : Z) (values : list Z) (command : Z) (in_content : list Z) (out_size : Z)
    : M user_data (kern_return_t * list Z) :=
  assert_user_data manager key ;;* ret (KERN_FAILURE, []).
Definition user_data_release (manager : Z) : M user_data unit :=
  if negb (manager =? user_data_manager) then ret tt else panic "Voucher user-data manager released".

#[global] Instance user_data_ops : AttrManager user_data := {|
  ivam_release_value := user_data_release_value;
  ivam_get_value := user_data_get_value;
  ivam_extract_content := user_data_extract_content;
  ivam_command := user_data_command;
  ivam_release := user_data_release;
  ivam_flags _ := IVAM_FLAGS_NONE;
|}.
End user_data.

(** ** User data honours the contract *)
Record user_data_wf (s : user_data) : Prop := {
  uw_len : alen (user_data_bucket s) = USER_DATA_HASH_BUCKETS;
  uw_queue h a : 0 <= h < USER_DATA_HASH_BUCKETS -> a ∈ anth (user_data_bucket s) h <->
    exists e, ud_elements s !! a = Some e /\ e_hash e = h;
  uw_element a e : ud_elements s !! a = Some e ->
    0 <= e_hash e < USER_DATA_HASH_BUCKETS /\ 0 < e_made e /\ a <> 0 /\ a <> IVACE_DEAD;
}.
Definition user_data_handed (s : user_data) (v : Z) : Z := from_option e_made 0 (ud_elements s !! v).

Section user_data_laws.
Context `{KernelConfig} `{UserDataMemory}.

Lemma wp_get_element s a e Q : ud_elements s !! a = Some e -> Q e s -> wp (get_element a) Q s.
Proof. unfold wp, get_element. by intros ->. Qed.
Lemma start_wf : user_data_wf user_data_start.
Proof.
  split.
  - by apply alen_replicate.
  - intros h a Hh. unfold user_data_start. cbn [user_data_bucket ud_elements]. rewrite anth_replicate by done. split; [by intros ?%elem_of_nil|by intros (e&?&_)].
  - done.
Qed.
(** An element is made once more. *)
Lemma made_again s a e n : user_data_wf s -> ud_elements s !! a = Some e -> 0 < n ->
  let s' := mk_user_data (<[a := set_e_made n e]> (ud_elements s)) (user_data_bucket s) in
  user_data_wf s' /\ forall w, user_data_handed s' w = if a =? w then n else user_data_handed s w.
Proof.
  intros [Hl Hq He] Ha Hn s'. split; [split; simpl|].
  - done.
  - intros h b Hh. rewrite Hq by done. split; intros (x&Hx&Eh).
    + destruct (decide (a = b)) as [<-|Hne]; [|by exists x; rewrite lookup_insert_ne].
      exists (set_e_made n e). rewrite lookup_insert_eq. split; [done|]. simpl. congruence.
    + apply lookup_insert_Some in Hx as [[<- <-]|[Hne Hx]]; [by exists e|by exists x].
  - intros b x [[<- <-]|[Hne Hx]]%lookup_insert_Some; [|by apply He]. destruct (He a e Ha) as (?&?&?&?). split; [done|]. by split.
  - intros w. unfold user_data_handed. simpl. destruct (Z.eqb_spec a w) as [<-|]; [by rewrite lookup_insert_eq|by rewrite lookup_insert_ne].
Qed.
Lemma find_element s queue sum hash content : user_data_wf s ->
  (forall a, a ∈ queue -> exists e, ud_elements s !! a = Some e /\ e_hash e = hash) ->
  wp (user_data_find queue sum hash content) (fun r s' => s' = s /\ forall a, r = Some a -> is_Some (ud_elements s !! a)) s.
Proof.
  intros Hwf. induction queue as [|a queue IH]; intros Hq; [by apply wp_ret|]. destruct (Hq a) as (e&Ha&<-); [left|].
  apply wp_bind, (wp_get_element _ _ e); [done|]. apply wp_bind, wp_massert; [apply Z.eqb_refl|].
  destruct (_ && _).
  - apply wp_ret. split; [done|]. by intros b [= <-].
  - apply IH. intros b Hb. apply Hq. by right.
Qed.
Lemma lookup_content s sum hash content : user_data_wf s -> 0 <= hash < USER_DATA_HASH_BUCKETS -> (forall v, user_data_handed s v < 2 ^ 32 - 1) ->
  wp (user_data_lookup sum hash content) (fun r s' => user_data_wf s' /\ match r with
    | Some a => a <> 0 /\ a <> IVACE_DEAD /\ forall w, user_data_handed s' w = user_data_handed s w + if a =? w then 1 else 0
    | None => s' = s
    end) s.
Proof.
  intros Hwf Hh Hb. apply wp_bind, wp_gets, wp_bind. unfold id. eapply wp_lift; [apply aget_in; by rewrite (uw_len _ Hwf)|].
  apply wp_bind. eapply wp_mono; [apply find_element; [done|]; intros a; by apply (uw_queue _ Hwf)|].
  intros r s' [-> Hr]. destruct r as [a|]; [|by apply wp_ret]. destruct (Hr a eq_refl) as [e Ha].
  apply wp_bind, (wp_get_element _ _ e); [done|]. apply wp_bind, wp_modify, wp_ret.
  destruct (uw_element _ Hwf a e Ha) as (_&Hmade&Ha0&Had). specialize (Hb a) as Hba. unfold user_data_handed in Hba. rewrite Ha in Hba. simpl in Hba.
  assert (u32 (e_made e + 1) = e_made e + 1) as -> by (unfold u32; rewrite Z.mod_small; lia).
  destruct (made_again s a e (e_made e + 1) Hwf Ha) as [Hwf' Hw]; [lia|]. split_and!; [done..|].
  intros w. rewrite Hw. destruct (Z.eqb_spec a w) as [<-|]; [|lia]. unfold user_data_handed. by rewrite Ha.
Qed.
Lemma new_element s alloc sum hash content queue : user_data_wf s -> 0 <= hash < USER_DATA_HASH_BUCKETS ->
  ud_elements s !! alloc = None -> alloc <> 0 -> alloc <> IVACE_DEAD -> queue = anth (user_data_bucket s) hash ->
  let s' := mk_user_data (<[alloc := mk_element 1 sum hash content]> (ud_elements s)) (aset (user_data_bucket s) hash (queue ++ [alloc])) in
  user_data_wf s' /\ forall w, user_data_handed s' w = user_data_handed s w + if alloc =? w then 1 else 0.
Proof.
  intros Hwf Hh Hfresh Hn0 Hd -> s'. destruct Hwf as [Hl Hq He]. split; [split; simpl|].
  - by rewrite alen_aset.
  - intros h a Hr. rewrite anth_aset by lia.
    assert (a ∈ (if hash =? h then anth (user_data_bucket s) hash ++ [alloc] else anth (user_data_bucket s) h) <->
      (a = alloc /\ hash = h) \/ a ∈ anth (user_data_bucket s) h) as ->.
    { destruct (Z.eqb_spec hash h) as [->|]; [rewrite elem_of_app, list_elem_of_singleton|]; naive_solver. }
    rewrite Hq by done. setoid_rewrite lookup_insert_Some. split.
    + intros [[-> <-]|(e&Hx&<-)]; [by exists (mk_element 1 sum hash content); split; [left|]|].
      exists e. split; [right|done]. split; [congruence|done].
    + intros (e&[[<- <-]|[Hne Hx]]&<-); [by left|right; by exists e].
  - intros a e [[<- <-]|[Hne Hx]]%lookup_insert_Some; [split; [done|]; split; [simpl; lia|done]|by apply He].
  - intros w. unfold user_data_handed. simpl. destruct (Z.eqb_spec alloc w) as [<-|].
    + by rewrite lookup_insert_eq, Hfresh.
    + rewrite lookup_insert_ne by done. lia.
Qed.
Lemma dedup_content s content : user_data_wf s -> (forall v, user_data_handed s v < 2 ^ 32 - 1) ->
  wp (user_data_dedup content) (fun a s' => user_data_wf s' /\ a <> 0 /\ a <> IVACE_DEAD /\
    forall w, user_data_handed s' w = user_data_handed s w + if a =? w then 1 else 0) s.
Proof.
  intros Hwf Hb. unfold user_data_dedup. set (sum := user_data_checksum content). set (hash := USER_DATA_HASH_BUCKET sum).
  assert (0 <= hash < USER_DATA_HASH_BUCKETS) as Hh by (by apply Z.mod_pos_bound).
  apply wp_bind. eapply wp_mono; [by apply lookup_content|]. intros [a|] s1 [Hwf1 Hr]; [by apply wp_ret|]. subst s1.
  apply wp_bind, wp_gets, wp_bind. eapply wp_mono; [by apply lookup_content|]. intros [a|] s1 [Hwf2 Hr]; [by apply wp_ret|]. subst s1.
  apply wp_bind, wp_gets, wp_bind. unfold id. eapply wp_lift; [apply aget_in; by rewrite (uw_len _ Hwf)|].
  apply wp_bind, wp_modify, wp_ret. destruct (element_alloc_fresh (ud_elements s)) as (Hf&Hn0&Hd).
  destruct (new_element s _ sum hash content _ Hwf Hh Hf Hn0 Hd eq_refl) as [Hwf' Hw]. by split_and!.
Qed.
Lemma remove_element s v e : user_data_wf s -> ud_elements s !! v = Some e ->
  let s' := mk_user_data (delete v (ud_elements s))
    (aset (user_data_bucket s) (e_hash e) (filter (fun a => a <> v) (anth (user_data_bucket s) (e_hash e)))) in
  user_data_wf s' /\ forall w, user_data_handed s' w = if v =? w then 0 else user_data_handed s w.
Proof.
  intros [Hl Hq He] Hv s'. destruct (He v e Hv) as [Hh _]. split; [split; simpl|].
  - by rewrite alen_aset.
  - intros h a Hr. rewrite anth_aset by lia.
    assert (a ∈ (if e_hash e =? h then filter (fun a => a <> v) (anth (user_data_bucket s) (e_hash e)) else anth (user_data_bucket s) h) <->
      a <> v /\ a ∈ anth (user_data_bucket s) h) as ->.
    { destruct (Z.eqb_spec (e_hash e) h) as [->|Hne]; [by rewrite list_elem_of_filter|]. split; [|by intros [_ ?]].
      intros Ha. split; [|done]. intros ->. apply Hq in Ha as (x&Hx&<-); [|done]. congruence. }
    rewrite Hq by done. setoid_rewrite lookup_delete_Some. naive_solver.
  - intros a x [_ Hx]%lookup_delete_Some. by apply He.
  - intros w. unfold user_data_handed. simpl. destruct (Z.eqb_spec v w) as [<-|]; [by rewrite lookup_delete_eq|by rewrite lookup_delete_ne].
Qed.

#[export] Instance user_data_laws : ManagerLaws user_data_ops user_data_manager MACH_VOUCHER_ATTR_KEY_USER_DATA 0.
Proof.
  refine {| ml_ok := user_data_wf; handed := user_data_handed; persistent v := v =? 0 |}; [done| |].
  - intros s command prev content Hwf Hprev Hb. apply wp_bind, wp_bind, wp_massert; [apply Z.eqb_refl|]. apply wp_massert; [done|].
    destruct (command =? MACH_VOUCHER_ATTR_REDEEM).
    { destruct prev as [|a prev]; [apply wp_ret; simpl; auto|]. destruct (Hprev a) as [Ha0 Hpos]; [left|].
      rewrite (proj2 (Z.eqb_neq a 0) Ha0) in Hpos. specialize (Hpos eq_refl). pose proof (Hb a) as Hba. unfold user_data_handed in Hpos, Hba.
      destruct (ud_elements s !! a) as [e|] eqn:Ea; [|done]. simpl in *.
      apply wp_bind, (wp_get_element _ _ e); [done|]. apply wp_bind, wp_massert; [by apply Z.ltb_lt|]. apply wp_bind, wp_modify, wp_ret.
      assert (u32 (e_made e + 1) = e_made e + 1) as -> by (unfold u32; rewrite Z.mod_small; lia).
      destruct (made_again s a e (e_made e + 1) Hwf Ea) as [Hwf' Hw]; [lia|]. split; [done|]. simpl. split; [by apply (uw_element _ Hwf a e Ea)|].
      rewrite (proj2 (Z.eqb_neq a 0) Ha0). split; [done|]. intros w. rewrite Hw. destruct (Z.eqb_spec a w) as [<-|]; [|lia].
      unfold user_data_handed. by rewrite Ea. }
    destruct (command =? MACH_VOUCHER_ATTR_USER_DATA_STORE); [|by apply wp_ret].
    destruct (USER_DATA_MAX_DATA <? alen content); [by apply wp_ret|].
    destruct (alen content =? 0); [apply wp_ret; simpl; auto|]. apply wp_bind. eapply wp_mono; [by apply dedup_content|].
    intros a s' (Hwf'&Ha0&Had&Hw). apply wp_ret. split; [done|]. simpl. split; [done|]. by rewrite (proj2 (Z.eqb_neq a 0) Ha0).
  - intros s v made Hwf Hv Hmade. unfold user_data_handed in Hmade. destruct (ud_elements s !! v) as [e|] eqn:Ev; simpl in Hmade; [|lia].
    apply wp_bind, wp_bind, wp_massert; [apply Z.eqb_refl|]. apply wp_massert; [done|].
    apply wp_bind, (wp_get_element _ _ e); [done|]. assert (user_data_handed s v = e_made e) as -> by (unfold user_data_handed; by rewrite Ev).
    destruct (Z.eqb_spec made (e_made e)) as [->|Hne].
    + apply wp_bind, wp_gets, wp_bind. unfold id. destruct (uw_element _ Hwf v e Ev) as [Hh _].
      eapply wp_lift; [apply aget_in; by rewrite (uw_len _ Hwf)|]. apply wp_bind, wp_modify, wp_ret.
      destruct (remove_element s v e Hwf Ev) as [Hwf' Hw]. done.
    + apply wp_bind, wp_massert; [apply Z.ltb_lt; lia|]. by apply wp_ret.
Defined.
End user_data_laws.
