(* ===== verification/IpcVoucher.v ===== *)
(** * Vouchers ([osfmk/ipc/ipc_voucher.c], [ipc_voucher.h], [mach/mach_voucher_types.h])

    A voucher is an array of value indices, one per attribute key, that is never changed once
    it is made; equal vouchers are one voucher.  Here are the vouchers, the table of managers,
    and the calls that make and read vouchers, each as a whole: the sections of the value
    cache ([VoucherCache]) run one after the other with the calls of the manager between
    them.  Trace points are left out. *)

From S2P Require Import Prelude MachPort KmsgQueue KmsgSpec Prng OsRefcnt IpcTable IpcHash IpcState IpcSpace IpcEntry IpcPort IpcMqueue IpcRequest IpcPortLife IpcKobject IpcRight RightDrop RightCopy IpcObject VoucherCache VoucherManager.

Definition IV_NULL : Z := IPC_VOUCHER_NULL.
Definition IVAM_NULL : Z := 0.
Definition IVAC_NULL : Z := 0.
Definition HOST_NULL : Z := 0.
Definition IV_UNUSED_KEYINDEX : Z := 0xffffffff.
Definition MACH_VOUCHER_ATTR_KEY_ALL : Z := 0xffffffff.
Definition MACH_VOUCHER_ATTR_KEY_BANK : Z := 3.
Definition MACH_VOUCHER_ATTR_KEY_NUM_WELL_KNOWN : Z := MACH_VOUCHER_ATTR_KEY_TEST.
Definition IV_ENTRIES_INLINE : Z := MACH_VOUCHER_ATTR_KEY_NUM_WELL_KNOWN.
Definition IV_HASH_BUCKETS : Z := 127.
Definition IV_HASH_BUCKET (x : Z) : Z := x mod IV_HASH_BUCKETS.
Definition ivgt_keys_in_use : Z := MACH_VOUCHER_ATTR_KEY_NUM_WELL_KNOWN.
Definition MACH_VOUCHER_ATTR_NOOP : Z := 0.
Definition MACH_VOUCHER_ATTR_COPY : Z := 1.
Definition MACH_VOUCHER_ATTR_REMOVE : Z := 2.
Definition MACH_VOUCHER_ATTR_SET_VALUE_HANDLE : Z := 3.
Definition MACH_VOUCHER_ATTR_BANK_CREATE : Z := 610.
Definition IKOT_VOUCHER : Z := 37.
Definition IKOT_VOUCHER_ATTR_CONTROL : Z := 38.

(** ** State *)

(** [struct ipc_voucher]; [iv_table_size] is the length of the table. *)
Record ipc_voucher := mk_voucher { iv_hash : Z; iv_sum : Z; iv_refs : Z; iv_table : list Z; iv_port : Z }.
Definition set_iv_hash (v : Z) (x : ipc_voucher) : ipc_voucher := mk_voucher v (iv_sum x) (iv_refs x) (iv_table x) (iv_port x).
Definition set_iv_sum (v : Z) (x : ipc_voucher) : ipc_voucher := mk_voucher (iv_hash x) v (iv_refs x) (iv_table x) (iv_port x).
Definition set_iv_refs (v : Z) (x : ipc_voucher) : ipc_voucher := mk_voucher (iv_hash x) (iv_sum x) v (iv_table x) (iv_port x).
Definition set_iv_table (v : list Z) (x : ipc_voucher) : ipc_voucher := mk_voucher (iv_hash x) (iv_sum x) (iv_refs x) v (iv_port x).
Definition set_iv_port (v : Z) (x : ipc_voucher) : ipc_voucher := mk_voucher (iv_hash x) (iv_sum x) (iv_refs x) (iv_table x) v.
Definition iv_table_size (x : ipc_voucher) : Z := alen (iv_table x).

(** [ipc_voucher_global_table_element]. *)
Record ivgte := mk_ivgte { ivgte_manager : Z; ivgte_control : Z; ivgte_key : Z }.
#[global] Instance ivgte_inhabited : Inhabited ivgte := populate (mk_ivgte 0 0 0).

(** The kernel's state and that of the managers, controls and vouchers by address, the table of
    managers, the buckets of vouchers. *)
Record vst {MS : Type} := mk_vst {
  g_kst : kst; g_mgr : MS; g_controls : gmap Z ivac; g_table : list ivgte;
  g_vouchers : gmap Z ipc_voucher; ivht_bucket : list (list Z); ivht_count : Z }.
Arguments vst : clear implicits.
Arguments mk_vst {MS}.

Section state.
Context {MS : Type}.
Implicit Types (s : vst MS).
Definition set_g_kst (v : kst) s : vst MS := mk_vst v (g_mgr s) (g_controls s) (g_table s) (g_vouchers s) (ivht_bucket s) (ivht_count s).
Definition set_g_mgr (v : MS) s : vst MS := mk_vst (g_kst s) v (g_controls s) (g_table s) (g_vouchers s) (ivht_bucket s) (ivht_count s).
Definition set_g_controls (v : gmap Z ivac) s : vst MS := mk_vst (g_kst s) (g_mgr s) v (g_table s) (g_vouchers s) (ivht_bucket s) (ivht_count s).
Definition set_g_table (v : list ivgte) s : vst MS := mk_vst (g_kst s) (g_mgr s) (g_controls s) v (g_vouchers s) (ivht_bucket s) (ivht_count s).
Definition set_g_vouchers (v : gmap Z ipc_voucher) s : vst MS := mk_vst (g_kst s) (g_mgr s) (g_controls s) (g_table s) v (ivht_bucket s) (ivht_count s).
Definition set_ivht_bucket (v : list (list Z)) s : vst MS := mk_vst (g_kst s) (g_mgr s) (g_controls s) (g_table s) (g_vouchers s) v (ivht_count s).
Definition set_ivht_count (v : Z) s : vst MS := mk_vst (g_kst s) (g_mgr s) (g_controls s) (g_table s) (g_vouchers s) (ivht_bucket s) v.

(** Runs on a part of the state. *)
Definition focus {S A} (part : vst MS -> S) (put : S -> vst MS -> vst MS) (m : M S A) : M (vst MS) A :=
  fun s => match m (part s) with
           | Done (a, x) => Done (a, put x s)
           | Panic why => Panic why
           | Diverges => Diverges
           end.
Definition in_kst {A} (m : M kst A) : M (vst MS) A := focus g_kst set_g_kst m.
Definition in_manager {A} (m : M MS A) : M (vst MS) A := focus g_mgr set_g_mgr m.
Definition in_control {A} (a : Z) (m : M ivac A) : M (vst MS) A :=
  fun s => match g_controls s !! a with
           | None => Panic "dangling control"
           | Some c => focus (fun _ => c) (fun c s => set_g_controls (<[a := c]> (g_controls s)) s) m s
           end.
Definition get_voucher (a : Z) : M (vst MS) ipc_voucher :=
  fun s => match g_vouchers s !! a with Some x => Done (x, s) | None => Panic "dangling voucher" end.
Definition put_voucher (a : Z) (x : ipc_voucher) : M (vst MS) unit := modify (fun s => set_g_vouchers (<[a := x]> (g_vouchers s)) s).
Definition mod_voucher (a : Z) (f : ipc_voucher -> ipc_voucher) : M (vst MS) unit := let* x := get_voucher a in put_voucher a (f x).

(** One after the other; the first failure ends it. *)
Fixpoint each (l : list Z) (f : Z -> M (vst MS) unit) : M (vst MS) unit :=
  match l with [] => ret tt | j :: l => f j ;;* each l f end.
Fixpoint each_kr (l : list Z) (f : Z -> M (vst MS) kern_return_t) : M (vst MS) kern_return_t :=
  match l with
  | [] => ret KERN_SUCCESS
  | j :: l => let* kr := f j in if bool_decide (kr <> KERN_SUCCESS) then ret kr else each_kr l f
  end.
End state.

(** Numbers in memory. *)
Fixpoint le_value (bytes : list Z) : Z := match bytes with [] => 0 | b :: bytes => b + 256 * le_value bytes end.
Fixpoint le_bytes (n : nat) (v : Z) : list Z := match n with O => [] | S n => v mod 256 :: le_bytes n (v / 256) end.
(** So many bytes from an offset on; beyond the end there is no memory. *)
Definition bytes_at (buffer : list Z) (offset n : Z) : outcome (list Z) :=
  if offset + n <=? alen buffer then Done (take (Z.to_nat n) (drop (Z.to_nat offset) buffer)) else Panic "read past the end".
Definition write_at (buffer : list Z) (offset : Z) (bytes : list Z) : outcome (list Z) :=
  if offset + alen bytes <=? alen buffer
  then Done (take (Z.to_nat offset) buffer ++ bytes ++ drop (Z.to_nat offset + length bytes) buffer)
  else Panic "write past the end".

(** ** Keys *)
Definition iv_key_to_index (key : Z) : Z :=
  if (MACH_VOUCHER_ATTR_KEY_ALL =? key) || (MACH_VOUCHER_ATTR_KEY_NUM_WELL_KNOWN <? key) then IV_UNUSED_KEYINDEX
  else u32 (key - 1).

Section operations.
Context `{KernelConfig} `{TableSizes} `{Concurrency} `{Externals} `{RequestSizes} `{KobjectOps} `{Messages} {MS : Type} `{AttrManager MS}.

Definition global_entry (key_index : Z) : M (vst MS) ivgte := let* s := gets id in lift (aget (g_table s) key_index).
Definition iv_index_to_key (key_index : Z) : M (vst MS) Z :=
  if key_index <? MACH_VOUCHER_ATTR_KEY_NUM_WELL_KNOWN then let* e := global_entry key_index in ret (ivgte_key e)
  else ret MACH_VOUCHER_ATTR_KEY_NONE.

(** ** Controls *)
Definition ivac_reference (a : Z) : M (vst MS) unit := if a =? IVAC_NULL then ret tt else in_control a ivac_retain.
(** A port of the kernel object, when it goes. *)
Definition discard_port (port type : Z) : M (vst MS) unit :=
  when (IP_VALID port)
    (let* p := in_kst (get_port port) in
     massert (ip_srights p =? 0) "port->ip_srights == 0" ;;*
     in_kst (ipc_kobject_dealloc_port port 0 type) ;;* ret tt).
Definition ivac_dealloc (a : Z) : M (vst MS) unit :=
  let* c := in_control a (gets id) in
  if 0 <? ivac_refs c then ret tt
  else
    let* e := global_entry (ivac_key_index c) in
    let* ivam :=
      if ivgte_control e =? a then
        modify (fun s => set_g_table (aset (g_table s) (ivac_key_index c) (mk_ivgte IVAM_NULL IVAC_NULL MACH_VOUCHER_ATTR_KEY_NONE)) s) ;;*
        ret (ivgte_manager e)
      else ret IVAM_NULL in
    when (negb (ivam =? IVAM_NULL)) (in_manager (ivam_release ivam)) ;;*
    discard_port (ivac_port c) IKOT_VOUCHER_ATTR_CONTROL ;;*
    (if existsb (fun e => negb (ivace_refs e =? 0)) (ivac_table c)
     then panic "deallocing a resource manager with live refs to its attr values" else ret tt) ;;*
    modify (fun s => set_g_controls (delete a (g_controls s)) s).
Definition ivac_release (a : Z) : M (vst MS) unit :=
  if a =? IVAC_NULL then ret tt
  else let* n := in_control a ivac_unref in when (n =? 0) (ivac_dealloc a).

(** The manager and the control of a key. *)
Definition ivgt_lookup (key_index : Z) (take_reference : bool) : M (vst MS) (Z * Z) :=
  if key_index <? MACH_VOUCHER_ATTR_KEY_NUM_WELL_KNOWN then
    let* e := global_entry key_index in
    let ivac := ivgte_control e in
    when (negb (ivac =? IVAC_NULL))
      (let* c := in_control ivac (gets id) in
       massert (key_index =? ivac_key_index c) "key_index == ivac->ivac_key_index" ;;*
       when take_reference (ivac_reference ivac)) ;;*
    ret (ivgte_manager e, ivac)
  else ret (IVAM_NULL, IVAC_NULL).

(** ** Values *)
Definition ivace_lookup_values (key_index value_index : Z) : M (vst MS) (list Z) :=
  if (IV_UNUSED_VALINDEX =? value_index) || (MACH_VOUCHER_ATTR_KEY_NUM_WELL_KNOWN <=? key_index) then ret []
  else
    let* e := global_entry key_index in
    massert (negb (ivgte_control e =? IVAC_NULL)) "IVAC_NULL != ivac" ;;*
    let* v := in_control (ivgte_control e) (ivace_value_locked value_index) in
    ret [v].
Definition ivace_reference_by_index (key_index val_index : Z) : M (vst MS) unit :=
  if IV_UNUSED_VALINDEX =? val_index then ret tt
  else
    let* (_, ivac) := ivgt_lookup key_index false in
    massert (negb (ivac =? IVAC_NULL)) "IVAC_NULL != ivac" ;;*
    in_control ivac (ivace_reference_locked val_index).
(** The table grows at most once: then there is room.  A table that another thread grows is
    looked at again. *)
Fixpoint reference_rounds (fuel : nat) (ivac value flag : Z) : M (vst MS) Z :=
  match fuel with
  | O => fun _ => Diverges
  | S fuel =>
    let* r := in_control ivac (ivace_reference_attempt value flag) in
    match r with
    | RefFound index => ivac_release ivac ;;* ret index
    | RefNew index => ret index
    | RefFull =>
      let* old_size := in_control ivac ivac_grow_begin in
      (if old_size is Some old_size then in_control ivac (ivac_grow_end old_size) else ret tt) ;;*
      reference_rounds fuel ivac value flag
    end
  end.
Definition ivace_reference_by_value (ivac value flag : Z) : M (vst MS) Z :=
  if ivac =? IVAC_NULL then ret IV_UNUSED_VALINDEX else reference_rounds 2 ivac value flag.
(** From [redrive:] on.  Nobody makes the value again while the manager is asked, so one round
    does it. *)
Fixpoint release_rounds (fuel : nat) (ivam ivac key value_index value : Z) : M (vst MS) unit :=
  match fuel with
  | O => fun _ => Diverges
  | S fuel =>
    let* made := in_control ivac (ivace_redrive value_index value) in
    let* kr := in_manager (ivam_release_value ivam key value made) in
    let* r := in_control ivac (ivace_release_end value_index value made kr) in
    match r with
    | ReleaseDone => ret tt
    | ReleaseAgain => release_rounds fuel ivam ivac key value_index value
    | ReleaseFreed => ivac_release ivac
    end
  end.
Definition ivace_release (key_index value_index : Z) : M (vst MS) unit :=
  if IV_UNUSED_VALINDEX =? value_index then ret tt
  else
    let* (ivam, ivac) := ivgt_lookup key_index false in
    massert (negb (ivac =? IVAC_NULL)) "IVAC_NULL != ivac" ;;*
    massert (negb (ivam =? IVAM_NULL)) "IVAM_NULL != ivam" ;;*
    let* key := iv_index_to_key key_index in
    let* r := in_control ivac (ivace_release_begin key value_index) in
    match r with
    | None => ret tt
    | Some value => release_rounds 1 ivam ivac key value_index value
    end.

(** ** Vouchers *)

(** [a] is where the allocator puts the voucher; a table of up to [IV_ENTRIES_INLINE] entries
    is part of it. *)
Definition iv_alloc (a entries : Z) : M (vst MS) Z :=
  let* n := lift (os_ref_init_count_internal 1) in
  let size := if IV_ENTRIES_INLINE <? entries then entries else IV_ENTRIES_INLINE in
  put_voucher a (mk_voucher 0 0 n (replicate (Z.to_nat size) IV_UNUSED_VALINDEX) IP_NULL) ;;*
  ret a.
Definition iv_set (a key_index value_index : Z) : M (vst MS) unit :=
  let* iv := get_voucher a in
  if iv_table_size iv <=? key_index then panic "key_index >= iv->iv_table_size"
  else put_voucher a (set_iv_table (aset (iv_table iv) key_index value_index) iv).
Definition iv_lookup (iv : ipc_voucher) (key_index : Z) : Z :=
  if key_index <? iv_table_size iv then anth (iv_table iv) key_index else IV_UNUSED_VALINDEX.
Definition lookup_at (a key_index : Z) : M (vst MS) Z := let* iv := get_voucher a in ret (iv_lookup iv key_index).

Definition iv_unhash (a : Z) : M (vst MS) unit :=
  let* iv := get_voucher a in
  massert (iv_refs iv =? 0) "os_ref_get_count(&iv->iv_refs) == 0" ;;*
  massert (iv_hash iv <? IV_HASH_BUCKETS) "IV_HASH_BUCKETS > iv->iv_hash" ;;*
  let* s := gets id in
  let* queue := lift (aget (ivht_bucket s) (iv_hash iv)) in
  modify (fun s => set_ivht_bucket (aset (ivht_bucket s) (iv_hash iv) (filter (fun b => b <> a) queue)) s) ;;*
  modify (fun s => set_ivht_count (u32 (ivht_count s - 1)) s).
Definition iv_dealloc (a : Z) (unhash : bool) : M (vst MS) unit :=
  let* iv := get_voucher a in
  (if unhash then iv_unhash a
   else
     let* cnt := lift (os_ref_release_barrier_internal (iv_refs iv)) in
     mod_voucher a (set_iv_refs cnt) ;;*
     massert (cnt =? 0) "cnt == 0") ;;*
  discard_port (iv_port iv) IKOT_VOUCHER ;;*
  each (seqZ 0 (iv_table_size iv)) (fun i =>
    let* v := lookup_at a i in
    ivace_release i v ;;*
    when MACH_ASSERT (iv_set a i 0xffffffff)) ;;*
  modify (fun s => set_g_vouchers (delete a (g_vouchers s)) s).
Definition iv_reference (a : Z) : M (vst MS) unit :=
  let* iv := get_voucher a in
  let* n := lift (os_ref_retain_internal (iv_refs iv)) in
  put_voucher a (set_iv_refs n iv).
Definition iv_release (a : Z) : M (vst MS) unit :=
  let* iv := get_voucher a in
  let* n := lift (os_ref_release_barrier_internal (iv_refs iv)) in
  put_voucher a (set_iv_refs n iv) ;;*
  when (n =? 0) (iv_dealloc a true).
Definition ipc_voucher_reference (a : Z) : M (vst MS) unit := if a =? IPC_VOUCHER_NULL then ret tt else iv_reference a.
Definition ipc_voucher_release (a : Z) : M (vst MS) unit := if a =? IPC_VOUCHER_NULL then ret tt else iv_release a.

(** ** Ports *)
Definition ip_get_voucher (port : Z) : M (vst MS) Z := in_kst (ipc_kobject_get_stable port IKOT_VOUCHER).
Definition convert_port_to_voucher (port : Z) : M (vst MS) Z :=
  if IP_VALID port then
    let* p := in_kst (get_port port) in
    if ip_kotype p =? IKOT_VOUCHER
    then let* voucher := ip_get_voucher port in ipc_voucher_reference voucher ;;* ret voucher
    else ret IV_NULL
  else ret IV_NULL.
Definition convert_port_name_to_voucher (voucher_name : Z) : M (vst MS) Z :=
  if MACH_PORT_VALID voucher_name then
    let* (kr, port) := in_kst (ipc_port_translate_send voucher_name) in
    if bool_decide (kr <> KERN_SUCCESS) then ret IV_NULL else convert_port_to_voucher port
  else ret IV_NULL.
Definition ipc_voucher_no_senders (port : Z) : M (vst MS) unit :=
  let* voucher := ip_get_voucher port in
  let* p := in_kst (get_port port) in
  massert (ip_kotype p =? IKOT_VOUCHER) "IKOT_VOUCHER == ip_kotype(port)" ;;*
  ipc_voucher_release voucher.
(** [port] is where the allocator would put a port, [current] what the field holds at the
    compare-and-exchange. *)
Definition convert_voucher_to_port (a port current : Z) : M (vst MS) Z :=
  if a =? IV_NULL then ret IP_NULL
  else
    let* iv := get_voucher a in
    massert (0 <? iv_refs iv) "os_ref_get_count(&voucher->iv_refs) > 0" ;;*
    let* (armed, store) := in_kst (ipc_kobject_make_send_lazy_alloc_port port (iv_port iv) current a IKOT_VOUCHER 0) in
    mod_voucher a (set_iv_port store) ;;*
    when (negb armed) (ipc_voucher_release a) ;;*
    ret store.
Definition convert_port_to_voucher_attr_control (port : Z) : M (vst MS) Z :=
  let* ivac := if IP_VALID port then in_kst (ipc_kobject_get_stable port IKOT_VOUCHER_ATTR_CONTROL) else ret IVAC_NULL in
  when (negb (ivac =? IVAC_NULL)) (ivac_reference ivac) ;;*
  ret IVAC_NULL.
Definition ipc_voucher_attr_control_no_senders (port : Z) : M (vst MS) unit :=
  let* ivac := in_kst (ipc_kobject_get_stable port IKOT_VOUCHER_ATTR_CONTROL) in
  ivac_release ivac.
Definition convert_voucher_attr_control_to_port (a port current : Z) : M (vst MS) Z :=
  if a =? IVAC_NULL then ret IP_NULL
  else
    let* c := in_control a (gets id) in
    let* (armed, store) := in_kst (ipc_kobject_make_send_lazy_alloc_port port (ivac_port c) current a IKOT_VOUCHER_ATTR_CONTROL 0) in
    in_control a (modify (set_ivac_port store)) ;;*
    when (negb armed) (ivac_release a) ;;*
    ret store.
End operations.
