(* ===== verification/IpcVoucherCalls.v ===== *)
(** * Making and reading vouchers ([osfmk/ipc/ipc_voucher.c])

    Recipes, which are sequences of commands in memory, the vouchers made by them, the
    registration of managers, and the calls that read a voucher. *)

From S2P Require Import Prelude MachPort KmsgQueue KmsgSpec Prng OsRefcnt IpcTable IpcHash IpcState IpcSpace IpcEntry IpcPort IpcMqueue IpcRequest IpcPortLife IpcKobject IpcRight RightDrop RightCopy IpcObject VoucherCache VoucherManager IpcVoucher.

(** ** Recipes in memory

    [ipc_voucher_attr_recipe_data_t] with the address of a voucher and
    [mach_voucher_attr_recipe_data_t] with the name of one; the content follows. *)
Record recipe := mk_recipe { rc_key : Z; rc_command : Z; rc_previous_voucher : Z; rc_content_size : Z }.
Definition previous_voucher_size (is_user : bool) : Z := if is_user then 4 else 8.
Definition recipe_struct_size (is_user : bool) : Z := 12 + previous_voucher_size is_user.
Definition field_at (buffer : list Z) (offset n : Z) : outcome Z := let! bytes := bytes_at buffer offset n in Done (le_value bytes).
Definition recipe_at (is_user : bool) (buffer : list Z) (offset : Z) : outcome recipe :=
  let w := previous_voucher_size is_user in
  let! key := field_at buffer offset 4 in
  let! command := field_at buffer (offset + 4) 4 in
  let! previous := field_at buffer (offset + 8) w in
  let! content_size := field_at buffer (offset + 8 + w) 4 in
  Done (mk_recipe key command previous content_size).
Definition recipe_bytes (is_user : bool) (r : recipe) : list Z :=
  le_bytes 4 (rc_key r) ++ le_bytes 4 (rc_command r) ++
  le_bytes (Z.to_nat (previous_voucher_size is_user)) (rc_previous_voucher r) ++ le_bytes 4 (rc_content_size r).

Section operations.
Context `{KernelConfig} `{TableSizes} `{Concurrency} `{Externals} `{RequestSizes} `{KobjectOps} `{Messages} {MS : Type} `{AttrManager MS}.

(** ** The commands of a recipe *)
Definition ipc_replace_voucher_value (voucher key command prev_voucher : Z) (content : list Z) : M (vst MS) kern_return_t :=
  let key_index := iv_key_to_index key in
  let* (ivam, ivac) := ivgt_lookup key_index true in
  if ivam =? IVAM_NULL then ret KERN_INVALID_ARGUMENT
  else
    let* save_val_index := lookup_at voucher key_index in
    let* prev_val_index := if negb (prev_voucher =? IV_NULL) then lookup_at prev_voucher key_index else ret save_val_index in
    let* previous_vals := ivace_lookup_values key_index prev_val_index in
    let* r := in_manager (ivam_get_value ivam key command previous_vals content) in
    if bool_decide (gv_kr r <> KERN_SUCCESS) then ivac_release ivac ;;* ret (gv_kr r)
    else
      when (negb (gv_voucher r =? IV_NULL)) (iv_release (gv_voucher r)) ;;*
      let* val_index := ivace_reference_by_value ivac (gv_value r) (gv_flags r) in
      iv_set voucher key_index val_index ;;*
      ivace_release key_index save_val_index ;;*
      ret KERN_SUCCESS.
Definition ipc_directly_replace_voucher_value (voucher key new_value : Z) : M (vst MS) kern_return_t :=
  let key_index := iv_key_to_index key in
  let* (ivam, ivac) := ivgt_lookup key_index true in
  if ivam =? IVAM_NULL then ret KERN_INVALID_ARGUMENT
  else
    let* save_val_index := lookup_at voucher key_index in
    let* val_index := ivace_reference_by_value ivac new_value MACH_VOUCHER_ATTR_VALUE_FLAGS_NONE in
    iv_set voucher key_index val_index ;;*
    ivace_release key_index save_val_index ;;*
    ret KERN_SUCCESS.

(** [MACH_VOUCHER_ATTR_COPY] of one key. *)
Definition copy_value (voucher prev_iv j : Z) : M (vst MS) unit :=
  let* val_index := lookup_at voucher j in
  ivace_release j val_index ;;*
  let* prev_val_index := lookup_at prev_iv j in
  ivace_reference_by_index j prev_val_index ;;*
  iv_set voucher j prev_val_index.
(** [MACH_VOUCHER_ATTR_REMOVE] of one key, unless the previous voucher has another value. *)
Definition remove_value (voucher prev_iv j : Z) : M (vst MS) unit :=
  let* val_index := lookup_at voucher j in
  let* keep :=
    if negb (prev_iv =? IV_NULL) then let* prev_val_index := lookup_at prev_iv j in ret (negb (val_index =? prev_val_index))
    else ret false in
  if keep then ret tt
  else ivace_release j val_index ;;* iv_set voucher j IV_UNUSED_VALINDEX.
(** The keys both vouchers have. *)
Definition common_keys (voucher prev_iv : Z) : M (vst MS) (list Z) :=
  let* v := get_voucher voucher in
  if prev_iv =? IV_NULL then ret (seqZ 0 (iv_table_size v))
  else
    let* p := get_voucher prev_iv in
    ret (seqZ 0 (if iv_table_size p <? iv_table_size v then iv_table_size p else iv_table_size v)).
Definition redeem_value (voucher command prev_iv : Z) (content : list Z) (j : Z) : M (vst MS) kern_return_t :=
  let* j_key := iv_index_to_key j in
  if MACH_VOUCHER_ATTR_KEY_NONE =? j_key then ret KERN_SUCCESS
  else ipc_replace_voucher_value voucher j_key command prev_iv content.
Definition ipc_execute_voucher_recipe_command (voucher key command prev_iv : Z) (content : list Z) (key_priv : bool)
    : M (vst MS) kern_return_t :=
  let all := MACH_VOUCHER_ATTR_KEY_ALL =? key in
  let key_index := iv_key_to_index key in
  if command =? MACH_VOUCHER_ATTR_COPY then
    if 0 <? alen content then ret KERN_INVALID_ARGUMENT
    else if prev_iv =? IV_NULL then ret KERN_SUCCESS
    else if all then
      let* keys := common_keys voucher prev_iv in
      each keys (copy_value voucher prev_iv) ;;* ret KERN_SUCCESS
    else if ivgt_keys_in_use <? key_index then ret KERN_INVALID_ARGUMENT
    else copy_value voucher prev_iv key_index ;;* ret KERN_SUCCESS
  else if command =? MACH_VOUCHER_ATTR_REMOVE then
    if 0 <? alen content then ret KERN_INVALID_ARGUMENT
    else if all then
      let* keys := common_keys voucher prev_iv in
      each keys (remove_value voucher prev_iv) ;;* ret KERN_SUCCESS
    else if ivgt_keys_in_use <? key_index then ret KERN_INVALID_ARGUMENT
    else remove_value voucher prev_iv key_index ;;* ret KERN_SUCCESS
  else if command =? MACH_VOUCHER_ATTR_SET_VALUE_HANDLE then
    if key_priv then
      if negb (alen content =? 8) then ret KERN_INVALID_ARGUMENT
      else ipc_directly_replace_voucher_value voucher key (le_value content)
    else ret KERN_INVALID_CAPABILITY
  else if (command =? MACH_VOUCHER_ATTR_REDEEM) && all then
    let* keys := common_keys voucher prev_iv in
    each_kr keys (redeem_value voucher command prev_iv content)
  else ipc_replace_voucher_value voucher key command prev_iv content.

(** ** Equal vouchers are one voucher *)

(** A round of the loop of [iv_checksum]; [32 - 3] is the rest of a word. *)
Definition checksum_add (c v : Z) : Z :=
  let c := Z.lor (u32 (Z.shiftl c 3)) (Z.shiftr c (32 - 3)) in
  let c := 2 ^ 32 - 1 - c in
  if 0 <? v then u32 (c + v) else c.
Definition iv_checksum (table : list Z) : Z * bool :=
  (fold_left checksum_add (reverse table) 0, forallb (fun v => negb (0 <? v)) table).
(** What is left of the extra entries when the loop ends. *)
Fixpoint extra_left (l : list Z) : list Z :=
  match l with
  | [] => []
  | v :: l => if negb (v =? IV_UNUSED_VALINDEX) then l else extra_left l
  end.
Definition iv_matches (table new_table : list Z) : bool :=
  bool_decide (table = take (length table) new_table) && bool_decide (extra_left (drop (length table) new_table) = []).
Fixpoint dedup_find (queue : list Z) (sum hash new_iv : Z) : M (vst MS) (option Z) :=
  match queue with
  | [] => ret None
  | a :: queue =>
    let* iv := get_voucher a in
    let* new := get_voucher new_iv in
    massert (iv_hash iv =? hash) "iv->iv_hash == hash" ;;*
    if (0 <? iv_refs iv) && (iv_sum iv =? sum) then
      massert (iv_table_size iv <=? iv_table_size new) "iv->iv_table_size <= new_iv->iv_table_size" ;;*
      if iv_matches (iv_table iv) (iv_table new) then
        let* (n, taken) := lift (os_ref_retain_try_internal (iv_refs iv)) in
        put_voucher a (set_iv_refs n iv) ;;*
        if taken : bool then ret (Some a) else dedup_find queue sum hash new_iv
      else dedup_find queue sum hash new_iv
    else dedup_find queue sum hash new_iv
  end.
Definition iv_dedup (new_iv : Z) : M (vst MS) Z :=
  let* new := get_voucher new_iv in
  let (sum, empty) := iv_checksum (iv_table new) in
  if empty then iv_dealloc new_iv false ;;* ret IV_NULL
  else
    let hash := IV_HASH_BUCKET sum in
    let* s := gets id in
    let* queue := lift (aget (ivht_bucket s) hash) in
    let* found := dedup_find queue sum hash new_iv in
    match found with
    | Some iv => iv_dealloc new_iv false ;;* ret iv
    | None =>
      mod_voucher new_iv (fun iv => set_iv_hash hash (set_iv_sum sum iv)) ;;*
      modify (fun s => set_ivht_bucket (aset (ivht_bucket s) hash (queue ++ [new_iv])) s) ;;*
      modify (fun s => set_ivht_count (u32 (ivht_count s + 1)) s) ;;*
      ret new_iv
    end.

(** ** Creation

    Each round uses up at least a recipe's header, so there are no more rounds than bytes. *)
Fixpoint recipe_rounds (fuel : nat) (control_key : option Z) (recipes : list Z) (recipe_used : Z) (is_user_recipe : bool) (voucher : Z)
    : M (vst MS) kern_return_t :=
  match fuel with
  | O => fun _ => Diverges
  | S fuel =>
    let struct_size := recipe_struct_size is_user_recipe in
    if alen recipes - recipe_used =? 0 then ret KERN_SUCCESS
    else if alen recipes - recipe_used <? struct_size then ret KERN_INVALID_ARGUMENT
    else
      let* r := lift (recipe_at is_user_recipe recipes recipe_used) in
      if alen recipes - recipe_used - struct_size <? rc_content_size r then ret KERN_INVALID_ARGUMENT
      else
        let* content := lift (bytes_at recipes (recipe_used + struct_size) (rc_content_size r)) in
        let key_priv := if control_key is Some control_key then rc_key r =? control_key else false in
        let* prev_iv := if is_user_recipe then convert_port_name_to_voucher (rc_previous_voucher r) else ret (rc_previous_voucher r) in
        if is_user_recipe && negb (rc_previous_voucher r =? MACH_PORT_NULL) && (prev_iv =? IV_NULL) then ret KERN_INVALID_CAPABILITY
        else
          let* kr := ipc_execute_voucher_recipe_command voucher (rc_key r) (rc_command r) prev_iv content key_priv in
          when is_user_recipe (ipc_voucher_release prev_iv) ;;*
          if bool_decide (kr <> KERN_SUCCESS) then ret kr
          else recipe_rounds fuel control_key recipes (recipe_used + struct_size + rc_content_size r) is_user_recipe voucher
  end.
(** [a] is where the allocator puts the new voucher. *)
Definition ipc_create_mach_voucher_internal (a control : Z) (recipes : list Z) (is_user_recipe : bool) : M (vst MS) (kern_return_t * Z) :=
  if alen recipes =? 0 then ret (KERN_SUCCESS, IV_NULL)
  else
    let* voucher := iv_alloc a ivgt_keys_in_use in
    let* control_key :=
      if control =? IVAC_NULL then ret None
      else let* c := in_control control (gets id) in let* key := iv_index_to_key (ivac_key_index c) in ret (Some key) in
    let* kr := recipe_rounds (S (length recipes)) control_key recipes 0 is_user_recipe voucher in
    if bool_decide (kr = KERN_SUCCESS) then let* new_voucher := iv_dedup voucher in ret (kr, new_voucher)
    else iv_dealloc voucher false ;;* ret (kr, IV_NULL).
Definition ipc_create_mach_voucher (a : Z) (recipes : list Z) : M (vst MS) (kern_return_t * Z) :=
  ipc_create_mach_voucher_internal a IVAC_NULL recipes false.
Definition ipc_voucher_attr_control_create_mach_voucher (a control : Z) (recipes : list Z) : M (vst MS) (kern_return_t * Z) :=
  if control =? IVAC_NULL then ret (KERN_INVALID_CAPABILITY, IV_NULL) else ipc_create_mach_voucher_internal a control recipes false.
Definition mach_voucher_attr_control_create_mach_voucher (a control : Z) (recipes : list Z) : M (vst MS) (kern_return_t * Z) :=
  if control =? IVAC_NULL then ret (KERN_INVALID_CAPABILITY, IV_NULL) else ipc_create_mach_voucher_internal a control recipes true.
Definition host_create_mach_voucher (a host : Z) (recipes : list Z) : M (vst MS) (kern_return_t * Z) :=
  if host =? HOST_NULL then ret (KERN_INVALID_ARGUMENT, IV_NULL) else ipc_create_mach_voucher_internal a IVAC_NULL recipes true.
(** [no_bank]: the current task is the kernel's, or has no bank context. *)
Definition ipc_voucher_get_default_voucher (a : Z) (no_bank : bool) : M (vst MS) Z :=
  if no_bank then ret IPC_VOUCHER_NULL
  else
    let* (kr, recv_voucher) := ipc_create_mach_voucher a
      (recipe_bytes false (mk_recipe MACH_VOUCHER_ATTR_KEY_BANK MACH_VOUCHER_ATTR_BANK_CREATE IPC_VOUCHER_NULL 0)) in
    massert (bool_decide (kr = KERN_SUCCESS)) "KERN_SUCCESS == kr" ;;*
    ret recv_voucher.

(** ** Registration; [a] is where the allocator puts the control. *)
Definition ipc_register_well_known_mach_voucher_attr_manager (a manager default_value key : Z) : M (vst MS) (kern_return_t * Z) :=
  if manager =? IVAM_NULL then ret (KERN_INVALID_ARGUMENT, IVAC_NULL)
  else
    let key_index := iv_key_to_index key in
    if key_index =? IV_UNUSED_KEYINDEX then ret (KERN_INVALID_ARGUMENT, IVAC_NULL)
    else
      modify (fun s => set_g_controls (<[a := ivac_fresh key_index]> (g_controls s)) s) ;;*
      in_control a (ivac_set_default default_value) ;;*
      let* e := global_entry key_index in
      if negb (ivgte_manager e =? IVAM_NULL) then ivac_release a ;;* ret (KERN_INVALID_ARGUMENT, IVAC_NULL)
      else
        modify (fun s => set_g_table (aset (g_table s) key_index (mk_ivgte manager a key)) s) ;;*
        in_control a (ivac_hash_default default_value) ;;*
        ret (KERN_SUCCESS, a).

(** ** Reading a voucher

    Results are the code and the bytes written, or the buffer and its size where the source
    leaves some of it as it was. *)
Definition mach_voucher_extract_attr_content (a key size : Z) : M (vst MS) (kern_return_t * list Z) :=
  if a =? IV_NULL then ret (KERN_INVALID_ARGUMENT, [])
  else
    let key_index := iv_key_to_index key in
    let* value_index := lookup_at a key_index in
    if IV_UNUSED_VALINDEX =? value_index then ret (KERN_SUCCESS, [])
    else
      let* (manager, _) := ivgt_lookup key_index false in
      if manager =? IVAM_NULL then ret (KERN_INVALID_ARGUMENT, [])
      else
        let* vals := ivace_lookup_values key_index value_index in
        massert (0 <? alen vals) "0 < vals_count" ;;*
        let* r := in_manager (ivam_extract_content manager key vals size) in
        ret (ex_kr r, ex_content r).
Definition mach_voucher_extract_attr_recipe (a key : Z) (raw_recipe : list Z) : M (vst MS) (kern_return_t * list Z * Z) :=
  let size := alen raw_recipe in
  if a =? IV_NULL then ret (KERN_INVALID_ARGUMENT, raw_recipe, size)
  else
    let key_index := iv_key_to_index key in
    let* value_index := lookup_at a key_index in
    if IV_UNUSED_VALINDEX =? value_index then ret (KERN_SUCCESS, raw_recipe, 0)
    else if size <? recipe_struct_size true then ret (KERN_NO_SPACE, raw_recipe, size)
    else
      let room := size - recipe_struct_size true in
      let* raw_recipe := lift (write_at raw_recipe 0 (recipe_bytes true (mk_recipe key MACH_VOUCHER_ATTR_NOOP MACH_PORT_NULL room))) in
      let* (manager, _) := ivgt_lookup key_index false in
      if manager =? IVAM_NULL then ret (KERN_INVALID_ARGUMENT, raw_recipe, size)
      else
        let* vals := ivace_lookup_values key_index value_index in
        massert (0 <? alen vals) "0 < vals_count" ;;*
        let* r := in_manager (ivam_extract_content manager key vals room) in
        if bool_decide (ex_kr r = KERN_SUCCESS) then
          let* raw_recipe := lift (write_at raw_recipe (recipe_struct_size true) (ex_content r)) in
          let* raw_recipe := lift (write_at raw_recipe 0 (recipe_bytes true (mk_recipe key (ex_command r) MACH_PORT_NULL (alen (ex_content r))))) in
          massert (alen (ex_content r) <=? room) "*in_out_size - sizeof(*recipe) >= recipe->content_size" ;;*
          ret (KERN_SUCCESS, raw_recipe, recipe_struct_size true + alen (ex_content r))
        else ret (ex_kr r, raw_recipe, size).
(** The fields of a recipe but for [previous_voucher]. *)
Definition write_recipe (buffer : list Z) (offset key command content_size : Z) : outcome (list Z) :=
  let! buffer := write_at buffer offset (le_bytes 4 key ++ le_bytes 4 command) in
  write_at buffer (offset + 12) (le_bytes 4 content_size).
Fixpoint extract_rounds (keys : list Z) (a : Z) (recipes : list Z) (recipe_used : Z) : M (vst MS) (kern_return_t * list Z * Z) :=
  match keys with
  | [] => ret (KERN_SUCCESS, recipes, recipe_used)
  | key_index :: keys =>
    let* value_index := lookup_at a key_index in
    if IV_UNUSED_VALINDEX =? value_index then extract_rounds keys a recipes recipe_used
    else if alen recipes - recipe_used <? recipe_struct_size true then ret (KERN_NO_SPACE, recipes, alen recipes)
    else
      let* (manager, _) := ivgt_lookup key_index false in
      massert (negb (manager =? IVAM_NULL)) "IVAM_NULL != manager" ;;*
      if manager =? IVAM_NULL then extract_rounds keys a recipes recipe_used
      else
        let content_size := alen recipes - recipe_used - recipe_struct_size true in
        let* vals := ivace_lookup_values key_index value_index in
        massert (0 <? alen vals) "0 < vals_count" ;;*
        let* key := iv_index_to_key key_index in
        let* recipes := lift (write_recipe recipes recipe_used key MACH_VOUCHER_ATTR_NOOP content_size) in
        let* r := in_manager (ivam_extract_content manager key vals content_size) in
        if bool_decide (ex_kr r <> KERN_SUCCESS) then ret (ex_kr r, recipes, alen recipes)
        else
          let* recipes := lift (write_at recipes (recipe_used + recipe_struct_size true) (ex_content r)) in
          let* recipes := lift (write_recipe recipes recipe_used key (ex_command r) (alen (ex_content r))) in
          massert (alen (ex_content r) <=? content_size) "recipe->content_size <= content_size" ;;*
          extract_rounds keys a recipes (recipe_used + recipe_struct_size true + alen (ex_content r))
  end.
Definition mach_voucher_extract_all_attr_recipes (a : Z) (recipes : list Z) : M (vst MS) (kern_return_t * list Z * Z) :=
  if a =? IV_NULL then ret (KERN_INVALID_ARGUMENT, recipes, alen recipes)
  else let* iv := get_voucher a in extract_rounds (seqZ 0 (iv_table_size iv)) a recipes 0.
Definition mach_voucher_attr_command (a key command : Z) (in_content : list Z) (out_size : Z) : M (vst MS) (kern_return_t * list Z) :=
  if a =? IV_NULL then ret (KERN_INVALID_ARGUMENT, [])
  else
    let key_index := iv_key_to_index key in
    let* (manager, control) := ivgt_lookup key_index true in
    if manager =? IVAM_NULL then ret (KERN_INVALID_ARGUMENT, [])
    else
      let* value_index := lookup_at a key_index in
      let* vals := ivace_lookup_values key_index value_index in
      let* (kr, out) := in_manager (ivam_command manager key vals command in_content out_size) in
      ivac_release control ;;*
      ret (kr, out).
Definition mach_voucher_attr_control_get_values (control a in_size : Z) : M (vst MS) (kern_return_t * list Z) :=
  if control =? IVAC_NULL then ret (KERN_INVALID_CAPABILITY, [])
  else if a =? IV_NULL then ret (KERN_INVALID_ARGUMENT, [])
  else if in_size =? 0 then ret (KERN_SUCCESS, [])
  else
    let* c := in_control control (gets id) in
    let* iv := get_voucher a in
    massert (0 <? iv_refs iv) "os_ref_get_count(&voucher->iv_refs) > 0" ;;*
    let* vals := ivace_lookup_values (ivac_key_index c) (iv_lookup iv (ivac_key_index c)) in
    ret (KERN_SUCCESS, vals).

(** A recipe that copies every attribute and runs [command] on those whose manager has one of
    the flags; whether there is one. *)
Fixpoint processing_rounds (keys : list Z) (a size command flags : Z) (recipes : list Z) (need : bool)
    : M (vst MS) (kern_return_t * list Z * bool) :=
  match keys with
  | [] => ret (KERN_SUCCESS, recipes, need)
  | key_index :: keys =>
    let* value_index := lookup_at a key_index in
    if IV_UNUSED_VALINDEX =? value_index then processing_rounds keys a size command flags recipes need
    else if size - alen recipes <? recipe_struct_size false then ret (KERN_NO_SPACE, recipes, need)
    else
      let* (manager, _) := ivgt_lookup key_index false in
      massert (negb (manager =? IVAM_NULL)) "IVAM_NULL != manager" ;;*
      if manager =? IVAM_NULL then processing_rounds keys a size command flags recipes need
      else if Z.land (ivam_flags manager) flags =? 0 then processing_rounds keys a size command flags recipes need
      else
        let* key := iv_index_to_key key_index in
        processing_rounds keys a size command flags (recipes ++ recipe_bytes false (mk_recipe key command a 0)) true
  end.
Definition ipc_voucher_prepare_processing_recipe (a size command flags : Z) : M (vst MS) (kern_return_t * list Z * bool) :=
  if a =? IV_NULL then ret (KERN_INVALID_ARGUMENT, [], false)
  else if size <? recipe_struct_size false then ret (KERN_NO_SPACE, [], false)
  else
    let* iv := get_voucher a in
    processing_rounds (seqZ 0 (iv_table_size iv)) a size command flags
      (recipe_bytes false (mk_recipe MACH_VOUCHER_ATTR_KEY_ALL MACH_VOUCHER_ATTR_COPY a 0)) false.
End operations.
