(* ===== verification/VoucherSpec.v ===== *)
(** * The value cache refines a finite map

    The chains and the free list of a control represent a finite map from indices to values with
    their counts, in which no value occurs twice; what each section does to that map. *)

From S2P Require Import Prelude MachPort OsRefcnt VoucherCache.

(** ** Representation *)

(** What an index in use stands for. *)
Record slot := mk_slot { sl_value : Z; sl_releasing : bool; sl_persist : bool; sl_refs : Z; sl_made : Z }.
Abbreviation slots := (gmap Z slot).
Definition slot_of (e : ivac_entry) : slot :=
  mk_slot (ivace_value e) (ivace_releasing e) (ivace_persist e) (ivace_refs e) (ivace_made e).
Definition set_sl_refs (n : Z) (s : slot) : slot := mk_slot (sl_value s) (sl_releasing s) (sl_persist s) n (sl_made s).
Definition set_sl_made (n : Z) (s : slot) : slot := mk_slot (sl_value s) (sl_releasing s) (sl_persist s) (sl_refs s) n.
Definition set_sl_releasing (b : bool) (s : slot) : slot := mk_slot (sl_value s) b (sl_persist s) (sl_refs s) (sl_made s).

(** The entries from [start] to [stop] along [ivace_next]. *)
Fixpoint path (t : list ivac_entry) (start : Z) (l : list Z) (stop : Z) : Prop :=
  match l with
  | [] => start = stop
  | i :: l => start = i /\ path t (ivace_next (anth t i)) l stop
  end.

Definition in_use (t : list ivac_entry) (i : Z) : Prop := 0 <= i < alen t /\ ivace_free (anth t i) = false.
(** A table with chains [ch] from its first [n] entries and the free list [fl] from [f]. *)
Record table_wf (t : list ivac_entry) (n f : Z) (ch : Z -> list Z) (fl : list Z) : Prop := {
  cw_size : 0 < n <= alen t /\ alen t < IV_HASH_END;
  cw_chain h : 0 <= h < n -> path t (ivace_index (anth t h)) (ch h) IV_HASH_END;
  cw_freelist : path t f fl IV_FREELIST_END;
  cw_chain_nodup h : NoDup (ch h);
  cw_free_nodup : NoDup fl;
  cw_in_chain h i : i ∈ ch h <-> in_use t i /\ IV_HASH_VAL n (ivace_value (anth t i)) = h;
  cw_in_free i : i ∈ fl <-> 0 <= i < alen t /\ ivace_free (anth t i) = true;
  cw_default : in_use t IV_UNUSED_VALINDEX;
  cw_values i j : in_use t i -> in_use t j -> ivace_value (anth t i) = ivace_value (anth t j) -> i = j;
  cw_quiet i : 0 <= i < alen t -> ivace_free (anth t i) = true -> ivace_releasing (anth t i) = false;
}.
Definition cache_wf (c : ivac) : Prop := exists ch fl, table_wf (ivac_table c) (ivac_init_table_size c) (ivac_freelist c) ch fl.
(** The map of the entries in use. *)
Definition cache_map (t : list ivac_entry) (m : slots) : Prop :=
  forall i s, m !! i = Some s <-> in_use t i /\ s = slot_of (anth t i).
Definition cache_rep (c : ivac) (m : slots) : Prop := cache_wf c /\ cache_map (ivac_table c) m.

(** The fields that do not belong to the table. *)
Definition same_control (c c' : ivac) : Prop :=
  ivac_refs c' = ivac_refs c /\ ivac_is_growing c' = ivac_is_growing c /\ ivac_init_table_size c' = ivac_init_table_size c /\
  ivac_port c' = ivac_port c /\ ivac_key_index c' = ivac_key_index c /\ alen (ivac_table c') = alen (ivac_table c).
Ltac same := repeat split; simpl; rewrite ?alen_aset; done.

(** ** Paths *)
Lemma path_ext t t' s l stop : (forall i, i ∈ l -> ivace_next (anth t' i) = ivace_next (anth t i)) -> path t s l stop -> path t' s l stop.
Proof.
  revert s. induction l as [|i l IH]; intros s Hn; [done|]. intros [-> Hp]. split; [done|].
  rewrite Hn by left. apply IH; [|done]. intros j Hj. apply Hn. by right.
Qed.
Lemma path_app t s l1 l2 stop : path t s (l1 ++ l2) stop <-> exists mid, path t s l1 mid /\ path t mid l2 stop.
Proof.
  revert s. induction l1 as [|i l1 IH]; intros s; simpl.
  - split; [by exists s|by intros (mid&->&?)].
  - rewrite IH. naive_solver.
Qed.
Lemma path_start t s l stop : path t s l stop -> s = hd stop l.
Proof. destruct l; [done|by intros [-> _]]. Qed.
Lemma range_length (n : Z) (l : list Z) : NoDup l -> (forall i, i ∈ l -> 0 <= i < n) -> Z.of_nat (length l) <= Z.max 0 n.
Proof.
  intros Hnd Hr.
  assert (length l <= length (seqZ 0 n))%nat as Hl; [|rewrite length_seqZ in Hl; lia].
  apply submseteq_length, NoDup_submseteq; [done|]. intros i Hi. apply elem_of_seqZ. specialize (Hr i Hi). lia.
Qed.

Section cache.
Context `{KernelConfig}.
Implicit Types (c : ivac) (m : slots).

(** ** Reading and writing entries *)
Lemma wp_ivace_lookup c i Q : 0 <= i < alen (ivac_table c) -> Q (anth (ivac_table c) i) c -> wp (ivace_lookup i) Q c.
Proof.
  intros Hi HQ. apply wp_bind, wp_gets. unfold ivac_table_size, id.
  destruct (Z.leb_spec (alen (ivac_table c)) i); [lia|]. apply (wp_lift _ (anth (ivac_table c) i)); [by apply aget_in|done].
Qed.
Lemma wp_ivace_put c i e Q : Q tt (set_ivac_table (aset (ivac_table c) i e) c) -> wp (ivace_put i e) Q c.
Proof. apply wp_modify. Qed.
Lemma wp_ivace_mod c i f Q : 0 <= i < alen (ivac_table c) ->
  Q tt (set_ivac_table (aset (ivac_table c) i (f (anth (ivac_table c) i))) c) -> wp (ivace_mod i f) Q c.
Proof. intros Hi HQ. by apply wp_bind, wp_ivace_lookup; [|apply wp_ivace_put]. Qed.

Lemma hash_range t n f ch fl v : table_wf t n f ch fl -> 0 <= IV_HASH_VAL n v < n.
Proof. intros Hwf. destruct (cw_size _ _ _ _ _ Hwf). apply Z.mod_pos_bound. lia. Qed.

(** Only links, heads, values and what is free matter to the structure. *)
Lemma wf_ext t t' n f ch fl :
  table_wf t n f ch fl -> alen t' = alen t ->
  (forall j, 0 <= j < alen t -> let e := anth t j in let e' := anth t' j in
     ivace_free e' = ivace_free e /\ ivace_next e' = ivace_next e /\ ivace_index e' = ivace_index e /\
     ivace_value e' = ivace_value e /\ (ivace_free e = true -> ivace_releasing e' = false)) ->
  table_wf t' n f ch fl.
Proof.
  intros Hwf Hlen He. destruct (cw_size _ _ _ _ _ Hwf) as [Hn Hmax].
  assert (forall i, in_use t' i <-> in_use t i) as Huse.
  { intros i. unfold in_use. rewrite Hlen. split; intros [Hi Hf]; (split; [done|]); destruct (He i Hi) as [E _]; congruence. }
  split.
  - by rewrite Hlen.
  - intros h Hh. destruct (He h) as (_&_&->&_); [lia|]. apply (path_ext t); [|by apply (cw_chain _ _ _ _ _ Hwf)].
    intros i [[Hi _] _]%(cw_in_chain _ _ _ _ _ Hwf). by apply He.
  - apply (path_ext t); [|apply (cw_freelist _ _ _ _ _ Hwf)]. intros i [Hi _]%(cw_in_free _ _ _ _ _ Hwf). by apply He.
  - apply (cw_chain_nodup _ _ _ _ _ Hwf).
  - apply (cw_free_nodup _ _ _ _ _ Hwf).
  - intros h i. rewrite (cw_in_chain _ _ _ _ _ Hwf), Huse. split; intros [Hi Hv]; (split; [done|]);
      destruct Hi as [Hr _]; destruct (He i Hr) as (_&_&_&E&_); congruence.
  - intros i. rewrite (cw_in_free _ _ _ _ _ Hwf), Hlen. split; intros [Hi Hv]; (split; [done|]); destruct (He i Hi) as (E&_); congruence.
  - apply Huse, (cw_default _ _ _ _ _ Hwf).
  - intros i j Hi%Huse Hj%Huse Hv. apply (cw_values _ _ _ _ _ Hwf); [done|done|].
    destruct (He i (proj1 Hi)) as (_&_&_&E&_), (He j (proj1 Hj)) as (_&_&_&E'&_). congruence.
  - intros i Hi Hf. rewrite Hlen in Hi. destruct (He i Hi) as (E&_&_&_&Hq). apply Hq. congruence.
Qed.
(** Counts and flags of an entry in use may change. *)
Lemma wf_update t n f ch fl i e :
  table_wf t n f ch fl -> in_use t i -> let o := anth t i in
  ivace_value e = ivace_value o -> ivace_free e = false -> ivace_next e = ivace_next o -> ivace_index e = ivace_index o ->
  table_wf (aset t i e) n f ch fl.
Proof.
  intros Hwf [Hi Hf] o Hv Hfree Hn Hx. apply (wf_ext t); [done|apply alen_aset|]. intros j Hj. simpl.
  rewrite anth_aset by lia. destruct (Z.eqb_spec i j) as [<-|].
  - split_and!; [congruence|done|done|done|congruence].
  - split_and!; try done. by apply (cw_quiet _ _ _ _ _ Hwf).
Qed.
Lemma map_update t m i e : cache_map t m -> in_use t i -> ivace_free e = false ->
  cache_map (aset t i e) (<[i := slot_of e]> m).
Proof.
  intros Hm [Hi Hf] He j s. unfold in_use. rewrite alen_aset, lookup_insert_Some. split.
  - intros [[<- <-]|[Hne [[Hj Hjf] ->]%Hm]].
    + by rewrite anth_aset_eq.
    + by rewrite anth_aset_ne by lia.
  - intros [[Hj Hjf] ->]. destruct (decide (i = j)) as [<-|Hne]; [left; by rewrite anth_aset_eq|right].
    rewrite anth_aset_ne in * by lia. split; [done|]. by apply Hm.
Qed.
Lemma rep_update c m i e :
  cache_rep c m -> in_use (ivac_table c) i -> let o := anth (ivac_table c) i in
  ivace_value e = ivace_value o -> ivace_free e = false -> ivace_next e = ivace_next o -> ivace_index e = ivace_index o ->
  cache_rep (set_ivac_table (aset (ivac_table c) i e) c) (<[i := slot_of e]> m).
Proof.
  intros [(ch&fl&Hwf) Hm] Hi o ????. split; [exists ch, fl; by apply wf_update|by apply map_update].
Qed.
Lemma rep_lookup c m i s : cache_rep c m -> m !! i = Some s -> in_use (ivac_table c) i /\ s = slot_of (anth (ivac_table c) i).
Proof. by intros [_ Hm] Hi%Hm. Qed.
(** Entries of the map may be read. *)
Lemma wp_rep_lookup c m i s Q : cache_rep c m -> m !! i = Some s ->
  (forall e, e = anth (ivac_table c) i -> in_use (ivac_table c) i -> ivace_free e = false -> s = slot_of e -> Q e c) -> wp (ivace_lookup i) Q c.
Proof.
  intros Hr Hi HQ. destruct (rep_lookup c m i s Hr Hi) as [[Hu Hf] ->]. apply wp_ivace_lookup; [done|]. by apply HQ.
Qed.

(** ** Looking a value up *)
Lemma find_ok c n f ch fl v fuel s l h :
  table_wf (ivac_table c) n f ch fl -> path (ivac_table c) s l IV_HASH_END -> (forall i, i ∈ l -> i ∈ ch h) -> NoDup l ->
  (length l < fuel)%nat ->
  wp (ivace_find fuel s v)
     (fun r c' => c' = c /\ match r with
        | Some i => i ∈ l /\ ivace_value (anth (ivac_table c) i) = v
        | None => forall i, i ∈ l -> ivace_value (anth (ivac_table c) i) <> v
        end) c.
Proof.
  intros Hwf. revert s l. induction fuel as [|fuel IH]; intros s l Hp Hin Hnd Hl; [lia|]. simpl.
  destruct (Z.eqb_spec s IV_HASH_END) as [->|Hs].
  { apply wp_ret. split; [done|]. destruct l as [|i l]; [intros ? []%elem_of_nil|]. destruct Hp as [<- _].
    destruct (cw_size _ _ _ _ _ Hwf) as [_ Hmax].
    destruct (proj1 (cw_in_chain _ _ _ _ _ Hwf h IV_HASH_END) (Hin _ ltac:(left))) as [[? _] _]. lia. }
  destruct l as [|i l]; [done|]. destruct Hp as [-> Hp]. apply NoDup_cons in Hnd as [Hni Hnd].
  destruct (proj1 (cw_in_chain _ _ _ _ _ Hwf h i) (Hin _ ltac:(left))) as [[Hi Hf] _].
  apply wp_bind, wp_ivace_lookup; [done|]. apply wp_bind, wp_massert; [by rewrite Hf|].
  destruct (Z.eqb_spec (ivace_value (anth (ivac_table c) i)) v) as [Hv|Hv].
  { apply wp_ret. split; [done|]. split; [left|done]. }
  apply wp_bind, wp_massert.
  - apply negb_true_iff, Z.eqb_neq. rewrite (path_start _ _ _ _ Hp). destruct l as [|j l]; simpl; [done|].
    intros ->. apply Hni. left.
  - eapply wp_mono; [apply (IH _ l); [done|intros j Hj; apply Hin; by right|done|simpl in Hl; lia]|].
    intros r c' [-> Hr]. split; [done|]. destruct r as [j|].
    + destruct Hr. split; [by right|done].
    + intros j [->|Hj]%elem_of_cons; [done|by apply Hr].
Qed.
Lemma chain_length t n f ch fl h : table_wf t n f ch fl -> (length (ch h) <= length t)%nat.
Proof.
  intros Hwf. pose proof (range_length (alen t) (ch h) (cw_chain_nodup _ _ _ _ _ Hwf h)) as Hl.
  unfold alen in *. destruct (cw_size _ _ _ _ _ Hwf). lapply Hl; [lia|]. intros i [[? _] _]%(cw_in_chain _ _ _ _ _ Hwf). unfold alen in *. lia.
Qed.
(** The chain of a value is searched to its end. *)
Lemma wp_find_value c n f ch fl v :
  table_wf (ivac_table c) n f ch fl -> let h := IV_HASH_VAL n v in
  wp (ivace_find (S (length (ivac_table c))) (ivace_index (anth (ivac_table c) h)) v)
     (fun r c' => c' = c /\ match r with
        | Some i => in_use (ivac_table c) i /\ ivace_value (anth (ivac_table c) i) = v
        | None => forall i, in_use (ivac_table c) i -> ivace_value (anth (ivac_table c) i) <> v
        end) c.
Proof.
  intros Hwf h. pose proof (hash_range _ _ _ _ _ v Hwf) as Hh. pose proof (chain_length _ _ _ _ _ h Hwf).
  eapply wp_mono; [apply (find_ok c n f ch fl v _ _ (ch h) h Hwf)|].
  - by apply (cw_chain _ _ _ _ _ Hwf).
  - done.
  - apply (cw_chain_nodup _ _ _ _ _ Hwf).
  - lia.
  - intros r c' [-> Hr]. split; [done|]. destruct r as [i|].
    + destruct Hr as [Hi%(cw_in_chain _ _ _ _ _ Hwf) Hv]. naive_solver.
    + intros i Hi Hv. apply (Hr i); [|done]. apply (cw_in_chain _ _ _ _ _ Hwf). by rewrite Hv.
Qed.

(** ** Taking an entry off the free list and hashing it *)
Definition rechain (h : Z) (l : list Z) (ch : Z -> list Z) (h' : Z) : list Z := if h =? h' then l else ch h'.

Section insertion.
Context (t : list ivac_entry) (n f : Z) (ch : Z -> list Z) (i : Z) (fl : list Z) (v : Z) (persist : bool) (refs made : Z).
Context (Hwf : table_wf t n f ch (i :: fl)) (Hnew : forall j, in_use t j -> ivace_value (anth t j) <> v).
Let h : Z := IV_HASH_VAL n v.
Let t1 : list ivac_entry :=
  aset t i (mk_ivace v (ivace_releasing (anth t i)) false persist refs made (ivace_index (anth t h)) (ivace_index (anth t i))).
Let t2 : list ivac_entry := aset t1 h (set_ivace_index i (anth t1 h)).

Lemma insert_index : 0 <= i < alen t /\ ivace_free (anth t i) = true /\ 0 <= h < alen t /\ 0 <= h < n.
Proof using Hwf.
  pose proof (hash_range _ _ _ _ _ v Hwf) as Hh. fold h in Hh. destruct (cw_size _ _ _ _ _ Hwf) as [Hn _].
  destruct (proj1 (cw_in_free _ _ _ _ _ Hwf i) ltac:(left)) as [Hi Hf]. do 2 (split; [done|]). lia.
Qed.
Lemma insert_len : alen t2 = alen t.
Proof using. unfold t2, t1. by rewrite !alen_aset. Qed.
Lemma insert_view j : 0 <= j < alen t -> let e := anth t j in let e' := anth t2 j in
  ivace_index e' = (if h =? j then i else ivace_index e) /\
  ivace_free e' = (if i =? j then false else ivace_free e) /\ ivace_value e' = (if i =? j then v else ivace_value e) /\
  ivace_next e' = (if i =? j then ivace_index (anth t h) else ivace_next e) /\ ivace_releasing e' = ivace_releasing e.
Proof using Hwf.
  intros Hj. destruct insert_index as (Hi&_&Hh&_). simpl. unfold t2, t1. rewrite !anth_aset by (rewrite ?alen_aset; lia).
  destruct (Z.eqb_spec h j) as [E1|], (Z.eqb_spec i h) as [E2|], (Z.eqb_spec i j) as [E3|]; try lia; rewrite ?E3, ?E1; try done; rewrite ?E2; done.
Qed.
Lemma insert_use j : in_use t2 j <-> j = i \/ in_use t j.
Proof using Hwf.
  destruct insert_index as (Hi&_). unfold in_use. rewrite insert_len. split.
  - intros [Hj Hf]. destruct (insert_view j Hj) as (_&E&_). destruct (Z.eqb_spec i j); [by left|right]. split; [done|congruence].
  - intros [->|[Hj Hf]]; (split; [done|]).
    + destruct (insert_view i Hi) as (_&->&_). by rewrite Z.eqb_refl.
    + destruct (insert_view j Hj) as (_&->&_). by destruct (i =? j).
Qed.
Lemma insert_value j : j = i \/ in_use t j -> ivace_value (anth t2 j) = if i =? j then v else ivace_value (anth t j).
Proof using Hwf.
  destruct insert_index as (Hi&_). intros Hj. assert (0 <= j < alen t) as Hr by (by destruct Hj as [->|[? _]]).
  by destruct (insert_view j Hr) as (_&_&->&_).
Qed.
Lemma insert_fresh h' : i ∉ ch h'.
Proof using Hwf h. destruct insert_index as (_&?&_). intros [[_ Hf] _]%(cw_in_chain _ _ _ _ _ Hwf). congruence. Qed.
Lemma insert_chain h' : 0 <= h' < n -> path t2 (ivace_index (anth t2 h')) (rechain h (i :: ch h) ch h') IV_HASH_END.
Proof using Hwf.
  intros Hh'. destruct insert_index as (Hi&_). destruct (cw_size _ _ _ _ _ Hwf) as [Hn _].
  destruct (insert_view h') as (->&_); [lia|]. unfold rechain.
  assert (path t2 (ivace_index (anth t h')) (ch h') IV_HASH_END) as Hp.
  { apply (path_ext t); [|by apply (cw_chain _ _ _ _ _ Hwf)]. intros j Hj. pose proof (insert_fresh h').
    assert (i <> j) by congruence. apply (cw_in_chain _ _ _ _ _ Hwf) in Hj as [[Hj _] _].
    destruct (insert_view j Hj) as (_&_&_&->&_). by rewrite (proj2 (Z.eqb_neq _ _)). }
  destruct (Z.eqb_spec h h') as [E|Hne]; [|done]. split; [done|].
  destruct (insert_view i Hi) as (_&_&_&->&_). rewrite Z.eqb_refl. by rewrite E.
Qed.
Lemma insert_in_chain h' j : j ∈ rechain h (i :: ch h) ch h' <-> in_use t2 j /\ IV_HASH_VAL n (ivace_value (anth t2 j)) = h'.
Proof using Hwf.
  assert (j ∈ rechain h (i :: ch h) ch h' <-> (j = i /\ h = h') \/ j ∈ ch h') as ->.
  { unfold rechain. destruct (Z.eqb_spec h h') as [->|]; [rewrite elem_of_cons|]; naive_solver. }
  rewrite insert_use, (cw_in_chain _ _ _ _ _ Hwf). split.
  - intros [[-> Hh]|[Hj Hv]].
    + split; [by left|]. rewrite insert_value by (by left). by rewrite Z.eqb_refl.
    + split; [by right|]. rewrite insert_value by (by right). destruct (Z.eqb_spec i j) as [<-|]; [|done].
      destruct insert_index as (_&Hf&_). destruct Hj. congruence.
  - intros [Hj Hv]. rewrite insert_value in Hv by done. destruct (Z.eqb_spec i j) as [<-|]; [by left|].
    destruct Hj as [?|Hj]; [done|by right].
Qed.
Lemma insert_values j k : in_use t2 j -> in_use t2 k -> ivace_value (anth t2 j) = ivace_value (anth t2 k) -> j = k.
Proof using Hwf Hnew.
  intros Hj%insert_use Hk%insert_use Hv. rewrite !insert_value in Hv by done.
  destruct (Z.eqb_spec i j) as [<-|], (Z.eqb_spec i k) as [<-|]; [done| | |].
  - destruct Hk as [?|Hk]; [done|]. by destruct (Hnew k Hk).
  - destruct Hj as [?|Hj]; [done|]. by destruct (Hnew j Hj).
  - destruct Hj as [?|Hj], Hk as [?|Hk]; [congruence..|]. by apply (cw_values _ _ _ _ _ Hwf).
Qed.
Lemma insert_in_free j : j ∈ fl <-> 0 <= j < alen t2 /\ ivace_free (anth t2 j) = true.
Proof using Hwf.
  rewrite insert_len. pose proof (cw_free_nodup _ _ _ _ _ Hwf) as [Hni _]%NoDup_cons. split.
  - intros Hj. assert (i <> j) by congruence. destruct (proj1 (cw_in_free _ _ _ _ _ Hwf j) ltac:(by right)) as [Hr Hf].
    split; [done|]. destruct (insert_view j Hr) as (_&->&_). by rewrite (proj2 (Z.eqb_neq _ _)).
  - intros [Hj Hf]. destruct (insert_view j Hj) as (_&E&_). rewrite E in Hf. destruct (Z.eqb_spec i j); [done|].
    assert (j ∈ i :: fl) as [?|?]%elem_of_cons by (by apply (cw_in_free _ _ _ _ _ Hwf)); [congruence|done].
Qed.
Lemma wf_insert : table_wf t2 n (ivace_next (anth t i)) (rechain h (i :: ch h) ch) fl.
Proof using Hwf Hnew.
  pose proof (cw_free_nodup _ _ _ _ _ Hwf) as [Hni Hnd]%NoDup_cons. split.
  - rewrite insert_len. apply (cw_size _ _ _ _ _ Hwf).
  - apply insert_chain.
  - pose proof (cw_freelist _ _ _ _ _ Hwf) as [_ Hp]. apply (path_ext t); [|done]. intros j Hj.
    assert (i <> j) by congruence. destruct (proj1 (cw_in_free _ _ _ _ _ Hwf j) ltac:(by right)) as [Hr _].
    destruct (insert_view j Hr) as (_&_&_&->&_). by rewrite (proj2 (Z.eqb_neq _ _)).
  - intros h'. unfold rechain. pose proof (cw_chain_nodup _ _ _ _ _ Hwf) as Hc. destruct (h =? h'); [|done].
    apply NoDup_cons. split; [apply insert_fresh|done].
  - done.
  - apply insert_in_chain.
  - apply insert_in_free.
  - apply insert_use. right. apply (cw_default _ _ _ _ _ Hwf).
  - apply insert_values.
  - intros j Hj Hf. rewrite insert_len in Hj. destruct (insert_view j Hj) as (_&E&_&_&->). rewrite E in Hf.
    destruct (Z.eqb_spec i j); [done|]. by apply (cw_quiet _ _ _ _ _ Hwf).
Qed.
Lemma map_insert_entry m : cache_map t m -> cache_map t2 (<[i := mk_slot v false persist refs made]> m).
Proof using Hwf.
  intros Hm j s. destruct insert_index as (Hi&Hf&Hh&_). rewrite lookup_insert_Some, insert_use.
  assert (forall j, 0 <= j < alen t -> slot_of (anth t2 j) = if i =? j then mk_slot v false persist refs made else slot_of (anth t j)) as Hs.
  { intros k Hk. unfold t2, t1. rewrite !anth_aset by (rewrite ?alen_aset; lia). unfold slot_of.
    pose proof (cw_quiet _ _ _ _ _ Hwf i Hi Hf) as Hq. rewrite Hq.
    destruct (Z.eqb_spec h k) as [E1|], (Z.eqb_spec i h) as [E2|], (Z.eqb_spec i k) as [E3|]; try lia; rewrite <- ?E1; done. }
  split.
  - intros [[<- <-]|[Hne [Hj ->]%Hm]].
    + split; [by left|]. rewrite Hs by done. by rewrite Z.eqb_refl.
    + split; [by right|]. rewrite Hs by apply Hj. by rewrite (proj2 (Z.eqb_neq _ _)).
  - intros [Hj ->]. assert (0 <= j < alen t) as Hr by (by destruct Hj as [->|[? _]]). rewrite Hs by done.
    destruct (Z.eqb_spec i j) as [<-|]; [by left|right]. split; [done|]. destruct Hj as [?|Hj]; [done|]. by apply Hm.
Qed.
End insertion.

(** ** Taking an entry off its chain and putting it on the free list *)
Section removal.
Context (t t2 : list ivac_entry) (n f : Z) (ch : Z -> list Z) (fl : list Z) (i : Z) (l1 l2 : list Z).
Let h : Z := IV_HASH_VAL n (ivace_value (anth t i)).
Context (Hwf : table_wf t n f ch fl) (Hch : ch h = l1 ++ i :: l2) (Hi0 : i <> IV_UNUSED_VALINDEX) (Hlen : alen t2 = alen t).
Context (Hview : forall j, 0 <= j < alen t -> let e := anth t j in let e' := anth t2 j in
  ivace_index e' = (if (h =? j) && bool_decide (l1 = []) then ivace_next (anth t i) else ivace_index e) /\
  ivace_next e' = (if i =? j then f else if bool_decide (last l1 = Some j) then ivace_next (anth t i) else ivace_next e) /\
  ivace_free e' = (if i =? j then true else ivace_free e) /\
  ivace_releasing e' = (if i =? j then false else ivace_releasing e) /\
  (i <> j -> ivace_value e' = ivace_value e)).

Lemma removed_in_use : in_use t i.
Proof using Hwf Hch. apply (cw_in_chain _ _ _ _ _ Hwf h). rewrite Hch. apply elem_of_app. right. left. Qed.
Lemma remove_use j : in_use t2 j <-> j <> i /\ in_use t j.
Proof using Hwf Hch Hlen Hview.
  unfold in_use. rewrite Hlen. split.
  - intros [Hj Hf]. destruct (Hview j Hj) as (_&_&E&_). destruct (Z.eqb_spec i j); [congruence|]. split; [done|]. split; [done|congruence].
  - intros (Hne&Hj&Hf). split; [done|]. destruct (Hview j Hj) as (_&_&->&_). by rewrite (proj2 (Z.eqb_neq i j)).
Qed.
Lemma chain_split : NoDup l1 /\ NoDup l2 /\ (i ∉ l1) /\ (i ∉ l2) /\ (forall j, j ∈ l1 -> j ∉ l2).
Proof using Hwf Hch.
  pose proof (cw_chain_nodup _ _ _ _ _ Hwf h) as Hnd. rewrite Hch in Hnd.
  apply NoDup_app in Hnd as (H1&Hd&[Hi H2]%NoDup_cons). split_and!; [done|done| |done|].
  - intros Hx. apply (Hd i Hx). left.
  - intros j Hj Hj2. apply (Hd j Hj). by right.
Qed.
Lemma chain_range j : j ∈ l1 ++ i :: l2 -> 0 <= j < alen t.
Proof using Hwf Hch. rewrite <- Hch. by intros [[? _] _]%(cw_in_chain _ _ _ _ _ Hwf). Qed.
(** Entries other than the last of [l1] keep their link. *)
Lemma remove_next j : 0 <= j < alen t -> j <> i -> last l1 <> Some j -> ivace_next (anth t2 j) = ivace_next (anth t j).
Proof using Hview.
  intros Hj Hne Hl. destruct (Hview j Hj) as (_&->&_). rewrite (proj2 (Z.eqb_neq i j)) by done. by rewrite bool_decide_false.
Qed.
Lemma remove_path : path t2 (ivace_index (anth t2 h)) (l1 ++ l2) IV_HASH_END.
Proof using Hwf Hch Hi0 Hview.
  pose proof (hash_range _ _ _ _ _ (ivace_value (anth t i)) Hwf) as Hh. fold h in Hh.
  destruct (cw_size _ _ _ _ _ Hwf) as [Hn _]. destruct chain_split as (Hn1&Hn2&Hi1&Hi2&Hd).
  pose proof (cw_chain _ _ _ _ _ Hwf h Hh) as Hp. rewrite Hch in Hp. apply path_app in Hp as (mid&Hp1&->&Hp2).
  assert (path t2 (ivace_next (anth t i)) l2 IV_HASH_END) as Hq.
  { apply (path_ext t); [|done]. intros j Hj. apply remove_next; [apply chain_range, elem_of_app; right; by right|congruence|].
    intros Hl%last_Some_elem_of. by apply (Hd j). }
  destruct (Hview h) as (->&_); [lia|]. rewrite Z.eqb_refl. simpl.
  destruct (decide (l1 = [])) as [E0|Hne]; [by rewrite bool_decide_true, E0|]. rewrite bool_decide_false by done.
  apply path_app. exists (ivace_next (anth t i)). split; [|done].
  destruct (exists_last Hne) as (l0&b&El). rewrite El in Hp1 |- *. apply path_app in Hp1 as (mid&Hp0&->&_).
  assert (forall j, j ∈ l0 -> j ∈ l1 /\ j <> b) as Hl0.
  { intros j Hj. rewrite El in Hn1 |- *. apply NoDup_app in Hn1 as (_&Hx&_). split; [apply elem_of_app; by left|].
    intros ->. apply (Hx b Hj). left. }
  apply path_app. exists b. split.
  - apply (path_ext t); [|done]. intros j [Hj Hb]%Hl0. apply remove_next; [apply chain_range, elem_of_app; by left|congruence|].
    rewrite El, last_snoc. congruence.
  - assert (b ∈ l1) as Hb by (rewrite El; apply elem_of_app; right; left).
    split; [done|]. destruct (Hview b) as (_&->&_); [apply chain_range, elem_of_app; by left|].
    rewrite El, last_snoc, bool_decide_true by done. by destruct (Z.eqb_spec i b) as [->|].
Qed.
Lemma remove_in_chain h' j : j ∈ rechain h (l1 ++ l2) ch h' <-> in_use t2 j /\ IV_HASH_VAL n (ivace_value (anth t2 j)) = h'.
Proof using Hwf Hch Hlen Hview.
  destruct chain_split as (_&_&Hi1&Hi2&_).
  assert (j ∈ rechain h (l1 ++ l2) ch h' <-> j <> i /\ j ∈ ch h') as ->.
  { unfold rechain. destruct (Z.eqb_spec h h') as [<-|Hne].
    - rewrite Hch, !elem_of_app, elem_of_cons. naive_solver.
    - split; [|naive_solver]. intros Hj. split; [|done]. intros ->. apply (cw_in_chain _ _ _ _ _ Hwf) in Hj as [_ E]. by apply Hne. }
  rewrite remove_use, (cw_in_chain _ _ _ _ _ Hwf). split.
  - intros (Hne&Hj&Hv). split; [done|]. destruct (Hview j (proj1 Hj)) as (_&_&_&_&->); [done|congruence].
  - intros [[Hne Hj] Hv]. split; [done|]. split; [done|]. destruct (Hview j (proj1 Hj)) as (_&_&_&_&E). rewrite E in Hv; [done|congruence].
Qed.
Lemma wf_remove : table_wf t2 n i (rechain h (l1 ++ l2) ch) (i :: fl).
Proof using Hwf Hch Hi0 Hlen Hview.
  destruct removed_in_use as [Hi Hf]. destruct chain_split as (Hn1&Hn2&Hi1&Hi2&Hd).
  assert (i ∉ fl) as Hifl by (intros [_ ?]%(cw_in_free _ _ _ _ _ Hwf); congruence).
  split.
  - rewrite Hlen. apply (cw_size _ _ _ _ _ Hwf).
  - intros h' Hh'. unfold rechain. destruct (Z.eqb_spec h h') as [<-|Hne]; [apply remove_path|].
    destruct (cw_size _ _ _ _ _ Hwf) as [Hn _]. destruct (Hview h') as (->&_); [lia|]. rewrite (proj2 (Z.eqb_neq h h')) by done. simpl.
    apply (path_ext t); [|by apply (cw_chain _ _ _ _ _ Hwf)]. intros j Hj.
    apply (cw_in_chain _ _ _ _ _ Hwf) in Hj as [Hj Hv]. apply remove_next; [apply Hj|intros ->; by apply Hne|].
    intros Hl%last_Some_elem_of. assert (j ∈ ch h) as [_ E]%(cw_in_chain _ _ _ _ _ Hwf) by (rewrite Hch; apply elem_of_app; by left). congruence.
  - split; [done|]. destruct (Hview i Hi) as (_&->&_). rewrite Z.eqb_refl.
    apply (path_ext t); [|apply (cw_freelist _ _ _ _ _ Hwf)]. intros j Hj. pose proof Hj as [Hjr Hjf]%(cw_in_free _ _ _ _ _ Hwf).
    apply remove_next; [done|congruence|]. intros Hl%last_Some_elem_of.
    assert (j ∈ ch h) as [[_ E] _]%(cw_in_chain _ _ _ _ _ Hwf) by (rewrite Hch; apply elem_of_app; by left). congruence.
  - intros h'. unfold rechain. destruct (h =? h'); [|apply (cw_chain_nodup _ _ _ _ _ Hwf)]. by apply NoDup_app.
  - apply NoDup_cons. split; [done|apply (cw_free_nodup _ _ _ _ _ Hwf)].
  - apply remove_in_chain.
  - intros j. rewrite elem_of_cons, (cw_in_free _ _ _ _ _ Hwf), Hlen. split.
    + intros [->|[Hj E]]; (split; [done|]); [destruct (Hview i Hi) as (_&_&->&_); by rewrite Z.eqb_refl|].
      destruct (Hview j Hj) as (_&_&->&_). by destruct (i =? j).
    + intros [Hj E]. destruct (Hview j Hj) as (_&_&E'&_). rewrite E' in E. destruct (Z.eqb_spec i j); [by left|by right].
  - apply remove_use. split; [done|apply (cw_default _ _ _ _ _ Hwf)].
  - intros j k [Hji Hj]%remove_use [Hki Hk]%remove_use Hv. apply (cw_values _ _ _ _ _ Hwf); [done|done|].
    destruct (Hview j (proj1 Hj)) as (_&_&_&_&Ej), (Hview k (proj1 Hk)) as (_&_&_&_&Ek). rewrite <- Ej, <- Ek by congruence. done.
  - intros j Hj E. rewrite Hlen in Hj. destruct (Hview j Hj) as (_&_&E'&->&_). rewrite E' in E.
    destruct (i =? j); [done|]. by apply (cw_quiet _ _ _ _ _ Hwf).
Qed.
End removal.

(** ** What the sections do to the map *)
Definition no_value (m : slots) (v : Z) : Prop := forall i s, m !! i = Some s -> sl_value s <> v.
Definition bumped (s : slot) : slot := set_sl_made (u32 (sl_made s + 1)) (set_sl_refs (u28 (sl_refs s + 1)) s).

Lemma attempt_ok c m v flag :
  cache_rep c m ->
  wp (ivace_reference_attempt v flag) (fun r c' => same_control c c' /\ match r with
    | RefFound i => exists s, m !! i = Some s /\ sl_value s = v /\ cache_rep c' (if sl_persist s then m else <[i := bumped s]> m)
    | RefNew i => no_value m v /\ m !! i = None /\ i <> IV_UNUSED_VALINDEX /\
        cache_rep c' (<[i := mk_slot v false (has flag MACH_VOUCHER_ATTR_VALUE_FLAGS_PERSIST) 1 1]> m)
    | RefFull => c' = c /\ no_value m v /\ forall i, 0 <= i < alen (ivac_table c) -> is_Some (m !! i)
    end) c.
Proof.
  intros Hrep. destruct (Hrep) as [(ch&fl&Hwf) Hm]. apply wp_bind, wp_gets. unfold id.
  set (n := ivac_init_table_size c) in *. pose proof (hash_range _ _ _ _ _ v Hwf) as Hh. destruct (cw_size _ _ _ _ _ Hwf) as [Hn _].
  apply wp_bind, wp_ivace_lookup; [lia|]. apply wp_bind. eapply wp_mono; [by apply (wp_find_value c n (ivac_freelist c) ch fl v)|].
  intros r c' [-> Hr]. destruct r as [i|].
  - destruct Hr as [Hi Hv]. apply wp_bind, wp_ivace_lookup; [apply Hi|].
    assert (m !! i = Some (slot_of (anth (ivac_table c) i))) as Hmi by (by apply Hm).
    apply wp_bind, wp_when; intros Hp.
    + apply wp_ivace_put, wp_ret. split; [same|]. eexists. split; [done|]. split; [done|]. simpl.
      apply negb_true_iff in Hp. rewrite Hp. change (bumped _) with (slot_of (set_ivace_made (u32 (ivace_made (anth (ivac_table c) i) + 1))
        (set_ivace_refs (u28 (ivace_refs (anth (ivac_table c) i) + 1)) (anth (ivac_table c) i)))).
      apply rep_update; [done|done|done|apply Hi|done|done].
    + apply wp_ret. split; [same|]. eexists. split; [done|]. split; [done|]. apply negb_false_iff in Hp. simpl. by rewrite Hp.
  - assert (no_value m v) as Hno. { intros i s [Hi ->]%Hm. by apply Hr. }
    pose proof (cw_freelist _ _ _ _ _ Hwf) as Hf. destruct fl as [|i fl].
    + simpl in Hf. rewrite Hf. simpl. apply wp_ret. split; [same|]. split; [done|]. split; [done|]. intros i Hi.
      destruct (ivace_free (anth (ivac_table c) i)) eqn:E; [|exists (slot_of (anth (ivac_table c) i)); by apply Hm].
      destruct (not_elem_of_nil i). by apply (cw_in_free _ _ _ _ _ Hwf).
    + destruct Hf as [Ef _]. rewrite Ef. destruct (insert_index _ _ _ _ _ _ v Hwf) as (Hi&Hfree&Hhr&_).
      pose proof (cw_default _ _ _ _ _ Hwf) as [_ Hd].
      assert (i <> IV_UNUSED_VALINDEX) as Hi0 by (intros ->; congruence).
      rewrite (proj2 (Z.eqb_neq i IV_FREELIST_END) Hi0). apply wp_bind, wp_ivace_lookup; [done|]. apply wp_bind, wp_modify, wp_bind, wp_ivace_put.
      apply wp_bind, wp_ivace_mod; [simpl; by rewrite alen_aset|]. apply wp_ret. split; [same|]. split; [done|]. split.
      { destruct (m !! i) as [s|] eqn:E; [|done]. apply Hm in E as [[_ E] _]. congruence. }
      split; [done|]. split.
      * eexists _, fl. simpl. by apply (wf_insert _ _ _ _ _ _ _ _ _ _ Hwf).
      * simpl. by apply (map_insert_entry _ _ _ _ _ _ _ _ _ _ Hwf).
Qed.

Lemma reference_ok c m i s : cache_rep c m -> m !! i = Some s -> sl_value s <> IVACE_DEAD -> 0 < sl_refs s ->
  wp (ivace_reference_locked i) (fun _ c' => same_control c c' /\
    cache_rep c' (if sl_persist s then m else <[i := set_sl_refs (u28 (sl_refs s + 1)) s]> m)) c.
Proof.
  intros Hrep Hi Hv Hr. apply wp_bind, (wp_rep_lookup c m i s); [done|done|]. intros e He Hu Hf ->. simpl in *.
  apply wp_bind, wp_massert; [by rewrite (proj2 (Z.eqb_neq _ _) Hv)|]. apply wp_bind, wp_massert; [by apply Z.ltb_lt|].
  apply wp_bind, wp_massert; [by rewrite Hf|]. apply wp_when; intros Hp; [apply negb_true_iff in Hp|apply negb_false_iff in Hp]; rewrite Hp.
  - apply wp_ivace_put. split; [same|]. change (set_sl_refs _ _) with (slot_of (set_ivace_refs (u28 (ivace_refs e + 1)) e)).
    by apply rep_update; rewrite <- ?He.
  - done.
Qed.

Lemma release_begin_ok c m i s key : cache_rep c m -> m !! i = Some s -> 0 < sl_refs s < 2 ^ 28 -> key <> MACH_VOUCHER_ATTR_KEY_NONE ->
  wp (ivace_release_begin key i) (fun r c' => same_control c c' /\
    let s' := set_sl_refs (sl_refs s - 1) s in
    if sl_persist s then r = None /\ cache_rep c' m
    else if (0 <? sl_refs s - 1) || sl_releasing s then r = None /\ cache_rep c' (<[i := s']> m)
    else r = Some (sl_value s) /\ cache_rep c' (<[i := set_sl_releasing true s']> m)) c.
Proof.
  intros Hrep Hi Hr Hk. apply wp_bind, (wp_rep_lookup c m i s); [done|done|]. intros e He Hu Hf ->. simpl in *.
  apply wp_bind, wp_massert; [apply Z.ltb_lt; lia|]. destruct (ivace_persist e); [apply wp_ret; split; [same|done]|].
  assert (u28 (ivace_refs e - 1) = ivace_refs e - 1) as -> by (unfold u28; rewrite Z.mod_small; lia).
  set (e' := set_ivace_refs (ivace_refs e - 1) e). apply wp_bind, wp_ivace_put.
  assert (cache_rep (set_ivac_table (aset (ivac_table c) i e') c) (<[i := slot_of e']> m)) as Hrep' by (by apply rep_update; rewrite <- ?He).
  destruct (Z.ltb_spec 0 (ivace_refs e - 1)) as [Hpos|Hz]; [apply wp_ret; split; [same|done]|]. simpl.
  apply wp_bind, wp_massert; [by rewrite (proj2 (Z.eqb_neq _ _) Hk)|].
  destruct (ivace_releasing e) eqn:Hrel; [apply wp_ret; split; [same|done]|]. apply wp_bind, wp_ivace_put, wp_ret. split; [same|]. split; [done|].
  assert (in_use (ivac_table c) i) as [Hri _] by done.
  pose proof (rep_update _ _ i (set_ivace_releasing true e') Hrep') as Hup. simpl in Hup.
  rewrite anth_aset_eq in Hup by done. rewrite insert_insert_eq in Hup. apply Hup; [|done..]. split; [by rewrite alen_aset|by rewrite anth_aset_eq].
Qed.
Lemma redrive_ok c m i s Q : cache_rep c m -> m !! i = Some s -> Q (sl_made s) c -> wp (ivace_redrive i (sl_value s)) Q c.
Proof.
  intros Hrep Hi HQ. apply wp_bind, (wp_rep_lookup c m i s); [done|done|]. intros e He Hu Hf ->. simpl.
  apply wp_bind, wp_massert; [apply Z.eqb_refl|]. apply wp_bind, wp_massert; [by rewrite Hf|]. by apply wp_ret.
Qed.

(** ** Giving an entry back *)
Lemma before_ok c i fuel s l b :
  path (ivac_table c) s (l ++ [b]) i -> (forall j, j ∈ l ++ [b] -> 0 <= j < alen (ivac_table c) /\ j <> i) ->
  alen (ivac_table c) < IV_HASH_END -> (length l < fuel)%nat ->
  wp (ivace_before fuel s i) (fun r c' => r = b /\ c' = c) c.
Proof.
  revert s l. induction fuel as [|fuel IH]; intros s l Hp Hin Hmax Hl; [lia|]. cbn [ivace_before].
  assert (exists j l', l ++ [b] = j :: l' /\ s = j) as (j&l'&El&->).
  { destruct l as [|j l]; simpl in Hp; destruct Hp as [-> _]; by eexists _, _. }
  destruct (Hin j) as [Hj Hji]; [rewrite El; left|]. apply wp_bind, wp_ivace_lookup; [done|].
  destruct l as [|j0 l]; simpl in El; injection El as <- <-; destruct Hp as [_ Hp].
  - simpl in Hp. rewrite Hp, Z.eqb_refl. by apply wp_ret.
  - assert (ivace_next (anth (ivac_table c) j0) <> i) as Hne.
    { rewrite (path_start _ _ _ _ Hp). destruct l as [|j1 l]; simpl; apply Hin; right; left. }
    rewrite (proj2 (Z.eqb_neq _ _) Hne). apply wp_bind, wp_massert.
    { rewrite (path_start _ _ _ _ Hp), (proj2 (Z.eqb_neq IV_HASH_END _)); [done|].
      destruct (Hin (hd i (l ++ [b]))) as [? _]; [right; by destruct l; left|]. lia. }
    apply (IH _ l); [done| |done|simpl in Hl; lia].
    intros k Hk. apply Hin. by right.
Qed.

(** The link to the entry now goes past it; nothing else of the table changes. *)
Definition unhashed (t t1 : list ivac_entry) (h : Z) (l1 : list Z) (next : Z) : Prop :=
  alen t1 = alen t /\ forall j, 0 <= j < alen t -> anth t1 j =
    let e := if (h =? j) && bool_decide (l1 = []) then set_ivace_index next (anth t j) else anth t j in
    if bool_decide (last l1 = Some j) then set_ivace_next next e else e.
Lemma unhash_ok c f ch fl i l1 l2 next : let t := ivac_table c in let n := ivac_init_table_size c in
  let h := IV_HASH_VAL n (ivace_value (anth t i)) in
  table_wf t n f ch fl -> ch h = l1 ++ i :: l2 ->
  wp (ivace_unhash i (ivace_value (anth t i)) next)
     (fun _ c' => exists t1, c' = set_ivac_table t1 c /\ unhashed t t1 h l1 next) c.
Proof.
  intros t n h Hwf Hch. apply wp_bind, wp_gets. unfold id. fold n. fold t. fold h.
  pose proof (hash_range _ _ _ _ _ (ivace_value (anth t i)) Hwf) as Hh. fold h in Hh. destruct (cw_size _ _ _ _ _ Hwf) as [Hn Hmax].
  pose proof (chain_range _ _ _ _ _ _ _ _ Hwf Hch) as Hr.
  destruct (chain_split _ _ _ _ _ _ _ _ Hwf Hch) as (Hn1&Hn2&Hi1&Hi2&Hd).
  pose proof (cw_chain _ _ _ _ _ Hwf h Hh) as Hp. rewrite Hch in Hp. pose proof (chain_length _ _ _ _ _ h Hwf) as Hlen.
  apply wp_bind, wp_ivace_lookup; [fold t; lia|]. fold t.
  destruct (decide (l1 = [])) as [->|Hne].
  - destruct Hp as [-> _]. rewrite Z.eqb_refl. apply wp_ivace_put. eexists. split; [done|]. split; [apply alen_aset|].
    intros j Hj. fold t. rewrite anth_aset by lia. destruct (Z.eqb_spec h j) as [E|]; [by rewrite E|done].
  - destruct (exists_last Hne) as (l0&b&El). apply path_app in Hp as (mid&Hp1&->&_).
    assert (forall j, j ∈ l0 ++ [b] -> 0 <= j < alen t /\ j <> i) as Hin.
    { intros j Hj. rewrite <- El in Hj. split; [apply Hr, elem_of_app; by left|congruence]. }
    rewrite El in Hp1. assert (ivace_index (anth t h) <> i) as Hx.
    { rewrite (path_start _ _ _ _ Hp1). destruct l0; simpl; apply Hin; left. }
    rewrite (proj2 (Z.eqb_neq _ _) Hx). assert (0 <= ivace_index (anth t h) < alen t) as Hx0.
    { rewrite (path_start _ _ _ _ Hp1). destruct l0; simpl; apply Hin; left. }
    apply wp_bind, wp_ivace_lookup; [done|]. apply wp_bind, wp_massert; [by rewrite (proj2 (Z.eqb_neq IV_HASH_END _)) by lia|].
    apply wp_bind. eapply wp_mono.
    { apply (before_ok c i _ _ l0 b); [done|done|done|].
      rewrite Hch, El, !length_app in Hlen. simpl in Hlen. unfold t in *. lia. }
    intros r c' [-> ->]. destruct (Hin b) as [Hb _]; [apply elem_of_app; right; left|]. apply wp_ivace_mod; [done|].
    eexists. split; [done|]. split; [apply alen_aset|]. intros j Hj. fold t. rewrite anth_aset by lia.
    rewrite El, last_snoc, (bool_decide_false (l0 ++ [b] = [])), andb_false_r by (by destruct l0).
    destruct (Z.eqb_spec b j) as [<-|Hbj]; [by rewrite bool_decide_true|by rewrite bool_decide_false by congruence].
Qed.
(** The section that follows: the entry is free. *)
Lemma freed_rep c m i t1 l1 l2 f ch fl : let t := ivac_table c in let n := ivac_init_table_size c in
  let h := IV_HASH_VAL n (ivace_value (anth t i)) in
  table_wf t n f ch fl -> cache_map t m -> f = ivac_freelist c -> ch h = l1 ++ i :: l2 -> i <> IV_UNUSED_VALINDEX ->
  unhashed t t1 h l1 (ivace_next (anth t i)) ->
  let e := anth t1 i in
  let t2 := aset t1 i (mk_ivace IVACE_DEAD false true (ivace_persist e) (ivace_refs e) 0 f (ivace_index e)) in
  cache_rep (set_ivac_freelist i (set_ivac_table t2 c)) (delete i m).
Proof.
  intros t n h Hwf Hm -> Hch Hi0 [Hl1 Hv1] e t2. destruct (removed_in_use _ _ _ _ _ _ _ _ Hwf Hch) as [Hi Hf].
  assert (alen t2 = alen t) as Hlen by (unfold t2; by rewrite alen_aset).
  assert (forall j, 0 <= j < alen t -> let e := anth t j in let e' := anth t2 j in
    ivace_index e' = (if (h =? j) && bool_decide (l1 = []) then ivace_next (anth t i) else ivace_index e) /\
    ivace_next e' = (if i =? j then ivac_freelist c else if bool_decide (last l1 = Some j) then ivace_next (anth t i) else ivace_next e) /\
    ivace_free e' = (if i =? j then true else ivace_free e) /\
    ivace_releasing e' = (if i =? j then false else ivace_releasing e) /\
    (i <> j -> slot_of e' = slot_of e)) as Hview.
  { intros j Hj. simpl. unfold t2. rewrite anth_aset by lia. unfold e. rewrite !Hv1 by done.
    destruct (Z.eqb_spec i j) as [<-|Hne]; destruct (bool_decide (last l1 = Some _)), (h =? _), (bool_decide (l1 = [])); done. }
  assert (forall j, in_use t2 j <-> j <> i /\ in_use t j) as Huse.
  { apply (remove_use t t2 n (ivac_freelist c) ch fl i l1 l2 Hwf Hch Hlen). intros j Hj. destruct (Hview j Hj) as (?&?&?&?&E).
    split_and!; [done..|]. intros Hne. by injection (E Hne). }
  split.
  - eexists _, _. apply (wf_remove t t2 n (ivac_freelist c) ch fl i l1 l2); try done. intros j Hj.
    destruct (Hview j Hj) as (?&?&?&?&E). split_and!; [done..|]. intros Hne. by injection (E Hne).
  - intros j s. simpl. rewrite lookup_delete_Some, Huse. split.
    + intros [Hne [Hj ->]%Hm]. split; [done|]. destruct (Hview j (proj1 Hj)) as (_&_&_&_&E). symmetry. by apply E.
    + intros [[Hne Hj] ->]. split; [done|]. destruct (Hview j (proj1 Hj)) as (_&_&_&_&E). rewrite E by congruence. by apply Hm.
Qed.

Lemma release_end_ok c m i s made kr : cache_rep c m -> m !! i = Some s -> i <> IV_UNUSED_VALINDEX ->
  (sl_made s = made -> sl_refs s = 0) ->
  wp (ivace_release_end i (sl_value s) made kr) (fun r c' => same_control c c' /\
    let s1 := if bool_decide (kr = KERN_SUCCESS) then set_sl_made (u32 (sl_made s - made)) s else s in
    if sl_made s =? made then
      if bool_decide (kr = KERN_SUCCESS) then r = ReleaseFreed /\ cache_rep c' (delete i m)
      else r = ReleaseDone /\ cache_rep c' (<[i := set_sl_releasing false s]> m)
    else if sl_refs s =? 0 then r = ReleaseAgain /\ cache_rep c' (<[i := s1]> m)
    else r = ReleaseDone /\ cache_rep c' (<[i := set_sl_releasing false s1]> m)) c.
Proof.
  intros Hrep Hi Hi0 Hzero. apply wp_bind, (wp_rep_lookup c m i s); [done|done|]. intros e He Hu Hf ->. simpl in *.
  apply wp_bind, wp_massert; [apply Z.eqb_refl|]. destruct (Z.eqb_spec (ivace_made e) made) as [Hmade|Hmade]; simpl.
  - case_bool_decide as Hkr; case_bool_decide as Hkr'; try congruence.
    + apply wp_bind, wp_ivace_put, wp_ret. split; [same|]. split; [done|].
      change (set_sl_releasing _ _) with (slot_of (set_ivace_releasing false e)). by apply rep_update; rewrite <- ?He.
    + apply wp_bind, wp_massert; [by apply Z.eqb_eq, Hzero|]. destruct Hrep as [(ch&fl&Hwf) Hm].
      assert (i ∈ ch (IV_HASH_VAL (ivac_init_table_size c) (ivace_value e))) as (l1&l2&Hch)%list_elem_of_split
        by (apply (cw_in_chain _ _ _ _ _ Hwf); by rewrite <- He).
      apply wp_bind. eapply wp_mono; [rewrite He; apply (unhash_ok c _ ch fl i l1 l2 _ Hwf); by rewrite <- He|].
      intros [] c' (t1&->&Hun). apply wp_bind, wp_gets. unfold id. pose proof Hun as [Hl1 _].
      apply wp_bind, wp_ivace_mod; [simpl; rewrite Hl1; apply Hu|]. apply wp_bind, wp_modify, wp_ret. split; [same|]. split; [done|].
      rewrite He in Hch. simpl. by apply (freed_rep c m i t1 l1 l2 _ ch fl Hwf Hm).
  - set (e1 := if bool_decide (kr = KERN_SUCCESS) then set_ivace_made (u32 (ivace_made e - made)) e else e).
    assert (slot_of e1 = if bool_decide (kr = KERN_SUCCESS) then set_sl_made (u32 (ivace_made e - made)) (slot_of e) else slot_of e) as Hs1
      by (unfold e1; by case_bool_decide).
    assert (ivace_refs e1 = ivace_refs e) as Hr1 by (unfold e1; by case_bool_decide). rewrite <- Hs1, Hr1.
    assert (forall e2, slot_of e2 = slot_of e2 -> ivace_value e2 = ivace_value e -> ivace_free e2 = false -> ivace_next e2 = ivace_next e ->
      ivace_index e2 = ivace_index e -> cache_rep (set_ivac_table (aset (ivac_table c) i e2) c) (<[i := slot_of e2]> m)) as Hup.
    { intros e2 _ ????. by apply rep_update; rewrite <- ?He. }
    apply wp_bind, wp_ivace_put. destruct (ivace_refs e =? 0).
    + apply wp_ret. split; [same|]. split; [done|]. apply Hup; unfold e1; by case_bool_decide.
    + apply wp_bind, wp_ivace_put, wp_ret. split; [same|]. split; [done|]. simpl. unfold aset. rewrite list_insert_insert_eq.
      apply (Hup (set_ivace_releasing false e1)); unfold e1; by case_bool_decide.
Qed.

(** ** Growth *)
Lemma path_run t stop k : forall a, 0 < k -> (forall j, a <= j < a + k -> ivace_next (anth t j) = if j =? a + k - 1 then stop else j + 1) ->
  path t a (seqZ a k) stop.
Proof.
  intros a Hk. rewrite <- (Z2Nat.id k) by lia. assert (Z.to_nat k <> 0%nat) as Hn by lia. clear Hk.
  generalize dependent (Z.to_nat k). clear k. intros k. revert a. induction k as [|k IH]; intros a Hk Hj; [done|].
  rewrite seqZ_cons by lia. split; [done|]. rewrite Hj by lia.
  destruct (decide (k = 0%nat)) as [->|Hne]; [by rewrite (proj2 (Z.eqb_eq _ _)) by lia|].
  rewrite (proj2 (Z.eqb_neq _ _)) by lia. replace (Z.pred (Z.of_nat (S k))) with (Z.of_nat k) by lia.
  apply IH; [done|]. intros j Hr. rewrite Hj by lia. by replace (a + Z.of_nat (S k) - 1) with (a + 1 + Z.of_nat k - 1) by lia.
Qed.

Lemma wf_grow t t' n f ch fl size :
  size = alen t -> table_wf t n f ch fl -> alen t' = 2 * size -> 2 * size < IV_HASH_END ->
  (forall j, 0 <= j < size -> anth t' j = anth t j) ->
  (forall j, size <= j < 2 * size -> anth t' j = ivace_reset_data (if j =? 2 * size - 1 then f else j + 1) j) ->
  table_wf t' n size ch (seqZ size size ++ fl).
Proof.
  intros Hsize Hwf Hlen Hmax Hold Hnew. destruct (cw_size _ _ _ _ _ Hwf) as [Hn _]. rewrite <- Hsize in Hn.
  assert (forall i, in_use t' i <-> in_use t i) as Huse.
  { intros i. unfold in_use. rewrite Hlen. split; intros [Hi Hf].
    - destruct (decide (i < size)); [rewrite Hold in Hf by lia; split; [lia|done]|]. by rewrite Hnew in Hf by lia.
    - rewrite Hold by lia. split; [lia|done]. }
  assert (forall s l stop, (forall i, i ∈ l -> 0 <= i < size) -> path t s l stop -> path t' s l stop) as Hpath.
  { intros s l stop Hl. apply path_ext. intros i Hi. by rewrite Hold by auto. }
  split.
  - lia.
  - intros h Hh. rewrite Hold by lia. apply Hpath; [|by apply (cw_chain _ _ _ _ _ Hwf)]. rewrite Hsize. by intros i [[? _] _]%(cw_in_chain _ _ _ _ _ Hwf).
  - apply path_app. exists f. split; [|apply Hpath; [|apply (cw_freelist _ _ _ _ _ Hwf)]; rewrite Hsize; by intros i [? _]%(cw_in_free _ _ _ _ _ Hwf)].
    apply path_run; [lia|]. intros j Hj. rewrite Hnew by lia. by replace (size + size - 1) with (2 * size - 1) by lia.
  - apply (cw_chain_nodup _ _ _ _ _ Hwf).
  - apply NoDup_app. split; [apply NoDup_seqZ|]. split; [|apply (cw_free_nodup _ _ _ _ _ Hwf)].
    intros i Hi%elem_of_seqZ [? _]%(cw_in_free _ _ _ _ _ Hwf). lia.
  - intros h i. rewrite (cw_in_chain _ _ _ _ _ Hwf), Huse. split; intros [Hi Hv]; (split; [done|]); rewrite Hold in * by (rewrite Hsize; apply Hi); done.
  - intros i. rewrite elem_of_app, elem_of_seqZ, (cw_in_free _ _ _ _ _ Hwf), Hlen. split.
    + intros [Hi|[Hi Hf]]; [rewrite Hnew by lia; split; [lia|done]|rewrite Hold by lia; split; [lia|done]].
    + intros [Hi Hf]. destruct (decide (i < size)); [right; rewrite Hold in Hf by lia; split; [lia|done]|left; lia].
  - apply Huse, (cw_default _ _ _ _ _ Hwf).
  - intros i j Hi%Huse Hj%Huse. rewrite !Hold by (rewrite Hsize; apply Hi || apply Hj). by apply (cw_values _ _ _ _ _ Hwf).
  - intros i Hi Hf. rewrite Hlen in Hi. destruct (decide (i < size)); [|by rewrite Hnew by lia].
    rewrite Hold in * by lia. apply (cw_quiet _ _ _ _ _ Hwf); [lia|done].
Qed.
Lemma grow_end_ok c m : cache_rep c m -> let size := alen (ivac_table c) in 2 * size < IVAC_ENTRIES_MAX ->
  wp (ivac_grow_end size) (fun _ c' => cache_rep c' m /\ alen (ivac_table c') = 2 * size /\ ivac_is_growing c' = false /\
    ivac_refs c' = ivac_refs c /\ ivac_init_table_size c' = ivac_init_table_size c /\ ivac_key_index c' = ivac_key_index c) c.
Proof.
  intros [(ch&fl&Hwf) Hm] size Hmax. destruct (cw_size _ _ _ _ _ Hwf) as [Hn _]. unfold IVAC_ENTRIES_MAX in Hmax.
  unfold ivac_grow_end. assert (u32 (size * 2) = 2 * size) as -> by (unfold u32; rewrite Z.mod_small; unfold size in *; lia).
  apply wp_bind, wp_massert; [apply Z.ltb_lt; unfold size in *; lia|]. apply wp_bind, wp_massert; [by apply Z.ltb_lt|].
  apply wp_bind, wp_gets. unfold id, ivac_table_size. fold size. apply wp_bind, wp_modify.
  set (t1 := tabulate _ _). assert (alen t1 = 2 * size) as Hl1 by (apply alen_tabulate; unfold size in *; lia).
  apply wp_bind, wp_ivace_mod; [simpl; unfold size in *; lia|]. simpl. apply wp_bind, wp_modify, wp_modify. simpl.
  set (t2 := aset t1 _ _). assert (alen t2 = 2 * size) as Hl2 by (unfold t2; by rewrite alen_aset).
  assert (forall j, 0 <= j < size -> anth t2 j = anth (ivac_table c) j) as Hold.
  { intros j Hj. unfold t2, t1. rewrite anth_aset_ne, anth_tabulate by (unfold size in *; lia). by rewrite (proj2 (Z.ltb_lt _ _)) by lia. }
  assert (forall j, size <= j < 2 * size -> anth t2 j = ivace_reset_data (if j =? 2 * size - 1 then ivac_freelist c else j + 1) j) as Hnew.
  { intros j Hj. unfold t2. rewrite anth_aset by (unfold size in *; lia). unfold t1. rewrite !anth_tabulate by (unfold size in *; lia).
    rewrite !(proj2 (Z.ltb_ge _ _)) by lia. rewrite (Z.eqb_sym j). destruct (Z.eqb_spec (2 * size - 1) j) as [<-|]; done. }
  split_and!; [|done..]. split.
  - exists ch, (seqZ size size ++ fl). apply (wf_grow (ivac_table c) _ _ (ivac_freelist c) _ _ size); try done. unfold IV_HASH_END. lia.
  - intros i s. simpl. rewrite (Hm i s). unfold in_use. rewrite Hl2. fold size. split; intros [[Hi Hf] ->].
    + rewrite Hold by done. split; [split; [lia|done]|done].
    + destruct (decide (i < size)); [rewrite Hold in * by lia; split; [split; [lia|done]|done]|]. by rewrite Hnew in Hf by lia.
Qed.

(** ** A registered control *)
Lemma wf_registered t v : let n := IVAC_ENTRIES_MIN in let h := IV_HASH_VAL n v in
  alen t = n ->
  (forall j, 0 <= j < n -> anth t j =
     set_ivace_index (if h =? j then IV_UNUSED_VALINDEX else IV_HASH_END)
       (if j =? 0 then mk_ivace v false false true IVACE_REFS_MAX IVACE_REFS_MAX IV_HASH_END IV_HASH_END
        else ivace_reset_data (if j =? n - 1 then IV_FREELIST_END else j + 1) j)) ->
  table_wf t n 1 (rechain h [IV_UNUSED_VALINDEX] (fun _ => [])) (seqZ 1 (n - 1)) /\
  cache_map t {[ IV_UNUSED_VALINDEX := mk_slot v false true IVACE_REFS_MAX IVACE_REFS_MAX ]}.
Proof.
  intros n h Hl Ht. assert (0 < n /\ n < IV_HASH_END) as Hn by (unfold n; done).
  assert (0 <= h < n) as Hh by (apply Z.mod_pos_bound; lia).
  assert (forall j, in_use t j <-> j = 0) as Huse.
  { intros j. unfold in_use. rewrite Hl. split.
    - intros [Hj Hf]. rewrite Ht in Hf by done. by destruct (Z.eqb_spec j 0).
    - intros ->. split; [lia|]. by rewrite Ht by lia. }
  assert (ivace_value (anth t 0) = v) as Hv by (by rewrite Ht by lia).
  split; [split|].
  - rewrite Hl. lia.
  - intros h' Hh'. rewrite Ht by done. unfold rechain. destruct (Z.eqb_spec h h') as [<-|]; [|done].
    simpl. split; [done|]. unfold IV_UNUSED_VALINDEX. by rewrite Ht by lia.
  - apply path_run; [unfold n, IVAC_ENTRIES_MIN; lia|]. intros j Hj. rewrite Ht by lia. rewrite (proj2 (Z.eqb_neq j 0)) by lia. simpl.
    by replace (1 + (n - 1) - 1) with (n - 1) by lia.
  - intros h'. unfold rechain. destruct (h =? h'); [apply NoDup_singleton|apply NoDup_nil_2].
  - apply NoDup_seqZ.
  - intros h' j. rewrite Huse. unfold rechain. destruct (Z.eqb_spec h h') as [<-|Hne].
    + rewrite list_elem_of_singleton. split; [intros ->; split; [done|unfold IV_UNUSED_VALINDEX; by rewrite Hv]|by intros [-> _]].
    + split; [by intros ?%elem_of_nil|]. intros [-> E]. rewrite Hv in E. done.
  - intros j. rewrite elem_of_seqZ, Hl. split.
    + intros Hj. split; [lia|]. rewrite Ht by lia. by rewrite (proj2 (Z.eqb_neq j 0)) by lia.
    + intros [Hj Hf]. rewrite Ht in Hf by done. destruct (Z.eqb_spec j 0); [done|lia].
  - by apply Huse.
  - by intros i j ->%Huse ->%Huse.
  - intros j Hj _. rewrite Ht by lia. by destruct (j =? 0).
  - intros j s. rewrite lookup_singleton_Some, Huse. unfold IV_UNUSED_VALINDEX. split.
    + intros [<- <-]. split; [done|]. by rewrite Ht by lia.
    + intros [-> ->]. split; [done|]. by rewrite Ht by lia.
Qed.
Lemma registered_ok key_index v :
  wp (ivac_set_default v ;;* ivac_hash_default v)
     (fun _ c => cache_rep c {[ IV_UNUSED_VALINDEX := mk_slot v false true IVACE_REFS_MAX IVACE_REFS_MAX ]} /\
        alen (ivac_table c) = IVAC_ENTRIES_MIN /\
        ivac_refs c = 1 /\ ivac_is_growing c = false /\ ivac_key_index c = key_index) (ivac_fresh key_index).
Proof.
  set (n := IVAC_ENTRIES_MIN). set (h := IV_HASH_VAL n v). assert (0 < n) as Hn by (unfold n; done).
  assert (0 <= h < n) as Hh by (apply Z.mod_pos_bound; lia).
  unfold ivac_fresh. fold n. set (t0 := tabulate n _). assert (alen t0 = n) as Hl by (apply alen_tabulate; lia).
  assert (forall j, 0 <= j < n -> anth t0 j = if j =? 0 then mk_ivace IVACE_DEAD false false false 0 0 IV_HASH_END IV_HASH_END
     else ivace_reset_data (if j =? n - 1 then IV_FREELIST_END else j + 1) j) as Ht0 by (intros j Hj; by apply anth_tabulate).
  clearbody t0. apply wp_bind, wp_bind, wp_ivace_mod; [cbn [ivac_table]; unfold IV_UNUSED_VALINDEX; lia|].
  unfold IV_UNUSED_VALINDEX. cbn [ivac_table set_ivac_table]. rewrite (Ht0 0) by lia. change (0 =? 0) with true. cbn [ivace_releasing ivace_free ivace_next ivace_index].
  set (e0 := mk_ivace v _ _ _ _ _ _ _). set (t1 := aset t0 0 e0). assert (alen t1 = n) as Hl1 by (unfold t1; by rewrite alen_aset).
  assert (forall j, 0 <= j < n -> anth t1 j = if j =? 0 then e0 else ivace_reset_data (if j =? n - 1 then IV_FREELIST_END else j + 1) j) as Ht1.
  { intros j Hj. unfold t1. rewrite anth_aset by lia. rewrite Z.eqb_sym, Ht0 by done. by destruct (j =? 0). }
  clearbody t1. apply wp_bind, wp_ivace_lookup; [cbn [ivac_table set_ivac_table ivac_init_table_size]; unfold IV_UNUSED_VALINDEX; lia|].
  cbn [ivac_table set_ivac_table ivac_init_table_size]. apply wp_massert; [unfold IV_UNUSED_VALINDEX; by rewrite Ht1 by lia|].
  apply wp_bind, wp_gets. unfold id. cbn [ivac_table set_ivac_table ivac_init_table_size]. fold h.
  apply wp_bind, wp_ivace_lookup; [cbn [ivac_table set_ivac_table ivac_init_table_size]; lia|]. cbn [ivac_table set_ivac_table ivac_init_table_size].
  apply wp_bind, wp_massert; [rewrite Ht1 by done; by destruct (h =? 0)|]. apply wp_ivace_mod; [cbn [ivac_table set_ivac_table ivac_init_table_size]; lia|].
  cbn [ivac_table set_ivac_table]. set (t2 := aset t1 h _). assert (alen t2 = n) as Hl2 by (unfold t2; by rewrite alen_aset).
  split_and!; [|done..]. destruct (wf_registered t2 v Hl2) as [Hwf Hm]; [|split; [by eexists _, _|done]].
  intros j Hj. fold n. fold h. unfold t2. rewrite anth_aset, !Ht1 by lia.
  destruct (Z.eqb_spec h j) as [<-|]; [done|]. by destruct (j =? 0).
Qed.
End cache.
