(* ===== verification/VoucherProps.v ===== *)
(** * Values go back to their manager exactly once

    A transition system of a control and the manager of its key: any number of threads get values,
    record them, copy and drop references, and give values back, with the calls into the manager
    and the growth of the table between the sections. *)

From stdpp Require Import gmultiset.
From S2P Require Import Prelude MachPort OsRefcnt VoucherCache VoucherManager VoucherSpec.

(** ** The system

    The control and the manager; the values threads got and have not recorded; the references
    vouchers hold; the releases under way, with the answer of the manager if there is one; the size
    the table is growing from. *)
Record flight := mk_flight { fl_value : Z; fl_made : Z; fl_answer : option kern_return_t }.
Record vconfig {MS : Type} := mk_vconfig {
  v_cache : ivac; v_mgr : MS; v_gets : list (Z * Z); v_held : gmultiset Z; v_fly : gmap Z flight;
  v_grow : option Z }.
Arguments vconfig : clear implicits.
Arguments mk_vconfig {MS}.

Inductive vrequest :=
| VGet (command prev : Z) (content : list Z)
| VRecord (k : nat)
| VGrown
| VCopy (i : Z)
| VDrop (i : Z)
| VAnswer (i : Z)
| VEnd (i : Z).

Definition vthen {A B S} (x : outcome (A * S)) (f : A -> S -> outcome B) : outcome B :=
  match x with Done (y, s) => f y s | Panic what => Panic what | Diverges => Diverges end.

Section system.
Context `{KernelConfig} {MS : Type} (mgr : AttrManager MS) (manager key default : Z).

(** The value of the previous voucher, if it is not the default. *)
Definition prev_value (prev : Z) : M ivac (list Z) :=
  if prev =? IV_UNUSED_VALINDEX then ret [] else let* v := ivace_value_locked prev in ret [v].
Definition held_at (i : Z) : gmultiset Z := if i =? IV_UNUSED_VALINDEX then ∅ else {[+ i +]}.
Definition vperform (r : vrequest) (x : vconfig MS) : outcome (vconfig MS) :=
  let '(mk_vconfig c ms gets held fly grow) := x in
  match r with
  | VGet command prev content =>
    vthen ((ivac_retain ;;* prev_value prev) c) (fun vals c =>
    vthen (ivam_get_value manager key command vals content ms) (fun r ms =>
      if bool_decide (gv_kr r = KERN_SUCCESS)
      then Done (mk_vconfig c ms ((gv_value r, gv_flags r) :: gets) held fly grow)
      else vthen (ivac_unref c) (fun _ c => Done (mk_vconfig c ms gets held fly grow))))
  | VRecord k =>
    match gets !! k with
    | None => Done x
    | Some (v, flag) =>
      let gets' := delete k gets in
      vthen (ivace_reference_attempt v flag c) (fun r c =>
        match r with
        | RefFound i => vthen (ivac_unref c) (fun _ c => Done (mk_vconfig c ms gets' (held ⊎ held_at i) fly grow))
        | RefNew i => Done (mk_vconfig c ms gets' (held ⊎ held_at i) fly grow)
        | RefFull => vthen (ivac_grow_begin c) (fun o c => Done (mk_vconfig c ms gets held fly (if o is Some _ then o else grow)))
        end)
    end
  | VGrown =>
    match grow with
    | None => Done x
    | Some old_size => vthen (ivac_grow_end old_size c) (fun _ c => Done (mk_vconfig c ms gets held fly None))
    end
  | VCopy i => vthen (ivace_reference_locked i c) (fun _ c => Done (mk_vconfig c ms gets (held ⊎ {[+ i +]}) fly grow))
  | VDrop i =>
    vthen (ivace_release_begin key i c) (fun r c =>
      match r with
      | None => Done (mk_vconfig c ms gets (held ∖ {[+ i +]}) fly grow)
      | Some v => vthen (ivace_redrive i v c) (fun made c => Done (mk_vconfig c ms gets (held ∖ {[+ i +]}) (<[i := mk_flight v made None]> fly) grow))
      end)
  | VAnswer i =>
    match fly !! i with
    | Some (mk_flight v made None) =>
      vthen (ivam_release_value manager key v made ms) (fun kr ms => Done (mk_vconfig c ms gets held (<[i := mk_flight v made (Some kr)]> fly) grow))
    | _ => Done x
    end
  | VEnd i =>
    match fly !! i with
    | Some (mk_flight v made (Some kr)) =>
      vthen (ivace_release_end i v made kr c) (fun r c =>
        match r with
        | ReleaseDone => Done (mk_vconfig c ms gets held (delete i fly) grow)
        | ReleaseAgain => vthen (ivace_redrive i v c) (fun made c => Done (mk_vconfig c ms gets held (<[i := mk_flight v made None]> fly) grow))
        | ReleaseFreed => vthen (ivac_unref c) (fun _ c => Done (mk_vconfig c ms gets held (delete i fly) grow))
        end)
    | _ => Done x
    end
  end.
(** Vouchers are made of references they hold; the table grows where a thread said so. *)
Definition venabled (r : vrequest) (x : vconfig MS) : Prop :=
  match r with
  | VGet _ prev _ => prev = IV_UNUSED_VALINDEX \/ prev ∈ v_held x
  | VRecord k => (k < length (v_gets x))%nat
  | VGrown => is_Some (v_grow x)
  | VCopy i | VDrop i => i ∈ v_held x
  | VAnswer i => exists v made, v_fly x !! i = Some (mk_flight v made None)
  | VEnd i => exists v made kr, v_fly x !! i = Some (mk_flight v made (Some kr))
  end.
Definition vstart (key_index : Z) (ms : MS) (x : vconfig MS) : Prop :=
  (ivac_set_default default ;;* ivac_hash_default default) (ivac_fresh key_index) = Done (tt, v_cache x) /\
  v_mgr x = ms /\ v_gets x = [] /\ v_held x = ∅ /\ v_fly x = ∅ /\ v_grow x = None.
Inductive vreach (key_index : Z) (ms : MS) : nat -> vconfig MS -> Prop :=
| vreach_start x : vstart key_index ms x -> vreach key_index ms 0 x
| vreach_next n x r x' : vreach key_index ms n x -> venabled r x -> vperform r x = Done x' -> vreach key_index ms (S n) x'.
End system.

(** ** The invariant *)
Section protocol.
Context `{KernelConfig} {MS : Type} (mgr : AttrManager MS) (manager key default : Z) (laws : ManagerLaws mgr manager key default).
Implicit Types (m : slots) (ms : MS) (gets : list (Z * Z)) (held : gmultiset Z) (fly : gmap Z flight).

Definition pending gets (v : Z) : Z := Z.of_nat (length (filter (fun g => g.1 = v) gets)).
(** What a manager has taken back and the table does not know of yet. *)
Definition given_back (f : option flight) : Z :=
  match f with
  | Some (mk_flight _ made (Some kr)) => if bool_decide (kr = KERN_SUCCESS) then made else 0
  | _ => 0
  end.

(** A value that is counted: its references are held by vouchers, the manager made as many as are
    recorded or on their way, and an entry nobody refers to is being released or about to be
    used again. *)
Record slot_ok ms gets held fly (n i : Z) (s : slot) : Prop := {
  so_refs : sl_refs s = Z.of_nat (multiplicity i held);
  so_made : 0 < sl_made s <= n;
  so_value : sl_value s <> IVACE_DEAD /\ persistent (sl_value s) = false;
  so_count : handed ms (sl_value s) = pending gets (sl_value s) + sl_made s - given_back (fly !! i);
  so_idle : fly !! i = None -> sl_releasing s = false /\ (sl_refs s = 0 -> 0 < pending gets (sl_value s));
  so_fly f : fly !! i = Some f ->
    sl_releasing s = true /\ fl_value f = sl_value s /\ 0 < fl_made f <= sl_made s /\ (sl_made s = fl_made f -> sl_refs s = 0) /\
    (forall kr, fl_answer f = Some kr -> kr <> KERN_SUCCESS -> sl_made s = fl_made f -> 0 < pending gets (sl_value s));
}.
Record slot_persists fly (i : Z) (s : slot) : Prop := {
  sp_value : sl_value s <> IVACE_DEAD /\ persistent (sl_value s) = true;
  sp_counts : sl_refs s = 1 /\ sl_made s = 1;
  sp_fly : fly !! i = None;
}.
Record vcore (n : Z) m ms gets held fly : Prop := {
  vc_default : m !! IV_UNUSED_VALINDEX = Some (mk_slot default false true IVACE_REFS_MAX IVACE_REFS_MAX);
  vc_slot i s : m !! i = Some s -> i <> IV_UNUSED_VALINDEX ->
    if sl_persist s then slot_persists fly i s else slot_ok ms gets held fly n i s;
  vc_fly i f : fly !! i = Some f -> i <> IV_UNUSED_VALINDEX /\ exists s, m !! i = Some s /\ sl_persist s = false;
  vc_held i : i ∈ held -> i <> IV_UNUSED_VALINDEX /\ is_Some (m !! i);
  vc_absent v : persistent v = false -> no_value m v -> handed ms v = pending gets v;
  vc_values i j s s' : m !! i = Some s -> m !! j = Some s' -> sl_value s = sl_value s' -> i = j;
}.
Definition get_ok (g : Z * Z) : Prop :=
  g.1 <> IVACE_DEAD /\ if persistent g.1 then g.1 = default \/ has g.2 MACH_VOUCHER_ATTR_VALUE_FLAGS_PERSIST = true
                      else has g.2 MACH_VOUCHER_ATTR_VALUE_FLAGS_PERSIST = false.
Record vinv (n : Z) m (x : vconfig MS) : Prop := {
  vi_rep : cache_rep (v_cache x) m;
  vi_core : vcore n m (v_mgr x) (v_gets x) (v_held x) (v_fly x);
  vi_gets : Forall get_ok (v_gets x);
  vi_refs : ivac_refs (v_cache x) = Z.of_nat (size m) + Z.of_nat (length (v_gets x));
  vi_ok : ml_ok (v_mgr x);
  vi_size : Z.of_nat (size m) <= n + 1;
  vi_pending : Z.of_nat (length (v_gets x)) <= n;
  vi_held i : Z.of_nat (multiplicity i (v_held x)) <= n;
  vi_handed v : handed (v_mgr x) v <= n;
  vi_growing : ivac_is_growing (v_cache x) = bool_decide (is_Some (v_grow x));
  vi_grow old : v_grow x = Some old -> old = alen (ivac_table (v_cache x)) /\ old <= n + 1;
}.

Lemma rep_values c m i j s s' : cache_rep c m -> m !! i = Some s -> m !! j = Some s' -> sl_value s = sl_value s' -> i = j.
Proof.
  intros [(ch&fl&Hwf) Hm] [Hi ->]%Hm [Hj ->]%Hm Hv. by apply (cw_values _ _ _ _ _ Hwf).
Qed.
Lemma pending_cons g gets v : pending (g :: gets) v = pending gets v + if g.1 =? v then 1 else 0.
Proof. unfold pending. rewrite filter_cons. case_decide as E; simpl; [rewrite (proj2 (Z.eqb_eq _ _) E)|rewrite (proj2 (Z.eqb_neq _ _) E)]; lia. Qed.
Lemma pending_delete gets k g v : gets !! k = Some g -> pending (delete k gets) v = pending gets v - if g.1 =? v then 1 else 0.
Proof.
  intros Hk. rewrite <- (take_drop_middle gets k g Hk) at 2. rewrite delete_take_drop. unfold pending.
  rewrite !filter_app, filter_cons, !length_app. case_decide as E; simpl; [rewrite (proj2 (Z.eqb_eq _ _) E)|rewrite (proj2 (Z.eqb_neq _ _) E)]; lia.
Qed.
Lemma pending_nonneg gets v : 0 <= pending gets v.
Proof. unfold pending. lia. Qed.

(** ** How the parts change *)

(** A slot depends on its own references and release, and on the counts of its value. *)
Lemma slot_ext ms gets held fly n i s ms' gets' held' fly' n' :
  slot_ok ms gets held fly n i s -> n <= n' -> multiplicity i held' = multiplicity i held -> fly' !! i = fly !! i ->
  handed ms' (sl_value s) - pending gets' (sl_value s) = handed ms (sl_value s) - pending gets (sl_value s) ->
  pending gets (sl_value s) <= pending gets' (sl_value s) ->
  slot_ok ms' gets' held' fly' n' i s.
Proof.
  intros [Hr Hm Hv Hc Hi Hf] Hn Eh Ef Ec Ep. split; rewrite ?Eh, ?Ef; [done|lia|done|lia| |].
  - intros Hnone. destruct (Hi Hnone) as [? Hz]. split; [done|]. intros E. specialize (Hz E). lia.
  - intros f Hsome. destruct (Hf f Hsome) as (?&?&?&?&Hk). split_and!; try done; try lia. intros kr E1 E2 E3. specialize (Hk kr E1 E2 E3). lia.
Qed.
(** Only the counts of values change, in step. *)
Lemma core_counts n m ms gets held fly ms' gets' :
  vcore n m ms gets held fly ->
  (forall v, persistent v = false -> handed ms' v - pending gets' v = handed ms v - pending gets v /\ pending gets v <= pending gets' v) ->
  vcore (n + 1) m ms' gets' held fly.
Proof.
  intros [Hd Hs Hf Hh Ha Hv] Hc. split; try done.
  - intros i s Hi Hi0. specialize (Hs i s Hi Hi0). destruct (sl_persist s); [done|]. destruct (Hc (sl_value s) (proj2 (so_value _ _ _ _ _ _ _ Hs))).
    apply (slot_ext ms gets held fly n); [done|lia|done|done|done|done].
  - intros v Hp Hno. specialize (Ha v Hp Hno). destruct (Hc v Hp). lia.
Qed.
(** One slot that is counted changes. *)
Lemma core_update n m ms gets held fly i s s' ms' gets' held' fly' :
  vcore n m ms gets held fly -> m !! i = Some s -> i <> IV_UNUSED_VALINDEX -> sl_persist s = false ->
  sl_value s' = sl_value s -> sl_persist s' = false ->
  (forall j, j <> i -> multiplicity j held' = multiplicity j held /\ fly' !! j = fly !! j) ->
  (forall v, persistent v = false -> v <> sl_value s -> handed ms' v = handed ms v /\ pending gets' v = pending gets v) ->
  slot_ok ms' gets' held' fly' (n + 1) i s' ->
  vcore (n + 1) (<[i := s']> m) ms' gets' held' fly'.
Proof.
  intros [Hd Hs Hf Hh Ha Hv] Hi Hi0 Hp Ev Ep Hj Hw Hok. split.
  - by rewrite lookup_insert_ne.
  - intros j t [[<- <-]|[Hne Ht]]%lookup_insert_Some Hj0; [by rewrite Ep|]. destruct (Hj j) as [E1 E2]; [done|].
    specialize (Hs j t Ht Hj0). destruct (sl_persist t); [destruct Hs; split; by rewrite ?E2|].
    destruct (Hw (sl_value t)) as [E3 E4]; [apply (so_value _ _ _ _ _ _ _ Hs)|intros E; apply Hne; by apply (Hv i j s t)|].
    apply (slot_ext ms gets held fly n); [done|lia|done|done|lia|lia].
  - intros j f Hfj. destruct (decide (j = i)) as [->|Hne]; [split; [done|]; exists s'; by rewrite lookup_insert_eq|].
    destruct (Hj j Hne) as [_ E]. rewrite E in Hfj. rewrite lookup_insert_ne by done. by apply (Hf j f).
  - intros j Hjh. destruct (decide (j = i)) as [->|Hne]; [split; [done|]; by rewrite lookup_insert_eq|].
    rewrite lookup_insert_ne by done. destruct (Hj j Hne) as [E _]. apply Hh. rewrite elem_of_multiplicity in *. lia.
  - intros v Hpv Hno. assert (v <> sl_value s) as Hvs by (intros ->; apply (Hno i s'); [apply lookup_insert_eq|done]).
    destruct (Hw v Hpv Hvs) as [-> ->]. apply Ha; [done|]. intros j t Ht Et. destruct (decide (j = i)) as [->|Hne]; [congruence|].
    apply (Hno j t); [by rewrite lookup_insert_ne|done].
  - intros j k t u Hjt Hku E.
    assert (forall j t, <[i := s']> m !! j = Some t -> exists t0, m !! j = Some t0 /\ sl_value t0 = sl_value t) as Hold.
    { intros j' t' [[<- <-]|[Hne Ht]]%lookup_insert_Some; [by exists s|by exists t']. }
    destruct (Hold j t Hjt) as (t0&Ht0&Et), (Hold k u Hku) as (u0&Hu0&Eu). apply (Hv j k t0 u0); congruence.
Qed.
(** A voucher refers once more to a value that persists. *)
Lemma core_persists n m ms gets held fly i gets' :
  vcore n m ms gets held fly -> (i = IV_UNUSED_VALINDEX \/ exists s, m !! i = Some s /\ sl_persist s = true) ->
  (forall v, persistent v = false -> pending gets' v = pending gets v) ->
  vcore (n + 1) m ms gets' (held ⊎ held_at i) fly.
Proof.
  intros [Hd Hs Hf Hh Ha Hv] Hi Hg. split; try done.
  - intros j t Ht Hj0. specialize (Hs j t Ht Hj0). destruct (sl_persist t) eqn:Ep; [done|].
    pose proof (Hg (sl_value t) (proj2 (so_value _ _ _ _ _ _ _ Hs))).
    apply (slot_ext ms gets held fly n); [done|lia| |done|lia|lia]. unfold held_at. case_match eqn:E; [by rewrite multiplicity_disj_union, multiplicity_empty|].
    destruct Hi as [->|(s&Hi&Hp)]; [done|]. rewrite multiplicity_disj_union, multiplicity_singleton_ne; [lia|congruence].
  - intros j. unfold held_at. case_match eqn:E; [rewrite gmultiset_elem_of_disj_union; intros [?|?]; [by apply Hh|multiset_solver]|].
    rewrite gmultiset_elem_of_disj_union, gmultiset_elem_of_singleton. intros [?| ->]; [by apply Hh|].
    apply Z.eqb_neq in E. split; [done|]. destruct Hi as [->|(s&Hi&_)]; [done|]. by exists s.
  - intros v Hp Hno. rewrite Hg by done. by apply Ha.
Qed.
(** A value is recorded for the first time. *)
Lemma core_insert n m ms gets held fly i k v flag :
  vcore n m ms gets held fly -> 0 <= n -> gets !! k = Some (v, flag) -> get_ok (v, flag) -> no_value m v -> m !! i = None ->
  i <> IV_UNUSED_VALINDEX ->
  vcore (n + 1) (<[i := mk_slot v false (has flag MACH_VOUCHER_ATTR_VALUE_FLAGS_PERSIST) 1 1]> m) ms (delete k gets) (held ⊎ {[+ i +]}) fly.
Proof.
  intros [Hd Hs Hf Hh Ha Hv] Hn Hk [Hdead Hgo] Hno Hi Hi0. simpl in *. set (persist := has flag _) in *.
  assert (forall w, pending (delete k gets) w = pending gets w - if v =? w then 1 else 0) as Hp by (intros w; by rewrite (pending_delete _ _ _ _ Hk)).
  assert (multiplicity i held = 0%nat) as Hmi.
  { destruct (decide (i ∈ held)) as [Hin|Hin]; [|rewrite elem_of_multiplicity in Hin; lia]. apply Hh in Hin as [_ [? E]]. congruence. }
  assert (fly !! i = None) as Hfi.
  { destruct (fly !! i) as [f|] eqn:E; [|done]. apply Hf in E as (_&?&E&_). congruence. }
  split.
  - by rewrite lookup_insert_ne.
  - intros j t [[<- <-]|[Hne Ht]]%lookup_insert_Some Hj0; simpl.
    + destruct (persistent v) eqn:Epv.
      * destruct persist eqn:Eper; [by split|]. destruct Hgo as [->|]; [|done]. by destruct (Hno _ _ Hd).
      * rewrite Hgo. split; simpl; rewrite ?Hfi; [rewrite multiplicity_disj_union, multiplicity_singleton_eq; lia|lia|done| |done|done].
        rewrite Hp, (Ha v Epv Hno), Z.eqb_refl. simpl. lia.
    + specialize (Hs j t Ht Hj0). destruct (sl_persist t); [done|]. assert (v <> sl_value t) as Hvt by (intros ->; by apply (Hno j t)).
      pose proof (Hp (sl_value t)) as E. rewrite (proj2 (Z.eqb_neq _ _) Hvt) in E.
      apply (slot_ext ms gets held fly n); [done|lia| |done|lia|lia]. rewrite multiplicity_disj_union, multiplicity_singleton_ne; [lia|congruence].
  - intros j f Hfj. destruct (Hf j f Hfj) as (?&t&Ht&?). split; [done|]. exists t. rewrite lookup_insert_ne by congruence. done.
  - intros j [Hj|Hj]%gmultiset_elem_of_disj_union.
    + destruct (Hh j Hj) as [? [t Ht]]. split; [done|]. exists t. rewrite lookup_insert_ne by congruence. done.
    + apply gmultiset_elem_of_singleton in Hj as ->. split; [done|]. by rewrite lookup_insert_eq.
  - intros w Hpw Hnw. assert (v <> w) as Hvw by (intros ->; by apply (Hnw i _ (lookup_insert_eq _ _ _))).
    rewrite Hp, (proj2 (Z.eqb_neq _ _) Hvw), Z.sub_0_r. apply Ha; [done|]. intros j t Ht. apply (Hnw j t).
    rewrite lookup_insert_ne by congruence. done.
  - intros j j' t t' [[<- <-]|[Hne Ht]]%lookup_insert_Some [[<- <-]|[Hne' Ht']]%lookup_insert_Some E; simpl in E;
      [done|by destruct (Hno j' t')|by destruct (Hno j t)|by apply (Hv j j' t t')].
Qed.
(** A value goes back to its manager. *)
Lemma core_delete n m ms gets held fly i s made :
  vcore n m ms gets held fly -> m !! i = Some s -> sl_persist s = false ->
  fly !! i = Some (mk_flight (sl_value s) made (Some KERN_SUCCESS)) -> sl_made s = made ->
  vcore (n + 1) (delete i m) ms gets held (delete i fly).
Proof.
  intros [Hd Hs Hf Hh Ha Hv] Hi Hp Hfi <-. destruct (Hf i _ Hfi) as [Hi0 _].
  pose proof (Hs i s Hi Hi0) as Hok. rewrite Hp in Hok. destruct (so_fly _ _ _ _ _ _ _ Hok _ Hfi) as (_&_&_&Hz&_). specialize (Hz eq_refl).
  split.
  - by rewrite lookup_delete_ne.
  - intros j t [Hne Ht]%lookup_delete_Some Hj0. specialize (Hs j t Ht Hj0).
    destruct (sl_persist t); [destruct Hs; split; [done|done|by rewrite lookup_delete_ne]|].
    apply (slot_ext ms gets held fly n); [done|lia|done|by rewrite lookup_delete_ne|done|done].
  - intros j f [Hne Hfj]%lookup_delete_Some. destruct (Hf j f Hfj) as (?&t&Ht&?). split; [done|]. exists t. by rewrite lookup_delete_ne.
  - intros j Hj. assert (i <> j) as Hne.
    { intros <-. rewrite (so_refs _ _ _ _ _ _ _ Hok) in Hz. rewrite elem_of_multiplicity in Hj. lia. }
    rewrite lookup_delete_ne by done. by apply Hh.
  - intros w Hpw Hno. destruct (decide (w = sl_value s)) as [->|Hne].
    + rewrite (so_count _ _ _ _ _ _ _ Hok), Hfi. simpl. lia.
    + apply Ha; [done|]. intros j t Ht E. destruct (decide (i = j)) as [<-|Hij]; [congruence|].
      apply (Hno j t); [by rewrite lookup_delete_ne|done].
  - intros j j' t t' [_ Ht]%lookup_delete_Some [_ Ht']%lookup_delete_Some. by apply Hv.
Qed.

(** ** Steps *)
Lemma wp_ivac_retain c Q : 0 < ivac_refs c < OS_REFCNT_MAX_COUNT -> Q tt (set_ivac_refs (ivac_refs c + 1) c) -> wp ivac_retain Q c.
Proof.
  intros Hr HQ. apply wp_bind, wp_gets, wp_bind. unfold id. apply (wp_lift _ (ivac_refs c + 1)); [|by apply wp_modify].
  unfold os_ref_retain_internal, os_ref_retain_floor_internal, os_ref_check_retain, os_ref_check_overflow, u32, OS_REFCNT_MAX_COUNT in *.
  rewrite (proj2 (Z.ltb_ge _ _)) by lia. rewrite (proj2 (Z.leb_gt _ _)) by lia. simpl. f_equal. apply Z.mod_small. lia.
Qed.
Lemma wp_ivac_unref c : 0 < ivac_refs c <= OS_REFCNT_MAX_COUNT -> wp ivac_unref (fun _ c' => c' = set_ivac_refs (ivac_refs c - 1) c) c.
Proof.
  intros Hr. apply wp_bind, wp_gets, wp_bind. unfold id. apply (wp_lift _ (ivac_refs c - 1)); [|by apply wp_bind, wp_modify, wp_ret].
  unfold os_ref_release_barrier_internal, os_ref_release_n, os_ref_check_underflow, u32, OS_REFCNT_MAX_COUNT in *.
  rewrite (proj2 (Z.ltb_ge _ _)) by lia. simpl. f_equal. apply Z.mod_small. lia.
Qed.
Lemma vthen_wp {A B S} (m : M S A) (Q : A -> S -> Prop) (f : A -> S -> outcome B) (P : B -> Prop) s :
  wp m Q s -> (forall y s', Q y s' -> exists x, f y s' = Done x /\ P x) -> exists x, vthen (m s) f = Done x /\ P x.
Proof. intros (y&s'&->&HQ)%wp_elim Hf. by apply Hf. Qed.

(** Below it the table cannot have to grow beyond its largest size. *)
Definition VLIMIT : Z := 262142.
Definition vok (n : Z) (o : outcome (vconfig MS)) : Prop := exists x, o = Done x /\ exists m, vinv n m x.

Section steps.
Context (n : Z) (m : slots) (c : ivac) (ms : MS) (gets : list (Z * Z)) (held : gmultiset Z) (fly : gmap Z flight) (grow : option Z).
#[local] Abbreviation x := (mk_vconfig c ms gets held fly grow).
Context (Hinv : vinv n m x) (Hn : 0 <= n < VLIMIT) (Hkey : key <> MACH_VOUCHER_ATTR_KEY_NONE).

Lemma vrefs_range : 0 < ivac_refs c < OS_REFCNT_MAX_COUNT /\ (size m <> 0)%nat.
Proof using Hinv Hn.
  destruct Hinv as [_ Hcore _ Hr _ Hs Hp _ _ _ _]. simpl in *. unfold VLIMIT, IVAC_ENTRIES_MAX, OS_REFCNT_MAX_COUNT in *.
  assert (size m <> 0%nat) as Hz; [|split; [rewrite Hr; lia|done]].
  intros E%map_size_empty_inv. pose proof (vc_default _ _ _ _ _ _ Hcore) as Hd. by rewrite E in Hd.
Qed.
(** The parts of the invariant a step does not touch; [c'] differs from [c] in its entries and
    its references. *)
Lemma vinv_intro m' c' ms' gets' held' fly' :
  cache_rep c' m' -> ivac_is_growing c' = ivac_is_growing c -> alen (ivac_table c') = alen (ivac_table c) ->
  vcore (n + 1) m' ms' gets' held' fly' -> Forall get_ok gets' ->
  ivac_refs c' = Z.of_nat (size m') + Z.of_nat (length gets') -> ml_ok ms' ->
  Z.of_nat (size m') <= n + 2 -> Z.of_nat (length gets') <= n + 1 ->
  (forall i, Z.of_nat (multiplicity i held') <= n + 1) -> (forall v, handed ms' v <= n + 1) ->
  vinv (n + 1) m' (mk_vconfig c' ms' gets' held' fly' grow).
Proof using Hinv.
  intros ??? . destruct Hinv as [_ _ _ _ _ _ _ _ _ Hg Hgs]. simpl in *. split; simpl; try done; try lia; try congruence.
  intros old Ho. destruct (Hgs old Ho). split; [congruence|lia].
Qed.

(** The manager still has the value of a reference. *)
Lemma held_handed i s : i ∈ held -> m !! i = Some s -> 0 < sl_refs s /\ (persistent (sl_value s) = false -> 0 < handed ms (sl_value s)).
Proof using Hinv.
  intros Hi Hs. pose proof (vi_core _ _ _ Hinv) as Hcore. simpl in Hcore. destruct (vc_held _ _ _ _ _ _ Hcore i Hi) as [Hi0 _].
  pose proof (vc_slot _ _ _ _ _ _ Hcore i s Hs Hi0) as Hslot. destruct (sl_persist s).
  { destruct (sp_counts _ _ _ Hslot) as [-> _]. split; [lia|]. destruct (sp_value _ _ _ Hslot). congruence. }
  destruct Hslot as [Hr Hm _ Hc _ Hf]. rewrite elem_of_multiplicity in Hi. split; [lia|]. intros _.
  rewrite Hc. pose proof (pending_nonneg gets (sl_value s)). destruct (fly !! i) as [[w made a]|]; simpl; [|lia].
  destruct (Hf _ eq_refl) as (_&_&Hm'&Hz&_). simpl in *. destruct a as [kr|]; [|lia]. case_bool_decide; [|lia].
  destruct (decide (sl_made s = made)) as [E|]; [specialize (Hz E); lia|lia].
Qed.
Lemma prev_value_ok prev : prev = IV_UNUSED_VALINDEX \/ prev ∈ held -> forall c', cache_rep c' m ->
  wp (prev_value prev) (fun vals c2 => c2 = c' /\ forall v, v ∈ vals -> v <> default /\ (persistent v = false -> 0 < handed ms v)) c'.
Proof using Hinv.
  intros Hprev c' Hrep. unfold prev_value. destruct (Z.eqb_spec prev IV_UNUSED_VALINDEX) as [_|Hne].
  { apply wp_ret. split; [done|]. by intros v ?%elem_of_nil. }
  destruct Hprev as [?|Hp]; [done|]. pose proof (vi_core _ _ _ Hinv) as Hcore. simpl in Hcore.
  destruct (vc_held _ _ _ _ _ _ Hcore prev Hp) as [Hp0 [s Hs]]. destruct (held_handed prev s Hp Hs) as [Hr Hha].
  apply wp_bind, wp_bind, (wp_rep_lookup c' m prev s); [done|done|]. intros e He Hu Hf ->. simpl in *.
  apply wp_bind, wp_massert; [by apply Z.ltb_lt|]. apply wp_ret, wp_ret. split; [done|]. intros v ->%list_elem_of_singleton. split; [|done].
  intros E. apply Hp0. by apply (vc_values _ _ _ _ _ _ Hcore _ _ _ _ Hs (vc_default _ _ _ _ _ _ Hcore)).
Qed.
Lemma vget_ok command prev content : prev = IV_UNUSED_VALINDEX \/ prev ∈ held ->
  vok (n + 1) (vperform mgr manager key (VGet command prev content) x).
Proof using Hinv Hn laws.
  intros Hprev. destruct vrefs_range as [Hrr _]. pose proof (vi_rep _ _ _ Hinv) as Hrep. pose proof (vi_core _ _ _ Hinv) as Hcore.
  pose proof (vi_refs _ _ _ Hinv) as Hr. pose proof (vi_size _ _ _ Hinv). pose proof (vi_pending _ _ _ Hinv) as Hlen.
  pose proof (vi_held _ _ _ Hinv) as Hh. pose proof (vi_handed _ _ _ Hinv) as Hha. pose proof (vi_gets _ _ _ Hinv) as Hg. simpl in *.
  eapply vthen_wp.
  { apply wp_bind, wp_ivac_retain; [done|]. apply (prev_value_ok prev Hprev). exact Hrep. }
  intros vals c1 [-> Hvals]. eapply vthen_wp.
  { apply ml_get; [apply (vi_ok _ _ _ Hinv)|exact Hvals|]. intros v. specialize (Hha v). unfold VLIMIT, IVAC_ENTRIES_MAX in Hn. simpl in Hn. lia. }
  intros r ms' [Hok' Hres]. case_bool_decide as Hkr.
  - destruct Hres as [Hdead Hres]. eexists. split; [done|]. exists m.
    assert (forall w, persistent w = false -> handed ms' w = handed ms w + if gv_value r =? w then 1 else 0) as Hw.
    { intros w Hpw. destruct (persistent (gv_value r)) eqn:Epv.
      - destruct Hres as [-> _]. rewrite (proj2 (Z.eqb_neq _ _)); [lia|congruence].
      - by apply Hres. }
    apply vinv_intro; simpl; try done; try lia.
    + apply (core_counts _ _ ms gets); [done|]. intros v Hpv. rewrite pending_cons, Hw by done. simpl. destruct (_ =? _); lia.
    + constructor; [|done]. split; [done|]. simpl. destruct (persistent (gv_value r)); apply Hres.
    + intros i. specialize (Hh i). lia.
    + intros v. specialize (Hha v). destruct (persistent (gv_value r)); [destruct Hres as [-> _]; lia|].
      destruct Hres as [_ ->]. destruct (_ =? _); lia.
  - eapply vthen_wp; [apply wp_ivac_unref; simpl; unfold OS_REFCNT_MAX_COUNT in *; lia|]. intros _ c1 ->. eexists. split; [done|].
    exists m. apply vinv_intro; simpl; try done; try lia.
    + apply (core_counts _ _ ms gets); [done|]. by rewrite Hres.
    + intros i. specialize (Hh i). lia.
    + intros v. rewrite Hres. specialize (Hha v). lia.
Qed.

(** The map after a value that was found has been recorded. *)
Lemma vrecord_found k v flag i s : gets !! k = Some (v, flag) -> m !! i = Some s -> sl_value s = v ->
  vcore (n + 1) (if sl_persist s then m else <[i := bumped s]> m) ms (delete k gets) (held ⊎ held_at i) fly.
Proof using Hinv Hn.
  intros Hk Hi Hv. pose proof (vi_core _ _ _ Hinv) as Hcore. simpl in Hcore. pose proof (pending_delete _ _ _ v Hk) as Hpd. simpl in Hpd.
  rewrite Z.eqb_refl in Hpd.
  assert (forall w, w <> v -> pending (delete k gets) w = pending gets w) as Hpw.
  { intros w Hne. rewrite (pending_delete _ _ _ _ Hk). simpl. rewrite (proj2 (Z.eqb_neq v w)) by congruence. lia. }
  destruct (decide (i = IV_UNUSED_VALINDEX)) as [->|Hi0].
  { rewrite (vc_default _ _ _ _ _ _ Hcore) in Hi. injection Hi as <-. simpl in Hv. subst v. simpl. apply (core_persists n m ms gets); [done|by left|].
    intros w Hw. apply Hpw. intros ->. by rewrite ml_default in Hw. }
  pose proof (vc_slot _ _ _ _ _ _ Hcore i s Hi Hi0) as Hslot. destruct (sl_persist s) eqn:Ep.
  { apply (core_persists n m ms gets); [done|right; by exists s|]. intros w Hw. apply Hpw. intros ->.
    destruct (sp_value _ _ _ Hslot). congruence. }
  pose proof (vi_held _ _ _ Hinv i) as Hhi. simpl in Hhi.
  assert (held_at i = {[+ i +]}) as -> by (unfold held_at; by rewrite (proj2 (Z.eqb_neq _ _) Hi0)).
  destruct Hslot as [Hr Hm Hsv Hc Hidle Hf]. unfold VLIMIT in Hn.
  assert (bumped s = set_sl_made (sl_made s + 1) (set_sl_refs (sl_refs s + 1) s)) as Hb.
  { unfold bumped, u28, u32. rewrite !Z.mod_small by lia. done. }
  rewrite Hb. apply (core_update n m ms gets held fly i s); try done.
  - intros j Hj. split; [|done]. rewrite multiplicity_disj_union, multiplicity_singleton_ne; [lia|done].
  - intros w Hw Hne. split; [done|]. apply Hpw. congruence.
  - rewrite Hv in *. split; simpl; rewrite ?Hv; [rewrite multiplicity_disj_union, multiplicity_singleton_eq; lia|lia|done|lia| |].
    + intros Hnone. destruct (Hidle Hnone). split; [done|]. lia.
    + intros f Hsome. destruct (Hf f Hsome) as (?&?&?&?&?). split_and!; try done; try lia.
Qed.
(** A full table starts to grow, unless it is growing already. *)
Lemma vgrow_begin : (forall i, 0 <= i < alen (ivac_table c) -> is_Some (m !! i)) ->
  vok (n + 1) (vthen (ivac_grow_begin c) (fun o c => Done (mk_vconfig c ms gets held fly (if o is Some _ then o else grow)))).
Proof using Hinv Hn.
  intros Hfull. assert (alen (ivac_table c) <= n + 1) as Hlen.
  { pose proof (vi_size _ _ _ Hinv) as Hsz. assert (list_to_set (seqZ 0 (alen (ivac_table c))) ⊆ dom m) as Hsub%subseteq_size.
    { intros i Hi%elem_of_list_to_set%elem_of_seqZ. apply elem_of_dom, Hfull. lia. }
    rewrite size_dom, size_list_to_set, length_seqZ in Hsub by apply NoDup_seqZ. unfold alen in *. lia. }
  destruct Hinv as [H1 H2 H3 H4 H5 H6 H7 H8 H9 H10 H11]. simpl in *.
  assert (vcore (n + 1) m ms gets held fly) as H2' by (apply (core_counts n m ms gets); [done|intros; lia]).
  apply (vthen_wp ivac_grow_begin (fun o c' => if ivac_is_growing c then o = None /\ c' = c
    else o = Some (alen (ivac_table c)) /\ c' = set_ivac_is_growing true c)).
  { apply wp_bind, wp_gets. unfold id. destruct (ivac_is_growing c); [by apply wp_ret|]. apply wp_bind, wp_modify.
    unfold ivac_table_size, VLIMIT, IVAC_ENTRIES_MAX in *. rewrite (proj2 (Z.leb_gt _ _)) by lia. by apply wp_ret. }
  assert (forall i, Z.of_nat (multiplicity i held) <= n + 1) as H8' by (intros i; specialize (H8 i); lia).
  assert (forall v, handed ms v <= n + 1) as H9' by (intros v; specialize (H9 v); lia).
  intros o c' Ho. destruct (ivac_is_growing c) eqn:Eg; destruct Ho as [-> ->]; (eexists; split; [done|]); exists m.
  - split; simpl; try done; try lia; [by rewrite Eg|]. intros old Eo. destruct (H11 old Eo). split; [done|lia].
  - split; simpl; try done; try lia. intros old [= <-]. split; [done|lia].
Qed.
Lemma vrecord_ok k : (k < length gets)%nat -> vok (n + 1) (vperform mgr manager key (VRecord k) x).
Proof using Hinv Hn laws.
  intros Hk. destruct vrefs_range as [Hrr _]. pose proof (vi_rep _ _ _ Hinv) as Hrep. pose proof (vi_core _ _ _ Hinv) as Hcore.
  pose proof (vi_refs _ _ _ Hinv) as Hr. pose proof (vi_size _ _ _ Hinv) as Hsz. pose proof (vi_pending _ _ _ Hinv) as Hlen.
  pose proof (vi_held _ _ _ Hinv) as Hh. pose proof (vi_handed _ _ _ Hinv) as Hha. pose proof (vi_gets _ _ _ Hinv) as Hg. simpl in *.
  destruct (lookup_lt_is_Some_2 gets k Hk) as [[v flag] Ek]. rewrite Ek. pose proof (proj1 (Forall_lookup _ _) Hg k _ Ek) as Hgo.
  assert (length (delete k gets) = (length gets - 1)%nat) as Hdl by (by apply length_delete).
  assert (Forall get_ok (delete k gets)) as Hgd by (by apply Forall_delete).
  assert (forall i j, Z.of_nat (multiplicity i (held ⊎ held_at j)) <= n + 1) as Hhd.
  { intros i j. specialize (Hh i). unfold held_at. rewrite multiplicity_disj_union. case_match; [rewrite multiplicity_empty; lia|].
    rewrite multiplicity_singleton. case_decide; lia. }
  assert (forall v, handed ms v <= n + 1) as Hha1 by (intros w; specialize (Hha w); lia).
  eapply vthen_wp; [by apply attempt_ok|]. intros r c' [(E1&E2&E3&E4&E5&E6) Hres]. destruct r as [i|i|].
  - destruct Hres as (s&Hi&Hv&Hrep'). eapply vthen_wp; [apply wp_ivac_unref; rewrite E1; unfold OS_REFCNT_MAX_COUNT in *; lia|].
    intros _ c2 ->. eexists. split; [done|]. eexists. apply vinv_intro; simpl; try done; [by eapply vrecord_found|..|apply (vi_ok _ _ _ Hinv)| |lia].
    + rewrite E1, Hdl, Hr. destruct (sl_persist s); [lia|]. rewrite map_size_insert_Some by (by exists s). lia.
    + destruct (sl_persist s); [lia|]. rewrite map_size_insert_Some by (by exists s). lia.
  - destruct Hres as (Hno&Hi&Hi0&Hrep'). eexists. split; [done|]. eexists.
    apply vinv_intro; try done; [|..|apply (vi_ok _ _ _ Hinv)| |lia].
    + unfold held_at. rewrite (proj2 (Z.eqb_neq _ _) Hi0). by apply core_insert; [|lia|..].
    + rewrite E1, Hdl, Hr, map_size_insert_None by done. lia.
    + rewrite map_size_insert_None by done. lia.
  - destruct Hres as (->&Hno&Hfull). by apply vgrow_begin.
Qed.
Lemma vgrown_ok : is_Some grow -> vok (n + 1) (vperform mgr manager key VGrown x).
Proof using Hinv Hn.
  intros [old Ho]. destruct Hinv as [H1 H2 H3 H4 H5 H6 H7 H8 H9 H10 H11]. simpl in *. destruct (H11 old Ho) as [-> Hold]. rewrite Ho.
  eapply vthen_wp; [apply (grow_end_ok c m H1); unfold VLIMIT, IVAC_ENTRIES_MAX in *; lia|].
  intros _ c' (Hrep&Hlen&Hg&Hr&_&_). eexists. split; [done|]. exists m. split; simpl; try done; try lia.
  - apply (core_counts n m ms gets); [done|intros; lia].
  - intros i. specialize (H8 i). lia.
  - intros v. specialize (H9 v). lia.
Qed.

(** What a reference says about its entry. *)
Lemma held_slot i : i ∈ held -> exists s, m !! i = Some s /\ i <> IV_UNUSED_VALINDEX /\ sl_value s <> IVACE_DEAD /\
  0 < sl_refs s < 2 ^ 28 - 1 /\ if sl_persist s then slot_persists fly i s else slot_ok ms gets held fly n i s.
Proof using Hinv Hn.
  intros Hi. pose proof (vi_core _ _ _ Hinv) as Hcore. simpl in Hcore. destruct (vc_held _ _ _ _ _ _ Hcore i Hi) as [Hi0 [s Hs]].
  pose proof (vc_slot _ _ _ _ _ _ Hcore i s Hs Hi0) as Hslot. pose proof (vi_held _ _ _ Hinv i) as Hh. simpl in Hh.
  exists s. split; [done|]. split; [done|]. unfold VLIMIT in Hn. destruct (sl_persist s).
  - split; [apply (sp_value _ _ _ Hslot)|]. split; [|done]. destruct (sp_counts _ _ _ Hslot) as [-> _]. lia.
  - split; [apply (so_value _ _ _ _ _ _ _ Hslot)|]. split; [|done]. rewrite (so_refs _ _ _ _ _ _ _ Hslot).
    rewrite elem_of_multiplicity in Hi. lia.
Qed.
(** A step that changes entries and references, and gets nothing from the manager. *)
Lemma vinv_entries m' c' held' fly' :
  cache_rep c' m' -> same_control c c' -> vcore (n + 1) m' ms gets held' fly' -> size m' = size m ->
  (forall i, Z.of_nat (multiplicity i held') <= n + 1) ->
  vinv (n + 1) m' (mk_vconfig c' ms gets held' fly' grow).
Proof using Hinv.
  intros Hrep (E1&E2&E3&E4&E5&E6) Hcore Hsz Hh. pose proof Hinv as [H1 H2 H3 H4 H5 H6 H7 H8 H9 H10 H11]. simpl in *.
  apply vinv_intro; try done; try lia. intros v. specialize (H9 v). lia.
Qed.
Lemma vcopy_ok i : i ∈ held -> vok (n + 1) (vperform mgr manager key (VCopy i) x).
Proof using Hinv Hn.
  intros Hi. destruct (held_slot i Hi) as (s&Hs&Hi0&Hv&Hr&Hslot). pose proof (vi_rep _ _ _ Hinv) as Hrep.
  pose proof (vi_core _ _ _ Hinv) as Hcore. pose proof (vi_held _ _ _ Hinv) as Hh. simpl in *.
  eapply vthen_wp; [apply (reference_ok c m i s); [done|done|done|lia]|]. intros _ c' [Hsame Hrep']. eexists. split; [done|]. eexists.
  assert (forall j, Z.of_nat (multiplicity j (held ⊎ {[+ i +]})) <= n + 1) as Hh'.
  { intros j. specialize (Hh j). rewrite multiplicity_disj_union, multiplicity_singleton. case_decide; lia. }
  apply vinv_entries; try done; destruct (sl_persist s) eqn:Ep.
  - assert (held ⊎ {[+ i +]} = held ⊎ held_at i) as -> by (unfold held_at; by rewrite (proj2 (Z.eqb_neq _ _) Hi0)).
    apply (core_persists n m ms gets); [done|right; by exists s|done].
  - apply (core_update n m ms gets held fly i s); try done.
    + intros j Hj. split; [|done]. rewrite multiplicity_disj_union, multiplicity_singleton_ne; [lia|done].
    + destruct Hslot as [H1 H2 H3 H4 H5 H6]. unfold u28. rewrite Z.mod_small by lia.
      split; simpl; [rewrite multiplicity_disj_union, multiplicity_singleton_eq; lia|lia|done|done| |].
      * intros Hnone. destruct (H5 Hnone). split; [done|lia].
      * intros f Hsome. destruct (H6 f Hsome) as (?&?&?&Hz&?). split_and!; try done; try lia.
  - done.
  - by rewrite map_size_insert_Some by (by exists s).
Qed.
Lemma vdrop_ok i : i ∈ held -> vok (n + 1) (vperform mgr manager key (VDrop i) x).
Proof using Hinv Hn Hkey.
  intros Hi. destruct (held_slot i Hi) as (s&Hs&Hi0&Hv&Hr&Hslot). pose proof (vi_rep _ _ _ Hinv) as Hrep.
  pose proof (vi_core _ _ _ Hinv) as Hcore. pose proof (vi_held _ _ _ Hinv) as Hh. simpl in *.
  assert (forall j, Z.of_nat (multiplicity j (held ∖ {[+ i +]})) <= n + 1) as Hh'.
  { intros j. specialize (Hh j). rewrite multiplicity_difference. lia. }
  assert (forall j, j <> i -> multiplicity j (held ∖ {[+ i +]}) = multiplicity j held) as Hne.
  { intros j Hj. rewrite multiplicity_difference, multiplicity_singleton_ne; [lia|done]. }
  assert (multiplicity i (held ∖ {[+ i +]}) = (multiplicity i held - 1)%nat) as Heq
    by (by rewrite multiplicity_difference, multiplicity_singleton_eq).
  eapply vthen_wp; [apply (release_begin_ok c m i s); [done|done|lia|done]|]. intros r c' [Hsame Hres].
  destruct (sl_persist s) eqn:Ep.
  { destruct Hres as [-> Hrep']. eexists. split; [done|]. exists m. apply vinv_entries; try done.
    destruct Hcore as [Hd Hsl Hf Hhe Ha Hva]. split; try done.
    - intros j t Ht Hj0. specialize (Hsl j t Ht Hj0). destruct (sl_persist t) eqn:Et; [done|].
      apply (slot_ext ms gets held fly n); [done|lia|apply Hne; congruence|done|done|done].
    - intros j Hj. apply Hhe. rewrite elem_of_multiplicity in *. rewrite multiplicity_difference in Hj. lia. }
  destruct Hslot as [H1 H2 H3 H4 H5 H6]. assert ((multiplicity i held <> 0)%nat) as Hmi by (rewrite elem_of_multiplicity in Hi; lia).
  destruct ((0 <? sl_refs s - 1) || sl_releasing s) eqn:Ecase; destruct Hres as [-> Hrep'].
  - eexists. split; [done|]. eexists. apply vinv_entries; try done; [|by rewrite map_size_insert_Some by (by exists s)].
    apply (core_update n m ms gets held fly i s); try done; [intros j Hj; by rewrite Hne|].
    split; simpl; [rewrite Heq; lia|lia|done|done| |].
    + intros Hnone. destruct (H5 Hnone) as [Erel _]. split; [done|]. rewrite Erel, orb_false_r in Ecase. apply Z.ltb_lt in Ecase. lia.
    + intros f Hsome. destruct (H6 f Hsome) as (?&?&?&Hz&?). split_and!; try done; try lia.
  - eapply vthen_wp; [apply (redrive_ok c' _ i (set_sl_releasing true (set_sl_refs (sl_refs s - 1) s)) (fun made c2 => made = sl_made s /\ c2 = c') Hrep'); [apply lookup_insert_eq|done]|].
    intros made c2 [-> ->]. eexists. split; [done|]. eexists. apply vinv_entries; try done; [|by rewrite map_size_insert_Some by (by exists s)].
    apply orb_false_iff in Ecase as [Ez%Z.ltb_ge Erel].
    assert (fly !! i = None) as Hfi by (destruct (fly !! i) as [f|] eqn:E; [destruct (H6 f eq_refl); congruence|done]).
    rewrite Hfi in H4. simpl in H4.
    apply (core_update n m ms gets held fly i s); try done; [intros j Hj; rewrite Hne by done; by rewrite lookup_insert_ne|].
    split; simpl; rewrite ?lookup_insert_eq; [rewrite Heq; lia|lia|done|simpl; lia|done|].
    intros f [= <-]. simpl. split_and!; try done; try lia.
Qed.

(** What a release under way says about its entry. *)
Lemma flight_slot i v made a : fly !! i = Some (mk_flight v made a) ->
  exists s, m !! i = Some s /\ i <> IV_UNUSED_VALINDEX /\ sl_persist s = false /\ v = sl_value s /\ slot_ok ms gets held fly n i s.
Proof using Hinv.
  intros Hi. pose proof (vi_core _ _ _ Hinv) as Hcore. simpl in Hcore. destruct (vc_fly _ _ _ _ _ _ Hcore i _ Hi) as (Hi0&s&Hs&Hp).
  pose proof (vc_slot _ _ _ _ _ _ Hcore i s Hs Hi0) as Hslot. rewrite Hp in Hslot. exists s. split_and!; try done.
  by destruct (so_fly _ _ _ _ _ _ _ Hslot _ Hi) as (_&E&_).
Qed.
Lemma vanswer_ok i v made : fly !! i = Some (mk_flight v made None) -> vok (n + 1) (vperform mgr manager key (VAnswer i) x).
Proof using Hinv Hn.
  intros Hi. destruct (flight_slot _ _ _ _ Hi) as (s&Hs&Hi0&Hp&->&Hslot). destruct Hinv as [H1 H2 H3 H4 H5 H6 H7 H8 H9 H10 H11].
  simpl in *. rewrite Hi. destruct Hslot as [Hr Hm Hv Hc Hidle Hf]. destruct (Hf _ Hi) as (Erel&_&Hmade&Hz&_).
  rewrite Hi in Hc. simpl in *. pose proof (pending_nonneg gets (sl_value s)).
  eapply vthen_wp; [apply ml_release; [done|apply Hv|lia]|]. intros kr ms' [Hok' Hres].
  assert (kr = KERN_SUCCESS /\ (forall w, handed ms' w = if sl_value s =? w then 0 else handed ms w) /\ made = handed ms (sl_value s) \/
          kr = KERN_FAILURE /\ handed ms' = handed ms /\ made <> handed ms (sl_value s)) as Hkr by (destruct (Z.eqb_spec made (handed ms (sl_value s))); tauto).
  eexists. split; [done|]. exists (<[i := s]> m).
  assert (forall w, handed ms' w <= n + 1) as Hw.
  { intros w. specialize (H9 w). destruct Hkr as [(_&->&_)|(_&->&_)]; [destruct (sl_value s =? w)|]; lia. }
  assert (vcore (n + 1) (<[i := s]> m) ms' gets held (<[i := mk_flight (sl_value s) made (Some kr)]> fly)) as Hcore.
  { apply (core_update n m ms gets held fly i s); try done; [intros j Hj; by rewrite lookup_insert_ne| |].
    - intros w _ Hne. split; [|done]. destruct Hkr as [(_&->&_)|(_&->&_)]; [by rewrite (proj2 (Z.eqb_neq _ _)) by congruence|done].
    - split; simpl; rewrite ?lookup_insert_eq; [done|lia|done| |done|].
      + destruct Hkr as [(->&->&?)|(->&->&?)]; simpl; [rewrite Z.eqb_refl; lia|lia].
      + intros f [= <-]. simpl. split_and!; try done; try lia. intros kr' [= <-] Hne E. destruct Hkr as [(->&_)|(_&_&?)]; [done|lia]. }
  rewrite insert_id in * by done. split; simpl; try done; try lia.
  - intros j. specialize (H8 j). lia.
  - intros old Eo. destruct (H11 old Eo). split; [done|lia].
Qed.
Lemma vend_ok i v made kr : fly !! i = Some (mk_flight v made (Some kr)) -> vok (n + 1) (vperform mgr manager key (VEnd i) x).
Proof using Hinv Hn.
  intros Hi. destruct (flight_slot _ _ _ _ Hi) as (s&Hs&Hi0&Hp&->&Hslot). destruct vrefs_range as [Hrr Hsz0].
  pose proof (vi_rep _ _ _ Hinv) as Hrep. pose proof (vi_core _ _ _ Hinv) as Hcore. pose proof (vi_held _ _ _ Hinv) as Hh.
  simpl in *. rewrite Hi. destruct Hslot as [Hr Hm Hv Hc Hidle Hf]. destruct (Hf _ Hi) as (Erel&_&Hmade&Hz&Hpend).
  rewrite Hi in Hc. simpl in *. specialize (Hpend kr eq_refl). assert (forall j, Z.of_nat (multiplicity j held) <= n + 1) as Hh' by (intros j; specialize (Hh j); lia).
  assert (u32 (sl_made s - made) = sl_made s - made) as Hu by (unfold VLIMIT, u32 in *; rewrite Z.mod_small; lia).
  assert (forall t, size (<[i := t]> m) = size m) as Hsize by (intros t; by rewrite map_size_insert_Some by (by exists s)).
  eapply vthen_wp; [apply (release_end_ok c m i s made kr); done|]. intros r c' [Hsame Hres]. rewrite Hu in Hres. simpl in Hres.
  destruct (Z.eqb_spec (sl_made s) made) as [Em|Em]; [|set (s1 := if bool_decide _ then _ else _) in Hres].
  - case_bool_decide as Hkr; destruct Hres as [-> Hrep'].
    + pose proof Hsame as (E1&E2&E3&E4&E5&E6). eapply vthen_wp; [apply wp_ivac_unref; rewrite E1; lia|].
      intros _ c2 ->. eexists. split; [done|]. exists (delete i m). destruct Hinv as [H1 H2 H3 H4 H5 H6 H7 H8 H9 H10 H11]. simpl in *.
      assert (size (delete i m) = pred (size m)) as Hd by (by rewrite map_size_delete_Some by (by exists s)).
      subst kr. apply vinv_intro; simpl; try done; try lia; [by eapply core_delete|]. intros w. specialize (H9 w). lia.
    + eexists. split; [done|]. eexists. apply vinv_entries; try done.
      apply (core_update n m ms gets held fly i s); try done; [intros j Hj; by rewrite lookup_delete_ne|].
      split; simpl; rewrite ?lookup_delete_eq; [done|lia|done|simpl; lia| |done]. intros _. split; [done|]. intros _. by apply Hpend.
  - assert (sl_value s1 = sl_value s /\ sl_persist s1 = false /\ sl_refs s1 = sl_refs s /\ sl_releasing s1 = true /\
            sl_made s1 = sl_made s - given_back (Some (mk_flight (sl_value s) made (Some kr)))) as (F1&F2&F3&F4&F5)
      by (unfold s1; simpl; case_bool_decide; split_and!; try done; simpl; lia).
    assert (0 < sl_made s1 <= n) as F6 by (rewrite F5; simpl; case_bool_decide; lia). simpl in F5.
    destruct (Z.eqb_spec (sl_refs s) 0) as [Ez|Ez]; destruct Hres as [-> Hrep'].
    + eapply vthen_wp; [rewrite <- F1; apply (redrive_ok c' _ i s1 (fun made c2 => made = sl_made s1 /\ c2 = c') Hrep'); [apply lookup_insert_eq|done]|].
      intros made' c2 [-> ->]. eexists. split; [done|]. eexists. apply vinv_entries; try done.
      apply (core_update n m ms gets held fly i s); try done; [intros j Hj; by rewrite lookup_insert_ne|].
      split; rewrite ?F1, ?F3, ?lookup_insert_eq; [done|lia|done|simpl; lia|done|]. intros f [= <-]. simpl. split_and!; try done; lia.
    + eexists. split; [done|]. eexists. apply vinv_entries; try done.
      apply (core_update n m ms gets held fly i s); try done; [intros j Hj; by rewrite lookup_delete_ne|].
      split; simpl; rewrite ?F1, ?F3, ?lookup_delete_eq; [done|lia|done|simpl; lia| |done]. intros _. by split.
Qed.

(** No step fails. *)
Lemma vstep_ok r : venabled r x -> vok (n + 1) (vperform mgr manager key r x).
Proof using Hinv Hn Hkey.
  destruct r as [command prev content|k| |i|i|i|i]; simpl.
  - apply vget_ok.
  - apply vrecord_ok.
  - apply vgrown_ok.
  - apply vcopy_ok.
  - apply vdrop_ok.
  - intros (v&made&Hi). by eapply vanswer_ok.
  - intros (v&made&kr&Hi). by eapply vend_ok.
Qed.
End steps.

(** While nothing is under way, what the manager handed out is in an entry that is referred to. *)
Lemma nothing_leaks n m c ms held grow : vinv n m (mk_vconfig c ms [] held ∅ grow) -> forall v, persistent v = false -> 0 < handed ms v ->
  let t := ivac_table c in exists i, i ∈ held /\ in_use t i /\ ivace_value (anth t i) = v /\ ivace_made (anth t i) = handed ms v.
Proof.
  intros Hinv v Hp Hv t. subst t. pose proof (vi_rep _ _ _ Hinv) as [_ Hm]. pose proof (vi_core _ _ _ Hinv) as Hcore. simpl in *.
  destruct (decide (map_Exists (fun _ s => sl_value s = v) m)) as [(i&s&Hs&<-)|Hno].
  - assert (i <> IV_UNUSED_VALINDEX) as Hi0.
    { intros ->. rewrite (vc_default _ _ _ _ _ _ Hcore) in Hs. injection Hs as <-. simpl in Hp. by rewrite ml_default in Hp. }
    pose proof (vc_slot _ _ _ _ _ _ Hcore i s Hs Hi0) as Hslot.
    destruct (sl_persist s); [destruct (sp_value _ _ _ Hslot); congruence|]. destruct Hslot as [Hr _ _ Hc Hidle _].
    exists i. apply Hm in Hs as [Hu ->]. simpl in *. destruct (Hidle (lookup_empty i)) as [_ Hz]. rewrite lookup_empty in Hc. unfold pending in *. simpl in *.
    split; [rewrite elem_of_multiplicity; lia|]. split; [done|]. split; [done|]. lia.
  - rewrite (vc_absent _ _ _ _ _ _ Hcore v Hp) in Hv; [done|]. intros i s Hs E. apply Hno. by exists i, s.
Qed.
(** An index that is referred to is an entry in use, and its value is still with the manager. *)
Lemma held_in_use n m c ms gets held fly grow i : vinv n m (mk_vconfig c ms gets held fly grow) -> i ∈ held ->
  let t := ivac_table c in in_use t i /\ 0 < ivace_refs (anth t i) /\
    (persistent (ivace_value (anth t i)) = false -> 0 < handed ms (ivace_value (anth t i))).
Proof.
  intros Hinv Hi t. subst t. pose proof (vi_rep _ _ _ Hinv) as [_ Hm]. pose proof (vi_core _ _ _ Hinv) as Hcore. simpl in *.
  destruct (vc_held _ _ _ _ _ _ Hcore i Hi) as [_ [s Hs]]. pose proof (held_handed _ _ _ _ _ _ _ _ Hinv i s Hi Hs).
  by apply Hm in Hs as [Hu ->].
Qed.

(** ** Every reachable state *)
Lemma vstart_inv key_index ms x : ml_ok ms -> (forall v, handed ms v = 0) -> vstart default key_index ms x -> exists m, vinv 0 m x.
Proof.
  intros Hok Hha (Hreg&Hms&Hg&Hh&Hf&Hgr). pose proof (registered_ok key_index default) as Hw.
  apply wp_elim in Hw as (u&c&E&Hrep&Hlen&Hr&Hgrow&_). rewrite Hreg in E. injection E as <- <-.
  eexists. split; rewrite ?Hms, ?Hg, ?Hh, ?Hf, ?Hgr; simpl; try done; try lia.
  - split.
    + apply lookup_singleton_eq.
    + by intros i s [<- <-]%lookup_singleton_Some Hne.
    + done.
    + multiset_solver.
    + intros v _ _. by rewrite Hha.
    + by intros i j s s' [<- <-]%lookup_singleton_Some [<- <-]%lookup_singleton_Some _.
  - intros v. by rewrite Hha.
Qed.
Lemma vreach_inv key_index ms n x : key <> MACH_VOUCHER_ATTR_KEY_NONE -> ml_ok ms -> (forall v, handed ms v = 0) ->
  vreach mgr manager key default key_index ms n x -> Z.of_nat n <= VLIMIT -> exists m, vinv (Z.of_nat n) m x.
Proof.
  intros Hkey Hok Hha Hx. induction Hx as [x Hx|n x r x' _ IH Hr Hx']; intros Hn; [by eapply vstart_inv|].
  destruct IH as [m Hinv]; [lia|]. destruct x as [c ms' gets held fly grow].
  destruct (vstep_ok (Z.of_nat n) m c ms' gets held fly grow Hinv ltac:(lia) Hkey r Hr) as (x2&E&m2&Hinv2).
  rewrite Hx' in E. injection E as <-. exists m2. by replace (Z.of_nat (S n)) with (Z.of_nat n + 1) by lia.
Qed.


(** C23. In every state the threads can reach the table of a control is well formed: each entry is
    either on the free list or on the chain of the hash of its value, once; no value is in two
    entries; the default is entry 0; the counts fit in the 28 and 32 bits of their fields; and the
    references to the control are one for each entry in use and one for each thread that has a
    value to record. *)
Theorem voucher_cache_typed key_index ms n x :
  key <> MACH_VOUCHER_ATTR_KEY_NONE -> ml_ok ms -> (forall v, handed ms v = 0) ->
  vreach mgr manager key default key_index ms n x -> Z.of_nat n < VLIMIT ->
  let c := v_cache x in let t := ivac_table c in
  exists ch fl used, table_wf t (ivac_init_table_size c) (ivac_freelist c) ch fl /\
    ivace_value (anth t IV_UNUSED_VALINDEX) = default /\
    (forall i, in_use t i -> 0 <= ivace_refs (anth t i) < 2 ^ 28 /\ 0 < ivace_made (anth t i) < 2 ^ 32) /\
    NoDup used /\ (forall i, i ∈ used <-> in_use t i) /\
    ivac_refs c = Z.of_nat (length used + length (v_gets x)).
Proof.
  intros Hkey Hok Hha Hx Hn c t. destruct (vreach_inv _ _ _ _ Hkey Hok Hha Hx) as [m Hinv]; [lia|].
  pose proof (vi_rep _ _ _ Hinv) as [(ch&fl&Hwf) Hm]. pose proof (vi_core _ _ _ Hinv) as Hcore. fold c t in Hwf, Hm.
  exists ch, fl, (elements (dom m)). pose proof (vc_default _ _ _ _ _ _ Hcore) as Hd. split_and!; [done|..|apply NoDup_elements| |].
  - apply Hm in Hd as [_ Hd]. by injection Hd.
  - intros i Hu. assert (m !! i = Some (slot_of (anth t i))) as Hs by (by apply Hm).
    destruct (decide (i = IV_UNUSED_VALINDEX)) as [->|Hi0].
    { rewrite Hd in Hs. injection Hs as _ _ _ <- <-. done. }
    pose proof (vc_slot _ _ _ _ _ _ Hcore i _ Hs Hi0) as Hslot. pose proof (vi_held _ _ _ Hinv i). unfold VLIMIT in Hn.
    destruct (sl_persist _); [destruct (sp_counts _ _ _ Hslot); simpl in *; lia|destruct Hslot as [Hr Hmade _ _ _ _]; simpl in *; lia].
  - intros i. rewrite elem_of_elements, elem_of_dom. split; [by intros [s [? _]%Hm]|]. intros Hu. exists (slot_of (anth t i)). by apply Hm.
  - pose proof (vi_refs _ _ _ Hinv) as Hr. fold c in Hr. rewrite Hr. change (length (elements (dom m))) with (size (dom m)). rewrite size_dom. lia.
Qed.
End protocol.

(** ** User data, at work *)
Section instances.
#[local] Existing Instance DEVELOPMENT.
(** Odd addresses above those in use. *)
Definition next_address (g : gmap Z user_data_element) : Z := 2 * foldr Z.max 0 (map_to_list g).*1 + 1.
Lemma next_address_fresh g : g !! next_address g = None /\ next_address g <> 0 /\ next_address g <> IVACE_DEAD.
Proof.
  assert (forall l a, a ∈ l -> a <= foldr Z.max 0 l) as Hmax.
  { intros l a. induction l as [|b l IH]; [by intros ?%elem_of_nil|]. intros [->|Ha%IH]%elem_of_cons; simpl; lia. }
  assert (forall l, 0 <= foldr Z.max 0 l) as Hpos by (induction l; simpl; lia).
  unfold next_address, IVACE_DEAD. specialize (Hpos (map_to_list g).*1). split; [|lia].
  destruct (g !! _) as [e|] eqn:E; [|done]. apply elem_of_map_to_list in E. apply (list_elem_of_fmap_2 fst) in E. apply Hmax in E. simpl in E. lia.
Qed.
#[local] Instance sample_memory : UserDataMemory := {| user_data_manager := 0x1000; element_alloc := next_address; element_alloc_fresh := next_address_fresh |}.

Definition user_data_perform := vperform user_data_ops user_data_manager MACH_VOUCHER_ATTR_KEY_USER_DATA.
Definition run_voucher (r : vrequest) (x : vconfig user_data) : vconfig user_data :=
  match user_data_perform r x with Done x' => x' | _ => x end.
Definition voucher_control : ivac := Eval vm_compute in
  match (ivac_set_default 0 ;;* ivac_hash_default 0) (ivac_fresh 6) with Done (_, c) => c | _ => ivac_fresh 6 end.
Definition voucher_begin : vconfig user_data := mk_vconfig voucher_control user_data_start [] ∅ ∅ None.
Definition voucher_stored : vconfig user_data := Eval vm_compute in run_voucher (VGet MACH_VOUCHER_ATTR_USER_DATA_STORE 0 [1; 2; 3]) voucher_begin.
Definition voucher_recorded : vconfig user_data := Eval vm_compute in run_voucher (VRecord 0) voucher_stored.
Lemma recorded_reach : vreach user_data_ops user_data_manager MACH_VOUCHER_ATTR_KEY_USER_DATA 0 6 user_data_start 2 voucher_recorded.
Proof.
  apply (vreach_next _ _ _ _ _ _ 1 voucher_stored (VRecord 0)); [|simpl; lia|vm_compute; reflexivity].
  apply (vreach_next _ _ _ _ _ _ 0 voucher_begin (VGet MACH_VOUCHER_ATTR_USER_DATA_STORE 0 [1; 2; 3])); [|by left|vm_compute; reflexivity].
  apply vreach_start. split_and!; try done.
Qed.


Lemma voucher_cache_typed_witness :
  exists used : list Z, ivac_refs (v_cache voucher_recorded) = Z.of_nat (length used) /\ 1 ∈ used.
Proof.
  destruct (voucher_cache_typed user_data_ops user_data_manager MACH_VOUCHER_ATTR_KEY_USER_DATA 0 user_data_laws 6 user_data_start 2 voucher_recorded)
    as (ch&fl&used&_&_&_&_&Hused&Hrefs); [done|apply start_wf|done|apply recorded_reach|done|].
  exists used. rewrite Hrefs. split; [by rewrite Nat.add_0_r|]. apply Hused. split; [|reflexivity]. vm_compute. by split.
Defined.
End instances.
