(* ===== verification/VoucherLayer.v ===== *)
(** * Vouchers hold the references of the value caches

    What the calls of a voucher do to the caches of its attributes: each is a sequence of steps of
    the protocol of [VoucherProps], so the invariant of every cache is kept, with the
    references of the tables of the vouchers. *)

From stdpp Require Import gmultiset.
From S2P Require Import Prelude MachPort KmsgQueue KmsgSpec Prng OsRefcnt IpcTable IpcHash IpcState IpcSpace IpcEntry IpcPort IpcMqueue IpcRequest IpcPortLife IpcKobject IpcRight RightDrop RightCopy IpcObject VoucherCache VoucherManager IpcVoucher IpcVoucherCalls VoucherSpec VoucherProps.

Abbreviation KEYS := MACH_VOUCHER_ATTR_KEY_NUM_WELL_KNOWN.

(** Managers of the attributes, each with the contract of [ManagerLaws]; a call for one key leaves
    the counts of the others alone, and no manager hands out a voucher. *)
Class Managers {MS : Type} (mgr : AttrManager MS) := {
  registered : Z -> bool;
  manager_of : Z -> Z;
  default_of : Z -> Z;
  mg_ok : Z -> MS -> Prop;
  mg_handed : Z -> MS -> Z -> Z;
  mg_persistent : Z -> Z -> bool;
  mg_range k : registered k = true -> 0 <= k < KEYS /\ manager_of k <> IVAM_NULL;
  mg_default k : registered k = true -> mg_persistent k (default_of k) = true;
  mg_get k ms command prev content : registered k = true -> mg_ok k ms ->
    (forall v, v ∈ prev -> v <> default_of k /\ (mg_persistent k v = false -> 0 < mg_handed k ms v)) -> (forall v, mg_handed k ms v < 2 ^ 32 - 1) ->
    wp (ivam_get_value (manager_of k) (k + 1) command prev content) (fun r ms' => mg_ok k ms' /\
      let v := gv_value r in
      (if bool_decide (gv_kr r = KERN_SUCCESS) then
        v <> IVACE_DEAD /\
        if mg_persistent k v then mg_handed k ms' = mg_handed k ms /\ (v = default_of k \/ has (gv_flags r) MACH_VOUCHER_ATTR_VALUE_FLAGS_PERSIST = true)
        else has (gv_flags r) MACH_VOUCHER_ATTR_VALUE_FLAGS_PERSIST = false /\
             forall w, mg_handed k ms' w = mg_handed k ms w + if v =? w then 1 else 0
      else mg_handed k ms' = mg_handed k ms)) ms;
  mg_release k ms v made : registered k = true -> mg_ok k ms -> mg_persistent k v = false -> 0 < made <= mg_handed k ms v ->
    wp (ivam_release_value (manager_of k) (k + 1) v made) (fun kr ms' => mg_ok k ms' /\
      if made =? mg_handed k ms v then kr = KERN_SUCCESS /\ forall w, mg_handed k ms' w = if v =? w then 0 else mg_handed k ms w
      else kr = KERN_FAILURE /\ mg_handed k ms' = mg_handed k ms) ms;
  mg_get_frame k j ms command prev content r ms' : registered k = true -> registered j = true -> j <> k -> mg_ok j ms ->
    ivam_get_value (manager_of k) (k + 1) command prev content ms = Done (r, ms') -> mg_ok j ms' /\ mg_handed j ms' = mg_handed j ms;
  mg_release_frame k j ms v made kr ms' : registered k = true -> registered j = true -> j <> k -> mg_ok j ms ->
    ivam_release_value (manager_of k) (k + 1) v made ms = Done (kr, ms') -> mg_ok j ms' /\ mg_handed j ms' = mg_handed j ms;
  mg_no_voucher k ms command prev content r ms' : registered k = true ->
    ivam_get_value (manager_of k) (k + 1) command prev content ms = Done (r, ms') -> gv_voucher r = IV_NULL;
}.

(** ** The protocol, step by step *)
Lemma vthen_Done {A B S} (x : outcome (A * S)) (f : A -> S -> outcome B) y :
  vthen x f = Done y -> exists a s, x = Done (a, s) /\ f a s = Done y.
Proof. destruct x as [[a s]| |]; simpl; [|done..]. intros E. by exists a, s. Qed.

Section sections.
Context `{KernelConfig}.
Lemma lookup_Done i c e c' : ivace_lookup i c = Done (e, c') -> c' = c /\ aget (ivac_table c) i = Done e.
Proof. unfold ivace_lookup, bind, gets, id. case_match; [done|]. unfold lift. destruct (aget _ _); [|done..]. by intros [= <- <-]. Qed.
Lemma massert_Done {S} b what (s : S) x s' : massert b what s = Done (x, s') -> s' = s.
Proof. unfold massert, lift. destruct (kassert b what); [|done..]. by intros [= _ <-]. Qed.
Lemma bind_Done {S A B} (m : M S A) (f : A -> M S B) s y s' : bind m f s = Done (y, s') -> exists a s1, m s = Done (a, s1) /\ f a s1 = Done (y, s').
Proof. unfold bind. destruct (m s) as [[a s1]| |]; [|done..]. intros E. by exists a, s1. Qed.
Lemma redrive_Done i v c made c1 : ivace_redrive i v c = Done (made, c1) -> c1 = c.
Proof. by intros (e&s1&[-> _]%lookup_Done&(?&?&->%massert_Done&(?&?&->%massert_Done&[= <- <-])%bind_Done)%bind_Done)%bind_Done. Qed.
(** While nothing else happens a release is not tried again. *)
Lemma release_once i v kr c made c1 r c2 :
  ivace_redrive i v c = Done (made, c1) -> ivace_release_end i v made kr c1 = Done (r, c2) -> c1 = c /\ r <> ReleaseAgain.
Proof.
  intros (e&s1&[-> He]%lookup_Done&(?&?&->%massert_Done&(?&?&->%massert_Done&[= <- <-])%bind_Done)%bind_Done)%bind_Done.
  intros (e'&s1&[-> He']%lookup_Done&(?&?&->%massert_Done&Hr)%bind_Done)%bind_Done. rewrite He in He'. injection He' as <-.
  split; [done|]. rewrite Z.eqb_refl in Hr. simpl in Hr. case_bool_decide.
  - by apply bind_Done in Hr as (?&?&_&[= <- _]).
  - apply bind_Done in Hr as (?&?&_&Hr). apply bind_Done in Hr as (?&?&_&Hr). apply bind_Done in Hr as (?&?&_&Hr).
    apply bind_Done in Hr as (?&?&_&Hr). apply bind_Done in Hr as (?&?&_&[= <- _]). done.
Qed.
Lemma find_Done fuel : forall i v c r c', ivace_find fuel i v c = Done (r, c') -> c' = c.
Proof.
  induction fuel as [|fuel IH]; intros i v c r c'; [done|]. simpl. case_match; [by intros [= _ <-]|].
  intros (e&?&[-> _]%lookup_Done&(?&?&->%massert_Done&Hr)%bind_Done)%bind_Done. case_match; [by injection Hr|].
  apply bind_Done in Hr as (?&?&->%massert_Done&Hr). by apply IH in Hr.
Qed.
Lemma attempt_full v flag c c' : ivace_reference_attempt v flag c = Done (RefFull, c') -> c' = c /\ ivac_freelist c = IV_FREELIST_END.
Proof.
  intros (?&?&[= <- <-]&(?&?&[-> _]%lookup_Done&(found&?&->%find_Done&Hr)%bind_Done)%bind_Done)%bind_Done. unfold id in *.
  destruct found as [i|].
  - apply bind_Done in Hr as (?&?&_&Hr). by apply bind_Done in Hr as (?&?&_&[=]).
  - destruct (Z.eqb_spec (ivac_freelist c) IV_FREELIST_END) as [|_]; [by injection Hr|].
    apply bind_Done in Hr as (?&?&_&Hr). apply bind_Done in Hr as (?&?&_&Hr). apply bind_Done in Hr as (?&?&_&Hr).
    by apply bind_Done in Hr as (?&?&_&[=]).
Qed.
Lemma grow_end_freelist old c x c' : ivac_grow_end old c = Done (x, c') -> ivac_freelist c' = old.
Proof.
  intros (?&?&->%massert_Done&(?&?&->%massert_Done&(?&?&[= <- <-]&Hr)%bind_Done)%bind_Done)%bind_Done.
  apply bind_Done in Hr as (?&?&_&Hr). apply bind_Done in Hr as (?&?&_&Hr). apply bind_Done in Hr as (?&?&[= _ <-]&[= _ <-]). done.
Qed.
End sections.

(** ** The key of a control never changes *)
Definition keeps_key {A} (m : M ivac A) : Prop := forall c x c', m c = Done (x, c') -> ivac_key_index c' = ivac_key_index c.
Create HintDb keeps.
Section keeps.
Context `{KernelConfig}.
Lemma keeps_bind {A B} (m : M ivac A) (f : A -> M ivac B) : keeps_key m -> (forall a, keeps_key (f a)) -> keeps_key (bind m f).
Proof. intros Hm Hf c x c' (a&c1&E1&E2)%bind_Done. rewrite (Hf _ _ _ _ E2). by apply (Hm _ _ _ E1). Qed.
Lemma keeps_ret {A} (x : A) : keeps_key (ret x).
Proof. by intros c y c' [= _ <-]. Qed.
Lemma keeps_gets {A} (f : ivac -> A) : keeps_key (gets f).
Proof. by intros c y c' [= _ <-]. Qed.
Lemma keeps_lift {A} (o : outcome A) : keeps_key (lift o).
Proof. intros c y c'. unfold lift. destruct o; [|done..]. by intros [= _ <-]. Qed.
Lemma keeps_massert b what : keeps_key (massert b what).
Proof. apply keeps_lift. Qed.
Lemma keeps_panic {A} why : keeps_key (panic (A := A) why).
Proof. done. Qed.
Lemma keeps_modify f : (forall c, ivac_key_index (f c) = ivac_key_index c) -> keeps_key (modify f).
Proof. by intros Hf c y c' [= _ <-]. Qed.
Lemma keeps_lookup i : keeps_key (ivace_lookup i).
Proof. by intros c e c' [-> _]%lookup_Done. Qed.
Lemma keeps_put i e : keeps_key (ivace_put i e).
Proof. by apply keeps_modify. Qed.
Lemma keeps_find fuel i v : keeps_key (ivace_find fuel i v).
Proof. by intros c r c' ->%find_Done. Qed.
End keeps.
#[export] Hint Resolve keeps_bind keeps_ret keeps_gets keeps_lift keeps_massert keeps_panic keeps_lookup keeps_put keeps_find : keeps.
(** Through the sequences and case distinctions of a section. *)
Ltac keeps :=
  lazymatch goal with
  | |- keeps_key (bind _ _) => apply keeps_bind; [keeps|intros; keeps]
  | |- keeps_key (when _ _) => unfold when; keeps
  | |- keeps_key (modify _) => by apply keeps_modify
  | |- keeps_key (if ?b then _ else _) => destruct b; keeps
  | |- keeps_key (match ?x with _ => _ end) => destruct x; keeps
  | |- keeps_key (let x := _ in _) => cbv zeta; keeps
  | |- _ => auto with keeps
  end.
Section keeps_sections.
Context `{KernelConfig}.
Lemma keeps_mod i f : keeps_key (ivace_mod i f).
Proof. unfold ivace_mod. keeps. Qed.
Lemma keeps_before fuel : forall h i, keeps_key (ivace_before fuel h i).
Proof. induction fuel as [|fuel IH]; intros h i; [done|]. cbn [ivace_before]. keeps. Qed.
#[local] Hint Resolve keeps_mod keeps_before : keeps.
Lemma keeps_unhash i v n : keeps_key (ivace_unhash i v n).
Proof. unfold ivace_unhash. keeps. Qed.
#[local] Hint Resolve keeps_unhash : keeps.
Lemma keeps_attempt v f : keeps_key (ivace_reference_attempt v f).
Proof. unfold ivace_reference_attempt. keeps. Qed.
Lemma keeps_reference i : keeps_key (ivace_reference_locked i).
Proof. unfold ivace_reference_locked. keeps. Qed.
Lemma keeps_value i : keeps_key (ivace_value_locked i).
Proof. unfold ivace_value_locked. keeps. Qed.
Lemma keeps_begin k i : keeps_key (ivace_release_begin k i).
Proof. unfold ivace_release_begin. keeps. Qed.
Lemma keeps_redrive i v : keeps_key (ivace_redrive i v).
Proof. unfold ivace_redrive. keeps. Qed.
Lemma keeps_end i v made kr : keeps_key (ivace_release_end i v made kr).
Proof. unfold ivace_release_end. keeps. Qed.
Lemma keeps_retain : keeps_key ivac_retain.
Proof. unfold ivac_retain. keeps. Qed.
Lemma keeps_unref : keeps_key ivac_unref.
Proof. unfold ivac_unref. keeps. Qed.
Lemma keeps_grow_begin : keeps_key ivac_grow_begin.
Proof. unfold ivac_grow_begin. keeps. Qed.
Lemma keeps_grow_end n : keeps_key (ivac_grow_end n).
Proof. unfold ivac_grow_end. keeps. Qed.
End keeps_sections.
Lemma vperform_key `{KernelConfig} {MS} (mgr : AttrManager MS) manager key r x x' :
  vperform mgr manager key r x = Done x' -> ivac_key_index (v_cache x') = ivac_key_index (v_cache x).
Proof.
  destruct x as [c ms gets held fly grow]. destruct r as [command prev content|k| |i|i|i|i]; cbn [vperform v_cache].
  - intros (vals&c1&E1&(r&ms1&_&E2)%vthen_Done)%vthen_Done. assert (ivac_key_index c1 = ivac_key_index c) as <-.
    { revert E1. apply (keeps_bind _ _ keeps_retain). intros _. unfold prev_value. keeps. apply keeps_value. }
    case_bool_decide; [by injection E2 as <-|]. apply vthen_Done in E2 as (?&c2&E&[= <-]). by apply keeps_unref in E.
  - destruct (gets !! k) as [[v flag]|]; [|by intros [= <-]].
    intros (r&c1&E1%keeps_attempt&E2)%vthen_Done. rewrite <- E1. destruct r.
    + apply vthen_Done in E2 as (?&c2&E&[= <-]). by apply keeps_unref in E.
    + by injection E2 as <-.
    + apply vthen_Done in E2 as (?&c2&E&[= <-]). by apply keeps_grow_begin in E.
  - destruct grow; [|by intros [= <-]]. intros (?&c1&E1%keeps_grow_end&[= <-])%vthen_Done. done.
  - intros (?&c1&E1%keeps_reference&[= <-])%vthen_Done. done.
  - intros (r&c1&E1%keeps_begin&E2)%vthen_Done. rewrite <- E1. destruct r; [|by injection E2 as <-].
    apply vthen_Done in E2 as (?&c2&E&[= <-]). by apply keeps_redrive in E.
  - repeat case_match; try by intros [= <-]. intros (?&?&_&[= <-])%vthen_Done. done.
  - repeat case_match; try by intros [= <-]. intros (r&c1&E1%keeps_end&E2)%vthen_Done. rewrite <- E1. destruct r.
    + by injection E2 as <-.
    + apply vthen_Done in E2 as (?&c2&E&[= <-]). by apply keeps_redrive in E.
    + apply vthen_Done in E2 as (?&c2&E&[= <-]). by apply keeps_unref in E.
Qed.

(** ** The caches of all attributes *)
Section shift.
Context {MS : Type} (mgr : AttrManager MS) (manager key default : Z) (laws : ManagerLaws mgr manager key default).
(** Another manager's business, and a larger bound. *)
Lemma vinv_shift n n' m c ms ms' gets held fly grow : vinv mgr manager key default laws n m (mk_vconfig c ms gets held fly grow) ->
  n <= n' -> ml_ok ms' -> handed ms' = handed ms -> vinv mgr manager key default laws n' m (mk_vconfig c ms' gets held fly grow).
Proof.
  intros [H1 [Ha Hb Hc Hd He Hf] H3 H4 H5 H6 H7 H8 H9 H10 H11] Hn Hok Hh. simpl in *. split; simpl; try done; try lia.
  - split; try done.
    + intros i s Hi Hi0. specialize (Hb i s Hi Hi0). destruct (sl_persist s); [done|].
      apply (slot_ext _ _ _ _ _ ms gets held fly n); try done. by rewrite Hh.
    + intros v Hp Hno. rewrite Hh. by apply He.
  - intros i. specialize (H8 i). lia.
  - intros v. rewrite Hh. specialize (H9 v). lia.
  - intros old Eo. destruct (H11 old Eo). split; [done|lia].
Qed.
End shift.

(** What is under way for an attribute. *)
Record under_way := mk_under_way { u_gets : list (Z * Z); u_held : gmultiset Z; u_fly : gmap Z flight; u_grow : option Z }.
Definition at_rest (held : gmultiset Z) : under_way := mk_under_way [] held ∅ None.
Definition under_way_of {MS} (x : vconfig MS) : under_way := mk_under_way (v_gets x) (v_held x) (v_fly x) (v_grow x).
Definition upd {A} (F : Z -> A) (k : Z) (y : A) : Z -> A := fun j => if j =? k then y else F j.

Section layer.
Context `{KernelConfig} `{TableSizes} `{Concurrency} `{Externals} `{RequestSizes} `{KobjectOps} `{Messages} {MS : Type} {mgr : AttrManager MS} `{!Managers mgr}.
Implicit Types (s : vst MS) (F : Z -> under_way) (k N : Z).

Definition laws_of k (Hk : registered k = true) : ManagerLaws mgr (manager_of k) (k + 1) (default_of k) := {|
  ml_ok := mg_ok k; handed := mg_handed k; persistent := mg_persistent k; ml_default := mg_default k Hk;
  ml_get ms command prev content := mg_get k ms command prev content Hk;
  ml_release ms v made := mg_release k ms v made Hk;
|}.
Definition config_of (c : ivac) (ms : MS) (u : under_way) : vconfig MS := mk_vconfig c ms (u_gets u) (u_held u) (u_fly u) (u_grow u).
Definition key_inv k N (c : ivac) (ms : MS) (u : under_way) : Prop :=
  exists Hk m, vinv mgr (manager_of k) (k + 1) (default_of k) (laws_of k Hk) N m (config_of c ms u).
Record caches N s F : Prop := {
  ca_len : alen (g_table s) = KEYS;
  ca_none k : 0 <= k < KEYS -> registered k = false -> anth (g_table s) k = mk_ivgte IVAM_NULL IVAC_NULL MACH_VOUCHER_ATTR_KEY_NONE;
  ca_key k : registered k = true -> exists a c, anth (g_table s) k = mk_ivgte (manager_of k) a (k + 1) /\ a <> IVAC_NULL /\
    g_controls s !! a = Some c /\ ivac_key_index c = k /\ key_inv k N c (g_mgr s) (F k);
}.
(** The state after a step of the protocol of one attribute. *)
Definition stepped (a : Z) (x : vconfig MS) s : vst MS := set_g_mgr (v_mgr x) (set_g_controls (<[a := v_cache x]> (g_controls s)) s).
Definition others_keep k (ms ms' : MS) : Prop :=
  forall j, registered j = true -> j <> k -> mg_ok j ms -> mg_ok j ms' /\ mg_handed j ms' = mg_handed j ms.

Lemma key_inv_shift k N N' c ms ms' u : key_inv k N c ms u -> N <= N' -> (mg_ok k ms -> mg_ok k ms' /\ mg_handed k ms' = mg_handed k ms) ->
  key_inv k N' c ms' u.
Proof.
  intros (Hk&m&Hinv) HN Hms. exists Hk, m. pose proof (vi_ok _ _ _ _ _ _ _ _ Hinv) as Hok. destruct (Hms Hok) as [Hok' Hh].
  by apply (vinv_shift _ _ _ _ _ N N' m c ms).
Qed.
Lemma caches_step N s F k a c r x' : caches N s F -> registered k = true -> anth (g_table s) k = mk_ivgte (manager_of k) a (k + 1) ->
  g_controls s !! a = Some c -> 0 <= N < VLIMIT -> venabled r (config_of c (g_mgr s) (F k)) ->
  vperform mgr (manager_of k) (k + 1) r (config_of c (g_mgr s) (F k)) = Done x' -> others_keep k (g_mgr s) (v_mgr x') ->
  caches (N + 1) (stepped a x' s) (upd F k (under_way_of x')).
Proof.
  intros [Hl Hn Hc] Hk Ha Hca HN Hen Hr Hot. split; [done|done|]. intros j Hj. destruct (Hc j Hj) as (b&cb&Hb&Hb0&Hcb&Hidx&Hinv).
  exists b. destruct (decide (j = k)) as [->|Hne].
  - rewrite Ha in Hb. injection Hb as <-. rewrite Hca in Hcb. injection Hcb as <-. exists (v_cache x'). simpl. rewrite lookup_insert_eq.
    split_and!; try done; [by rewrite (vperform_key _ _ _ _ _ _ Hr)|]. unfold upd. rewrite Z.eqb_refl.
    destruct Hinv as (Hk'&m&Hinv). exists Hk'.
    destruct (vstep_ok mgr (manager_of k) (k + 1) (default_of k) (laws_of k Hk') N m _ _ _ _ _ _ Hinv HN ltac:(destruct (mg_range k Hk); unfold MACH_VOUCHER_ATTR_KEY_NONE; lia) r Hen)
      as (x2&E&m2&Hinv2). fold (config_of c (g_mgr s) (F k)) in E. rewrite Hr in E. injection E as <-. exists m2. by destruct x'.
  - exists cb. simpl. assert (a <> b) as Hab by (intros ->; rewrite Hca in Hcb; injection Hcb as <-; destruct (Hc k Hk) as (?&?&Ha'&_&Hca'&Hidx'&_);
      rewrite Ha in Ha'; injection Ha' as <-; congruence).
    rewrite lookup_insert_ne by done. split_and!; try done. unfold upd. rewrite (proj2 (Z.eqb_neq _ _) Hne).
    apply (key_inv_shift j N _ _ (g_mgr s)); [done|lia|]. by apply Hot.
Qed.

(** ** Running on a part of the state *)
Lemma wp_in_control {A} a c (op : M ivac A) x c' Q s : g_controls s !! a = Some c -> op c = Done (x, c') ->
  Q x (set_g_controls (<[a := c']> (g_controls s)) s) -> wp (in_control a op) Q s.
Proof. unfold wp, in_control, focus. by intros -> ->. Qed.
Lemma wp_in_manager {A} (op : M MS A) x ms' Q s : op (g_mgr s) = Done (x, ms') -> Q x (set_g_mgr ms' s) -> wp (in_manager op) Q s.
Proof. unfold wp, in_manager, focus. by intros ->. Qed.
Lemma control_id a c s : g_controls s !! a = Some c -> set_g_controls (<[a := c]> (g_controls s)) s = s.
Proof. intros Ha. rewrite insert_id by done. by destruct s. Qed.
Definition same_rest s s' : Prop :=
  g_kst s' = g_kst s /\ g_vouchers s' = g_vouchers s /\ ivht_bucket s' = ivht_bucket s /\ ivht_count s' = ivht_count s.
Lemma same_rest_trans s s1 s2 : same_rest s s1 -> same_rest s1 s2 -> same_rest s s2.
Proof. unfold same_rest. intros (?&?&?&?) (?&?&?&?). split_and!; congruence. Qed.
Lemma stepped_rest a x s : same_rest s (stepped a x s).
Proof. done. Qed.

Lemma caches_ext N s F F' : caches N s F -> (forall k, registered k = true -> F' k = F k) -> caches N s F'.
Proof. intros [Hl Hn Hc] HF. split; [done|done|]. intros k Hk. rewrite HF by done. by apply Hc. Qed.
Lemma caches_mono N N' s F : caches N s F -> N <= N' -> caches N' s F.
Proof.
  intros [Hl Hn Hc] HN. split; [done|done|]. intros k Hk. destruct (Hc k Hk) as (a&c&?&?&?&?&Hi). exists a, c. split_and!; try done.
  by apply (key_inv_shift k N _ _ (g_mgr s)).
Qed.
Lemma key_inv_refs k N c ms u : key_inv k N c ms u -> 0 < ivac_refs c.
Proof.
  intros (Hk&m&Hinv). pose proof (vi_refs _ _ _ _ _ _ _ _ Hinv) as Hr. simpl in Hr. rewrite Hr. pose proof (vc_default _ _ _ _ _ _ _ _ _ _ _ (vi_core _ _ _ _ _ _ _ _ Hinv)) as Hd.
  assert (size m <> 0%nat); [|lia]. intros E%map_size_empty_inv. by rewrite E in Hd.
Qed.
Lemma step N s F k r : caches N s F -> registered k = true -> 0 <= N < VLIMIT -> (forall c, venabled r (config_of c (g_mgr s) (F k))) ->
  exists a c x', anth (g_table s) k = mk_ivgte (manager_of k) a (k + 1) /\ a <> IVAC_NULL /\ g_controls s !! a = Some c /\ ivac_key_index c = k /\
    vperform mgr (manager_of k) (k + 1) r (config_of c (g_mgr s) (F k)) = Done x' /\
    (others_keep k (g_mgr s) (v_mgr x') -> caches (N + 1) (stepped a x' s) (upd F k (under_way_of x'))).
Proof.
  intros Hc Hk HN Hen. destruct (ca_key _ _ _ Hc k Hk) as (a&c&Ha&Ha0&Hca&Hidx&Hk'&m&Hinv). exists a, c.
  destruct (vstep_ok mgr (manager_of k) (k + 1) (default_of k) (laws_of k Hk') N m _ _ _ _ _ _ Hinv HN ltac:(destruct (mg_range k Hk); unfold MACH_VOUCHER_ATTR_KEY_NONE; lia) r (Hen c))
    as (x'&E&_). exists x'. split_and!; try done. intros Hot. by eapply caches_step.
Qed.
Lemma wp_ivgt_lookup N s F k a Q : caches N s F -> registered k = true -> anth (g_table s) k = mk_ivgte (manager_of k) a (k + 1) ->
  Q (manager_of k, a) s -> wp (ivgt_lookup k false) Q s.
Proof.
  intros Hc Hk Ha HQ. destruct (mg_range k Hk) as [Hr _]. unfold ivgt_lookup. rewrite (proj2 (Z.ltb_lt _ _)) by lia.
  apply wp_bind, wp_bind, wp_gets. unfold id. eapply wp_lift; [apply aget_in; by rewrite (ca_len _ _ _ Hc)|]. rewrite Ha. simpl.
  destruct (ca_key _ _ _ Hc k Hk) as (a'&c&Ha'&Ha0&Hca&Hidx&_). rewrite Ha in Ha'. injection Ha' as <-.
  rewrite (proj2 (Z.eqb_neq _ _) Ha0). simpl. apply wp_bind, wp_bind. eapply wp_in_control; [done|done|]. rewrite (control_id _ _ _ Hca).
  apply wp_bind, wp_massert; [by apply Z.eqb_eq|]. by apply wp_ret, wp_ret.
Qed.
Lemma wp_index_to_key N s F k Q : caches N s F -> registered k = true -> Q (k + 1) s -> wp (iv_index_to_key k) Q s.
Proof.
  intros Hc Hk HQ. destruct (mg_range k Hk) as [Hr _]. unfold iv_index_to_key. rewrite (proj2 (Z.ltb_lt _ _)) by lia.
  apply wp_bind, wp_bind, wp_gets. unfold id. eapply wp_lift; [apply aget_in; by rewrite (ca_len _ _ _ Hc)|].
  destruct (ca_key _ _ _ Hc k Hk) as (a'&c&->&_). by apply wp_ret.
Qed.

(** ** Giving a reference up *)
Definition rest (R : Z -> gmultiset Z) : Z -> under_way := fun k => at_rest (R k).
(** The entry is gone from the flights of its key. *)
Lemma rest_upd3 N s R k u1 u2 H' : caches N s (upd (upd (upd (rest R) k u1) k u2) k (at_rest H')) -> caches N s (rest (upd R k H')).
Proof. intros Hc. apply (caches_ext _ _ _ _ Hc). intros j _. unfold rest, upd. by destruct (j =? k). Qed.
Lemma rest_upd1 N s R k H' : caches N s (upd (rest R) k (at_rest H')) -> caches N s (rest (upd R k H')).
Proof. intros Hc. apply (caches_ext _ _ _ _ Hc). intros j _. unfold rest, upd. by destruct (j =? k). Qed.
Lemma upd_eq {A} (F : Z -> A) k y : upd F k y k = y.
Proof. unfold upd. by rewrite Z.eqb_refl. Qed.
Lemma keep_same k (ms : MS) : others_keep k ms ms.
Proof. by intros j _ _ ?. Qed.
(** Giving the value back, from [redrive:] on. *)
Lemma wp_release_rounds N s R k i H' a c c1 v made : let x1 := mk_vconfig c1 (g_mgr s) [] H' {[ i := mk_flight v made None ]} None in
  caches N (stepped a x1 s) (upd (rest R) k (under_way_of x1)) -> registered k = true -> 0 <= N < VLIMIT - 1 ->
  anth (g_table s) k = mk_ivgte (manager_of k) a (k + 1) -> g_controls s !! a = Some c -> ivace_redrive i v c1 = Done (made, c1) ->
  wp (release_rounds 1 (manager_of k) a (k + 1) i v) (fun _ s' => caches (N + 2) s' (rest (upd R k H')) /\ same_rest s s')
     (set_g_controls (<[a := c1]> (g_controls s)) s).
Proof.
  intros x1 Hc1 Hk HN Ha Hca Er.
  destruct (step N _ _ k (VAnswer i) Hc1 Hk ltac:(lia)) as (a'&c'&x2&Ha'&Ha0&Hca'&_&E2&Hc2).
  { intros c2. exists v, made. rewrite upd_eq. simpl. apply lookup_singleton_eq. }
  simpl in Ha', Hca'. rewrite Ha in Ha'. injection Ha' as <-. rewrite lookup_insert_eq in Hca'. injection Hca' as <-.
  unfold config_of in E2. rewrite upd_eq in E2. simpl in E2. rewrite lookup_singleton_eq in E2.
  apply vthen_Done in E2 as (kr&ms2&Em&[= <-]). simpl in Hc2.
  specialize (Hc2 ltac:(intros j Hj Hne Hok; by apply (mg_release_frame k j _ _ _ _ _ Hk Hj Hne Hok Em))). rewrite insert_singleton_eq in Hc2.
  destruct (step (N + 1) _ _ k (VEnd i) Hc2 Hk ltac:(lia)) as (a'&c'&x3&Ha'&_&Hca'&_&E3&Hc3).
  { intros c2. exists v, made, kr. rewrite upd_eq. simpl. apply lookup_singleton_eq. }
  simpl in Ha', Hca'. rewrite Ha in Ha'. injection Ha' as <-. rewrite lookup_insert_eq in Hca'. injection Hca' as <-.
  unfold config_of in E3. rewrite upd_eq in E3. simpl in E3. rewrite lookup_singleton_eq in E3.
  apply vthen_Done in E3 as (r&c3&Ee&E3). destruct (release_once _ _ _ _ _ _ _ _ Er Ee) as [_ Hr].
  apply wp_bind. eapply wp_in_control; [apply lookup_insert_eq|exact Er|]. cbn [g_controls set_g_controls]. rewrite insert_insert_eq.
  apply wp_bind. eapply wp_in_manager; [exact Em|]. apply wp_bind. eapply wp_in_control; [apply lookup_insert_eq|exact Ee|].
  cbn [g_controls set_g_controls set_g_mgr]. rewrite insert_insert_eq. replace (N + 2) with (N + 1 + 1) by lia.
  destruct r; [|done|].
  - injection E3 as <-. simpl in Hc3. rewrite delete_singleton_eq in Hc3. specialize (Hc3 (keep_same _ _)).
    apply wp_ret. split; [|done]. apply rest_upd3 in Hc3. unfold stepped in Hc3. simpl in Hc3. rewrite !insert_insert_eq in Hc3. by destruct s.
  - apply vthen_Done in E3 as (n&c4&Eu&[= <-]). simpl in Hc3. rewrite delete_singleton_eq in Hc3. specialize (Hc3 (keep_same _ _)).
    unfold ivac_release. rewrite (proj2 (Z.eqb_neq _ _) Ha0). apply wp_bind. eapply wp_in_control; [apply lookup_insert_eq|exact Eu|].
    cbn [g_controls set_g_controls set_g_mgr]. rewrite insert_insert_eq. apply rest_upd3 in Hc3. unfold stepped in Hc3. simpl in Hc3. rewrite !insert_insert_eq in Hc3.
    destruct (ca_key _ _ _ Hc3 k Hk) as (a'&c'&Ha'&_&Hca'&_&Hki). simpl in Ha', Hca'. rewrite Ha in Ha'. injection Ha' as <-.
    rewrite lookup_insert_eq in Hca'. injection Hca' as <-. apply key_inv_refs in Hki.
    assert (n = ivac_refs c4) as ->.
    { apply bind_Done in Eu as (?&?&[= <- <-]&Eu). apply bind_Done in Eu as (n'&?&El&Eu). apply bind_Done in Eu as (?&?&[= _ <-]&[= <- <-]). done. }
    rewrite (proj2 (Z.eqb_neq _ _)) by lia. apply wp_ret. split; [|done]. by destruct s.
Qed.
Lemma held_at_0 : held_at IV_UNUSED_VALINDEX = ∅.
Proof. done. Qed.
Lemma held_at_ne i : i <> IV_UNUSED_VALINDEX -> held_at i = {[+ i +]}.
Proof. intros Hi. unfold held_at. by rewrite (proj2 (Z.eqb_neq _ _) Hi). Qed.
Lemma rest_same N N' s R k H' : caches N s (rest R) -> N <= N' -> H' = R k -> caches N' s (rest (upd R k H')).
Proof.
  intros Hc HN ->. apply (caches_ext N' s (rest R)); [by apply (caches_mono N)|]. intros j _. unfold rest, upd.
  by destruct (Z.eqb_spec j k) as [->|].
Qed.
Lemma wp_ivace_release N s R k i : caches N s (rest R) -> 0 <= N < VLIMIT - 2 -> i = IV_UNUSED_VALINDEX \/ registered k = true /\ i ∈ R k ->
  wp (ivace_release k i) (fun _ s' => caches (N + 3) s' (rest (upd R k (R k ∖ held_at i))) /\ same_rest s s') s.
Proof.
  intros Hc HN Hi. unfold ivace_release. destruct (Z.eqb_spec IV_UNUSED_VALINDEX i) as [<-|Hi0].
  { apply wp_ret. split; [|done]. apply (rest_same N); [done|lia|]. rewrite held_at_0. multiset_solver. }
  destruct Hi as [?|[Hk Hi]]; [done|]. rewrite (held_at_ne i) by done.
  destruct (step N s _ k (VDrop i) Hc Hk ltac:(lia)) as (a&c&x1&Ha&Ha0&Hca&_&E1&Hc1); [done|].
  apply wp_bind, (wp_ivgt_lookup N s (rest R) k a); [done..|]. destruct (mg_range k Hk) as [_ Hm0].
  apply wp_bind, wp_massert; [by rewrite (proj2 (Z.eqb_neq _ _) Ha0)|]. apply wp_bind, wp_massert; [by rewrite (proj2 (Z.eqb_neq _ _) Hm0)|].
  apply wp_bind, (wp_index_to_key N s (rest R) k); [done..|]. cbn [vperform config_of rest at_rest u_gets u_held u_fly u_grow] in E1.
  apply vthen_Done in E1 as (r&c1&Eb&E1). apply wp_bind. eapply wp_in_control; [exact Hca|exact Eb|]. destruct r as [v|].
  - apply vthen_Done in E1 as (made&c2&Er&[= <-]). pose proof (redrive_Done _ _ _ _ _ Er) as ->. rewrite insert_empty in Hc1. specialize (Hc1 (keep_same _ _)).
    replace (N + 3) with (N + 1 + 2) by lia. by apply (wp_release_rounds (N + 1) s R k i (R k ∖ {[+ i +]}) a c c1 v made); [|done|lia|..].
  - injection E1 as <-. simpl in Hc1. specialize (Hc1 (keep_same _ _)). apply wp_ret. split; [|done].
    apply (caches_mono (N + 1)); [|lia]. apply rest_upd1 in Hc1. by destruct s.
Qed.

(** ** Copying a reference *)
Lemma wp_reference_by_index N s R k i : caches N s (rest R) -> 0 <= N < VLIMIT -> i = IV_UNUSED_VALINDEX \/ registered k = true /\ i ∈ R k ->
  wp (ivace_reference_by_index k i) (fun _ s' => caches (N + 1) s' (rest (upd R k (R k ⊎ held_at i))) /\ same_rest s s') s.
Proof.
  intros Hc HN Hi. unfold ivace_reference_by_index. destruct (Z.eqb_spec IV_UNUSED_VALINDEX i) as [<-|Hi0].
  { apply wp_ret. split; [|done]. apply (rest_same N); [done|lia|]. rewrite held_at_0. multiset_solver. }
  destruct Hi as [?|[Hk Hi]]; [done|]. rewrite (held_at_ne i) by done.
  destruct (step N s _ k (VCopy i) Hc Hk ltac:(lia)) as (a&c&x1&Ha&Ha0&Hca&_&E1&Hc1); [done|].
  apply wp_bind, (wp_ivgt_lookup N s (rest R) k a); [done..|].
  apply wp_bind, wp_massert; [by rewrite (proj2 (Z.eqb_neq _ _) Ha0)|].
  apply vthen_Done in E1 as (r&c1&Eb&[= <-]). eapply wp_in_control; [exact Hca|exact Eb|].
  simpl in Hc1. specialize (Hc1 (keep_same _ _)). split; [|done]. apply rest_upd1 in Hc1. by destruct s.
Qed.

(** ** Getting a value *)

(** A control the caller can still give up. *)
Lemma wp_ivac_release_live N s F k a c n c' Q : caches N (set_g_controls (<[a := c']> (g_controls s)) s) F -> registered k = true -> a <> IVAC_NULL ->
  anth (g_table s) k = mk_ivgte (manager_of k) a (k + 1) -> g_controls s !! a = Some c -> ivac_unref c = Done (n, c') ->
  Q tt (set_g_controls (<[a := c']> (g_controls s)) s) -> wp (ivac_release a) Q s.
Proof.
  intros Hc Hk Ha0 Ha Hca Eu HQ. unfold ivac_release. rewrite (proj2 (Z.eqb_neq _ _) Ha0). apply wp_bind. eapply wp_in_control; [exact Hca|exact Eu|].
  destruct (ca_key _ _ _ Hc k Hk) as (a'&c2&Ha'&_&Hca'&_&Hki). simpl in Ha', Hca'. rewrite Ha in Ha'. injection Ha' as <-.
  rewrite lookup_insert_eq in Hca'. injection Hca' as <-. apply key_inv_refs in Hki. assert (n = ivac_refs c') as ->.
  { apply bind_Done in Eu as (?&?&[= <- <-]&Eu). apply bind_Done in Eu as (n'&?&El&Eu). apply bind_Done in Eu as (?&?&[= _ <-]&[= <- <-]). done. }
  rewrite (proj2 (Z.eqb_neq _ _)) by lia. by apply wp_ret.
Qed.
(** A value to record for key [k]. *)
Definition got (R : Z -> gmultiset Z) k (v flag : Z) : Z -> under_way := upd (rest R) k (mk_under_way [(v, flag)] (R k) ∅ None).
Lemma get_value_ok N s R k prev command content : caches N s (rest R) -> 0 <= N < VLIMIT -> registered k = true ->
  prev = IV_UNUSED_VALINDEX \/ prev ∈ R k ->
  exists a c c1 vals r ms', anth (g_table s) k = mk_ivgte (manager_of k) a (k + 1) /\ a <> IVAC_NULL /\ g_controls s !! a = Some c /\ ivac_key_index c = k /\
    ivac_retain c = Done (tt, c1) /\ prev_value prev c1 = Done (vals, c1) /\
    ivam_get_value (manager_of k) (k + 1) command vals content (g_mgr s) = Done (r, ms') /\
    let s' := set_g_mgr ms' (set_g_controls (<[a := c1]> (g_controls s)) s) in
    if bool_decide (gv_kr r = KERN_SUCCESS) then caches (N + 1) s' (got R k (gv_value r) (gv_flags r))
    else wp (ivac_release a) (fun _ s2 => caches (N + 1) s2 (rest R) /\ same_rest s s2) s'.
Proof.
  intros Hc HN Hk Hp. destruct (step N s _ k (VGet command prev content) Hc Hk HN) as (a&c&x1&Ha&Ha0&Hca&Hidx&E1&Hc1); [done|].
  apply vthen_Done in E1 as (vals&c1&Ep&(r&ms'&Em&E1)%vthen_Done). apply bind_Done in Ep as ([]&cr&Er&Ep).
  assert (c1 = cr) as ->.
  { unfold prev_value in Ep. destruct (prev =? IV_UNUSED_VALINDEX); [by injection Ep|]. apply bind_Done in Ep as (v&?&Ev&[= _ <-]).
    apply bind_Done in Ev as (?&?&[-> _]%lookup_Done&Ev). by apply bind_Done in Ev as (?&?&->%massert_Done&[= _ <-]). }
  exists a, c, cr, vals, r, ms'. split_and!; try done. case_bool_decide as Hkr.
  - injection E1 as <-. simpl in Hc1. specialize (Hc1 ltac:(intros j Hj Hne Hok; by apply (mg_get_frame k j _ _ _ _ _ _ Hk Hj Hne Hok Em))).
    unfold got. by destruct s.
  - apply vthen_Done in E1 as (n&c2&Eu&[= <-]). simpl in Hc1.
    specialize (Hc1 ltac:(intros j Hj Hne Hok; by apply (mg_get_frame k j _ _ _ _ _ _ Hk Hj Hne Hok Em))).
    assert (caches (N + 1) (set_g_mgr ms' (set_g_controls (<[a := c2]> (g_controls s)) s)) (rest R)) as Hc2.
    { eapply caches_ext; [exact Hc1|]. intros j _. unfold rest, upd, under_way_of, at_rest. simpl. by destruct (Z.eqb_spec j k) as [->|]. }
    assert (forall ms c0 c2, set_g_controls (<[a := c2]> (g_controls (set_g_mgr ms (set_g_controls (<[a := c0]> (g_controls s)) s))))
       (set_g_mgr ms (set_g_controls (<[a := c0]> (g_controls s)) s)) = set_g_mgr ms (set_g_controls (<[a := c2]> (g_controls s)) s)) as Eq
      by (intros; simpl; by rewrite insert_insert_eq).
    apply (wp_ivac_release_live (N + 1) _ (rest R) k a cr n c2); [by rewrite Eq|done|done|done|apply lookup_insert_eq|done|]. by rewrite Eq.
Qed.
Lemma wp_lookup_values s k man key a prev c vals Q : 0 <= k < KEYS -> alen (g_table s) = KEYS -> anth (g_table s) k = mk_ivgte man a key -> a <> IVAC_NULL ->
  g_controls s !! a = Some c -> prev_value prev c = Done (vals, c) -> Q vals s -> wp (ivace_lookup_values k prev) Q s.
Proof.
  intros Hk Hl Ha Ha0 Hca Ep HQ. unfold ivace_lookup_values, prev_value in *. rewrite (Z.eqb_sym _ prev).
  destruct (prev =? IV_UNUSED_VALINDEX); simpl; [injection Ep as <-; by apply wp_ret|].
  rewrite (proj2 (Z.leb_gt _ _)) by lia. apply bind_Done in Ep as (v&c1&Ev&[= <- <-]).
  apply wp_bind, wp_bind, wp_gets. unfold id. eapply wp_lift; [apply aget_in; by rewrite Hl|]. rewrite Ha. simpl.
  apply wp_bind, wp_massert; [by rewrite (proj2 (Z.eqb_neq _ _) Ha0)|]. apply wp_bind. eapply wp_in_control; [exact Hca|exact Ev|].
  rewrite (control_id _ _ _ Hca). by apply wp_ret.
Qed.

(** ** Recording a value *)
Lemma key_inv_table k N c ms u : key_inv k N c ms u -> 0 < ivac_table_size c /\ ivac_is_growing c = bool_decide (is_Some (u_grow u)).
Proof.
  intros (Hk&m&Hinv). pose proof (vi_rep _ _ _ _ _ _ _ _ Hinv) as [(ch&fl&Hwf) _]. split; [|apply (vi_growing _ _ _ _ _ _ _ _ Hinv)].
  destruct (cw_size _ _ _ _ _ Hwf). unfold ivac_table_size. simpl in *. lia.
Qed.
Lemma attempt_step N s R k a v flag : caches N s (got R k v flag) -> registered k = true -> 0 <= N < VLIMIT ->
  anth (g_table s) k = mk_ivgte (manager_of k) a (k + 1) ->
  exists c r c1, g_controls s !! a = Some c /\ a <> IVAC_NULL /\ ivace_reference_attempt v flag c = Done (r, c1) /\
    let at_ c := set_g_controls (<[a := c]> (g_controls s)) s in
    match r with
    | RefFound i => wp (ivac_release a) (fun _ s' => caches (N + 1) s' (rest (upd R k (R k ⊎ held_at i))) /\ same_rest s s') (at_ c1)
    | RefNew i => caches (N + 1) (at_ c1) (rest (upd R k (R k ⊎ held_at i)))
    | RefFull => c1 = c /\ ivac_freelist c = IV_FREELIST_END /\ exists old c2, ivac_grow_begin c = Done (Some old, c2) /\ 0 < old /\
                 caches (N + 1) (at_ c2) (upd (rest R) k (mk_under_way [(v, flag)] (R k) ∅ (Some old)))
    end.
Proof.
  intros Hc Hk HN Ha. destruct (step N s _ k (VRecord 0) Hc Hk HN) as (a'&c&x1&Ha'&Ha0&Hca&_&E1&Hc1).
  { intros c. unfold got. rewrite upd_eq. simpl. lia. }
  rewrite Ha in Ha'. injection Ha' as <-. unfold config_of, got in E1. rewrite upd_eq in E1. simpl in E1.
  assert (forall u j, upd (got R k v flag) k u j = upd (rest R) k u j) as Eg by (intros u j; unfold got, upd; by destruct (j =? k)).
  apply vthen_Done in E1 as (r&c1&Et&E1). exists c, r, c1. split_and!; try done. simpl. destruct r as [i|i|].
  - apply vthen_Done in E1 as (n&c2&Eun&[= <-]). simpl in Hc1. specialize (Hc1 (keep_same _ _)).
    assert (caches (N + 1) (set_g_controls (<[a := c2]> (g_controls s)) s) (rest (upd R k (R k ⊎ held_at i)))) as Hc2.
    { apply rest_upd1. eapply caches_ext; [by destruct s; exact Hc1|]. intros j _. by rewrite Eg. }
    apply (wp_ivac_release_live (N + 1) _ (rest (upd R k (R k ⊎ held_at i))) k a c1 n c2); simpl; rewrite ?insert_insert_eq; try done.
    apply lookup_insert_eq.
  - injection E1 as <-. simpl in Hc1. specialize (Hc1 (keep_same _ _)). apply rest_upd1. eapply caches_ext; [by destruct s; exact Hc1|].
    intros j _. by rewrite Eg.
  - destruct (attempt_full _ _ _ _ Et) as [-> Hfree]. split_and!; try done. apply vthen_Done in E1 as (o&c2&Eg0&[= <-]).
    destruct (ca_key _ _ _ Hc k Hk) as (a'&c'&Ha'&_&Hca'&_&Hki). rewrite Ha in Ha'. injection Ha' as <-. rewrite Hca in Hca'. injection Hca' as <-.
    destruct (key_inv_table _ _ _ _ _ Hki) as [Hsz Hgr]. unfold got in Hgr. rewrite upd_eq in Hgr. simpl in Hgr.
    pose proof Eg0 as (?&?&[= <- <-]&Eb)%bind_Done. unfold id in Eb. rewrite Hgr in Eb. apply bind_Done in Eb as (?&?&[= _ <-]&Eb).
    destruct (_ <=? _); [done|]. injection Eb as <- <-. eexists _, _. split; [exact Eg0|]. split; [done|].
    simpl in Hc1. specialize (Hc1 (keep_same _ _)). eapply caches_ext; [by destruct s; exact Hc1|]. intros j _. by rewrite Eg.
Qed.
Lemma wp_reference_by_value N s R k a v flag : caches N s (got R k v flag) -> registered k = true -> 0 <= N < VLIMIT - 2 ->
  anth (g_table s) k = mk_ivgte (manager_of k) a (k + 1) ->
  wp (ivace_reference_by_value a v flag) (fun i s' => caches (N + 3) s' (rest (upd R k (R k ⊎ held_at i))) /\ same_rest s s') s.
Proof.
  intros Hc Hk HN Ha. destruct (attempt_step N s R k a v flag Hc Hk ltac:(lia) Ha) as (c&r&c1&Hca&Ha0&Et&Hr).
  unfold ivace_reference_by_value. rewrite (proj2 (Z.eqb_neq _ _) Ha0). cbn [reference_rounds]. apply wp_bind. eapply wp_in_control; [exact Hca|exact Et|].
  destruct r as [i|i|].
  - apply wp_bind. eapply wp_mono; [exact Hr|]. intros _ s' [Hc' Hs]. apply wp_ret. split; [|done]. apply (caches_mono (N + 1)); [done|lia].
  - apply wp_ret. split; [|done]. apply (caches_mono (N + 1)); [done|lia].
  - destruct Hr as (->&_&old&c2&Eg&Hold&Hc2). apply wp_bind. eapply wp_in_control; [apply lookup_insert_eq|exact Eg|]. simpl. rewrite insert_insert_eq.
    destruct (step (N + 1) _ _ k VGrown Hc2 Hk ltac:(lia)) as (a'&c'&x3&Ha'&_&Hca'&_&E3&Hc3).
    { intros c'. rewrite upd_eq. simpl. by eexists. }
    simpl in Ha', Hca'. rewrite Ha in Ha'. injection Ha' as <-. rewrite lookup_insert_eq in Hca'. injection Hca' as <-.
    unfold config_of in E3. rewrite upd_eq in E3. simpl in E3. apply vthen_Done in E3 as ([]&c3&Ee&[= <-]). simpl in Hc3.
    specialize (Hc3 (keep_same _ _)). unfold stepped in Hc3. simpl in Hc3. rewrite insert_insert_eq in Hc3.
    assert (caches (N + 1 + 1) (set_g_controls (<[a := c3]> (g_controls s)) s) (got R k v flag)) as Hc4.
    { eapply caches_ext; [by destruct s; exact Hc3|]. intros j _. unfold got, upd. by destruct (j =? k). }
    apply wp_bind. eapply wp_in_control; [apply lookup_insert_eq|exact Ee|]. simpl. rewrite insert_insert_eq.
    destruct (attempt_step (N + 1 + 1) _ R k a v flag Hc4 Hk ltac:(lia) Ha) as (c4&r&c5&Hca4&_&Et4&Hr4).
    apply wp_bind. eapply wp_in_control; [exact Hca4|exact Et4|]. simpl in Hca4. rewrite lookup_insert_eq in Hca4. injection Hca4 as <-.
    replace (N + 3) with (N + 1 + 1 + 1) by lia. destruct r as [i|i|].
    + apply wp_bind. eapply wp_mono; [exact Hr4|]. intros _ s' [Hc' Hs]. by apply wp_ret.
    + by apply wp_ret.
    + destruct Hr4 as (_&Hf&_). rewrite (grow_end_freelist _ _ _ _ Ee) in Hf. unfold IV_FREELIST_END in Hf. lia.
Qed.
End layer.
