(* ===== verification/VoucherCallProps.v ===== *)
(** * Vouchers are made once and hold what they refer to

    The invariant of the vouchers and what each call does to it. *)

From stdpp Require Import gmultiset.
From S2P Require Import Prelude MachPort KmsgQueue KmsgSpec Prng OsRefcnt IpcTable IpcHash IpcState IpcSpace IpcEntry IpcPort IpcMqueue IpcRequest IpcPortLife IpcKobject IpcRight RightDrop RightCopy IpcObject VoucherCache VoucherManager IpcVoucher IpcVoucherCalls VoucherSpec VoucherProps VoucherLayer.

(** ** The references of the tables of the vouchers *)
Definition held_of (vs : gmap Z ipc_voucher) (k : Z) : gmultiset Z :=
  map_fold (fun _ v H => held_at (iv_lookup v k) ⊎ H) ∅ vs.

Lemma multiplicity_size (a : Z) (X : gmultiset Z) : (multiplicity a X <= size X)%nat.
Proof.
  induction X as [|x X IH] using gmultiset_ind; [by rewrite multiplicity_empty|].
  rewrite multiplicity_disj_union, gmultiset_size_disj_union, gmultiset_size_singleton, multiplicity_singleton. case_decide; lia.
Qed.

Section held_of.
Implicit Types (vs : gmap Z ipc_voucher) (k : Z).
Lemma held_of_empty k : held_of ∅ k = ∅.
Proof. done. Qed.
Lemma held_of_insert vs a v k : vs !! a = None -> held_of (<[a := v]> vs) k = held_at (iv_lookup v k) ⊎ held_of vs k.
Proof. intros Ha. unfold held_of. rewrite map_fold_insert_L; [done| |done]. intros. multiset_solver. Qed.
Lemma held_of_delete vs a v k : vs !! a = Some v -> held_of vs k = held_at (iv_lookup v k) ⊎ held_of (delete a vs) k.
Proof. intros Ha. rewrite <- (insert_delete_id vs a v Ha) at 1. apply held_of_insert, lookup_delete_eq. Qed.
(** The other vouchers keep theirs. *)
Lemma held_of_update vs a v v' k : vs !! a = Some v -> held_of (<[a := v']> vs) k = held_at (iv_lookup v' k) ⊎ (held_of vs k ∖ held_at (iv_lookup v k)).
Proof.
  intros Ha. rewrite (held_of_delete vs a v k Ha), <- (insert_delete_eq vs a v'), held_of_insert by apply lookup_delete_eq. multiset_solver.
Qed.
Lemma held_of_same vs a v v' k : vs !! a = Some v -> iv_table v' = iv_table v -> held_of (<[a := v']> vs) k = held_of vs k.
Proof.
  intros Ha Ht. assert (iv_lookup v' k = iv_lookup v k) as E by (unfold iv_lookup, iv_table_size; by rewrite Ht).
  rewrite (held_of_update _ _ _ _ _ Ha), E, (held_of_delete vs a v k Ha). multiset_solver.
Qed.
Lemma held_of_elem vs a v k : vs !! a = Some v -> iv_lookup v k <> IV_UNUSED_VALINDEX -> iv_lookup v k ∈ held_of vs k.
Proof. intros Ha Hi. rewrite (held_of_delete vs a v k Ha), (held_at_ne _ Hi). multiset_solver. Qed.
Lemma held_of_inv vs i k : i ∈ held_of vs k -> exists a v, vs !! a = Some v /\ iv_lookup v k = i.
Proof.
  induction vs as [|a v vs Ha IH] using map_ind; [multiset_solver|]. rewrite held_of_insert by done.
  intros [Hi|Hi]%gmultiset_elem_of_disj_union.
  - exists a, v. rewrite lookup_insert_eq. split; [done|]. unfold held_at in Hi. case_match; multiset_solver.
  - destruct (IH Hi) as (b&w&Hb&Hw). exists b, w. split; [|done]. rewrite lookup_insert_ne; [done|]. congruence.
Qed.
End held_of.

(** ** Recipes in memory *)
Definition bytes_ok (l : list Z) : Prop := Forall (fun b => 0 <= b < 256) l.
Lemma le_value_range l : bytes_ok l -> 0 <= le_value l < 256 ^ alen l.
Proof.
  unfold alen. induction 1 as [|b l Hb _ IH]; [done|]. cbn [le_value length]. rewrite Nat2Z.inj_succ, Z.pow_succ_r by lia. lia.
Qed.
Lemma field_at_ok buffer offset n : bytes_ok buffer -> 0 <= offset -> 0 <= n -> offset + n <= alen buffer ->
  exists v, field_at buffer offset n = Done v /\ 0 <= v < 256 ^ n.
Proof.
  intros Hb Ho Hn Hl. unfold field_at, bytes_at. rewrite (proj2 (Z.leb_le _ _)) by lia. simpl. eexists. split; [done|].
  set (l := take _ _). assert (alen l = n) as E by (unfold l, alen in *; rewrite length_take, length_drop; lia). rewrite <- E. apply le_value_range.
  by apply Forall_take, Forall_drop.
Qed.
Lemma recipe_at_ok buffer offset : bytes_ok buffer -> 0 <= offset -> offset + recipe_struct_size false <= alen buffer ->
  exists r, recipe_at false buffer offset = Done r /\ 0 <= rc_key r < 2 ^ 32 /\ 0 <= rc_content_size r.
Proof.
  intros Hb Ho Hl. unfold recipe_at, recipe_struct_size, previous_voucher_size in *. cbv iota zeta.
  destruct (field_at_ok buffer offset 4 Hb) as (v1&->&Hv1); [lia..|]. destruct (field_at_ok buffer (offset + 4) 4 Hb) as (v2&->&_); [lia..|].
  destruct (field_at_ok buffer (offset + 8) 8 Hb) as (v3&->&_); [lia..|]. destruct (field_at_ok buffer (offset + 8 + 8) 4 Hb) as (v4&->&Hv4); [lia..|].
  simpl. eexists. split; [done|]. simpl. split; [exact Hv1|lia].
Qed.
(** The vouchers the recipes name, in the order the recipes are run in. *)
Fixpoint recipe_vouchers (fuel : nat) (recipes : list Z) (used : Z) : list Z :=
  match fuel with
  | O => []
  | S fuel =>
    if alen recipes - used <? recipe_struct_size false then []
    else match recipe_at false recipes used with
         | Done r => if alen recipes - used - recipe_struct_size false <? rc_content_size r then []
                     else rc_previous_voucher r :: recipe_vouchers fuel recipes (used + recipe_struct_size false + rc_content_size r)
         | _ => []
         end
  end.

(** ** The invariant *)
Section calls.
Context `{KernelConfig} `{TableSizes} `{Concurrency} `{Externals} `{RequestSizes} `{KobjectOps} `{Messages} {MS : Type} {mgr : AttrManager MS} `{!Managers mgr}.
Implicit Types (s : vst MS) (k N : Z) (vs : gmap Z ipc_voucher) (clients : gmultiset Z) (form : option Z).
(** The vouchers that have been made. *)
Context (base : gmap Z ipc_voucher).

(** A voucher that has been made, not the one that is being made. *)
Definition made_voucher vs form (a : Z) (v : ipc_voucher) : Prop := vs !! a = Some v /\ form <> Some a.
Record vouchers_ok vs (bucket : list (list Z)) clients form : Prop := {
  vk_voucher a v : vs !! a = Some v -> a <> IV_NULL /\ alen (iv_table v) = KEYS /\ iv_port v = IP_NULL /\
    forall k, 0 <= k < KEYS -> registered k = false -> anth (iv_table v) k = IV_UNUSED_VALINDEX;
  vk_made a v : made_voucher vs form a v -> a ∈ clients /\ iv_refs v = Z.of_nat (multiplicity a clients) /\
    iv_checksum (iv_table v) = (iv_sum v, false) /\ iv_hash v = IV_HASH_BUCKET (iv_sum v);
  vk_client a : a ∈ clients -> exists v, made_voucher vs form a v;
  vk_form a : form = Some a -> exists v, vs !! a = Some v /\ iv_refs v = 1;
  vk_buckets : alen bucket = IV_HASH_BUCKETS;
  vk_queue h a : 0 <= h < IV_HASH_BUCKETS -> a ∈ anth bucket h <-> exists v, made_voucher vs form a v /\ iv_hash v = h;
  vk_base : (match form with Some f => delete f vs | None => vs end) = base;
  vk_unique a b v w : made_voucher vs form a v -> made_voucher vs form b w -> iv_table v = iv_table w -> a = b;
}.
Record ginv N s clients form : Prop := {
  gi_caches : caches N s (rest (held_of (g_vouchers s)));
  gi_vouchers : vouchers_ok (g_vouchers s) (ivht_bucket s) clients form;
  gi_clients : Z.of_nat (size clients) <= N;
}.

Lemma wp_get_voucher s a v Q : g_vouchers s !! a = Some v -> Q v s -> wp (get_voucher a) Q s.
Proof. unfold wp, get_voucher. by intros ->. Qed.
Lemma wp_lookup_at s a v k Q : g_vouchers s !! a = Some v -> Q (iv_lookup v k) s -> wp (lookup_at a k) Q s.
Proof. intros Ha HQ. apply wp_bind, (wp_get_voucher _ _ v); [done|]. by apply wp_ret. Qed.
Lemma wp_iv_set s a v k i Q : g_vouchers s !! a = Some v -> k < alen (iv_table v) ->
  Q tt (set_g_vouchers (<[a := set_iv_table (aset (iv_table v) k i) v]> (g_vouchers s)) s) -> wp (iv_set a k i) Q s.
Proof.
  intros Ha Hk HQ. apply wp_bind, (wp_get_voucher _ _ v); [done|]. unfold iv_table_size. rewrite (proj2 (Z.leb_gt _ _)) by lia. by apply wp_modify.
Qed.
Lemma iv_lookup_set v k i j : 0 <= k < alen (iv_table v) -> 0 <= j ->
  iv_lookup (set_iv_table (aset (iv_table v) k i) v) j = if j =? k then i else iv_lookup v j.
Proof.
  intros Hk Hj. unfold iv_lookup, iv_table_size. simpl. rewrite alen_aset. destruct (Z.eqb_spec j k) as [->|Hne].
  - rewrite (proj2 (Z.ltb_lt _ _)) by lia. rewrite anth_aset_eq; [done|lia].
  - destruct (Z.ltb_spec j (alen (iv_table v))); [|done]. by rewrite anth_aset_ne by lia.
Qed.
(** An index of a voucher is the default, or is counted in the cache of its key. *)
Lemma index_held N s clients form a v k : ginv N s clients form -> g_vouchers s !! a = Some v -> 0 <= k ->
  iv_lookup v k = IV_UNUSED_VALINDEX \/ registered k = true /\ iv_lookup v k ∈ held_of (g_vouchers s) k.
Proof.
  intros Hg Ha Hk. destruct (vk_voucher _ _ _ _ (gi_vouchers _ _ _ _ Hg) a v Ha) as (_&Hl&_&Hz).
  destruct (decide (iv_lookup v k = IV_UNUSED_VALINDEX)) as [|Hne]; [by left|right]. split; [|by apply (held_of_elem _ a)].
  unfold iv_lookup, iv_table_size in Hne. destruct (Z.ltb_spec k (alen (iv_table v))); [|done].
  destruct (registered k) eqn:E; [done|]. rewrite (Hz k) in Hne; [done|lia|done].
Qed.

(** ** The voucher that is being made *)

(** The forming voucher changes, and the caches with it. *)
Lemma ginv_form N N' s s1 clients f v v' : ginv N s clients (Some f) -> g_vouchers s !! f = Some v -> N <= N' ->
  iv_refs v' = iv_refs v -> iv_port v' = iv_port v -> alen (iv_table v') = KEYS ->
  (forall k, 0 <= k < KEYS -> registered k = false -> anth (iv_table v') k = IV_UNUSED_VALINDEX) ->
  g_vouchers s1 = <[f := v']> (g_vouchers s) -> ivht_bucket s1 = ivht_bucket s -> caches N' s1 (rest (held_of (<[f := v']> (g_vouchers s)))) ->
  ginv N' s1 clients (Some f).
Proof.
  intros [Hc [V1 V2 V3 V4 V5 V6 V8 V7] Hn] Hf HN Er Ep El Ez Ev Eb Hc'.
  assert (forall a w, made_voucher (<[f := v']> (g_vouchers s)) (Some f) a w <-> made_voucher (g_vouchers s) (Some f) a w) as Hmade.
  { intros a w. unfold made_voucher. split; intros [Ha Hne]; (split; [|done]); [|by rewrite lookup_insert_ne by congruence].
    by rewrite lookup_insert_ne in Ha by congruence. }
  split; rewrite ?Ev; [done|rewrite Eb; split; try done|lia].
  - intros a w [[<- <-]|[Hne Ha]]%lookup_insert_Some; [|by apply V1]. destruct (V1 f v Hf) as (?&_&Hp&_). split_and!; try done. congruence.
  - intros a w Ha%Hmade. by apply V2.
  - intros a Ha. destruct (V3 a Ha) as [w Hw]. exists w. by apply Hmade.
  - intros a [= <-]. destruct (V4 f eq_refl) as (w&Hw&Hr). exists v'. rewrite lookup_insert_eq. split; [done|]. congruence.
  - intros h a Hh. rewrite V6 by done. split; intros (w&Hw&E); exists w; (split; [by apply Hmade|done]).
  - by rewrite delete_insert_eq.
  - intros a b w w' Ha%Hmade Hb%Hmade. by apply V7.
Qed.
Lemma caches_vouchers N s F vs : caches N s F -> caches N (set_g_vouchers vs s) F.
Proof. by intros [Ha Hb Hk]. Qed.
Lemma wp_set_form N N' s s1 clients f v k i R : ginv N s clients (Some f) -> g_vouchers s !! f = Some v -> same_rest s s1 -> N <= N' ->
  0 <= k < KEYS -> registered k = true \/ i = IV_UNUSED_VALINDEX -> caches N' s1 (rest R) ->
  (forall j, registered j = true -> R j = if j =? k then held_at i ⊎ (held_of (g_vouchers s) k ∖ held_at (iv_lookup v k)) else held_of (g_vouchers s) j) ->
  wp (iv_set f k i) (fun _ s' => ginv N' s' clients (Some f)) s1.
Proof.
  intros Hg Hf Hs HN Hk Hi Hc HR. pose proof Hs as (_&Ev&_). destruct (vk_voucher _ _ _ _ (gi_vouchers _ _ _ _ Hg) f v Hf) as (_&Hl&_&Hz).
  pose proof Hs as (_&_&Eb&_). apply (wp_iv_set _ _ v); [by rewrite Ev|lia|].
  apply (ginv_form N N' s _ clients f v (set_iv_table (aset (iv_table v) k i) v)); try done; simpl; [| |by rewrite Ev|].
  - by rewrite alen_aset.
  - intros j Hj Hr. destruct (decide (j = k)) as [->|Hne]; [rewrite anth_aset_eq by lia; destruct Hi; congruence|].
    rewrite anth_aset_ne by lia. by apply Hz.
  - apply (caches_vouchers N'). apply (caches_ext _ _ _ _ Hc). intros j Hj. unfold rest. f_equal. destruct (mg_range j Hj) as [Hr _]. rewrite HR by done.
    rewrite (held_of_update _ _ v) by done. rewrite iv_lookup_set by lia. destruct (Z.eqb_spec j k) as [->|]; [done|].
    rewrite (held_of_delete _ _ _ j Hf). multiset_solver.
Qed.
(** What a command does to the caches, and what its voucher refers to. *)
Definition forms N clients f : M (vst MS) unit -> vst MS -> Prop := fun m s => wp m (fun _ s' => ginv N s' clients (Some f)) s.
Lemma other_voucher N s clients f p : ginv N s clients (Some f) -> p ∈ clients -> p <> f /\ exists w, g_vouchers s !! p = Some w.
Proof.
  intros Hg Hp. destruct (vk_client _ _ _ _ (gi_vouchers _ _ _ _ Hg) p Hp) as (w&Hw&Hne). split; [congruence|by exists w].
Qed.
Lemma form_voucher N s clients f : ginv N s clients (Some f) -> exists v, g_vouchers s !! f = Some v /\ iv_refs v = 1.
Proof. intros Hg. by apply (vk_form _ _ _ _ (gi_vouchers _ _ _ _ Hg)). Qed.
Lemma copy_value_ok N s clients f p k : ginv N s clients (Some f) -> 0 <= N < VLIMIT - 3 -> p ∈ clients -> 0 <= k < KEYS ->
  forms (N + 4) clients f (copy_value f p k) s.
Proof.
  intros Hg HN Hp Hk. destruct (form_voucher _ _ _ _ Hg) as (v&Hf&_). destruct (other_voucher _ _ _ _ _ Hg Hp) as (Hne&w&Hw).
  apply wp_bind, (wp_lookup_at _ _ v); [done|]. apply wp_bind. eapply wp_mono.
  { apply wp_ivace_release; [apply (gi_caches _ _ _ _ Hg)|lia|]. by apply (index_held N s clients (Some f) f); [| |lia]. }
  intros _ s1 [Hc1 Hs1]. pose proof Hs1 as (_&Ev&_). apply wp_bind, (wp_lookup_at _ _ w); [by rewrite Ev|]. apply wp_bind.
  assert (iv_lookup w k = IV_UNUSED_VALINDEX \/ registered k = true /\
    iv_lookup w k ∈ upd (held_of (g_vouchers s)) k (held_of (g_vouchers s) k ∖ held_at (iv_lookup v k)) k) as Hidx.
  { destruct (index_held N s clients (Some f) p w k Hg Hw) as [?|[Hr _]]; [lia|by left|]. destruct (decide (iv_lookup w k = IV_UNUSED_VALINDEX)); [by left|right].
    split; [done|]. rewrite upd_eq, (held_of_delete _ _ _ k Hf). assert (iv_lookup w k ∈ held_of (delete f (g_vouchers s)) k); [|multiset_solver].
    apply (held_of_elem _ p); [by rewrite lookup_delete_ne|done]. }
  eapply wp_mono; [apply (wp_reference_by_index _ _ _ k (iv_lookup w k) Hc1); [lia|done]|].
  intros _ s2 [Hc2 Hs2]. replace (N + 3 + 1) with (N + 4) in Hc2 by lia. rewrite upd_eq in Hc2.
  apply (wp_set_form N (N + 4) s s2 clients f v k (iv_lookup w k) _ Hg Hf (same_rest_trans _ _ _ Hs1 Hs2) ltac:(lia) Hk ltac:(destruct Hidx as [?|[? _]]; auto) Hc2).
  intros j Hj. unfold upd. destruct (Z.eqb_spec j k); [|done]. multiset_solver.
Qed.
Lemma remove_value_ok N s clients f p k : ginv N s clients (Some f) -> 0 <= N < VLIMIT - 3 -> p = IV_NULL \/ p ∈ clients -> 0 <= k < KEYS ->
  forms (N + 4) clients f (remove_value f p k) s.
Proof.
  intros Hg HN Hp Hk. destruct (form_voucher _ _ _ _ Hg) as (v&Hf&_). apply wp_bind, (wp_lookup_at _ _ v); [done|]. apply wp_bind.
  apply (wp_mono _ (fun _ s' => s' = s)).
  { destruct (Z.eqb_spec p IV_NULL); simpl; [by apply wp_ret|]. destruct Hp as [?|Hp]; [done|]. destruct (other_voucher _ _ _ _ _ Hg Hp) as (Hne&w&Hw).
    apply wp_bind, (wp_lookup_at _ _ w); [done|]. by apply wp_ret. }
  intros keep s' ->. destruct keep.
  - apply wp_ret. destruct Hg as [Hc Hv Hn]. split; [apply (caches_mono N); [done|lia]|done|lia].
  - apply wp_bind. eapply wp_mono.
    { apply wp_ivace_release; [apply (gi_caches _ _ _ _ Hg)|lia|]. by apply (index_held N s clients (Some f) f); [| |lia]. }
    intros _ s1 [Hc1 Hs1]. apply (caches_mono _ (N + 4)) in Hc1; [|lia].
    apply (wp_set_form N (N + 4) s s1 clients f v k IV_UNUSED_VALINDEX _ Hg Hf Hs1 ltac:(lia) Hk (or_intror eq_refl) Hc1).
    intros j Hj. unfold upd. destruct (Z.eqb_spec j k); [|done]. rewrite held_at_0. multiset_solver.
Qed.

(** ** Asking the manager *)
Lemma key_index_cases key : 0 <= key < 2 ^ 32 -> let k := iv_key_to_index key in 0 <= k < KEYS /\ key = k + 1 \/ k = IV_UNUSED_KEYINDEX.
Proof.
  intros Hkey. unfold iv_key_to_index, u32, MACH_VOUCHER_ATTR_KEY_ALL, KEYS, MACH_VOUCHER_ATTR_KEY_NUM_WELL_KNOWN, MACH_VOUCHER_ATTR_KEY_TEST, IV_UNUSED_KEYINDEX in *.
  destruct (Z.eqb_spec 4294967295 key); [by right|]. destruct (Z.ltb_spec 8 key); simpl; [by right|].
  destruct (decide (key = 0)) as [->|]; [by right|left]. rewrite Z.mod_small; lia.
Qed.
Lemma wp_ivgt_lookup_none N s F k take Q : caches N s F -> 0 <= k -> registered k = false -> Q (IVAM_NULL, IVAC_NULL) s -> wp (ivgt_lookup k take) Q s.
Proof.
  intros Hc Hk Hr HQ. unfold ivgt_lookup. destruct (Z.ltb_spec k KEYS); [|by apply wp_ret].
  apply wp_bind, wp_bind, wp_gets. unfold id. eapply wp_lift; [apply aget_in; by rewrite (ca_len _ _ _ Hc)|].
  rewrite (ca_none _ _ _ Hc) by done. by apply wp_bind, wp_ret, wp_ret.
Qed.
Lemma wp_ivgt_lookup_ref N s F k a c c1 Q : caches N s F -> registered k = true -> anth (g_table s) k = mk_ivgte (manager_of k) a (k + 1) ->
  a <> IVAC_NULL -> g_controls s !! a = Some c -> ivac_key_index c = k -> ivac_retain c = Done (tt, c1) ->
  Q (manager_of k, a) (set_g_controls (<[a := c1]> (g_controls s)) s) -> wp (ivgt_lookup k true) Q s.
Proof.
  intros Hc Hk Ha Ha0 Hca Hidx Er HQ. destruct (mg_range k Hk) as [Hr _]. unfold ivgt_lookup. rewrite (proj2 (Z.ltb_lt _ _)) by lia.
  apply wp_bind, wp_bind, wp_gets. unfold id. eapply wp_lift; [apply aget_in; by rewrite (ca_len _ _ _ Hc)|]. rewrite Ha. simpl.
  rewrite (proj2 (Z.eqb_neq _ _) Ha0). simpl. apply wp_bind, wp_bind. eapply wp_in_control; [done|done|]. rewrite (control_id _ _ _ Hca).
  apply wp_bind, wp_massert; [by apply Z.eqb_eq|]. unfold ivac_reference. rewrite (proj2 (Z.eqb_neq _ _) Ha0).
  eapply wp_in_control; [exact Hca|exact Er|]. by apply wp_ret.
Qed.
Lemma ginv_caches N N' s s' clients form : ginv N s clients form -> N <= N' -> same_rest s s' -> caches N' s' (rest (held_of (g_vouchers s))) ->
  ginv N' s' clients form.
Proof. intros [Hc Hv Hn] HN (_&Ev&Eb&_) Hc'. split; rewrite ?Ev, ?Eb; [done|done|lia]. Qed.
Lemma ginv_mono N N' s clients form : ginv N s clients form -> N <= N' -> ginv N' s clients form.
Proof. intros Hg HN. apply (ginv_caches N _ s); [done..|]. apply (caches_mono N); [apply (gi_caches _ _ _ _ Hg)|done]. Qed.
Lemma replace_value_ok N s clients f key command p content : ginv N s clients (Some f) -> 0 <= N < VLIMIT - 6 -> p = IV_NULL \/ p ∈ clients ->
  0 <= key < 2 ^ 32 -> wp (ipc_replace_voucher_value f key command p content) (fun _ s' => ginv (N + 7) s' clients (Some f)) s.
Proof.
  intros Hg HN Hp Hkey. unfold ipc_replace_voucher_value. pose proof (gi_caches _ _ _ _ Hg) as Hc. set (k := iv_key_to_index key).
  assert (ginv (N + 7) s clients (Some f)) as Hg7 by (apply (ginv_mono N); [done|lia]).
  assert (0 <= k) as Hk0 by (destruct (key_index_cases key Hkey) as [[? _]|E]; [unfold k; lia|unfold k; by rewrite E]).
  destruct (registered k) eqn:Hk.
  2: { apply wp_bind. apply (wp_ivgt_lookup_none N s (rest (held_of (g_vouchers s)))); [done|done|done|]. by apply wp_ret. }
  destruct (mg_range k Hk) as [Hr Hm0]. assert (key = k + 1) as Hkk by (destruct (key_index_cases key Hkey) as [[_ ?]|E]; [done|fold k in E; rewrite E in Hr; by destruct Hr]).
  rewrite Hkk. clearbody k. clear Hkk Hkey key. destruct (form_voucher _ _ _ _ Hg) as (v&Hf&_).
  assert (exists pv, (pv = IV_UNUSED_VALINDEX \/ pv ∈ held_of (g_vouchers s) k) /\ forall s' Q, g_vouchers s' = g_vouchers s -> Q pv s' ->
    wp (if negb (p =? IV_NULL) then lookup_at p k else ret (iv_lookup v k)) Q s') as (pv&Hpv&Hprev).
  { destruct (Z.eqb_spec p IV_NULL) as [E|E]; simpl.
    - exists (iv_lookup v k). split; [|intros; by apply wp_ret]. destruct (index_held N s clients (Some f) f v k Hg Hf Hk0) as [?|[_ ?]]; auto.
    - destruct Hp as [?|Hp]; [done|]. destruct (other_voucher _ _ _ _ _ Hg Hp) as (_&w&Hw). exists (iv_lookup w k).
      split; [destruct (index_held N s clients (Some f) p w k Hg Hw Hk0) as [?|[_ ?]]; auto|]. intros s' Q Ev HQ. apply (wp_lookup_at _ _ w); [by rewrite Ev|done]. }
  destruct (get_value_ok N s _ k pv command content Hc ltac:(lia) Hk Hpv) as (a&c&c1&vals&r&ms'&Ha&Ha0&Hca&Hidx&Er&Ep&Em&Hres).
  apply wp_bind, (wp_ivgt_lookup_ref N s (rest (held_of (g_vouchers s))) k a c c1); try done. rewrite (proj2 (Z.eqb_neq _ _) Hm0).
  apply wp_bind, (wp_lookup_at _ _ v); [done|]. apply wp_bind, Hprev; [done|]. apply wp_bind.
  apply (wp_lookup_values _ k (manager_of k) (k + 1) a _ c1 vals); [done|apply (ca_len _ _ _ Hc)|done|done|apply lookup_insert_eq|done|].
  apply wp_bind. eapply wp_in_manager; [exact Em|]. case_bool_decide as Hkr; case_bool_decide as Hkr'; try done.
  2: { apply wp_bind. eapply wp_mono; [exact Hres|]. intros _ s2 [Hc2 Hs2]. apply wp_ret. apply (ginv_caches N _ s); [done|lia|done|].
       apply (caches_mono (N + 1)); [done|lia]. }
  rewrite (mg_no_voucher k _ _ _ _ _ _ Hk Em). apply wp_bind, wp_ret, wp_bind.
  eapply wp_mono; [apply (wp_reference_by_value (N + 1) _ _ k a _ _ Hres); [done|lia|done]|]. intros i s2 [Hc2 Hs2].
  assert (same_rest s s2) as Hs by (eapply same_rest_trans; [|exact Hs2]; done). pose proof Hs as (_&Ev2&Eb2&_).
  destruct (vk_voucher _ _ _ _ (gi_vouchers _ _ _ _ Hg) f v Hf) as (_&Hl&_&Hz).
  apply wp_bind, (wp_iv_set _ _ v); [by rewrite Ev2|lia|]. apply wp_bind. rewrite Ev2. eapply wp_mono.
  { apply wp_ivace_release; [apply (caches_vouchers _ _ _ _ Hc2)|lia|]. rewrite upd_eq.
    destruct (index_held N s clients (Some f) f v k Hg Hf Hk0) as [?|[_ ?]]; [by left|right]. split; [done|multiset_solver]. }
  intros _ s3 [Hc3 (_&Ev3&Eb3&_)]. simpl in Ev3, Eb3. apply wp_ret. replace (N + 1 + 3 + 3) with (N + 7) in Hc3 by lia.
  apply (ginv_form N (N + 7) s s3 clients f v (set_iv_table (aset (iv_table v) k i) v)); try done; simpl; [lia|by rewrite alen_aset| |congruence|].
  - intros j Hj Hrj. rewrite anth_aset_ne; [by apply Hz|lia..|congruence].
  - apply (caches_ext _ _ _ _ Hc3). intros j Hj. unfold rest. f_equal. destruct (mg_range j Hj) as [Hrj _].
    rewrite (held_of_update _ _ v) by done. rewrite iv_lookup_set by lia. unfold upd. rewrite Z.eqb_refl.
    destruct (Z.eqb_spec j k) as [->|]; [rewrite (held_of_delete _ _ _ k Hf); multiset_solver|]. rewrite (held_of_delete _ _ _ j Hf). multiset_solver.
Qed.

(** ** The commands of a recipe *)
Lemma each_ok (l : list Z) (g : Z -> M (vst MS) unit) clients f : forall N s, ginv N s clients (Some f) -> 0 <= N < VLIMIT - 7 * alen l ->
  (forall j N s, j ∈ l -> ginv N s clients (Some f) -> 0 <= N < VLIMIT - 6 -> forms (N + 7) clients f (g j) s) ->
  forms (N + 7 * alen l) clients f (each l g) s.
Proof.
  induction l as [|j l IH]; intros N s Hg HN Hj; [apply wp_ret; by replace (N + 7 * alen []) with N by (unfold alen; simpl; lia)|].
  assert (alen (j :: l) = alen l + 1) as El by (unfold alen; simpl; lia). assert (0 <= alen l) as Hl0 by (unfold alen; lia). rewrite El in *.
  apply wp_bind. eapply wp_mono; [apply (Hj j N s); [by left|done|lia]|]. intros [] s1 Hg1. replace (N + 7 * (alen l + 1)) with (N + 7 + 7 * alen l) by lia.
  apply IH; [done|lia|]. intros j' N' s' Hj'. apply Hj. by right.
Qed.
Lemma each_kr_ok (l : list Z) (g : Z -> M (vst MS) kern_return_t) clients f : forall N s, ginv N s clients (Some f) -> 0 <= N < VLIMIT - 7 * alen l ->
  (forall j N s, j ∈ l -> ginv N s clients (Some f) -> 0 <= N < VLIMIT - 6 -> wp (g j) (fun _ s' => ginv (N + 7) s' clients (Some f)) s) ->
  wp (each_kr l g) (fun _ s' => ginv (N + 7 * alen l) s' clients (Some f)) s.
Proof.
  induction l as [|j l IH]; intros N s Hg HN Hj; [apply wp_ret; by replace (N + 7 * alen []) with N by (unfold alen; simpl; lia)|].
  assert (alen (j :: l) = alen l + 1) as El by (unfold alen; simpl; lia). assert (0 <= alen l) as Hl0 by (unfold alen; lia). rewrite El in *.
  apply wp_bind. eapply wp_mono; [apply (Hj j N s); [by left|done|lia]|]. intros kr s1 Hg1. case_bool_decide.
  - apply wp_ret. apply (ginv_mono (N + 7)); [done|lia].
  - replace (N + 7 * (alen l + 1)) with (N + 7 + 7 * alen l) by lia. apply IH; [done|lia|]. intros j' N' s' Hj'. apply Hj. by right.
Qed.
Lemma common_keys_ok N s clients f p : ginv N s clients (Some f) -> p = IV_NULL \/ p ∈ clients ->
  wp (common_keys f p) (fun keys s' => keys = seqZ 0 KEYS /\ s' = s) s.
Proof.
  intros Hg Hp. destruct (form_voucher _ _ _ _ Hg) as (v&Hf&_). destruct (vk_voucher _ _ _ _ (gi_vouchers _ _ _ _ Hg) f v Hf) as (_&Hl&_).
  apply wp_bind, (wp_get_voucher _ _ v); [done|]. unfold iv_table_size. rewrite Hl. destruct (Z.eqb_spec p IV_NULL); [by apply wp_ret|].
  destruct Hp as [?|Hp]; [done|]. destruct (other_voucher _ _ _ _ _ Hg Hp) as (_&w&Hw).
  destruct (vk_voucher _ _ _ _ (gi_vouchers _ _ _ _ Hg) p w Hw) as (_&Hlw&_). apply wp_bind, (wp_get_voucher _ _ w); [done|]. rewrite Hlw. by apply wp_ret.
Qed.
Lemma redeem_value_ok N s clients f command p content j : ginv N s clients (Some f) -> 0 <= N < VLIMIT - 6 -> p = IV_NULL \/ p ∈ clients -> 0 <= j < KEYS ->
  wp (redeem_value f command p content j) (fun _ s' => ginv (N + 7) s' clients (Some f)) s.
Proof.
  intros Hg HN Hp Hj. pose proof (gi_caches _ _ _ _ Hg) as Hc. unfold redeem_value. destruct (registered j) eqn:Hr.
  - apply wp_bind, (wp_index_to_key N s (rest (held_of (g_vouchers s))) j); [done..|]. unfold KEYS, MACH_VOUCHER_ATTR_KEY_NUM_WELL_KNOWN, MACH_VOUCHER_ATTR_KEY_TEST in Hj.
    rewrite (proj2 (Z.eqb_neq _ _)) by (unfold MACH_VOUCHER_ATTR_KEY_NONE; lia). apply replace_value_ok; [done|done|done|lia].
  - apply wp_bind. unfold iv_index_to_key. rewrite (proj2 (Z.ltb_lt _ _)) by lia. apply wp_bind, wp_bind, wp_gets. unfold id.
    eapply wp_lift; [apply aget_in; by rewrite (ca_len _ _ _ Hc)|]. rewrite (ca_none _ _ _ Hc) by done. apply wp_ret, wp_ret.
    apply (ginv_mono N); [done|lia].
Qed.
Lemma execute_ok N s clients f key command p content : ginv N s clients (Some f) -> 0 <= N < VLIMIT - 56 -> p = IV_NULL \/ p ∈ clients ->
  0 <= key < 2 ^ 32 ->
  wp (ipc_execute_voucher_recipe_command f key command p content false) (fun _ s' => ginv (N + 56) s' clients (Some f)) s.
Proof.
  intros Hg HN Hp Hkey. assert (ginv (N + 56) s clients (Some f)) as Hg' by (apply (ginv_mono N); [done|lia]).
  assert (7 * alen (seqZ 0 KEYS) = 56) as E8 by done.
  assert (forall g, (forall j N s, 0 <= j < KEYS -> ginv N s clients (Some f) -> 0 <= N < VLIMIT - 6 -> forms (N + 7) clients f (g j) s) ->
    wp (each (seqZ 0 KEYS) g ;;* ret KERN_SUCCESS) (fun _ s' => ginv (N + 56) s' clients (Some f)) s) as Hall.
  { intros g Hj. apply wp_bind. eapply wp_mono; [apply (each_ok _ g clients f N s); [done|rewrite E8; lia|]|intros [] s1 Hs1; rewrite E8 in Hs1; by apply wp_ret].
    intros j N' s' Hin%elem_of_seqZ. apply Hj. lia. }
  assert (forall j N s, p ∈ clients -> 0 <= j < KEYS -> ginv N s clients (Some f) -> 0 <= N < VLIMIT - 6 -> forms (N + 7) clients f (copy_value f p j) s) as Hcopy.
  { intros j N' s' Hpc Hj Hg1 HN'. eapply wp_mono; [by apply (copy_value_ok N'); [|lia|..]|]. intros ? s1 Hs1. apply (ginv_mono (N' + 4)); [done|lia]. }
  assert (forall j N s, 0 <= j < KEYS -> ginv N s clients (Some f) -> 0 <= N < VLIMIT - 6 -> forms (N + 7) clients f (remove_value f p j) s) as Hrem.
  { intros j N' s' Hj Hg1 HN'. eapply wp_mono; [by apply (remove_value_ok N'); [|lia|..]|]. intros ? s1 Hs1. apply (ginv_mono (N' + 4)); [done|lia]. }
  assert ((ivgt_keys_in_use <? iv_key_to_index key) = false -> 0 <= iv_key_to_index key < KEYS) as Hki.
  { intros E%Z.ltb_ge. destruct (key_index_cases key Hkey) as [[? _]|E']; [done|]. rewrite E' in E. done. }
  unfold ipc_execute_voucher_recipe_command. destruct (command =? MACH_VOUCHER_ATTR_COPY).
  { destruct (0 <? alen content); [by apply wp_ret|]. destruct (Z.eqb_spec p IV_NULL) as [|Hpn]; [by apply wp_ret|]. destruct Hp as [?|Hp]; [done|].
    destruct (_ =? key).
    - apply wp_bind. eapply wp_mono; [apply (common_keys_ok N _ clients); auto|]. intros keys s' [-> ->]. apply Hall. intros j N' s'. by apply Hcopy.
    - destruct (_ <? _) eqn:E; [by apply wp_ret|]. apply wp_bind. eapply wp_mono; [apply (Hcopy _ N s); [done|by apply Hki|done|lia]|]. intros ? s1 Hs1.
      apply wp_ret. apply (ginv_mono (N + 7)); [done|lia]. }
  destruct (command =? MACH_VOUCHER_ATTR_REMOVE).
  { destruct (0 <? alen content); [by apply wp_ret|]. destruct (_ =? key).
    - apply wp_bind. eapply wp_mono; [by apply (common_keys_ok N _ clients)|]. intros keys s' [-> ->]. by apply Hall.
    - destruct (_ <? _) eqn:E; [by apply wp_ret|]. apply wp_bind. eapply wp_mono; [apply (Hrem _ N s); [by apply Hki|done|lia]|]. intros ? s1 Hs1.
      apply wp_ret. apply (ginv_mono (N + 7)); [done|lia]. }
  destruct (command =? MACH_VOUCHER_ATTR_SET_VALUE_HANDLE); [by apply wp_ret|]. destruct (_ && _).
  - apply wp_bind. eapply wp_mono; [by apply (common_keys_ok N _ clients)|]. intros keys s' [-> ->]. rewrite <- E8. apply each_kr_ok; [done|lia|].
    intros j N' s' Hj%elem_of_seqZ Hg1 HN'. apply redeem_value_ok; [done|done|done|lia].
  - eapply wp_mono; [by apply (replace_value_ok N); [|lia|..]|]. intros ? s1 Hs1. apply (ginv_mono (N + 7)); [done|lia].
Qed.

(** ** The recipes of a voucher *)
Lemma recipe_rounds_ok clients f recipes : bytes_ok recipes -> forall fuel N s used, ginv N s clients (Some f) -> 0 <= used <= alen recipes ->
  alen recipes - used < Z.of_nat fuel -> (forall p, p ∈ recipe_vouchers fuel recipes used -> p = IV_NULL \/ p ∈ clients) ->
  0 <= N -> N + 3 * (alen recipes - used) < VLIMIT ->
  wp (recipe_rounds fuel None recipes used false f) (fun _ s' => ginv (N + 3 * (alen recipes - used)) s' clients (Some f)) s.
Proof.
  intros Hb. induction fuel as [|fuel IH]; intros N s used Hg Hu Hfuel Hp HN0 HN; [lia|]. cbn [recipe_rounds recipe_vouchers] in *.
  assert (ginv (N + 3 * (alen recipes - used)) s clients (Some f)) as Hg' by (apply (ginv_mono N); [done|lia]).
  destruct (Z.eqb_spec (alen recipes - used) 0) as [|Hne]; [by apply wp_ret|].
  destruct (Z.ltb_spec (alen recipes - used) (recipe_struct_size false)) as [|Hroom]; [by apply wp_ret|].
  destruct (recipe_at_ok recipes used Hb) as (r&Er&Hkey&Hcs); [lia..|]. rewrite Er in Hp. apply wp_bind. eapply wp_lift; [exact Er|].
  destruct (Z.ltb_spec (alen recipes - used - recipe_struct_size false) (rc_content_size r)) as [|Hcr]; [by apply wp_ret|].
  assert (recipe_struct_size false = 20) as E20 by done. rewrite E20 in *.
  apply wp_bind. unfold bytes_at. rewrite (proj2 (Z.leb_le _ _)) by lia. eapply wp_lift; [done|]. apply wp_bind, wp_ret. cbn [andb].
  apply wp_bind. eapply wp_mono; [apply (execute_ok N s clients f); [done|lia|apply Hp; by left|done]|]. intros kr s1 Hg1. apply wp_bind, wp_ret.
  case_bool_decide.
  - apply wp_ret. apply (ginv_mono (N + 56)); [done|lia].
  - eapply wp_mono; [apply (IH (N + 60 + 3 * rc_content_size r)); [apply (ginv_mono (N + 56)); [done|lia]|lia|lia| |lia|lia]|].
    + intros p Hin. apply Hp. by right.
    + intros kr' s2 Hg2. apply (ginv_mono _ _ _ _ _ Hg2). lia.
Qed.

(** ** Giving up the references of a voucher *)
Definition entries_from (i : Z) (table : list Z) (R : Z -> gmultiset Z) : Z -> gmultiset Z :=
  fun k => R k ⊎ if i <=? k then held_at (anth table k) else ∅.
Lemma dealloc_loop f table R n : forall i N s v, i + Z.of_nat n = KEYS -> 0 <= i -> g_vouchers s !! f = Some v -> alen (iv_table v) = KEYS ->
  (forall j, i <= j < KEYS -> anth (iv_table v) j = anth table j) ->
  (forall j, 0 <= j < KEYS -> registered j = false -> anth table j = IV_UNUSED_VALINDEX) ->
  caches N s (rest (entries_from i table R)) -> 0 <= N < VLIMIT - 3 * Z.of_nat n ->
  wp (each (seqZ i (Z.of_nat n)) (fun i => let* v := lookup_at f i in ivace_release i v ;;* when MACH_ASSERT (iv_set f i 0xffffffff)))
     (fun _ s' => caches (N + 3 * Z.of_nat n) s' (rest (entries_from KEYS table R)) /\ delete f (g_vouchers s') = delete f (g_vouchers s) /\
        ivht_bucket s' = ivht_bucket s) s.
Proof.
  induction n as [|n IH]; intros i N s v Hi Hi0 Hf Hl Hsame Hz Hc HN.
  { apply wp_ret. replace i with KEYS in Hc by lia. split; [|done]. by apply (caches_mono N); [|lia]. }
  rewrite seqZ_cons by lia. replace (Z.pred (Z.of_nat (S n))) with (Z.of_nat n) by lia. cbn [each].
  assert (iv_lookup v i = anth table i) as El by (unfold iv_lookup, iv_table_size; rewrite Hl, (proj2 (Z.ltb_lt _ _)) by lia; apply Hsame; lia).
  apply wp_bind, wp_bind, (wp_lookup_at _ _ v); [done|]. rewrite El. apply wp_bind. eapply wp_mono.
  { apply wp_ivace_release; [exact Hc|lia|]. destruct (decide (anth table i = IV_UNUSED_VALINDEX)) as [|Hne]; [by left|right].
    destruct (registered i) eqn:E; [|by rewrite Hz in Hne by (done || lia)]. split; [done|]. unfold entries_from. rewrite (proj2 (Z.leb_le _ _)) by lia.
    rewrite (held_at_ne _ Hne). multiset_solver. }
  intros [] s1 [Hc1 (_&Ev&Eb&_)].
  assert (caches (N + 3) s1 (rest (entries_from (i + 1) table R))) as Hc2.
  { apply (caches_ext _ _ _ _ Hc1). intros j _. unfold rest, entries_from, upd. f_equal. destruct (Z.eqb_spec j i) as [->|Hne].
    - rewrite (proj2 (Z.leb_gt _ _)) by lia. rewrite (proj2 (Z.leb_le _ _)) by lia. multiset_solver.
    - destruct (Z.leb_spec (i + 1) j), (Z.leb_spec i j); [done|lia|lia|done]. }
  assert (forall v' s2, g_vouchers s2 !! f = Some v' -> alen (iv_table v') = KEYS -> (forall j, i + 1 <= j < KEYS -> anth (iv_table v') j = anth table j) ->
    caches (N + 3) s2 (rest (entries_from (i + 1) table R)) -> delete f (g_vouchers s2) = delete f (g_vouchers s) -> ivht_bucket s2 = ivht_bucket s ->
    wp (each (seqZ (i + 1) (Z.of_nat n)) (fun i => let* v := lookup_at f i in ivace_release i v ;;* when MACH_ASSERT (iv_set f i 0xffffffff)))
     (fun _ s' => caches (N + 3 * Z.of_nat (S n)) s' (rest (entries_from KEYS table R)) /\ delete f (g_vouchers s') = delete f (g_vouchers s) /\
        ivht_bucket s' = ivht_bucket s) s2) as Hnext.
  { intros v' s2 Hf2 Hl2 Hs2 Hc' Hd2 Hb2. eapply wp_mono; [apply (IH (i + 1) (N + 3) s2 v'); try done; lia|]. intros ? s' (Hc3&Hd3&Hb3).
    replace (N + 3 * Z.of_nat (S n)) with (N + 3 + 3 * Z.of_nat n) by lia. split; [done|]. split; congruence. }
  apply wp_when.
  - intros _. apply (wp_iv_set _ _ v); [by rewrite Ev|lia|]. eapply Hnext; [apply lookup_insert_eq| | |by apply caches_vouchers| |done].
    + simpl. by rewrite alen_aset.
    + intros j Hj. simpl. rewrite anth_aset_ne by lia. apply Hsame. lia.
    + simpl. by rewrite delete_insert_eq, Ev.
  - intros _. apply (Hnext v); try done; [by rewrite Ev|intros j Hj; apply Hsame; lia|by rewrite Ev].
Qed.
Lemma entries_all vs f v k : vs !! f = Some v -> alen (iv_table v) = KEYS -> 0 <= k < KEYS ->
  entries_from 0 (iv_table v) (held_of (delete f vs)) k = held_of vs k.
Proof.
  intros Hf Hl Hk. unfold entries_from. rewrite (proj2 (Z.leb_le _ _)) by lia. rewrite (held_of_delete vs f v k Hf).
  unfold iv_lookup, iv_table_size. rewrite Hl, (proj2 (Z.ltb_lt _ _)) by lia. multiset_solver.
Qed.
(** The tail of [iv_dealloc]: no port, every reference is given up, the memory is freed. *)
Lemma dealloc_tail N s f v v1 : caches N s (rest (held_of (<[f := v]> (g_vouchers s)))) -> 0 <= N < VLIMIT - 24 -> g_vouchers s !! f = Some v1 ->
  iv_table v1 = iv_table v -> alen (iv_table v) = KEYS -> iv_port v = IP_NULL ->
  (forall k, 0 <= k < KEYS -> registered k = false -> anth (iv_table v) k = IV_UNUSED_VALINDEX) ->
  wp (discard_port (iv_port v) IKOT_VOUCHER ;;*
      each (seqZ 0 (iv_table_size v)) (fun i => let* v := lookup_at f i in ivace_release i v ;;* when MACH_ASSERT (iv_set f i 0xffffffff)) ;;*
      modify (fun s => set_g_vouchers (delete f (g_vouchers s)) s))
     (fun _ s' => caches (N + 24) s' (rest (held_of (g_vouchers s'))) /\ g_vouchers s' = delete f (g_vouchers s) /\ ivht_bucket s' = ivht_bucket s) s.
Proof.
  intros Hc HN Hf Et Hl Hp Hz. rewrite Hp. apply wp_bind, wp_ret. unfold iv_table_size. rewrite Hl. apply wp_bind. eapply wp_mono.
  { apply (dealloc_loop f (iv_table v) (held_of (delete f (g_vouchers s))) 8 0 N s v1); try done; [by rewrite Et|by rewrite Et|].
    apply (caches_ext _ _ _ _ Hc). intros k Hk. destruct (mg_range k Hk) as [Hr _]. unfold rest. f_equal.
    rewrite <- (delete_insert_eq (g_vouchers s) f v). apply entries_all; [apply lookup_insert_eq|done|done]. }
  intros [] s' (Hc'&Hd&Hb). apply wp_modify. simpl. split; [|done]. apply caches_vouchers. apply (caches_ext _ _ _ _ Hc').
  intros k Hk. destruct (mg_range k Hk) as [Hr _]. unfold rest, entries_from. f_equal. rewrite (proj2 (Z.leb_gt _ _)) by lia. rewrite Hd. multiset_solver.
Qed.

Lemma voucher_release_count n : 0 < n < 2 ^ 28 -> os_ref_release_barrier_internal n = Done (n - 1).
Proof.
  intros Hn. unfold os_ref_release_barrier_internal, os_ref_release_n, os_ref_check_underflow, u32. rewrite (proj2 (Z.ltb_ge _ _)) by lia. simpl.
  f_equal. apply Z.mod_small. lia.
Qed.
Lemma voucher_retain_count n : 0 < n < VLIMIT -> os_ref_retain_internal n = Done (n + 1) /\ os_ref_retain_try_internal n = Done (n + 1, true).
Proof.
  unfold VLIMIT. intros Hn.
  unfold os_ref_retain_internal, os_ref_retain_floor_internal, os_ref_check_retain, os_ref_retain_try_internal, os_ref_retain_floor_try_internal, os_ref_check_overflow, u32, OS_REFCNT_MAX_COUNT.
  rewrite !(proj2 (Z.ltb_ge _ _)) by lia. rewrite !(proj2 (Z.leb_gt _ _)) by lia. simpl. by rewrite Z.mod_small by lia.
Qed.

End calls.

Section making.
Context `{KernelConfig} `{TableSizes} `{Concurrency} `{Externals} `{RequestSizes} `{KobjectOps} `{Messages} {MS : Type} {mgr : AttrManager MS} `{!Managers mgr}.
Implicit Types (s : vst MS) (k N : Z) (base vs : gmap Z ipc_voucher) (clients : gmultiset Z) (form : option Z).

(** The voucher that was being made is thrown away. *)
Lemma dealloc_form base N s clients f : ginv base N s clients (Some f) -> 0 <= N < VLIMIT - 24 ->
  wp (iv_dealloc f false) (fun _ s' => ginv base (N + 24) s' clients None) s.
Proof.
  intros [Hc [V1 V2 V3 V4 V5 V6 V8 V7] Hn] HN. destruct (V4 f eq_refl) as (v&Hf&Hr). destruct (V1 f v Hf) as (Hf0&Hl&Hp&Hz).
  apply wp_bind, (wp_get_voucher _ _ v); [done|]. apply wp_bind, wp_bind. rewrite Hr. eapply wp_lift; [by apply voucher_release_count|].
  apply wp_bind, wp_bind, (wp_get_voucher _ _ v); [done|]. apply wp_modify, wp_massert; [done|].
  eapply wp_mono.
  { apply (dealloc_tail N _ f v (set_iv_refs (1 - 1) v)); simpl; try done; [|apply lookup_insert_eq].
    apply caches_vouchers. apply (caches_ext _ _ _ _ Hc). intros k _. unfold rest. f_equal. rewrite insert_insert_eq. by rewrite insert_id. }
  intros [] s' (Hc'&Ev&Eb). simpl in Ev, Eb. rewrite delete_insert_eq in Ev.
  assert (forall a w, made_voucher (delete f (g_vouchers s)) None a w <-> made_voucher (g_vouchers s) (Some f) a w) as Hmade.
  { intros a w. unfold made_voucher. rewrite lookup_delete_Some. naive_solver. }
  split; [done| |lia]. rewrite Ev, Eb. split; try done.
  - intros a w [_ Ha]%lookup_delete_Some. by apply V1.
  - intros a w Ha%Hmade. by apply V2.
  - intros a Ha. destruct (V3 a Ha) as [w Hw]. exists w. by apply Hmade.
  - intros h a Hh. rewrite V6 by done. split; intros (w&Hw&E); exists w; (split; [by apply Hmade|done]).
  - intros a b w w' Ha%Hmade Hb%Hmade. by apply V7.
Qed.

(** ** One voucher for equal tables *)
Lemma matches_eq (t t' : list Z) : alen t = alen t' -> iv_matches t t' = bool_decide (t = t').
Proof.
  unfold alen. intros E. assert (length t = length t') as El by lia. unfold iv_matches. rewrite El, take_ge, drop_ge by lia. simpl. by rewrite andb_true_r.
Qed.
Lemma dedup_find_ok base N s clients f T sum hash : ginv base N s clients (Some f) -> N < VLIMIT -> (exists v, g_vouchers s !! f = Some v /\ iv_table v = T) ->
  iv_checksum T = (sum, false) -> forall queue, (forall a, a ∈ queue -> exists w, made_voucher (g_vouchers s) (Some f) a w /\ iv_hash w = hash) ->
  wp (dedup_find queue sum hash f) (fun r s' => match r with
    | None => s' = s /\ forall a w, a ∈ queue -> g_vouchers s !! a = Some w -> iv_table w <> T
    | Some a => exists w, made_voucher (g_vouchers s) (Some f) a w /\ iv_table w = T /\
        s' = set_g_vouchers (<[a := set_iv_refs (iv_refs w + 1) w]> (g_vouchers s)) s
    end) s.
Proof.
  intros Hg HN (v&Hf&HT) Hsum. pose proof Hg as [_ [V1 V2 _ _ _ _ _ _] Hn]. induction queue as [|a queue IH]; intros Hq.
  { apply wp_ret. split; [done|]. by intros a w ?%elem_of_nil. }
  destruct (Hq a) as (w&Hw&Hh); [left|]. destruct (V2 a w Hw) as (Hcl&Hr&Hck&_). pose proof Hw as [Ha Hne].
  destruct (V1 a w Ha) as (_&Hlw&_), (V1 f v Hf) as (_&Hl&_).
  assert (iv_table w <> T -> wp (dedup_find queue sum hash f) (fun r s' => match r with
    | None => s' = s /\ forall b w, b ∈ a :: queue -> g_vouchers s !! b = Some w -> iv_table w <> T
    | Some a => exists w, made_voucher (g_vouchers s) (Some f) a w /\ iv_table w = T /\
        s' = set_g_vouchers (<[a := set_iv_refs (iv_refs w + 1) w]> (g_vouchers s)) s
    end) s) as Hskip.
  { intros Hdiff. eapply wp_mono; [apply IH; intros b Hb; apply Hq; by right|]. intros [b|] s' Hres; [done|]. destruct Hres as [-> Hres].
    split; [done|]. intros b u [->|Hb]%elem_of_cons Hu; [congruence|by apply (Hres b)]. }
  apply wp_bind, (wp_get_voucher _ _ w); [done|]. apply wp_bind, (wp_get_voucher _ _ v); [done|]. apply wp_bind, wp_massert; [by apply Z.eqb_eq|].
  assert (0 < iv_refs w < VLIMIT) as Hrange.
  { rewrite Hr. rewrite elem_of_multiplicity in Hcl. pose proof (multiplicity_size a clients). lia. }
  rewrite (proj2 (Z.ltb_lt _ _)) by lia. simpl. destruct (Z.eqb_spec (iv_sum w) sum) as [Es|Es]; [|apply Hskip; congruence].
  apply wp_bind, wp_massert; [apply Z.leb_le; unfold iv_table_size; lia|]. rewrite matches_eq, HT by lia. case_bool_decide as Et; [|by apply Hskip].
  apply wp_bind. eapply wp_lift; [by apply voucher_retain_count|]. apply wp_bind, wp_modify, wp_ret. by exists w.
Qed.

(** The voucher is now another one, or has been made itself. *)
Lemma client_again base N s clients form a w : ginv base N s clients form -> made_voucher (g_vouchers s) form a w ->
  ginv (<[a := set_iv_refs (iv_refs w + 1) w]> base) (N + 1) (set_g_vouchers (<[a := set_iv_refs (iv_refs w + 1) w]> (g_vouchers s)) s) (clients ⊎ {[+ a +]}) form.
Proof.
  intros [Hc [V1 V2 V3 V4 V5 V6 V8 V7] Hn] [Ha Hne]. destruct (V2 a w (conj Ha Hne)) as (Hcl&Hr&Hck&Hh).
  set (w' := set_iv_refs (iv_refs w + 1) w).
  assert (forall b u, made_voucher (<[a := w']> (g_vouchers s)) form b u ->
    exists u', made_voucher (g_vouchers s) form b u' /\ iv_table u = iv_table u' /\ iv_hash u = iv_hash u' /\ iv_sum u = iv_sum u' /\
      iv_refs u = iv_refs u' + (if b =? a then 1 else 0)) as Hold.
  { intros b u [[[<- <-]|[Hba Hb]]%lookup_insert_Some Hbn]; [exists w; rewrite Z.eqb_refl; by split|]. exists u.
    rewrite (proj2 (Z.eqb_neq _ _)) by congruence. split_and!; try done. lia. }
  split; simpl; [|split|].
  - apply caches_vouchers. apply (caches_ext (N + 1) _ (rest (held_of (g_vouchers s)))); [apply (caches_mono N); [done|lia]|].
    intros k _. unfold rest. f_equal. by apply (held_of_same _ _ w).
  - intros b u [[<- <-]|[Hba Hb]]%lookup_insert_Some; [by apply (V1 a w)|by apply V1].
  - intros b u (u'&Hu'&Et&Eh&Es&Er)%Hold. destruct (V2 b u' Hu') as (?&Hr'&?&?). rewrite multiplicity_disj_union, multiplicity_singleton.
    split_and!; [multiset_solver| |congruence|congruence]. rewrite Er, Hr'. destruct (Z.eqb_spec b a); case_decide; try congruence; lia.
  - intros b [Hb|Hb]%gmultiset_elem_of_disj_union.
    + destruct (V3 b Hb) as (u&Hu&Hun). destruct (decide (a = b)) as [<-|Hab]; [exists w'; split; [apply lookup_insert_eq|done]|].
      exists u. split; [by rewrite lookup_insert_ne|done].
    + apply gmultiset_elem_of_singleton in Hb as ->. exists w'. split; [apply lookup_insert_eq|done].
  - intros b Hb. destruct (V4 b Hb) as (u&Hu&Hur). exists u. rewrite lookup_insert_ne by congruence. done.
  - done.
  - intros h b Hh'. rewrite V6 by done. split; intros (u&Hu&E).
    + destruct Hu as [Hu Hun]. destruct (decide (a = b)) as [<-|Hab]; [exists w'; split; [split; [apply lookup_insert_eq|done]|simpl; congruence]|].
      exists u. split; [split; [by rewrite lookup_insert_ne|done]|done].
    + apply Hold in Hu as (u'&Hu'&_&Eh&_). exists u'. split; [done|congruence].
  - rewrite <- V8. destruct form as [f|]; [|done]. by rewrite delete_insert_ne by congruence.
  - intros b c u x (u'&Hu'&Et&_)%Hold (x'&Hx'&Ex&_)%Hold E. apply (V7 b c u' x'); congruence.
  - rewrite gmultiset_size_disj_union, gmultiset_size_singleton. lia.
Qed.
Lemma make_voucher base N s clients f v sum : ginv base N s clients (Some f) -> g_vouchers s !! f = Some v -> iv_checksum (iv_table v) = (sum, false) ->
  (forall a w, made_voucher (g_vouchers s) (Some f) a w -> iv_table w <> iv_table v) ->
  let hash := IV_HASH_BUCKET sum in
  ginv (<[f := set_iv_hash hash (set_iv_sum sum v)]> base) (N + 1) (set_ivht_count (u32 (ivht_count s + 1)) (set_ivht_bucket (aset (ivht_bucket s) hash (anth (ivht_bucket s) hash ++ [f]))
    (set_g_vouchers (<[f := set_iv_hash hash (set_iv_sum sum v)]> (g_vouchers s)) s))) (clients ⊎ {[+ f +]}) None.
Proof.
  intros [Hc [V1 V2 V3 V4 V5 V6 V8 V7] Hn] Hf Hsum Hnew hash. set (v' := set_iv_hash hash (set_iv_sum sum v)).
  assert (0 <= hash < IV_HASH_BUCKETS) as Hhash by (by apply Z.mod_pos_bound).
  assert (multiplicity f clients = 0%nat) as Hfc.
  { destruct (decide (f ∈ clients)) as [Hin|Hin]; [destruct (V3 f Hin) as (?&_&?); congruence|]. rewrite elem_of_multiplicity in Hin. lia. }
  assert (forall a w, made_voucher (<[f := v']> (g_vouchers s)) None a w <-> a = f /\ w = v' \/ made_voucher (g_vouchers s) (Some f) a w) as Hmade.
  { intros a w. unfold made_voucher. rewrite lookup_insert_Some. naive_solver. }
  destruct (V4 f eq_refl) as (v0&Hv0&Hr). rewrite Hf in Hv0. injection Hv0 as <-. split; simpl; [|split|].
  - apply (caches_ext (N + 1) _ (rest (held_of (g_vouchers s)))); [|intros k _; unfold rest; f_equal; by apply (held_of_same _ _ v)].
    apply (caches_mono _ (N + 1)) in Hc as [Ha Hb Hk]; [by split|lia].
  - intros a w [[<- <-]|[_ Ha]]%lookup_insert_Some; [by apply (V1 f v)|by apply V1].
  - intros a w [[-> ->]|Ha]%Hmade; rewrite multiplicity_disj_union, multiplicity_singleton.
    + rewrite decide_True by done. split_and!; [multiset_solver|simpl; lia|done|done].
    + destruct (V2 a w Ha) as (?&?&?&?). destruct Ha as [_ Hne]. rewrite decide_False by congruence. split_and!; [multiset_solver|lia|done|done].
  - intros a [Ha| ->%gmultiset_elem_of_singleton]%gmultiset_elem_of_disj_union.
    + destruct (V3 a Ha) as [w Hw]. exists w. apply Hmade. by right.
    + exists v'. apply Hmade. by left.
  - done.
  - by rewrite alen_aset.
  - intros h a Hh. rewrite anth_aset by lia. setoid_rewrite Hmade. destruct (Z.eqb_spec hash h) as [<-|Hne].
    + rewrite elem_of_app, V6, list_elem_of_singleton by done. naive_solver.
    + rewrite V6 by done. naive_solver.
  - rewrite <- V8. by rewrite insert_delete_eq.
  - intros a b w u [[-> ->]|Ha]%Hmade [[-> ->]|Hb]%Hmade E; [done| | |by apply (V7 a b w u)].
    + by destruct (Hnew b u Hb).
    + by destruct (Hnew a w Ha).
  - rewrite gmultiset_size_disj_union, gmultiset_size_singleton. lia.
Qed.

Definition client_of (a : Z) : gmultiset Z := if a =? IV_NULL then ∅ else {[+ a +]}.
Lemma client_of_ne a : a <> IV_NULL -> client_of a = {[+ a +]}.
Proof. intros Ha. unfold client_of. by rewrite (proj2 (Z.eqb_neq _ _) Ha). Qed.
(** Vouchers are permanent. *)
Definition same_tables base base' : Prop := forall a w, base !! a = Some w -> exists w', base' !! a = Some w' /\ iv_table w' = iv_table w.
Lemma ginv_at_mono base N N' s clients form : ginv base N s clients form -> N <= N' -> ginv base N' s clients form.
Proof. apply ginv_mono. Qed.
Lemma dedup_ok base N s clients f v : ginv base N s clients (Some f) -> 0 <= N < VLIMIT - 25 -> g_vouchers s !! f = Some v ->
  wp (iv_dedup f) (fun r s' => exists base', ginv base' (N + 25) s' (clients ⊎ client_of r) None /\ same_tables base base' /\
    if (iv_checksum (iv_table v)).2 then r = IV_NULL else exists w, base' !! r = Some w /\ iv_table w = iv_table v) s.
Proof.
  intros Hg HN Hf. pose proof (gi_vouchers _ _ _ _ _ Hg) as Hv. pose proof (vk_base _ _ _ _ _ Hv) as Hbase. simpl in Hbase.
  apply wp_bind, (wp_get_voucher _ _ v); [done|]. destruct (iv_checksum (iv_table v)) as [sum empty] eqn:Esum. destruct empty.
  { apply wp_bind. eapply wp_mono; [by apply (dealloc_form base N); [|lia]|]. intros [] s1 Hg1. apply wp_ret. exists base.
    split; [|split; [intros a w Ha; by exists w|done]]. change (client_of IV_NULL) with (∅ : gmultiset Z). rewrite gmultiset_disj_union_right_id.
    apply (ginv_at_mono _ (N + 24)); [done|lia]. }
  assert (0 <= IV_HASH_BUCKET sum < IV_HASH_BUCKETS) as Hhash by (by apply Z.mod_pos_bound).
  apply wp_bind, wp_gets, wp_bind. unfold id. eapply wp_lift; [apply aget_in; by rewrite (vk_buckets _ _ _ _ _ Hv)|]. apply wp_bind. eapply wp_mono.
  { apply (dedup_find_ok base N s clients f (iv_table v) sum (IV_HASH_BUCKET sum) Hg); [lia|by exists v|done|]. intros a Ha.
    by apply (vk_queue _ _ _ _ _ Hv). }
  intros [a|] s1 Hres.
  - destruct Hres as (w&Hw&Et&->). destruct (vk_voucher _ _ _ _ _ Hv a w (proj1 Hw)) as (Ha0&_).
    pose proof (client_again base N s clients (Some f) a w Hg Hw) as Hg1. apply wp_bind. eapply wp_mono; [apply (dealloc_form _ (N + 1) _ _ _ Hg1); lia|].
    intros [] s2 Hg2. apply wp_ret. eexists. rewrite (client_of_ne a) by done. split; [by replace (N + 25) with (N + 1 + 24) by lia|]. split.
    + intros b u Hb. destruct (decide (a = b)) as [<-|Hab]; [|exists u; by rewrite lookup_insert_ne].
      rewrite <- Hbase, lookup_delete_ne in Hb by (destruct Hw; congruence). eexists. rewrite lookup_insert_eq. split; [done|]. simpl. destruct Hw. congruence.
    + simpl. eexists. rewrite lookup_insert_eq. by split.
  - destruct Hres as [-> Hres]. destruct (vk_voucher _ _ _ _ _ Hv f v Hf) as (Hf0&_). apply wp_bind, wp_bind, (wp_get_voucher _ _ v); [done|].
    apply wp_modify, wp_bind, wp_modify, wp_bind, wp_modify, wp_ret. simpl. eexists. rewrite (client_of_ne f) by done. split.
    + eapply ginv_at_mono; [apply (make_voucher base N s clients f v sum); [done..|]|lia]. intros a w Ha E. apply (Hres a w); [|apply Ha|done].
      apply (vk_queue _ _ _ _ _ Hv); [done|]. exists w. split; [done|]. destruct (vk_made _ _ _ _ _ Hv a w Ha) as (_&_&Hck&->). congruence.
    + split; [|eexists; rewrite lookup_insert_eq; by split]. intros b u Hb. exists u. rewrite lookup_insert_ne; [done|]. intros ->. by rewrite <- Hbase, lookup_delete_eq in Hb.
Qed.

(** ** The calls *)
Lemma alloc_ok base N s clients a : ginv base N s clients None -> g_vouchers s !! a = None -> a <> IV_NULL ->
  wp (iv_alloc a ivgt_keys_in_use) (fun r s' => r = a /\ ginv base N s' clients (Some a)) s.
Proof.
  intros [Hc [V1 V2 V3 V4 V5 V6 V8 V7] Hn] Ha Ha0. unfold iv_alloc. apply wp_bind. eapply wp_lift; [done|]. cbv zeta.
  change (if IV_ENTRIES_INLINE <? ivgt_keys_in_use then ivgt_keys_in_use else IV_ENTRIES_INLINE) with KEYS.
  apply wp_bind, wp_modify, wp_ret. split; [done|]. set (v := mk_voucher _ _ _ _ _).
  assert (forall k, 0 <= k < KEYS -> anth (iv_table v) k = IV_UNUSED_VALINDEX) as Hzero by (intros k Hk; by apply anth_replicate).
  assert (forall k, registered k = true -> iv_lookup v k = IV_UNUSED_VALINDEX) as Hlook.
  { intros k Hk. destruct (mg_range k Hk) as [Hr _]. unfold iv_lookup. case_match; [by apply Hzero|done]. }
  assert (forall b w, made_voucher (<[a := v]> (g_vouchers s)) (Some a) b w <-> made_voucher (g_vouchers s) None b w) as Hmade.
  { intros b w. unfold made_voucher. rewrite lookup_insert_Some. naive_solver. }
  split; simpl; [|split; try done|done].
  - apply caches_vouchers. apply (caches_ext _ _ _ _ Hc). intros k Hk. unfold rest. f_equal. rewrite held_of_insert, Hlook by done. multiset_solver.
  - intros b w [[<- <-]|[_ Hb]]%lookup_insert_Some; [|by apply V1]. split_and!; try done. intros k Hk _. by apply Hzero.
  - intros b w Hb%Hmade. by apply V2.
  - intros b Hb. destruct (V3 b Hb) as [w Hw]. exists w. by apply Hmade.
  - intros b [= <-]. exists v. by rewrite lookup_insert_eq.
  - intros h b Hh. rewrite V6 by done. split; intros (w&Hw&E); exists w; (split; [by apply Hmade|done]).
  - by rewrite delete_insert_id.
  - intros b c w u Hb%Hmade Hc'%Hmade. by apply V7.
Qed.
Definition creation_limit (recipes : list Z) : Z := 3 * alen recipes + 25.
Lemma create_ok base N s clients a recipes : ginv base N s clients None -> g_vouchers s !! a = None -> a <> IV_NULL -> bytes_ok recipes ->
  (forall p, p ∈ recipe_vouchers (S (length recipes)) recipes 0 -> p = IV_NULL \/ p ∈ clients) -> 0 <= N -> N + creation_limit recipes < VLIMIT ->
  wp (ipc_create_mach_voucher a recipes) (fun '(kr, r) s' => exists base', same_tables base base' /\
    ginv base' (N + creation_limit recipes) s' (clients ⊎ client_of r) None /\ (kr <> KERN_SUCCESS -> r = IV_NULL /\ base' = base)) s.
Proof.
  intros Hg Ha Ha0 Hb Hp HN0 HN. unfold ipc_create_mach_voucher, ipc_create_mach_voucher_internal, creation_limit in *.
  assert (0 <= alen recipes) as Hl0 by (unfold alen; lia). assert (clients ⊎ client_of IV_NULL = clients) as Enull by apply gmultiset_disj_union_right_id.
  assert (same_tables base base) as Hsame by (intros b w ?; by exists w).
  destruct (Z.eqb_spec (alen recipes) 0).
  { apply wp_ret. exists base. rewrite Enull. split; [done|]. split; [|done]. apply (ginv_at_mono _ N); [done|lia]. }
  apply wp_bind. eapply wp_mono; [by apply (alloc_ok base N s clients a)|]. intros r s1 [-> Hg1]. apply wp_bind, wp_ret, wp_bind.
  eapply wp_mono; [apply (recipe_rounds_ok base clients a recipes Hb (S (length recipes)) N s1 0 Hg1); [lia|unfold alen; lia|done|done|lia]|].
  intros kr s2 Hg2. rewrite Z.sub_0_r in Hg2. case_bool_decide as Hkr.
  - destruct (vk_form _ _ _ _ _ (gi_vouchers _ _ _ _ _ Hg2) a eq_refl) as (v&Hv&_). apply wp_bind.
    eapply wp_mono; [by apply (dedup_ok base _ s2 clients a v Hg2); [lia|]|]. intros r s3 (base'&Hg3&Hs&_). apply wp_ret. exists base'.
    split; [done|]. split; [by rewrite Z.add_assoc|done].
  - apply wp_bind. eapply wp_mono; [apply (dealloc_form base _ s2 clients a Hg2); lia|]. intros [] s3 Hg3. apply wp_ret. exists base. rewrite Enull.
    split; [done|]. split; [|done]. apply (ginv_at_mono _ _ _ _ _ _ Hg3). lia.
Qed.
Lemma voucher_reference_ok base N s clients a : ginv base N s clients None -> N < VLIMIT -> a ∈ clients ->
  wp (ipc_voucher_reference a) (fun _ s' => exists base', same_tables base base' /\ ginv base' (N + 1) s' (clients ⊎ {[+ a +]}) None) s.
Proof.
  intros Hg HN Ha. pose proof (gi_vouchers _ _ _ _ _ Hg) as Hv. pose proof (gi_clients _ _ _ _ _ Hg) as Hn. destruct (vk_client _ _ _ _ _ Hv a Ha) as (w&Hw).
  destruct (vk_voucher _ _ _ _ _ Hv a w (proj1 Hw)) as (Ha0&_). destruct (vk_made _ _ _ _ _ Hv a w Hw) as (_&Hr&_).
  unfold ipc_voucher_reference. rewrite (proj2 (Z.eqb_neq a IPC_VOUCHER_NULL) Ha0). apply wp_bind, (wp_get_voucher _ _ w); [apply Hw|]. apply wp_bind.
  pose proof (multiplicity_size a clients). rewrite elem_of_multiplicity in Ha. eapply wp_lift; [apply voucher_retain_count; lia|]. apply wp_modify. eexists.
  split; [|by apply client_again]. pose proof (vk_base _ _ _ _ _ Hv) as Hbase. simpl in Hbase. intros b u Hb.
  destruct (decide (a = b)) as [<-|Hab]; [|exists u; by rewrite lookup_insert_ne]. eexists. rewrite lookup_insert_eq. split; [done|].
  rewrite <- Hbase in Hb. destruct Hw. simpl. congruence.
Qed.

(** A reference that is not the last one, and the last one. *)
Lemma client_less base N s clients a w : ginv base N s clients None -> made_voucher (g_vouchers s) None a w -> 1 < iv_refs w ->
  let w' := set_iv_refs (iv_refs w - 1) w in
  ginv (<[a := w']> base) N (set_g_vouchers (<[a := w']> (g_vouchers s)) s) (clients ∖ {[+ a +]}) None.
Proof.
  intros [Hc [V1 V2 V3 V4 V5 V6 V8 V7] Hn] Hmw Hr w'. pose proof Hmw as [Ha _]. destruct (V2 a w Hmw) as (Hcl&Hrw&Hck&Hh).
  assert (forall b u, made_voucher (<[a := w']> (g_vouchers s)) None b u ->
    exists u', made_voucher (g_vouchers s) None b u' /\ iv_table u = iv_table u' /\ iv_hash u = iv_hash u' /\ iv_sum u = iv_sum u' /\
      iv_refs u = iv_refs u' - (if b =? a then 1 else 0)) as Hold.
  { intros b u [[[<- <-]|[Hba Hb]]%lookup_insert_Some Hbn]; [exists w; rewrite Z.eqb_refl; by split|]. exists u.
    rewrite (proj2 (Z.eqb_neq _ _)) by congruence. split_and!; try done. lia. }
  assert (forall b, b ∈ clients ∖ {[+ a +]} -> b ∈ clients) as Hsub by (intros b; rewrite !elem_of_multiplicity, multiplicity_difference; lia).
  split; simpl; [|split; try done|].
  - apply caches_vouchers. apply (caches_ext N _ _ _ Hc). intros k _. unfold rest. f_equal. by apply (held_of_same _ _ w).
  - intros b u [[<- <-]|[Hba Hb]]%lookup_insert_Some; [by apply (V1 a w)|by apply V1].
  - intros b u (u'&Hu'&Et&Eh&Es&Er)%Hold. destruct (V2 b u' Hu') as (Hbc&Hr'&?&?). rewrite elem_of_multiplicity, !multiplicity_difference, !multiplicity_singleton in *.
    destruct (Z.eqb_spec b a) as [->|]; case_decide; try done; (split; [lia|]); (split; [lia|]); split; congruence.
  - intros b Hb%Hsub. destruct (V3 b Hb) as (u&Hu&_). destruct (decide (a = b)) as [<-|Hab]; [exists w'; split; [apply lookup_insert_eq|done]|].
    exists u. split; [by rewrite lookup_insert_ne|done].
  - intros h b Hh'. rewrite V6 by done. split; intros (u&Hu&E).
    + destruct Hu as [Hu Hun]. destruct (decide (a = b)) as [<-|Hab]; [exists w'; split; [split; [apply lookup_insert_eq|done]|simpl; congruence]|].
      exists u. split; [split; [by rewrite lookup_insert_ne|done]|done].
    + apply Hold in Hu as (u'&Hu'&_&Eh&_). exists u'. split; [done|congruence].
  - by rewrite V8.
  - intros b c u x (u'&Hu'&Et&_)%Hold (x'&Hx'&Ex&_)%Hold E. apply (V7 b c u' x'); congruence.
  - pose proof (gmultiset_size_difference clients {[+ a +]}) as Hs. rewrite Hs by multiset_solver. lia.
Qed.
Lemma client_last base N N' s s' clients a w : ginv base N s clients None -> made_voucher (g_vouchers s) None a w -> iv_refs w = 1 -> N <= N' ->
  caches N' s' (rest (held_of (g_vouchers s'))) -> g_vouchers s' = delete a (g_vouchers s) ->
  ivht_bucket s' = aset (ivht_bucket s) (iv_hash w) (filter (fun b => b <> a) (anth (ivht_bucket s) (iv_hash w))) ->
  ginv (delete a base) N' s' (clients ∖ {[+ a +]}) None.
Proof.
  intros [Hc [V1 V2 V3 V4 V5 V6 V8 V7] Hn] Hmw Hr HN Hc' Ev Eb. pose proof Hmw as [Ha _]. destruct (V2 a w Hmw) as (Hcl&Hrw&Hck&Hh).
  assert (0 <= iv_hash w < IV_HASH_BUCKETS) as Hhash by (rewrite Hh; by apply Z.mod_pos_bound).
  assert (forall b, multiplicity b (clients ∖ {[+ a +]}) = if b =? a then 0%nat else multiplicity b clients) as Hmult.
  { intros b. rewrite multiplicity_difference, multiplicity_singleton. destruct (Z.eqb_spec b a) as [->|]; case_decide; try done; lia. }
  assert (forall b u, made_voucher (delete a (g_vouchers s)) None b u <-> b <> a /\ made_voucher (g_vouchers s) None b u) as Hmade.
  { intros b u. unfold made_voucher. rewrite lookup_delete_Some. naive_solver. }
  split; rewrite ?Ev, ?Eb; [by rewrite <- Ev|split; try done|].
  - intros b u [_ Hb]%lookup_delete_Some. by apply V1.
  - intros b u [Hne Hb]%Hmade. destruct (V2 b u Hb) as (?&?&?&?). rewrite elem_of_multiplicity, !Hmult, (proj2 (Z.eqb_neq _ _) Hne). by rewrite <- elem_of_multiplicity.
  - intros b Hb. rewrite elem_of_multiplicity, Hmult in Hb. destruct (Z.eqb_spec b a) as [|Hne]; [lia|]. rewrite <- elem_of_multiplicity in Hb.
    destruct (V3 b Hb) as [u Hu]. exists u. by apply Hmade.
  - by rewrite alen_aset.
  - intros h b Hh'. rewrite anth_aset by lia. setoid_rewrite Hmade.
    assert (b ∈ (if iv_hash w =? h then filter (fun b => b <> a) (anth (ivht_bucket s) (iv_hash w)) else anth (ivht_bucket s) h) <->
      b <> a /\ b ∈ anth (ivht_bucket s) h) as ->.
    { destruct (Z.eqb_spec (iv_hash w) h) as [->|Hne]; [by rewrite list_elem_of_filter|]. split; [|by intros [_ ?]]. intros Hb. split; [|done]. intros ->.
      apply V6 in Hb as (u&[Hu _]&Eh); [|done]. congruence. }
    rewrite V6 by done. naive_solver.
  - by rewrite V8.
  - intros b c u x [_ Hb]%Hmade [_ Hc2]%Hmade. by apply V7.
  - pose proof (gmultiset_size_difference clients {[+ a +]}) as Hs. rewrite Hs by multiset_solver. lia.
Qed.
Lemma voucher_release_ok base N s clients a : ginv base N s clients None -> 0 <= N < VLIMIT - 24 -> a ∈ clients ->
  wp (ipc_voucher_release a) (fun _ s' => exists base', same_tables base' base /\ ginv base' (N + 24) s' (clients ∖ {[+ a +]}) None) s.
Proof.
  intros Hg HN Ha. pose proof (gi_vouchers _ _ _ _ _ Hg) as Hv. pose proof (gi_clients _ _ _ _ _ Hg) as Hn. destruct (vk_client _ _ _ _ _ Hv a Ha) as (w&Hw).
  destruct (vk_voucher _ _ _ _ _ Hv a w (proj1 Hw)) as (Ha0&Hl&Hp&Hz). destruct (vk_made _ _ _ _ _ Hv a w Hw) as (_&Hr&_&Hh).
  pose proof (vk_base _ _ _ _ _ Hv) as Hbase. simpl in Hbase. pose proof (multiplicity_size a clients). rewrite elem_of_multiplicity in Ha.
  unfold ipc_voucher_release. rewrite (proj2 (Z.eqb_neq a IPC_VOUCHER_NULL) Ha0). apply wp_bind, (wp_get_voucher _ _ w); [apply Hw|]. apply wp_bind.
  unfold VLIMIT in HN. eapply wp_lift; [apply voucher_release_count; lia|]. apply wp_bind, wp_modify. set (w' := set_iv_refs _ w). apply wp_when; intros E.
  2: { apply Z.eqb_neq in E. eexists. split; [|apply (ginv_at_mono _ N); [by apply client_less; [..|lia]|lia]]. intros b u [[<- <-]|[_ Hb]]%lookup_insert_Some; [|by exists u].
       exists w. rewrite <- Hbase. split; [apply Hw|done]. }
  apply Z.eqb_eq in E. assert (0 <= iv_hash w < IV_HASH_BUCKETS) as Hhash by (rewrite Hh; by apply Z.mod_pos_bound).
  apply wp_bind, (wp_get_voucher _ _ w'); [apply lookup_insert_eq|]. apply wp_bind, wp_bind, (wp_get_voucher _ _ w'); [apply lookup_insert_eq|].
  apply wp_bind, wp_massert; [by apply Z.eqb_eq|]. apply wp_bind, wp_massert; [apply Z.ltb_lt; apply Hhash|]. apply wp_bind, wp_gets, wp_bind. unfold id.
  eapply wp_lift; [apply aget_in; simpl; by rewrite (vk_buckets _ _ _ _ _ Hv)|]. apply wp_bind, wp_modify, wp_modify. eapply wp_mono.
  { apply (dealloc_tail N _ a w' w'); simpl; try done; [|apply lookup_insert_eq].
    apply (caches_ext N _ (rest (held_of (g_vouchers s)))); [destruct (gi_caches _ _ _ _ _ Hg) as [Hc1 Hc2 Hc3]; by split|].
    intros k _. unfold rest. f_equal. rewrite insert_insert_eq. apply (held_of_same _ _ w); [apply Hw|done]. }
  intros [] s' (Hc'&Ev&Eb). simpl in Ev, Eb. rewrite delete_insert_eq in Ev. exists (delete a base). split.
  - intros b u [_ Hb]%lookup_delete_Some. by exists u.
  - apply (client_last base N _ s s' clients a w); try done; lia.
Qed.
End making.
