(* ===== verification/VoucherSystem.v ===== *)
(** * Vouchers from start-up on

    Managers are registered, then vouchers are made, referred to and released in any order: what
    holds in every state that is reached. *)

From stdpp Require Import gmultiset.
From S2P Require Import Prelude MachPort KmsgQueue KmsgSpec Prng OsRefcnt IpcTable IpcHash IpcState IpcSpace IpcEntry IpcPort PortSpec IpcMqueue Samples IpcRequest RequestProps IpcPortLife MqueueProps IpcKobject KobjectProps IpcRight RightDrop RightCopy IpcObject VoucherCache VoucherManager IpcVoucher IpcVoucherCalls VoucherSpec VoucherProps VoucherLayer VoucherCallProps.

(** ** The system *)

(** Before any manager is registered. *)
Definition boot_vouchers {MS} (k : kst) (ms : MS) : vst MS :=
  mk_vst k ms ∅ (replicate (Z.to_nat KEYS) (mk_ivgte IVAM_NULL IVAC_NULL MACH_VOUCHER_ATTR_KEY_NONE)) ∅ (replicate (Z.to_nat IV_HASH_BUCKETS) []) 0.

Inductive voucher_call := CallCreate (a : Z) (recipes : list Z) | CallReference (a : Z) | CallRelease (a : Z).
(** The state and the references the callers have. *)
Record voucher_system {MS : Type} := mk_system { y_state : vst MS; y_clients : gmultiset Z }.
Arguments voucher_system : clear implicits.
Arguments mk_system {MS}.

Section system.
Context `{KernelConfig} `{TableSizes} `{Concurrency} `{Externals} `{RequestSizes} `{KobjectOps} `{Messages} {MS : Type} {mgr : AttrManager MS} `{!Managers mgr}.
Implicit Types (s : vst MS) (y : voucher_system MS) (k n : Z).

(** Registration of the managers of the keys, each with the address of its control. *)
Fixpoint register_all (l : list (Z * Z)) : M (vst MS) unit :=
  match l with
  | [] => ret tt
  | (a, k) :: l => ipc_register_well_known_mach_voucher_attr_manager a (manager_of k) (default_of k) (k + 1) ;;* register_all l
  end.
Definition voucher_start y : Prop :=
  exists kernel ms l, (forall k, registered k = true -> mg_ok k ms /\ forall v, mg_handed k ms v = 0) /\
    NoDup l.*1 /\ NoDup l.*2 /\ (IVAC_NULL ∉ l.*1) /\ (forall k, (k ∈ l.*2) <-> (registered k = true)) /\
    register_all l (boot_vouchers kernel ms) = Done (tt, y_state y) /\ y_clients y = ∅.
Definition voucher_perform (c : voucher_call) y : outcome (kern_return_t * voucher_system MS) :=
  let (s, clients) := y in
  match c with
  | CallCreate a recipes => vthen (ipc_create_mach_voucher a recipes s) (fun '(kr, r) s => Done (kr, mk_system s (clients ⊎ client_of r)))
  | CallReference a => vthen (ipc_voucher_reference a s) (fun _ s => Done (KERN_SUCCESS, mk_system s (clients ⊎ {[+ a +]})))
  | CallRelease a => vthen (ipc_voucher_release a s) (fun _ s => Done (KERN_SUCCESS, mk_system s (clients ∖ {[+ a +]})))
  end.
(** A recipe is any sequence of bytes that names vouchers the caller refers to. *)
Definition voucher_enabled (c : voucher_call) y : Prop :=
  match c with
  | CallCreate a recipes => g_vouchers (y_state y) !! a = None /\ a <> IV_NULL /\ bytes_ok recipes /\
      forall p, p ∈ recipe_vouchers (S (length recipes)) recipes 0 -> p = IV_NULL \/ p ∈ y_clients y
  | CallReference a | CallRelease a => a ∈ y_clients y
  end.
(** What a call may add to the counts. *)
Definition voucher_cost (c : voucher_call) : Z :=
  match c with CallCreate _ recipes => creation_limit recipes | CallReference _ => 1 | CallRelease _ => 24 end.
Inductive voucher_reach : Z -> voucher_system MS -> Prop :=
| voucher_reach_start y : voucher_start y -> voucher_reach 0 y
| voucher_reach_next n y c kr y' : voucher_reach n y -> voucher_enabled c y -> n + voucher_cost c < VLIMIT ->
    voucher_perform c y = Done (kr, y') -> voucher_reach (n + voucher_cost c) y'.

(** ** Start-up *)
Record booted (ms : MS) (l : list (Z * Z)) s : Prop := {
  bo_len : alen (g_table s) = KEYS;
  bo_none k : 0 <= k < KEYS -> k ∉ l.*2 -> anth (g_table s) k = mk_ivgte IVAM_NULL IVAC_NULL MACH_VOUCHER_ATTR_KEY_NONE;
  bo_key a k : (a, k) ∈ l -> anth (g_table s) k = mk_ivgte (manager_of k) a (k + 1) /\ exists c, g_controls s !! a = Some c /\ ivac_key_index c = k /\
    key_inv k 0 c ms (at_rest ∅);
  bo_mgr : g_mgr s = ms;
  bo_vouchers : g_vouchers s = ∅;
  bo_bucket : ivht_bucket s = replicate (Z.to_nat IV_HASH_BUCKETS) [];
}.
Lemma well_known_index k : 0 <= k < KEYS -> iv_key_to_index (k + 1) = k.
Proof.
  intros Hr. unfold iv_key_to_index, MACH_VOUCHER_ATTR_KEY_ALL, u32. unfold KEYS, MACH_VOUCHER_ATTR_KEY_NUM_WELL_KNOWN, MACH_VOUCHER_ATTR_KEY_TEST in *.
  rewrite (proj2 (Z.eqb_neq _ _)) by lia. rewrite (proj2 (Z.ltb_ge _ _)) by lia. simpl. rewrite Z.mod_small; lia.
Qed.
Lemma register_ok ms l s a k : booted ms l s -> registered k = true -> mg_ok k ms -> (forall v, mg_handed k ms v = 0) -> a ∉ l.*1 -> k ∉ l.*2 -> a <> IVAC_NULL ->
  wp (ipc_register_well_known_mach_voucher_attr_manager a (manager_of k) (default_of k) (k + 1)) (fun r s' => r = (KERN_SUCCESS, a) /\ booted ms ((a, k) :: l) s') s.
Proof.
  intros [B1 B2 B3 B4 B5 B6] Hk Hok Hha Ha Hkl Ha0. destruct (mg_range k Hk) as [Hr Hm0].
  pose proof (well_known_index k Hr) as Ek.
  pose proof (registered_ok k (default_of k)) as (u&c&E&_&_&_&_&Hidx)%wp_elim. destruct u.
  pose proof E as ([]&c1&E1&E2)%bind_Done.
  unfold ipc_register_well_known_mach_voucher_attr_manager. rewrite (proj2 (Z.eqb_neq _ _) Hm0), Ek.
  rewrite (proj2 (Z.eqb_neq k IV_UNUSED_KEYINDEX)) by (unfold IV_UNUSED_KEYINDEX; unfold KEYS, MACH_VOUCHER_ATTR_KEY_NUM_WELL_KNOWN, MACH_VOUCHER_ATTR_KEY_TEST in Hr; lia).
  apply wp_bind, wp_modify, wp_bind. eapply wp_in_control; [apply lookup_insert_eq|exact E1|]. apply wp_bind, wp_bind, wp_gets. unfold id. simpl.
  eapply wp_lift; [apply aget_in; by rewrite B1|]. rewrite (B2 k) by done. simpl. apply wp_bind, wp_modify, wp_bind.
  eapply wp_in_control; [apply lookup_insert_eq|exact E2|]. apply wp_ret. split; [done|]. simpl. rewrite !insert_insert_eq.
  assert (key_inv k 0 c ms (at_rest ∅)) as Hki.
  { exists Hk. apply (vstart_inv mgr _ _ _ (laws_of k Hk) k ms); [done|done|]. by split. }
  split; simpl; try done.
  - by rewrite alen_aset.
  - intros j Hj [Hne Hnl]%not_elem_of_cons. rewrite anth_aset_ne by lia. by apply B2.
  - intros b j [[= -> ->]|Hb]%elem_of_cons; [rewrite anth_aset_eq by lia; split; [done|]; exists c; by rewrite lookup_insert_eq|].
    assert (j <> k) as Hjk by (intros ->; apply Hkl; apply list_elem_of_fmap; by exists (b, k)).
    assert (b <> a) as Hba by (intros ->; apply Ha; apply list_elem_of_fmap; by exists (a, j)).
    destruct (B3 b j Hb) as (Ht&cj&?&?&Hkj). destruct Hkj as (Hj&m&Hinv). destruct (mg_range j Hj). rewrite anth_aset_ne by lia. split; [done|].
    exists cj. rewrite lookup_insert_ne by done. split_and!; try done. by exists Hj, m.
Qed.
Lemma register_all_ok ms l : forall l0 s, booted ms l0 s -> (forall k, k ∈ l.*2 -> registered k = true /\ mg_ok k ms /\ forall v, mg_handed k ms v = 0) ->
  NoDup (l.*1 ++ l0.*1) -> NoDup (l.*2 ++ l0.*2) -> IVAC_NULL ∉ l.*1 -> wp (register_all l) (fun _ s' => booted ms (rev_append l l0) s') s.
Proof.
  induction l as [|[a k] l IH]; intros l0 s Hb Hk Hn1 Hn2 Hz; [by apply wp_ret|]. simpl in *. apply NoDup_cons in Hn1 as [Hn1 Hn1'], Hn2 as [Hn2 Hn2'].
  rewrite not_elem_of_app in Hn1, Hn2. apply not_elem_of_cons in Hz as [Hz1 Hz2]. destruct (Hk k) as (?&?&?); [left|].
  apply wp_bind. eapply wp_mono; [apply (register_ok ms l0); try done; naive_solver|]. intros r s1 [_ Hb1]. apply IH; [done| | | |done].
  - intros j Hj. apply Hk. by right.
  - simpl. rewrite <- Permutation_middle. constructor; [|done]. by rewrite not_elem_of_app.
  - simpl. rewrite <- Permutation_middle. constructor; [|done]. by rewrite not_elem_of_app.
Qed.
Lemma start_inv y : voucher_start y -> ginv ∅ 0 (y_state y) (y_clients y) None.
Proof.
  intros (kernel&ms&l&Hms&Hn1&Hn2&Hz&Hl&Hrun&Hcl). set (s0 := boot_vouchers kernel ms) in Hrun.
  assert (booted ms [] s0) as Hb0.
  { split; try done. - intros k Hk _. by apply anth_replicate. - by intros a k ?%elem_of_nil. }
  pose proof (register_all_ok ms l [] s0 Hb0) as Hw. rewrite !app_nil_r in Hw.
  destruct (wp_elim _ _ _ (Hw ltac:(intros k Hk; apply Hl in Hk as Hr; destruct (Hms k Hr); auto) Hn1 Hn2 Hz)) as (u&s&E&[B1 B2 B3 B4 B5 B6]).
  rewrite Hrun in E. injection E as <- Es. rewrite Es. rewrite rev_append_rev, app_nil_r in *.
  assert (forall k, k ∈ (rev l).*2 <-> registered k = true) as Hl' by (intros k; rewrite <- Hl; by rewrite <- Permutation_rev).
  split; rewrite ?B5, ?B6, ?Hcl; [|split; try done|done].
  - split; [done| |].
    + intros k Hk Hr. apply B2; [done|]. intros Hin%Hl'. congruence.
    + intros k Hk. apply Hl' in Hk as Hin. apply list_elem_of_fmap in Hin as ([a k']&Ek&Hin). simpl in Ek. subst k'.
      destruct (B3 a k Hin) as (Ht&c&Hc&Hidx&Hki). exists a, c. rewrite B4. split_and!; try done. intros ->. apply Hz. rewrite <- (Permutation_rev l) in Hin.
      apply list_elem_of_fmap. by exists (IVAC_NULL, k).
  - intros a v [? _]. done.
  - multiset_solver.
  - intros h a Hh. rewrite anth_replicate by done. split; [by intros ?%elem_of_nil|]. by intros (v&[? _]&_).
  - intros a b v w [? _]. done.
Qed.

(** ** Each call *)
Lemma call_ok base n y c : ginv base n (y_state y) (y_clients y) None -> 0 <= n -> voucher_enabled c y -> n + voucher_cost c < VLIMIT ->
  exists kr y' base', voucher_perform c y = Done (kr, y') /\ ginv base' (n + voucher_cost c) (y_state y') (y_clients y') None /\
    (same_tables base base' \/ same_tables base' base) /\ (kr <> KERN_SUCCESS -> base' = base).
Proof.
  destruct y as [s clients]. intros Hg Hn Hen Hcost. destruct c as [a recipes|a|a]; simpl in *.
  - destruct Hen as (Ha&Ha0&Hb&Hp). destruct (wp_elim _ _ _ (create_ok base n s clients a recipes Hg Ha Ha0 Hb Hp Hn Hcost)) as ([kr r]&s'&->&base'&Hs&Hg'&Hf).
    simpl. eexists _, _, base'. split; [done|]. split; [done|]. split; [by left|]. intros Hkr. by apply Hf.
  - destruct (wp_elim _ _ _ (voucher_reference_ok base n s clients a Hg ltac:(lia) Hen)) as (u&s'&->&base'&Hs&Hg'). simpl.
    eexists _, _, base'. split; [done|]. split; [done|]. split; [by left|done].
  - destruct (wp_elim _ _ _ (voucher_release_ok base n s clients a Hg ltac:(lia) Hen)) as (u&s'&->&base'&Hs&Hg'). simpl.
    eexists _, _, base'. split; [done|]. split; [done|]. split; [by right|done].
Qed.
Lemma reach_ginv n y : voucher_reach n y -> 0 <= n /\ exists base, ginv base n (y_state y) (y_clients y) None.
Proof.
  induction 1 as [y Hy|n y c kr y' _ [Hn [base Hg]] Hen Hc Hr]; [split; [lia|]; eexists; by apply start_inv|].
  destruct (call_ok base n y c Hg Hn Hen Hc) as (kr2&y2&base'&E&Hg'&_). rewrite Hr in E. injection E as _ <-. split; [|by exists base'].
  pose proof (gi_clients _ _ _ _ _ Hg'). lia.
Qed.
Lemma held_of_count (vs : gmap Z ipc_voucher) k i : i <> IV_UNUSED_VALINDEX ->
  multiplicity i (held_of vs k) = size (filter (fun p => iv_lookup p.2 k = i) vs).
Proof.
  intros Hi. induction vs as [|a v vs Ha IH] using map_ind; [by rewrite held_of_empty, map_filter_empty, map_size_empty, multiplicity_empty|].
  rewrite held_of_insert, multiplicity_disj_union, IH by done. unfold held_at. destruct (Z.eqb_spec (iv_lookup v k) IV_UNUSED_VALINDEX) as [E|E].
  - rewrite multiplicity_empty, map_filter_insert_False by (simpl; congruence). by rewrite delete_id.
  - rewrite multiplicity_singleton. case_decide as Ed.
    + rewrite map_filter_insert_True by done. rewrite map_size_insert_None; [done|]. apply map_lookup_filter_None. by left.
    + rewrite map_filter_insert_False by (simpl; congruence). by rewrite delete_id.
Qed.

Lemma not_all_empty v sum : iv_checksum (iv_table v) = (sum, false) -> exists k, iv_lookup v k <> IV_UNUSED_VALINDEX.
Proof.
  unfold iv_checksum. intros [= _ Hf]. apply not_true_iff_false in Hf. rewrite forallb_forall in Hf.
  destruct (decide (Exists (fun i => 0 < i) (iv_table v))) as [(i&Hin&Hi)%Exists_exists|Hno].
  - apply list_elem_of_lookup in Hin as [k Hk]. exists (Z.of_nat k). unfold iv_lookup, iv_table_size, IV_UNUSED_VALINDEX.
    apply lookup_lt_Some in Hk as Hlt. rewrite (proj2 (Z.ltb_lt _ _)) by (unfold alen; lia). unfold anth. rewrite Nat2Z.id.
    rewrite (list_lookup_total_correct _ _ _ Hk). lia.
  - destruct Hf. intros i Hin%list_elem_of_In. rewrite negb_true_iff, Z.ltb_ge. destruct (Z.le_gt_cases i 0); [done|].
    destruct Hno. apply Exists_exists. exists i. split; [done|lia].
Qed.


(** A control that was registered in vain. *)
Lemma unused_control k default_value : exists c, ivac_set_default default_value (ivac_fresh k) = Done (tt, c) /\
  exists c', ivac_unref c = Done (0, c') /\ ivac_refs c' = 0 /\ ivac_key_index c' = k /\ ivac_port c' = IP_NULL /\
    existsb (fun e => negb (ivace_refs e =? 0)) (ivac_table c') = true.
Proof. destruct H as [[]]; eexists; (split; [vm_compute; reflexivity|]); eexists; (split; [vm_compute; reflexivity|]); done. Qed.
Lemma focus_run {A} a c (op : M ivac A) x c' s : g_controls s !! a = Some c -> op c = Done (x, c') ->
  in_control a op s = Done (x, set_g_controls (<[a := c']> (g_controls s)) s).
Proof. unfold in_control, focus. by intros -> ->. Qed.

(** C40. A second manager for a key is not refused but a panic: the control made for it is released,
    and the check of [ivac_dealloc] finds the count of the default value in its entry 0. *)
Theorem register_twice_panics s a manager default_value k e : manager <> IVAM_NULL -> 0 <= k < KEYS ->
  aget (g_table s) k = Done e -> ivgte_manager e <> IVAM_NULL -> ivgte_control e <> a -> a <> IVAC_NULL ->
  ipc_register_well_known_mach_voucher_attr_manager a manager default_value (k + 1) s =
  Panic "deallocing a resource manager with live refs to its attr values".
Proof.
  intros Hm Hk He Hem Hea Ha. destruct (unused_control k default_value) as (c&Ec&c'&Ec'&Hrefs&Hidx&Hport&Hlive).
  unfold ipc_register_well_known_mach_voucher_attr_manager. rewrite (proj2 (Z.eqb_neq _ _) Hm), well_known_index by done.
  rewrite (proj2 (Z.eqb_neq k IV_UNUSED_KEYINDEX)) by (unfold IV_UNUSED_KEYINDEX; unfold KEYS, MACH_VOUCHER_ATTR_KEY_NUM_WELL_KNOWN, MACH_VOUCHER_ATTR_KEY_TEST in Hk; lia).
  unfold bind at 1, modify at 1. unfold bind at 1. erewrite (focus_run a); [|apply lookup_insert_eq|exact Ec].
  unfold bind at 1, global_entry at 1. unfold bind at 1, gets at 1, id, lift at 1. cbn [g_table set_g_controls]. rewrite He, (proj2 (Z.eqb_neq _ _) Hem).
  cbn [negb]. unfold bind at 1, ivac_release. rewrite (proj2 (Z.eqb_neq _ _) Ha). unfold bind at 1. erewrite (focus_run a); [|apply lookup_insert_eq|exact Ec'].
  cbn [Z.eqb when]. unfold ivac_dealloc. unfold bind at 1. rewrite (focus_run a c' (gets id) c' c') by (apply lookup_insert_eq || done). rewrite Hrefs, Hidx. cbn [Z.ltb Z.compare].
  unfold bind at 1, global_entry. unfold bind at 1, gets at 1, id, lift at 1. cbn [g_table set_g_controls]. rewrite He, (proj2 (Z.eqb_neq _ _) Hea).
  unfold bind, ret. cbn [Z.eqb negb when]. unfold discard_port. rewrite Hport. unfold when. cbn. by rewrite Hlive.
Qed.

(** What a voucher's table says of the entry of a value. *)
Lemma entry_refs k (Hk : registered k = true) N m c ms held i : vinv mgr (manager_of k) (k + 1) (default_of k) (laws_of k Hk) N m (config_of c ms (at_rest held)) ->
  i ∈ held -> let e := anth (ivac_table c) i in mg_persistent k (ivace_value e) = false -> ivace_refs e = Z.of_nat (multiplicity i held).
Proof.
  intros Hinv Hi e Hp. subst e. pose proof (vi_rep _ _ _ _ _ _ _ _ Hinv) as [_ Hm]. pose proof (vi_core _ _ _ _ _ _ _ _ Hinv) as Hcore. simpl in *.
  destruct (vc_held _ _ _ _ _ _ _ _ _ _ _ Hcore i Hi) as [Hi0 [sl Hs]]. pose proof (vc_slot _ _ _ _ _ _ _ _ _ _ _ Hcore i sl Hs Hi0) as Hslot.
  apply Hm in Hs as [Hu ->]. simpl in *. destruct (ivace_persist _); [destruct (sp_value _ _ _ _ _ _ _ _ Hslot); simpl in *; congruence|].
  by destruct Hslot.
Qed.

End system.

(** ** User data under its own key *)
Section user_data.
Context `{KernelConfig} `{UserDataMemory}.
Lemma user_data_no_voucher manager key s command prev content r s' :
  user_data_get_value manager key command prev content s = Done (r, s') -> gv_voucher r = IV_NULL.
Proof.
  intros (?&?&_&Hr)%bind_Done. case_match.
  - destruct prev as [|a prev]; [by injection Hr as <-|]. apply bind_Done in Hr as (?&?&_&Hr). apply bind_Done in Hr as (?&?&_&Hr).
    by apply bind_Done in Hr as (?&?&_&[= <- _]).
  - repeat (case_match; [by injection Hr as <-|]); case_match; [|by injection Hr as <-].
    repeat (case_match; [by injection Hr as <-|]). by apply bind_Done in Hr as (?&?&_&[= <- _]).
Qed.
Definition only_user_data (k : Z) : bool := k =? MACH_VOUCHER_ATTR_KEY_USER_DATA - 1.
Hypothesis Hmanager : user_data_manager <> IVAM_NULL.
Definition user_data_managers : Managers user_data_ops.
Proof.
  refine {| registered := only_user_data; manager_of _ := user_data_manager; default_of _ := 0;
            mg_ok _ := user_data_wf; mg_handed _ := user_data_handed; mg_persistent _ v := v =? 0 |}; unfold only_user_data.
  - intros k ->%Z.eqb_eq. done.
  - done.
  - intros k ms command prev content ->%Z.eqb_eq. apply (ml_get (ManagerLaws := user_data_laws)).
  - intros k ms v made ->%Z.eqb_eq. apply (ml_release (ManagerLaws := user_data_laws)).
  - intros k j ? ? ? ? ? ? ->%Z.eqb_eq ->%Z.eqb_eq. done.
  - intros k j ? ? ? ? ? ->%Z.eqb_eq ->%Z.eqb_eq. done.
  - intros k ms command prev content r ms' _. apply user_data_no_voucher.
Defined.
End user_data.

(** ** Concrete states *)
Section instances.
#[local] Existing Instances DEVELOPMENT SMALL_4K quiet plain_externals SMALL_REQUESTS no_ops plain_messages.
#[local] Instance user_data_memory : UserDataMemory := {| user_data_manager := 0x1000; element_alloc := next_address; element_alloc_fresh := next_address_fresh |}.
Lemma manager_address : user_data_manager <> IVAM_NULL.
Proof. done. Qed.
#[local] Instance one_manager : Managers user_data_ops := user_data_managers manager_address.

Definition before_vouchers : vst user_data := boot_vouchers (one_port fresh_port) user_data_start.
Definition system_of {A} (x : outcome (A * vst user_data)) : voucher_system user_data :=
  mk_system (match x with Done (_, s) => s | _ => before_vouchers end) ∅.
(** The control of the key is at 0x2000. *)
Definition vouchers_begin : voucher_system user_data := Eval vm_compute in system_of (register_all [(0x2000, 6)] before_vouchers).
Lemma begin_start : voucher_start vouchers_begin.
Proof.
  exists (one_port fresh_port), user_data_start, [(0x2000, 6)]. split_and!; try done.
  - intros k _. split; [apply start_wf|done].
  - by apply NoDup_singleton.
  - by apply NoDup_singleton.
  - by intros ?%list_elem_of_singleton.
  - intros k. simpl. rewrite list_elem_of_singleton. unfold only_user_data, MACH_VOUCHER_ATTR_KEY_USER_DATA. by rewrite Z.eqb_eq.
Qed.
Definition run_call (c : voucher_call) (y : voucher_system user_data) : voucher_system user_data :=
  match voucher_perform c y with Done (_, y') => y' | _ => y end.
(** A voucher at 0x3000 with three bytes of user data; then one made of a copy of it is the same voucher. *)
Definition store_recipe : list Z := recipe_bytes false (mk_recipe MACH_VOUCHER_ATTR_KEY_USER_DATA MACH_VOUCHER_ATTR_USER_DATA_STORE IV_NULL 3) ++ [1; 2; 3].
Definition copy_recipe : list Z := recipe_bytes false (mk_recipe MACH_VOUCHER_ATTR_KEY_ALL MACH_VOUCHER_ATTR_COPY 0x3000 0).
Definition vouchers_stored : voucher_system user_data := Eval vm_compute in run_call (CallCreate 0x3000 store_recipe) vouchers_begin.
Definition vouchers_copied : voucher_system user_data := Eval vm_compute in run_call (CallCreate 0x3100 copy_recipe) vouchers_stored.
Lemma copied_reach : exists n, voucher_reach n vouchers_copied /\ n < 1000.
Proof.
  eexists. split.
  - apply (voucher_reach_next (voucher_cost (CallCreate 0x3000 store_recipe)) vouchers_stored (CallCreate 0x3100 copy_recipe) KERN_SUCCESS).
    + apply (voucher_reach_next 0 vouchers_begin (CallCreate 0x3000 store_recipe) KERN_SUCCESS).
      * apply voucher_reach_start, begin_start.
      * split; [vm_compute; reflexivity|]. split; [done|]. split; [by repeat constructor|]. intros p [->|[]%elem_of_nil]%elem_of_cons. by left.
      * reflexivity.
      * vm_compute. reflexivity.
    + split; [vm_compute; reflexivity|]. split; [done|]. split; [by repeat constructor|]. intros p [->|[]%elem_of_nil]%elem_of_cons. right.
      apply elem_of_multiplicity. vm_compute. lia.
    + reflexivity.
    + vm_compute. reflexivity.
  - reflexivity.
Qed.
Definition stored_voucher : ipc_voucher := Eval vm_compute in default (mk_voucher 0 0 0 [] 0) (g_vouchers (y_state vouchers_copied) !! 0x3000).



Lemma register_twice_panics_witness :
  ipc_register_well_known_mach_voucher_attr_manager 0x2100 0x1000 0 MACH_VOUCHER_ATTR_KEY_USER_DATA (y_state vouchers_begin) =
  Panic "deallocing a resource manager with live refs to its attr values".
Proof.
  apply (register_twice_panics (y_state vouchers_begin) 0x2100 0x1000 0 6 (mk_ivgte 0x1000 0x2000 MACH_VOUCHER_ATTR_KEY_USER_DATA));
    [discriminate|done|vm_compute; reflexivity|discriminate|discriminate|discriminate].
Defined.
End instances.
