(* ===== verification/VoucherMessage.v ===== *)
(** * Vouchers of messages, and user data under two keys ([osfmk/ipc/ipc_voucher.c])

    Before a message is sent and after it is received its voucher is replaced by one that the
    managers have processed; the recipe made for this is always one that can be run.  And a
    corner of the manager of user data, which serves two keys with one count. *)

From stdpp Require Import gmultiset.
From S2P Require Import Prelude MachPort KmsgQueue KmsgSpec Prng OsRefcnt IpcTable IpcHash IpcState IpcSpace IpcEntry IpcPort PortSpec IpcMqueue Samples IpcRequest RequestProps IpcPortLife MqueueProps IpcKobject KobjectProps IpcRight RightDrop RightCopy IpcObject VoucherCache VoucherManager IpcVoucher IpcVoucherCalls VoucherSpec VoucherProps VoucherLayer VoucherCallProps VoucherSystem.

Definition MACH_VOUCHER_ATTR_AUTO_REDEEM : Z := 4.
Definition MACH_VOUCHER_ATTR_SEND_PREPROCESS : Z := 5.
Definition IVAM_FLAGS_SUPPORT_SEND_PREPROCESS : Z := 1.
Definition IVAM_FLAGS_SUPPORT_RECEIVE_POSTPROCESS : Z := 2.
Definition MACH_RCV_VOUCHER : Z := 0x800.

(** What these calls use of a message: [ikm_voucher_port], [ikm_voucher_type] and the bits of its header. *)
Record kmsg_voucher := mk_kmsg_voucher { ikm_voucher_port : Z; ikm_voucher_type : Z; kmsg_bits : Z }.
(** The size of the arrays of recipes on the stack. *)
Definition processing_size : Z := (MACH_VOUCHER_ATTR_KEY_NUM_WELL_KNOWN + 1) * recipe_struct_size false.

Section operations.
Context `{KernelConfig} `{TableSizes} `{Concurrency} `{Externals} `{RequestSizes} `{KobjectOps} `{Messages} {MS : Type} `{AttrManager MS}.

Definition ipc_kmsg_set_voucher_port (kmsg : kmsg_voucher) (voucher_port type : Z) : M (vst MS) kmsg_voucher :=
  when (IP_VALID voucher_port)
    (let* p := in_kst (get_port voucher_port) in massert (ip_kotype p =? IKOT_VOUCHER) "ip_kotype(voucher_port) == IKOT_VOUCHER") ;;*
  ret (mk_kmsg_voucher voucher_port type (kmsg_bits kmsg)).
(** [is_kernel]: the current task is the kernel's; [a], [port] and [current] as for
    [ipc_create_mach_voucher] and [convert_voucher_to_port]. *)
Definition ipc_voucher_send_preprocessing (a port current : Z) (is_kernel : bool) (kmsg : kmsg_voucher) : M (vst MS) kmsg_voucher :=
  let voucher_port := ikm_voucher_port kmsg in
  if negb (IP_VALID voucher_port) || is_kernel then ret kmsg
  else
    let* pre_processed_voucher := ip_get_voucher voucher_port in
    let* (kr, recipes, need_preprocessing) := ipc_voucher_prepare_processing_recipe pre_processed_voucher processing_size
      MACH_VOUCHER_ATTR_SEND_PREPROCESS IVAM_FLAGS_SUPPORT_SEND_PREPROCESS in
    massert (bool_decide (kr = KERN_SUCCESS)) "KERN_SUCCESS == kr" ;;*
    if need_preprocessing : bool then
      let* (kr, voucher_to_send) := ipc_create_mach_voucher a recipes in
      massert (bool_decide (kr = KERN_SUCCESS)) "KERN_SUCCESS == kr" ;;*
      in_kst (ipc_port_release_send voucher_port) ;;*
      let* voucher_port := convert_voucher_to_port voucher_to_send port current in
      ipc_kmsg_set_voucher_port kmsg voucher_port (ikm_voucher_type kmsg)
    else ret kmsg.
Definition ipc_voucher_receive_postprocessing (a port current : Z) (is_kernel : bool) (kmsg : kmsg_voucher) (option : Z) : M (vst MS) kmsg_voucher :=
  let voucher_port := ikm_voucher_port kmsg in
  if (Z.land option MACH_RCV_VOUCHER =? 0) || negb (IP_VALID voucher_port) || is_kernel then ret kmsg
  else
    let* sent_voucher := ip_get_voucher voucher_port in
    let* (kr, recipes, need_postprocessing) := ipc_voucher_prepare_processing_recipe sent_voucher processing_size
      MACH_VOUCHER_ATTR_AUTO_REDEEM IVAM_FLAGS_SUPPORT_RECEIVE_POSTPROCESS in
    massert (bool_decide (kr = KERN_SUCCESS)) "KERN_SUCCESS == kr" ;;*
    if need_postprocessing : bool then
      let* (kr, recv_voucher) := ipc_create_mach_voucher a recipes in
      massert (bool_decide (kr = KERN_SUCCESS)) "KERN_SUCCESS == kr" ;;*
      let kmsg := mk_kmsg_voucher voucher_port (ikm_voucher_type kmsg) (Z.lor (kmsg_bits kmsg) (Z.shiftl MACH_MSG_TYPE_MOVE_SEND 16)) in
      in_kst (ipc_port_release_send voucher_port) ;;*
      let* voucher_port := convert_voucher_to_port recv_voucher port current in
      ipc_kmsg_set_voucher_port kmsg voucher_port MACH_MSG_TYPE_MOVE_SEND
    else ret kmsg.
(** Of a kernel for development. *)
Definition mach_voucher_debug_info (space voucher_name : Z) (recipes : list Z) : M (vst MS) (kern_return_t * list Z * Z) :=
  let size := alen recipes in
  if space =? IS_NULL then ret (KERN_INVALID_TASK, recipes, size)
  else if negb (MACH_PORT_VALID voucher_name) then ret (KERN_INVALID_ARGUMENT, recipes, size)
  else
    let* (kr, port) := in_kst (ipc_port_translate_send voucher_name) in
    if bool_decide (kr <> KERN_SUCCESS) then ret (KERN_INVALID_ARGUMENT, recipes, size)
    else
      let* voucher := convert_port_to_voucher port in
      if negb (voucher =? IPC_VOUCHER_NULL) then
        let* r := mach_voucher_extract_all_attr_recipes voucher recipes in
        ipc_voucher_release voucher ;;*
        ret r
      else ret (KERN_FAILURE, recipes, size).
End operations.

(** The registrations at start-up; the controls are at [a] and [b]. *)
Definition user_data_attr_manager_init `{KernelConfig} `{TableSizes} `{Concurrency} `{Externals} `{RequestSizes} `{KobjectOps} `{Messages} `{UserDataMemory}
    (a b : Z) : M (vst user_data) unit :=
  ipc_register_well_known_mach_voucher_attr_manager a user_data_manager 0 MACH_VOUCHER_ATTR_KEY_USER_DATA ;;*
  ipc_register_well_known_mach_voucher_attr_manager b user_data_manager 0 MACH_VOUCHER_ATTR_KEY_TEST ;;*
  modify (fun s => set_g_mgr (mk_user_data (ud_elements (g_mgr s)) (replicate (Z.to_nat USER_DATA_HASH_BUCKETS) [])) s).

(** ** Recipes in memory and back *)
Lemma le_bytes_length n v : length (le_bytes n v) = n.
Proof. revert v. induction n as [|n IH]; intros v; [done|]. simpl. by rewrite IH. Qed.
Lemma le_bytes_ok n v : bytes_ok (le_bytes n v).
Proof. revert v. induction n as [|n IH]; intros v; constructor; [|apply IH]. pose proof (Z.mod_pos_bound v 256). lia. Qed.
Lemma le_value_bytes n v : 0 <= v < 256 ^ Z.of_nat n -> le_value (le_bytes n v) = v.
Proof.
  revert v. induction n as [|n IH]; intros v Hv; [simpl in Hv; simpl; lia|]. cbn [le_bytes le_value]. rewrite Nat2Z.inj_succ, Z.pow_succ_r in Hv by lia.
  rewrite IH; [pose proof (Z.div_mod v 256); lia|]. split; [apply Z.div_pos; lia|]. apply Z.div_lt_upper_bound; lia.
Qed.
Lemma field_at_bytes pre post n v offset w : offset = alen pre -> w = Z.of_nat n -> 0 <= v < 256 ^ w ->
  field_at (pre ++ le_bytes n v ++ post) offset w = Done v.
Proof.
  intros -> -> Hv. unfold field_at, bytes_at, alen. rewrite !length_app, le_bytes_length. rewrite (proj2 (Z.leb_le _ _)) by lia. simpl.
  rewrite !Nat2Z.id, drop_app_length, take_app_length' by (by rewrite le_bytes_length). by rewrite le_value_bytes.
Qed.

(** What fits in the fields of a recipe. *)
Definition recipe_fits (is_user : bool) (r : recipe) : Prop :=
  0 <= rc_key r < 2 ^ 32 /\ 0 <= rc_command r < 2 ^ 32 /\ 0 <= rc_previous_voucher r < 256 ^ previous_voucher_size is_user /\ 0 <= rc_content_size r < 2 ^ 32.
Lemma recipe_bytes_length is_user r : alen (recipe_bytes is_user r) = recipe_struct_size is_user.
Proof. unfold alen, recipe_bytes. rewrite !length_app, !le_bytes_length. by destruct is_user. Qed.
Lemma recipe_bytes_ok is_user r : bytes_ok (recipe_bytes is_user r).
Proof. repeat apply Forall_app_2; apply le_bytes_ok. Qed.
Lemma recipe_at_bytes is_user pre post r : recipe_fits is_user r -> recipe_at is_user (pre ++ recipe_bytes is_user r ++ post) (alen pre) = Done r.
Proof.
  intros (V1&V2&V3&V4). destruct r as [key command prev size]. unfold recipe_at, recipe_bytes. cbn [rc_key rc_command rc_previous_voucher rc_content_size] in *.
  set (w := previous_voucher_size is_user) in *. assert (w = Z.of_nat (Z.to_nat w)) as Ew by (destruct is_user; done). rewrite <- !app_assoc.
  rewrite (field_at_bytes pre _ 4) by done.
  rewrite (app_assoc pre (le_bytes 4 key)), (field_at_bytes (pre ++ le_bytes 4 key) _ 4) by (done || unfold alen; rewrite !length_app, !le_bytes_length; lia).
  rewrite (app_assoc _ (le_bytes 4 command)), (field_at_bytes ((pre ++ le_bytes 4 key) ++ _) _ (Z.to_nat w))
    by (done || unfold alen; rewrite !length_app, !le_bytes_length; lia).
  rewrite (app_assoc _ (le_bytes (Z.to_nat w) prev)), (field_at_bytes (((pre ++ le_bytes 4 key) ++ _) ++ _) _ 4)
    by (done || unfold alen; rewrite !length_app, !le_bytes_length; lia). done.
Qed.
Definition recipes_bytes (rs : list recipe) : list Z := mjoin (recipe_bytes false <$> rs).
Lemma recipes_bytes_ok rs : bytes_ok (recipes_bytes rs).
Proof. induction rs as [|r rs IH]; [by constructor|]. apply Forall_app_2; [apply recipe_bytes_ok|apply IH]. Qed.
Lemma recipes_bytes_cons r rs : recipes_bytes (r :: rs) = recipe_bytes false r ++ recipes_bytes rs.
Proof. done. Qed.
Lemma recipes_bytes_snoc rs r : recipes_bytes (rs ++ [r]) = recipes_bytes rs ++ recipe_bytes false r.
Proof.
  induction rs as [|r' rs IH]; [unfold recipes_bytes; apply app_nil_r|].
  rewrite <- app_comm_cons, !recipes_bytes_cons, IH. by rewrite app_assoc.
Qed.
Lemma recipes_bytes_length rs : alen (recipes_bytes rs) = recipe_struct_size false * Z.of_nat (length rs).
Proof.
  induction rs as [|r rs IH]; [done|]. pose proof (recipe_bytes_length false r) as E. rewrite recipes_bytes_cons. unfold alen in *. rewrite length_app, Nat2Z.inj_add, E, IH. cbn [length]. lia.
Qed.
Lemma recipe_vouchers_bytes rs : forall pre fuel p, Forall (fun r => recipe_fits false r /\ rc_content_size r = 0) rs ->
  p ∈ recipe_vouchers fuel (pre ++ recipes_bytes rs) (alen pre) -> exists r, r ∈ rs /\ rc_previous_voucher r = p.
Proof.
  induction rs as [|r rs IH]; intros pre fuel p Hrs Hp; (destruct fuel as [|fuel]; [by apply elem_of_nil in Hp|]); cbn [recipe_vouchers] in Hp.
  - unfold recipes_bytes in Hp. simpl in Hp. rewrite app_nil_r, Z.sub_diag in Hp. by apply elem_of_nil in Hp.
  - apply Forall_cons in Hrs as [[Hfit Hcs] Hrs].
    rewrite recipes_bytes_cons, recipe_at_bytes, Hcs in Hp by done.
    assert (alen (pre ++ recipe_bytes false r ++ recipes_bytes rs) - alen pre = recipe_struct_size false + alen (recipes_bytes rs)) as El.
    { rewrite <- (recipe_bytes_length false r). unfold alen. rewrite !length_app. lia. }
    assert (0 <= alen (recipes_bytes rs)) by (unfold alen; lia). rewrite El, !(proj2 (Z.ltb_ge _ _)) in Hp by lia.
    apply elem_of_cons in Hp as [->|Hp]; [exists r; by split; [left|]|].
    destruct (IH (pre ++ recipe_bytes false r) fuel p Hrs) as (r'&Hin&<-); [|exists r'; by split; [right|]].
    rewrite <- app_assoc. replace (alen (pre ++ recipe_bytes false r)) with (alen pre + recipe_struct_size false + 0); [done|].
    rewrite <- (recipe_bytes_length false r). unfold alen. rewrite length_app. lia.
Qed.

(** ** The recipe of a message's voucher *)
Section processing.
Context `{KernelConfig} `{TableSizes} `{Concurrency} `{Externals} `{RequestSizes} `{KobjectOps} `{Messages} {MS : Type} {mgr : AttrManager MS} `{!Managers mgr}.
Implicit Types (s : vst MS) (y : voucher_system MS) (k n : Z).

Definition processes (v : ipc_voucher) (flags k : Z) : bool :=
  negb (iv_lookup v k =? IV_UNUSED_VALINDEX) && has (ivam_flags (manager_of k)) flags.
Lemma processing_rounds_ok base N s clients a v command flags size keys : ginv base N s clients None -> g_vouchers s !! a = Some v ->
  Forall (fun k => 0 <= k < KEYS) keys -> 0 <= a < 2 ^ 64 -> 0 <= command < 2 ^ 32 ->
  forall rs need, recipe_struct_size false * Z.of_nat (length rs + length keys) <= size ->
  wp (processing_rounds keys a size command flags (recipes_bytes rs) need) (fun r s' => s' = s /\
    r = (KERN_SUCCESS, recipes_bytes (rs ++ ((fun k => mk_recipe (k + 1) command a 0) <$> List.filter (processes v flags) keys)),
         need || existsb (processes v flags) keys)) s.
Proof.
  intros Hg Ha Hkeys Hra Hrc. induction Hkeys as [|k keys Hk _ IH]; intros rs need Hsize.
  { apply wp_ret. simpl. by rewrite app_nil_r, orb_false_r. }
  cbn [processing_rounds]. apply wp_bind, (wp_lookup_at s a v k); [done|]. cbn [List.filter existsb length] in *.
  assert (processes v flags k = negb (iv_lookup v k =? IV_UNUSED_VALINDEX) && has (ivam_flags (manager_of k)) flags) as -> by done.
  assert (recipe_struct_size false = 20) as E20 by done.
  destruct (Z.eqb_spec (iv_lookup v k) IV_UNUSED_VALINDEX) as [E|Hne]; [rewrite E; cbn [negb andb orb]; apply IH; lia|].
  rewrite Z.eqb_sym, (proj2 (Z.eqb_neq _ _) Hne), recipes_bytes_length, (proj2 (Z.ltb_ge _ _)) by lia.
  destruct (index_held base N s clients None a v k Hg Ha) as [|[Hr _]]; [lia|done|].
  destruct (ca_key _ _ _ (gi_caches _ _ _ _ _ Hg) k Hr) as (ac&c&Ht&_). destruct (mg_range k Hr) as [_ Hm0].
  apply wp_bind, (wp_ivgt_lookup N s _ k ac _ (gi_caches _ _ _ _ _ Hg) Hr Ht). rewrite (proj2 (Z.eqb_neq _ _) Hm0).
  apply wp_bind, wp_massert; [done|]. unfold has. destruct (Z.land (ivam_flags (manager_of k)) flags =? 0); cbn [negb andb orb].
  - apply IH. lia.
  - apply wp_bind, (wp_index_to_key N s _ k _ (gi_caches _ _ _ _ _ Hg) Hr). rewrite <- recipes_bytes_snoc.
    eapply wp_mono; [apply IH; rewrite length_app; simpl; lia|]. intros r s' [-> ->]. split; [done|]. cbn [fmap list_fmap orb]. rewrite <- app_assoc. simpl. by rewrite orb_true_r.
Qed.

(** The recipes for a voucher: a copy of it, then the command on what is to be processed. *)
Definition processing_recipes (v : ipc_voucher) (a command flags : Z) : list recipe :=
  mk_recipe MACH_VOUCHER_ATTR_KEY_ALL MACH_VOUCHER_ATTR_COPY a 0 ::
  ((fun k => mk_recipe (k + 1) command a 0) <$> List.filter (processes v flags) (seqZ 0 KEYS)).
Lemma processing_recipes_room v a command flags : alen (recipes_bytes (processing_recipes v a command flags)) <= processing_size.
Proof.
  rewrite recipes_bytes_length. unfold processing_recipes. cbn [length]. rewrite length_fmap. pose proof (List.filter_length_le (processes v flags) (seqZ 0 KEYS)) as Hl.
  rewrite length_seqZ in Hl. change (Z.to_nat KEYS) with 8%nat in Hl. change (recipe_struct_size false) with 20. change processing_size with 180. lia.
Qed.
Lemma processing_recipes_fit v a command flags r : 0 <= a < 2 ^ 64 -> 0 <= command < 2 ^ 32 -> r ∈ processing_recipes v a command flags ->
  (recipe_fits false r /\ rc_content_size r = 0) /\ rc_previous_voucher r = a.
Proof.
  intros Ha Hc [->|(k&->&Hk)%list_elem_of_fmap]%elem_of_cons; (split; [split; [|done]|done]); [split_and!; simpl; (done || lia)|].
  apply list_elem_of_In, List.filter_In in Hk as [Hk%list_elem_of_In%elem_of_seqZ _].
  unfold KEYS, MACH_VOUCHER_ATTR_KEY_NUM_WELL_KNOWN, MACH_VOUCHER_ATTR_KEY_TEST in Hk. split_and!; simpl; lia.
Qed.

(** C24. The recipe that is prepared for the voucher of a message fits in the array for it, copies
    the voucher and runs the command on exactly the attributes it has whose managers want
    that, and is one that [ipc_create_mach_voucher] can run: read back from memory it names
    no other voucher. *)
Theorem processing_recipe_runs n y a b command flags : voucher_reach n y -> a ∈ y_clients y -> 0 <= a < 2 ^ 64 -> 0 <= command < 2 ^ 32 ->
  g_vouchers (y_state y) !! b = None -> b <> IV_NULL ->
  exists v, g_vouchers (y_state y) !! a = Some v /\ let recipes := recipes_bytes (processing_recipes v a command flags) in
    ipc_voucher_prepare_processing_recipe a processing_size command flags (y_state y) =
      Done (KERN_SUCCESS, recipes, existsb (processes v flags) (seqZ 0 KEYS), y_state y) /\
    alen recipes <= processing_size /\ voucher_enabled (CallCreate b recipes) y.
Proof.
  intros Hr Ha Hra Hrc Hb Hb0. destruct (reach_ginv n y Hr) as [_ [base Hg]]. destruct (vk_client _ _ _ _ _ (gi_vouchers _ _ _ _ _ Hg) a Ha) as (v&Hv&_).
  destruct (vk_voucher _ _ _ _ _ (gi_vouchers _ _ _ _ _ Hg) a v Hv) as (Ha0&Hlen&_). exists v. split; [done|].
  assert (Forall (fun k => 0 <= k < KEYS) (seqZ 0 KEYS)) as Hkeys by (apply Forall_forall; intros k Hk%elem_of_seqZ; lia). split_and!.
  - pose proof (processing_rounds_ok base n _ (y_clients y) a v command flags processing_size _ Hg Hv Hkeys Hra Hrc
      [mk_recipe MACH_VOUCHER_ATTR_KEY_ALL MACH_VOUCHER_ATTR_COPY a 0] false) as (r&s'&E&->&->)%wp_elim; [|done].
    unfold ipc_voucher_prepare_processing_recipe. rewrite (proj2 (Z.eqb_neq _ _) Ha0). change (processing_size <? recipe_struct_size false) with false.
    cbv iota. unfold bind at 1, get_voucher. rewrite Hv.
    unfold iv_table_size. rewrite Hlen. exact E.
  - apply processing_recipes_room.
  - split; [done|]. split; [done|]. split; [apply recipes_bytes_ok|]. intros p Hp. right.
    destruct (recipe_vouchers_bytes _ [] _ p ltac:(apply Forall_forall; intros r Hin; by apply processing_recipes_fit in Hin as [? _]) Hp) as (r&Hin&<-).
    by apply processing_recipes_fit in Hin as [_ ->].
Qed.
End processing.

(** ** Concrete states *)
Section instances.
#[local] Existing Instances DEVELOPMENT SMALL_4K quiet plain_externals SMALL_REQUESTS no_ops plain_messages user_data_memory one_manager.

Lemma processing_recipe_runs_witness :
  exists recipes, ipc_voucher_prepare_processing_recipe 0x3000 processing_size MACH_VOUCHER_ATTR_SEND_PREPROCESS IVAM_FLAGS_SUPPORT_SEND_PREPROCESS
      (y_state vouchers_copied) = Done (KERN_SUCCESS, recipes, false, y_state vouchers_copied) /\
    voucher_enabled (CallCreate 0x3100 recipes) vouchers_copied.
Proof.
  destruct copied_reach as (n&Hr&_).
  destruct (processing_recipe_runs n vouchers_copied 0x3000 0x3100 MACH_VOUCHER_ATTR_SEND_PREPROCESS IVAM_FLAGS_SUPPORT_SEND_PREPROCESS Hr) as (v&Hv&E&_&Hen);
    [apply elem_of_multiplicity; vm_compute; lia|lia|unfold MACH_VOUCHER_ATTR_SEND_PREPROCESS; lia|vm_compute; reflexivity|discriminate|].
  eexists. split; [|exact Hen]. rewrite E. vm_compute in Hv. injection Hv as <-. reflexivity.
Defined.

(** The manager of user data is registered for two keys and counts what it handed out for both
    together, while each key's cache gives back what it got itself: data that was stored under
    both keys stays when the voucher has gone. *)
Definition two_keys : voucher_system user_data := Eval vm_compute in system_of (user_data_attr_manager_init 0x2000 0x2100 before_vouchers).
Definition both_recipe : list Z :=
  store_recipe ++ recipe_bytes false (mk_recipe MACH_VOUCHER_ATTR_KEY_TEST MACH_VOUCHER_ATTR_USER_DATA_STORE IV_NULL 3) ++ [1; 2; 3].
Lemma shared_user_data_leaks : let y := run_call (CallRelease 0x3000) (run_call (CallCreate 0x3000 both_recipe) two_keys) in
  map_to_list (g_vouchers (y_state y)) = [] /\ (fun p => (p.1, e_made p.2, e_data p.2)) <$> map_to_list (ud_elements (g_mgr (y_state y))) = [(1, 2, [1; 2; 3])].
Proof. vm_compute. by split. Qed.
(** Under one key it goes. *)
Lemma own_user_data_goes : let y := run_call (CallRelease 0x3000) (run_call (CallCreate 0x3000 store_recipe) two_keys) in
  map_to_list (g_vouchers (y_state y)) = [] /\ map_to_list (ud_elements (g_mgr (y_state y))) = [].
Proof. vm_compute. by split. Qed.
End instances.
